(* ===== verification/_CoqProject ===== *)
-Q . S2P
Prelude.v
Heap5.v
Heap5Spec.v
Heap5Proofs.v
Heap5Refine.v
Heap5Init.v
Heap5Theorems.v
Slab.v
SlabTheorems.v
SdioFifo.v
SdioFifoTheorems.v
Efuse.v
EfuseApi.v
EfuseTheorems.v
TaskWdt.v
TaskWdtTheorems.v
Systimer.v
SystimerTheorems.v
Pm.v
PmTheorems.v
PmSleep.v
PmCycle.v
I2c.v
I2cTheorems.v
I2cSlave.v
Uart.v
UartTheorems.v
UartRaw.v
Dma.v
DmaTheorems.v
DmaCopy.v
Repeater.v
RepeaterTheorems.v
Dhcps.v
DhcpsTheorems.v
DhcpsLeases.v
Cli.v
CliTheorems.v
CliHistory.v
CliReadline.v
SpiFlash.v
SpiFlashTheorems.v
FlashMap.v
FlashMapTheorems.v
FlashCrypto.v
FlashCryptoTheorems.v
McubootAgent.v
McubootHttp.v
McubootAgentTheorems.v
SpiFlashMap.v
SpiProbe.v
SpiProbeTheorems.v
SpiPart.v
SpiPartTheorems.v
