(* ===== verification/Prelude.v ===== *)
(** * Verification of the Wise SDK: root file

    The Wise SDK is the software of a Wi-Fi and BLE system on chip: a
    FreeRTOS-based kernel, drivers, an API layer, networking, and a boot loader
    with over-the-air updates.  This library models parts of it that carry the
    SDK's own logic, function by function, and proves what makes them correct.

    ** Parts and files

    Every part has a file with its definitions, named after the C functions
    they translate, and a file with its theorems ([...Theorems]).

    - Kernel heap, src/kernel/FreeRTOS-ext/heap_5_ext.c and [heap_init] of
      src/hal/soc/scm2010/soc.c.  [Heap5]: two address-ordered free lists in a
      store of block headers.  [Heap5Spec]: an allocator without pointers.
      [Heap5Proofs], [Heap5Refine]: the lists represent the allocator, and
      searching, splitting and coalescing implement it.  [Heap5Init]: start-up
      on any two region tables.  [Heap5Theorems]: refinement over sequences of
      calls, allocation and release, safety of what is handed out.
    - Memory slabs, src/kernel/mem_slab.c.  [Slab]: the free list is chained
      through the blocks; callers wait on a queue of the RTOS (class
      [OsQueue]).  [SlabTheorems]: invariant over interleavings, totality, and
      a wake-up that gets lost.
    - SDIO receive FIFO, src/lib/sdio/sdio-fifo.c, and the way sdioif and scdc
      use it.  [SdioFifo], [SdioFifoTheorems]: a queue of packets that are never
      split, and the cases in which a full FIFO is taken for an empty one.
    - eFuses, src/hal/drivers/efuse/efuse-scm2010.c ([Efuse]) and
      src/api/scm_efuse.c ([EfuseApi]).  The API is proved against the interface
      [RowDeviceLaws], which [EfuseTheorems] discharges for every mode of the
      driver.
    - Task watchdog, src/api/wise/wise_task_wdt.c.  [TaskWdt],
      [TaskWdtTheorems]: no false alarm for tasks that keep their promise.
    - System timer, src/hal/drivers/systimer/systimer-scm2010.c.  [Systimer]: a
      queue of alarms over one compare register, with a counter that runs on
      between any two readings (class [CompareUnit] is the comparator).
      [SystimerTheorems]: the queue and the alarm flags agree, the next alarm
      is always armed, no alarm is early or lost, and a new alarm goes where its
      distance puts it.
    - Power manager, src/hal/soc/scm2010/pm.c, and suspending of devices,
      src/hal/drivers/core/device.c.  [Pm]: context, retention RAM and registers
      are one memory; a sleep is a parameter that says how long it took and what
      was lost.  [PmTheorems]: a rule for every command, and that a sleep that is
      decided on fits.  [PmSleep]: the parts of falling asleep and waking up.
      [PmCycle]: sleeping is transparent, and the time that long sleeps lose.
    - I2C driver, src/hal/drivers/i2c/i2c-atci2c.c.  [I2c]: the functions of master
      and slave on a controller whose bytes move between any two steps (class
      [I2cHw]; the client and the DMA driver are the classes [I2cClient] and
      [I2cDma]).  [I2cTheorems]: a transfer of a master moves exactly its bytes and
      ends.  [I2cSlave]: what a slave keeps and reports of what it is sent.
    - Serial ports, src/hal/drivers/serial/serial-core.c and serial-atcuart.c.
      [Uart]: files with queues, and a raw mode with the buffers of a client, on a
      controller whose characters move between any two steps (classes [UartHw],
      [UartHwLaws], [UartDma], [UartClient]) and where a character can come in
      damaged.  [UartTheorems]: what is written, with or without waiting, leaves
      the port.  [UartRaw]: transmissions and receptions of the raw mode.
    - DMA controller, src/hal/drivers/dma/dma-scm2010.c.  [Dma], [DmaTheorems]:
      channels are exclusive and the interrupt handler tells every owner.
      [DmaCopy]: chains of copies are memory copies, with words only at aligned
      addresses.
    - Wi-Fi repeater, src/lib/repeater/wifi_repeater.c.  [Repeater],
      [RepeaterTheorems]: the filter table refines a bounded list, and packets
      go where the rules of the table send them.
    - DHCP server, src/lib/net/dhcps/dhcps.c.  [Dhcps]: lease board, offered and
      bound clients, parsing of requests and construction of replies.
      [DhcpsTheorems]: parsing and the single handlers.  [DhcpsLeases]: no
      address belongs to two clients over any sequence of messages, a complete
      exchange ends with the lease, and an option that is too long overruns.
    - Command line, src/lib/cli/cli.c.  [Cli]: the parser that works in place,
      the history ring, the line editor and the commands of the file, over a
      store of string objects.  [CliTheorems]: lines are run as a reference
      definition says.  [CliHistory]: the ring refines the list of all lines.
      [CliReadline]: the editor computes what the keys mean, and whole sessions
      of the console.
    - SPI flash, src/hal/drivers/spi-flash/: [SpiFlash] (spi-flash.c and the
      compact variant of atcspi200.c), [SpiFlashTheorems]: erasing, programming
      and reading are exact for any table of regions and erase methods, and
      every polling loop ends although the timer wraps around.  [SpiProbe]
      (with spi-flash-*.c of the vendors), [SpiProbeTheorems]: the descriptor that
      probing builds from the SFDP tables of a chip, through identification and
      the switch to four lines, agrees with the chip, as those theorems assume.  [SpiPart],
      [SpiPartTheorems]: the partition table refines a set of partitions and
      survives a restart.
    - Flash map, flash_map_backend.c and flash_backend.c of the boot loader.
      [FlashMap], [FlashMapTheorems]: writes at any offset through whole blocks.
    - Flash encryption, flash_crypto.c and flash_backend.c.  [FlashCrypto]: the
      protocol of the cipher engine (classes [Ske], [SkeLaws]).
      [FlashCryptoTheorems]: encryption is counter mode over the address, and
      the flash map above it writes what reading through the cipher returns; the
      encrypting backend is an instance of the interface [BlockDevice].
    - Update agent, src/lib/scm_mcuboot/update_agent/mcuboot_agent.c.
      [McubootAgent]; [McubootHttp]: what a response of the server looks like, and
      what the agent reads from it; [McubootAgentTheorems]: after a download the
      slot holds the image.
    - [SpiFlashMap] puts driver, flash map and agent together: the agent and the flash map
      are proved against the interface [NorFlash]; the SPI driver, on a chip
      that keeps its data sheet ([NorChip]), discharges it.

    ** How code is modelled

    A C function is a computation in the monad [M]: it takes the state of its
    component (a record) and ends in an [outcome], which is a result with a new
    state, a failed assertion, a fault (an access outside an object or through a
    null pointer), or a lack of fuel.  Machine integers are numbers in [Z] with
    the wrap-around written out ([u8], [u16], [u32], [s32]); errors are the
    negative numbers that the code returns.  Loops that are not structural carry
    fuel.  The theorems give bounds that suffice (the number of blocks, bytes,
    channels or polls that the loop can go through) and conclude with [Ret], so
    that they include termination and the absence of faults.

    Hardware and code outside the sources are parameters: classes with the
    operations ([OsQueue], [Scheduler], [FlashHw], [SpiBus], [NorFlash], ...) and
    classes or hypotheses with the documented behaviour.  The modules [Demo] run
    the models on concrete devices and show that the hypotheses can hold.

    ** What is shown

    Refinement of an abstract specification: heap, SDIO FIFO, repeater table,
    command history, partition table, the driver and the encryption below the
    flash map.  Equivalence with a reference: DMA copies, counter mode, the line
    editor.  Invariants over interleaved steps: slabs, DMA channels, watchdog,
    system timer, DHCP leases.  Functional behaviour on all branches: heap
    start-up, eFuse access, interrupt handling, routing, flash writes and
    erasures, probing, the update command, sessions of the console, sleep and
    wake-up, transfers on the I2C bus and on serial lines under every
    interleaving of bus and interrupts.  Round trips: allocation and
    release, eFuse and flash writes and reads, DHCP messages.

    Some theorems and examples state what the code does where it differs from
    what its comments promise or its callers expect: overlapping heap regions, a
    lost wake-up, a full FIFO that looks empty, negative eFuse rows, long watchdog
    periods and alarms, the timer after long sleeps, lost DMA completions and stale
    DMA lengths, empty and lost I2C transactions, serial ports that stall,
    unspecified ports, DHCP options that are too long, strings of the command line
    that are freed or overrun, unaligned flash writes, time-outs that are reported as
    positive numbers, vendor probes that discard what SFDP said, truncated downloads.
    The comment of each property names the conditions under which it holds, and
    where such a condition can fail in the program, the lemma that shows it.

    ** Not modelled

    Third-party code (FreeRTOS, lwip, hostap, nimble, mbedtls, the boot loader
    proper) and the vendored libraries; register sequences of single
    peripherals, the clock tree, regulators and start-up; shell commands except the ones
    named above; the locking hooks of flash memories; the snapshot registers of the
    system timer; the reference count and the timer object of the DHCP server;
    tracing and debugging variants of the heap; the mutexes around the FIFO and the
    interrupt masking of the drivers, which appear as the atomicity of steps. *)

From Stdlib Require Import ZArith Lia.
From stdpp Require Import base tactics numbers list gmap.

#[global] Open Scope Z_scope.

(** ** Outcomes of running C code

    [Ret] is normal termination, [AssertFailed] a failed [assert] or
    [configASSERT], [Fault] an access to memory the C program may not access
    (or never initialised), and [OutOfFuel] says that the fuel given to a
    loop did not suffice.  Totality theorems always conclude with [Ret]. *)

Inductive outcome (A : Type) : Type :=
| Ret (a : A)
| AssertFailed
| Fault
| OutOfFuel.

Arguments Ret {A} a.
Arguments AssertFailed {A}.
Arguments Fault {A}.
Arguments OutOfFuel {A}.

(** The state and error monad of the models: one C function that works on a
    state [S] and returns an [A]. *)

Definition M (S A : Type) : Type := S → outcome (A * S).

#[global] Instance M_ret {S} : MRet (M S) := λ A a s, Ret (a, s).

#[global] Instance M_bind {S} : MBind (M S) := λ A B k c s,
  match c s with
  | Ret (a, s') => k a s'
  | AssertFailed => AssertFailed
  | Fault => Fault
  | OutOfFuel => OutOfFuel
  end.

#[global] Arguments mbind {_ _ _ _} _ _ : simpl never.
#[global] Arguments M_bind {_ _ _} _ _ _ : simpl never.

Definition get {S} : M S S := λ s, Ret (s, s).
Definition put {S} (s' : S) : M S unit := λ _, Ret ((), s').
Definition modify {S} (f : S → S) : M S unit := λ s, Ret ((), f s).
Definition fault {S A} : M S A := λ _, Fault.
Definition out_of_fuel {S A} : M S A := λ _, OutOfFuel.

(** [assert(b)] and FreeRTOS' [configASSERT(b)]. *)
Definition c_assert {S} (b : bool) : M S unit :=
  λ s, if b then Ret ((), s) else AssertFailed.

Definition lift_opt {S A} (o : option A) : M S A :=
  λ s, match o with Some a => Ret (a, s) | None => Fault end.

Lemma bind_Ret {S A B} (c : M S A) (k : A → M S B) s a s' :
  c s = Ret (a, s') → (c ≫= k) s = k a s'.
Proof. intros H. unfold mbind, M_bind. by rewrite H. Qed.

Lemma bind_ret_l {S A B} (a : A) (k : A → M S B) s : (mret a ≫= k) s = k a s.
Proof. done. Qed.

Lemma obind_Some {A B} (a : A) (k : A → option B) : (Some a ≫= k) = k a.
Proof. done. Qed.

Lemma bind_Ret_inv {S A B} (c : M S A) (k : A → M S B) s r :
  (c ≫= k) s = Ret r → ∃ a s', c s = Ret (a, s') ∧ k a s' = Ret r.
Proof.
  unfold mbind, M_bind. destruct (c s) as [[a s']| | |] eqn:E; try done.
  eauto.
Qed.

Lemma bind_assoc {S A B C} (m : M S A) (f : A → M S B) (g : B → M S C) s :
  ((m ≫= f) ≫= g) s = (m ≫= (λ a, f a ≫= g)) s.
Proof. unfold mbind, M_bind. by destruct (m s) as [[]| | |]. Qed.

Lemma bind_ext {S A B} (m : M S A) (f g : A → M S B) s :
  (∀ a s', f a s' = g a s') → (m ≫= f) s = (m ≫= g) s.
Proof. intros H. unfold mbind, M_bind. by destruct (m s) as [[]| | |]. Qed.

(** ** Weakest preconditions

    The command returns, with a result and a state that satisfy [Q]. *)
Definition wp {S A} (c : M S A) (s : S) (Q : A → S → Prop) : Prop :=
  match c s with Ret (a, s') => Q a s' | _ => False end.

Section Wp.
Context {S A B : Type}.
Implicit Types (s : S).

Lemma wp_bind (c : M S A) (k : A → M S B) s Q : wp c s (λ a s', wp (k a) s' Q) → wp (c ≫= k) s Q.
Proof. unfold wp. destruct (c s) as [[a s']| | |] eqn:E; try done. by rewrite (bind_Ret c k s a s' E). Qed.

Lemma wp_mono (c : M S A) s (P Q : A → S → Prop) : wp c s P → (∀ a s', P a s' → Q a s') → wp c s Q.
Proof. unfold wp. destruct (c s) as [[a s']| | |]; eauto. Qed.

Lemma wp_inv (c : M S A) s Q a s' : wp c s Q → c s = Ret (a, s') → Q a s'.
Proof. unfold wp. intros H E. by rewrite E in H. Qed.

Lemma wp_run (c : M S A) s Q : wp c s Q → ∃ a s', c s = Ret (a, s') ∧ Q a s'.
Proof. unfold wp. destruct (c s) as [[a s']| | |]; eauto; done. Qed.

Lemma wp_and (c : M S A) s (P Q : A → S → Prop) : wp c s P → wp c s Q → wp c s (λ a s', P a s' ∧ Q a s').
Proof. unfold wp. destruct (c s) as [[a s']| | |]; eauto. Qed.

Lemma wp_ret (a : A) s (Q : A → S → Prop) : Q a s → wp (mret a) s Q.
Proof. done. Qed.

Lemma wp_get s (Q : S → S → Prop) : Q s s → wp get s Q.
Proof. done. Qed.

Lemma wp_modify (f : S → S) s (Q : unit → S → Prop) : Q () (f s) → wp (modify f) s Q.
Proof. done. Qed.

Lemma wp_lift (o : option A) a s (Q : A → S → Prop) : o = Some a → Q a s → wp (lift_opt o) s Q.
Proof. by intros ->. Qed.

Lemma wp_assert b s (Q : unit → S → Prop) : b = true → Q () s → wp (c_assert b) s Q.
Proof. by intros ->. Qed.

Lemma wp_if (b : bool) (c d : M S A) s Q :
  (b = true → wp c s Q) → (b = false → wp d s Q) → wp (if b then c else d) s Q.
Proof. destruct b; auto. Qed.
End Wp.

(** One step of symbolic execution: run the first command of a bind. *)
Ltac mstep :=
  erewrite bind_Ret; [| first [reflexivity | eassumption]].

(** Reduce the tests of a conditional that have become constants. *)
Ltac redb := cbn [negb andb orb fst snd].

(** ** Machine integers *)

Definition u8 (x : Z) : Z := x mod 2 ^ 8.
Definition u16 (x : Z) : Z := x mod 2 ^ 16.
Definition u32 (x : Z) : Z := x mod 2 ^ 32.
Definition s8 (x : Z) : Z := (x + 2 ^ 7) mod 2 ^ 8 - 2 ^ 7.
Definition s16 (x : Z) : Z := (x + 2 ^ 15) mod 2 ^ 16 - 2 ^ 15.
Definition s32 (x : Z) : Z := (x + 2 ^ 31) mod 2 ^ 32 - 2 ^ 31.

(** [BIT(n)] of the SDK headers. *)
Definition BIT (n : Z) : Z := Z.shiftl 1 n.

Abbreviation NULL := 0 (only parsing).

Lemma u8_range x : 0 ≤ u8 x < 256.
Proof. apply Z.mod_pos_bound. lia. Qed.
Lemma u16_range x : 0 ≤ u16 x < 65536.
Proof. apply Z.mod_pos_bound. lia. Qed.
Lemma u32_range x : 0 ≤ u32 x < 4294967296.
Proof. apply Z.mod_pos_bound. lia. Qed.
Lemma u8_id x : 0 ≤ x < 256 → u8 x = x.
Proof. intros. by apply Z.mod_small. Qed.
Lemma u16_id x : 0 ≤ x < 65536 → u16 x = x.
Proof. intros. by apply Z.mod_small. Qed.
Lemma u32_id x : 0 ≤ x < 4294967296 → u32 x = x.
Proof. intros. by apply Z.mod_small. Qed.
Lemma s32_id x : -2147483648 ≤ x < 2147483648 → s32 x = x.
Proof. intros. unfold s32. rewrite Z.mod_small; lia. Qed.
Lemma s16_id x : -32768 ≤ x < 32768 → s16 x = x.
Proof. intros. unfold s16. rewrite Z.mod_small; lia. Qed.

Create HintDb wise discriminated.
Create Rewrite HintDb wise.
#[export] Hint Resolve u8_range u16_range u32_range : wise.
#[export] Hint Rewrite u8_id u16_id u32_id s32_id s16_id using lia : wise.

(** [lia] with [/] and [mod] by constants. *)
Ltac zlia := solve [lia | Z.to_euclidean_division_equations; lia].

Lemma geb_false x y : (x >=? y) = false ↔ x < y.
Proof. rewrite Z.geb_leb. apply Z.leb_gt. Qed.

Lemma gtb_false x y : (x >? y) = false ↔ x ≤ y.
Proof. rewrite Z.gtb_ltb. apply Z.ltb_ge. Qed.

(** ** Bit operations *)

Lemma testbit_BIT n i : 0 ≤ n → 0 ≤ i → Z.testbit (BIT n) i = bool_decide (i = n).
Proof.
  intros Hn Hi. unfold BIT. rewrite Z.shiftl_spec by done.
  case_bool_decide as E.
  - subst. by rewrite Z.sub_diag.
  - destruct (Z.lt_ge_cases (i - n) 0).
    + by rewrite Z.testbit_neg_r.
    + apply Z.bits_above_log2; [done|]. change (Z.log2 1) with 0. lia.
Qed.

Lemma land_BIT x n : 0 ≤ n →
  Z.land x (BIT n) = if Z.testbit x n then BIT n else 0.
Proof.
  intros Hn. apply Z.bits_inj'. intros i Hi.
  rewrite Z.land_spec, testbit_BIT by done.
  case_bool_decide as E; subst.
  - rewrite andb_true_r. destruct (Z.testbit x n) eqn:Ex; [|by rewrite Z.bits_0].
    rewrite testbit_BIT by done. by rewrite bool_decide_true.
  - rewrite andb_false_r. destruct (Z.testbit x n); [|by rewrite Z.bits_0].
    rewrite testbit_BIT by done. by rewrite bool_decide_false.
Qed.

Lemma BIT_pos n : 0 ≤ n → 0 < BIT n.
Proof. intros. unfold BIT. rewrite Z.shiftl_1_l. by apply Z.pow_pos_nonneg. Qed.

Lemma land_BIT_zero x n : 0 ≤ n → (Z.land x (BIT n) =? 0) = negb (Z.testbit x n).
Proof.
  intros Hn. rewrite land_BIT by done. pose proof (BIT_pos n Hn).
  destruct (Z.testbit x n); simpl; lia.
Qed.

(** Masking with [2^k - 1] is reduction modulo [2^k]. *)
Lemma land_mask x k : 0 ≤ k → Z.land x (2 ^ k - 1) = x mod 2 ^ k.
Proof.
  intros. rewrite <-Z.land_ones by done. f_equal. rewrite Z.ones_equiv. lia.
Qed.

Lemma land_15 x : Z.land x 15 = x mod 16.
Proof. apply (land_mask x 4). lia. Qed.

(** Clearing the low [k] bits rounds down to a multiple of [2^k]. *)
Lemma land_lnot_mask x k :
  0 ≤ k → Z.land x (Z.lnot (2 ^ k - 1)) = x - x mod 2 ^ k.
Proof.
  intros. rewrite <-(land_mask x k), <-Z.ldiff_land by done.
  rewrite (Z.sub_nocarry_ldiff x (Z.land x _));
    apply Z.bits_inj'; intros i Hi; rewrite ?Z.ldiff_spec, ?Z.land_spec, ?Z.bits_0;
    by destruct (Z.testbit x i), (Z.testbit (2 ^ k - 1) i).
Qed.

Lemma land_lnot_15 x : Z.land x (Z.lnot 15) = x - x mod 16.
Proof. apply (land_lnot_mask x 4). lia. Qed.

Lemma testbit_small x n : 0 ≤ n → 0 ≤ x < 2 ^ n → Z.testbit x n = false.
Proof.
  intros Hn Hx. destruct (Z.eq_dec x 0) as [->|]; [apply Z.bits_0|].
  apply Z.bits_above_log2; [lia|]. apply Z.log2_lt_pow2; lia.
Qed.

Lemma testbit_above x n i : 0 ≤ n → 0 ≤ x < 2 ^ n → n ≤ i → Z.testbit x i = false.
Proof.
  intros Hn Hx Hi. apply testbit_small; [lia|]. split; [lia|].
  eapply Z.lt_le_trans; [apply Hx|]. by apply Z.pow_le_mono_r.
Qed.

(** A number with no bit at or above [n] is below [2^n]. *)
Lemma bits_range x n : 0 ≤ n → 0 ≤ x → (∀ i, n ≤ i → Z.testbit x i = false) → x < 2 ^ n.
Proof.
  intros Hn Hx Hb. destruct (Z.lt_ge_cases x (2 ^ n)) as [|Hge]; [done|exfalso].
  assert (0 < 2 ^ n) by (by apply Z.pow_pos_nonneg).
  assert (n ≤ Z.log2 x) by (apply Z.log2_le_pow2; lia).
  specialize (Hb (Z.log2 x) ltac:(done)). rewrite Z.bit_log2 in Hb by lia. done.
Qed.

Lemma lor_range x y n : 0 ≤ n → 0 ≤ x < 2 ^ n → 0 ≤ y < 2 ^ n → 0 ≤ Z.lor x y < 2 ^ n.
Proof.
  intros Hn Hx Hy. split; [apply Z.lor_nonneg; lia|].
  apply bits_range; [done|apply Z.lor_nonneg; lia|].
  intros i Hi. rewrite Z.lor_spec, !(testbit_above _ n) by done. done.
Qed.

Lemma land_range_l x y n : 0 ≤ n → 0 ≤ x < 2 ^ n → 0 ≤ Z.land x y < 2 ^ n.
Proof.
  intros Hn Hx. split; [apply Z.land_nonneg; lia|].
  apply bits_range; [done|apply Z.land_nonneg; lia|].
  intros i Hi. by rewrite Z.land_spec, (testbit_above x n).
Qed.

Lemma BIT_range i n : 0 ≤ i < n → 0 ≤ BIT i < 2 ^ n.
Proof.
  intros. unfold BIT. rewrite Z.shiftl_1_l. split; [apply Z.pow_nonneg; lia|].
  apply Z.pow_lt_mono_r; lia.
Qed.

Lemma word_eq x y n :
  0 ≤ n → 0 ≤ x < 2 ^ n → 0 ≤ y < 2 ^ n →
  (∀ i, 0 ≤ i < n → Z.testbit x i = Z.testbit y i) → x = y.
Proof.
  intros Hn Hx Hy Hb. apply Z.bits_inj'. intros i Hi.
  destruct (Z.lt_ge_cases i n); [by apply Hb|]. by rewrite !(testbit_above _ n).
Qed.

Lemma testbit_lor_BIT x i j : 0 ≤ i → 0 ≤ j →
  Z.testbit (Z.lor x (BIT i)) j = Z.testbit x j || bool_decide (j = i).
Proof. intros. by rewrite Z.lor_spec, testbit_BIT. Qed.

Lemma testbit_land_lnot_BIT x i j : 0 ≤ i → 0 ≤ j →
  Z.testbit (Z.land x (Z.lnot (BIT i))) j = Z.testbit x j && negb (bool_decide (j = i)).
Proof. intros. by rewrite Z.land_spec, Z.lnot_spec, testbit_BIT. Qed.

(** Packing a small field below a shifted one. *)
Lemma lor_shiftl_add x y k : 0 ≤ k → 0 ≤ y < 2 ^ k → Z.lor (Z.shiftl x k) y = x * 2 ^ k + y.
Proof.
  intros Hk Hy. assert (Z.land (Z.shiftl x k) y = 0) as E.
  { apply Z.bits_inj'. intros i Hi. rewrite Z.land_spec, Z.bits_0.
    destruct (Z.lt_ge_cases i k).
    - by rewrite Z.shiftl_spec_low.
    - by rewrite (testbit_above y k), andb_false_r. }
  by rewrite <-Z.lxor_lor, <-Z.add_nocarry_lxor, Z.shiftl_mul_pow2.
Qed.

(** The top bit as a flag, the way the allocators use it. *)
Lemma lor_add_disjoint x n : 0 ≤ n → 0 ≤ x < 2 ^ n → Z.lor x (2 ^ n) = x + 2 ^ n.
Proof.
  intros Hn Hx.
  assert (Z.land x (2 ^ n) = 0) as E.
  { rewrite <-Z.shiftl_1_l. fold (BIT n). by rewrite land_BIT, testbit_small. }
  by rewrite <-Z.lxor_lor, <-Z.add_nocarry_lxor.
Qed.

Lemma testbit_add_pow2 x n : 0 ≤ n → 0 ≤ x < 2 ^ n → Z.testbit (x + 2 ^ n) n = true.
Proof.
  intros Hn Hx. rewrite <-lor_add_disjoint by done.
  rewrite Z.lor_spec, Z.pow2_bits_true by done. by rewrite orb_true_r.
Qed.

Lemma land_lnot_add x n : 0 ≤ n → 0 ≤ x < 2 ^ n →
  Z.land (x + 2 ^ n) (Z.lnot (2 ^ n)) = x.
Proof.
  intros Hn Hx. rewrite <-lor_add_disjoint by done.
  apply Z.bits_inj'. intros i Hi.
  rewrite Z.land_spec, Z.lor_spec, Z.lnot_spec by done.
  destruct (Z.eq_dec i n) as [->|].
  - rewrite Z.pow2_bits_true by done. rewrite testbit_small by done. done.
  - rewrite Z.pow2_bits_false by done. simpl. by rewrite orb_false_r, andb_true_r.
Qed.

Lemma land_topbit_zero x n : 0 ≤ n → 0 ≤ x < 2 ^ (n + 1) →
  (Z.land x (2 ^ n) =? 0) = (x <? 2 ^ n).
Proof.
  intros Hn Hx. rewrite <-Z.shiftl_1_l. fold (BIT n).
  rewrite land_BIT_zero by done. unfold BIT. rewrite Z.shiftl_1_l.
  destruct (Z.ltb_spec x (2 ^ n)).
  - by rewrite testbit_small by lia.
  - replace x with ((x - 2 ^ n) + 2 ^ n) by lia.
    rewrite testbit_add_pow2; [done|done|].
    rewrite Z.pow_add_r in Hx by lia. lia.
Qed.

(** ** Lists and finite maps *)

Lemma NoDup_length_le_size {V} (m : gmap Z V) (l : list Z) :
  NoDup l → (∀ x, x ∈ l → is_Some (m !! x)) → (length l ≤ size m)%nat.
Proof.
  intros Hnd Hin. rewrite <-(size_list_to_set (C:=gset Z) l Hnd).
  rewrite <-(size_dom (D:=gset Z) m). apply subseteq_size.
  intros x Hx. apply elem_of_list_to_set in Hx. apply elem_of_dom. by apply Hin.
Qed.

Lemma filter_all {A} (P : A → Prop) `{!∀ x, Decision (P x)} (l : list A) :
  (∀ x, x ∈ l → P x) → filter P l = l.
Proof.
  induction l as [|x l IH]; intros HP; [done|].
  rewrite filter_cons_True by (apply HP; by left). f_equal. apply IH. intros. apply HP. by right.
Qed.

Lemma filter_none {A} (P : A → Prop) `{!∀ x, Decision (P x)} (l : list A) :
  (∀ x, x ∈ l → ¬ P x) → filter P l = [].
Proof.
  induction l as [|x l IH]; intros HP; [done|].
  rewrite filter_cons_False by (apply HP; by left). apply IH. intros. apply HP. by right.
Qed.

Lemma Forall_filter_sub {A} (P Q : A → Prop) `{!∀ x, Decision (P x)} (l : list A) :
  Forall Q l → Forall Q (filter P l).
Proof. rewrite !Forall_forall. intros Hl x [_ Hx]%list_elem_of_filter. by apply Hl. Qed.
