(* ===== verification/Heap5.v ===== *)
(** * The kernel heap: src/kernel/FreeRTOS-ext/heap_5_ext.c

    The allocator behind [pvPortMalloc], [pvPortMallocDMA] and [vPortFree],
    in the configuration of the shipped application images
    (CONFIG_SUPPORT_DMA_DYNAMIC_ALLOC=y, CONFIG_USE_MALLOC_DEBUG=n, RV32):
    two address-ordered free lists, the ordinary one and the DMA one, whose
    links are [BlockLink_t] headers in the heap memory itself.

    The memory is a store of headers shared by both lists: a pointer is a
    32-bit address and the two fields of [BlockLink_t] are two finite maps
    from addresses.  Reading a field that was never written is a [Fault], and
    so is writing a header outside RAM; a [configASSERT] that does not hold is
    [AssertFailed].  Nothing in this file assumes that the lists are well
    formed: that is the invariant of Heap5Proofs.v. *)

From stdpp Require Import base tactics numbers list gmap.
From S2P Require Import Prelude.

(** ** Constants of the port (portmacro.h and heap_5_ext.c) *)

Definition portBYTE_ALIGNMENT : Z := 16.
Definition portBYTE_ALIGNMENT_MASK : Z := 15.

(** [sizeof (BlockLink_t)] is 8 on RV32 without the debug fields. *)
Definition xHeapStructSize : Z :=
  Z.land (8 + (portBYTE_ALIGNMENT - 1)) (Z.lnot portBYTE_ALIGNMENT_MASK).
Definition heapMINIMUM_BLOCK_SIZE : Z := Z.shiftl xHeapStructSize 1.
Definition DMA_BUFFER_MARK : Z := 0xFFFFFFFF.

(** Where the two static list heads live, and which addresses can hold a
    [BlockLink_t]. *)
Class HeapEnv := {
  addr_xStart : Z;
  addr_xStartDMA : Z;
  ram : Z → bool;
}.

(** ** State: the headers in memory and the file's variables *)

Record heap := Heap {
  hp_next : gmap Z Z;           (* pxNextFreeBlock, by header address *)
  hp_size : gmap Z Z;           (* xBlockSize, by header address *)
  hp_pxEnd : Z;                 (* _pxEnd *)
  hp_pxEndDMA : Z;              (* pxEndDMA *)
  hp_free : Z;                  (* xFreeBytesRemaining *)
  hp_minfree : Z;               (* xMinimumEverFreeBytesRemaining *)
  hp_allocbit : Z;              (* _xBlockAllocatedBit *)
}.

Record HeapRegion_t := HeapRegion { pucStartAddress : Z; xSizeInBytes : Z }.

Definition with_next (h : heap) (m : gmap Z Z) : heap :=
  Heap m (hp_size h) (hp_pxEnd h) (hp_pxEndDMA h) (hp_free h) (hp_minfree h) (hp_allocbit h).
Definition with_size (h : heap) (m : gmap Z Z) : heap :=
  Heap (hp_next h) m (hp_pxEnd h) (hp_pxEndDMA h) (hp_free h) (hp_minfree h) (hp_allocbit h).
Definition with_end (dma : bool) (e : Z) (h : heap) : heap :=
  if dma then Heap (hp_next h) (hp_size h) (hp_pxEnd h) e (hp_free h) (hp_minfree h) (hp_allocbit h)
  else Heap (hp_next h) (hp_size h) e (hp_pxEndDMA h) (hp_free h) (hp_minfree h) (hp_allocbit h).
Definition with_counters (f m : Z) (h : heap) : heap :=
  Heap (hp_next h) (hp_size h) (hp_pxEnd h) (hp_pxEndDMA h) f m (hp_allocbit h).
Definition with_allocbit (b : Z) (h : heap) : heap :=
  Heap (hp_next h) (hp_size h) (hp_pxEnd h) (hp_pxEndDMA h) (hp_free h) (hp_minfree h) b.

Section Operations.
Context {ENV : HeapEnv}.

(** Field accesses [p->pxNextFreeBlock] and [p->xBlockSize]. *)
Definition get_next (p : Z) : M heap Z := λ h,
  match hp_next h !! p with Some n => Ret (n, h) | None => Fault end.
Definition get_size (p : Z) : M heap Z := λ h,
  match hp_size h !! p with Some n => Ret (n, h) | None => Fault end.
Definition set_next (p v : Z) : M heap unit := λ h,
  if ram p then Ret ((), with_next h (<[p := v]> (hp_next h))) else Fault.
Definition set_size (p v : Z) : M heap unit := λ h,
  if ram p then Ret ((), with_size h (<[p := v]> (hp_size h))) else Fault.

(** The loops walk lists of distinct headers, so the number of headers bounds
    their iterations. *)
Definition list_fuel (h : heap) : nat := S (size (hp_next h)).

Definition list_start (dma : bool) : Z := if dma then addr_xStartDMA else addr_xStart.
Definition list_end (dma : bool) (h : heap) : Z := if dma then hp_pxEndDMA h else hp_pxEnd h.

(** ** Inserting a block: [for (it = start; it->next < blk; it = it->next)] *)
Fixpoint insert_iter (fuel : nat) (it blk : Z) : M heap Z :=
  match fuel with
  | O => out_of_fuel
  | S fuel =>
      nx ← get_next it;
      if nx <? blk then insert_iter fuel nx blk else mret it
  end.

(** The body shared, line by line, by [prvInsertBlockIntoFreeListWithDMA] and
    [p_prvInsertBlockIntoFreeList].  First its second half: block [b] is in
    place; merge it with the block behind, unless that is the end marker. *)
Definition link_behind (it pend b : Z) : M heap unit :=
  b_size ← get_size b;
  nx ← get_next it;
  if u32 (b + b_size) =? nx
  then if negb (nx =? pend)
       then nx_size ← get_size nx;
            set_size b (u32 (b_size + nx_size));;
            nn ← get_next nx;
            set_next b nn
       else set_next b pend
  else set_next b nx.

(** Find the place, merge with the block in front, then [link_behind], then
    link the block from the one in front unless it became part of it. *)
Definition insert_between (start pend blk : Z) : M heap unit :=
  h ← get;
  it ← insert_iter (list_fuel h) start blk;
  it_size ← get_size it;
  b ← (if u32 (it + it_size) =? blk
       then blk_size ← get_size blk;
            set_size it (u32 (it_size + blk_size));; mret it
       else mret blk);
  link_behind it pend b;;
  if negb (it =? b) then set_next it b else mret ().

Definition prvInsertBlockIntoFreeListWithDMA (blk : Z) (dma : bool) : M heap unit :=
  h ← get;
  insert_between (list_start dma) (list_end dma h) blk.

Definition p_prvInsertBlockIntoFreeList (blk : Z) : M heap unit :=
  h ← get;
  insert_between addr_xStart (hp_pxEnd h) blk.

(** ** Allocation *)

(** [while (blk->xBlockSize < wanted && blk->pxNextFreeBlock != NULL)] *)
Fixpoint search_iter (fuel : nat) (prev blk wanted : Z) : M heap (Z * Z) :=
  match fuel with
  | O => out_of_fuel
  | S fuel =>
      sz ← get_size blk;
      if sz <? wanted
      then nx ← get_next blk;
           if negb (nx =? NULL) then search_iter fuel blk nx wanted
           else mret (prev, blk)
      else mret (prev, blk)
  end.

Definition search (start wanted : Z) : M heap (Z * Z) :=
  h ← get;
  first ← get_next start;
  search_iter (list_fuel h) start first wanted.

(** The size arithmetic at the head of every allocation function. *)
Definition block_size_for (xWantedSize : Z) : Z :=
  if xWantedSize >? 0 then
    let w := u32 (xWantedSize + xHeapStructSize) in
    if negb (Z.land w portBYTE_ALIGNMENT_MASK =? 0)
    then u32 (w + (portBYTE_ALIGNMENT - Z.land w portBYTE_ALIGNMENT_MASK))
    else w
  else xWantedSize.

(** Once a block was found: unlink it, split it when the rest is larger than
    the minimum block, account for it and mark it allocated. *)
Definition split_block (blk wanted : Z) (dma : bool) : M heap unit :=
  bs ← get_size blk;
  if u32 (bs - wanted) >? heapMINIMUM_BLOCK_SIZE
  then let new := u32 (blk + wanted) in
       set_size new (u32 (bs - wanted));;
       set_size blk wanted;;
       prvInsertBlockIntoFreeListWithDMA new dma
  else mret ().

Definition account_block (blk : Z) (dma : bool) : M heap unit :=
  sz ← get_size blk;
  modify (λ h, with_counters (u32 (hp_free h - sz)) (hp_minfree h) h);;
  modify (λ h, if hp_free h <? hp_minfree h
               then with_counters (hp_free h) (hp_free h) h else h);;
  h ← get;
  sz ← get_size blk;
  set_size blk (Z.lor sz (hp_allocbit h));;
  set_next blk (if dma then DMA_BUFFER_MARK else NULL).

Definition take_block (prev blk wanted : Z) (dma : bool) : M heap Z :=
  pn ← get_next prev;
  let pvReturn := u32 (pn + xHeapStructSize) in
  bn ← get_next blk;
  set_next prev bn;;
  split_block blk wanted dma;;
  account_block blk dma;;
  mret pvReturn.

Definition p_pvPortMalloc (xWantedSize : Z) : M heap Z :=
  h ← get;
  c_assert (negb (hp_pxEnd h =? NULL));;
  if Z.land xWantedSize (hp_allocbit h) =? 0 then
    let w := block_size_for xWantedSize in
    if (w >? 0) && (w <=? hp_free h) then
      r ← search addr_xStart w;
      if (r.2 =? hp_pxEnd h) && negb (hp_pxEndDMA h =? hp_pxEnd h) then
        r ← search addr_xStartDMA w;
        if negb (r.2 =? hp_pxEndDMA h) then take_block r.1 r.2 w true else mret NULL
      else
        if negb (r.2 =? hp_pxEnd h) then take_block r.1 r.2 w false else mret NULL
    else mret NULL
  else mret NULL.

Definition pvPortMallocDMA (xWantedSize : Z) : M heap Z :=
  h ← get;
  c_assert (negb (hp_pxEnd h =? NULL));;
  if Z.land xWantedSize (hp_allocbit h) =? 0 then
    let w := block_size_for xWantedSize in
    if (w >? 0) && (w <=? hp_free h) then
      r ← search addr_xStartDMA w;
      if negb (r.2 =? hp_pxEndDMA h) then take_block r.1 r.2 w true else mret NULL
    else mret NULL
  else mret NULL.

(** ** Release *)

Definition p_vPortFree (pv : Z) : M heap unit :=
  if negb (pv =? NULL) then
    let link := u32 (pv - xHeapStructSize) in
    h ← get;
    sz ← get_size link;
    c_assert (negb (Z.land sz (hp_allocbit h) =? 0));;
    nx ← get_next link;
    c_assert ((nx =? NULL) || (nx =? DMA_BUFFER_MARK));;
    if negb (Z.land sz (hp_allocbit h) =? 0) then
      if (nx =? NULL) || (nx =? DMA_BUFFER_MARK) then
        set_size link (Z.land sz (Z.lnot (hp_allocbit h)));;
        sz ← get_size link;
        modify (λ h, with_counters (u32 (hp_free h + sz)) (hp_minfree h) h);;
        nx ← get_next link;
        if nx =? DMA_BUFFER_MARK
        then set_next link NULL;; prvInsertBlockIntoFreeListWithDMA link true
        else prvInsertBlockIntoFreeListWithDMA link false
      else mret ()
    else mret ()
  else mret ().

(** ** Defining the heap *)

Definition align_region (r : HeapRegion_t) : Z * Z :=
  let a := pucStartAddress r in
  if negb (Z.land a portBYTE_ALIGNMENT_MASK =? 0) then
    let a' := Z.land (u32 (a + (portBYTE_ALIGNMENT - 1))) (Z.lnot portBYTE_ALIGNMENT_MASK) in
    (a', u32 (xSizeInBytes r - u32 (a' - a)))
  else (a, xSizeInBytes r).

(** One round of the [while] loop of [vPortDefineHeapRegions] and of
    [vPortDefineHeapRegionsDMA]; the array of regions ends with an entry of
    size zero, and running past it is a [Fault]. *)
Definition define_region (dma : bool) (i : Z) (r : HeapRegion_t) : M heap Z :=
  let '(xAlignedHeap, xTotalRegionSize) := align_region r in
  h ← get;
  (if i =? 0
   then set_next (list_start dma) xAlignedHeap;; set_size (list_start dma) 0
   else c_assert (negb (list_end dma h =? NULL));;
        c_assert (xAlignedHeap >? list_end dma h));;
  let pxPreviousFreeBlock := list_end dma h in
  let xAddress :=
    Z.land (u32 (u32 (xAlignedHeap + xTotalRegionSize) - xHeapStructSize))
           (Z.lnot portBYTE_ALIGNMENT_MASK) in
  modify (with_end dma xAddress);;
  set_size xAddress 0;;
  set_next xAddress NULL;;
  set_size xAlignedHeap (u32 (xAddress - xAlignedHeap));;
  set_next xAlignedHeap xAddress;;
  (if negb (pxPreviousFreeBlock =? NULL)
   then set_next pxPreviousFreeBlock xAlignedHeap else mret ());;
  get_size xAlignedHeap.

Fixpoint define_regions (dma : bool) (i : Z) (regs : list HeapRegion_t) (total : Z) : M heap Z :=
  match regs with
  | [] => fault
  | r :: regs =>
      if xSizeInBytes r >? 0
      then sz ← define_region dma i r;
           define_regions dma (i + 1) regs (u32 (total + sz))
      else mret total
  end.

Definition p_vPortDefineHeapRegions (regs : list HeapRegion_t) : M heap unit :=
  h ← get;
  c_assert (hp_pxEnd h =? NULL);;
  total ← define_regions false 0 regs 0;
  modify (with_counters total total);;
  c_assert (negb (total =? 0));;
  modify (with_allocbit (Z.shiftl 1 (4 * 8 - 1))).

Definition xPortHeapRegionsIsSame (r : HeapRegion_t) (prev : Z) : M heap bool :=
  n ← get_next prev;
  mret ((align_region r).1 =? n).

Definition vPortDefineHeapRegionsDMA (regs : list HeapRegion_t) : M heap unit :=
  h ← get;
  c_assert (negb (hp_pxEnd h =? NULL));;
  c_assert (hp_pxEndDMA h =? NULL);;
  match regs with
  | [] => fault
  | r :: _ =>
      same ← xPortHeapRegionsIsSame r addr_xStart;
      if (same : bool) then
        n ← get_next addr_xStart;
        s ← get_size addr_xStart;
        set_next addr_xStartDMA n;; set_size addr_xStartDMA s;;
        modify (with_end true (hp_pxEnd h))
      else
        total ← define_regions true 0 regs 0;
        modify (λ h, with_counters (u32 (hp_free h + total)) (u32 (hp_minfree h + total)) h);;
        c_assert (negb (total =? 0))
  end.

(** [heap_init] of src/hal/soc/scm2010/soc.c: the ordinary regions first, the
    DMA regions only if there are any.  The contents of free memory are not
    modelled, so the clearing of the regions has no counterpart. *)
Definition heap_init (regs dma_regs : list HeapRegion_t) : M heap unit :=
  p_vPortDefineHeapRegions regs;;
  match dma_regs with
  | [] => fault
  | r :: _ => if negb (pucStartAddress r =? NULL)
              then vPortDefineHeapRegionsDMA dma_regs else mret ()
  end.

End Operations.

#[global] Arguments get_next _ _ : simpl never.
#[global] Arguments get_size _ _ : simpl never.
#[global] Arguments set_next {_} _ _ _ : simpl never.
#[global] Arguments set_size {_} _ _ _ : simpl never.

(** The variables as the C program starts: everything zero, in particular the
    two static list heads. *)
Definition heap0 {ENV : HeapEnv} : heap :=
  Heap {[ addr_xStart := 0; addr_xStartDMA := 0 ]}
       {[ addr_xStart := 0; addr_xStartDMA := 0 ]} 0 0 0 0 0.
