(* ===== verification/Heap5Spec.v ===== *)
(** * What the kernel heap promises: an abstract allocator

    The abstract heap has no pointers: a pool is a window of addresses, the
    list of its free blocks in address order and the finite map of its
    allocated blocks.  Allocation takes the first free block that is large
    enough and gives the rest of it back when that rest is worth a block;
    release puts a block back, merged with its free neighbours.
    Heap5Proofs.v shows that the pointer program of Heap5.v implements these
    operations; the safety properties are proved here, on the abstract heap. *)

From stdpp Require Import base tactics numbers list gmap.
From S2P Require Import Prelude.

(** A block is its address and its size; a size of zero is the header that
    ends a region. *)
Abbreviation block := (Z * Z)%type.

(** ** Free lists *)

Definition merge_right (b : block) (l : list block) : list block :=
  match l with
  | c :: l' => if b.1 + b.2 =? c.1 then (b.1, b.2 + c.2) :: l' else b :: l
  | [] => [b]
  end.

Arguments merge_right : simpl never.

Fixpoint ins (b : block) (l : list block) : list block :=
  match l with
  | [] => [b]
  | c :: l' =>
      if c.1 <? b.1
      then if c.1 + c.2 =? b.1 then merge_right (c.1, c.2 + b.2) l' else c :: ins b l'
      else merge_right b l
  end.

Fixpoint first_fit (w : Z) (l : list block) : option (list block * block * list block) :=
  match l with
  | [] => None
  | b :: l' =>
      if b.2 <? w
      then match first_fit w l' with
           | Some (l1, x, l2) => Some (b :: l1, x, l2)
           | None => None
           end
      else Some ([], b, l')
  end.

Definition sumsz (l : list block) : Z := foldr (λ b acc, b.2 + acc) 0 l.

(** The room a block takes: at least its header. *)
Definition ext (s : Z) : Z := Z.max s 16.

Definition blk_wf (b : block) : Prop := b.1 mod 16 = 0 ∧ b.2 mod 16 = 0 ∧ 0 ≤ b.2.

(** [x] is a block with contents, [y] may be a region end. *)
Definition disj (x y : block) : Prop := x.1 + x.2 ≤ y.1 ∨ y.1 + ext y.2 ≤ x.1.

Fixpoint sorted_blocks (lo hi : Z) (l : list block) : Prop :=
  match l with
  | [] => lo ≤ hi
  | b :: l' => lo ≤ b.1 ∧ blk_wf b ∧ sorted_blocks (b.1 + ext b.2) hi l'
  end.

(** Neighbours in the list do not touch, unless the second is a region end. *)
Fixpoint coalesced (l : list block) : Prop :=
  match l with
  | b :: ((c :: _) as l') => (b.1 + b.2 = c.1 → c.2 = 0) ∧ coalesced l'
  | _ => True
  end.

Ltac and3 := refine (conj _ (conj _ _)).

Ltac blocks :=
  unfold disj, ext, blk_wf in *; simpl in *; try zlia.

Lemma sorted_mono lo lo' hi l : lo' ≤ lo → sorted_blocks lo hi l → sorted_blocks lo' hi l.
Proof. destruct l; blocks. intros ? (?&?&?). and3; [lia|done..]. Qed.

Lemma sorted_le lo hi l : sorted_blocks lo hi l → lo ≤ hi.
Proof. revert lo. induction l as [|b l IH]; intros lo; simpl; [done|]. intros (?&?&H%IH). blocks. Qed.

Lemma sorted_Forall lo hi l :
  sorted_blocks lo hi l → Forall (λ b, blk_wf b ∧ lo ≤ b.1 ∧ b.1 + ext b.2 ≤ hi) l.
Proof.
  revert lo. induction l as [|b l IH]; intros lo; simpl; [done|].
  intros (?&?&H). constructor.
  - pose proof (sorted_le _ _ _ H). blocks.
  - eapply Forall_impl; [by apply IH|]. intros c (?&?&?). blocks.
Qed.

Lemma sorted_app lo hi l1 l2 :
  sorted_blocks lo hi (l1 ++ l2) ↔ ∃ m, sorted_blocks lo m l1 ∧ sorted_blocks m hi l2.
Proof.
  revert lo. induction l1 as [|b l1 IH]; intros lo; simpl.
  - split; [intros; by exists lo | intros (m&?&?); by eapply sorted_mono].
  - split.
    + intros (?&?&(m&?&?)%IH). eauto.
    + intros (m&(?&?&?)&?). and3; [done..|]. apply IH. eauto.
Qed.

Lemma sorted_NoDup lo hi l : sorted_blocks lo hi l → NoDup l.*1.
Proof.
  revert lo. induction l as [|b l IH]; intros lo; csimpl; [constructor|].
  intros (?&?&H). constructor; [|eauto].
  intros (c&?&Hc)%list_elem_of_fmap.
  apply sorted_Forall in H. rewrite Forall_forall in H. specialize (H c Hc).
  destruct b, c. blocks.
Qed.

Lemma merge_right_sorted lo hi b l :
  blk_wf b → 16 ≤ b.2 → lo ≤ b.1 → sorted_blocks (b.1 + b.2) hi l →
  sorted_blocks lo hi (merge_right b l).
Proof.
  intros Hb Hs Hlo Hl. unfold merge_right. destruct l as [|c l]; simpl in *.
  - blocks.
  - destruct Hl as (?&?&Hl). destruct (Z.eqb_spec (b.1 + b.2) c.1); simpl.
    + and3; [done|blocks|]. eapply sorted_mono, Hl. blocks.
    + and3; [done..|]. simpl. and3; [blocks|done..].
Qed.

Lemma ins_sorted lo hi b l :
  sorted_blocks lo hi l → Forall (disj b) l → blk_wf b → 16 ≤ b.2 →
  lo ≤ b.1 → b.1 + b.2 ≤ hi → sorted_blocks lo hi (ins b l).
Proof.
  intros Hl Hd Hb Hs. revert lo Hl.
  induction Hd as [|c l Hc Hd IH]; intros lo Hl Hlo Hhi; simpl in *.
  - blocks.
  - destruct Hl as (?&?&Hl). destruct (Z.ltb_spec c.1 b.1).
    + destruct (Z.eqb_spec (c.1 + c.2) b.1).
      * apply merge_right_sorted; [blocks..|].
        assert (b.1 + b.2 ≤ hi) by done. destruct l as [|d l]; simpl in *; [blocks|].
        apply Forall_cons_1 in Hd as [Hdd _]. destruct Hl as (?&?&?).
        and3; [|done..]. blocks.
      * simpl. and3; [done..|]. apply IH; [done|blocks|done].
    + apply merge_right_sorted; [done..|]. simpl. and3; [blocks|done..].
Qed.

Lemma merge_right_sum b l : sumsz (merge_right b l) = b.2 + sumsz l.
Proof.
  unfold merge_right. destruct l as [|c l]; simpl; [done|].
  destruct (_ =? _); unfold sumsz; simpl; lia.
Qed.

Lemma ins_sum b l : sumsz (ins b l) = b.2 + sumsz l.
Proof.
  induction l as [|c l IH]; simpl; [done|].
  destruct (_ <? _); [destruct (_ =? _)|]; rewrite ?merge_right_sum; csimpl.
  - simpl. unfold sumsz. simpl. lia.
  - unfold sumsz in *. simpl. lia.
  - unfold sumsz. simpl. lia.
Qed.

Lemma sumsz_app l1 l2 : sumsz (l1 ++ l2) = sumsz l1 + sumsz l2.
Proof. induction l1; simpl; unfold sumsz in *; simpl; lia. Qed.

Lemma sumsz_nonneg lo hi l : sorted_blocks lo hi l → 0 ≤ sumsz l ≤ hi - lo.
Proof.
  revert lo. induction l as [|b l IH]; intros lo; simpl; [lia|].
  intros (?&?&H%IH). blocks.
Qed.

(** What stays clear of the old list and of the new block stays clear of the
    merged list. *)
Lemma merge_right_disj x b l :
  0 < x.2 → 16 ≤ b.2 → disj x b → Forall (disj x) l →
  Forall (λ c, 0 ≤ c.2) l → Forall (disj x) (merge_right b l).
Proof.
  intros ??? Hd Hp. unfold merge_right. destruct l as [|c l]; simpl; [by constructor|].
  apply Forall_cons in Hd as [??], Hp as [??].
  destruct (Z.eqb_spec (b.1 + b.2) c.1).
  - constructor; [blocks|done].
  - by repeat apply Forall_cons_2.
Qed.

Lemma ins_disj lo hi x b l :
  sorted_blocks lo hi l → Forall (disj b) l →
  0 < x.2 → 16 ≤ b.2 → disj x b → Forall (disj x) l → Forall (disj x) (ins b l).
Proof.
  intros Hl Hbl Hx Hb Hxb Hd. revert lo Hl.
  induction l as [|c l IH]; intros lo Hl; simpl; [by constructor|].
  destruct Hl as (?&?&Hl).
  assert (Forall (λ c, 0 ≤ c.2) l).
  { eapply Forall_impl; [by eapply sorted_Forall|]. intros ? (?&_). blocks. }
  apply Forall_cons in Hd as [??], Hbl as [??].
  destruct (Z.ltb_spec c.1 b.1).
  - destruct (Z.eqb_spec (c.1 + c.2) b.1).
    + apply merge_right_disj; [done|blocks..|done|done].
    + constructor; eauto.
  - apply merge_right_disj; try done; constructor; [done|done|blocks|done].
Qed.

(** [b] may be followed by the list [l] in a coalesced list. *)
Definition apart (b : block) (l : list block) : Prop :=
  match l with c :: _ => b.1 + b.2 = c.1 → c.2 = 0 | [] => True end.

Lemma coalesced_cons b l : coalesced (b :: l) ↔ apart b l ∧ coalesced l.
Proof. destruct l; simpl; tauto. Qed.

Lemma coalesced_app l1 l2 :
  coalesced (l1 ++ l2) → coalesced l1 ∧ coalesced l2 ∧ ∀ c, last l1 = Some c → apart c l2.
Proof.
  induction l1 as [|b l1 IH]; simpl app.
  { intros ?. by split_and!. }
  rewrite !coalesced_cons. intros [Hb (?&?&Hl)%IH].
  destruct l1 as [|c l1]; simpl in *; split_and!; try done.
  by intros ? [= <-].
Qed.

Lemma coalesced_remove l1 x l2 lo hi :
  sorted_blocks lo hi (l1 ++ x :: l2) → 16 ≤ x.2 → coalesced (l1 ++ x :: l2) → coalesced (l1 ++ l2).
Proof.
  intros Hs Hx. revert lo Hs. induction l1 as [|b l1 IH]; intros lo Hs; simpl app.
  { rewrite coalesced_cons. tauto. }
  rewrite !coalesced_cons. destruct Hs as (?&?&Hs). intros [Hb Hc]. split; [|by eapply IH].
  destruct l1 as [|c l1]; [|done]. destruct l2 as [|d l2]; [done|]. simpl in *.
  destruct Hs as (?&?&?&?&?). blocks.
Qed.

Lemma merge_right_coalesced lo hi b l :
  16 ≤ b.2 → sorted_blocks lo hi l → coalesced l → coalesced (merge_right b l).
Proof.
  intros Hb Hl Hc. unfold merge_right. destruct l as [|c l]; simpl; [done|].
  destruct (Z.eqb_spec (b.1 + b.2) c.1); destruct l as [|d l]; simpl in *; try done.
  destruct Hl as (?&?&?&?). split; [|tauto].
  intros. destruct Hc as [Hc _]. apply Hc. blocks.
Qed.

Lemma merge_right_apart c b l : c.1 + c.2 ≠ b.1 → apart c (merge_right b l).
Proof. intros H. unfold merge_right. destruct l; [|destruct (_ =? _)]; simpl; intros; done. Qed.

(** Insertion never leaves two free neighbours unmerged. *)
Lemma ins_coalesced lo hi b l :
  sorted_blocks lo hi l → Forall (disj b) l → 16 ≤ b.2 → coalesced l → coalesced (ins b l).
Proof.
  intros Hs Hd Hb. revert lo Hs. induction Hd as [|c l Hc Hd IH]; intros lo Hs; simpl ins; [done|].
  rewrite coalesced_cons. intros [Hac Hl]. destruct Hs as (?&?&Hs).
  destruct (Z.ltb_spec c.1 b.1).
  2:{ eapply (merge_right_coalesced lo hi); [done|by split_and!|by apply coalesced_cons]. }
  destruct (Z.eqb_spec (c.1 + c.2) b.1).
  { eapply merge_right_coalesced; [blocks|done..]. }
  apply coalesced_cons. split; [|eauto].
  destruct l as [|d l]; simpl in *; [lia|]. apply Forall_cons in Hd as [Hdd _].
  destruct (Z.ltb_spec d.1 b.1); [|by apply merge_right_apart].
  destruct (Z.eqb_spec (d.1 + d.2) b.1); [|done].
  destruct Hs as (?&?&?). apply merge_right_apart. simpl. blocks.
Qed.

(** Insertion behind blocks that do not touch the new one. *)
Lemma ins_mid a s l1 l2 :
  Forall (λ c, c.1 < a ∧ c.1 + c.2 ≠ a) l1 → match l2 with [] => True | d :: _ => a ≤ d.1 end →
  ins (a, s) (l1 ++ l2) = l1 ++ merge_right (a, s) l2.
Proof.
  intros Hl Hge. induction Hl as [|c l1 [Hc1 Hc2] Hl IH]; simpl.
  - destruct l2 as [|d l2]; [done|]. simpl. by rewrite (proj2 (Z.ltb_ge _ _)).
  - rewrite (proj2 (Z.ltb_lt _ _)), (proj2 (Z.eqb_neq _ _)) by done. by rewrite IH.
Qed.

(** The blocks that hold memory: region ends left out. *)
Definition real_blocks (l : list block) : list block := filter (λ b, b.2 ≠ 0) l.

Lemma merge_right_real a s l lo hi :
  s ≠ 0 → sorted_blocks lo hi l → apart (a, s) l →
  real_blocks (merge_right (a, s) l) = (a, s) :: real_blocks l.
Proof.
  intros Hs Hl Hap. unfold merge_right, real_blocks. destruct l as [|d l].
  - by rewrite filter_cons_True.
  - simpl in *. destruct (Z.eqb_spec (a + s) d.1) as [E|E].
    + rewrite (Hap E), Z.add_0_r, filter_cons_True by done.
      by rewrite (filter_cons_False _ d) by (rewrite (Hap E); tauto).
    + by rewrite (filter_cons_True _ (a, s)).
Qed.

Lemma merge_right_twice a w s l lo hi :
  0 < w → w < s → sorted_blocks lo hi l → apart (a, s) l →
  real_blocks (merge_right (a, w) (merge_right (a + w, s - w) l)) = (a, s) :: real_blocks l.
Proof.
  intros Hw Hs Hl Hap. unfold merge_right at 2, real_blocks. destruct l as [|d l]; simpl.
  - unfold merge_right. simpl. rewrite Z.eqb_refl, filter_cons_True by (simpl; lia).
    do 2 f_equal. lia.
  - simpl in Hap. replace (a + w + (s - w)) with (a + s) by lia.
    destruct (Z.eqb_spec (a + s) d.1) as [E|E]; unfold merge_right; simpl; rewrite Z.eqb_refl;
      rewrite filter_cons_True by (rewrite ?(Hap E); simpl; lia); rewrite ?(Hap E).
    + rewrite (filter_cons_False _ d) by (rewrite (Hap E); tauto). do 2 f_equal. lia.
    + do 2 f_equal. lia.
Qed.

Lemma first_fit_Some w l l1 x l2 :
  first_fit w l = Some (l1, x, l2) →
  l = l1 ++ x :: l2 ∧ Forall (λ b, b.2 < w) l1 ∧ w ≤ x.2.
Proof.
  revert l1. induction l as [|b l IH]; intros l1; simpl; [done|].
  destruct (Z.ltb_spec b.2 w).
  - destruct (first_fit w l) as [[[l1' x'] l2']|] eqn:E; [|done].
    intros [= <- <- <-]. destruct (IH _ eq_refl) as (->&?&?).
    and3; [done| |done]. by constructor.
  - intros [= <- <- <-]. and3; [done|constructor|done].
Qed.

Lemma first_fit_None w l : first_fit w l = None ↔ Forall (λ b, b.2 < w) l.
Proof.
  induction l as [|b l IH]; simpl; [done|].
  rewrite Forall_cons. destruct (Z.ltb_spec b.2 w).
  - destruct (first_fit w l) as [[[??]?]|] eqn:E; rewrite <-IH; naive_solver.
  - naive_solver lia.
Qed.

(** ** Pools *)

Record apool := APool {
  ap_lo : Z;
  ap_hi : Z;                    (* address of the end marker *)
  ap_free : list block;
  ap_used : gmap Z Z;           (* allocated blocks: address to size *)
}.

Record pool_wf (p : apool) : Prop := {
  wf_lo : 0 < ap_lo p;
  wf_hi : ap_hi p + 16 < 2 ^ 32;
  wf_width : ap_hi p - ap_lo p < 2 ^ 31;
  wf_hi_al : ap_hi p mod 16 = 0;
  wf_sorted : sorted_blocks (ap_lo p) (ap_hi p) (ap_free p);
  wf_used : ∀ a s, ap_used p !! a = Some s →
    blk_wf (a, s) ∧ 32 ≤ s ∧ ap_lo p ≤ a ∧ a + s ≤ ap_hi p;
  wf_used_free : ∀ a s, ap_used p !! a = Some s → Forall (disj (a, s)) (ap_free p);
  wf_used_used : ∀ a s b t, ap_used p !! a = Some s → ap_used p !! b = Some t →
    a ≠ b → a + s ≤ b ∨ b + t ≤ a;
}.

Definition a_take (w : Z) (p : apool) : option (Z * apool) :=
  match first_fit w (ap_free p) with
  | None => None
  | Some (l1, (a, s), l2) =>
      if s - w >? 32
      then Some (a, APool (ap_lo p) (ap_hi p) (ins (a + w, s - w) (l1 ++ l2)) (<[a := w]> (ap_used p)))
      else Some (a, APool (ap_lo p) (ap_hi p) (l1 ++ l2) (<[a := s]> (ap_used p)))
  end.

Definition a_release (a : Z) (p : apool) : option apool :=
  match ap_used p !! a with
  | None => None
  | Some s => Some (APool (ap_lo p) (ap_hi p) (ins (a, s) (ap_free p)) (delete a (ap_used p)))
  end.

Definition used_sum (u : gmap Z Z) : Z := map_fold (λ _ s acc, s + acc) 0 u.

Lemma used_sum_insert u a s : u !! a = None → used_sum (<[a := s]> u) = s + used_sum u.
Proof. intros. unfold used_sum. rewrite map_fold_insert_L; [done|lia|done]. Qed.

Lemma used_sum_delete u a s : u !! a = Some s → used_sum u = s + used_sum (delete a u).
Proof. intros. unfold used_sum. rewrite (map_fold_delete_L _ _ a s); [done|lia|done]. Qed.

Lemma used_sum_nonneg p : pool_wf p → 0 ≤ used_sum (ap_used p).
Proof.
  intros Hwf. assert (∀ a s, ap_used p !! a = Some s → 0 ≤ s) as H.
  { intros a s Ha. destruct (wf_used _ Hwf _ _ Ha) as (?&?&_). lia. }
  revert H. generalize (ap_used p). intros u. induction u as [|a s u Hu IH] using map_ind;
    intros H; [done|].
  rewrite used_sum_insert by done. specialize (H a s) as Has.
  rewrite lookup_insert_eq in Has. specialize (Has eq_refl).
  enough (0 ≤ used_sum u) by lia. apply IH. intros b t Hb. apply (H b).
  rewrite lookup_insert_ne; [done|]. intros ->. congruence.
Qed.

Lemma sorted_remove lo hi l1 a s l2 :
  sorted_blocks lo hi (l1 ++ (a, s) :: l2) → 16 ≤ s →
  sorted_blocks lo hi (l1 ++ l2) ∧ blk_wf (a, s) ∧ lo ≤ a ∧ a + s ≤ hi ∧
  ∀ a' s', a ≤ a' → a' + s' ≤ a + s → Forall (disj (a', s')) (l1 ++ l2).
Proof.
  intros (m&H1&Hm&Hb&H2)%sorted_app Hs. simpl in *.
  assert (ext s = s) as Es by blocks. rewrite Es in *.
  pose proof (sorted_le _ _ _ H1). pose proof (sorted_le _ _ _ H2).
  split; [|and3; [done|lia|split; [lia|]]].
  - apply sorted_app. exists m. split; [done|]. eapply sorted_mono, H2. lia.
  - intros a' s' ??. apply Forall_app. split.
    + eapply Forall_impl; [by eapply sorted_Forall|]. intros c (?&?&?). blocks.
    + eapply Forall_impl; [by eapply sorted_Forall|]. intros c (?&?&?). blocks.
Qed.

(** What allocation does to one pool. *)
Lemma a_take_wf w p a p' :
  pool_wf p → 32 ≤ w → w mod 16 = 0 → a_take w p = Some (a, p') →
  pool_wf p' ∧ ap_used p !! a = None ∧ ap_lo p' = ap_lo p ∧ ap_hi p' = ap_hi p ∧
  ∃ s, ap_used p' = <[a := s]> (ap_used p) ∧ w ≤ s ∧
       sumsz (ap_free p') + s = sumsz (ap_free p).
Proof.
  intros [Hlo Hhi Hw Hal Hsort Hus Huf Huu] Hw32 Hw16. unfold a_take.
  destruct (first_fit w (ap_free p)) as [[[l1 [x s]] l2]|] eqn:E; [|done].
  apply first_fit_Some in E as (El&_&Hws). simpl in Hws.
  rewrite El in Hsort, Huf.
  destruct (sorted_remove _ _ _ _ _ _ Hsort) as (Hs'&Hxs&Hx1&Hx2&Hd); [lia|].
  assert (ap_used p !! x = None) as Hx.
  { destruct (ap_used p !! x) as [t|] eqn:Ex; [|done]. exfalso.
    pose proof (Huf _ _ Ex) as Hf. destruct (Hus _ _ Ex) as (?&?&?&?).
    apply Forall_app in Hf as [_ [? _]%Forall_cons]. blocks. }
  (* every other allocated block is clear of [x .. x+s) *)
  assert (∀ b t, ap_used p !! b = Some t → b + t ≤ x ∨ x + s ≤ b) as Hclear.
  { intros b t Hb. pose proof (Huf _ _ Hb) as Hf.
    apply Forall_app in Hf as [_ [Hbx _]%Forall_cons]. blocks. }
  assert (∀ b t, ap_used p !! b = Some t → Forall (disj (b, t)) (l1 ++ l2)) as Huf'.
  { intros b t Hb. pose proof (Huf _ _ Hb) as Hf.
    apply Forall_app in Hf as [? [_ ?]%Forall_cons]. by apply Forall_app. }
  assert (∀ u, 32 ≤ u ≤ s → u mod 16 = 0 → ∀ fr,
    sorted_blocks (ap_lo p) (ap_hi p) fr →
    (∀ b t, ap_used p !! b = Some t → Forall (disj (b, t)) fr) →
    Forall (disj (x, u)) fr →
    pool_wf (APool (ap_lo p) (ap_hi p) fr (<[x := u]> (ap_used p)))) as Hgen.
  { intros u Hu Hu16 fr Hfr Hfr1 Hfr2. split; simpl; try done.
    - intros b t [[<- <-]|[??]]%lookup_insert_Some; [|by apply Hus]. blocks.
    - intros b t [[<- <-]|[??]]%lookup_insert_Some; [done|eauto].
    - intros b t c v [[<- <-]|[? Hb]]%lookup_insert_Some [[<- <-]|[? Hc]]%lookup_insert_Some ?;
        [done| | |eauto].
      + destruct (Hclear _ _ Hc); lia.
      + destruct (Hclear _ _ Hb); lia. }
  rewrite El, sumsz_app.
  destruct (s - w >? 32) eqn:Esp; intros [= <- <-]; simpl.
  - assert (Forall (disj (x + w, s - w)) (l1 ++ l2)) by (apply Hd; lia).
    split; [|split_and!; try done; exists w; split_and!; [done|lia|]].
    + apply Hgen; [lia|done| | |].
      * apply ins_sorted; try done; blocks.
      * intros b t Hb. eapply ins_disj; eauto; simpl; [|lia|].
        -- destruct (Hus _ _ Hb) as (?&?&_). lia.
        -- destruct (Hclear _ _ Hb); blocks.
      * eapply ins_disj; eauto; simpl; [lia..|blocks|]. apply Hd; lia.
    + rewrite ins_sum, sumsz_app. simpl. unfold sumsz. simpl. lia.
  - split; [|split_and!; try done; exists s; split_and!; [done|lia|]].
    + apply Hgen; [lia|blocks|done|done|]. apply Hd; lia.
    + rewrite sumsz_app. unfold sumsz. simpl. lia.
Qed.

Lemma a_take_None w p : a_take w p = None ↔ Forall (λ b, b.2 < w) (ap_free p).
Proof.
  rewrite <-first_fit_None. unfold a_take.
  destruct (first_fit w (ap_free p)) as [[[l1 [x s]] l2]|]; [|done].
  destruct (_ >? _); done.
Qed.

(** What release does to one pool. *)
Lemma a_release_wf a s p :
  pool_wf p → ap_used p !! a = Some s →
  ∃ p', a_release a p = Some p' ∧ pool_wf p' ∧ ap_lo p' = ap_lo p ∧ ap_hi p' = ap_hi p ∧
    ap_used p' = delete a (ap_used p) ∧ sumsz (ap_free p') = sumsz (ap_free p) + s.
Proof.
  intros [Hlo Hhi Hw Hal Hsort Hus Huf Huu] Ha. unfold a_release. rewrite Ha.
  destruct (Hus _ _ Ha) as (?&?&?&?). pose proof (Huf _ _ Ha).
  eexists; split; [done|]. simpl. split; [split; simpl; try done|].
  - apply ins_sorted; try done; simpl; lia.
  - intros b t [? Hb]%lookup_delete_Some. by apply Hus.
  - intros b t [? Hb]%lookup_delete_Some.
    destruct (Hus _ _ Hb) as (?&?&?&?).
    eapply ins_disj; eauto; simpl; try lia.
    destruct (Huu _ _ _ _ Ha Hb ltac:(done)); blocks.
  - intros b t c v [? Hb]%lookup_delete_Some [? Hc]%lookup_delete_Some. eauto.
  - split_and!; try done. rewrite ins_sum. simpl. lia.
Qed.

(** Where insertion happens: behind the blocks below [a], in front of the rest. *)
Definition head_ge (a : Z) (l : list block) : Prop :=
  match l with [] => True | b :: _ => a ≤ b.1 end.

Lemma ins_head b l : head_ge b.1 l → ins b l = merge_right b l.
Proof. destruct l as [|c l]; simpl; [done|]. intros. by rewrite (proj2 (Z.ltb_ge _ _)). Qed.

Lemma ins_split lo hi a s l1 c sc l2 :
  sorted_blocks lo hi (l1 ++ (c, sc) :: l2) → c < a → head_ge a l2 →
  ins (a, s) (l1 ++ (c, sc) :: l2) =
  l1 ++ (if c + sc =? a then merge_right (c, sc + s) l2 else (c, sc) :: merge_right (a, s) l2).
Proof.
  intros Hs Hc Hh. revert lo Hs. induction l1 as [|b l1 IH]; intros lo Hs; simpl.
  - rewrite (proj2 (Z.ltb_lt c a)) by done. simpl.
    destruct (_ =? _); [done|]. by rewrite ins_head.
  - destruct Hs as (?&?&Hs). pose proof Hs as Hs'.
    apply sorted_Forall in Hs. rewrite Forall_forall in Hs.
    destruct (Hs (c, sc)) as (?&?&?). { apply list_elem_of_In, in_elt. }
    rewrite (proj2 (Z.ltb_lt _ _)) by blocks.
    rewrite (proj2 (Z.eqb_neq _ _)) by blocks.
    f_equal. eauto.
Qed.

(** ** The abstract heap: an ordinary pool and a DMA pool *)

Record aheap := AHeap {
  ah_pool : apool;
  ah_dma : apool;
  ah_min : Z;                   (* low-water mark of the free bytes *)
}.

Definition ah_free (A : aheap) : Z :=
  sumsz (ap_free (ah_pool A)) + sumsz (ap_free (ah_dma A)).
Definition ah_used (A : aheap) : Z :=
  used_sum (ap_used (ah_pool A)) + used_sum (ap_used (ah_dma A)).

(** Block size for a request: payload and header, rounded up to 16. *)
Definition round_req (n : Z) : Z := (n + 16 + 15) / 16 * 16.

Definition ah_set (dma : bool) (p : apool) (A : aheap) : aheap :=
  if dma then AHeap (ah_pool A) p (ah_min A) else AHeap p (ah_dma A) (ah_min A).
Definition ah_get (dma : bool) (A : aheap) : apool := if dma then ah_dma A else ah_pool A.

Definition low_water (A : aheap) : aheap :=
  AHeap (ah_pool A) (ah_dma A) (Z.min (ah_min A) (ah_free A)).

Definition admissible (n : Z) (A : aheap) : bool :=
  (0 <? n) && (n <? 2 ^ 31) && (round_req n <=? ah_free A).

Definition a_alloc_from (dma : bool) (w : Z) (A : aheap) : option (Z * aheap) :=
  match a_take w (ah_get dma A) with
  | Some (a, p) => Some (a + 16, low_water (ah_set dma p A))
  | None => None
  end.

Definition a_malloc (n : Z) (A : aheap) : Z * aheap :=
  if admissible n A then
    match a_alloc_from false (round_req n) A with
    | Some r => r
    | None => match a_alloc_from true (round_req n) A with
              | Some r => r
              | None => (0, A)
              end
    end
  else (0, A).

Definition a_mallocDMA (n : Z) (A : aheap) : Z * aheap :=
  if admissible n A then
    match a_alloc_from true (round_req n) A with Some r => r | None => (0, A) end
  else (0, A).

(** Release of a pointer handed out earlier (or of NULL). *)
Definition a_free (v : Z) (A : aheap) : option aheap :=
  if v =? 0 then Some A else
  match a_release (v - 16) (ah_pool A) with
  | Some p => Some (ah_set false p A)
  | None => match a_release (v - 16) (ah_dma A) with
            | Some p => Some (ah_set true p A)
            | None => None
            end
  end.

Lemma round_req_spec n :
  0 < n → (n + 16 ≤ round_req n < n + 32 ∧ 32 ≤ round_req n) ∧ round_req n mod 16 = 0.
Proof. intros. unfold round_req. rewrite Z.mod_mul by lia. split; [zlia|done]. Qed.

(** The live allocations of either pool. *)
Definition live (A : aheap) (a s : Z) : Prop :=
  ∃ dma, ap_used (ah_get dma A) !! a = Some s.

(** ** Coalescing and restoring the free list *)

Lemma sorted_in_front lo hi l1 x l2 :
  sorted_blocks lo hi (l1 ++ x :: l2) → coalesced (l1 ++ x :: l2) → 0 < x.2 →
  Forall (λ c, c.1 < x.1 ∧ c.1 + c.2 < x.1) l1.
Proof.
  intros Hs Hc Hx. revert lo Hs Hc. induction l1 as [|b l1 IH]; intros lo Hs Hc; [constructor|].
  simpl app in *. apply coalesced_cons in Hc as [Hb Hc]. destruct Hs as (?&?&Hs).
  specialize (IH _ Hs Hc). constructor; [|done].
  destruct l1 as [|c l1]; simpl in *.
  - destruct Hs as (?&?&?). blocks.
  - apply Forall_cons in IH as [? _]. destruct Hs as (?&?&?). blocks.
Qed.

Lemma sorted_behind lo hi l1 x l2 :
  sorted_blocks lo hi (l1 ++ x :: l2) → coalesced (l1 ++ x :: l2) → 16 ≤ x.2 →
  apart x l2 ∧ (∃ m, sorted_blocks m hi l2) ∧
  ∀ a, a ≤ x.1 + x.2 → match l2 with [] => True | d :: _ => a ≤ d.1 end.
Proof.
  intros Hs (_&Hc&_)%coalesced_app Hx. apply sorted_app in Hs as (m&_&?&?&Hs).
  apply coalesced_cons in Hc as [? _]. and3; [done|eauto|].
  destruct l2 as [|d l2]; [done|]. destruct Hs as (?&_). blocks.
Qed.

Lemma a_take_coalesced w p a p' :
  pool_wf p → 32 ≤ w → coalesced (ap_free p) → a_take w p = Some (a, p') → coalesced (ap_free p').
Proof.
  intros Hwf Hw Hc. unfold a_take. pose proof (wf_sorted _ Hwf) as Hs.
  destruct (first_fit w (ap_free p)) as [[[l1 [x s]] l2]|] eqn:E; [|done].
  apply first_fit_Some in E as (El&_&Hws). simpl in Hws. rewrite El in *.
  assert (coalesced (l1 ++ l2)) by (eapply coalesced_remove; [done|simpl; lia|done]).
  destruct (sorted_remove _ _ _ _ _ _ Hs) as (Hs'&_&_&_&Hd); [lia|].
  destruct (Z.gtb_spec (s - w) 32); intros [= <- <-]; simpl; [|done].
  eapply ins_coalesced; [done|apply Hd; lia|simpl; lia|done].
Qed.

Lemma a_release_coalesced a p p' :
  pool_wf p → coalesced (ap_free p) → a_release a p = Some p' → coalesced (ap_free p').
Proof.
  intros Hwf Hc. unfold a_release. destruct (ap_used p !! a) as [s|] eqn:Ha; [|done].
  intros [= <-]. simpl. destruct (wf_used _ Hwf _ _ Ha) as (?&?&_).
  eapply ins_coalesced; [by apply wf_sorted|by eapply wf_used_free|simpl; lia|done].
Qed.

(** Giving back what was just taken restores the pool. *)
Lemma take_release w p a p' :
  pool_wf p → 32 ≤ w → w mod 16 = 0 → coalesced (ap_free p) → a_take w p = Some (a, p') →
  ∃ p'', a_release a p' = Some p'' ∧ ap_used p'' = ap_used p ∧
    real_blocks (ap_free p'') = real_blocks (ap_free p) ∧
    ap_lo p'' = ap_lo p ∧ ap_hi p'' = ap_hi p.
Proof.
  intros Hwf Hw Hw16 Hc Ht. pose proof (wf_sorted _ Hwf) as Hs.
  destruct (a_take_wf _ _ _ _ Hwf Hw Hw16 Ht) as (_&Hnone&_). unfold a_take in Ht.
  destruct (first_fit w (ap_free p)) as [[[l1 [x s]] l2]|] eqn:E; [|done].
  apply first_fit_Some in E as (El&_&Hws). simpl in Hws. rewrite El in *.
  pose proof (sorted_in_front _ _ _ _ _ Hs Hc ltac:(simpl; lia)) as Hf. simpl in Hf.
  destruct (sorted_behind _ _ _ _ _ Hs Hc ltac:(simpl; lia)) as (Hap&(m&Hs2)&Hbe). simpl in Hbe.
  assert (real_blocks (l1 ++ (x, s) :: l2) = real_blocks l1 ++ (x, s) :: real_blocks l2) as Er.
  { unfold real_blocks. rewrite filter_app, filter_cons_True by (simpl; lia). done. }
  destruct (Z.gtb_spec (s - w) 32); injection Ht as <- <-; unfold a_release; simpl;
    rewrite lookup_insert_eq; eexists; (split; [done|]); simpl;
    rewrite delete_insert_id by done; split_and!; try done; rewrite Er.
  - rewrite (ins_mid (x + w) (s - w) l1 l2), ins_mid.
    + unfold real_blocks at 1. rewrite filter_app. f_equal.
      eapply merge_right_twice; [lia|lia|done|done].
    + eapply Forall_impl; [exact Hf|]. simpl. lia.
    + unfold merge_right. destruct l2 as [|d l2]; simpl; [lia|]. by destruct (_ =? _); simpl; lia.
    + eapply Forall_impl; [exact Hf|]. simpl. lia.
    + apply Hbe. lia.
  - rewrite ins_mid; [|eapply Forall_impl; [exact Hf|simpl; lia]|apply Hbe; lia]. unfold real_blocks at 1. rewrite filter_app. f_equal.
    eapply merge_right_real; [lia|done|done].
Qed.
