(* ===== verification/Heap5Proofs.v ===== *)
(** * The kernel heap implements its specification

    Representation of the abstract heap of Heap5Spec.v in the header store of
    Heap5.v, and the proofs that the list walks terminate, never leave the
    heap and compute the abstract operations. *)

From stdpp Require Import base tactics numbers list gmap.
From S2P Require Import Prelude Heap5 Heap5Spec.

(** ** List segments in the header store *)

Fixpoint chain (h : heap) (p e : Z) (l : list block) : Prop :=
  match l with
  | [] => p = e
  | b :: l' => p = b.1 ∧ hp_size h !! b.1 = Some b.2 ∧
               ∃ n, hp_next h !! b.1 = Some n ∧ chain h n e l'
  end.

Lemma chain_app h p e l1 l2 :
  chain h p e (l1 ++ l2) ↔ ∃ m, chain h p m l1 ∧ chain h m e l2.
Proof.
  revert p. induction l1 as [|b l1 IH]; intros p; simpl.
  - split; [eauto | by intros (m&->&?)].
  - split.
    + intros (->&?&n&?&(m&?&?)%IH). eauto 10.
    + intros (m&(->&?&n&?&?)&?). split_and!; [done..|]. exists n. split; [done|]. apply IH. eauto.
Qed.

(** Two heaps that agree outside a set of header addresses. *)
Record same_except (P : Z → Prop) (h h' : heap) : Prop := {
  se_next : ∀ x, ¬ P x → hp_next h' !! x = hp_next h !! x;
  se_size : ∀ x, ¬ P x → hp_size h' !! x = hp_size h !! x;
  se_end : hp_pxEnd h' = hp_pxEnd h;
  se_endDMA : hp_pxEndDMA h' = hp_pxEndDMA h;
  se_free : hp_free h' = hp_free h;
  se_minfree : hp_minfree h' = hp_minfree h;
  se_bit : hp_allocbit h' = hp_allocbit h;
}.

Lemma same_except_refl P h : same_except P h h.
Proof. by split. Qed.

Lemma same_except_trans P h1 h2 h3 :
  same_except P h1 h2 → same_except P h2 h3 → same_except P h1 h3.
Proof.
  intros [] []. split; intros; try congruence.
  - rewrite se_next1 by done. auto.
  - rewrite se_size1 by done. auto.
Qed.

Lemma same_except_mono (P Q : Z → Prop) h h' :
  (∀ x, P x → Q x) → same_except P h h' → same_except Q h h'.
Proof. intros ? []. split; auto. Qed.

Lemma set_next_same (P : Z → Prop) p v h :
  P p → same_except P h (with_next h (<[p := v]> (hp_next h))).
Proof. intros. split; try done. intros x ?. simpl. rewrite lookup_insert_ne; [done|]. by intros ->. Qed.

Lemma set_size_same (P : Z → Prop) p v h :
  P p → same_except P h (with_size h (<[p := v]> (hp_size h))).
Proof. intros. split; try done. intros x ?. simpl. rewrite lookup_insert_ne; [done|]. by intros ->. Qed.

#[export] Hint Resolve same_except_refl : wise.
#[export] Hint Extern 1 (same_except _ _ _) => (apply set_next_same; done) : wise.
#[export] Hint Extern 1 (same_except _ _ _) => (apply set_size_same; done) : wise.

Lemma chain_agree (P : Z → Prop) h h' p e l :
  (∀ x, ¬ P x → hp_next h' !! x = hp_next h !! x) →
  (∀ x, ¬ P x → hp_size h' !! x = hp_size h !! x) →
  Forall (λ b, ¬ P b.1) l → chain h p e l → chain h' p e l.
Proof.
  intros Hn Hs Hl. revert p. induction Hl as [|b l Hb Hl IH]; intros p; simpl; [done|].
  intros (->&?&n&?&?). rewrite Hs, Hn by done. eauto 10.
Qed.

Lemma chain_frame P h h' p e l :
  same_except P h h' → Forall (λ b, ¬ P b.1) l → chain h p e l → chain h' p e l.
Proof. intros []. by apply chain_agree. Qed.

Section Refinement.
Context {ENV : HeapEnv}.

Lemma run_get_next p n h : hp_next h !! p = Some n → get_next p h = Ret (n, h).
Proof. intros H. unfold get_next. by rewrite H. Qed.
Lemma run_get_size p n h : hp_size h !! p = Some n → get_size p h = Ret (n, h).
Proof. intros H. unfold get_size. by rewrite H. Qed.
Lemma run_set_next p v h :
  ram p = true → set_next p v h = Ret ((), with_next h (<[p := v]> (hp_next h))).
Proof. intros H. unfold set_next. by rewrite H. Qed.
Lemma run_set_size p v h :
  ram p = true → set_size p v h = Ret ((), with_size h (<[p := v]> (hp_size h))).
Proof. intros H. unfold set_size. by rewrite H. Qed.

(** ** Insertion *)

Lemma insert_iter_spec fuel h p sp l e a :
  chain h p e ((p, sp) :: l) → a ≤ e → (length l < fuel)%nat →
  ∃ l1 c sc l2, (p, sp) :: l = l1 ++ (c, sc) :: l2 ∧
    insert_iter fuel p a h = Ret (c, h) ∧
    Forall (λ b, b.1 < a) (tail (l1 ++ [(c, sc)])) ∧ head_ge a l2.
Proof.
  revert fuel p sp. induction l as [|[q sq] l IH]; intros fuel p sp Hch Hae Hf;
    (destruct fuel as [|fuel]; [simpl in Hf; lia|]);
    destruct Hch as (_&Hsz&n&Hn&Hch); simpl in Hch; simpl insert_iter.
  - subst n. exists [], p, sp, []. split_and!; [done| |constructor|done].
    erewrite bind_Ret by (by apply run_get_next).
    by rewrite (proj2 (Z.ltb_ge e a)).
  - destruct Hch as (->&Hq). simpl in *.
    erewrite bind_Ret by (by apply run_get_next). simpl.
    destruct (Z.ltb_spec q a).
    + destruct (IH fuel q sq) as (l1&c&sc&l2&E&Hrun&Hlt&Hge); [by split|done|lia|].
      exists ((p, sp) :: l1), c, sc, l2. rewrite E. split_and!; try done.
      destruct l1 as [|b l1]; simpl in *; simplify_eq; constructor; simpl; done.
    + exists [], p, sp, ((q, sq) :: l). split_and!; [done|done|constructor|done].
Qed.

Lemma link_behind_spec h it e b sb n l2 lo :
  hp_size h !! b = Some sb → hp_next h !! it = Some n → chain h n e l2 →
  sorted_blocks lo e l2 → b < lo → b + sb ≤ lo → 0 ≤ b → 0 ≤ sb → e < 2 ^ 32 → ram b = true →
  ∃ h', link_behind it e b h = Ret ((), h') ∧ chain h' b e (merge_right (b, sb) l2) ∧
    same_except (λ x, x = b) h h'.
Proof.
  intros Hb Hn Hch Hs Hblo Hbs Hb0 Hsb0 He Hram. pose proof (sorted_le _ _ _ Hs).
  unfold link_behind.
  erewrite bind_Ret by (by apply run_get_size). simpl.
  erewrite bind_Ret by (by apply run_get_next). simpl.
  rewrite (u32_id (b + sb)) by lia.
  assert (Forall (λ c, ¬ (c.1 = b)) l2) as Hne.
  { eapply Forall_impl; [by eapply sorted_Forall|]. intros c (?&?&?). lia. }
  assert (∀ v, chain (with_next h (<[b := v]> (hp_next h))) n e l2) as Hnext.
  { intros v. apply (chain_frame (λ x, x = b) h); auto with wise. }
  assert (chain (with_next h (<[b := n]> (hp_next h))) b e ((b, sb) :: l2)) as Hplain.
  { simpl. split_and!; [done|done|]. exists n. rewrite lookup_insert_eq. auto. }
  unfold merge_right. destruct l2 as [|[d sd] l2]; simpl in Hch, Hs; simpl fst; simpl snd.
  - subst n. destruct (b + sb =? e); rewrite ?Z.eqb_refl; redb.
    all: eexists; split; [by apply run_set_next|]; split; [done|eauto with wise].
  - destruct Hch as (->&Hsd&n'&Hn'&Hch), Hs as (?&Hwd&Hs). simpl in *.
    destruct (b + sb =? d).
    2:{ eexists; split; [by apply run_set_next|]; split; [done|eauto with wise]. }
    rewrite (proj2 (Z.eqb_neq d e)).
    2:{ pose proof (sorted_le _ _ _ Hs). blocks. }
    redb.
    pose proof (sorted_le _ _ _ Hs).
    erewrite bind_Ret by (by apply run_get_size). simpl.
    rewrite u32_id by blocks.
    erewrite bind_Ret by (by apply run_set_size). simpl.
    erewrite bind_Ret by (by apply run_get_next). simpl.
    eexists; split; [by apply run_set_next|]. split.
    + simpl. rewrite !lookup_insert_eq. split_and!; [done..|].
      exists n'. split; [done|].
      inversion_clear Hne.
      eapply (chain_frame (λ x, x = b)); [|done|exact Hch].
      eapply same_except_trans; [by apply (set_size_same _ b (sb + sd))|].
      by apply (set_next_same (λ x, x = b) b n' (with_size h _)).
    + eapply same_except_trans; [by apply (set_size_same _ b (sb + sd))|].
      by apply (set_next_same (λ x, x = b) b n' (with_size h _)).
Qed.

Lemma chain_keys h p e l x : chain h p e l → x ∈ l.*1 → is_Some (hp_next h !! x).
Proof.
  revert p. induction l as [|b l IH]; intros p; csimpl; [by intros _ ?%elem_of_nil|].
  intros (_&_&n&Hn&Hl) [->|Hx]%elem_of_cons; eauto.
Qed.

Lemma chain_fuel h st e l :
  chain h st e ((st, 0) :: l) → NoDup (st :: l.*1) → (length l < list_fuel h)%nat.
Proof.
  intros Hch Hnd. unfold list_fuel.
  pose proof (NoDup_length_le_size (hp_next h) (st :: l.*1) Hnd) as Hle.
  rewrite length_cons, length_fmap in Hle.
  enough (S (length l) ≤ size (hp_next h))%nat by lia. apply Hle.
  intros x Hx. by eapply (chain_keys h st e ((st, 0) :: l)).
Qed.

(** The list head is a header outside the pool's window. *)
Definition outside (st lo e : Z) : Prop := 0 < st < 2 ^ 32 ∧ (st < lo ∨ e < st).

Lemma sorted_outside st lo e l :
  outside st lo e → sorted_blocks lo e l → NoDup (st :: l.*1).
Proof.
  intros [_ Ho] Hs. constructor; [|by eapply sorted_NoDup].
  intros (b&->&Hb)%list_elem_of_fmap. apply sorted_Forall in Hs.
  rewrite Forall_forall in Hs. destruct (Hs _ Hb) as (?&?&?). blocks.
Qed.

Lemma notin_Forall (x : Z) (l : list block) : x ∉ l.*1 → Forall (λ b, ¬ (b.1 = x)) l.
Proof.
  intros Hx. apply Forall_forall. intros b Hb <-. apply Hx. by apply list_elem_of_fmap_2.
Qed.

Lemma merge_right_keys b l : Forall (λ c, c.1 ∈ b.1 :: l.*1) (merge_right b l).
Proof.
  unfold merge_right. destruct l as [|c l]; [repeat constructor|].
  assert (Forall (λ d, d.1 ∈ l.*1) l).
  { apply Forall_forall. intros d. apply list_elem_of_fmap_2. }
  destruct (_ =? _); repeat (apply Forall_cons_2; [set_solver|]);
    (eapply Forall_impl; [done|]); set_solver.
Qed.

Lemma sorted_from lo e l a s :
  sorted_blocks lo e l → head_ge a l → Forall (disj (a, s)) l → a + s ≤ e →
  sorted_blocks (a + s) e l.
Proof.
  destruct l as [|d l]; simpl; [done|]. intros (?&?&?) ? [? _]%Forall_cons ?.
  and3; [blocks|done..].
Qed.

Lemma insertion_point st lo e L a s l1 c sc l2 :
  (st, 0) :: L = l1 ++ (c, sc) :: l2 →
  Forall (λ b, b.1 < a) (tail (l1 ++ [(c, sc)])) → head_ge a l2 →
  sorted_blocks lo e L → Forall (disj (a, s)) L → 16 ≤ s → a + s ≤ e →
  outside st lo e → lo ≤ a →
  sorted_blocks (a + s) e l2 ∧
  ((c = st ∧ sc = 0) ∨ (lo ≤ c ∧ c + ext sc ≤ a ∧ blk_wf (c, sc))) ∧
  (st, 0) :: ins (a, s) L =
    l1 ++ (if c + sc =? a then merge_right (c, sc + s) l2 else (c, sc) :: merge_right (a, s) l2).
Proof.
  intros El Hlt Hge Hs Hd Hs16 Hae Hout Hlo.
  destruct l1 as [|b l1]; simpl in El, Hlt; simplify_eq.
  - and3; [by eapply sorted_from|by left|].
    rewrite (proj2 (Z.eqb_neq _ _)) by (destruct Hout; lia). simpl. by rewrite ins_head.
  - apply Forall_app in Hlt as [_ [Hca _]%Forall_cons]. simpl in Hca.
    apply Forall_app in Hd as [_ [Hdc Hd]%Forall_cons].
    pose proof Hs as (m&H1&?&?&H2)%sorted_app. pose proof (sorted_le _ _ _ H1).
    and3; [by eapply sorted_from|right; and3; [simpl in *; lia|blocks|done]|].
    by rewrite (ins_split lo e).
Qed.

(** The new block becomes part of the block [c] in front of it. *)
Lemma insert_merged h p e c sc s n l1 l2 :
  chain h p c l1 → hp_next h !! c = Some n → chain h n e l2 →
  c ∉ l1.*1 → c ∉ l2.*1 → sorted_blocks (c + sc + s) e l2 →
  0 ≤ c → 0 ≤ sc → 16 ≤ s → e < 2 ^ 32 → ram c = true →
  ∃ h', (set_size c (u32 (sc + s));; link_behind c e c) h = Ret ((), h') ∧
    chain h' p e (l1 ++ merge_right (c, sc + s) l2) ∧ same_except (λ x, x = c) h h'.
Proof.
  intros Hch1 Hn Hch2 Hc1 Hc2 Hs2 Hc0 Hsc Hs He Hram. pose proof (sorted_le _ _ _ Hs2).
  erewrite bind_Ret by (by apply run_set_size). rewrite (u32_id (sc + s)) by lia.
  set (h1 := with_size h (<[c := sc + s]> (hp_size h))).
  assert (same_except (λ x, x = c) h h1) as Hh1 by by apply set_size_same.
  destruct (link_behind_spec h1 c e c (sc + s) n l2 (c + sc + s)) as (h2&Hrun2&Hch3&Hse);
    try done; try lia.
  { unfold h1. simpl. by rewrite lookup_insert_eq. }
  { eapply chain_frame; [done|by apply notin_Forall|done]. }
  exists h2. assert (same_except (λ x, x = c) h h2) by by eapply same_except_trans.
  split_and!; [done| |done]. apply chain_app. exists c. split; [|done].
  eapply chain_frame; [done|by apply notin_Forall|done].
Qed.

(** The new block stays on its own, behind [c]. *)
Lemma insert_linked h p e c sc a s n l1 l2 :
  chain h p c l1 → hp_size h !! c = Some sc → hp_next h !! c = Some n → chain h n e l2 →
  hp_size h !! a = Some s → c ∉ l1.*1 → a ∉ l1.*1 → c ∉ l2.*1 → c ≠ a →
  sorted_blocks (a + s) e l2 → 0 ≤ a → 16 ≤ s → e < 2 ^ 32 → ram c = true → ram a = true →
  ∃ h', (link_behind c e a;; set_next c a) h = Ret ((), h') ∧
    chain h' p e (l1 ++ (c, sc) :: merge_right (a, s) l2) ∧ same_except (λ x, x = a ∨ x = c) h h'.
Proof.
  intros Hch1 Hsc Hn Hch2 Ha Hc1 Ha1 Hc2 Hca Hs2 Ha0 Hs He Hrc Hra.
  destruct (link_behind_spec h c e a s n l2 (a + s)) as (h2&Hrun2&Hch3&Hse); try done; try lia.
  erewrite bind_Ret by exact Hrun2.
  set (h3 := with_next h2 (<[c := a]> (hp_next h2))).
  assert (same_except (λ x, x = c) h2 h3) as Hh3 by by apply set_next_same.
  exists h3. split_and!; [by apply run_set_next| |].
  - apply chain_app. exists c. split.
    { eapply chain_frame; [done|by apply notin_Forall|].
      eapply chain_frame; [done|by apply notin_Forall|done]. }
    simpl. split_and!; [done| |].
    { by rewrite (se_size _ _ _ Hse). }
    exists a. rewrite lookup_insert_eq. split; [done|].
    eapply chain_frame; [done| |done].
    eapply Forall_impl; [apply merge_right_keys|]. simpl. intros d Hd E2. rewrite E2 in Hd. set_solver.
  - eapply same_except_trans; (eapply same_except_mono; [|done]); naive_solver.
Qed.

Lemma insert_between_spec h st e lo L a s :
  chain h st e ((st, 0) :: L) → hp_size h !! a = Some s →
  sorted_blocks lo e L → Forall (disj (a, s)) L → blk_wf (a, s) → 16 ≤ s →
  lo ≤ a → a + s ≤ e → 0 < lo → e < 2 ^ 32 → outside st lo e →
  ram st = true → (∀ x, lo ≤ x < e → ram x = true) →
  ∃ h', insert_between st e a h = Ret ((), h') ∧
    chain h' st e ((st, 0) :: ins (a, s) L) ∧
    same_except (λ x, x = a ∨ x ∈ st :: L.*1) h h'.
Proof.
  intros Hch Ha Hs Hd Hwf Hs16 Hlo Hhi Hlo0 He Hout Hrst Hram.
  pose proof (sorted_outside _ _ _ _ Hout Hs) as Hnd.
  destruct (insert_iter_spec (list_fuel h) h st 0 L e a) as (l1&c&sc&l2&El&Hrun&Hlt&Hge);
    [done|lia|by eapply chain_fuel|].
  destruct (insertion_point st lo e L a s l1 c sc l2) as (Hs2&Hc&Eins); try done.
  assert (a ∉ st :: L.*1) as Hna.
  { intros [->|(b&->&Hb)%list_elem_of_fmap]%elem_of_cons; [destruct Hout; lia|].
    rewrite Forall_forall in Hd. specialize (Hd _ Hb). blocks. }
  change (st :: L.*1) with (((st, 0) :: L).*1) in *. rewrite El in *.
  rewrite Eins. clear Eins Hd Hs Hlt Hge El.
  apply chain_app in Hch as (m&Hch1&->&Hsc&n&Hn&Hch2). simpl in Hsc, Hn.
  rewrite fmap_app, fmap_cons in *. simpl in Hnd, Hna.
  assert (c ∉ l1.*1 ∧ a ∉ l1.*1 ∧ c ∉ l2.*1 ∧ c ≠ a) as (Hc1&Ha1&Hc2&Hca).
  { apply NoDup_app in Hnd as (_&Hx&[??]%NoDup_cons). split_and!; set_solver. }
  assert (ram c = true ∧ 0 ≤ c ∧ 0 ≤ sc ∧ c + sc < 2 ^ 32) as (Hrc&Hc0&Hsc0&Hcb).
  { destruct Hc as [[-> ->]|(?&?&?)]; [destruct Hout; split_and!; [done|lia..]|].
    blocks. split_and!; [apply Hram; lia|lia..]. }
  unfold insert_between. mstep. erewrite bind_Ret by exact Hrun.
  erewrite bind_Ret by (by apply run_get_size). cbv beta.
  rewrite (u32_id (c + sc)) by lia.
  destruct (Z.eqb_spec (c + sc) a) as [E|E].
  - destruct (insert_merged h st e c sc s n l1 l2) as (h2&Hrun2&?&?); try done.
    { by rewrite E. }
    apply bind_Ret_inv in Hrun2 as ([]&h1&Hset&Hrun2).
    erewrite bind_Ret.
    2:{ erewrite bind_Ret by (by apply run_get_size).
        erewrite bind_Ret by exact Hset. reflexivity. }
    erewrite bind_Ret by exact Hrun2. rewrite Z.eqb_refl. redb.
    exists h2. split_and!; [done..|].
    eapply same_except_mono; [|done]. intros x ->. set_solver.
  - destruct (insert_linked h st e c sc a s n l1 l2) as (h2&Hrun2&?&?); try done; try lia.
    { apply Hram. lia. }
    apply bind_Ret_inv in Hrun2 as ([]&h1&Hlink&Hrun2).
    rewrite bind_ret_l. erewrite bind_Ret by exact Hlink.
    rewrite (proj2 (Z.eqb_neq c a)) by done. redb.
    exists h2. split_and!; [done..|].
    eapply same_except_mono; [|done]. intros x [->| ->]; [by left|right; set_solver].
Qed.

(** ** Searching *)

Lemma search_iter_spec fuel h prev sp l e n w lo hi :
  chain h prev e ((prev, sp) :: l) → hp_next h !! prev = Some n →
  hp_size h !! e = Some 0 → hp_next h !! e = Some 0 →
  sorted_blocks lo hi l → 0 < lo → e ≠ 0 → 0 < w → (length l < fuel)%nat →
  match first_fit w l with
  | None => ∃ q, search_iter fuel prev n w h = Ret ((q, e), h)
  | Some (l1, x, l2) => ∃ l0 c, (prev, sp) :: l1 = l0 ++ [c] ∧
      search_iter fuel prev n w h = Ret ((c.1, x.1), h)
  end.
Proof.
  revert fuel prev sp n lo. induction l as [|[b sb] l IH];
    intros fuel prev sp n lo Hch Hn Hes Hen Hs Hlo He Hw Hf;
    (destruct fuel as [|fuel]; [simpl in Hf; lia|]);
    destruct Hch as (_&_&n'&Hn'&Hch); simpl in Hn', Hch; simplify_eq; simpl search_iter.
  - simpl. exists prev. erewrite bind_Ret by (by apply run_get_size). cbv beta.
    rewrite (proj2 (Z.ltb_lt _ _)) by done.
    by erewrite bind_Ret by (by apply run_get_next).
  - destruct Hch as (->&Hsb&n''&Hn''&Hch). simpl in *.
    erewrite bind_Ret by (by apply run_get_size). cbv beta.
    destruct (Z.ltb_spec sb w).
    + erewrite bind_Ret by (by apply run_get_next). cbv beta.
      destruct Hs as (?&?&Hs). simpl in *.
      rewrite (proj2 (Z.eqb_neq n'' 0)); redb.
      2:{ destruct l as [|d l]; simpl in Hch; [by subst|].
          destruct Hch as (->&_), Hs as (?&_). blocks. }
      assert (chain h b e ((b, sb) :: l)) as Hb by (simpl; eauto 10).
      assert (0 < b + ext sb) as Hlo' by blocks.
      specialize (IH fuel b sb n'' (b + ext sb) Hb Hn'' Hes Hen Hs Hlo' He Hw ltac:(lia)).
      destruct (first_fit w l) as [[[l1 x] l2]|]; [|done].
      destruct IH as (l0&c&E&Hrun). exists ((prev, sp) :: l0), c. by rewrite E.
    + exists [], (prev, sp). done.
Qed.

Lemma search_spec h st e l w lo :
  chain h st e ((st, 0) :: l) → hp_size h !! e = Some 0 → hp_next h !! e = Some 0 →
  sorted_blocks lo e l → 0 < lo → outside st lo e → 0 < w →
  match first_fit w l with
  | None => ∃ q, search st w h = Ret ((q, e), h)
  | Some (l1, x, l2) => ∃ l0 c, (st, 0) :: l1 = l0 ++ [c] ∧ search st w h = Ret ((c.1, x.1), h)
  end.
Proof.
  intros Hch Hes Hen Hs Hlo Hout Hw. pose proof (sorted_le _ _ _ Hs).
  pose proof (chain_fuel _ _ _ _ Hch (sorted_outside _ _ _ _ Hout Hs)).
  pose proof Hch as (_&_&n&Hn&_). simpl in Hn.
  unfold search. pose proof (search_iter_spec (list_fuel h) h st 0 l e n w lo e) as Hit.
  mstep. erewrite bind_Ret by (by apply run_get_next).
  apply Hit; try done; lia.
Qed.

End Refinement.
