(* ===== verification/Heap5Refine.v ===== *)
(** * Pools and the whole heap: refinement of malloc and free

    A pool of the abstract heap is represented by the header store when its
    free list is the chain from the list head to the end marker and every
    allocated block carries its size with the top bit set.  The operations of
    Heap5.v on such a store return, without fault, failed assertion or
    exhausted fuel, and yield a representation of the abstract result. *)

From stdpp Require Import base tactics numbers list gmap.
From S2P Require Import Prelude Heap5 Heap5Spec Heap5Proofs.

Definition mark (dma : bool) : Z := if dma then DMA_BUFFER_MARK else NULL.

(** Like [same_except], without the counters. *)
Record mem_except (P : Z → Prop) (h h' : heap) : Prop := {
  me_next : ∀ x, ¬ P x → hp_next h' !! x = hp_next h !! x;
  me_size : ∀ x, ¬ P x → hp_size h' !! x = hp_size h !! x;
  me_end : hp_pxEnd h' = hp_pxEnd h;
  me_endDMA : hp_pxEndDMA h' = hp_pxEndDMA h;
  me_bit : hp_allocbit h' = hp_allocbit h;
}.

Lemma same_mem P h h' : same_except P h h' → mem_except P h h'.
Proof. intros []. by split. Qed.

Lemma mem_except_trans P h1 h2 h3 :
  mem_except P h1 h2 → mem_except P h2 h3 → mem_except P h1 h3.
Proof.
  intros [] []. split; intros; try congruence.
  - rewrite me_next1 by done. auto.
  - rewrite me_size1 by done. auto.
Qed.

Lemma mem_except_mono (P Q : Z → Prop) h h' :
  (∀ x, P x → Q x) → mem_except P h h' → mem_except Q h h'.
Proof. intros ? []. split; auto. Qed.

Lemma mem_chain_frame P h h' p e l :
  mem_except P h h' → Forall (λ b, ¬ P b.1) l → chain h p e l → chain h' p e l.
Proof. intros []. by apply chain_agree. Qed.

Section Pools.
Context {ENV : HeapEnv}.

(** The memory a pool lives in, list head included. *)
Definition region (dma : bool) (p : apool) (x : Z) : Prop :=
  x = list_start dma ∨ ap_lo p ≤ x ≤ ap_hi p.

Record env_ok (dma : bool) (p : apool) : Prop := {
  eo_out : outside (list_start dma) (ap_lo p) (ap_hi p);
  eo_rst : ram (list_start dma) = true;
  eo_ram : ∀ x, ap_lo p ≤ x ≤ ap_hi p → ram x = true;
}.

Record pool_rep (dma : bool) (p : apool) (h : heap) : Prop := {
  pr_chain : chain h (list_start dma) (ap_hi p) ((list_start dma, 0) :: ap_free p);
  pr_esize : hp_size h !! ap_hi p = Some 0;
  pr_enext : hp_next h !! ap_hi p = Some 0;
  pr_end : list_end dma h = ap_hi p;
  pr_used : ∀ a s, ap_used p !! a = Some s →
    hp_size h !! a = Some (s + 2 ^ 31) ∧ hp_next h !! a = Some (mark dma);
}.

(** Headers of a well-formed pool are where the pool is. *)
Lemma free_in_window p :
  pool_wf p → Forall (λ b, ap_lo p ≤ b.1 < ap_hi p) (ap_free p).
Proof.
  intros Hwf. eapply Forall_impl; [eapply sorted_Forall, Hwf|].
  intros b (?&?&?). blocks.
Qed.

Lemma pool_rep_frame P dma p h h' :
  pool_wf p → (∀ x, region dma p x → ¬ P x) → mem_except P h h' →
  pool_rep dma p h → pool_rep dma p h'.
Proof.
  intros Hwf HP Hme [Hch Hes Hen He Hus].
  pose proof (sorted_le _ _ _ (wf_sorted _ Hwf)).
  assert (region dma p (ap_hi p)) by (right; lia).
  split.
  - eapply mem_chain_frame; [done| |done]. constructor.
    + apply HP. by left.
    + eapply Forall_impl; [by apply free_in_window|]. intros b Hb. cbv beta in *. apply HP. right. lia.
  - rewrite (me_size _ _ _ Hme); auto.
  - rewrite (me_next _ _ _ Hme); auto.
  - destruct Hme, dma; simpl in *; congruence.
  - intros a s Ha. destruct (wf_used _ Hwf _ _ Ha) as (?&?&?&?).
    rewrite (me_size _ _ _ Hme), (me_next _ _ _ Hme) by (apply HP; right; lia). auto.
Qed.

(** The block handed out, or the rest of it, leaves every other header alone. *)
Lemma account_block_spec a s dma h :
  hp_size h !! a = Some s → ram a = true → 0 ≤ s < 2 ^ 31 → s ≤ hp_free h < 2 ^ 32 →
  hp_allocbit h = 2 ^ 31 →
  ∃ h', account_block a dma h = Ret ((), h') ∧ mem_except (λ x, x = a) h h' ∧
    hp_size h' !! a = Some (s + 2 ^ 31) ∧ hp_next h' !! a = Some (mark dma) ∧
    hp_free h' = hp_free h - s ∧ hp_minfree h' = Z.min (hp_minfree h) (hp_free h - s).
Proof.
  intros Ha Hram Hs Hf Hbit. unfold account_block.
  erewrite bind_Ret by (by apply run_get_size). mstep.
  rewrite (u32_id (hp_free h - s)) by lia.
  set (h1 := with_counters _ _ h).
  set (h2 := if hp_free h1 <? hp_minfree h1 then with_counters (hp_free h1) (hp_free h1) h1 else h1).
  assert (hp_next h2 = hp_next h ∧ hp_size h2 = hp_size h ∧ hp_pxEnd h2 = hp_pxEnd h ∧
    hp_pxEndDMA h2 = hp_pxEndDMA h ∧ hp_allocbit h2 = 2 ^ 31 ∧ hp_free h2 = hp_free h - s ∧
    hp_minfree h2 = Z.min (hp_minfree h) (hp_free h - s)) as (E1&E2&E3&E4&E5&E6&E7).
  { unfold h2. simpl. destruct (Z.ltb_spec (hp_free h - s) (hp_minfree h)); simpl;
      split_and!; done || lia. }
  erewrite bind_Ret by reflexivity. fold h2. mstep.
  erewrite bind_Ret by (apply run_get_size; by rewrite E2).
  rewrite E5, lor_add_disjoint by lia.
  erewrite bind_Ret by (by apply run_set_size).
  eexists. split; [by apply run_set_next|].
  split; [split; simpl; try congruence|].
  - intros x Hx. by rewrite lookup_insert_ne, E1.
  - intros x Hx. by rewrite lookup_insert_ne, E2.
  - simpl. rewrite !lookup_insert_eq. split_and!; [done..|lia|lia].
Qed.

(** Unlinking a block from the chain. *)
Lemma unlink_chain h st e l0 (c x : block) l2 n :
  chain h st e (l0 ++ c :: x :: l2) → hp_next h !! x.1 = Some n →
  NoDup (l0 ++ c :: x :: l2).*1 →
  chain (with_next h (<[c.1 := n]> (hp_next h))) st e (l0 ++ c :: l2).
Proof.
  intros (m&H1&->&Hc&n1&Hn1&->&Hx&n2&Hn2&H2)%chain_app Hn Hnd. simplify_eq.
  rewrite fmap_app in Hnd. apply NoDup_app in Hnd as (_&Hd&[Hcx _]%NoDup_cons).
  apply chain_app. exists c.1. split.
  - apply (chain_frame (λ y, y = c.1) h); [auto with wise| |done].
    apply notin_Forall. intros Hc1. apply (Hd _ Hc1). csimpl. set_solver.
  - simpl. split_and!; [done|done|]. eexists. rewrite lookup_insert_eq. split; [done|].
    apply (chain_frame (λ y, y = c.1) h); [auto with wise| |done].
    apply notin_Forall. csimpl in Hcx. set_solver.
Qed.

(** The headers an allocation may write: the block, the rest of it, the free
    list. *)
Definition touched (st a r : Z) (L : list block) (x : Z) : Prop :=
  x = a ∨ x = r ∨ x ∈ st :: L.*1.

Lemma split_block_spec dma p h L a s w :
  pool_wf p → env_ok dma p → list_end dma h = ap_hi p →
  chain h (list_start dma) (ap_hi p) ((list_start dma, 0) :: L) →
  hp_size h !! a = Some s → sorted_blocks (ap_lo p) (ap_hi p) L →
  (∀ a' s', a ≤ a' → a' + s' ≤ a + s → Forall (disj (a', s')) L) →
  blk_wf (a, s) → ap_lo p ≤ a → a + s ≤ ap_hi p → 32 ≤ w ≤ s → w mod 16 = 0 →
  ∃ h', split_block a w dma h = Ret ((), h') ∧
    chain h' (list_start dma) (ap_hi p)
      ((list_start dma, 0) :: (if s - w >? 32 then ins (a + w, s - w) L else L)) ∧
    hp_size h' !! a = Some (if s - w >? 32 then w else s) ∧
    same_except (touched (list_start dma) a (if s - w >? 32 then a + w else a) L) h h'.
Proof.
  intros Hwf Henv Hend Hch Ha Hs Hd Hb Hlo Hhi Hw Hw16.
  pose proof (wf_hi _ Hwf). pose proof (wf_lo _ Hwf).
  unfold split_block. erewrite bind_Ret by (by apply run_get_size). cbv beta zeta.
  rewrite (u32_id (s - w)) by lia. change heapMINIMUM_BLOCK_SIZE with 32.
  destruct (Z.gtb_spec (s - w) 32) as [Hgt|]; [|by eauto with wise].
  rewrite (u32_id (a + w)) by lia.
  assert (∀ x, x = a ∨ x = a + w → x ∉ list_start dma :: L.*1) as Hni.
  { intros x Hx [->|(b&Hxb&Hbl)%list_elem_of_fmap]%elem_of_cons.
    - destruct (eo_out _ _ Henv). lia.
    - specialize (Hd a s ltac:(lia) ltac:(lia)). rewrite Forall_forall in Hd.
      specialize (Hd _ Hbl). blocks. }
  erewrite bind_Ret by (apply run_set_size, (eo_ram _ _ Henv); lia).
  erewrite bind_Ret by (apply run_set_size, (eo_ram _ _ Henv); lia).
  set (h2 := with_size (with_size h _) _).
  assert (same_except (touched (list_start dma) a (a + w) L) h h2) as Hse.
  { eapply same_except_trans; [apply (set_size_same _ (a + w)) | apply (set_size_same _ a)];
      unfold touched; auto. }
  assert (chain h2 (list_start dma) (ap_hi p) ((list_start dma, 0) :: L)) as Hch2.
  { apply (chain_frame (λ x, x = a ∨ x = a + w) h); [| |done].
    - eapply same_except_trans; [apply (set_size_same _ (a + w)) | apply (set_size_same _ a)]; auto.
    - apply Forall_forall. intros b Hb2 Hx. apply (Hni _ Hx).
      change (list_start dma :: L.*1) with (((list_start dma, 0) :: L).*1).
      by apply list_elem_of_fmap_2. }
  unfold prvInsertBlockIntoFreeListWithDMA. mstep.
  replace (list_end dma h2) with (ap_hi p) by (destruct dma; done).
  destruct (insert_between_spec h2 (list_start dma) (ap_hi p) (ap_lo p) L (a + w) (s - w))
    as (h3&Hrun&Hch3&Hse3); try done; try lia; try apply Henv; [| | |intros; apply Henv; lia|].
  { unfold h2. simpl. rewrite lookup_insert_ne by lia. by rewrite lookup_insert_eq. }
  { apply Hd; lia. }
  { blocks. }
  exists h3. split_and!; [done|done| |].
  - rewrite (se_size _ _ _ Hse3).
    + unfold h2. simpl. by rewrite lookup_insert_eq.
    + intros [?|Hx]; [lia|]. by apply (Hni a); auto.
  - eapply same_except_trans; [done|]. eapply same_except_mono; [|done].
    unfold touched. intros x [?|?]; auto.
Qed.

(** Nothing else of the pool is touched. *)
Section Touched.
Context (dma : bool) (p : apool) (a r s : Z) (L : list block).
Context (Hwf : pool_wf p) (Henv : env_ok dma p).
Context (Hs : sorted_blocks (ap_lo p) (ap_hi p) L).
Context (Ha : ap_lo p ≤ a) (Hr : a ≤ r < a + s) (Hhi : a + s ≤ ap_hi p).

Lemma touched_region x : touched (list_start dma) a r L x → region dma p x.
Proof.
  intros [->|[->|[->|(b&->&Hb)%list_elem_of_fmap]%elem_of_cons]].
  - right. lia.
  - right. lia.
  - by left.
  - right. apply sorted_Forall in Hs. rewrite Forall_forall in Hs.
    destruct (Hs _ Hb) as (?&?&?). blocks.
Qed.

Lemma touched_used b t :
  ap_used p !! b = Some t → disj (b, t) (a, s) → Forall (disj (b, t)) L →
  ¬ touched (list_start dma) a r L b.
Proof.
  intros Hb Hd HdL. destruct (wf_used _ Hwf _ _ Hb) as (?&?&?&?).
  intros [->|[->|[->|(c&->&Hc)%list_elem_of_fmap]%elem_of_cons]]; try by blocks.
  - destruct (eo_out _ _ Henv). lia.
  - rewrite Forall_forall in HdL. specialize (HdL _ Hc). blocks.
Qed.

Lemma touched_end : ¬ touched (list_start dma) a r L (ap_hi p).
Proof.
  intros [E|[E|[E|(c&E&Hc)%list_elem_of_fmap]%elem_of_cons]]; try lia.
  - destruct (eo_out _ _ Henv). lia.
  - apply sorted_Forall in Hs. rewrite Forall_forall in Hs.
    destruct (Hs _ Hc) as (?&?&?). blocks.
Qed.
End Touched.

(** ** Allocation from one pool *)

Definition take_size (s w : Z) : Z := if s - w >? 32 then w else s.
Definition take_free (a s w : Z) (L : list block) : list block :=
  if s - w >? 32 then ins (a + w, s - w) L else L.

Lemma a_take_inv w p a p' :
  a_take w p = Some (a, p') →
  ∃ l1 s l2, first_fit w (ap_free p) = Some (l1, (a, s), l2) ∧
    ap_free p = l1 ++ (a, s) :: l2 ∧ w ≤ s ∧
    p' = APool (ap_lo p) (ap_hi p) (take_free a s w (l1 ++ l2))
               (<[a := take_size s w]> (ap_used p)).
Proof.
  unfold a_take, take_free, take_size.
  destruct (first_fit w (ap_free p)) as [[[l1 [x s]] l2]|] eqn:Eff; [|done].
  pose proof (first_fit_Some _ _ _ _ _ Eff) as (Hl&_&Hw). simpl in Hw.
  destruct (s - w >? 32) eqn:E; intros [= -> <-]; exists l1, s, l2; rewrite E;
    split_and!; done.
Qed.

(** The straight-line part of the allocation, once the search is done. *)
Lemma take_block_run dma p h w l0 (c : block) l1 a s l2 :
  pool_wf p → env_ok dma p → pool_rep dma p h → 32 ≤ w ≤ s → w mod 16 = 0 →
  ap_free p = l1 ++ (a, s) :: l2 → (list_start dma, 0) :: l1 = l0 ++ [c] →
  s ≤ hp_free h < 2 ^ 32 → hp_allocbit h = 2 ^ 31 →
  Forall (λ b, ¬ b.1 = a) ((list_start dma, 0) :: take_free a s w (l1 ++ l2)) →
  ∃ h', take_block c.1 a w dma h = Ret (a + 16, h') ∧
    mem_except (touched (list_start dma) a (if s - w >? 32 then a + w else a) (l1 ++ l2)) h h' ∧
    chain h' (list_start dma) (ap_hi p) ((list_start dma, 0) :: take_free a s w (l1 ++ l2)) ∧
    hp_size h' !! a = Some (take_size s w + 2 ^ 31) ∧ hp_next h' !! a = Some (mark dma) ∧
    hp_free h' = hp_free h - take_size s w ∧
    hp_minfree h' = Z.min (hp_minfree h) (hp_free h').
Proof.
  intros Hwf Henv [Hch Hes Hen Hend Hus] Hw Hw16 El E0 Hfree Hbit Hnotin.
  pose proof (wf_hi _ Hwf). pose proof (wf_lo _ Hwf). pose proof (wf_width _ Hwf).
  pose proof (wf_sorted _ Hwf) as Hsrt.
  pose proof (sorted_outside _ _ _ _ (eo_out _ _ Henv) Hsrt) as Hnd.
  assert ((list_start dma, 0) :: ap_free p = l0 ++ c :: (a, s) :: l2) as E1.
  { rewrite El, app_comm_cons, E0. by rewrite <-app_assoc. }
  assert ((list_start dma, 0) :: l1 ++ l2 = l0 ++ c :: l2) as E2.
  { rewrite app_comm_cons, E0. by rewrite <-app_assoc. }
  assert (c.1 ∈ list_start dma :: (l1 ++ l2).*1) as Hcin.
  { change (c.1 ∈ ((list_start dma, 0) :: l1 ++ l2).*1). rewrite E2.
    apply list_elem_of_fmap_2. set_solver. }
  rewrite El in Hsrt.
  destruct (sorted_remove _ _ _ _ _ _ Hsrt) as (Hs'&Hxs&Hx1&Hx2&Hd); [lia|].
  assert (ram c.1 = true) as Hrc.
  { assert (c ∈ (list_start dma, 0) :: l1) as [->|Hc]%elem_of_cons by (rewrite E0; set_solver).
    - apply Henv.
    - apply Henv. rewrite sorted_app in Hsrt. destruct Hsrt as (m&Hm&Hm2).
      apply sorted_le in Hm2. apply sorted_Forall in Hm. rewrite Forall_forall in Hm.
      destruct (Hm _ Hc) as (?&?&?). blocks. }
  pose proof Hch as Hch'. rewrite E1 in Hch'.
  pose proof Hch' as (m&_&->&_&n1&Hn1&->&Hsz&n2&Hn2&_)%chain_app. simpl in Hn1, Hsz, Hn2.
  pose proof (unlink_chain h (list_start dma) (ap_hi p) l0 c (a, s) l2 n2 Hch' Hn2) as Hch1.
  rewrite <-E1, <-E2 in Hch1. specialize (Hch1 Hnd).
  unfold take_block.
  erewrite bind_Ret by (by apply run_get_next). cbv beta zeta.
  erewrite bind_Ret by (by apply run_get_next). cbv beta.
  erewrite bind_Ret by (by apply run_set_next).
  set (h1 := with_next h _) in *.
  destruct (split_block_spec dma p h1 (l1 ++ l2) a s w) as (h2&Hrun2&Hch2&Hsz2&Hse2); try done.
  erewrite bind_Ret by exact Hrun2.
  pose proof Hse2 as [? ? ? ? Hf2 Hm2 Hb2].
  destruct (account_block_spec a (take_size s w) dma h2) as (h3&Hrun3&Hme3&Hsz3&Hnx3&Hf3&Hmf3).
  { by unfold take_size. }
  { apply Henv. lia. }
  { unfold take_size. destruct (_ >? _); lia. }
  { rewrite Hf2. simpl. unfold take_size. destruct (_ >? _); lia. }
  { by rewrite Hb2. }
  erewrite bind_Ret by exact Hrun3. change xHeapStructSize with 16.
  rewrite u32_id by lia. exists h3. split; [done|]. split_and!; [| |done|done| |].
  - eapply mem_except_trans; [apply same_mem|].
    + eapply same_except_trans; [|done]. apply set_next_same. unfold touched. auto.
    + eapply mem_except_mono; [|done]. intros x ->. by left.
  - eapply mem_chain_frame; [done|done|done].
  - rewrite Hf3, Hf2. done.
  - rewrite Hmf3, Hf3, Hf2, Hm2. done.
Qed.

Lemma used_notin dma p a s :
  pool_wf p → env_ok dma p → ap_used p !! a = Some s →
  Forall (λ b, ¬ b.1 = a) ((list_start dma, 0) :: ap_free p).
Proof.
  intros Hwf Henv Ha. destruct (wf_used _ Hwf _ _ Ha) as (?&?&?&?).
  constructor; simpl; [destruct (eo_out _ _ Henv); lia|].
  eapply Forall_impl; [eapply wf_used_free; done|]. intros b ? E. cbv beta in *. blocks.
Qed.

Lemma take_spec dma p h w a p' :
  pool_wf p → env_ok dma p → pool_rep dma p h → 32 ≤ w → w mod 16 = 0 →
  a_take w p = Some (a, p') → sumsz (ap_free p) ≤ hp_free h < 2 ^ 32 →
  hp_allocbit h = 2 ^ 31 →
  ∃ q h', search (list_start dma) w h = Ret ((q, a), h) ∧ a ≠ ap_hi p ∧
    take_block q a w dma h = Ret (a + 16, h') ∧ pool_rep dma p' h' ∧
    mem_except (region dma p) h h' ∧
    hp_free h' = hp_free h - (sumsz (ap_free p) - sumsz (ap_free p')) ∧
    hp_minfree h' = Z.min (hp_minfree h) (hp_free h').
Proof.
  intros Hwf Henv Hrep Hw Hw16 Htake Hfree Hbit.
  destruct (a_take_wf _ _ _ _ Hwf Hw Hw16 Htake) as (Hwf'&_&_&_&u&Hu&Hwu&Hsum).
  destruct (a_take_inv _ _ _ _ Htake) as (l1&s&l2&Eff&El&Hws&->). simpl in *.
  assert (u = take_size s w) as ->.
  { apply (f_equal (.!! a)) in Hu. rewrite !lookup_insert_eq in Hu. congruence. }
  pose proof (wf_sorted _ Hwf) as Hsrt.
  pose proof (search_spec h (list_start dma) (ap_hi p) (ap_free p) w (ap_lo p)
    (pr_chain _ _ _ Hrep) (pr_esize _ _ _ Hrep) (pr_enext _ _ _ Hrep) Hsrt
    (wf_lo _ Hwf) (eo_out _ _ Henv) ltac:(lia)) as Hsearch.
  rewrite Eff in Hsearch. destruct Hsearch as (l0&c&E0&Hrun). simpl in Hrun.
  rewrite El in Hsrt. destruct (sorted_remove _ _ _ _ _ _ Hsrt) as (Hs'&Hxs&Hx1&Hx2&_); [lia|].
  pose proof (sumsz_nonneg _ _ _ (wf_sorted _ Hwf')) as Hsum0. simpl in Hsum0.
  assert (env_ok dma (APool (ap_lo p) (ap_hi p) (take_free a s w (l1 ++ l2))
    (<[a:=take_size s w]> (ap_used p)))) as Henv' by (by destruct Henv).
  destruct (take_block_run dma p h w l0 c l1 a s l2) as (h'&Hrun'&Hme&Hch&Hsz&Hnx&Hf&Hm); try done.
  { rewrite El, sumsz_app in Hfree. simpl in Hfree.
    assert (0 ≤ sumsz l1 + sumsz l2); [|unfold sumsz in *; simpl in *; lia].
    rewrite <-sumsz_app. apply (sumsz_nonneg _ _ _ Hs'). }
  { apply (used_notin _ _ a (take_size s w) Hwf' Henv'). simpl. by rewrite lookup_insert_eq. }
  assert (a ≤ (if s - w >? 32 then a + w else a) < a + s) as Hr.
  { destruct (Z.gtb_spec (s - w) 32); lia. }
  exists c.1, h'. split_and!; [done|lia|done| | | |done].
  - split; simpl; [done| | | |].
    + rewrite (me_size _ _ _ Hme) by (by apply (touched_end dma p a _ s)). apply Hrep.
    + rewrite (me_next _ _ _ Hme) by (by apply (touched_end dma p a _ s)). apply Hrep.
    + rewrite <-(pr_end _ _ _ Hrep). destruct Hme, dma; simpl; done.
    + intros b t [[<- <-]|[? Hb]]%lookup_insert_Some; [done|].
      pose proof (wf_used_free _ Hwf _ _ Hb) as Hbf. rewrite El in Hbf.
      apply Forall_app in Hbf as [Hb1 [Hba Hb2]%Forall_cons].
      assert (¬ touched (list_start dma) a (if s - w >? 32 then a + w else a) (l1 ++ l2) b).
      { apply (touched_used dma p a _ s _ Hwf) with t; try done. by apply Forall_app. }
      rewrite (me_size _ _ _ Hme), (me_next _ _ _ Hme) by done. by apply Hrep.
  - eapply mem_except_mono; [|done]. intros x. by apply (touched_region dma p a _ s).
  - rewrite Hf. lia.
Qed.

(** ** Releasing a block of one pool *)

(** Up to the insertion, [vPortFree] clears the allocated bit and counts. *)
Lemma free_prologue dma p h a s :
  pool_wf p → env_ok dma p → pool_rep dma p h → ap_used p !! a = Some s →
  hp_free h + s < 2 ^ 32 → 0 ≤ hp_free h → hp_allocbit h = 2 ^ 31 →
  ∃ h1, p_vPortFree (a + 16) h = prvInsertBlockIntoFreeListWithDMA a dma h1 ∧
    mem_except (λ x, x = a) h h1 ∧ hp_size h1 !! a = Some s ∧
    hp_free h1 = hp_free h + s ∧ hp_minfree h1 = hp_minfree h.
Proof.
  intros Hwf Henv Hrep Ha Hf Hf0 Hbit.
  destruct (wf_used _ Hwf _ _ Ha) as (Hb&Hs32&Hlo&Hhi).
  destruct (pr_used _ _ _ Hrep _ _ Ha) as [Hsz Hnx].
  pose proof (wf_hi _ Hwf). pose proof (wf_lo _ Hwf). pose proof (wf_width _ Hwf).
  unfold p_vPortFree. rewrite (proj2 (Z.eqb_neq _ _)) by lia. redb.
  change xHeapStructSize with 16. replace (a + 16 - 16) with a by lia.
  rewrite (u32_id a) by lia. cbv zeta. mstep.
  erewrite bind_Ret by (by apply run_get_size). cbv beta.
  assert (negb (Z.land (s + 2 ^ 31) (hp_allocbit h) =? 0) = true) as Hset.
  { rewrite Hbit, land_topbit_zero by lia. rewrite (proj2 (Z.ltb_ge _ _)); [done|lia]. }
  rewrite Hset. mstep.
  erewrite bind_Ret by (by apply run_get_next). cbv beta.
  assert ((mark dma =? 0) || (mark dma =? DMA_BUFFER_MARK) = true) as Hmark by by destruct dma.
  rewrite Hmark. mstep.
  erewrite bind_Ret by (apply run_set_size, (eo_ram _ _ Henv); lia).
  rewrite Hbit, land_lnot_add by lia.
  set (h1 := with_size h _).
  erewrite bind_Ret by (apply run_get_size; simpl; by rewrite lookup_insert_eq). mstep.
  rewrite (u32_id (hp_free h1 + s)) by (simpl; lia).
  set (h2 := with_counters _ _ h1).
  erewrite bind_Ret by (by apply run_get_next). cbv beta.
  set (h3 := if dma then with_next h2 (<[a := 0]> (hp_next h2)) else h2).
  assert ((if mark dma =? DMA_BUFFER_MARK
           then set_next a 0;; prvInsertBlockIntoFreeListWithDMA a true
           else prvInsertBlockIntoFreeListWithDMA a false) h2 =
          prvInsertBlockIntoFreeListWithDMA a dma h3) as ->.
  { unfold h3. destruct dma; simpl; [|done].
    by erewrite bind_Ret by (apply run_set_next, (eo_ram _ _ Henv); lia). }
  exists h3. split; [done|]. unfold h3, h2, h1.
  split; [split; destruct dma; simpl; try done; intros x ?; by rewrite lookup_insert_ne|].
  destruct dma; simpl; rewrite lookup_insert_eq; split_and!; done || lia.
Qed.

Lemma release_spec dma p h a s :
  pool_wf p → env_ok dma p → pool_rep dma p h → ap_used p !! a = Some s →
  hp_free h + s < 2 ^ 32 → 0 ≤ hp_free h → hp_allocbit h = 2 ^ 31 →
  ∃ h' p', p_vPortFree (a + 16) h = Ret ((), h') ∧ a_release a p = Some p' ∧
    pool_rep dma p' h' ∧ mem_except (region dma p) h h' ∧
    hp_free h' = hp_free h + s ∧ hp_minfree h' = hp_minfree h.
Proof.
  intros Hwf Henv Hrep Ha Hf Hf0 Hbit.
  destruct (free_prologue dma p h a s) as (h1&->&Hme1&Hsz1&Hf1&Hm1); try done.
  destruct (wf_used _ Hwf _ _ Ha) as (Hb&Hs32&Hlo&Hhi).
  pose proof (wf_hi _ Hwf). pose proof (wf_sorted _ Hwf) as Hsrt.
  assert (list_end dma h1 = ap_hi p) as Hend.
  { rewrite <-(pr_end _ _ _ Hrep). destruct Hme1, dma; simpl; done. }
  unfold prvInsertBlockIntoFreeListWithDMA. mstep. rewrite Hend.
  destruct (insert_between_spec h1 (list_start dma) (ap_hi p) (ap_lo p) (ap_free p) a s)
    as (h2&Hrun&Hch&Hse); try done; try lia; try apply Henv.
  { eapply mem_chain_frame; [done|by eapply used_notin|apply Hrep]. }
  { by eapply wf_used_free. }
  { apply Hwf. }
  { intros. apply Henv. lia. }
  assert (mem_except (touched (list_start dma) a a (ap_free p)) h h2) as Hme.
  { eapply mem_except_trans.
    - eapply mem_except_mono; [|done]. intros x ->. by left.
    - eapply mem_except_mono; [|by apply same_mem]. unfold touched. naive_solver. }
  eexists h2, _. split; [done|]. split; [unfold a_release; by rewrite Ha|].
  split_and!.
  - split; simpl; [done| | | |].
    + rewrite (me_size _ _ _ Hme) by (apply (touched_end dma p a _ s); done || lia). apply Hrep.
    + rewrite (me_next _ _ _ Hme) by (apply (touched_end dma p a _ s); done || lia). apply Hrep.
    + rewrite <-(pr_end _ _ _ Hrep). destruct Hme, dma; simpl; done.
    + intros b t [? Hbt]%lookup_delete_Some.
      assert (¬ touched (list_start dma) a a (ap_free p) b).
      { apply (touched_used dma p a _ s _ Hwf) with t; try done; [lia| |by eapply wf_used_free].
        destruct (wf_used_used _ Hwf _ _ _ _ Ha Hbt); [done|blocks..]. }
      rewrite (me_size _ _ _ Hme), (me_next _ _ _ Hme) by done. by apply Hrep.
  - eapply mem_except_mono; [|done]. intros x. apply (touched_region dma p a _ s); done || lia.
  - rewrite (se_free _ _ _ Hse). lia.
  - rewrite (se_minfree _ _ _ Hse). lia.
Qed.

(** ** The whole heap *)

Record heap_rep (A : aheap) (h : heap) : Prop := {
  hr_wf : ∀ dma, pool_wf (ah_get dma A);
  hr_env : ∀ dma, env_ok dma (ah_get dma A);
  hr_rep : ∀ dma, pool_rep dma (ah_get dma A) h;
  hr_sep : ∀ x, region false (ah_pool A) x → ¬ region true (ah_dma A) x;
  hr_bit : hp_allocbit h = 2 ^ 31;
  hr_free : hp_free h = ah_free A;
  hr_min : hp_minfree h = ah_min A;
  hr_total : ah_free A + ah_used A < 2 ^ 32;
  hr_used : 0 ≤ ah_used A;
}.

Lemma free_nonneg A h dma : heap_rep A h → 0 ≤ sumsz (ap_free (ah_get dma A)).
Proof. intros Hr. apply (sumsz_nonneg _ _ _ (wf_sorted _ (hr_wf _ _ Hr dma))). Qed.

Lemma ah_free_split A dma :
  ah_free A = sumsz (ap_free (ah_get dma A)) + sumsz (ap_free (ah_get (negb dma) A)).
Proof. unfold ah_free. destruct dma; simpl; lia. Qed.

Lemma ah_used_split A dma :
  ah_used A = used_sum (ap_used (ah_get dma A)) + used_sum (ap_used (ah_get (negb dma) A)).
Proof. unfold ah_used. destruct dma; simpl; lia. Qed.

Lemma ah_get_set dma p A : ah_get dma (ah_set dma p A) = p.
Proof. by destruct dma. Qed.
Lemma ah_get_set_other dma p A : ah_get (negb dma) (ah_set dma p A) = ah_get (negb dma) A.
Proof. by destruct dma. Qed.

(** Replacing one pool's representation keeps that of the other. *)
Lemma heap_rep_step A h dma p' h' :
  heap_rep A h → pool_wf p' → pool_rep dma p' h' →
  ap_lo p' = ap_lo (ah_get dma A) → ap_hi p' = ap_hi (ah_get dma A) →
  mem_except (region dma (ah_get dma A)) h h' →
  0 ≤ used_sum (ap_used p') + used_sum (ap_used (ah_get (negb dma) A)) →
  sumsz (ap_free p') + used_sum (ap_used p') =
    sumsz (ap_free (ah_get dma A)) + used_sum (ap_used (ah_get dma A)) →
  ∀ m, hp_minfree h' = m →
  hp_free h' = sumsz (ap_free p') + sumsz (ap_free (ah_get (negb dma) A)) →
  heap_rep (AHeap (ah_pool (ah_set dma p' A)) (ah_dma (ah_set dma p' A)) m) h'.
Proof.
  intros Hr Hwf' Hrep' Elo Ehi Hme Hu Hcons m Hm Hfree.
  assert (pool_rep (negb dma) (ah_get (negb dma) A) h') as Hother.
  { eapply pool_rep_frame; [apply Hr| |done|apply Hr].
    intros x Hx Hx'. destruct dma; simpl in *; by eapply (hr_sep _ _ Hr). }
  assert (∀ x, region dma p' x ↔ region dma (ah_get dma A) x) as Hreg.
  { intros x. unfold region. by rewrite Elo, Ehi. }
  assert (env_ok dma p') as Henv'.
  { destruct (hr_env _ _ Hr dma). split; rewrite ?Elo, ?Ehi; done. }
  pose proof (hr_wf _ _ Hr (negb dma)). pose proof (hr_env _ _ Hr (negb dma)).
  pose proof (hr_total _ _ Hr) as Ht. rewrite (ah_free_split A dma), (ah_used_split A dma) in Ht.
  assert (hp_allocbit h' = 2 ^ 31) as Hbit.
  { rewrite (me_bit _ _ _ Hme). apply Hr. }
  split; unfold ah_free, ah_used in *; destruct dma; simpl in *;
    try done; try lia; try (by intros []).
  - intros x Hx Hx'. apply Hreg in Hx'. by eapply (hr_sep _ _ Hr).
  - intros x Hx Hx'. apply Hreg in Hx. by eapply (hr_sep _ _ Hr).
Qed.

Lemma block_size_for_spec n : 0 < n < 2 ^ 31 → block_size_for n = round_req n.
Proof.
  intros Hn. unfold block_size_for, round_req.
  rewrite (proj2 (Z.gtb_lt n 0)) by lia. change xHeapStructSize with 16.
  change portBYTE_ALIGNMENT_MASK with 15. change portBYTE_ALIGNMENT with 16. cbv zeta.
  rewrite (u32_id (n + 16)), land_15 by lia.
  destruct (Z.eqb_spec ((n + 16) mod 16) 0); redb; rewrite ?u32_id; zlia.
Qed.

(** Allocation from one pool, on the whole heap. *)
Lemma alloc_from_spec A h dma w v A' :
  heap_rep A h → 32 ≤ w → w mod 16 = 0 → a_alloc_from dma w A = Some (v, A') →
  ∃ q a h', search (list_start dma) w h = Ret ((q, a), h) ∧ a ≠ list_end dma h ∧
    take_block q a w dma h = Ret (v, h') ∧ heap_rep A' h'.
Proof.
  intros Hr Hw Hw16. unfold a_alloc_from.
  destruct (a_take w (ah_get dma A)) as [[a p']|] eqn:Et; [|done]. intros [= <- <-].
  destruct (a_take_wf _ _ _ _ (hr_wf _ _ Hr dma) Hw Hw16 Et) as (Hwf'&Hnone&Elo&Ehi&s&Hu&Hs&Hsum).
  pose proof (free_nonneg _ _ dma Hr). pose proof (free_nonneg _ _ (negb dma) Hr).
  pose proof (hr_total _ _ Hr). pose proof (hr_used _ _ Hr).
  pose proof (ah_free_split A dma). pose proof (ah_used_split A dma).
  destruct (take_spec dma (ah_get dma A) h w a p') as (q&h'&Hs1&Hne&Htk&Hrep'&Hme&Hf&Hm); try apply Hr;
    try done. { rewrite (hr_free _ _ Hr). lia. }
  exists q, a, h'. split_and!; [done| |done|].
  - by rewrite (pr_end _ _ _ (hr_rep _ _ Hr dma)).
  - assert (used_sum (ap_used p') = s + used_sum (ap_used (ah_get dma A))) as Eu.
    { by rewrite Hu, used_sum_insert. }
    unfold low_water. apply (heap_rep_step A h); try done; try lia.
    + rewrite Hm, Hf, (hr_min _ _ Hr), (hr_free _ _ Hr).
      rewrite (ah_free_split (ah_set dma p' A) dma), ah_get_set, ah_get_set_other.
      destruct dma; simpl in *; lia.
    + rewrite Hf, (hr_free _ _ Hr). lia.
Qed.

(** When no free block of the pool is large enough the search ends at the end
    marker. *)
Lemma alloc_from_fail A h dma w :
  heap_rep A h → 0 < w → a_alloc_from dma w A = None →
  ∃ q, search (list_start dma) w h = Ret ((q, list_end dma h), h).
Proof.
  intros Hr Hw. unfold a_alloc_from.
  destruct (a_take w (ah_get dma A)) as [[a p']|] eqn:Et; [done|]. intros _.
  rewrite a_take_None, <-first_fit_None in Et.
  pose proof (hr_rep _ _ Hr dma) as [Hch Hes Hen He _]. rewrite He.
  pose proof (search_spec h (list_start dma) (ap_hi (ah_get dma A)) (ap_free (ah_get dma A)) w
    (ap_lo (ah_get dma A)) Hch Hes Hen) as Hsp. rewrite Et in Hsp.
  apply Hsp; [apply (hr_wf _ _ Hr)..|apply (hr_env _ _ Hr)|done].
Qed.

Lemma ends_differ A h : heap_rep A h →
  hp_pxEnd h ≠ 0 ∧ hp_pxEndDMA h ≠ hp_pxEnd h.
Proof.
  intros Hr. pose proof (pr_end _ _ _ (hr_rep _ _ Hr false)) as E0.
  pose proof (pr_end _ _ _ (hr_rep _ _ Hr true)) as E1. simpl in E0, E1.
  pose proof (hr_wf _ _ Hr false) as H0. pose proof (hr_wf _ _ Hr true) as H1. simpl in H0, H1.
  pose proof (sorted_le _ _ _ (wf_sorted _ H0)). pose proof (sorted_le _ _ _ (wf_sorted _ H1)).
  rewrite E0, E1. split; [pose proof (wf_lo _ H0); lia|].
  intros E. apply (hr_sep _ _ Hr (ap_hi (ah_pool A))); right; lia.
Qed.

(** The guards in front of the search. *)
Lemma admissible_guard A h n :
  heap_rep A h → 0 ≤ n < 2 ^ 32 →
  (Z.land n (hp_allocbit h) =? 0) &&
  ((block_size_for n >? 0) && (block_size_for n <=? hp_free h)) = admissible n A.
Proof.
  intros Hr Hn. unfold admissible. rewrite (hr_bit _ _ Hr), land_topbit_zero, (hr_free _ _ Hr) by lia.
  destruct (Z.ltb_spec n (2 ^ 31)); [|by rewrite andb_false_r].
  destruct (Z.ltb_spec 0 n); simpl.
  - rewrite block_size_for_spec by lia. pose proof (round_req_spec n).
    rewrite (proj2 (Z.gtb_lt _ _)) by lia. done.
  - replace n with 0 by lia. done.
Qed.

End Pools.
