(* ===== verification/Heap5Init.v ===== *)
(** * Start-up of the kernel heap

    [heap_init] on any two well-formed tables of memory regions, one for the
    ordinary list and one for the DMA list, builds a representation of the
    abstract heap in which every region is one free block and no block is
    allocated. *)

From stdpp Require Import base tactics numbers list gmap.
From S2P Require Import Prelude Heap5 Heap5Spec Heap5Proofs Heap5Refine.

(** ** What a table of regions means *)

(** First header of a region, and the header that ends it. *)
Definition reg_first (r : HeapRegion_t) : Z := (pucStartAddress r + 15) / 16 * 16.
Definition reg_end (r : HeapRegion_t) : Z := (pucStartAddress r + xSizeInBytes r - 16) / 16 * 16.
Definition reg_block (r : HeapRegion_t) : block := (reg_first r, reg_end r - reg_first r).

(** Regions in address order, each large enough for a block, none wrapping. *)
Fixpoint regions_ok (lo : Z) (regs : list HeapRegion_t) : Prop :=
  match regs with
  | [] => True
  | r :: regs => lo ≤ pucStartAddress r ∧ 64 ≤ xSizeInBytes r ∧
                 pucStartAddress r + xSizeInBytes r < 2 ^ 32 ∧
                 regions_ok (pucStartAddress r + xSizeInBytes r) regs
  end.

(** The end marker of the last region of a table that continues one ending at
    [e]. *)
Fixpoint end_after (e : Z) (regs : list HeapRegion_t) : Z :=
  match regs with
  | [] => e
  | r :: regs => end_after (reg_end r) regs
  end.

(** The free list behind a region: its end marker stays in the list as a
    block of size zero once another region follows. *)
Fixpoint more_blocks (e : Z) (regs : list HeapRegion_t) : list block :=
  match regs with
  | [] => []
  | r :: regs => (e, 0) :: reg_block r :: more_blocks (reg_end r) regs
  end.

Definition init_pool (r : HeapRegion_t) (regs : list HeapRegion_t) : apool :=
  APool (reg_first r) (end_after (reg_end r) regs) (reg_block r :: more_blocks (reg_end r) regs) ∅.

(** The table of the C program ends with an entry of size zero. *)
Definition terminated (regs : list HeapRegion_t) : list HeapRegion_t :=
  regs ++ [HeapRegion NULL 0].

Definition init_aheap (r : HeapRegion_t) (regs : list HeapRegion_t)
    (d : HeapRegion_t) (dregs : list HeapRegion_t) : aheap :=
  let A := AHeap (init_pool r regs) (init_pool d dregs) 0 in
  AHeap (ah_pool A) (ah_dma A) (ah_free A).

Lemma reg_bounds r lo regs :
  regions_ok lo (r :: regs) → 0 < lo →
  pucStartAddress r ≤ reg_first r ∧ reg_first r + 16 ≤ reg_end r ∧
  reg_end r + 16 ≤ pucStartAddress r + xSizeInBytes r ∧
  reg_first r mod 16 = 0 ∧ reg_end r mod 16 = 0 ∧ 0 < reg_first r < 2 ^ 32.
Proof.
  intros (?&?&?&_) ?. unfold reg_first, reg_end. rewrite !Z.mod_mul by lia.
  split_and!; zlia.
Qed.

Lemma align_region_spec r lo regs :
  regions_ok lo (r :: regs) → 0 < lo →
  align_region r = (reg_first r, pucStartAddress r + xSizeInBytes r - reg_first r).
Proof.
  intros Hok Hlo. pose proof (reg_bounds _ _ _ Hok Hlo) as (?&?&?&?&?&?).
  destruct Hok as (?&?&?&_). unfold align_region.
  change portBYTE_ALIGNMENT_MASK with 15. change portBYTE_ALIGNMENT with 16.
  rewrite land_15. destruct (Z.eqb_spec (pucStartAddress r mod 16) 0); redb; cbv zeta.
  - assert (reg_first r = pucStartAddress r) as E by (unfold reg_first; zlia).
    rewrite E. f_equal. lia.
  - rewrite (u32_id (pucStartAddress r + (16 - 1))), land_lnot_15 by lia.
    assert (pucStartAddress r + (16 - 1) - (pucStartAddress r + (16 - 1)) mod 16 = reg_first r)
      as E.
    { unfold reg_first. change (16 - 1) with 15. rewrite Z.mod_eq by lia. lia. }
    rewrite E, (u32_id (reg_first r - pucStartAddress r)) by lia.
    rewrite u32_id by lia. f_equal. lia.
Qed.

(** The abstract pool a table describes is well formed. *)
Lemma init_sorted r regs lo :
  regions_ok lo (r :: regs) → 0 < lo →
  sorted_blocks (reg_first r) (end_after (reg_end r) regs) (reg_block r :: more_blocks (reg_end r) regs) ∧
  end_after (reg_end r) regs mod 16 = 0 ∧ end_after (reg_end r) regs + 16 < 2 ^ 32 ∧ reg_end r ≤ end_after (reg_end r) regs.
Proof.
  revert r lo. induction regs as [|r' regs IH]; intros r lo Hok Hlo;
    pose proof (reg_bounds _ _ _ Hok Hlo) as (?&?&?&?&?&?).
  - destruct Hok as (?&?&?&_). simpl. blocks.
  - destruct Hok as (?&?&?&Hok).
    assert (0 < pucStartAddress r + xSizeInBytes r) as Hlo' by lia.
    pose proof (reg_bounds _ _ _ Hok Hlo') as (?&?&?&?&?&?).
    destruct (IH r' _ Hok Hlo') as (Hs&?&?&?). change (end_after (reg_end r) (r' :: regs)) with (end_after (reg_end r') regs).
    destruct Hok as (?&?&?&Hok).
    split; [|split_and!; [done..|lia]].
    change (more_blocks (reg_end r) (r' :: regs)) with
      ((reg_end r, 0) :: reg_block r' :: more_blocks (reg_end r') regs).
    assert (blk_wf (reg_block r)) by blocks. assert (blk_wf (reg_end r, 0)) by blocks.
    simpl sorted_blocks. simpl in Hs. destruct Hs as (?&?&Hs).
    split_and!; try done; blocks.
Qed.

Lemma init_pool_wf r regs lo :
  regions_ok lo (r :: regs) → 0 < lo → end_after (reg_end r) regs - reg_first r < 2 ^ 31 →
  pool_wf (init_pool r regs).
Proof.
  intros Hok Hlo Hw. destruct (init_sorted _ _ _ Hok Hlo) as (?&?&?&?).
  pose proof (reg_bounds _ _ _ Hok Hlo). split; simpl; try done; lia.
Qed.

(** ** One region *)

(** What defining regions of one list leaves alone. *)
Record init_frame (dma : bool) (P : Z → Prop) (h h' : heap) : Prop := {
  if_next : ∀ x, ¬ P x → hp_next h' !! x = hp_next h !! x;
  if_size : ∀ x, ¬ P x → hp_size h' !! x = hp_size h !! x;
  if_end : list_end (negb dma) h' = list_end (negb dma) h;
  if_free : hp_free h' = hp_free h;
  if_minfree : hp_minfree h' = hp_minfree h;
  if_bit : hp_allocbit h' = hp_allocbit h;
}.

Lemma init_frame_trans dma (P : Z → Prop) h1 h2 h3 :
  init_frame dma P h1 h2 → init_frame dma P h2 h3 → init_frame dma P h1 h3.
Proof.
  intros [] []. split; intros; try congruence.
  - rewrite if_next1 by done. auto.
  - rewrite if_size1 by done. auto.
Qed.

Lemma init_frame_mono dma (P Q : Z → Prop) h h' :
  (∀ x, P x → Q x) → init_frame dma P h h' → init_frame dma Q h h'.
Proof. intros ? []. split; auto. Qed.

Lemma init_chain_frame dma P h h' p e l :
  init_frame dma P h h' → Forall (λ b, ¬ P b.1) l → chain h p e l → chain h' p e l.
Proof. intros []. by apply chain_agree. Qed.

Section Init.
Context {ENV : HeapEnv}.

(** The list of one table so far: it ends at the marker of the last region. *)
Record init_list (dma : bool) (e : Z) (l : list block) (h : heap) : Prop := {
  il_chain : chain h (list_start dma) e ((list_start dma, 0) :: l);
  il_esize : hp_size h !! e = Some 0;
  il_enext : hp_next h !! e = Some 0;
  il_end : list_end dma h = e;
}.

(** The straight-line middle of the loop body. *)
Definition write_region (dma : bool) (f e : Z) (h : heap) : heap :=
  let h := with_end dma e h in
  with_next
    (with_size h (<[f := e - f]> (<[e := 0]> (hp_size h))))
    (<[f := e]> (<[e := 0]> (hp_next h))).

Lemma write_region_frame dma f e h :
  init_frame dma (λ x, x = f ∨ x = e) h (write_region dma f e h).
Proof.
  split; try by destruct dma.
  - intros x Hx. destruct dma; simpl; rewrite !lookup_insert_ne; naive_solver.
  - intros x Hx. destruct dma; simpl; rewrite !lookup_insert_ne; naive_solver.
Qed.

Lemma write_region_new dma f e h :
  f ≠ e →
  hp_size (write_region dma f e h) !! f = Some (e - f) ∧
  hp_next (write_region dma f e h) !! f = Some e ∧
  hp_size (write_region dma f e h) !! e = Some 0 ∧
  hp_next (write_region dma f e h) !! e = Some 0 ∧
  list_end dma (write_region dma f e h) = e.
Proof.
  intros Hne. destruct dma; simpl;
    rewrite !lookup_insert_eq, !(lookup_insert_ne _ f e), !lookup_insert_eq by done; done.
Qed.

(** Both halves of the loop body. *)
Lemma define_region_run dma i r lo regs h :
  regions_ok lo (r :: regs) → 0 < lo →
  ram (list_start dma) = true →
  (∀ x, reg_first r ≤ x ≤ reg_end r → ram x = true) →
  (i ≠ 0 → list_end dma h ≠ 0 ∧ list_end dma h < reg_first r ∧ ram (list_end dma h) = true) →
  (i = 0 → list_end dma h = 0) →
  define_region dma i r h =
  Ret (reg_end r - reg_first r,
    let h1 := if i =? 0
      then with_size (with_next h (<[list_start dma := reg_first r]> (hp_next h)))
                     (<[list_start dma := 0]> (hp_size h))
      else h in
    let h2 := write_region dma (reg_first r) (reg_end r) h1 in
    if i =? 0 then h2
    else with_next h2 (<[list_end dma h := reg_first r]> (hp_next h2))).
Proof.
  intros Hok Hlo Hrst Hram Hi Hi0. pose proof (reg_bounds _ _ _ Hok Hlo) as (?&?&?&?&?&?).
  unfold define_region. rewrite (align_region_spec _ _ _ Hok Hlo).
  destruct Hok as (?&?&?&_). change xHeapStructSize with 16.
  change portBYTE_ALIGNMENT_MASK with 15. mstep.
  replace (reg_first r + (pucStartAddress r + xSizeInBytes r - reg_first r))
    with (pucStartAddress r + xSizeInBytes r) by lia.
  rewrite (u32_id (pucStartAddress r + xSizeInBytes r)) by lia.
  rewrite (u32_id (pucStartAddress r + xSizeInBytes r - 16)), land_lnot_15 by lia.
  assert (pucStartAddress r + xSizeInBytes r - 16 -
    (pucStartAddress r + xSizeInBytes r - 16) mod 16 = reg_end r) as ->.
  { unfold reg_end. rewrite Z.mod_eq by lia. lia. }
  rewrite (u32_id (reg_end r - reg_first r)) by lia. cbv zeta.
  assert (ram (reg_end r) = true) as Hre by (apply Hram; lia).
  assert (ram (reg_first r) = true) as Hrf by (apply Hram; lia).
  assert (∀ h v, hp_size h !! reg_first r = Some v → get_size (reg_first r) h = Ret (v, h)) as Hg
    by (intros; by apply run_get_size).
  destruct (Z.eqb_spec i 0) as [E0|E0].
  - rewrite (Hi0 E0). unfold set_next, set_size, mbind, M_bind, modify. rewrite Hrst, Hre, Hrf. simpl.
    destruct dma; apply Hg; simpl; by rewrite lookup_insert_eq.
  - destruct (Hi E0) as (Hn0&Hlt&Hrp). rewrite (proj2 (Z.eqb_neq _ 0) Hn0).
    rewrite (proj2 (Z.gtb_lt _ _) Hlt).
    unfold set_next, set_size, mbind, M_bind, modify. rewrite Hre, Hrf, Hrp. simpl.
    destruct dma; apply Hg; simpl; by rewrite lookup_insert_eq.
Qed.

(** A further region is appended to the list, behind the old end marker. *)
Lemma define_region_next dma i r lo regs h e l :
  regions_ok lo (r :: regs) → 0 < e → e + 16 ≤ lo → i ≠ 0 →
  ram e = true → (∀ x, reg_first r ≤ x ≤ reg_end r → ram x = true) →
  ram (list_start dma) = true →
  init_list dma e l h →
  Forall (λ b, ¬ (e ≤ b.1 ≤ reg_end r)) ((list_start dma, 0) :: l) →
  ∃ h', define_region dma i r h = Ret (reg_end r - reg_first r, h') ∧
    init_list dma (reg_end r) (l ++ [(e, 0); reg_block r]) h' ∧
    init_frame dma (λ x, e ≤ x ≤ reg_end r) h h'.
Proof.
  intros Hok He Helo Hi Hre Hram Hrst [Hch Hes Hen Hend] Hout.
  pose proof (reg_bounds _ _ _ Hok ltac:(lia)) as (?&?&?&?&?&?). pose proof Hok as (?&_).
  rewrite (define_region_run dma i r lo regs h); try done; try lia.
  2:{ intros _. rewrite Hend. split_and!; [lia|lia|done]. }
  rewrite (proj2 (Z.eqb_neq _ _) Hi). cbv zeta. rewrite Hend.
  set (h2 := write_region dma (reg_first r) (reg_end r) h).
  pose proof (write_region_frame dma (reg_first r) (reg_end r) h) as Hf.
  destruct (write_region_new dma (reg_first r) (reg_end r) h) as (Hn1&Hn2&Hn3&Hn4&Hn5); [lia|].
  fold h2 in Hf, Hn1, Hn2, Hn3, Hn4, Hn5.
  set (h3 := with_next h2 (<[e := reg_first r]> (hp_next h2))).
  assert (hp_size h3 = hp_size h2 ∧ ∀ x, x ≠ e → hp_next h3 !! x = hp_next h2 !! x) as [Es3 En3].
  { split; [done|]. intros x Hx. simpl. by rewrite lookup_insert_ne. }
  assert (init_frame dma (λ x, e ≤ x ≤ reg_end r) h h3) as Hfr.
  { destruct Hf. split; try done.
    - intros x Hx. rewrite En3 by lia. apply if_next0. lia.
    - intros x Hx. apply if_size0. lia. }
  exists h3. split; [done|]. split; [|done]. split.
  - rewrite app_comm_cons. apply chain_app. exists e. split.
    + by eapply init_chain_frame.
    + simpl. split_and!; [done| |].
      { rewrite (if_size _ _ _ _ Hf) by lia. done. }
      exists (reg_first r). rewrite lookup_insert_eq. split_and!; [done..|].
      exists (reg_end r). rewrite lookup_insert_ne by lia. done.
  - done.
  - simpl. rewrite lookup_insert_ne by lia. done.
  - by rewrite <-Hn5; destruct dma.
Qed.

(** The first region of a table. *)
Lemma define_region_first dma r lo regs h :
  regions_ok lo (r :: regs) → 0 < lo → list_end dma h = 0 →
  ram (list_start dma) = true → (∀ x, reg_first r ≤ x ≤ reg_end r → ram x = true) →
  ¬ (reg_first r ≤ list_start dma ≤ reg_end r) →
  ∃ h', define_region dma 0 r h = Ret (reg_end r - reg_first r, h') ∧
    init_list dma (reg_end r) [reg_block r] h' ∧
    init_frame dma (λ x, x = list_start dma ∨ reg_first r ≤ x ≤ reg_end r) h h'.
Proof.
  intros Hok Hlo Hend Hrst Hram Hout.
  pose proof (reg_bounds _ _ _ Hok Hlo) as (?&?&?&?&?&?).
  rewrite (define_region_run dma 0 r lo regs h) by (try done; try lia).
  cbv zeta. simpl (0 =? 0). cbv iota.
  set (h1 := with_size _ _).
  pose proof (write_region_frame dma (reg_first r) (reg_end r) h1) as Hf.
  destruct (write_region_new dma (reg_first r) (reg_end r) h1) as (Hn1&Hn2&Hn3&Hn4&Hn5); [lia|].
  set (h2 := write_region dma (reg_first r) (reg_end r) h1) in *.
  exists h2. split; [done|]. split; [split; try done|].
  - simpl. rewrite (if_size _ _ _ _ Hf), (if_next _ _ _ _ Hf) by lia. simpl.
    rewrite !lookup_insert_eq. split_and!; [done..|]. eexists; split; [done|].
    split_and!; [done..|]. eauto.
  - eapply (init_frame_trans _ _ _ h1).
    + split; try done; intros x Hx; simpl; rewrite lookup_insert_ne; naive_solver.
    + eapply init_frame_mono; [|done]. simpl. lia.
Qed.

(** ** A whole table *)

Lemma define_regions_more dma regs : ∀ i lo h e l total,
  regions_ok lo regs → 0 < e → e + 16 ≤ lo → 0 < i → ram (list_start dma) = true →
  (∀ x, e ≤ x ≤ end_after e regs → ram x = true) →
  init_list dma e l h → e ≤ end_after e regs →
  Forall (λ b, ¬ (e ≤ b.1 ≤ end_after e regs)) ((list_start dma, 0) :: l) →
  0 ≤ total → total + sumsz (more_blocks e regs) < 2 ^ 32 →
  ∃ h', define_regions dma i (terminated regs) total h =
      Ret (total + sumsz (more_blocks e regs), h') ∧
    init_list dma (end_after e regs) (l ++ more_blocks e regs) h' ∧
    init_frame dma (λ x, e ≤ x ≤ end_after e regs) h h'.
Proof.
  induction regs as [|r regs IH]; intros i lo h e l total Hok He Hlo Hi Hrst Hram Hl Hle Hout Ht0 Ht.
  - exists h. simpl. rewrite app_nil_r, Z.add_0_r. split_and!; [done..|by split].
  - pose proof (reg_bounds _ _ _ Hok ltac:(lia)) as (?&?&?&?&?&?).
    pose proof Hok as (?&?&?&Hok').
    destruct (init_sorted r regs lo Hok ltac:(lia)) as (Hs&_&_&Hhi).
    apply (sorted_Forall) in Hs as Hsf. apply Forall_cons in Hsf as [_ Hsf].
    destruct Hs as (_&_&Hs). apply sumsz_nonneg in Hs.
    simpl end_after in *. simpl more_blocks in *.
    assert (sumsz ((e, 0) :: reg_block r :: more_blocks (reg_end r) regs) =
      (reg_end r - reg_first r) + sumsz (more_blocks (reg_end r) regs)) as Esum.
    { unfold sumsz. simpl. lia. }
    destruct (define_region_next dma i r lo regs h e l) as (h1&Hrun1&Hl1&Hf1); try done; try lia.
    { apply Hram. lia. }
    { intros x Hx. apply Hram. lia. }
    { eapply Forall_impl; [done|]. intros b Hb. simpl in *. lia. }
    destruct (IH (i + 1) _ h1 (reg_end r) (l ++ [(e, 0); reg_block r])
      (total + (reg_end r - reg_first r)) Hok') as (h2&Hrun2&Hl2&Hf2); try done; try lia.
    { intros x Hx. apply Hram. lia. }
    { rewrite app_comm_cons. apply Forall_app. split.
      - eapply Forall_impl; [done|]. intros b Hb. simpl in *. lia.
      - repeat constructor; simpl; lia. }
    exists h2. simpl. rewrite (proj2 (Z.gtb_lt _ _)) by lia.
    erewrite bind_Ret by exact Hrun1. rewrite u32_id by lia. fold (terminated regs).
    rewrite Hrun2. split_and!.
    + do 2 f_equal. lia.
    + by rewrite <-app_assoc in Hl2.
    + eapply init_frame_trans; (eapply init_frame_mono; [|done]); simpl; lia.
Qed.

(** What a table must satisfy: regions in order and in RAM, narrow enough for
    the allocated bit, and the list head not among them. *)
Record table_ok (dma : bool) (r : HeapRegion_t) (regs : list HeapRegion_t) : Prop := {
  tk_ok : regions_ok 1 (r :: regs);
  tk_width : end_after (reg_end r) regs - reg_first r < 2 ^ 31;
  tk_env : env_ok dma (init_pool r regs);
}.

Lemma define_table dma r regs h :
  table_ok dma r regs → list_end dma h = 0 →
  ∃ h', define_regions dma 0 (terminated (r :: regs)) 0 h =
      Ret (sumsz (ap_free (init_pool r regs)), h') ∧
    pool_rep dma (init_pool r regs) h' ∧ init_frame dma (region dma (init_pool r regs)) h h'.
Proof.
  intros [Hok Hw [Hout Hrst Hram]] Hend. simpl in *.
  destruct (init_sorted r regs 1 Hok ltac:(lia)) as (Hs&_&Hhi&Hle).
  pose proof (reg_bounds _ _ _ Hok ltac:(lia)) as (?&?&?&?&?&?).
  pose proof (sumsz_nonneg _ _ _ Hs) as Hsum. simpl in Hs. destruct Hs as (_&_&Hs).
  apply sumsz_nonneg in Hs.
  assert (sumsz (reg_block r :: more_blocks (reg_end r) regs) =
    reg_end r - reg_first r + sumsz (more_blocks (reg_end r) regs)) as Esum by done.
  destruct (define_region_first dma r 1 regs h) as (h1&Hrun1&Hl1&Hf1); try done.
  { intros x Hx. apply Hram. lia. }
  { destruct Hout. lia. }
  pose proof Hok as (?&?&?&Hok').
  destruct (define_regions_more dma regs 1 _ h1 (reg_end r) [reg_block r]
    (reg_end r - reg_first r) Hok') as (h2&Hrun2&Hl2&Hf2); try done; try lia.
  { intros x Hx. apply Hram. lia. }
  { destruct Hout. repeat constructor; simpl; lia. }
  exists h2. simpl. rewrite (proj2 (Z.gtb_lt _ _)) by lia.
  erewrite bind_Ret by exact Hrun1. rewrite u32_id, !Z.add_0_l by lia.
  fold (terminated regs). split; [by rewrite Hrun2|].
  destruct Hl2. split; [by split|].
  unfold region. simpl.
  eapply init_frame_trans; (eapply init_frame_mono; [|done]); simpl; lia.
Qed.

(** Counters and the allocated bit are not part of a pool. *)
Lemma pool_rep_vars dma p h h' :
  hp_next h' = hp_next h → hp_size h' = hp_size h → list_end dma h' = list_end dma h →
  pool_rep dma p h → pool_rep dma p h'.
Proof.
  intros En Es Ee []. split; rewrite ?En, ?Es, ?Ee; try done.
  apply (chain_agree (λ _, False) h); intros; rewrite ?En, ?Es; try done.
  apply Forall_forall. by intros b _ [].
Qed.

Lemma pool_rep_init_frame dma p P h h' :
  pool_wf p → (∀ x, region dma p x → ¬ P x) → init_frame (negb dma) P h h' →
  pool_rep dma p h → pool_rep dma p h'.
Proof.
  intros Hwf HP [] Hrep.
  assert (∀ g, pool_rep dma p (with_end (negb dma) g h') → pool_rep dma p h') as Hback.
  { intros g. apply pool_rep_vars; by destruct dma. }
  apply (Hback (list_end (negb dma) h)).
  eapply (pool_rep_frame P); [done|done| |done].
  destruct dma; split; simpl in *; done.
Qed.

(** ** [heap_init] *)

Lemma define_heap_run r regs :
  table_ok false r regs → sumsz (ap_free (init_pool r regs)) ≠ 0 →
  ∃ h, p_vPortDefineHeapRegions (terminated (r :: regs)) heap0 = Ret ((), h) ∧
    pool_rep false (init_pool r regs) h ∧ hp_pxEndDMA h = 0 ∧ hp_allocbit h = 2 ^ 31 ∧
    hp_free h = sumsz (ap_free (init_pool r regs)) ∧
    hp_minfree h = sumsz (ap_free (init_pool r regs)).
Proof.
  intros Htk Hsum. unfold p_vPortDefineHeapRegions. mstep. mstep.
  destruct (define_table false r regs heap0 Htk eq_refl) as (h1&Hrun&Hrep&Hf).
  erewrite bind_Ret by exact Hrun. mstep.
  rewrite (proj2 (Z.eqb_neq _ _) Hsum). mstep.
  eexists; split; [done|]. split; [by apply (pool_rep_vars _ _ h1)|].
  split_and!; try done. apply (if_end _ _ _ _ Hf).
Qed.

Lemma init_sum r regs lo : regions_ok lo (r :: regs) → 0 < lo →
  16 ≤ sumsz (ap_free (init_pool r regs)) ≤ end_after (reg_end r) regs - reg_first r.
Proof.
  intros Hok Hlo. pose proof (reg_bounds _ _ _ Hok Hlo) as (?&?&?&?&?&?).
  destruct (init_sorted _ _ _ Hok Hlo) as (Hs&_). pose proof (sumsz_nonneg _ _ _ Hs).
  destruct Hs as (_&_&Hs). apply sumsz_nonneg in Hs. simpl. unfold sumsz in *. simpl in *. lia.
Qed.

Lemma define_dma_run r regs d dregs h :
  table_ok false r regs → table_ok true d dregs →
  (∀ x, region false (init_pool r regs) x → ¬ region true (init_pool d dregs) x) →
  pool_rep false (init_pool r regs) h → hp_pxEndDMA h = 0 → hp_allocbit h = 2 ^ 31 →
  hp_free h = sumsz (ap_free (init_pool r regs)) →
  hp_minfree h = sumsz (ap_free (init_pool r regs)) →
  ∃ h', vPortDefineHeapRegionsDMA (terminated (d :: dregs)) h = Ret ((), h') ∧
    heap_rep (init_aheap r regs d dregs) h'.
Proof.
  intros Hr Hd Hsep Hrep Hed Hbit Hfree Hmin.
  pose proof (init_sum _ _ _ (tk_ok _ _ _ Hr) ltac:(lia)).
  pose proof (init_sum _ _ _ (tk_ok _ _ _ Hd) ltac:(lia)).
  pose proof (tk_width _ _ _ Hr). pose proof (tk_width _ _ _ Hd).
  pose proof (init_pool_wf _ _ _ (tk_ok _ _ _ Hr) ltac:(lia) (tk_width _ _ _ Hr)) as Hwr.
  pose proof (init_pool_wf _ _ _ (tk_ok _ _ _ Hd) ltac:(lia) (tk_width _ _ _ Hd)) as Hwd.
  pose proof (wf_lo _ Hwr) as Hlo. simpl in Hlo.
  pose proof (pr_end _ _ _ Hrep) as Hend. simpl in Hend.
  pose proof (pr_chain _ _ _ Hrep) as (_&Hs0&n&Hn0&->&_). simpl in Hs0, Hn0.
  unfold vPortDefineHeapRegionsDMA. mstep.
  rewrite (proj2 (Z.eqb_neq (hp_pxEnd h) 0)) by lia. redb. mstep. rewrite Hed. mstep.
  change (terminated (d :: dregs)) with (d :: terminated dregs). cbv iota beta.
  unfold xPortHeapRegionsIsSame. rewrite (align_region_spec _ _ _ (tk_ok _ _ _ Hd)) by lia.
  erewrite bind_Ret by (erewrite bind_Ret by (by apply run_get_next); reflexivity). cbn [fst].
  assert (reg_first d ≠ reg_first r) as Hne.
  { intros E. apply (Hsep (reg_first r)); right; simpl; lia. }
  rewrite (proj2 (Z.eqb_neq _ _) Hne).
  destruct (define_table true d dregs h Hd Hed) as (h1&Hrun&Hrepd&Hf).
  erewrite bind_Ret by exact Hrun. mstep.
  rewrite (proj2 (Z.eqb_neq (sumsz _) 0)) by lia.
  eexists; split; [done|]. rewrite !u32_id by (rewrite ?(if_free _ _ _ _ Hf), ?(if_minfree _ _ _ _ Hf); lia).
  assert (pool_rep false (init_pool r regs) h1) as Hrepr.
  { eapply pool_rep_init_frame; done. }
  split; unfold ah_free, ah_used; simpl.
  - by intros [].
  - intros []; [apply Hd|apply Hr].
  - intros []; by apply (pool_rep_vars _ _ h1).
  - done.
  - by rewrite (if_bit _ _ _ _ Hf).
  - rewrite (if_free _ _ _ _ Hf), Hfree. done.
  - rewrite (if_minfree _ _ _ _ Hf), Hmin. done.
  - unfold used_sum. rewrite map_fold_empty. simpl in *. lia.
  - unfold used_sum. by rewrite map_fold_empty.
Qed.

Lemma heap_init_run r regs d dregs :
  table_ok false r regs → table_ok true d dregs →
  (∀ x, region false (init_pool r regs) x → ¬ region true (init_pool d dregs) x) →
  ∃ h, heap_init (terminated (r :: regs)) (terminated (d :: dregs)) heap0 = Ret ((), h) ∧
    heap_rep (init_aheap r regs d dregs) h.
Proof.
  intros Hr Hd Hsep.
  pose proof (init_sum _ _ _ (tk_ok _ _ _ Hr) ltac:(lia)).
  destruct (define_heap_run r regs Hr) as (h1&Hrun&?&?&?&?&?); [lia|].
  destruct (define_dma_run r regs d dregs h1) as (h2&Hrun2&?); try done.
  unfold heap_init. erewrite bind_Ret by exact Hrun. simpl.
  pose proof (tk_ok _ _ _ Hd) as (?&_). rewrite (proj2 (Z.eqb_neq _ _)) by lia. eauto.
Qed.

End Init.
