(* ===== verification/Heap5Theorems.v ===== *)
(** * The kernel heap: theorems

    The refinement theorems for [pvPortMalloc], [pvPortMallocDMA] and
    [vPortFree], the safety and conservation properties of every sequence of
    heap calls, the start-up of the heap, and the behaviour outside the
    two-pool configuration. *)

From stdpp Require Import base tactics numbers list gmap.
From S2P Require Import Prelude Heap5 Heap5Spec Heap5Proofs Heap5Refine Heap5Init.

Section Theorems.
Context {ENV : HeapEnv}.

Lemma admissible_range n A : true = admissible n A → 0 < n < 2 ^ 31.
Proof.
  unfold admissible. intros H. symmetry in H.
  apply andb_true_iff in H as [[H1%Z.ltb_lt H2%Z.ltb_lt]%andb_true_iff _]. lia.
Qed.

(** Search one pool and take what was found, as both allocators do. *)
Lemma try_pool A h dma w :
  heap_rep A h → 32 ≤ w → w mod 16 = 0 →
  ∃ q b, search (list_start dma) w h = Ret ((q, b), h) ∧
    match a_alloc_from dma w A with
    | Some (v, A') => b ≠ list_end dma h ∧
        ∃ h', take_block q b w dma h = Ret (v, h') ∧ heap_rep A' h'
    | None => b = list_end dma h
    end.
Proof.
  intros Hr Hw Hw16. destruct (a_alloc_from dma w A) as [[v A']|] eqn:E.
  - destruct (alloc_from_spec _ _ _ _ _ _ Hr Hw Hw16 E) as (q&a&h'&?&?&?&?). eauto 10.
  - destruct (alloc_from_fail A h dma w Hr) as (q&?); [lia|done|]. eauto.
Qed.

Lemma malloc_run A h n :
  heap_rep A h → 0 ≤ n < 2 ^ 32 →
  ∃ h', p_pvPortMalloc n h = Ret ((a_malloc n A).1, h') ∧ heap_rep (a_malloc n A).2 h'.
Proof.
  intros Hr Hn. destruct (ends_differ _ _ Hr) as [He0 Hed].
  pose proof (admissible_guard _ _ _ Hr Hn) as Hg.
  unfold p_pvPortMalloc, a_malloc. mstep.
  rewrite (proj2 (Z.eqb_neq (hp_pxEnd h) 0)) by done. redb. mstep. cbv zeta.
  destruct (Z.land n _ =? 0), ((_ >? 0) && _); simpl in Hg; rewrite <-Hg; try by exists h.
  assert (0 < n < 2 ^ 31) as Hn' by (by eapply admissible_range).
  rewrite block_size_for_spec by done. destruct (round_req_spec n) as [[_ Hw32] Hw16]; [lia|].
  destruct (try_pool A h false (round_req n)) as (q&b&Hs&Hb); [done..|]. simpl in Hs, Hb.
  erewrite bind_Ret by exact Hs. redb.
  destruct (a_alloc_from false (round_req n) A) as [[v A']|].
  { destruct Hb as (Hne&?). rewrite (proj2 (Z.eqb_neq _ _) Hne). redb. eauto. }
  subst b. rewrite Z.eqb_refl, (proj2 (Z.eqb_neq _ _) Hed). redb.
  destruct (try_pool A h true (round_req n)) as (q'&b&Hs'&Hb); [done..|]. simpl in Hs', Hb.
  erewrite bind_Ret by exact Hs'. redb.
  destruct (a_alloc_from true (round_req n) A) as [[v A']|].
  { destruct Hb as (Hne&?). rewrite (proj2 (Z.eqb_neq _ _) Hne). redb. eauto. }
  subst b. rewrite Z.eqb_refl. redb. by exists h.
Qed.

Lemma mallocDMA_run A h n :
  heap_rep A h → 0 ≤ n < 2 ^ 32 →
  ∃ h', pvPortMallocDMA n h = Ret ((a_mallocDMA n A).1, h') ∧ heap_rep (a_mallocDMA n A).2 h'.
Proof.
  intros Hr Hn. destruct (ends_differ _ _ Hr) as [He0 Hed].
  pose proof (admissible_guard _ _ _ Hr Hn) as Hg.
  unfold pvPortMallocDMA, a_mallocDMA. mstep.
  rewrite (proj2 (Z.eqb_neq (hp_pxEnd h) 0)) by done. redb. mstep. cbv zeta.
  destruct (Z.land n _ =? 0), ((_ >? 0) && _); simpl in Hg; rewrite <-Hg; try by exists h.
  assert (0 < n < 2 ^ 31) as Hn' by (by eapply admissible_range).
  rewrite block_size_for_spec by done. destruct (round_req_spec n) as [[_ Hw32] Hw16]; [lia|].
  destruct (try_pool A h true (round_req n)) as (q&b&Hs&Hb); [done..|]. simpl in Hs, Hb.
  erewrite bind_Ret by exact Hs. redb.
  destruct (a_alloc_from true (round_req n) A) as [[v A']|].
  { destruct Hb as (Hne&?). rewrite (proj2 (Z.eqb_neq _ _) Hne). redb. eauto. }
  subst b. rewrite Z.eqb_refl. redb. by exists h.
Qed.

Lemma a_free_live A h v A' :
  heap_rep A h → a_free v A = Some A' → v ≠ 0 →
  ∃ dma s p', ap_used (ah_get dma A) !! (v - 16) = Some s ∧
    a_release (v - 16) (ah_get dma A) = Some p' ∧ A' = ah_set dma p' A.
Proof.
  intros Hr Hf Hv. unfold a_free in Hf. rewrite (proj2 (Z.eqb_neq _ _) Hv) in Hf.
  destruct (a_release (v - 16) (ah_pool A)) as [p|] eqn:E0.
  - unfold a_release in E0.
    destruct (ap_used (ah_pool A) !! (v - 16)) as [s|] eqn:Eu; simplify_eq.
    exists false, s. simpl. unfold a_release. rewrite Eu. eauto.
  - destruct (a_release (v - 16) (ah_dma A)) as [p|] eqn:E1; simplify_eq. unfold a_release in E1.
    destruct (ap_used (ah_dma A) !! (v - 16)) as [s|] eqn:Eu; simplify_eq.
    exists true, s. simpl. unfold a_release. rewrite Eu. eauto.
Qed.

Lemma free_run A h v A' :
  heap_rep A h → a_free v A = Some A' →
  ∃ h', p_vPortFree v h = Ret ((), h') ∧ heap_rep A' h'.
Proof.
  intros Hr Hf. destruct (Z.eq_dec v 0) as [->|Hv].
  { exists h. split; [done|]. by injection Hf as <-. }
  destruct (a_free_live _ _ _ _ Hr Hf Hv) as (dma&s&p'&Hu&Hrel&->).
  pose proof (free_nonneg _ _ dma Hr). pose proof (free_nonneg _ _ (negb dma) Hr).
  pose proof (hr_total _ _ Hr). pose proof (hr_used _ _ Hr).
  pose proof (ah_free_split A dma). pose proof (ah_used_split A dma).
  destruct (a_release_wf _ _ _ (hr_wf _ _ Hr dma) Hu) as (p''&Hrel'&Hwf'&Elo&Ehi&Eu&Es).
  rewrite Hrel in Hrel'. injection Hrel' as <-.
  pose proof (used_sum_delete _ _ _ Hu) as Hus. rewrite <-Eu in Hus.
  assert (0 ≤ used_sum (ap_used p') ∧ 0 ≤ used_sum (ap_used (ah_get (negb dma) A))) as [??].
  { split; [by apply used_sum_nonneg|apply used_sum_nonneg, Hr]. }
  destruct (release_spec dma (ah_get dma A) h (v - 16) s) as (h'&p''&Hrun&Hrel'&Hrep'&Hme&Hfr&Hm);
    try apply Hr; try done; try (rewrite (hr_free _ _ Hr); lia).
  rewrite Hrel in Hrel'. injection Hrel' as <-.
  replace (v - 16 + 16) with v in Hrun by lia.
  exists h'. split; [done|].
  replace (ah_set dma p' A) with
    (AHeap (ah_pool (ah_set dma p' A)) (ah_dma (ah_set dma p' A)) (ah_min A)) by (by destruct dma).
  apply (heap_rep_step A h); try done; try lia.
  - rewrite Hm. apply Hr.
  - rewrite Hfr, (hr_free _ _ Hr). lia.
Qed.

(** ** Sequences of heap calls *)

Inductive hcall := CallMalloc (n : Z) | CallMallocDMA (n : Z) | CallFree (v : Z).

Definition run_call (c : hcall) : M heap Z :=
  match c with
  | CallMalloc n => p_pvPortMalloc n
  | CallMallocDMA n => pvPortMallocDMA n
  | CallFree v => p_vPortFree v;; mret 0
  end.

Fixpoint run_calls (cs : list hcall) : M heap (list Z) :=
  match cs with
  | [] => mret []
  | c :: cs => v ← run_call c; vs ← run_calls cs; mret (v :: vs)
  end.

(** The client's side of the contract: sizes fit in 32 bits, and only NULL or
    a pointer that is currently allocated is freed. *)
Definition a_call (c : hcall) (A : aheap) : option (Z * aheap) :=
  match c with
  | CallMalloc n => if (0 <=? n) && (n <? 2 ^ 32) then Some (a_malloc n A) else None
  | CallMallocDMA n => if (0 <=? n) && (n <? 2 ^ 32) then Some (a_mallocDMA n A) else None
  | CallFree v => A' ← a_free v A; Some (0, A')
  end.

Fixpoint a_calls (cs : list hcall) (A : aheap) : option (list Z * aheap) :=
  match cs with
  | [] => Some ([], A)
  | c :: cs =>
      match a_call c A with
      | Some (v, A') => match a_calls cs A' with
                        | Some (vs, A'') => Some (v :: vs, A'')
                        | None => None
                        end
      | None => None
      end
  end.

Lemma run_call_refines c A h v A' :
  heap_rep A h → a_call c A = Some (v, A') →
  ∃ h', run_call c h = Ret (v, h') ∧ heap_rep A' h'.
Proof.
  intros Hr. destruct c as [n|n|w]; simpl.
  - destruct (Z.leb_spec 0 n), (Z.ltb_spec n (2 ^ 32)); try done. intros E.
    destruct (malloc_run A h n) as (h'&?&?); [done..|]. injection E as E. rewrite E in *. eauto.
  - destruct (Z.leb_spec 0 n), (Z.ltb_spec n (2 ^ 32)); try done. intros E.
    destruct (mallocDMA_run A h n) as (h'&?&?); [done..|]. injection E as E. rewrite E in *. eauto.
  - destruct (a_free w A) as [A1|] eqn:E; [|done]. intros [= <- <-].
    destruct (free_run _ _ _ _ Hr E) as (h'&Hrun&?). exists h'. split; [|done].
    by erewrite bind_Ret by exact Hrun.
Qed.

Lemma run_calls_refines cs A h vs A' :
  heap_rep A h → a_calls cs A = Some (vs, A') →
  ∃ h', run_calls cs h = Ret (vs, h') ∧ heap_rep A' h'.
Proof.
  revert A h vs. induction cs as [|c cs IH]; intros A h vs Hr; simpl.
  - intros [= <- <-]. by exists h.
  - destruct (a_call c A) as [[v A1]|] eqn:Ec; [|done].
    destruct (a_calls cs A1) as [[vs1 A2]|] eqn:Ecs; [|done]. intros [= <- <-].
    destruct (run_call_refines _ _ _ _ _ Hr Ec) as (h1&Hrun1&Hr1).
    destruct (IH _ _ _ Hr1 Ecs) as (h2&Hrun2&Hr2).
    exists h2. split; [|done].
    erewrite bind_Ret by exact Hrun1. by erewrite bind_Ret by exact Hrun2.
Qed.

(** ** What one call does to the abstract heap *)

Definition tidy (A : aheap) : Prop := ∀ dma, coalesced (ap_free (ah_get dma A)).

Lemma tidy_set A dma p : tidy A → coalesced (ap_free p) → tidy (ah_set dma p A).
Proof. intros Ht Hp d. destruct d, dma; simpl; try done; [apply (Ht true)|apply (Ht false)]. Qed.

(** Allocation from one pool: a fresh, aligned, large enough block. *)
Lemma alloc_from_effect A h dma w v A' :
  heap_rep A h → 32 ≤ w → w mod 16 = 0 → a_alloc_from dma w A = Some (v, A') →
  v mod 16 = 0 ∧ 0 < v ∧ ah_free A' + ah_used A' = ah_free A + ah_used A ∧ (tidy A → tidy A') ∧
  ∃ s, w ≤ s ∧ (∀ b t, live A' b t ↔ live A b t ∨ (b = v - 16 ∧ t = s)) ∧
       ∀ b t, live A b t → b + t ≤ v - 16 ∨ v - 16 + s ≤ b.
Proof.
  intros Hr Hw Hw16. unfold a_alloc_from.
  destruct (a_take w (ah_get dma A)) as [[a p']|] eqn:Et; [|done]. intros [= <- <-].
  destruct (a_take_wf _ _ _ _ (hr_wf _ _ Hr dma) Hw Hw16 Et) as (Hwf'&Hnone&Elo&Ehi&s&Hu&Hs&Hsum).
  pose proof (λ H, a_take_coalesced _ _ _ _ (hr_wf _ _ Hr dma) Hw H Et) as Hco.
  assert (ap_used p' !! a = Some s) as Ha by (by rewrite Hu, lookup_insert_eq).
  destruct (wf_used _ Hwf' _ _ Ha) as ((?&?&?)&?&?&?). pose proof (wf_lo _ Hwf'). simpl in *.
  pose proof (used_sum_insert (ap_used (ah_get dma A)) a s Hnone) as Es. rewrite <-Hu in Es.
  split; [|split; [lia|split; [|split]]].
  - rewrite Z.add_mod, H by lia. done.
  - unfold ah_free, ah_used. destruct dma; simpl in *; lia.
  - intros Ht d. apply (tidy_set A dma p' Ht (Hco (Ht dma)) d).
  - replace (a + 16 - 16) with a by lia. exists s. split; [done|]. split.
    + intros b t. unfold live. split.
      * intros [d Hd]. destruct d, dma; simpl in *; rewrite ?Hu in Hd;
          try (apply lookup_insert_Some in Hd as [[<- <-]|[? Hd]]; [by right|]);
          left; (by exists true) || (by exists false).
      * assert (∀ d, ap_used (ah_get d A) !! b = Some t →
          ap_used (ah_get d (low_water (ah_set dma p' A))) !! b = Some t) as Hk.
        { intros d Hd. destruct d, dma; simpl in *; try done; rewrite Hu, lookup_insert_ne; congruence. }
        intros [[d Hd]|[-> ->]]; [exists d; auto|]. exists dma. by destruct dma.
    + intros b t [d Hd]. destruct (decide (d = dma)) as [->|Hne].
      * assert (ap_used p' !! b = Some t) as Hb by (rewrite Hu, lookup_insert_ne; congruence).
        destruct (wf_used_used _ Hwf' _ _ _ _ Hb Ha); [congruence|lia..].
      * destruct (wf_used _ (hr_wf _ _ Hr d) _ _ Hd) as ((?&?&?)&?&?&?). simpl in *.
        destruct (Z.lt_ge_cases (a + 0) (b + t)); [|lia].
        destruct (Z.lt_ge_cases b (a + s)); [|lia]. exfalso.
        destruct d, dma; try done; simpl in *;
          apply (hr_sep _ _ Hr (Z.max a b)); right; simpl; lia.
Qed.

Lemma live_disjoint A h a s b t :
  heap_rep A h → live A a s → live A b t → a ≠ b → a + s ≤ b ∨ b + t ≤ a.
Proof.
  intros Hr [d Hd] [e He] Hne. destruct (decide (d = e)) as [<-|Hde].
  { by apply (wf_used_used _ (hr_wf _ _ Hr d)). }
  destruct (wf_used _ (hr_wf _ _ Hr d) _ _ Hd) as (?&?&?&?).
  destruct (wf_used _ (hr_wf _ _ Hr e) _ _ He) as (?&?&?&?).
  destruct (Z.lt_ge_cases b (a + s)); [|lia]. destruct (Z.lt_ge_cases a (b + t)); [|lia].
  exfalso. destruct d, e; try done; simpl in *;
    apply (hr_sep _ _ Hr (Z.max a b)); right; simpl; lia.
Qed.

(** Either the request is refused and nothing changes, or a pool serves it. *)
Lemma a_malloc_cases n A :
  a_malloc n A = (0, A) ∧ (admissible n A = false ∨
    ∀ dma, Forall (λ b, b.2 < round_req n) (ap_free (ah_get dma A))) ∨
  admissible n A = true ∧ ∃ dma, a_alloc_from dma (round_req n) A = Some (a_malloc n A).
Proof.
  unfold a_malloc. destruct (admissible n A); [|by left; split; [|left]].
  destruct (a_alloc_from false (round_req n) A) as [r|] eqn:E0; [right; eauto|].
  destruct (a_alloc_from true (round_req n) A) as [r|] eqn:E1; [right; eauto|].
  left. split; [done|right]. unfold a_alloc_from in *.
  intros d. apply a_take_None. destruct (a_take _ (ah_get d A)) as [[]|] eqn:E; [|done].
  destruct d; simpl in *; by rewrite E in *.
Qed.

Lemma a_mallocDMA_cases n A :
  a_mallocDMA n A = (0, A) ∨
  admissible n A = true ∧ a_alloc_from true (round_req n) A = Some (a_mallocDMA n A).
Proof.
  unfold a_mallocDMA. destruct (admissible n A); [|by left].
  destruct (a_alloc_from true (round_req n) A); auto.
Qed.

Lemma admissible_round n A :
  admissible n A = true → n + 16 ≤ round_req n ∧ 32 ≤ round_req n ∧ round_req n mod 16 = 0.
Proof.
  intros H. symmetry in H. apply admissible_range in H. pose proof (round_req_spec n). intuition lia.
Qed.

(** A block just taken from a pool is freed into that pool. *)
Lemma a_free_taken A h dma a p1 p2 :
  heap_rep (low_water (ah_set dma p1 A)) h → a_release a p1 = Some p2 →
  ∃ A2, a_free (a + 16) (low_water (ah_set dma p1 A)) = Some A2 ∧
    ah_get dma A2 = p2 ∧ ah_get (negb dma) A2 = ah_get (negb dma) A.
Proof.
  intros Hr Hrel. assert (∃ s, ap_used p1 !! a = Some s) as [s Hs].
  { unfold a_release in Hrel. destruct (ap_used p1 !! a); naive_solver. }
  unfold a_free. replace (a + 16 - 16) with a by lia.
  assert (live (low_water (ah_set dma p1 A)) a s) as Hl by (exists dma; by destruct dma).
  destruct (wf_used _ (hr_wf _ _ Hr dma) a s) as ((?&?&?)&?&Hlo&Hhi); [by destruct dma|].
  pose proof (wf_lo _ (hr_wf _ _ Hr dma)). simpl in *.
  rewrite (proj2 (Z.eqb_neq _ _)) by lia. destruct dma; simpl in *.
  - destruct (a_release a (ah_pool A)) as [q|] eqn:Eq; [exfalso|rewrite Hrel; eauto].
    unfold a_release in Eq. destruct (ap_used (ah_pool A) !! a) as [t|] eqn:Ea; [|done].
    destruct (wf_used _ (hr_wf _ _ Hr false) a t Ea) as (?&?&?&?). simpl in *.
    apply (hr_sep _ _ Hr a); right; simpl; lia.
  - rewrite Hrel. eauto.
Qed.

Lemma a_free_effect A h v A' :
  heap_rep A h → a_free v A = Some A' →
  ah_free A' + ah_used A' = ah_free A + ah_used A ∧ (tidy A → tidy A').
Proof.
  intros Hr Hf. destruct (Z.eq_dec v 0) as [->|Hv]; [by injection Hf as <-|].
  destruct (a_free_live _ _ _ _ Hr Hf Hv) as (dma&s&p'&Hu&Hrel&->).
  destruct (a_release_wf _ _ _ (hr_wf _ _ Hr dma) Hu) as (p''&Hrel'&_&_&_&Eu&Es).
  rewrite Hrel in Hrel'. injection Hrel' as <-.
  pose proof (used_sum_delete _ _ _ Hu) as Hus. rewrite <-Eu in Hus.
  pose proof (λ H, a_release_coalesced _ _ _ (hr_wf _ _ Hr dma) H Hrel) as Hco. split.
  - unfold ah_free, ah_used. destruct dma; simpl in *; lia.
  - intros Ht. by apply tidy_set; [|apply Hco].
Qed.

Lemma a_call_effect c A h v A' :
  heap_rep A h → a_call c A = Some (v, A') →
  ah_free A' + ah_used A' = ah_free A + ah_used A ∧ (tidy A → tidy A').
Proof.
  intros Hr. destruct c as [n|n|w]; simpl.
  - destruct (_ && _); [|done]. intros E. injection E as E.
    destruct (a_malloc_cases n A) as [[Em _]|[Ha [dma Em]]]; rewrite E in Em; simplify_eq; [done|].
    destruct (admissible_round _ _ Ha) as (?&?&?).
    by destruct (alloc_from_effect _ _ _ _ _ _ Hr ltac:(done) ltac:(done) Em) as (_&_&?&?&_).
  - destruct (_ && _); [|done]. intros E. injection E as E.
    destruct (a_mallocDMA_cases n A) as [Em|[Ha Em]]; rewrite E in Em; simplify_eq; [done|].
    destruct (admissible_round _ _ Ha) as (?&?&?).
    by destruct (alloc_from_effect _ _ _ _ _ _ Hr ltac:(done) ltac:(done) Em) as (_&_&?&?&_).
  - destruct (a_free w A) as [A1|] eqn:E; [|done]. intros [= <- <-]. by eapply a_free_effect.
Qed.

Lemma a_calls_effect cs A h vs A' :
  heap_rep A h → a_calls cs A = Some (vs, A') →
  ah_free A' + ah_used A' = ah_free A + ah_used A ∧ (tidy A → tidy A').
Proof.
  revert A h vs. induction cs as [|c cs IH]; intros A h vs Hr; simpl; [by intros [= <- <-]|].
  destruct (a_call c A) as [[v A1]|] eqn:Ec; [|done].
  destruct (a_calls cs A1) as [[vs1 A2]|] eqn:Ecs; [|done]. intros [= <- <-].
  destruct (a_call_effect _ _ _ _ _ Hr Ec) as [E1 T1].
  destruct (run_call_refines _ _ _ _ _ Hr Ec) as (h1&_&Hr1).
  destruct (IH _ _ _ Hr1 Ecs) as [E2 T2]. split; [lia|auto].
Qed.

Lemma more_blocks_tidy e lo regs :
  regions_ok lo regs → 0 < e → e + 16 ≤ lo → coalesced (more_blocks e regs).
Proof.
  revert e lo. induction regs as [|r regs IH]; intros e lo Hok He Hlo; [done|].
  pose proof (reg_bounds _ _ _ Hok ltac:(lia)) as (?&?&?&?&?&?).
  pose proof Hok as (?&?&?&Hok'). simpl more_blocks. rewrite !coalesced_cons.
  split_and!; [simpl; lia| |apply (IH _ _ Hok'); lia].
  destruct regs as [|r' regs]; simpl; done.
Qed.

Lemma init_tidy r regs d dregs :
  table_ok false r regs → table_ok true d dregs → tidy (init_aheap r regs d dregs).
Proof.
  intros Hr Hd. assert (∀ dma r regs, table_ok dma r regs → coalesced (ap_free (init_pool r regs))) as H.
  { intros dma q qs [Hok _ _]. pose proof (reg_bounds _ _ _ Hok ltac:(lia)) as (?&?&?&?&?&?).
    simpl ap_free. apply coalesced_cons. destruct Hok as (?&?&?&Hok). split; [by destruct qs|].
    eapply more_blocks_tidy; [done|lia..]. }
  intros []; simpl; eapply H; done.
Qed.

(** ** The properties *)

(** C1: the heap refines its specification: any sequence of [pvPortMalloc],
    [pvPortMallocDMA] and [vPortFree] calls that frees only live pointers
    terminates without fault, failed [configASSERT] or exhausted fuel, returns
    exactly what the abstract first-fit allocator returns, and leaves the
    header store representing the abstract heap. *)
Theorem heap_refines_spec cs A h vs A' :
  heap_rep A h → a_calls cs A = Some (vs, A') →
  ∃ h', run_calls cs h = Ret (vs, h') ∧ heap_rep A' h'.
Proof. apply run_calls_refines. Qed.

(** C2: [heap_init] on any two well-formed, disjoint tables of regions builds
    the representation of a heap whose regions are all free. *)
Theorem heap_init_establishes r regs d dregs :
  table_ok false r regs → table_ok true d dregs →
  (∀ x, region false (init_pool r regs) x → ¬ region true (init_pool d dregs) x) →
  ∃ h, heap_init (terminated (r :: regs)) (terminated (d :: dregs)) heap0 = Ret ((), h) ∧
    heap_rep (init_aheap r regs d dregs) h.
Proof. apply heap_init_run. Qed.

(** C3: what [pvPortMalloc] returns. It always returns; either NULL with the
    heap untouched, and then the request is zero, too large, beyond the free
    bytes, or no free block of either list can hold it; or a 16-byte aligned
    pointer to at least [n] bytes, behind its own header, that overlaps no
    live block, and every live block stays live. *)
Theorem malloc_correct A h n :
  heap_rep A h → 0 ≤ n < 2 ^ 32 →
  ∃ v h', p_pvPortMalloc n h = Ret (v, h') ∧
  ((v = 0 ∧ heap_rep A h' ∧ (n = 0 ∨ 2 ^ 31 ≤ n ∨ ah_free A < round_req n ∨
      ∀ dma, Forall (λ b, b.2 < round_req n) (ap_free (ah_get dma A)))) ∨
   (0 < v ∧ v mod 16 = 0 ∧ ∃ A' s, heap_rep A' h' ∧ n + 16 ≤ s ∧
      (∀ b t, live A' b t ↔ live A b t ∨ (b = v - 16 ∧ t = s)) ∧
      ∀ b t, live A b t → b + t ≤ v - 16 ∨ v - 16 + s ≤ b)).
Proof.
  intros Hr Hn. destruct (malloc_run _ _ _ Hr Hn) as (h'&Hrun&Hr').
  exists (a_malloc n A).1, h'. split; [done|].
  destruct (a_malloc_cases n A) as [[E Hwhy]|[Ha [dma E]]].
  - left. rewrite E in *. split_and!; [done..|].
    destruct Hwhy as [Hf|Hf]; [|by auto].
    unfold admissible in Hf. rewrite !andb_false_iff, !Z.ltb_ge, Z.leb_gt in Hf. lia.
  - right. destruct (admissible_round _ _ Ha) as (?&?&?).
    rewrite (surjective_pairing (a_malloc n A)) in E.
    destruct (alloc_from_effect _ _ _ _ _ _ Hr ltac:(done) ltac:(done) E)
      as (?&?&_&_&s&?&Hl&Hd).
    split_and!; [done..|]. exists (a_malloc n A).2, s. split_and!; [done|lia|done..].
Qed.

(** C4: from [heap_init] on, whatever legal calls are made: the allocated
    blocks are pairwise disjoint, no two free neighbours stay unmerged, the
    free-byte counter of the C code is the free memory, and free plus
    allocated memory is what the regions provided. *)
Theorem heap_sequences_safe r regs d dregs cs vs A' :
  table_ok false r regs → table_ok true d dregs →
  (∀ x, region false (init_pool r regs) x → ¬ region true (init_pool d dregs) x) →
  a_calls cs (init_aheap r regs d dregs) = Some (vs, A') →
  ∃ h', (heap_init (terminated (r :: regs)) (terminated (d :: dregs));; run_calls cs) heap0
      = Ret (vs, h') ∧
    (∀ a s b t, live A' a s → live A' b t → a ≠ b → a + s ≤ b ∨ b + t ≤ a) ∧
    (∀ dma, coalesced (ap_free (ah_get dma A'))) ∧
    hp_free h' = ah_free A' ∧
    hp_free h' + ah_used A' = ah_free (init_aheap r regs d dregs).
Proof.
  intros Hr Hd Hsep Hcs. destruct (heap_init_run r regs d dregs) as (h&Hrun&Hh); try done.
  destruct (run_calls_refines _ _ _ _ _ Hh Hcs) as (h'&Hrun'&Hh').
  destruct (a_calls_effect _ _ _ _ _ Hh Hcs) as [Htot Htidy].
  exists h'. split; [by erewrite bind_Ret by exact Hrun|]. split_and!.
  - intros a s b t. by eapply live_disjoint.
  - apply Htidy. by apply init_tidy.
  - apply Hh'.
  - rewrite (hr_free _ _ Hh'), Htot. unfold ah_used. simpl.
    unfold used_sum. rewrite map_fold_empty. lia.
Qed.

(** C5: freeing what was just allocated restores the free memory of both
    lists, block by block, on any heap whose free neighbours are merged. *)
Theorem malloc_free_restores A h n v h1 :
  heap_rep A h → tidy A → 0 ≤ n < 2 ^ 32 → p_pvPortMalloc n h = Ret (v, h1) → v ≠ 0 →
  ∃ h2 A2, p_vPortFree v h1 = Ret ((), h2) ∧ heap_rep A2 h2 ∧ tidy A2 ∧
    hp_free h2 = hp_free h ∧
    ∀ dma, real_blocks (ap_free (ah_get dma A2)) = real_blocks (ap_free (ah_get dma A)) ∧
           ap_used (ah_get dma A2) = ap_used (ah_get dma A).
Proof.
  intros Hr Ht Hn Hrun Hv. destruct (malloc_run _ _ _ Hr Hn) as (h'&Hrun'&Hr').
  rewrite Hrun in Hrun'. injection Hrun' as Ev <-.
  destruct (a_malloc_cases n A) as [[E _]|[Ha [dma E]]]; [by rewrite E in Ev|].
  destruct (admissible_round _ _ Ha) as (?&?&?).
  rewrite (surjective_pairing (a_malloc n A)), <-Ev in E.
  set (A1 := (a_malloc n A).2) in *. clearbody A1.
  assert (ah_free A1 + ah_used A1 = ah_free A + ah_used A ∧ (tidy A → tidy A1)) as [Et1 Ht1].
  { by destruct (alloc_from_effect _ _ _ _ _ _ Hr ltac:(done) ltac:(done) E) as (_&_&?&?&_). }
  unfold a_alloc_from in E.
  destruct (a_take (round_req n) (ah_get dma A)) as [[a p1]|] eqn:Etk; [|done].
  injection E as Ea <-. clear Ev. subst v.
  destruct (take_release _ _ _ _ (hr_wf _ _ Hr dma) ltac:(done) ltac:(done) (Ht dma) Etk)
    as (p2&Hrel&Hu2&Hb2&_).
  assert (∃ A2, a_free (a + 16) (low_water (ah_set dma p1 A)) = Some A2 ∧
    ah_get dma A2 = p2 ∧ ah_get (negb dma) A2 = ah_get (negb dma) A) as (A2&Hf&Eg&Eo).
  { by eapply a_free_taken. }
  destruct (free_run _ _ _ _ Hr' Hf) as (h2&Hrun2&Hr2). exists h2, A2.
  destruct (a_free_effect _ _ _ _ Hr' Hf) as [Et2 Ht2].
  assert (∀ d, ap_used (ah_get d A2) = ap_used (ah_get d A)) as Hus.
  { intros d. destruct d, dma; simpl in *; congruence. }
  split; [done|]. split; [done|]. split; [by auto|]. split.
  - rewrite (hr_free _ _ Hr2), (hr_free _ _ Hr).
    pose proof (Hus false) as U0. pose proof (Hus true) as U1. simpl in U0, U1.
    enough (ah_used A2 = ah_used A) by lia. unfold ah_used. by rewrite U0, U1.
  - intros d. split; [|done]. destruct d, dma; simpl in *; congruence.
Qed.

End Theorems.

(** ** A concrete heap: one ordinary region and two DMA regions *)

Module Demo.

#[export] Instance env : HeapEnv := {|
  addr_xStart := 0x20000000;
  addr_xStartDMA := 0x20000010;
  ram x := (0 <? x) && (x <? 2 ^ 32);
|}.

Definition main_region : HeapRegion_t := HeapRegion 0x20004004 0x2000.
Definition dma_region1 : HeapRegion_t := HeapRegion 0x20010000 0x400.
Definition dma_region2 : HeapRegion_t := HeapRegion 0x20010800 0x400.

Definition A0 : aheap := init_aheap main_region [] dma_region1 [dma_region2].

Lemma table_intro dma r regs lo hi :
  regions_ok 1 (r :: regs) → reg_first r = lo → end_after (reg_end r) regs = hi →
  hi - lo < 2 ^ 31 → 0 < list_start dma < 2 ^ 32 → list_start dma < lo ∨ hi < list_start dma →
  0 < lo → hi < 2 ^ 32 → table_ok dma r regs.
Proof.
  intros ? El Eh ?????. split; [done|lia|]. split; simpl.
  - unfold outside. lia.
  - by destruct dma.
  - intros x Hx. apply andb_true_iff. rewrite !Z.ltb_lt. lia.
Qed.

Lemma main_ok : table_ok false main_region [].
Proof. by apply (table_intro _ _ _ 0x20004010 0x20005FF0); simpl; auto; lia. Qed.

Lemma dma_ok : table_ok true dma_region1 [dma_region2].
Proof. by apply (table_intro _ _ _ 0x20010000 0x20010BF0); simpl; auto; lia. Qed.

Lemma regions_apart x :
  region false (init_pool main_region []) x → ¬ region true (init_pool dma_region1 [dma_region2]) x.
Proof.
  unfold region. change (ap_lo (init_pool main_region [])) with 0x20004010.
  change (ap_hi (init_pool main_region [])) with 0x20005FF0.
  change (ap_lo (init_pool dma_region1 _)) with 0x20010000.
  change (ap_hi (init_pool dma_region1 _)) with 0x20010BF0. simpl. lia.
Qed.

Lemma start : ∃ h, heap_rep A0 h.
Proof.
  destruct (heap_init_run _ _ _ _ main_ok dma_ok regions_apart) as (h&_&?). by exists h.
Qed.

Lemma heap_init_establishes_witness :
  ∃ h, heap_init (terminated [main_region]) (terminated [dma_region1; dma_region2]) heap0
      = Ret ((), h) ∧ heap_rep A0 h.
Proof.
  exact (heap_init_establishes main_region [] dma_region1 [dma_region2] main_ok dma_ok regions_apart).
Defined.

(** Two blocks, the second larger than what is left of the main region, so
    that it comes from the DMA list; the first is freed and reused. *)
Definition calls : list hcall :=
  [CallMalloc 0x1800; CallMalloc 0x380; CallMallocDMA 1; CallFree 0x20004020;
   CallMalloc 100; CallMalloc 0x1C00; CallFree 0].
Definition results : list Z :=
  [0x20004020; 0x20005830; 0x20010010; 0; 0x20004020; 0; 0].

Lemma calls_legal : ∃ A', a_calls calls A0 = Some (results, A').
Proof. eexists. vm_compute. reflexivity. Qed.

Lemma heap_refines_spec_witness :
  ∃ h h' A', heap_rep A0 h ∧ run_calls calls h = Ret (results, h') ∧ heap_rep A' h'.
Proof.
  destruct start as [h Hh], calls_legal as [A' HA].
  destruct (heap_refines_spec calls A0 h results A' Hh HA) as (h'&?&?). by exists h, h', A'.
Defined.

Lemma malloc_correct_witness : ∃ h v h', heap_rep A0 h ∧ p_pvPortMalloc 100 h = Ret (v, h').
Proof.
  destruct start as [h Hh].
  destruct (malloc_correct A0 h 100 Hh ltac:(lia)) as (v&h'&?&_). by exists h, v, h'.
Defined.

Lemma heap_sequences_safe_witness :
  ∃ h', (heap_init (terminated [main_region]) (terminated [dma_region1; dma_region2]);;
         run_calls calls) heap0 = Ret (results, h').
Proof.
  destruct calls_legal as [A' HA].
  destruct (heap_sequences_safe main_region [] dma_region1 [dma_region2] calls results A'
    main_ok dma_ok regions_apart HA) as (h'&?&_). by exists h'.
Defined.

Lemma malloc_free_restores_witness :
  ∃ h h1 h2, heap_rep A0 h ∧ p_pvPortMalloc 100 h = Ret (0x20004020, h1) ∧
    p_vPortFree 0x20004020 h1 = Ret ((), h2) ∧ hp_free h2 = hp_free h.
Proof.
  destruct start as [h Hh]. destruct (malloc_run A0 h 100 Hh ltac:(lia)) as (h1&Hrun&_).
  change (a_malloc 100 A0).1 with 0x20004020 in Hrun.
  destruct (malloc_free_restores A0 h 100 0x20004020 h1 Hh (init_tidy _ _ _ _ main_ok dma_ok)
    ltac:(lia) Hrun ltac:(done)) as (h2&?&?&_&_&?&_). by exists h, h1, h2.
Defined.

(** ** Outside the two-table configuration *)

(** When the DMA table names the ordinary region, the two list heads are
    copies of one another over the same blocks.  A [pvPortMallocDMA] followed
    by a [pvPortMalloc] then hands out the same block twice, and in the other
    order the second call takes the allocated block for a free one and walks
    through its NULL link. *)
Theorem same_region_double_allocation :
  match (heap_init (terminated [main_region]) (terminated [main_region]);;
         run_calls [CallMallocDMA 64; CallMalloc 64]) heap0 with
  | Ret (vs, _) => vs = [0x20004020; 0x20004020]
  | _ => False
  end ∧
  (heap_init (terminated [main_region]) (terminated [main_region]);;
   run_calls [CallMalloc 64; CallMallocDMA 64]) heap0 = Fault.
Proof. split; vm_compute; reflexivity. Qed.

(** With an empty DMA table (every build that is not CONFIG_N22_ONLY)
    [pxEndDMA] stays NULL; a request that the ordinary list cannot serve, but
    that the free-byte counter admits, is then looked for from [xStartDMA]
    on, whose next pointer is NULL, and the search reads through it. *)
Theorem no_dma_region_out_of_memory_faults :
  (heap_init (terminated [main_region]) (terminated []);;
   run_calls [CallMalloc 0xF00; CallMalloc 0x800; CallFree 0x20004020; CallMalloc 0x1000]) heap0
  = Fault.
Proof. vm_compute. reflexivity. Qed.

End Demo.
