(* ===== verification/Slab.v ===== *)
(** * Memory slabs: src/kernel/mem_slab.c

    A slab is an array of equal blocks; the free ones are chained through
    their first word.  A task that finds the slab empty may wait on a message
    queue of capacity one, into which [mem_slab_free] puts a block when it
    finds the free list empty and a task waiting.

    The state is shared: all slabs, the first words of all their blocks and
    the registry [memslabs].  The message queue belongs to the RTOS and is not
    part of the sources: it is the class [OsQueue], and what the slab code
    relies on is stated in [OsQueueLaws].  Code between [local_irq_save] and
    [local_irq_restore] runs undisturbed; [alloc_begin] and [alloc_finish] are
    the two halves of [mem_slab_alloc] around the point where interrupts are
    enabled again and the task may block. *)

From stdpp Require Import base tactics numbers list gmap.
From S2P Require Import Prelude.

(** ** The RTOS message queue (CMSIS-RTOS2 interface) *)

Definition osOK : Z := 0.
Definition osErrorTimeout : Z := -2.
Definition osErrorResource : Z := -3.
Definition osErrorParameter : Z := -4.
Definition osErrorNeedSched : Z := -7.
Definition osWaitForever : Z := 0xFFFFFFFF.

Definition EINVAL : Z := 22.
Definition ENOMEM : Z := 12.
Definition ETIME : Z := 62.

Class OsQueue := {
  oq : Type;
  osMessageQueueNew : Z → Z → option oq;            (* count, size; None is NULL *)
  osMessageQueueGet : oq → Z → Z * Z * oq;          (* status, message, queue *)
  osMessageQueuePut : oq → Z → Z * oq;
  osMessageQueueDelete : oq → Z;
  osMessageQueueGetCount : oq → Z;
  osMessageQueueGetSpace : oq → Z;
  osMessageQueueGetNumberOfTasksWaitingToReceive : oq → Z;
}.

Class OsQueueLaws {OQ : OsQueue} := {
  oq_items : oq → list Z;
  oq_new_items n s q : osMessageQueueNew n s = Some q → oq_items q = [];
  oq_put_ok q m : osMessageQueueGetSpace q ≠ 0 →
    ((osMessageQueuePut q m).1 = osOK ∨ (osMessageQueuePut q m).1 = osErrorNeedSched) ∧
    oq_items (osMessageQueuePut q m).2 = oq_items q ++ [m];
  oq_get_cases q t st m q' : osMessageQueueGet q t = (st, m, q') →
    (st = osOK ∧ oq_items q = m :: oq_items q') ∨
    ((st = osErrorTimeout ∨ st = osErrorResource ∨ st = osErrorParameter) ∧
     oq_items q' = oq_items q);
  oq_count_items q : osMessageQueueGetCount q = Z.of_nat (length (oq_items q));
}.

Section Slab.
Context {OQ : OsQueue}.

(** ** State *)

Record mem_slab_info := MemSlabInfo {
  num_blocks : Z; block_size : Z; num_used : Z; max_used : Z }.

Record mem_slab := MemSlab {
  wait_q : option oq; buffer : Z; free_list : Z; info : mem_slab_info }.

Record slabs := Slabs {
  ss_slab : gmap Z mem_slab;    (* struct mem_slab objects, by address *)
  ss_mem : gmap Z Z;            (* first word of blocks: the link [*(char ** )p] *)
  memslabs : list Z;            (* the registry list *)
}.

Definition get_slab (a : Z) : M slabs mem_slab := λ st,
  match ss_slab st !! a with Some s => Ret (s, st) | None => Fault end.
Definition put_slab (a : Z) (s : mem_slab) : M slabs unit :=
  modify (λ st, Slabs (<[a := s]> (ss_slab st)) (ss_mem st) (memslabs st)).
Definition load_link (p : Z) : M slabs Z := λ st,
  match ss_mem st !! p with Some v => Ret (v, st) | None => Fault end.
(** Writing through NULL is the only write the hardware refuses here. *)
Definition store_link (p v : Z) : M slabs unit := λ st,
  if p =? NULL then Fault
  else Ret ((), Slabs (ss_slab st) (<[p := v]> (ss_mem st)) (memslabs st)).
Definition list_add_tail (a : Z) : M slabs unit :=
  modify (λ st, Slabs (ss_slab st) (ss_mem st) (memslabs st ++ [a])).

Definition set_free_list (s : mem_slab) (p : Z) : mem_slab :=
  MemSlab (wait_q s) (buffer s) p (info s).
Definition set_wait_q (s : mem_slab) (q : option oq) : mem_slab :=
  MemSlab q (buffer s) (free_list s) (info s).
Definition set_used (s : mem_slab) (n m : Z) : mem_slab :=
  MemSlab (wait_q s) (buffer s) (free_list s)
    (MemSlabInfo (num_blocks (info s)) (block_size (info s)) n m).

(** ** Initialisation *)

(** [while (p >= slab->buffer)] *)
Fixpoint free_list_loop (fuel : nat) (slab p : Z) : M slabs unit :=
  match fuel with
  | O => out_of_fuel
  | S fuel =>
      s ← get_slab slab;
      if p >=? buffer s then
        store_link p (free_list s);;
        put_slab slab (set_free_list s p);;
        free_list_loop fuel slab (u32 (p - block_size (info s)))
      else mret ()
  end.

Definition create_free_list (slab : Z) : M slabs Z :=
  s ← get_slab slab;
  if negb (Z.land (Z.lor (block_size (info s)) (buffer s)) (4 - 1) =? 0) then mret (- EINVAL) else
  put_slab slab (set_free_list s NULL);;
  let p := u32 (buffer s + u32 (block_size (info s) * u32 (num_blocks (info s) - 1))) in
  free_list_loop (S (S (Z.to_nat (num_blocks (info s))))) slab p;;
  mret 0.

Definition create_wait_q (slab : Z) : M slabs Z :=
  s ← get_slab slab;
  let q := osMessageQueueNew 1 4 in
  put_slab slab (set_wait_q s q);;
  match q with None => mret (- EINVAL) | Some _ => mret 0 end.

Definition mem_slab_init (slab buf bsize nblocks : Z) : M slabs Z :=
  s ← get_slab slab;
  put_slab slab (MemSlab (wait_q s) buf (free_list s) (MemSlabInfo nblocks bsize 0 0));;
  rc ← create_free_list slab;
  if rc <? 0 then mret rc else
  rc ← create_wait_q slab;
  if rc <? 0 then mret rc else
  list_add_tail slab;;
  mret 0.

Definition delete_wait_q (slab : Z) : M slabs Z :=
  s ← get_slab slab;
  match wait_q s with
  | None => mret 0
  | Some q =>
      c_assert (osMessageQueueGetCount q =? 0);;
      if negb (osMessageQueueDelete q =? 0) then mret (- EINVAL)
      else put_slab slab (set_wait_q s None);; mret 0
  end.

Definition mem_slab_deinit (slab : Z) : M slabs Z :=
  s ← get_slab slab;
  c_assert (num_used (info s) =? 0);;
  rc ← delete_wait_q slab;
  if rc <? 0 then mret rc else mret 0.

(** The static slabs of the image, at start-up. *)
Fixpoint memory_slab_init (statics : list Z) : M slabs Z :=
  match statics with
  | [] => mret 0
  | s :: rest =>
      ret ← create_free_list s;
      if ret <? 0 then mret ret else
      ret ← create_wait_q s;
      if ret <? 0 then mret ret else
      list_add_tail s;;
      memory_slab_init rest
  end.

Definition memory_slab_fini : M slabs Z :=
  modify (λ st, Slabs (ss_slab st) (ss_mem st) []);; mret 0.

(** ** Allocation *)

Definition slab_ptr_is_good (s : mem_slab) (ptr : Z) : bool :=
  let offset := s32 (ptr - buffer s) in
  (offset >=? 0) &&
  (offset <? u32 (block_size (info s) * num_blocks (info s))) &&
  (offset mod block_size (info s) =? 0).

(** Either the call is over, or the task is about to wait on the queue. *)
Inductive alloc_result := AllocDone (result mem : Z) | AllocWait (tick : Z).

Section Ticks.
(** [pdMS_TO_TICKS], which depends on the configured tick rate. *)
Context (ms_to_ticks : Z → Z).

Definition alloc_begin (slab timeout : Z) : M slabs alloc_result :=
  s ← get_slab slab;
  if negb (free_list s =? NULL) then
    let mem := free_list s in
    nx ← load_link (free_list s);
    let used := u32 (num_used (info s) + 1) in
    let s' := set_used (set_free_list s nx) used (max_used (info s)) in
    c_assert (((nx =? NULL) && (used =? num_blocks (info s))) || slab_ptr_is_good s' nx);;
    put_slab slab (set_used s' used (Z.max used (max_used (info s))));;
    mret (AllocDone 0 mem)
  else if timeout =? 0 then mret (AllocDone (- ENOMEM) NULL)
  else mret (AllocWait (if timeout =? osWaitForever then timeout else ms_to_ticks timeout)).

Definition alloc_finish (stat : Z) : Z :=
  if (stat =? osErrorParameter) || (stat =? osErrorResource) then - EINVAL
  else if stat =? osErrorTimeout then - ETIME
  else 0.

(** The whole function, returning the result and [*mem] (None: not written). *)
Definition mem_slab_alloc (slab timeout : Z) : M slabs (Z * option Z) :=
  r ← alloc_begin slab timeout;
  match r with
  | AllocDone result mem => mret (result, Some mem)
  | AllocWait tick =>
      s ← get_slab slab;
      match wait_q s with
      | None => mret (alloc_finish osErrorParameter, None)
      | Some q =>
          let '(stat, m, q') := osMessageQueueGet q tick in
          put_slab slab (set_wait_q s (Some q'));;
          mret (alloc_finish stat, if stat =? osOK then Some m else None)
      end
  end.

End Ticks.

(** ** Release *)

Definition queue_waiting (s : mem_slab) : bool :=
  match wait_q s with
  | Some q => negb (osMessageQueueGetNumberOfTasksWaitingToReceive q =? 0) &&
              negb (osMessageQueueGetSpace q =? 0)
  | None => false
  end.

Definition mem_slab_free (slab mem : Z) : M slabs unit :=
  s ← get_slab slab;
  match (if (free_list s =? NULL) && queue_waiting s then wait_q s else None) with
  | Some q =>
      let '(result, q') := osMessageQueuePut q mem in
      put_slab slab (set_wait_q s (Some q'));;
      c_assert ((result =? osOK) || (result =? osErrorNeedSched))
  | None =>
      store_link mem (free_list s);;
      put_slab slab (set_used (set_free_list s mem) (u32 (num_used (info s) - 1)) (max_used (info s)))
  end.

End Slab.
