(* ===== verification/SlabTheorems.v ===== *)
(** * Memory slabs: invariant and theorems

    The invariant of a slab says that the blocks are exactly the ones on the
    free list, the one in transit in the wait queue and the ones held by
    clients, none twice.  It is established by [mem_slab_init] and kept by
    every interleaving of allocations, waits, releases and scheduling. *)

From stdpp Require Import base tactics numbers list gmap relations.
From S2P Require Import Prelude Slab.

Section Theorems.
Context {OQ : OsQueue} {OQL : OsQueueLaws}.

(** ** The invariant *)

Definition blocks (s : mem_slab) : list Z :=
  (λ i, buffer s + i * block_size (info s)) <$> seqZ 0 (num_blocks (info s)).

Record geometry (s : mem_slab) : Prop := {
  geo_size : 0 < block_size (info s);
  geo_num : 0 ≤ num_blocks (info s);
  geo_align : Z.land (Z.lor (block_size (info s)) (buffer s)) 3 = 0;
  geo_low : block_size (info s) ≤ buffer s;
  geo_high : buffer s + block_size (info s) * num_blocks (info s) < 2 ^ 32;
  geo_total : block_size (info s) * num_blocks (info s) < 2 ^ 31;
}.

(** The free list in memory. *)
Fixpoint fchain (m : gmap Z Z) (p : Z) (l : list Z) : Prop :=
  match l with
  | [] => p = NULL
  | x :: l' => p = x ∧ x ≠ NULL ∧ ∃ n, m !! x = Some n ∧ fchain m n l'
  end.

Record slab_ok (a : Z) (st : slabs) (s : mem_slab) (q : oq) (l held : list Z) : Prop := {
  so_slab : ss_slab st !! a = Some s;
  so_queue : wait_q s = Some q;
  so_geo : geometry s;
  so_chain : fchain (ss_mem st) (free_list s) l;
  so_perm : l ++ oq_items q ++ held ≡ₚ blocks s;
  so_used : num_used (info s) = Z.of_nat (length (oq_items q ++ held));
  so_max : num_used (info s) ≤ max_used (info s) ≤ num_blocks (info s);
}.

Definition slab_inv (a : Z) (st : slabs) (held : list Z) : Prop :=
  ∃ s q l, slab_ok a st s q l held.

(** ** Blocks and the free list *)

Lemma elem_of_blocks s x :
  x ∈ blocks s ↔ ∃ i, x = buffer s + i * block_size (info s) ∧ 0 ≤ i < num_blocks (info s).
Proof.
  unfold blocks. rewrite list_elem_of_fmap. split.
  - intros (i&->&Hi%elem_of_seqZ). exists i. lia.
  - intros (i&->&Hi). exists i. split; [done|]. apply elem_of_seqZ. lia.
Qed.

Lemma blocks_length s : 0 ≤ num_blocks (info s) → Z.of_nat (length (blocks s)) = num_blocks (info s).
Proof. intros. unfold blocks. rewrite length_fmap, length_seqZ. lia. Qed.

Lemma blocks_NoDup s : geometry s → NoDup (blocks s).
Proof.
  intros []. unfold blocks. apply NoDup_fmap_2_strong; [|apply NoDup_seqZ].
  intros i j _ _ E. nia.
Qed.

Lemma block_good s x : geometry s → x ∈ blocks s → slab_ptr_is_good s x = true ∧ 0 < x < 2 ^ 32.
Proof.
  intros [] (i&->&Hi)%elem_of_blocks. split; [|nia]. unfold slab_ptr_is_good.
  replace (buffer s + i * block_size (info s) - buffer s) with (i * block_size (info s)) by lia.
  rewrite s32_id, u32_id by nia. rewrite Z.mod_mul by lia.
  rewrite !andb_true_iff, Z.geb_le, Z.ltb_lt. split_and!; try done; nia.
Qed.

Lemma fchain_agree m m' p l :
  (∀ x, x ∈ l → m' !! x = m !! x) → fchain m p l → fchain m' p l.
Proof.
  revert p. induction l as [|x l IH]; intros p Hm; simpl; [done|].
  intros (->&?&n&?&?). split_and!; [done..|]. exists n.
  rewrite Hm by set_solver. split; [done|]. apply IH; [|done]. set_solver.
Qed.

Lemma fchain_push m p l x : x ≠ NULL → x ∉ l → fchain m p l → fchain (<[x := p]> m) x (x :: l).
Proof.
  intros Hx Hn Hc. simpl. split_and!; [done..|]. exists p. rewrite lookup_insert_eq.
  split; [done|]. eapply fchain_agree; [|done]. intros y Hy. rewrite lookup_insert_ne; set_solver.
Qed.

Lemma run_get_slab a s st : ss_slab st !! a = Some s → get_slab a st = Ret (s, st).
Proof. intros Hs. unfold get_slab. by rewrite Hs. Qed.

Lemma run_store_link p v st :
  p ≠ NULL → store_link p v st = Ret ((), Slabs (ss_slab st) (<[p := v]> (ss_mem st)) (memslabs st)).
Proof. intros. unfold store_link. by rewrite (proj2 (Z.eqb_neq _ _)). Qed.

(** ** Initialisation *)

(** The loop fills the free list from the last block down to the first. *)
Lemma free_list_loop_spec fuel a st s k l :
  ss_slab st !! a = Some s → geometry s → 0 ≤ k ≤ num_blocks (info s) → (Z.to_nat k < fuel)%nat →
  fchain (ss_mem st) (free_list s) l →
  (∀ x, x ∈ l → ∃ i, x = buffer s + i * block_size (info s) ∧ k ≤ i) →
  ∃ st', free_list_loop fuel a (u32 (buffer s + (k - 1) * block_size (info s))) st = Ret ((), st') ∧
    ∃ p, ss_slab st' = <[a := set_free_list s p]> (ss_slab st) ∧ memslabs st' = memslabs st ∧
      fchain (ss_mem st') p
        (((λ i, buffer s + i * block_size (info s)) <$> seqZ 0 k) ++ l).
Proof.
  revert fuel st s l. induction (Z.to_nat k) as [|n IH] eqn:Ek in k |- *;
    intros fuel st s l Hs Hg Hk Hf Hc Hl; destruct fuel as [|fuel]; try lia;
    pose proof Hg as [Hbs Hnb _ Hlow Hhigh _]; simpl free_list_loop.
  - assert (k = 0) as -> by lia. erewrite bind_Ret by (by apply run_get_slab).
    rewrite u32_id by lia. rewrite (proj2 (geb_false _ _)) by lia.
    exists st. split; [done|]. exists (free_list s).
    split_and!; [|done|done]. rewrite insert_id; [done|]. by destruct s.
  - erewrite bind_Ret by (by apply run_get_slab). rewrite u32_id by nia.
    rewrite (proj2 (Z.geb_le _ _)) by nia.
    set (x := buffer s + (k - 1) * block_size (info s)).
    assert (x ≠ NULL) by (subst x; nia).
    erewrite bind_Ret by (by apply run_store_link). mstep. simpl.
    replace (x - block_size (info s)) with (buffer s + (k - 1 - 1) * block_size (info s)) by (subst x; lia).
    destruct (IH (k - 1) ltac:(lia) fuel
      (Slabs (<[a := set_free_list s x]> (ss_slab st)) (<[x := free_list s]> (ss_mem st)) (memslabs st))
      (set_free_list s x) (x :: l)) as (st'&Hrun&p&Es&Em&Hch); simpl.
    + by rewrite lookup_insert_eq.
    + by destruct Hg.
    + lia.
    + lia.
    + apply fchain_push; [done| |done]. intros (i&E&?)%Hl. subst x. nia.
    + intros y [->|Hy]%elem_of_cons; [exists (k - 1); split; [done|lia]|].
      destruct (Hl y Hy) as (i&->&?). exists i. split; [done|lia].
    + exists st'. split; [done|]. exists p. simpl in *. rewrite Es. split_and!; [|done|].
      * by rewrite insert_insert_eq.
      * replace k with (k - 1 + 1) at 1 by lia.
        rewrite seqZ_app, fmap_app, <-app_assoc by lia. simpl.
        replace (seqZ (0 + (k - 1)) 1) with [k - 1] by (rewrite seqZ_cons by lia; simpl; f_equal; lia).
        done.
Qed.

Lemma create_free_list_spec a st s :
  ss_slab st !! a = Some s → geometry s →
  ∃ st' p, create_free_list a st = Ret (0, st') ∧
    ss_slab st' = <[a := set_free_list s p]> (ss_slab st) ∧ memslabs st' = memslabs st ∧
    fchain (ss_mem st') p (blocks s).
Proof.
  intros Hs Hg. pose proof Hg as [Hbs Hnb Hal Hlow Hhigh _]. unfold create_free_list.
  erewrite bind_Ret by (by apply run_get_slab).
  change (4 - 1) with 3. rewrite Hal. change (negb (0 =? 0)) with false. cbv iota. mstep. cbv zeta.
  set (st1 := Slabs _ _ _).
  assert (u32 (buffer s + u32 (block_size (info s) * u32 (num_blocks (info s) - 1))) =
    u32 (buffer s + (num_blocks (info s) - 1) * block_size (info s))) as ->.
  { unfold u32. rewrite Zplus_mod_idemp_r, <-(Zplus_mod_idemp_r (_ * _) (buffer s)).
    rewrite Zmult_mod_idemp_r. rewrite Zplus_mod_idemp_r. f_equal. lia. }
  destruct (free_list_loop_spec (S (S (Z.to_nat (num_blocks (info s))))) a st1
    (set_free_list s NULL) (num_blocks (info s)) []) as (st'&Hrun&p&Es&Em&Hch); simpl;
    [by rewrite lookup_insert_eq|by destruct Hg|lia|lia|done|by intros ? ?%elem_of_nil|].
  simpl in *. erewrite bind_Ret by exact Hrun.
  exists st', p. split_and!; [done| |done|by rewrite app_nil_r in Hch].
  rewrite Es. by rewrite insert_insert_eq.
Qed.

Lemma create_wait_q_spec a st s q :
  ss_slab st !! a = Some s → osMessageQueueNew 1 4 = Some q →
  create_wait_q a st =
    Ret (0, Slabs (<[a := set_wait_q s (Some q)]> (ss_slab st)) (ss_mem st) (memslabs st)).
Proof.
  intros Hs Hq. unfold create_wait_q. erewrite bind_Ret by (by apply run_get_slab).
  cbv zeta. rewrite Hq. done.
Qed.

Lemma fresh_slab_ok a st s q p :
  ss_slab st !! a = Some s → free_list s = p → wait_q s = Some q → geometry s →
  fchain (ss_mem st) p (blocks s) → oq_items q = [] →
  num_used (info s) = 0 → max_used (info s) = 0 → slab_ok a st s q (blocks s) [].
Proof.
  intros ? <- ? [] ? Hq ??. split; try done.
  - by rewrite Hq, app_nil_r.
  - by rewrite Hq.
  - lia.
Qed.

(** ** Allocation *)

Lemma slab_ok_count a st s q l held :
  slab_ok a st s q l held →
  Z.of_nat (length l) + num_used (info s) = num_blocks (info s) ∧ num_blocks (info s) < 2 ^ 31.
Proof.
  intros [_ _ Hg _ Hp Hu _]. pose proof Hg as [].
  apply Permutation_length in Hp. rewrite !length_app in *.
  rewrite <-(blocks_length s) at 1 by done. split; [lia|nia].
Qed.

Lemma slab_ok_blocks a st s q l held x :
  slab_ok a st s q l held → x ∈ l ++ oq_items q ++ held →
  slab_ptr_is_good s x = true ∧ 0 < x < 2 ^ 32.
Proof. intros [_ _ Hg _ Hp _ _] Hx. apply block_good; [done|]. by rewrite <-Hp. Qed.

Lemma alloc_take tk a st s q x l held t :
  slab_ok a st s q (x :: l) held →
  ∃ st' s', alloc_begin tk a t st = Ret (AllocDone 0 x, st') ∧ slab_ok a st' s' q l (x :: held) ∧
    ss_mem st' = ss_mem st ∧ (∀ b, b ≠ a → ss_slab st' !! b = ss_slab st !! b).
Proof.
  intros Hok. pose proof (slab_ok_count _ _ _ _ _ _ Hok) as [Hcnt Hnb].
  pose proof (slab_ok_blocks _ _ _ _ _ _ x Hok ltac:(set_solver)) as [_ ?].
  pose proof Hok as [Hs Hq Hg (Ex&_&n&Hn&Hch) Hp Hu Hm]. rewrite length_cons in Hcnt.
  unfold alloc_begin. erewrite bind_Ret by (by apply run_get_slab). rewrite Ex.
  rewrite (proj2 (Z.eqb_neq x 0)) by lia. redb. cbv zeta.
  erewrite bind_Ret by (unfold load_link; by rewrite Hn).
  rewrite (u32_id (num_used (info s) + 1)) by lia.
  assert (((n =? NULL) && (num_used (info s) + 1 =? num_blocks (info s))) ||
    slab_ptr_is_good (set_used (set_free_list s n) (num_used (info s) + 1) (max_used (info s))) n
    = true) as ->.
  { destruct l as [|y l]; simpl in Hch.
    - subst n. simpl in Hcnt. rewrite (proj2 (Z.eqb_eq (num_used (info s) + 1) (num_blocks (info s)))) by lia. done.
    - destruct Hch as (->&_). destruct (slab_ok_blocks _ _ _ _ _ _ y Hok ltac:(set_solver)) as [Hy _].
      apply orb_true_iff. by right. }
  mstep. mstep. eexists _, _. split; [done|]. split; [split; simpl|].
  - by rewrite lookup_insert_eq.
  - done.
  - by destruct Hg.
  - done.
  - change (blocks _) with (blocks s). rewrite <-Hp. simpl. by rewrite !app_assoc, Permutation_middle.
  - rewrite !length_app in *. simpl in *. lia.
  - simpl. lia.
  - split; [done|]. intros b Hb. simpl. by rewrite lookup_insert_ne.
Qed.

Lemma alloc_empty tk a st s q held t :
  slab_ok a st s q [] held →
  alloc_begin tk a t st =
    Ret (if t =? 0 then AllocDone (- ENOMEM) NULL
         else AllocWait (if t =? osWaitForever then t else tk t), st).
Proof.
  intros [Hs _ _ Hc _ _ _]. simpl in Hc. unfold alloc_begin.
  erewrite bind_Ret by (by apply run_get_slab). rewrite Hc. redb. by destruct (t =? 0).
Qed.

Lemma get_block a st s q l held tick stat m q' :
  slab_ok a st s q l held → osMessageQueueGet q tick = (stat, m, q') →
  slab_ok a (Slabs (<[a := set_wait_q s (Some q')]> (ss_slab st)) (ss_mem st) (memslabs st))
    (set_wait_q s (Some q')) q' l (if stat =? osOK then m :: held else held) ∧
  (stat = osOK → oq_items q = m :: oq_items q').
Proof.
  intros [Hs Hq Hg Hc Hp Hu Hm] Hget.
  assert (geometry (set_wait_q s (Some q'))) by by destruct Hg.
  destruct (oq_get_cases _ _ _ _ _ Hget) as [[-> E]|[Hst E]].
  - split; [|done]. split; simpl; try done.
    + by rewrite lookup_insert_eq.
    + change (blocks _) with (blocks s). rewrite <-Hp, E. simpl. by rewrite <-Permutation_middle.
    + rewrite Hu, E, !length_app. simpl. lia.
  - assert ((stat =? osOK) = false) as -> by (by destruct Hst as [->|[->| ->]]).
    split; [|by destruct Hst as [->|[->| ->]]]. split; simpl; try done.
    + by rewrite lookup_insert_eq.
    + change (blocks _) with (blocks s). by rewrite E.
    + by rewrite Hu, E.
Qed.

(** ** Release *)

Lemma free_block a st s q l held held' m :
  slab_ok a st s q l held → held ≡ₚ m :: held' →
  ∃ st' s' q' l', mem_slab_free a m st = Ret ((), st') ∧ slab_ok a st' s' q' l' held' ∧
    if (free_list s =? NULL) && queue_waiting s
    then l' = [] ∧ oq_items q' = oq_items q ++ [m] ∧ ss_mem st' = ss_mem st
    else l' = m :: l ∧ q' = q.
Proof.
  intros Hok Hh. pose proof (slab_ok_count _ _ _ _ _ _ Hok) as [Hcnt Hnb].
  assert (m ∈ l ++ oq_items q ++ held) as Hin.
  { rewrite Hh. set_solver. }
  pose proof (slab_ok_blocks _ _ _ _ _ _ m Hok Hin) as [_ ?].
  pose proof Hok as [Hs Hq Hg Hc Hp Hu Hm]. pose proof Hg as Hg'.
  unfold mem_slab_free. erewrite bind_Ret by (by apply run_get_slab).
  destruct ((free_list s =? NULL) && queue_waiting s) eqn:Eg.
  - rewrite Hq. unfold queue_waiting in Eg. rewrite Hq, !andb_true_iff, !negb_true_iff in Eg.
    destruct Eg as (Ef%Z.eqb_eq&_&Hsp%Z.eqb_neq).
    destruct (oq_put_ok q m Hsp) as [Hst Hit].
    destruct (osMessageQueuePut q m) as [r q']. simpl in Hst, Hit.
    assert (l = []) as -> by (destruct l; [done|]; destruct Hc as (?&?&_); congruence).
    assert ((r =? osOK) || (r =? osErrorNeedSched) = true) as Hass by by destruct Hst as [->| ->].
    eexists _, _, q', []. split; [mstep; rewrite Hass; reflexivity|]. split; [split; simpl|done].
    + by rewrite lookup_insert_eq.
    + done.
    + by destruct Hg'.
    + done.
    + change (blocks _) with (blocks s). rewrite <-Hp, Hh, Hit. simpl.
      by rewrite <-app_assoc.
    + simpl. rewrite Hu, Hit, !length_app, Hh. simpl. lia.
    + done.
  - assert (num_used (info s) - 1 = Z.of_nat (length (oq_items q ++ held'))) as Eu.
    { rewrite Hu, !length_app, Hh. simpl. lia. }
    erewrite bind_Ret by (apply run_store_link; lia). rewrite u32_id by lia.
    eexists _, _, q, (m :: l). split; [done|]. split; [split; simpl|done].
    + by rewrite lookup_insert_eq.
    + done.
    + by destruct Hg'.
    + apply fchain_push; [lia| |done]. intros Hml.
      pose proof (blocks_NoDup _ Hg) as Hnd. rewrite <-Hp, Hh in Hnd.
      apply NoDup_app in Hnd as (_&Hd&_). apply (Hd m Hml). set_solver.
    + change (blocks _) with (blocks s). rewrite <-Hp, Hh.
      by rewrite <-!Permutation_middle.
    + done.
    + simpl. lia.
Qed.

(** ** The slab among tasks

    One step of the system around the slab at address [a], with the blocks
    its clients hold.  The two halves of [mem_slab_alloc] are separate steps,
    since interrupts are enabled between them; [sys_os] is the RTOS queueing
    or waking a task, which does not touch the messages. *)

Definition sys : Type := slabs * list Z.

Inductive sys_step (tk : Z → Z) (a : Z) : sys → sys → Prop :=
| sys_alloc st held t result mem st' :
    alloc_begin tk a t st = Ret (AllocDone result mem, st') →
    sys_step tk a (st, held) (st', if result =? 0 then mem :: held else held)
| sys_wait st held t tick st' :
    alloc_begin tk a t st = Ret (AllocWait tick, st') →
    sys_step tk a (st, held) (st', held)
| sys_get st held s q tick stat m q' st' :
    get_slab a st = Ret (s, st) → wait_q s = Some q →
    osMessageQueueGet q tick = (stat, m, q') →
    put_slab a (set_wait_q s (Some q')) st = Ret ((), st') →
    sys_step tk a (st, held) (st', if stat =? osOK then m :: held else held)
| sys_os st held s q q' st' :
    get_slab a st = Ret (s, st) → wait_q s = Some q → oq_items q' = oq_items q →
    put_slab a (set_wait_q s (Some q')) st = Ret ((), st') →
    sys_step tk a (st, held) (st', held)
| sys_free st held held' m st' :
    held ≡ₚ m :: held' → mem_slab_free a m st = Ret ((), st') →
    sys_step tk a (st, held) (st', held').

Lemma get_slab_inv a st s s' :
  ss_slab st !! a = Some s → get_slab a st = Ret (s', st) → s' = s.
Proof. intros Hs. rewrite (run_get_slab _ _ _ Hs). by intros [= ->]. Qed.

Lemma sys_step_inv tk a x y :
  sys_step tk a x y → slab_inv a x.1 x.2 → slab_inv a y.1 y.2.
Proof.
  intros Hstep (s&q&l&Hok).
  destruct Hstep as [st held t r m st' Hb|st held t tick st' Hb
    |st held s' q' tick stat m q'' st' Hg Hq Hget Hput
    |st held s' q' q'' st' Hg Hq Hit Hput|st held held' m st' Hh Hf]; simpl in *.
  - destruct l as [|x l].
    + rewrite (alloc_empty tk _ _ _ _ _ t Hok) in Hb.
      destruct (t =? 0); simplify_eq. simpl. by exists s, q, [].
    + destruct (alloc_take tk _ _ _ _ _ _ _ t Hok) as (st1&s1&Hrun&Hok1&_).
      rewrite Hrun in Hb. simplify_eq. simpl. by exists s1, q, l.
  - destruct l as [|x l].
    + rewrite (alloc_empty tk _ _ _ _ _ t Hok) in Hb.
      destruct (t =? 0); simplify_eq. by exists s, q, [].
    + destruct (alloc_take tk _ _ _ _ _ _ _ t Hok) as (st1&s1&Hrun&Hok1&_).
      rewrite Hrun in Hb. simplify_eq.
  - apply (get_slab_inv _ _ _ _ (so_slab _ _ _ _ _ _ Hok)) in Hg as ->.
    rewrite (so_queue _ _ _ _ _ _ Hok) in Hq. simplify_eq.
    destruct (get_block _ _ _ _ _ _ _ _ _ _ Hok Hget) as [Hok' _].
    injection Hput as <-. eexists _, _, _. exact Hok'.
  - apply (get_slab_inv _ _ _ _ (so_slab _ _ _ _ _ _ Hok)) in Hg as ->.
    pose proof Hok as [Hs Hq' Hgeo Hc Hp Hu Hm]. rewrite Hq' in Hq. simplify_eq.
    injection Hput as <-. exists (set_wait_q s (Some q'')), q'', l. split; simpl; try done.
    + by rewrite lookup_insert_eq.
    + by destruct Hgeo.
    + by rewrite Hit.
    + by rewrite Hit.
  - destruct (free_block _ _ _ _ _ _ _ _ Hok Hh) as (st1&s1&q1&l1&Hrun&Hok1&_).
    rewrite Hrun in Hf. simplify_eq. by exists s1, q1, l1.
Qed.

Lemma slab_inv_NoDup a st held : slab_inv a st held → NoDup held.
Proof.
  intros (s&q&l&[_ _ Hg _ Hp _ _]). pose proof (blocks_NoDup _ Hg) as Hnd. rewrite <-Hp in Hnd.
  by apply NoDup_app in Hnd as (_&_&(_&_&?)%NoDup_app).
Qed.

(** A sequence of releases. *)
Fixpoint free_all (a : Z) (ms : list Z) : M slabs unit :=
  match ms with
  | [] => mret ()
  | m :: ms => mem_slab_free a m;; free_all a ms
  end.

(** Once the free list is not empty, or nobody waits, releases only push. *)
Lemma free_all_pushes a q ms1 ms2 st s l held :
  slab_ok a st s q l held → held ≡ₚ ms1 ++ ms2 → l ≠ [] ∨ queue_waiting s = false →
  ∃ st' s', free_all a ms1 st = Ret ((), st') ∧ slab_ok a st' s' q (reverse ms1 ++ l) ms2.
Proof.
  revert st s l held. induction ms1 as [|x ms1 IH]; intros st s l held Hok Hh Hl; simpl.
  - exists st, s. split; [done|]. simpl in Hh. destruct Hok. split; try done.
    + rewrite <-so_perm0. by rewrite Hh.
    + by rewrite so_used0, !length_app, Hh.
  - destruct (free_block _ _ _ _ _ _ _ _ Hok Hh) as (st1&s1&q1&l1&Hrun&Hok1&Hc).
    assert ((free_list s =? NULL) && queue_waiting s = false) as E.
    { destruct Hl as [Hl| ->]; [|apply andb_false_r]. destruct l as [|y l]; [done|].
      destruct (so_chain _ _ _ _ _ _ Hok) as (Ey&?&_). rewrite Ey.
      by rewrite (proj2 (Z.eqb_neq _ _)). }
    rewrite E in Hc. destruct Hc as [-> ->]. erewrite bind_Ret by exact Hrun.
    destruct (IH st1 s1 (x :: l) (ms1 ++ ms2) Hok1) as (st2&s2&Hrun2&Hok2); [done|by left|].
    exists st2, s2. split; [done|]. by rewrite reverse_cons, <-app_assoc.
Qed.

(** ** Properties *)

(** C8: [mem_slab_init] with a word-aligned buffer and block size, on a
    geometry that fits in memory, succeeds: the free list holds every block of
    the buffer once, in address order, nothing is used, and the slab is
    registered. *)
Theorem slab_init_establishes a st s0 buf bs nb q :
  ss_slab st !! a = Some s0 → osMessageQueueNew 1 4 = Some q →
  geometry (MemSlab (wait_q s0) buf (free_list s0) (MemSlabInfo nb bs 0 0)) →
  ∃ st' s', mem_slab_init a buf bs nb st = Ret (0, st') ∧
    slab_ok a st' s' q (blocks s') [] ∧
    blocks s' = (λ i, buf + i * bs) <$> seqZ 0 nb ∧
    memslabs st' = memslabs st ++ [a].
Proof.
  intros Hs Hq Hg. unfold mem_slab_init. erewrite bind_Ret by (by apply run_get_slab). mstep.
  set (s1 := MemSlab _ _ _ _) in *. set (st1 := Slabs _ _ _).
  destruct (create_free_list_spec a st1 s1) as (st2&p&Hrun&Es&Em&Hc);
    [unfold st1; simpl; by rewrite lookup_insert_eq|done|].
  erewrite bind_Ret by exact Hrun. redb. change (0 <? 0) with false. cbv iota.
  erewrite bind_Ret.
  2:{ apply create_wait_q_spec; [|done]. rewrite Es. by rewrite lookup_insert_eq. }
  change (0 <? 0) with false. cbv iota. mstep.
  eexists _, (set_wait_q (set_free_list s1 p) (Some q)). split; [done|].
  split; [|split; [done|by simpl; rewrite Em]].
  eapply fresh_slab_ok; simpl; try done.
  - by rewrite lookup_insert_eq.
  - by destruct Hg.
  - by eapply oq_new_items.
Qed.

(** C9: the slab stays safe under every interleaving: from a state that
    satisfies the invariant, any sequence of allocations, waits, queue
    receptions, releases of held blocks and scheduling leads to a state in
    which the blocks held by clients, on the free list and in the queue are
    the blocks of the slab, each exactly once; in particular no block is held
    twice, and [num_used] counts the blocks off the free list. *)
Theorem slab_interleavings_safe tk a x y :
  slab_inv a x.1 x.2 → rtc (sys_step tk a) x y →
  slab_inv a y.1 y.2 ∧ NoDup y.2.
Proof.
  intros Hi Hrtc. enough (slab_inv a y.1 y.2) by eauto using slab_inv_NoDup.
  induction Hrtc as [|x y z Hxy _ IH]; [done|]. apply IH. by eapply sys_step_inv.
Qed.

(** Neither function can fail an assertion or fault on a slab that
    satisfies the invariant: allocation without waiting returns a block that
    nobody holds, or -ENOMEM exactly when no block is on the free list;
    release of a held block hands it to a waiting task when the free list is
    empty and otherwise makes it the next block to be allocated. *)
Theorem slab_alloc_free_total tk a st s q l held :
  slab_ok a st s q l held →
  (∃ st' r m, mem_slab_alloc tk a 0 st = Ret ((r, Some m), st') ∧
     (l = [] ∧ r = - ENOMEM ∧ m = NULL ∧ st' = st ∨
      ∃ l', l = m :: l' ∧ r = 0 ∧ m ∉ held ∧ slab_inv a st' (m :: held))) ∧
  (∀ m held', held ≡ₚ m :: held' → ∃ st' s' q' l', mem_slab_free a m st = Ret ((), st') ∧
     slab_ok a st' s' q' l' held' ∧
     if (free_list s =? NULL) && queue_waiting s
     then oq_items q' = oq_items q ++ [m] else l' = m :: l).
Proof.
  intros Hok. split.
  - unfold mem_slab_alloc. destruct l as [|x l].
    + erewrite bind_Ret by (by eapply (alloc_empty tk _ _ _ _ _ 0)).
      eexists _, _, _. split; [done|]. by left.
    + destruct (alloc_take tk _ _ _ _ _ _ _ 0 Hok) as (st1&s1&Hrun&Hok1&_).
      erewrite bind_Ret by exact Hrun. eexists _, _, _. split; [done|]. right.
      assert (slab_inv a st1 (x :: held)) as Hi by (by exists s1, q, l).
      exists l. split_and!; try done. by apply slab_inv_NoDup, NoDup_cons in Hi as [? _].
  - intros m held' Hh. destruct (free_block _ _ _ _ _ _ _ _ Hok Hh) as (st1&s1&q1&l1&Hrun&Hok1&Hc).
    exists st1, s1, q1, l1. split; [done|]. split; [done|].
    destruct ((free_list s =? NULL) && queue_waiting s); naive_solver.
Qed.

(** A wake-up can be lost.  A task that finds the slab empty waits on the
    queue only after interrupts were enabled again; a block released in
    between goes to the free list.  When the task has begun to wait (the
    queue becomes [q2], with whatever number of waiting tasks), no further
    release puts a block into the queue as long as nobody allocates: every
    block goes to the free list while the task waits. *)
Theorem slab_lost_wakeup tk a st s q held m ms t :
  slab_ok a st s q [] held → held ≡ₚ m :: ms → t ≠ 0 → queue_waiting s = false →
  ∃ tick st1 s1, alloc_begin tk a t st = Ret (AllocWait tick, st) ∧
    mem_slab_free a m st = Ret ((), st1) ∧ slab_ok a st1 s1 q [m] ms ∧
  ∀ q2 ms1 ms2, oq_items q2 = oq_items q → ms = ms1 ++ ms2 →
    ∃ st3 s3, (put_slab a (set_wait_q s1 (Some q2));; free_all a ms1) st1 = Ret ((), st3) ∧
      slab_ok a st3 s3 q2 (reverse ms1 ++ [m]) ms2.
Proof.
  intros Hok Hh Ht Hw. rewrite (alloc_empty tk _ _ _ _ _ t Hok), (proj2 (Z.eqb_neq _ _) Ht).
  destruct (free_block _ _ _ _ _ _ _ _ Hok Hh) as (st1&s1&q1&l1&Hrun&Hok1&Hc).
  rewrite Hw, andb_false_r in Hc. destruct Hc as [-> ->].
  eexists _, st1, s1. split; [done|]. split; [done|]. split; [done|].
  intros q2 ms1 ms2 Eq ->. mstep.
  destruct (free_all_pushes a q2 ms1 ms2
    (Slabs (<[a := set_wait_q s1 (Some q2)]> (ss_slab st1)) (ss_mem st1) (memslabs st1))
    (set_wait_q s1 (Some q2)) [m] (ms1 ++ ms2)) as (st3&s3&?&?); [|done|by left|by exists st3, s3].
  destruct Hok1. split; simpl; rewrite ?Eq; try done.
  - by rewrite lookup_insert_eq.
  - by destruct so_geo0.
Qed.

End Theorems.

(** ** A concrete queue and slab *)

Module Demo.

(** A queue of capacity one: its messages and the number of waiting tasks.
    [osMessageQueueGet] times out at once on an empty queue. *)
#[export] Instance queue1 : OsQueue := {|
  oq := list Z * Z;
  osMessageQueueNew _ _ := Some ([], 0);
  osMessageQueueGet q _ := match q.1 with
                           | m :: ms => (osOK, m, (ms, q.2))
                           | [] => (osErrorTimeout, 0, q)
                           end;
  osMessageQueuePut q m := match q.1 with
                           | [] => (osOK, ([m], q.2))
                           | _ => (osErrorResource, q)
                           end;
  osMessageQueueDelete _ := osOK;
  osMessageQueueGetCount q := Z.of_nat (length q.1);
  osMessageQueueGetSpace q := if q.1 then 1 else 0;
  osMessageQueueGetNumberOfTasksWaitingToReceive q := q.2;
|}.

#[export] Instance queue1_laws : OsQueueLaws.
Proof.
  refine {| oq_items q := q.1 |}.
  - intros n s q E. simpl in E. by injection E as <-.
  - intros [[|x l] w] m; simpl; [|done]. intros _. by split; [left|].
  - intros [[|x l] w] t st m q'; simpl; intros [= <- <- <-]; [right|left]; simpl; auto.
  - done.
Defined.

Definition q0 : oq := ([] : list Z, 0).
Definition q1 : oq := ([] : list Z, 1).
Definition slab_addr : Z := 0x1000.
Definition empty_slab : mem_slab := MemSlab None 0 NULL (MemSlabInfo 0 0 0 0).
Definition st0 : slabs := Slabs {[ slab_addr := empty_slab ]} ∅ [].

Lemma geo : geometry (MemSlab None 0x2000 NULL (MemSlabInfo 3 32 0 0)).
Proof. split; simpl; try done; lia. Qed.

Lemma slab_init_establishes_witness :
  ∃ st' s', mem_slab_init slab_addr 0x2000 32 3 st0 = Ret (0, st') ∧
    slab_ok slab_addr st' s' q0 [0x2000; 0x2020; 0x2040] [].
Proof.
  destruct (slab_init_establishes slab_addr st0 empty_slab 0x2000 32 3 q0
    eq_refl eq_refl geo) as (st'&s'&?&Hok&E&_).
  exists st', s'. split; [done|]. rewrite E in Hok. exact Hok.
Defined.

Definition idt (t : Z) : Z := t.

(** Three allocations empty the slab. *)
Lemma emptied : ∃ st s, slab_ok slab_addr st s q0 [] [0x2040; 0x2020; 0x2000] ∧
  queue_waiting s = false.
Proof.
  assert (∃ st s, slab_ok slab_addr st s q0 [0x2000; 0x2020; 0x2040] []) as (st&s&H0).
  { destruct (create_free_list_spec slab_addr
      (Slabs {[ slab_addr := MemSlab (Some q0) 0x2000 NULL (MemSlabInfo 3 32 0 0) ]} ∅ [])
      (MemSlab (Some q0) 0x2000 NULL (MemSlabInfo 3 32 0 0))) as (st&p&_&Es&_&Hc);
      [done|split; simpl; try done; lia|].
    exists st, (MemSlab (Some q0) 0x2000 p (MemSlabInfo 3 32 0 0)).
    change [0x2000; 0x2020; 0x2040] with
      (blocks (MemSlab (Some q0) 0x2000 p (MemSlabInfo 3 32 0 0))).
    eapply fresh_slab_ok; try done. rewrite Es. by rewrite lookup_insert_eq. }
  destruct (alloc_take idt _ _ _ _ _ _ _ 0 H0) as (st1&s1&_&H1&_).
  destruct (alloc_take idt _ _ _ _ _ _ _ 0 H1) as (st2&s2&_&H2&_).
  destruct (alloc_take idt _ _ _ _ _ _ _ 0 H2) as (st3&s3&_&H3&_).
  exists st3, s3. split; [done|]. unfold queue_waiting. by rewrite (so_queue _ _ _ _ _ _ H3).
Qed.

Lemma slab_interleavings_safe_witness :
  ∃ x y, rtc (sys_step idt slab_addr) x y ∧ y.2 = [0x2020; 0x2000] ∧ slab_inv slab_addr y.1 y.2.
Proof.
  destruct emptied as (st&s&Hok&_).
  destruct (free_block _ _ _ _ _ _ [0x2020; 0x2000] 0x2040 Hok ltac:(done)) as (st'&_&_&_&Hf&_).
  exists (st, [0x2040; 0x2020; 0x2000]), (st', [0x2020; 0x2000]).
  assert (rtc (sys_step idt slab_addr) (st, [0x2040; 0x2020; 0x2000]) (st', [0x2020; 0x2000])) as Hr.
  { apply rtc_once. by eapply (sys_free _ _ _ _ _ 0x2040). }
  split; [done|]. split; [done|].
  apply (slab_interleavings_safe idt slab_addr (st, [0x2040; 0x2020; 0x2000])
    (st', [0x2020; 0x2000])); [by exists s, q0, []|done].
Defined.

Lemma slab_alloc_free_total_witness :
  ∃ st, mem_slab_alloc idt slab_addr 0 st = Ret ((- ENOMEM, Some NULL), st).
Proof.
  destruct emptied as (st&s&Hok&_).
  destruct (slab_alloc_free_total idt slab_addr st s q0 [] _ Hok)
    as [(st'&r&m&Hrun&[(_&->&->&->)|(l'&E&_)]) _]; [by exists st|done].
Defined.

Lemma slab_lost_wakeup_witness :
  ∃ st st1 s1, alloc_begin idt slab_addr osWaitForever st = Ret (AllocWait osWaitForever, st) ∧
    mem_slab_free slab_addr 0x2040 st = Ret ((), st1) ∧
    ∃ st3 s3, (put_slab slab_addr (set_wait_q s1 (Some q1));; free_all slab_addr [0x2020]) st1
      = Ret ((), st3) ∧ slab_ok slab_addr st3 s3 q1 [0x2020; 0x2040] [0x2000].
Proof.
  destruct emptied as (st&s&Hok&Hw).
  destruct (slab_lost_wakeup idt slab_addr st s q0 _ 0x2040 [0x2020; 0x2000] osWaitForever
    Hok ltac:(done) ltac:(done) Hw) as (tick&st1&s1&Ha&Hf&_&Hq).
  destruct (Hq q1 [0x2020] [0x2000] eq_refl eq_refl) as (st3&s3&?&?).
  exists st, st1, s1. split.
  { rewrite Ha. unfold alloc_begin, mbind, M_bind, get_slab in Ha.
    rewrite (so_slab _ _ _ _ _ _ Hok), (so_chain _ _ _ _ _ _ Hok : free_list s = NULL) in Ha.
    simpl in Ha. unfold mret, M_ret in Ha. congruence. }
  split; [done|]. by exists st3, s3.
Defined.

End Demo.
