(* ===== verification/SdioFifo.v ===== *)
(** * The SDIO receive FIFO: src/lib/sdio/sdio-fifo.c

    A FIFO of packets in a linear buffer.  A packet is never split: both the
    write and the read index go back to zero as soon as fewer than
    [CONFIG_SDIO_FIFO_MIN_LINEAR_SIZE] bytes are left behind them.  The indices
    are 16 bits wide and the wrap-around of the C arithmetic is written out.
    The mutexes around the operations make each of them atomic; they have no
    other effect and are left out. *)

From stdpp Require Import base tactics numbers list.
From S2P Require Import Prelude.

(** The Kconfig value, and where the buffer is. *)
Class FifoConfig := { MIN_LINEAR : Z }.

Record sdio_fifo_t := Fifo {
  buffer : Z;
  depth : Z;
  wr_idx : Z;
  rd_idx : Z;
  len_waste : Z;
}.

(** The part of [sdio_fifo_buffer_info_t] these functions use. *)
Record fifo_info := FifoInfo { ptr_lin : Z; len_wrap : Z; ptr_wrap : Z }.

Definition set_wr (w : Z) (f : sdio_fifo_t) := Fifo (buffer f) (depth f) w (rd_idx f) (len_waste f).
Definition set_rd (r : Z) (f : sdio_fifo_t) := Fifo (buffer f) (depth f) (wr_idx f) r (len_waste f).
Definition set_waste (n : Z) (f : sdio_fifo_t) := Fifo (buffer f) (depth f) (wr_idx f) (rd_idx f) n.

Section Fifo.
Context {CFG : FifoConfig}.

Definition sdio_fifo_config (buf d : Z) : M sdio_fifo_t bool :=
  if d >? 0x8000 then mret false
  else put (Fifo buf d 0 0 0);; mret true.

Definition sdio_fifo_config_nolock (buf d : Z) : M sdio_fifo_t bool :=
  if d >? 0x8000 then mret false
  else put (Fifo buf d 0 0 0);; mret true.

Definition BOUNDARY_INDX (f : sdio_fifo_t) : Z := depth f - MIN_LINEAR.
Definition INDX_TO_ADDR (f : sdio_fifo_t) (idx : Z) : Z := buffer f + idx.

(** The macro [space(s, e, t, h)]. *)
Definition space (s e t h : Z) : Z := if h <? t then u16 (t - h) else u16 ((e - s) - (h - t)).

Definition sdio_fifo_array_get_write_buf : M sdio_fifo_t Z :=
  f ← get;
  let w := s16 (wr_idx f) in
  let r := s16 (rd_idx f) in
  (if (w >=? r) && (depth f - w <? MIN_LINEAR) then modify (set_wr 0) else mret ());;
  f ← get;
  mret (buffer f + wr_idx f).

Definition sdio_fifo_array_get_read_buf : M sdio_fifo_t Z :=
  f ← get;
  let r := rd_idx f in
  if r >? BOUNDARY_INDX f then
    (if len_waste f =? 0 then modify (set_waste (u16 (depth f - r))) else mret ());;
    mret (buffer f)
  else mret (buffer f + r).

Definition sdio_fifo_array_linear_space_available : M sdio_fifo_t bool :=
  f ← get;
  let r := rd_idx f in
  let w := wr_idx f in
  if space 0 (depth f) r w <? MIN_LINEAR then mret false
  else if depth f - w <? MIN_LINEAR then
    if space 0 (depth f) r 0 <? MIN_LINEAR then mret false
    else if depth f - r <? MIN_LINEAR then c_assert false;; mret true
    else mret true
  else mret true.

Definition sdio_fifo_array_space_available (need : Z) : M sdio_fifo_t bool :=
  f ← get;
  mret (negb (space 0 (depth f) (rd_idx f) (wr_idx f) <? need)).

(** Returns the updated [pfinfo->ptr_lin]. *)
Definition sdio_fifo_array_linearize (ptr : Z) : M sdio_fifo_t Z :=
  f ← get;
  if ptr >? INDX_TO_ADDR f (BOUNDARY_INDX f) then
    if negb (len_waste f =? 0) then
      c_assert (u32 (ptr + len_waste f) >=? u32 (buffer f + depth f));;
      mret (ptr + len_waste f - depth f)
    else
      modify (set_waste (u16 (buffer f + depth f - ptr)));;
      mret (buffer f)
  else mret ptr.

Definition sdio_fifo_array_get_read_linear_info : M sdio_fifo_t fifo_info :=
  f ← get;
  let r := rd_idx f in
  p ← (if r >? BOUNDARY_INDX f then
         (if len_waste f =? 0 then modify (set_waste (u16 (depth f - r))) else mret ());;
         mret (buffer f)
       else mret (buffer f + r));
  mret (FifoInfo p 0 NULL).

Definition sdio_fifo_array_advance_write_pointer (n : Z) : M sdio_fifo_t unit :=
  f ← get;
  let w := wr_idx f in
  let r := rd_idx f in
  modify (set_wr (u16 (w + n)));;
  f ← get;
  (if wr_idx f >? depth f - MIN_LINEAR then modify (set_wr 0) else mret ());;
  if w >=? r then c_assert (w <? depth f) else c_assert (r - w >=? MIN_LINEAR).

Definition sdio_fifo_array_advance_read (n : Z) : M sdio_fifo_t unit :=
  f ← get;
  let r := u16 (rd_idx f + n) in
  let w := wr_idx f in
  r ← (if r >? BOUNDARY_INDX f then
         (if len_waste f >? 0 then c_assert (r + len_waste f >=? depth f)
          else c_assert (r <? depth f));;
         if r >=? w then
           r' ← (if negb (len_waste f =? 0)
                 then modify (set_waste 0);; mret (u16 (r + len_waste f - depth f))
                 else mret 0);
           (if w >? BOUNDARY_INDX f then modify (set_wr 0) else mret ());;
           mret r'
         else mret r
       else mret r);
  modify (set_rd r).

Definition sdio_fifo_array_get_read_idx : M sdio_fifo_t Z := f ← get; mret (rd_idx f).

Definition sdio_fifo_array_reset : M sdio_fifo_t unit :=
  modify (λ f, Fifo (buffer f) (depth f) 0 0 0).

(** ** Clients: src/lib/sdio/sdioif.c and src/lib/scdc/scdc.c

    The receive path around the FIFO.  [rx_receive]: [sdio_req_getbuf] gives
    the host a place for a packet and [sdio_req_filled] takes note of its
    length.  [rx_locate]: [scdc_vendor_rx_cb] finds the packet, at the read
    pointer when no earlier packet is outstanding and behind the last one
    otherwise ([scdc_update_buf_ptr_info]; SDIO never reports a wrapped part).
    [rx_release i]: [purge_outp] frees the [i]-th outstanding packet; the
    oldest one lets [sdio_vendor_advance_rptr] advance the read index, any
    other one is coalesced with the outstanding packet in front of it. *)

Record rxsys := RxSys {
  rs_fifo : sdio_fifo_t;
  rs_located : list (Z * Z);    (* outstanding packets: pointer and length *)
  rs_pending : list Z;          (* lengths of packets received, not yet located *)
}.

Inductive rx_op := RxReceive (n : Z) | RxLocate | RxRelease (i : nat).

Definition on_fifo {A} (c : M sdio_fifo_t A) : M rxsys A := λ s,
  match c (rs_fifo s) with
  | Ret (a, f) => Ret (a, RxSys f (rs_located s) (rs_pending s))
  | AssertFailed => AssertFailed
  | Fault => Fault
  | OutOfFuel => OutOfFuel
  end.

(** [sdio_req_getbuf], the transfer of the packet and [sdio_req_filled] in one
    step: only the receiver moves the write index. *)
Definition rx_receive (n : Z) : M rxsys Z :=
  p ← on_fifo sdio_fifo_array_get_write_buf;
  on_fifo (sdio_fifo_array_advance_write_pointer n);;
  modify (λ s, RxSys (rs_fifo s) (rs_located s) (rs_pending s ++ [n]));;
  mret p.

Definition scdc_update_buf_ptr_info (prev : Z * Z) : M rxsys Z :=
  on_fifo (sdio_fifo_array_linearize (prev.1 + prev.2)).

Definition rx_locate : M rxsys Z :=
  s ← get;
  match rs_pending s with
  | [] => fault
  | n :: pending =>
      i ← on_fifo sdio_fifo_array_get_read_linear_info;
      p ← match last (rs_located s) with
          | None => mret (ptr_lin i)
          | Some prev => scdc_update_buf_ptr_info prev
          end;
      modify (λ s, RxSys (rs_fifo s) (rs_located s ++ [(p, n)]) pending);;
      mret p
  end.

Definition purge_outp (i : nat) : M rxsys Z :=
  s ← get;
  match rs_located s !! i with
  | None => fault
  | Some (p, n) =>
      match i with
      | O => on_fifo (sdio_fifo_array_advance_read n);;
             modify (λ s, RxSys (rs_fifo s) (tail (rs_located s)) (rs_pending s));;
             mret p
      | S j => modify (λ s, RxSys (rs_fifo s)
                 (alter (λ o, (o.1, u16 (o.2 + n))) j (delete i (rs_located s)))
                 (rs_pending s));;
               mret p
      end
  end.

Definition rx_run (o : rx_op) : M rxsys Z :=
  match o with
  | RxReceive n => rx_receive n
  | RxLocate => rx_locate
  | RxRelease i => purge_outp i
  end.

Fixpoint rx_runs (os : list rx_op) : M rxsys (list Z) :=
  match os with
  | [] => mret []
  | o :: os => p ← rx_run o; ps ← rx_runs os; mret (p :: ps)
  end.

End Fifo.
