(* ===== verification/SdioFifoTheorems.v ===== *)
(** * The SDIO receive FIFO: theorems

    Packets are found where they were received.  The specification is a queue
    of packets with their places; the implementation only keeps two indices,
    the length of the gap left at the end of the buffer, and the pointers and
    lengths of the outstanding entries, which are merged when packets are
    released out of order. *)

From stdpp Require Import base tactics numbers list.
From S2P Require Import Prelude SdioFifo.

Section Theorems.
Context {CFG : FifoConfig}.

(** ** Packet lengths *)

Fixpoint sum (l : list Z) : Z := match l with [] => 0 | n :: l => n + sum l end.
Abbreviation lens_ok := (Forall (λ n, 0 < n < MIN_LINEAR)).

Lemma sum_app l1 l2 : sum (l1 ++ l2) = sum l1 + sum l2.
Proof. induction l1; simpl; lia. Qed.

Lemma sum_nonneg l : lens_ok l → 0 ≤ sum l.
Proof. induction 1; simpl; lia. Qed.

Lemma sum_pos l : lens_ok l → l ≠ [] → 0 < sum l.
Proof. intros H ?. destruct H as [|x l Hx H]; [done|]. apply sum_nonneg in H. simpl. lia. Qed.

(** Two ways to cut a list, compared by what lies in front of the cut. *)
Lemma cut_before (a b c d : list Z) :
  a ++ b = c ++ d → lens_ok (a ++ b) → sum a < sum c → ∃ k, c = a ++ k ∧ b = k ++ d ∧ k ≠ [].
Proof.
  intros E Hl Hs. destruct (app_eq_inv _ _ _ _ E) as [(k&->&->)|(k&->&->)].
  - apply Forall_app in Hl as [[_ Hk%sum_nonneg]%Forall_app _]. rewrite sum_app in Hs. lia.
  - exists k. split_and!; [done..|]. intros ->. rewrite app_nil_r in Hs. lia.
Qed.

Lemma cut_after (a b c d : list Z) :
  a ++ b = c ++ d → lens_ok (a ++ b) → sum c ≤ sum a → ∃ k, a = c ++ k ∧ d = k ++ b.
Proof.
  intros E Hl Hs. destruct (app_eq_inv _ _ _ _ E) as [(k&->&->)|(k&->&->)]; [eauto|].
  rewrite E in Hl. apply Forall_app in Hl as [[_ Hk]%Forall_app _].
  rewrite sum_app in Hs. destruct k as [|x k]; [exists []; by rewrite !app_nil_r|].
  apply sum_pos in Hk; [lia|done].
Qed.

Lemma proper_prefix a b q n : q ++ [n] = a ++ b → b ≠ [] → lens_ok q → sum a ≤ sum q.
Proof.
  intros E Hb Hl. destruct (app_eq_inv _ _ _ _ E) as [(k&->&_)|(k&->&Ek)].
  - rewrite sum_app. apply Forall_app in Hl as [_ Hk%sum_nonneg]. lia.
  - destruct k as [|x k]; [by rewrite app_nil_r|]. injection Ek as _ Ek.
    symmetry in Ek. by apply app_eq_nil in Ek as [_ ->].
Qed.

(** ** Places

    Offsets are counted along the packets without wrapping; [phi] folds the
    offsets behind the wrap-around at [W] back to the start of the buffer. *)

Definition phi (wo : option Z) (u : Z) : Z :=
  match wo with Some W => if u <? W then u else u - W | None => u end.

Fixpoint pack (b : Z) (wo : option Z) (u : Z) (q : list Z) : list (Z * Z) :=
  match q with
  | [] => []
  | n :: q => (b + phi wo u, n) :: pack b wo (u + n) q
  end.

Lemma pack_app b wo u q1 q2 :
  pack b wo u (q1 ++ q2) = pack b wo u q1 ++ pack b wo (u + sum q1) q2.
Proof.
  revert u. induction q1 as [|n q1 IH]; intros u; simpl; [by rewrite Z.add_0_r|].
  rewrite IH. do 2 f_equal. f_equal. lia.
Qed.

Lemma pack_snd b wo u q : (pack b wo u q).*2 = q.
Proof. revert u. induction q as [|n q IH]; intros u; csimpl; [done|]. by rewrite IH. Qed.

Lemma pack_elem b wo u q x m :
  (x, m) ∈ pack b wo u q → lens_ok q →
  ∃ v, x = b + phi wo v ∧ u ≤ v ∧ v + m ≤ u + sum q ∧ 0 < m.
Proof.
  intros Hin Hl. revert u Hin. induction Hl as [|n q Hn Hl IH]; intros u Hin; simpl in *.
  { by apply elem_of_nil in Hin. }
  pose proof (sum_nonneg _ Hl).
  apply elem_of_cons in Hin as [E|Hin]; [simplify_eq; exists u; split_and!; [done|lia..]|].
  destruct (IH _ Hin) as (v&->&?&?&?). exists v. split_and!; [done|lia..].
Qed.

Lemma pack_ext b wo wo' u u' q :
  lens_ok q → (∀ x, 0 ≤ x < sum q → phi wo (u + x) = phi wo' (u' + x)) →
  pack b wo u q = pack b wo' u' q.
Proof.
  intros Hl. revert u u'. induction Hl as [|n q Hn Hl IH]; intros u u' Hx; simpl in *; [done|].
  pose proof (sum_nonneg _ Hl). f_equal.
  - specialize (Hx 0 ltac:(lia)). rewrite !Z.add_0_r in Hx. by rewrite Hx.
  - apply IH. intros x Hx'. specialize (Hx (n + x) ltac:(lia)). by rewrite !Z.add_assoc in Hx.
Qed.

(** ** Geometry of the FIFO

    [q] are the lengths of the packets in flight, oldest first, [k] the total
    length of those already located, [wo] where the packets wrap, if they do. *)

Definition wrap_ok (f : sdio_fifo_t) (wo : option Z) (q : list Z) (k : Z) : Prop :=
  match wo with
  | None => wr_idx f = rd_idx f + sum q ∧ wr_idx f ≤ BOUNDARY_INDX f ∧ len_waste f = 0
  | Some W => ∃ q1 q2, q = q1 ++ q2 ∧ q1 ≠ [] ∧ W = rd_idx f + sum q1 ∧
      BOUNDARY_INDX f < W < depth f ∧
      (∀ a b, q1 = a ++ b → b ≠ [] → rd_idx f + sum a ≤ BOUNDARY_INDX f) ∧
      wr_idx f = sum q2 ∧ wr_idx f ≤ rd_idx f ∧
      len_waste f = (if rd_idx f + k <=? W then 0 else depth f - W)
  end.

Record geo (f : sdio_fifo_t) (wo : option Z) (q : list Z) (k : Z) : Prop := {
  g_min : 0 < MIN_LINEAR ≤ depth f;
  g_depth : depth f ≤ 0x8000;
  g_buf : 0 < buffer f ∧ buffer f + 2 * depth f < 2 ^ 32;
  g_lens : lens_ok q;
  g_rd : 0 ≤ rd_idx f ≤ BOUNDARY_INDX f;
  g_wrap : wrap_ok f wo q k;
}.

Lemma geo_boundary f wo q k a b :
  geo f wo q k → q = a ++ b →
  match wo with Some W => rd_idx f + sum a < W | None => True end →
  rd_idx f + sum a ≤ BOUNDARY_INDX f.
Proof.
  intros [_ _ _ Hl _ Hw] -> Hlt. destruct wo as [W|].
  - destruct Hw as (q1&q2&E&_&->&_&Hb&_).
    destruct (cut_before _ _ _ _ E Hl ltac:(lia)) as (c&->&_&Hc). by apply (Hb a c).
  - destruct Hw as (E&?&_). apply Forall_app in Hl as [_ ?%sum_nonneg]. rewrite sum_app in E. lia.
Qed.

Lemma geo_wr f wo q k : geo f wo q k → 0 ≤ wr_idx f ≤ BOUNDARY_INDX f.
Proof.
  intros [_ _ _ Hl Hrd Hw]. destruct wo as [W|].
  - destruct Hw as (q1&q2&->&_&_&_&_&E&?&_). apply Forall_app in Hl as [_ ?%sum_nonneg]. lia.
  - destruct Hw as (E&?&_). apply sum_nonneg in Hl. lia.
Qed.

Lemma geo_phi_rd f wo q k : geo f wo q k → phi wo (rd_idx f) = rd_idx f.
Proof.
  intros [_ _ _ Hl _ Hw]. destruct wo as [W|]; [|done]. simpl.
  destruct Hw as (q1&q2&->&Hne&->&_). apply Forall_app in Hl as [H1 _]. pose proof (sum_pos _ H1 Hne).
  by rewrite (proj2 (Z.ltb_lt _ _)) by lia.
Qed.

Lemma geo_phi_wr f wo q k : geo f wo q k → phi wo (rd_idx f + sum q) = wr_idx f.
Proof.
  intros [_ _ _ Hl _ Hw]. destruct wo as [W|]; simpl; [|by destruct Hw as (->&_)].
  destruct Hw as (q1&q2&->&_&->&_&_&->&_). apply Forall_app in Hl as [_ H2%sum_nonneg].
  rewrite sum_app, (proj2 (Z.ltb_ge _ _)) by lia. lia.
Qed.

(** ** The operations on that geometry *)

(** Room for one more packet, as the FIFO's own test sees it; the indices
    alone cannot tell a full FIFO from an empty one. *)
Definition has_room (f : sdio_fifo_t) (q : list Z) : Prop :=
  sdio_fifo_array_linear_space_available f = Ret (true, f) ∧ (q = [] ∨ rd_idx f ≠ wr_idx f).

Lemma room_wrapped f W q k :
  geo f (Some W) q k → has_room f q → MIN_LINEAR ≤ rd_idx f - wr_idx f.
Proof.
  intros Hg [Hs Hr]. pose proof (geo_wr _ _ _ _ Hg). pose proof Hg as [? ? _ _ Hrd Hw].
  destruct Hw as (q1&q2&->&Hne&_&_&_&_&?&_). unfold BOUNDARY_INDX in *.
  assert (rd_idx f ≠ wr_idx f) by (destruct Hr as [[? _]%app_eq_nil|?]; done).
  unfold sdio_fifo_array_linear_space_available, space in Hs.
  erewrite bind_Ret in Hs by reflexivity.
  rewrite (proj2 (Z.ltb_lt (wr_idx f) (rd_idx f))), u16_id in Hs by lia.
  destruct (Z.ltb_spec (rd_idx f - wr_idx f) MIN_LINEAR); [done|lia].
Qed.

Lemma get_write_buf_spec f wo q k :
  geo f wo q k → sdio_fifo_array_get_write_buf f = Ret (buffer f + wr_idx f, f).
Proof.
  intros Hg. pose proof (geo_wr _ _ _ _ Hg). pose proof Hg as [? ? _ _ ? _].
  unfold sdio_fifo_array_get_write_buf, BOUNDARY_INDX in *. mstep.
  rewrite (s16_id (wr_idx f)) by lia. rewrite (proj2 (Z.ltb_ge _ _)) by lia.
  by rewrite andb_false_r.
Qed.

Lemma advance_write_spec f wo q k n :
  geo f wo q k → has_room f q → 0 < n < MIN_LINEAR → 0 ≤ k ≤ sum q →
  ∃ f' wo', sdio_fifo_array_advance_write_pointer n f = Ret ((), f') ∧
    geo f' wo' (q ++ [n]) k ∧ buffer f' = buffer f ∧ depth f' = depth f ∧ rd_idx f' = rd_idx f ∧
    pack (buffer f) wo' (rd_idx f) q = pack (buffer f) wo (rd_idx f) q ∧
    phi wo' (rd_idx f + sum q) = wr_idx f.
Proof.
  intros Hg Hr Hn Hk. pose proof (geo_wr _ _ _ _ Hg). pose proof (geo_phi_wr _ _ _ _ Hg) as Hphi.
  pose proof Hg as [? ? ? Hl ? Hw].
  assert (lens_ok (q ++ [n])) by (apply Forall_app; repeat constructor; [done|lia..]).
  unfold sdio_fifo_array_advance_write_pointer. mstep. mstep. mstep.
  unfold wrap_ok, BOUNDARY_INDX in *. simpl wr_idx. simpl depth. rewrite u16_id by lia.
  destruct wo as [W|].
  - pose proof (room_wrapped _ _ _ _ Hg Hr). destruct Hw as (q1&q2&->&?&?&?&Hb&?&?&?).
    rewrite (proj2 (gtb_false _ _)) by lia. mstep.
    rewrite (proj2 (geb_false _ _)), (proj2 (Z.geb_le _ _)) by lia.
    exists (set_wr (wr_idx f + n) f), (Some W). split_and!; try done.
    split; simpl; try done. exists q1, (q2 ++ [n]). unfold BOUNDARY_INDX. simpl.
    rewrite app_assoc. split_and!; try done; try lia. rewrite sum_app. simpl. lia.
  - destruct Hw as (Ew&?&Hwaste). pose proof (sum_nonneg _ Hl).
    rewrite (proj2 (Z.geb_le (wr_idx f) (rd_idx f))), (proj2 (Z.ltb_lt (wr_idx f) _)) by lia.
    destruct (Z.gtb_spec (wr_idx f + n) (depth f - MIN_LINEAR)); mstep.
    + exists (set_wr 0 (set_wr (wr_idx f + n) f)), (Some (wr_idx f + n)).
      split_and!; try done.
      * split; simpl; try done. exists (q ++ [n]), []. unfold BOUNDARY_INDX. simpl.
        rewrite app_nil_r, sum_app. simpl. split_and!; try done; try lia.
        -- by destruct q.
        -- intros a b E Hne. enough (sum a ≤ sum q) by lia. by apply (proper_prefix a b q n).
        -- rewrite (proj2 (Z.leb_le _ _)) by lia. done.
      * apply pack_ext; [done|]. intros x Hx. simpl. by rewrite (proj2 (Z.ltb_lt _ _)) by lia.
      * simpl. rewrite (proj2 (Z.ltb_lt _ _)); lia.
    + exists (set_wr (wr_idx f + n) f), None. split_and!; try done.
      split; simpl; try done. unfold BOUNDARY_INDX. simpl. rewrite sum_app. simpl.
      split_and!; try done; lia.
Qed.

Lemma read_linear_info_spec f wo q k :
  geo f wo q k →
  sdio_fifo_array_get_read_linear_info f = Ret (FifoInfo (buffer f + rd_idx f) 0 NULL, f).
Proof.
  intros [_ _ _ _ ? _]. unfold sdio_fifo_array_get_read_linear_info. mstep.
  by rewrite (proj2 (gtb_false _ _)) by lia.
Qed.

(** Locating the next packet keeps the geometry as it is, unless the packet is
    the first one behind the wrap-around. *)
Lemma geo_locate f wo a n b :
  geo f wo (a ++ n :: b) (sum a) → wo ≠ Some (rd_idx f + sum a) →
  geo f wo (a ++ n :: b) (sum a + n).
Proof.
  intros [? ? ? Hl ? Hw] Hne. split; try done. destruct wo as [W|]; [|done].
  destruct Hw as (q1&q2&E&?&HW&?&?&?&?&Hwaste). exists q1, q2. split_and!; try done; try lia.
  rewrite Hwaste. assert (rd_idx f + sum a ≠ W) by congruence. pose proof Hl as Hl'.
  apply Forall_app in Hl' as [_ [Hn _]%Forall_cons].
  destruct (Z.leb_spec (rd_idx f + sum a) W); [|by rewrite (proj2 (Z.leb_gt _ _)) by lia].
  destruct (cut_before _ _ _ _ E Hl ltac:(lia)) as (c&Ec&Eb&Hc).
  destruct c as [|n' c]; [done|]. injection Eb as <- ->.
  rewrite (proj2 (Z.leb_le _ _)); [done|]. subst q1.
  rewrite E, !Forall_app, Forall_cons in Hl. destruct Hl as ((_&_&Hc'%sum_nonneg)&_).
  rewrite HW, sum_app. simpl. lia.
Qed.

Lemma linearize_spec f wo a0 g n b :
  geo f wo ((a0 ++ g) ++ n :: b) (sum (a0 ++ g)) → g ≠ [] →
  ∃ f', sdio_fifo_array_linearize (buffer f + phi wo (rd_idx f + sum a0) + sum g) f
      = Ret (buffer f + phi wo (rd_idx f + sum (a0 ++ g)), f') ∧
    geo f' wo ((a0 ++ g) ++ n :: b) (sum (a0 ++ g) + n) ∧
    buffer f' = buffer f ∧ depth f' = depth f ∧ rd_idx f' = rd_idx f.
Proof.
  intros Hg Hne. pose proof (geo_boundary _ _ _ _ _ _ Hg eq_refl) as Hbd.
  pose proof Hg as [? ? ? Hl ? Hw].
  pose proof Hl as [[Ha0 Hlg]%Forall_app [Hn Hb]%Forall_cons]%Forall_app.
  pose proof (sum_pos _ Hlg Hne). pose proof (sum_nonneg _ Ha0). pose proof (sum_nonneg _ Hb).
  unfold sdio_fifo_array_linearize, INDX_TO_ADDR. mstep.
  destruct (decide (wo = Some (rd_idx f + sum (a0 ++ g)))) as [->|Hwo].
  - (* the first packet behind the wrap-around *)
    destruct Hw as (q1&q2&E&?&HW&?&Hbb&?&?&Hwaste). rewrite sum_app in *. simpl.
    rewrite Z.leb_refl in Hwaste. rewrite Hwaste, Z.eqb_refl. redb.
    rewrite (proj2 (Z.ltb_lt (rd_idx f + sum a0) _)), Z.ltb_irrefl by lia.
    rewrite (proj2 (Z.gtb_lt _ _)) by lia. unfold BOUNDARY_INDX in *.
    rewrite u16_id by lia. mstep.
    eexists; split; [by rewrite Z.sub_diag, Z.add_0_r|]. split_and!; try done. split; try done.
    exists q1, q2. unfold BOUNDARY_INDX. simpl. split_and!; try done; try lia.
    rewrite (proj2 (Z.leb_gt _ _)); lia.
  - exists f. split; [|split; [by apply geo_locate|done]].
    destruct wo as [W|].
    + destruct Hw as (q1&q2&E&?&HW&?&?&?&?&Hwaste). rewrite sum_app in *. simpl in *.
      destruct (Z.ltb_spec (rd_idx f + (sum a0 + sum g)) W) as [Hlt|Hge].
      * specialize (Hbd Hlt). rewrite (proj2 (Z.ltb_lt (rd_idx f + sum a0) W)) by lia.
        rewrite (proj2 (gtb_false _ _)) by lia. unfold mret, M_ret. do 2 f_equal. lia.
      * assert (rd_idx f + (sum a0 + sum g) ≠ W) by congruence.
        assert (sum g + sum a0 ≤ sum q1 + sum q2).
        { apply (f_equal sum) in E. rewrite !sum_app in E. simpl in E. lia. }
        rewrite (proj2 (Z.leb_gt _ _)) in Hwaste by lia.
        unfold BOUNDARY_INDX in *. destruct (Z.ltb_spec (rd_idx f + sum a0) W).
        -- rewrite (proj2 (Z.gtb_lt _ _)), (proj2 (Z.eqb_neq _ _)) by lia. redb.
           rewrite !u32_id, (proj2 (Z.geb_le _ _)) by lia. mstep. unfold mret, M_ret. do 2 f_equal. lia.
        -- rewrite (proj2 (gtb_false _ _)) by lia. unfold mret, M_ret. do 2 f_equal. lia.
    + specialize (Hbd I). rewrite sum_app in *. simpl in *.
      rewrite (proj2 (gtb_false _ _)) by lia. unfold mret, M_ret. do 2 f_equal. lia.
Qed.

(** Reclaiming the oldest packets. *)
Lemma advance_read_spec f wo g a b :
  geo f wo (g ++ a ++ b) (sum (g ++ a)) →
  ∃ f' wo', sdio_fifo_array_advance_read (sum g) f = Ret ((), f') ∧
    geo f' wo' (a ++ b) (sum a) ∧ buffer f' = buffer f ∧ depth f' = depth f ∧
    pack (buffer f) wo' (rd_idx f') (a ++ b) = pack (buffer f) wo (rd_idx f + sum g) (a ++ b).
Proof.
  intros Hg. pose proof (geo_boundary _ _ _ _ _ _ Hg eq_refl) as Hbd.
  pose proof (geo_wr _ _ _ _ Hg). pose proof Hg as [? ? ? Hl ? Hw].
  pose proof Hl as [Hlg [Hla Hlb]%Forall_app]%Forall_app.
  pose proof (sum_nonneg _ Hlg). pose proof (sum_nonneg _ Hla). pose proof (sum_nonneg _ Hlb).
  assert (lens_ok (a ++ b)) as Hlab by (by apply Forall_app).
  unfold sdio_fifo_array_advance_read. mstep. destruct wo as [W|].
  - destruct Hw as (q1&q2&E&?&HW&?&Hbb&?&?&Hwaste).
    assert (sum g + sum a + sum b = sum q1 + sum q2).
    { apply (f_equal sum) in E. rewrite !sum_app in E. lia. }
    rewrite sum_app in Hwaste. unfold BOUNDARY_INDX in *. rewrite u16_id by lia. cbv zeta.
    destruct (Z.lt_ge_cases (rd_idx f + sum g) W) as [Hlt|Hge].
    + (* still in front of the wrap-around *)
      specialize (Hbd Hlt). rewrite (proj2 (gtb_false _ _)) by lia. mstep.
      eexists _, (Some W). split; [done|]. split_and!; try done. split; simpl; try done; [unfold BOUNDARY_INDX; simpl; lia|].
      destruct (cut_before _ _ _ _ E Hl ltac:(lia)) as (c&->&Ec&Hc).
      exists c, q2. unfold BOUNDARY_INDX. simpl. rewrite sum_app in *. split_and!; try done; try lia.
      { intros x y -> Hy. specialize (Hbb (g ++ x) y). rewrite sum_app in Hbb.
        rewrite <-app_assoc in Hbb. specialize (Hbb eq_refl Hy). lia. }
      { by rewrite Hwaste, Z.add_assoc. }
    + destruct (cut_after _ _ _ _ E Hl ltac:(lia)) as (c&->&->). rewrite !sum_app in *.
      rewrite (proj2 (Z.gtb_lt _ _)) by lia.
      assert (∀ f' : sdio_fifo_t, buffer f' = buffer f → depth f' = depth f →
        wr_idx f' = wr_idx f → rd_idx f' = rd_idx f + (sum q1 + sum c) - W → len_waste f' = 0 →
        geo f' None (a ++ b) (sum a) ∧ buffer f' = buffer f ∧ depth f' = depth f ∧
        pack (buffer f) None (rd_idx f') (a ++ b) =
        pack (buffer f) (Some W) (rd_idx f + (sum q1 + sum c)) (a ++ b)) as Hend.
      { intros f' E1 E2 E3 E4 E5. unfold BOUNDARY_INDX in *. split_and!; [|done|done|].
        - split; unfold wrap_ok, BOUNDARY_INDX; rewrite ?E1, ?E2, ?E3, ?E4, ?E5, ?sum_app; try done; try lia.
        - rewrite E4. apply pack_ext; [done|]. intros x Hx. simpl.
          rewrite (proj2 (Z.ltb_ge _ _)) by lia. lia. }
      destruct (Z.leb_spec (rd_idx f + (sum q1 + sum c + sum a)) W) as [Hle|Hgt]; rewrite Hwaste.
      * change (0 >? 0) with false. change (negb (0 =? 0)) with false. cbv iota.
        rewrite (proj2 (Z.ltb_lt _ _)), (proj2 (Z.geb_le _ _)) by lia.
        rewrite (proj2 (gtb_false (wr_idx f) _)) by lia. mstep.
        eexists _, None. split; [done|]. apply Hend; simpl; try done. lia.
      * rewrite (proj2 (Z.gtb_lt (depth f - W) 0)), (proj2 (Z.eqb_neq (depth f - W) 0)) by lia.
        rewrite (proj2 (Z.geb_le _ (depth f))), (proj2 (Z.geb_le _ (wr_idx f))) by lia. redb.
        rewrite (proj2 (gtb_false (wr_idx f) _)) by lia. mstep.
        eexists _, None. split; [done|]. apply Hend; simpl; try done. rewrite u16_id; lia.
  - specialize (Hbd I). destruct Hw as (Ew&?&Hwaste). unfold BOUNDARY_INDX in *.
    rewrite u16_id by lia. cbv zeta. rewrite (proj2 (gtb_false _ _)) by lia. mstep.
    eexists _, None. split; [done|]. split_and!; try done.
    rewrite !sum_app in Ew. split; simpl; unfold BOUNDARY_INDX; simpl; try done; [lia|].
    rewrite sum_app. split_and!; try done; lia.
Qed.

(** ** The specification: packets in flight, with their places

    A group is what one outstanding entry covers: a packet and the younger
    ones that were released before it. *)

Record rxspec := RxSpec {
  sp_groups : list (list (Z * Z));   (* located packets, in groups *)
  sp_pending : list (Z * Z);         (* received, not yet located *)
}.

Definition in_flight (a : rxspec) : list (Z * Z) := concat (sp_groups a) ++ sp_pending a.

Definition clear_of (p n : Z) (x : Z * Z) : Prop := p + n ≤ x.1 ∨ x.1 + x.2 ≤ p.

Inductive spec_step (lo hi : Z) : rxspec → rx_op → Z → rxspec → Prop :=
| spec_receive a n p :
    lo ≤ p → p + n ≤ hi → Forall (clear_of p n) (in_flight a) →
    spec_step lo hi a (RxReceive n) p (RxSpec (sp_groups a) (sp_pending a ++ [(p, n)]))
| spec_locate gs p n pending :
    spec_step lo hi (RxSpec gs ((p, n) :: pending)) RxLocate p (RxSpec (gs ++ [[(p, n)]]) pending)
| spec_release_oldest p n g gs pending :
    spec_step lo hi (RxSpec (((p, n) :: g) :: gs) pending) (RxRelease 0) p (RxSpec gs pending)
| spec_release gs1 g p n g' gs2 pending :
    spec_step lo hi (RxSpec (gs1 ++ g :: ((p, n) :: g') :: gs2) pending)
      (RxRelease (S (length gs1))) p (RxSpec (gs1 ++ (g ++ (p, n) :: g') :: gs2) pending).

Inductive spec_steps (lo hi : Z) : rxspec → list rx_op → list Z → rxspec → Prop :=
| spec_nil a : spec_steps lo hi a [] [] a
| spec_cons a o p a' os ps a'' :
    spec_step lo hi a o p a' → spec_steps lo hi a' os ps a'' →
    spec_steps lo hi a (o :: os) (p :: ps) a''.

(** The entry that stands for a group. *)
Definition entry (g : list (Z * Z)) : Z * Z := (default 0 (fst <$> head g), sum g.*2).

Record rx_rel (s : rxsys) (a : rxspec) (wo : option Z) : Prop := {
  rr_geo : geo (rs_fifo s) wo (in_flight a).*2 (sum (concat (sp_groups a)).*2);
  rr_places : in_flight a = pack (buffer (rs_fifo s)) wo (rd_idx (rs_fifo s)) (in_flight a).*2;
  rr_located : rs_located s = entry <$> sp_groups a;
  rr_pending : rs_pending s = (sp_pending a).*2;
  rr_groups : Forall (λ g, g ≠ []) (sp_groups a);
}.

(** What the environment may do: receive when there is room, locate what was
    received, release what was located. *)
Definition legal (s : rxsys) (o : rx_op) : Prop :=
  match o with
  | RxReceive n => 0 < n < MIN_LINEAR ∧
      sdio_fifo_array_linear_space_available (rs_fifo s) = Ret (true, rs_fifo s) ∧
      (rs_located s = [] ∧ rs_pending s = [] ∨ rd_idx (rs_fifo s) ≠ wr_idx (rs_fifo s))
  | RxLocate => rs_pending s ≠ []
  | RxRelease i => (i < length (rs_located s))%nat
  end.

Lemma run_on_fifo {A} (c : M sdio_fifo_t A) s x f' :
  c (rs_fifo s) = Ret (x, f') → on_fifo c s = Ret (x, RxSys f' (rs_located s) (rs_pending s)).
Proof. intros E. unfold on_fifo. by rewrite E. Qed.

(** Packets that follow each other: the place of what comes behind [xs]. *)
Lemma place_behind b wo u xs p n ys :
  xs ++ (p, n) :: ys = pack b wo u (xs ++ (p, n) :: ys).*2 →
  xs = pack b wo u xs.*2 ∧ p = b + phi wo (u + sum xs.*2) ∧
  ys = pack b wo (u + sum xs.*2 + n) ys.*2.
Proof.
  rewrite fmap_app, pack_app. intros E. apply app_inj_1 in E as [E1 E2].
  2:{ by rewrite <-(length_fmap snd (pack _ _ _ _)), pack_snd, length_fmap. }
  csimpl in E2. by simplify_eq.
Qed.

(** *** Receiving *)

Lemma new_place_clear f wo q k n :
  geo f wo q k → has_room f q → 0 < n < MIN_LINEAR →
  Forall (clear_of (buffer f + wr_idx f) n) (pack (buffer f) wo (rd_idx f) q).
Proof.
  intros Hg Hr Hn. pose proof Hg as [? ? ? Hl ? Hw]. apply Forall_forall. intros [x m] Hx.
  unfold clear_of. simpl. destruct wo as [W|].
  - pose proof (room_wrapped _ _ _ _ Hg Hr). destruct Hw as (q1&q2&->&_&HW&_&_&Ewr&_).
    rewrite pack_app in Hx. apply Forall_app in Hl as [Hl1 Hl2].
    apply elem_of_app in Hx as [Hx|Hx].
    + destruct (pack_elem _ _ _ _ _ _ Hx Hl1) as (v&->&?&?&?). simpl.
      rewrite (proj2 (Z.ltb_lt _ _)) by lia. lia.
    + destruct (pack_elem _ _ _ _ _ _ Hx Hl2) as (v&->&?&?&?). simpl.
      rewrite (proj2 (Z.ltb_ge _ _)) by lia. lia.
  - destruct Hw as (Ew&_). destruct (pack_elem _ _ _ _ _ _ Hx Hl) as (v&->&?&?&?). simpl. lia.
Qed.

Lemma receive_sim s a wo n :
  rx_rel s a wo → legal s (RxReceive n) →
  ∃ p s' a' wo', rx_receive n s = Ret (p, s') ∧
    spec_step (buffer (rs_fifo s)) (buffer (rs_fifo s) + depth (rs_fifo s)) a (RxReceive n) p a' ∧
    rx_rel s' a' wo' ∧ buffer (rs_fifo s') = buffer (rs_fifo s) ∧ depth (rs_fifo s') = depth (rs_fifo s).
Proof.
  intros [Hg Hpl Hloc Hpd Hgr] (Hn&Hsp&Hemp). set (f := rs_fifo s) in *.
  assert (has_room f (in_flight a).*2) as Hr.
  { split; [done|]. destruct Hemp as [[E1 E2]|?]; [left|by right].
    rewrite Hloc in E1. rewrite Hpd in E2. apply fmap_nil_inv in E1, E2.
    unfold in_flight. by rewrite E1, E2. }
  pose proof (geo_wr _ _ _ _ Hg) as Hwr. pose proof Hg as [? ? ? Hl ? _].
  destruct (advance_write_spec f wo _ _ n Hg Hr Hn) as (f'&wo'&Hrun&Hg'&Eb&Ed&Er&Epk&Ephi).
  { unfold in_flight in *. rewrite fmap_app, sum_app in *.
    apply Forall_app in Hl as [?%sum_nonneg ?%sum_nonneg]. lia. }
  unfold BOUNDARY_INDX in Hwr.
  eexists (buffer f + wr_idx f), _, _, wo'. split.
  { unfold rx_receive. erewrite bind_Ret by (by apply run_on_fifo; eapply get_write_buf_spec).
    erewrite bind_Ret by (by apply run_on_fifo). mstep. done. }
  split; [apply spec_receive; [lia|lia|]|split_and!; simpl; try done].
  - rewrite Hpl. by eapply new_place_clear.
  - assert (in_flight (RxSpec (sp_groups a) (sp_pending a ++ [(buffer f + wr_idx f, n)])) =
      in_flight a ++ [(buffer f + wr_idx f, n)]) as Ea.
    { unfold in_flight. simpl. by rewrite app_assoc. }
    split; simpl; try done.
    + by rewrite Ea, fmap_app.
    + rewrite Ea, Eb, Er, fmap_app, pack_app, Epk, <-Hpl. csimpl. by rewrite Ephi.
    + by rewrite Hpd, fmap_app.
Qed.

(** *** Locating *)

(** The pointer [scdc_vendor_rx_cb] computes for the next packet. *)
Definition next_pointer (f : sdio_fifo_t) (gs : list (list (Z * Z))) : outcome (Z * sdio_fifo_t) :=
  match last (entry <$> gs) with
  | None => Ret (buffer f + rd_idx f, f)
  | Some prev => sdio_fifo_array_linearize (prev.1 + prev.2) f
  end.

Lemma concat_snoc {A} (gs : list (list A)) g : concat (gs ++ [g]) = concat gs ++ g.
Proof. rewrite concat_app. simpl. by rewrite app_nil_r. Qed.

Lemma next_pointer_spec f gs p n pending wo :
  geo f wo ((concat gs).*2 ++ n :: pending.*2) (sum (concat gs).*2) →
  concat gs ++ (p, n) :: pending =
    pack (buffer f) wo (rd_idx f) (concat gs ++ (p, n) :: pending).*2 →
  Forall (λ g, g ≠ []) gs →
  ∃ f', next_pointer f gs = Ret (p, f') ∧
    geo f' wo ((concat gs).*2 ++ n :: pending.*2) (sum (concat gs).*2 + n) ∧
    buffer f' = buffer f ∧ depth f' = depth f ∧ rd_idx f' = rd_idx f.
Proof.
  intros Hg Hpl Hgr. destruct (place_behind _ _ _ _ _ _ _ Hpl) as (Hpl1&Ep&_).
  unfold next_pointer. destruct (decide (gs = [])) as [->|Hgs].
  - simpl in *. exists f. rewrite Ep, Z.add_0_r, (geo_phi_rd _ _ _ _ Hg).
    split_and!; try done. apply (geo_locate f wo [] n); [done|]. simpl. rewrite Z.add_0_r.
    intros ->. pose proof Hg as [_ _ _ _ ? (q1&q2&_&_&_&?&_)]. lia.
  - destruct (exists_last Hgs) as (gs0&g&->). rewrite fmap_app.
    change (entry <$> [g]) with [entry g]. rewrite last_snoc. simpl.
    apply Forall_app in Hgr as [_ [Hg0 _]%Forall_cons].
    destruct g as [|[pg ng] g]; [done|]. rewrite concat_snoc in *.
    destruct (place_behind _ _ _ _ _ _ _ Hpl1) as (_&Epg&_). rewrite fmap_app in *. simpl. rewrite Epg, Ep.
    exact (linearize_spec f wo (concat gs0).*2 (((pg, ng) :: g).*2) n pending.*2 Hg ltac:(done)).
Qed.

Lemma locate_sim s a wo lo hi :
  rx_rel s a wo → legal s RxLocate →
  ∃ p s' a' wo', rx_locate s = Ret (p, s') ∧ spec_step lo hi a RxLocate p a' ∧
    rx_rel s' a' wo' ∧ buffer (rs_fifo s') = buffer (rs_fifo s) ∧ depth (rs_fifo s') = depth (rs_fifo s).
Proof.
  intros [Hg Hpl Hloc Hpd Hgr] Hne. simpl in Hne. set (f := rs_fifo s) in *.
  destruct a as [gs [|[p n] pending]]; [by rewrite Hpd in Hne|]. simpl in *.
  unfold in_flight in *. simpl in *. rewrite fmap_app in Hg. csimpl in Hg.
  destruct (next_pointer_spec f gs p n pending wo) as (f'&Hrun&Hg'&Eb&Ed&Er); [done..|].
  exists p, (RxSys f' (rs_located s ++ [(p, n)]) pending.*2), (RxSpec (gs ++ [[(p, n)]]) pending), wo.
  split; [|split; [constructor|split; [|done]]].
  - unfold rx_locate. mstep. rewrite Hpd. csimpl.
    erewrite bind_Ret by (apply run_on_fifo; by eapply read_linear_info_spec).
    cbn [ptr_lin]. rewrite Hloc. unfold next_pointer in Hrun.
    destruct (last (entry <$> gs)) as [prev|].
    + erewrite bind_Ret by (apply run_on_fifo; exact Hrun). mstep. simpl. by rewrite ?Hloc.
    + injection Hrun as <- <-. mstep. simpl. mstep. simpl. by rewrite ?Hloc.
  - assert (concat (gs ++ [[(p, n)]]) ++ pending = concat gs ++ (p, n) :: pending) as Ea.
    { by rewrite concat_snoc, <-app_assoc. }
    split; simpl; unfold in_flight; simpl; rewrite ?Ea.
    + rewrite concat_snoc, !fmap_app, sum_app. csimpl. by rewrite Z.add_0_r.
    + by rewrite Eb, Er.
    + rewrite fmap_app, Hloc. change (entry <$> [[(p, n)]]) with [(p, n + 0)]. by rewrite Z.add_0_r.
    + done.
    + apply Forall_app. by repeat constructor.
Qed.

(** *** Releasing *)

Lemma release_oldest_sim s a wo lo hi :
  rx_rel s a wo → legal s (RxRelease 0) →
  ∃ p s' a' wo', purge_outp 0 s = Ret (p, s') ∧ spec_step lo hi a (RxRelease 0) p a' ∧
    rx_rel s' a' wo' ∧ buffer (rs_fifo s') = buffer (rs_fifo s) ∧ depth (rs_fifo s') = depth (rs_fifo s).
Proof.
  intros [Hg Hpl Hloc Hpd Hgr] Hi. simpl in Hi. set (f := rs_fifo s) in *.
  destruct a as [[|g gs] pending]; [rewrite Hloc in Hi; simpl in Hi; lia|].
  apply Forall_cons in Hgr as [Hg0 Hgr]. destruct g as [|[p n] g]; [done|].
  set (gl := (p, n) :: g) in *.
  assert (in_flight (RxSpec (gl :: gs) pending) = gl ++ concat gs ++ pending) as Ea.
  { unfold in_flight. simpl sp_groups. simpl sp_pending. rewrite app_assoc. done. }
  rewrite Ea in Hg, Hpl. change (concat (sp_groups (RxSpec (gl :: gs) pending))) with
    (gl ++ concat gs) in Hg. rewrite !fmap_app in Hg.
  destruct (advance_read_spec f wo gl.*2 (concat gs).*2 pending.*2) as (f'&wo'&Hrun&Hg'&Eb&Ed&Epk);
    [done|].
  exists p, (RxSys f' (entry <$> gs) (rs_pending s)), (RxSpec gs pending), wo'.
  split; [|split; [constructor|split; [|done]]].
  - unfold purge_outp. mstep. rewrite Hloc. simpl.
    erewrite bind_Ret by (apply run_on_fifo; exact Hrun). mstep. simpl. by rewrite ?Hloc.
  - split; simpl; unfold in_flight; simpl; try done; rewrite ?fmap_app; [done|].
    rewrite Eb, Epk. rewrite !fmap_app, pack_app in Hpl.
    apply app_inj_1 in Hpl as [_ Hpl]; [exact Hpl|].
    by rewrite <-(length_fmap snd (pack _ _ _ _)), pack_snd, length_fmap.
Qed.

Lemma coalesce_lists {A} (h : A → A) l1 x y l2 :
  alter h (length l1) (delete (S (length l1)) (l1 ++ x :: y :: l2)) = l1 ++ h x :: l2.
Proof. induction l1 as [|z l1 IH]; [done|]. simpl. f_equal. exact IH. Qed.

Lemma split_at {A} (l : list A) j :
  (S j < length l)%nat → ∃ l1 x y l2, l = l1 ++ x :: y :: l2 ∧ length l1 = j.
Proof.
  intros Hj. destruct (lookup_lt_is_Some_2 l j) as [x Hx]; [lia|].
  destruct (lookup_lt_is_Some_2 l (S j)) as [y Hy]; [lia|].
  exists (take j l), x, y, (drop (S (S j)) l). split; [|rewrite length_take; lia].
  rewrite <-(drop_S _ _ _ Hy), <-(drop_S _ _ _ Hx). by rewrite take_drop.
Qed.

Lemma geo_total f wo q k : geo f wo q k → sum q < 65536.
Proof.
  intros [? ? _ Hl ? Hw]. unfold BOUNDARY_INDX in *. destruct wo as [W|].
  - destruct Hw as (q1&q2&->&_&?&?&_&?&?&_). unfold BOUNDARY_INDX in *. rewrite sum_app. lia.
  - destruct Hw as (?&?&_). unfold BOUNDARY_INDX in *. lia.
Qed.

Lemma release_other_sim s a wo lo hi j :
  rx_rel s a wo → legal s (RxRelease (S j)) →
  ∃ p s' a' wo', purge_outp (S j) s = Ret (p, s') ∧ spec_step lo hi a (RxRelease (S j)) p a' ∧
    rx_rel s' a' wo' ∧ buffer (rs_fifo s') = buffer (rs_fifo s) ∧ depth (rs_fifo s') = depth (rs_fifo s).
Proof.
  intros [Hg Hpl Hloc Hpd Hgr] Hi. simpl in Hi. rewrite Hloc, length_fmap in Hi.
  destruct a as [gs pending]. simpl in *.
  destruct (split_at gs j Hi) as (gs1&g&g2&gs2&->&<-).
  apply Forall_app in Hgr as [Hgr1 [Hne [Hne2 Hgr2]%Forall_cons]%Forall_cons].
  destruct g2 as [|[p n] g2]; [done|]. set (gl := (p, n) :: g2) in *.
  assert (concat (gs1 ++ (g ++ gl) :: gs2) = concat (gs1 ++ g :: gl :: gs2)) as Ec.
  { rewrite !concat_app. f_equal. symmetry. apply app_assoc. }
  assert (0 ≤ sum g.*2 ∧ 0 ≤ sum gl.*2 ∧ sum g.*2 + sum gl.*2 < 65536) as (?&?&?).
  { pose proof (geo_total _ _ _ _ Hg) as Ht. destruct Hg as [_ _ _ Hl _ _].
    assert (in_flight (RxSpec (gs1 ++ g :: gl :: gs2) pending) =
      (concat gs1 ++ g ++ gl ++ concat gs2) ++ pending) as E by (unfold in_flight; simpl; by rewrite concat_app).
    rewrite E in Hl, Ht.
    rewrite !fmap_app, !Forall_app in Hl. rewrite !fmap_app, !sum_app in Ht.
    destruct Hl as ((?%sum_nonneg&?%sum_nonneg&?%sum_nonneg&?%sum_nonneg)&?%sum_nonneg). lia. }
  exists p, (RxSys (rs_fifo s) (entry <$> gs1 ++ (g ++ gl) :: gs2) (rs_pending s)),
    (RxSpec (gs1 ++ (g ++ gl) :: gs2) pending), wo.
  split; [|split; [constructor|split; [|done]]].
  - unfold purge_outp. mstep.
    assert (rs_located s !! S (length gs1) = Some (p, sum gl.*2)) as ->.
    { rewrite Hloc, list_lookup_fmap, lookup_app_r by lia.
      by replace (S (length gs1) - length gs1)%nat with 1%nat by lia. }
    mstep. unfold mret, M_ret. do 3 f_equal.
    rewrite Hloc, !fmap_app, !fmap_cons.
    rewrite <-(length_fmap entry gs1), coalesce_lists. do 2 f_equal.
    unfold entry. rewrite fmap_app, sum_app, u16_id by (simpl in *; lia).
    destruct g; done.
  - split; simpl; unfold in_flight in *; simpl in *; rewrite ?Ec; try done.
    apply Forall_app. split; [done|]. constructor; [|done]. by destruct g.
Qed.

(** *** All operations *)

Lemma rx_op_sim s a wo o :
  rx_rel s a wo → legal s o →
  ∃ p s' a' wo', rx_run o s = Ret (p, s') ∧
    spec_step (buffer (rs_fifo s)) (buffer (rs_fifo s) + depth (rs_fifo s)) a o p a' ∧
    rx_rel s' a' wo' ∧ buffer (rs_fifo s') = buffer (rs_fifo s) ∧ depth (rs_fifo s') = depth (rs_fifo s).
Proof.
  intros Hr Hl. destruct o as [n| |[|j]].
  - by apply (receive_sim s a wo).
  - by apply (locate_sim s a wo).
  - by apply (release_oldest_sim s a wo).
  - by apply (release_other_sim s a wo).
Qed.

(** Sequences of operations each of which is legal when it is made. *)
Fixpoint legal_run (s : rxsys) (os : list rx_op) : Prop :=
  match os with
  | [] => True
  | o :: os => legal s o ∧ ∀ p s', rx_run o s = Ret (p, s') → legal_run s' os
  end.

(** C12: the receive path refines a queue of packets.  For every sequence of
    receptions (each with room and shorter than
    CONFIG_SDIO_FIFO_MIN_LINEAR_SIZE), locations and releases, in any order,
    no assertion of the FIFO fails; each packet is received inside the buffer
    and clear of every packet in flight, and it is later located at exactly
    the place where it was received, in order, across wrap-arounds and
    out-of-order releases. *)
Theorem sdio_fifo_refines_queue s a wo os :
  rx_rel s a wo → legal_run s os →
  ∃ ps s' a' wo', rx_runs os s = Ret (ps, s') ∧
    spec_steps (buffer (rs_fifo s)) (buffer (rs_fifo s) + depth (rs_fifo s)) a os ps a' ∧
    rx_rel s' a' wo'.
Proof.
  revert s a wo. induction os as [|o os IH]; intros s a wo Hr Hl; simpl.
  - exists [], s, a, wo. split_and!; [done|constructor|done].
  - destruct Hl as [Ho Hos].
    destruct (rx_op_sim _ _ _ _ Hr Ho) as (p&s1&a1&wo1&Hrun&Hstep&Hr1&Eb&Ed).
    destruct (IH s1 a1 wo1 Hr1 (Hos _ _ Hrun)) as (ps&s2&a2&wo2&Hruns&Hsteps&Hr2).
    rewrite Eb, Ed in Hsteps. exists (p :: ps), s2, a2, wo2. split_and!; [|by econstructor|done].
    erewrite bind_Ret by exact Hrun. by erewrite bind_Ret by exact Hruns.
Qed.

Lemma config_rel buf d s :
  0 < MIN_LINEAR ≤ d → d ≤ 0x8000 → 0 < buf → buf + 2 * d < 2 ^ 32 →
  ∃ f, sdio_fifo_config buf d s = Ret (true, f) ∧ rx_rel (RxSys f [] []) (RxSpec [] []) None.
Proof.
  intros ????. unfold sdio_fifo_config. rewrite (proj2 (gtb_false _ _)) by lia. mstep.
  eexists; split; [done|]. split; simpl; try done; try lia.
  split; unfold wrap_ok, BOUNDARY_INDX; simpl; try done; try lia.
Qed.

(** A full FIFO can look empty.  When the packets in flight wrap around
    and the write index has caught up with the read index, the FIFO's own test
    still reports room, and the next reception is given the place of the
    oldest packet that has not been consumed. *)
Theorem sdio_fifo_full_looks_empty s a W n :
  rx_rel s a (Some W) → rd_idx (rs_fifo s) = wr_idx (rs_fifo s) → 0 < n < MIN_LINEAR →
  sdio_fifo_array_linear_space_available (rs_fifo s) = Ret (true, rs_fifo s) ∧
  ∃ p s', rx_receive n s = Ret (p, s') ∧ head (in_flight a).*1 = Some p.
Proof.
  intros [Hg Hpl _ _ _] E Hn. set (f := rs_fifo s) in *. pose proof (geo_wr _ _ _ _ Hg).
  pose proof Hg as [? ? ? _ ? Hw]. unfold BOUNDARY_INDX in *. split.
  - unfold sdio_fifo_array_linear_space_available, space. mstep. rewrite E, Z.ltb_irrefl.
    rewrite Z.sub_diag, u16_id by lia. by rewrite !(proj2 (Z.ltb_ge _ _)) by lia.
  - assert (∃ f', sdio_fifo_array_advance_write_pointer n f = Ret ((), f')) as [f' Hadv].
    { unfold sdio_fifo_array_advance_write_pointer. mstep. mstep. mstep.
      rewrite E, (proj2 (Z.geb_le _ _)), (proj2 (Z.ltb_lt _ (depth f))) by lia.
      destruct (_ >? _); mstep; eexists; reflexivity. }
    exists (buffer f + wr_idx f). eexists. split.
    + unfold rx_receive. erewrite bind_Ret by (apply run_on_fifo; by eapply get_write_buf_spec).
      erewrite bind_Ret by (apply run_on_fifo; exact Hadv). mstep. reflexivity.
    + rewrite Hpl. destruct Hw as (q1&q2&->&Hne&_). destruct q1 as [|m q1]; [done|]. simpl.
      by rewrite <-E, (geo_phi_rd _ _ _ _ Hg : (if rd_idx f <? W then _ else _) = _).
Qed.

(** A packet of exactly CONFIG_SDIO_FIFO_MIN_LINEAR_SIZE bytes at the last
    place the FIFO hands out is accepted on the write side, but its
    consumption fails the assertion on the read index. *)
Theorem sdio_fifo_exact_fit_asserts f :
  0 < MIN_LINEAR ≤ depth f → depth f ≤ 0x8000 → len_waste f = 0 →
  wr_idx f = depth f - MIN_LINEAR → rd_idx f = wr_idx f →
  ∃ f', sdio_fifo_array_get_write_buf f = Ret (buffer f + wr_idx f, f) ∧
    sdio_fifo_array_advance_write_pointer MIN_LINEAR f = Ret ((), f') ∧
    sdio_fifo_array_advance_read MIN_LINEAR f' = AssertFailed.
Proof.
  intros ?? Ewa Ew Er. exists (set_wr 0 (set_wr (depth f) f)). split_and!.
  - unfold sdio_fifo_array_get_write_buf. mstep.
    rewrite (s16_id (wr_idx f)), (proj2 (Z.ltb_ge _ _)) by lia. by rewrite andb_false_r.
  - unfold sdio_fifo_array_advance_write_pointer. mstep. mstep. mstep. simpl wr_idx. simpl depth.
    rewrite Er, Ew, u16_id by lia. replace (depth f - MIN_LINEAR + MIN_LINEAR) with (depth f) by lia.
    rewrite (proj2 (Z.gtb_lt _ _)), (proj2 (Z.geb_le _ _)), (proj2 (Z.ltb_lt _ (depth f))) by lia.
    mstep. done.
  - unfold sdio_fifo_array_advance_read, mbind, M_bind, get, BOUNDARY_INDX. simpl.
    rewrite Er, Ew, u16_id by lia. replace (depth f - MIN_LINEAR + MIN_LINEAR) with (depth f) by lia.
    rewrite (proj2 (Z.gtb_lt _ _)) by lia. rewrite Ewa. simpl. unfold c_assert.
    by rewrite Z.ltb_irrefl.
Qed.

End Theorems.

(** ** The shipped configuration *)

Module Demo.

#[export] Instance config : FifoConfig := {| MIN_LINEAR := 1700 |}.

Definition f0 : sdio_fifo_t := Fifo 0x20000000 20480 0 0 0.
Definition s0 : rxsys := RxSys f0 [] [].

Definition ops : list rx_op :=
  [RxReceive 1000; RxReceive 1500; RxLocate; RxLocate; RxRelease 1; RxReceive 60; RxLocate; RxRelease 0].

Lemma s0_rel : rx_rel s0 (RxSpec [] []) None.
Proof.
  destruct (config_rel 0x20000000 20480 f0) as (f&E&Hr); try (simpl; lia).
  unfold sdio_fifo_config in E. simpl in E. injection E as <-. exact Hr.
Qed.

Ltac legal_step :=
  simpl; split;
  [first [done | simpl; lia
     | split; [lia|]; split; [vm_compute; reflexivity|];
       first [left; split; reflexivity | right; vm_compute; discriminate]]
  |intros ? ? E; vm_compute in E; injection E as <- <-].

Lemma ops_legal : legal_run s0 ops.
Proof. do 8 legal_step. exact I. Qed.

Lemma sdio_fifo_refines_queue_witness :
  ∃ s' a' wo', rx_runs ops s0 = Ret ([0x20000000; 0x200003E8; 0x20000000; 0x200003E8; 0x200003E8;
      0x200009C4; 0x200009C4; 0x20000000], s') ∧ rx_rel s' a' wo'.
Proof.
  destruct (sdio_fifo_refines_queue s0 (RxSpec [] []) None ops s0_rel ops_legal)
    as (ps&s'&a'&wo'&Hrun&_&Hr).
  exists s', a', wo'. split; [|done]. vm_compute in Hrun. injection Hrun as <- <-.
  vm_compute. reflexivity.
Defined.

(** Nineteen packets of 1000 bytes fill the buffer; nothing was consumed. *)
Definition full : rxsys := RxSys f0 [] (repeat 1000 19).
Definition full_spec : rxspec := RxSpec [] (pack 0x20000000 (Some 19000) 0 (repeat 1000 19)).

Lemma full_reached : rx_runs (repeat (RxReceive 1000) 19) s0 =
  Ret ((pack 0x20000000 (Some 19000) 0 (repeat 1000 19)).*1, full).
Proof. vm_compute. reflexivity. Qed.

Lemma full_rel : rx_rel full full_spec (Some 19000).
Proof.
  split; try done.
  change (in_flight full_spec).*2 with (repeat 1000 19).
  assert (∀ m, Forall (λ n, 0 < n < MIN_LINEAR) (repeat 1000 m)) as Hl.
  { intros m. induction m; constructor; simpl; [lia|done]. }
  split; simpl; try lia.
  - apply (Hl 19%nat).
  - unfold BOUNDARY_INDX. simpl. lia.
  - exists (repeat 1000 19), []. unfold BOUNDARY_INDX.
    split_and!; try done; simpl; try lia.
    intros a b E Hb. assert (sum a ≤ sum (repeat 1000 18)); [|simpl in *; lia].
    apply (proper_prefix a b (repeat 1000 18) 1000); [by rewrite <-E|done|apply Hl].
Qed.

Lemma sdio_fifo_full_looks_empty_witness :
  ∃ p s', rx_receive 1000 full = Ret (p, s') ∧ head (in_flight full_spec).*1 = Some p.
Proof.
  exact (proj2 (sdio_fifo_full_looks_empty full full_spec 19000 1000 full_rel eq_refl
    (conj eq_refl eq_refl))).
Defined.

Lemma sdio_fifo_exact_fit_asserts_witness :
  ∃ f', sdio_fifo_array_advance_read 1700 f' = AssertFailed.
Proof.
  destruct (sdio_fifo_exact_fit_asserts (Fifo 0x20000000 20480 18780 18780 0)) as (f'&_&_&H);
    simpl; try lia. by exists f'.
Defined.

End Demo.
