(* ===== verification/Efuse.v ===== *)
(** * The eFuse driver: src/hal/drivers/efuse/efuse-scm2010.c

    With CONFIG_EFUSE_BUFFER_MODE, so that all three modes exist: raw access
    to the fuses, a RAM buffer and a buffer in serial flash.  The fuse block
    and the flash are hardware: they are the classes [FuseHw] and [FlashHw],
    whose laws state what the driver's comments and the flash API document.
    An index outside [ram_buf] or [flash_buf] is a [Fault]. *)

From stdpp Require Import base tactics numbers list.
From S2P Require Import Prelude.

(** ** Hardware *)

Definition CMD_READ : Z := 1.
Definition CMD_WRITE : Z := 2.
Definition CMD_IDLE : Z := 4.

(** The fuse block: what a read command on a row returns, and what a program
    command with an address does. *)
Class FuseHw := {
  fuses : Type;
  fuse_row : fuses → Z → Z;
  fuse_program : fuses → Z → fuses;
}.

(** "addr[9:5] is equal to the bit number, addr[4:0] is equal to the row
    address", and programming only ever sets a bit. *)
Class FuseHwLaws {HW : FuseHw} := {
  fuse_row_range f r : 0 ≤ fuse_row f r < 2 ^ 32;
  fuse_program_row f a r : 0 ≤ r < 32 →
    fuse_row (fuse_program f a) r =
    if r =? Z.land a 31 then Z.lor (fuse_row f r) (BIT (Z.land (Z.shiftr a 5) 31)) else fuse_row f r;
}.

(** Serial flash, in words: reading, erasing and programming an area, and the
    memory-mapped view of a word. *)
Class FlashHw := {
  flash : Type;
  flash_read : flash → Z → nat → list Z;
  flash_erase : flash → Z → Z → flash;
  flash_write : flash → Z → list Z → flash;
  flash_mapped : flash → Z → Z;
}.

Class FlashHwLaws {FL : FlashHw} := {
  flash_read_length f a n : length (flash_read f a n) = n;
  flash_read_range f a n i w : flash_read f a n !! i = Some w → 0 ≤ w < 2 ^ 32;
  flash_rewrite f a ws : Forall (λ w, 0 ≤ w < 2 ^ 32) ws →
    flash_read (flash_write (flash_erase f a (4 * Z.of_nat (length ws))) a ws) a (length ws) = ws;
  flash_mapped_read f a n i w :
    flash_read f a n !! i = Some w → flash_mapped f (a + Z.of_nat i * 4) = w;
}.

(** ** Driver *)

Definition EINVAL : Z := 22.
Definition EIO : Z := 5.

Definition SCM2010_EFUSE_ROW_MAX : Z := 32.
Definition EFUSE_MODE_RAW : Z := 0.
Definition EFUSE_MODE_RAM_BUFFER : Z := 1.
Definition EFUSE_MODE_FLASH_BUFFER : Z := 2.
Definition FLASH_INVALID_VALUE : Z := 0xFFFFFFFF.
Definition FLASH_MAGIC_VALUE : Z := 0xCAFEBABE.

(** CONFIG_EFUSE_NUM_ROW and CONFIG_EFUSE_FLASH_BUFFER_ADDR. *)
Class EfuseConfig := { NUM_ROW : nat; FLASH_BUFFER_ADDR : Z }.

Section Driver.
Context {CFG : EfuseConfig} {HW : FuseHw} {FL : FlashHw}.

Definition FLASH_BUFFER_MAGIC_OFFSET : nat := NUM_ROW.
Definition FLASH_BUFFER_MODE_OFFSET : nat := S NUM_ROW.
Definition FLASH_BUFFER_WORDS : nat := S (S NUM_ROW).

Record efuse := Efuse {
  ef_fuses : fuses;
  ef_flash : flash;
  ef_mode : Z;
  ram_buf : list Z;
  flash_buf : list Z;
}.

Definition set_fuses (f : fuses) (e : efuse) := Efuse f (ef_flash e) (ef_mode e) (ram_buf e) (flash_buf e).
Definition set_flash (f : flash) (e : efuse) := Efuse (ef_fuses e) f (ef_mode e) (ram_buf e) (flash_buf e).
Definition set_mode (m : Z) (e : efuse) := Efuse (ef_fuses e) (ef_flash e) m (ram_buf e) (flash_buf e).
Definition set_ram (l : list Z) (e : efuse) := Efuse (ef_fuses e) (ef_flash e) (ef_mode e) l (flash_buf e).
Definition set_fbuf (l : list Z) (e : efuse) := Efuse (ef_fuses e) (ef_flash e) (ef_mode e) (ram_buf e) l.

(** Array accesses with a C [int] index. *)
Definition index (i : Z) (l : list Z) : option Z := if i <? 0 then None else l !! Z.to_nat i.

Definition ram_get (i : Z) : M efuse Z := λ e,
  match index i (ram_buf e) with Some v => Ret (v, e) | None => Fault end.
Definition ram_put (i v : Z) : M efuse unit := λ e,
  match index i (ram_buf e) with
  | Some _ => Ret ((), set_ram (<[Z.to_nat i := v]> (ram_buf e)) e)
  | None => Fault
  end.
Definition fbuf_get (i : Z) : M efuse Z := λ e,
  match index i (flash_buf e) with Some v => Ret (v, e) | None => Fault end.
Definition fbuf_put (i v : Z) : M efuse unit := λ e,
  match index i (flash_buf e) with
  | Some _ => Ret ((), set_fbuf (<[Z.to_nat i := v]> (flash_buf e)) e)
  | None => Fault
  end.

Definition efuse_read_raw (row : Z) : M efuse Z :=
  e ← get;
  mret (fuse_row (ef_fuses e) (Z.land row 0x1f)).

(** [for (i = 0, v = val; i < 32; i++, v = v >> 1)] *)
Fixpoint write_raw_loop (n : nat) (i v old row : Z) : M efuse unit :=
  match n with
  | O => mret ()
  | S n =>
      (if negb (Z.land v 1 =? 0) && (Z.shiftr (Z.land old (BIT i)) i =? 0)
       then modify (λ e, set_fuses (fuse_program (ef_fuses e) (Z.lor (Z.shiftl i 5) row)) e)
       else mret ());;
      write_raw_loop n (i + 1) (Z.shiftr v 1) old row
  end.

Definition efuse_write_raw (row val : Z) : M efuse unit :=
  old ← efuse_read_raw row;
  write_raw_loop 32 0 val old row.

Definition efuse_flash_clear : M efuse unit :=
  modify (set_fbuf (replicate FLASH_BUFFER_WORDS 0)).

Definition efuse_flash_read : M efuse unit :=
  modify (λ e, set_fbuf (flash_read (ef_flash e) FLASH_BUFFER_ADDR FLASH_BUFFER_WORDS) e).

Definition efuse_flash_write : M efuse unit :=
  modify (λ e, set_flash (flash_erase (ef_flash e) FLASH_BUFFER_ADDR (4 * Z.of_nat FLASH_BUFFER_WORDS)) e);;
  modify (λ e, set_flash (flash_write (ef_flash e) FLASH_BUFFER_ADDR (flash_buf e)) e).

(** The loop of [efuse_flash_validate] from row [i] on: the mode when a used
    row comes with the magic word, None when the buffer must be set up. *)
Fixpoint validate_loop (n : nat) (i : Z) : M efuse (option Z) :=
  match n with
  | O => mret None
  | S n =>
      w ← fbuf_get i;
      if negb (w =? FLASH_INVALID_VALUE) then
        magic ← fbuf_get (Z.of_nat FLASH_BUFFER_MAGIC_OFFSET);
        if magic =? FLASH_MAGIC_VALUE
        then m ← fbuf_get (Z.of_nat FLASH_BUFFER_MODE_OFFSET); mret (Some (u8 m))
        else mret None
      else validate_loop n (i + 1)
  end.

Definition efuse_flash_validate : M efuse Z :=
  efuse_flash_read;;
  r ← validate_loop NUM_ROW 0;
  match r with
  | Some mode => mret mode
  | None =>
      efuse_flash_clear;;
      fbuf_put (Z.of_nat FLASH_BUFFER_MAGIC_OFFSET) FLASH_MAGIC_VALUE;;
      fbuf_put (Z.of_nat FLASH_BUFFER_MODE_OFFSET) EFUSE_MODE_RAW;;
      efuse_flash_write;;
      mret EFUSE_MODE_RAW
  end.

Definition scm2010_efuse_set_mode (mode : Z) : M efuse Z :=
  if mode >? EFUSE_MODE_FLASH_BUFFER then mret (- EINVAL) else
  modify (set_mode mode);;
  efuse_flash_read;;
  fbuf_put (Z.of_nat FLASH_BUFFER_MODE_OFFSET) mode;;
  efuse_flash_write;;
  mret 0.

Definition scm2010_efuse_get_mode : M efuse (Z * Z) :=
  e ← get; mret (0, ef_mode e).

Fixpoint sync_loop (n : nat) (i : Z) : M efuse unit :=
  match n with
  | O => mret ()
  | S n =>
      e ← get;
      val ← (if ef_mode e =? EFUSE_MODE_RAM_BUFFER then ram_get i
             else if ef_mode e =? EFUSE_MODE_FLASH_BUFFER
             then mret (flash_mapped (ef_flash e) (FLASH_BUFFER_ADDR + i * 4))
             else mret 0);
      efuse_write_raw i val;;
      sync_loop n (i + 1)
  end.

Definition bad_buffer_mode (m : Z) : bool := (m =? EFUSE_MODE_RAW) || (m >? EFUSE_MODE_FLASH_BUFFER).

Definition scm2010_efuse_sync : M efuse Z :=
  e ← get;
  if bad_buffer_mode (ef_mode e) then mret (- EIO) else
  sync_loop NUM_ROW 0;;
  mret 0.

Fixpoint load_loop (n : nat) (i : Z) : M efuse unit :=
  match n with
  | O => mret ()
  | S n =>
      val ← efuse_read_raw i;
      e ← get;
      (if ef_mode e =? EFUSE_MODE_RAM_BUFFER then ram_put i val
       else if ef_mode e =? EFUSE_MODE_FLASH_BUFFER then fbuf_put i val else mret ());;
      load_loop n (i + 1)
  end.

Definition scm2010_efuse_load : M efuse Z :=
  e ← get;
  if bad_buffer_mode (ef_mode e) then mret (- EIO) else
  load_loop NUM_ROW 0;;
  (if ef_mode e =? EFUSE_MODE_FLASH_BUFFER then
     fbuf_put (Z.of_nat FLASH_BUFFER_MAGIC_OFFSET) FLASH_MAGIC_VALUE;;
     fbuf_put (Z.of_nat FLASH_BUFFER_MODE_OFFSET) (ef_mode e);;
     efuse_flash_write
   else mret ());;
  mret 0.

(** Returns the error code and [*val] (None: not written). *)
Definition scm2010_efuse_read (row : Z) : M efuse (Z * option Z) :=
  if row >=? SCM2010_EFUSE_ROW_MAX then mret (- EINVAL, None) else
  e ← get;
  if ef_mode e =? EFUSE_MODE_RAW then v ← efuse_read_raw row; mret (0, Some v)
  else if ef_mode e =? EFUSE_MODE_RAM_BUFFER then v ← ram_get row; mret (0, Some v)
  else if ef_mode e =? EFUSE_MODE_FLASH_BUFFER
  then mret (0, Some (flash_mapped (ef_flash e) (FLASH_BUFFER_ADDR + row * 4)))
  else mret (- EIO, None).

Definition scm2010_efuse_write (row val : Z) : M efuse Z :=
  if row >=? SCM2010_EFUSE_ROW_MAX then mret (- EINVAL) else
  e ← get;
  if ef_mode e =? EFUSE_MODE_RAW then efuse_write_raw row val;; mret 0
  else if ef_mode e =? EFUSE_MODE_RAM_BUFFER then ram_put row val;; mret 0
  else if ef_mode e =? EFUSE_MODE_FLASH_BUFFER
  then efuse_flash_read;; fbuf_put row val;; efuse_flash_write;; mret 0
  else mret (- EIO).

(** The commands of the device file, with their arguments; the answer is the
    error code and what is written back through the argument. *)
Inductive efuse_cmd :=
| IOCTL_EFUSE_READ_ROW (row : Z)
| IOCTL_EFUSE_WRITE_ROW (row val : Z)
| IOCTL_EFUSE_SET_MODE (mode : Z)
| IOCTL_EFUSE_GET_MODE
| IOCTL_EFUSE_SYNC
| IOCTL_EFUSE_LOAD
| IOCTL_EFUSE_OTHER.

Definition scm2010_efuse_ioctl (cmd : efuse_cmd) : M efuse (Z * option Z) :=
  match cmd with
  | IOCTL_EFUSE_READ_ROW row => scm2010_efuse_read row
  | IOCTL_EFUSE_WRITE_ROW row val => r ← scm2010_efuse_write row val; mret (r, None)
  | IOCTL_EFUSE_SET_MODE mode => r ← scm2010_efuse_set_mode (u8 mode); mret (r, None)
  | IOCTL_EFUSE_GET_MODE => r ← scm2010_efuse_get_mode; mret (r.1, Some r.2)
  | IOCTL_EFUSE_SYNC => r ← scm2010_efuse_sync; mret (r, None)
  | IOCTL_EFUSE_LOAD => r ← scm2010_efuse_load; mret (r, None)
  | IOCTL_EFUSE_OTHER => mret (- EINVAL, None)
  end.

(** The mode part of [scm2010_efuse_probe]; registering the device file is
    assumed to succeed. *)
Definition scm2010_efuse_probe : M efuse Z :=
  m ← efuse_flash_validate;
  modify (set_mode m);;
  mret 0.

End Driver.
