(* ===== verification/EfuseApi.v ===== *)
(** * The eFuse API: src/api/scm_efuse.c

    Reading, writing and clearing any range of fuse bits on top of the device
    file, which gives access to 32-bit rows.  The API is written against the
    interface [RowDevice], the commands of the device file it uses; the
    driver of Efuse.v is one implementation.  The loops keep the C indices:
    byte and bit in the caller's buffer, byte and bit in the current row. *)

From stdpp Require Import base tactics numbers list.
From S2P Require Import Prelude.

Definition WISE_OK : Z := 0.
Definition WISE_ERR_INVALID_STATE : Z := 0x103.
Definition WISE_ERR_IOCTL : Z := 0x10C.

(** The device file: each command returns the ioctl result; a read that
    fails leaves the caller's word alone. *)
Class RowDevice (S : Type) := {
  ioctl_read_row : Z → M S (Z * option Z);
  ioctl_write_row : Z → Z → M S Z;
  ioctl_get_mode : M S (Z * Z);
  ioctl_set_mode : Z → M S Z;
  ioctl_sync : M S Z;
  ioctl_load : M S Z;
}.

Section Api.
Context {S : Type} {DEV : RowDevice S}.

(** [p[idx] & (1 << bit)] of a byte array that is a little-endian word. *)
Definition word_bit (w idx bit : Z) : option bool :=
  if (0 <=? idx) && (idx <? 4) then Some (Z.testbit w (8 * idx + bit)) else None.

Definition buf_bit (val : list Z) (idx bit : Z) : option bool :=
  match val !! Z.to_nat idx with Some b => Some (Z.testbit b bit) | None => None end.

Definition buf_assign (val : list Z) (idx bit : Z) (b : bool) : option (list Z) :=
  match val !! Z.to_nat idx with
  | Some v => Some (<[Z.to_nat idx := if b then Z.lor v (BIT bit) else Z.land v (Z.lnot (BIT bit))]> val)
  | None => None
  end.

(** The local variables of the loops. *)
Record cursor := Cursor {
  cu_row : Z;                   (* rw_data.row *)
  cu_word : Z;                  (* efuse_val_32 *)
  cu_sbyte : Z; cu_sbit : Z;    (* start_bufidx, start_bit_offset *)
  cu_rbyte : Z; cu_rbit : Z;    (* result_bufidx, result_bit_offset *)
}.

(** [result_bit_offset++; if (result_bit_offset == 8) ...] *)
Definition next_result (c : cursor) : cursor :=
  if cu_rbit c + 1 =? 8
  then Cursor (cu_row c) (cu_word c) (cu_sbyte c) (cu_sbit c) (cu_rbyte c + 1) 0
  else Cursor (cu_row c) (cu_word c) (cu_sbyte c) (cu_sbit c) (cu_rbyte c) (cu_rbit c + 1).

Definition open_cursor (bit_offset word : Z) : cursor :=
  Cursor (bit_offset / 32) word (bit_offset mod 32 / 8) (bit_offset mod 32 mod 8) 0 0.

(** ** Reading *)

Fixpoint read_loop (n : nat) (i bit_count ret : Z) (c : cursor) (val : list Z) : M S (Z * list Z) :=
  match n with
  | O => mret (ret, val)
  | Datatypes.S n =>
      b ← lift_opt (word_bit (cu_word c) (cu_sbyte c) (cu_sbit c));
      val ← lift_opt (buf_assign val (cu_rbyte c) (cu_rbit c) b);
      let c := next_result c in
      if cu_sbit c + 1 =? 8 then
        if (cu_sbyte c + 1 =? 4) && negb (i =? bit_count - 1) then
          r ← ioctl_read_row (cu_row c + 1);
          if r.1 <? 0 then mret (r.1, val)
          else read_loop n (i + 1) bit_count r.1
            (Cursor (cu_row c + 1) (default (cu_word c) r.2) 0 0 (cu_rbyte c) (cu_rbit c)) val
        else read_loop n (i + 1) bit_count ret
          (Cursor (cu_row c) (cu_word c) (cu_sbyte c + 1) 0 (cu_rbyte c) (cu_rbit c)) val
      else read_loop n (i + 1) bit_count ret
        (Cursor (cu_row c) (cu_word c) (cu_sbyte c) (cu_sbit c + 1) (cu_rbyte c) (cu_rbit c)) val
  end.

(** Returns the status and the caller's buffer, which must have room for the
    bytes that are cleared first. *)
Definition scm_efuse_read (bit_offset bit_count : Z) : M S (Z * list Z) :=
  let val := replicate (Z.to_nat ((bit_count + 7) / 8)) 0 in
  r ← ioctl_read_row (bit_offset / 32);
  if r.1 <? 0 then mret (WISE_ERR_IOCTL, val) else
  r ← read_loop (Z.to_nat bit_count) 0 bit_count r.1 (open_cursor bit_offset (default 0 r.2)) val;
  mret (if r.1 =? 0 then WISE_OK else WISE_ERR_IOCTL, r.2).

(** ** Writing and clearing

    The two functions differ in what they do to a bit of the row: [setb] is
    the new value of the bit at the cursor, or None to leave it alone. *)

Definition write_bit (val : list Z) (c : cursor) : option Z :=
  match buf_bit val (cu_rbyte c) (cu_rbit c), word_bit (cu_word c) (cu_sbyte c) (cu_sbit c) with
  | Some true, Some _ => Some (Z.lor (cu_word c) (BIT (8 * cu_sbyte c + cu_sbit c)))
  | Some false, _ => Some (cu_word c)
  | _, _ => None
  end.

Definition clear_bit (c : cursor) : option Z :=
  match word_bit (cu_word c) (cu_sbyte c) (cu_sbit c) with
  | Some _ => Some (Z.land (cu_word c) (Z.lnot (BIT (8 * cu_sbyte c + cu_sbit c))))
  | None => None
  end.

Definition with_word (w : Z) (c : cursor) : cursor :=
  Cursor (cu_row c) w (cu_sbyte c) (cu_sbit c) (cu_rbyte c) (cu_rbit c).

(** Returns the ioctl result, [write_complete], and the cursor. *)
Fixpoint update_loop (upd : cursor → option Z) (n : nat) (i bit_count ret : Z) (c : cursor)
    : M S (Z * bool * cursor) :=
  match n with
  | O => mret (ret, false, c)
  | Datatypes.S n =>
      w ← lift_opt (upd c);
      let c := next_result (with_word w c) in
      if cu_sbit c + 1 =? 8 then
        if (cu_sbyte c + 1 =? 4) && negb (i =? bit_count - 1) then
          ret ← ioctl_write_row (cu_row c) (cu_word c);
          if ret <? 0 then mret (ret, false, c)
          else if i + 1 =? bit_count then mret (ret, true, c)
          else
            r ← ioctl_read_row (cu_row c + 1);
            if r.1 <? 0 then mret (r.1, false, c)
            else update_loop upd n (i + 1) bit_count r.1
              (Cursor (cu_row c + 1) (default (cu_word c) r.2) 0 0 (cu_rbyte c) (cu_rbit c))
        else update_loop upd n (i + 1) bit_count ret
          (Cursor (cu_row c) (cu_word c) (cu_sbyte c + 1) 0 (cu_rbyte c) (cu_rbit c))
      else update_loop upd n (i + 1) bit_count ret
        (Cursor (cu_row c) (cu_word c) (cu_sbyte c) (cu_sbit c + 1) (cu_rbyte c) (cu_rbit c))
  end.

Definition update_bits (upd : cursor → option Z) (bit_offset bit_count : Z) : M S Z :=
  r ← ioctl_read_row (bit_offset / 32);
  if r.1 <? 0 then mret WISE_ERR_IOCTL else
  l ← update_loop upd (Z.to_nat bit_count) 0 bit_count r.1 (open_cursor bit_offset (default 0 r.2));
  let ret := l.1.1 in
  let c := l.2 in
  if ret <? 0 then mret WISE_ERR_IOCTL else
  ret ← (if (l.1.2 : bool) then mret ret else ioctl_write_row (cu_row c) (cu_word c));
  mret (if ret =? 0 then WISE_OK else WISE_ERR_IOCTL).

Definition scm_efuse_write (bit_offset bit_count : Z) (val : list Z) : M S Z :=
  update_bits (write_bit val) bit_offset bit_count.

Definition scm_efuse_clr_buffer (bit_offset bit_count : Z) : M S Z :=
  r ← ioctl_get_mode;
  if (r.1 <? 0) || (r.2 =? 0) then mret WISE_ERR_INVALID_STATE
  else update_bits clear_bit bit_offset bit_count.

(** ** Modes *)

Definition status (ret : Z) : Z := if ret =? 0 then WISE_OK else WISE_ERR_IOCTL.

Definition scm_efuse_set_mode (mode : Z) : M S Z := r ← ioctl_set_mode mode; mret (status r).
Definition scm_efuse_get_mode : M S (Z * Z) := r ← ioctl_get_mode; mret (status r.1, r.2).
Definition scm_efuse_sync : M S Z := r ← ioctl_sync; mret (status r).
Definition scm_efuse_load : M S Z := r ← ioctl_load; mret (status r).

End Api.
