(* ===== verification/EfuseTheorems.v ===== *)
(** * The eFuse driver and API: theorems

    The API is verified against [RowDeviceLaws], what it needs of the device
    file; the driver discharges these laws in each of its three modes. *)

From stdpp Require Import base tactics numbers list.
From S2P Require Import Prelude Efuse EfuseApi.

(** ** What the device file promises *)

Class RowDeviceLaws {S : Type} (DEV : RowDevice S) := {
  rd_inv : S → Prop;
  rd_view : S → Z → Z;                    (* the word a row shows *)
  rd_writable : S → Z → Z → Prop;         (* can a row be made to show a word *)
  rd_range s r : rd_inv s → 0 ≤ r < 32 → 0 ≤ rd_view s r < 2 ^ 32;
  rd_read s r : rd_inv s → 0 ≤ r < 32 → ioctl_read_row r s = Ret ((0, Some (rd_view s r)), s);
  rd_read_bad s r : rd_inv s → 32 ≤ r → ioctl_read_row r s = Ret ((- EINVAL, None), s);
  rd_write s r v : rd_inv s → 0 ≤ r < 32 → 0 ≤ v < 2 ^ 32 → rd_writable s r v →
    ∃ s', ioctl_write_row r v s = Ret (0, s') ∧ rd_inv s' ∧ rd_view s' r = v ∧
      (∀ r', 0 ≤ r' < 32 → r' ≠ r → rd_view s' r' = rd_view s r') ∧
      (∀ r' v', rd_view s' r' = rd_view s r' → rd_writable s r' v' → rd_writable s' r' v');
  rd_superset s r v : rd_inv s → 0 ≤ r < 32 → 0 ≤ v < 2 ^ 32 →
    (∀ x, 0 ≤ x < 32 → Z.testbit (rd_view s r) x = true → Z.testbit v x = true) →
    rd_writable s r v;
}.

Section Api.
Context {S : Type} {DEV : RowDevice S} {LAWS : RowDeviceLaws DEV}.

(** Fuse bit [j] of the 1024. *)
Definition efbit (s : S) (j : Z) : bool := Z.testbit (rd_view s (j / 32)) (j mod 32).

(** Bit [k] of a byte buffer. *)
Definition vbit (val : list Z) (k : Z) : bool :=
  Z.testbit (default 0 (val !! Z.to_nat (k / 8))) (k mod 8).

Lemma buf_assign_spec val k b :
  0 ≤ k < 8 * Z.of_nat (length val) →
  ∃ val', buf_assign val (k / 8) (k mod 8) b = Some val' ∧ length val' = length val ∧
    ∀ j, 0 ≤ j → vbit val' j = if decide (j = k) then b else vbit val j.
Proof.
  intros Hk. unfold buf_assign.
  assert (0 ≤ k / 8 < Z.of_nat (length val)) as Hi by zlia.
  assert (0 ≤ k mod 8 < 8) by zlia.
  destruct (lookup_lt_is_Some_2 val (Z.to_nat (k / 8))) as [v Hv]; [lia|]. rewrite Hv.
  eexists; split; [done|]. rewrite length_insert. split; [done|]. intros j Hj. unfold vbit.
  assert (0 ≤ j mod 8 < 8) by zlia.
  destruct (decide (j / 8 = k / 8)) as [E|E].
  - rewrite E, list_lookup_insert_eq by (apply lookup_lt_Some in Hv; done). rewrite Hv. simpl.
    destruct (decide (j = k)) as [->|Hne].
    + destruct b; [rewrite testbit_lor_BIT|rewrite testbit_land_lnot_BIT]; try lia;
        rewrite bool_decide_true by done; by rewrite ?orb_true_r, ?andb_false_r.
    + assert (j mod 8 ≠ k mod 8) by zlia.
      destruct b; [rewrite testbit_lor_BIT|rewrite testbit_land_lnot_BIT]; try lia;
        rewrite bool_decide_false by done; by rewrite ?orb_false_r, ?andb_true_r.
  - rewrite list_lookup_insert_ne by zlia. destruct (decide (j = k)) as [->|]; [done|done].
Qed.

(** The C indices for a position. *)
Definition at_bit (c : cursor) (j k : Z) : Prop :=
  cu_row c = j / 32 ∧ cu_sbyte c = j mod 32 / 8 ∧ cu_sbit c = j mod 8 ∧
  cu_rbyte c = k / 8 ∧ cu_rbit c = k mod 8.

Lemma open_at_bit off w : 0 ≤ off → at_bit (open_cursor off w) off 0.
Proof. intros. unfold open_cursor, at_bit. simpl. split_and!; done || zlia. Qed.

Lemma word_bit_at c j k :
  at_bit c j k → 0 ≤ j →
  word_bit (cu_word c) (cu_sbyte c) (cu_sbit c) = Some (Z.testbit (cu_word c) (j mod 32)) ∧
  8 * cu_sbyte c + cu_sbit c = j mod 32.
Proof.
  intros (_&->&->&_&_) Hj. unfold word_bit.
  assert (0 ≤ j mod 32 / 8 < 4 ∧ 8 * (j mod 32 / 8) + j mod 8 = j mod 32) as [H1 ->] by zlia.
  rewrite (proj2 (Z.leb_le _ _)), (proj2 (Z.ltb_lt _ _)) by lia. done.
Qed.

Lemma next_result_at c j k :
  at_bit c j k → 0 ≤ k →
  cu_row (next_result c) = j / 32 ∧ cu_word (next_result c) = cu_word c ∧
  cu_sbyte (next_result c) = j mod 32 / 8 ∧ cu_sbit (next_result c) = j mod 8 ∧
  cu_rbyte (next_result c) = (k + 1) / 8 ∧ cu_rbit (next_result c) = (k + 1) mod 8.
Proof.
  intros (?&?&?&?&E) Hk. unfold next_result. rewrite E.
  destruct (Z.eqb_spec (k mod 8 + 1) 8); simpl; split_and!; done || zlia.
Qed.

(** What the loops do after one bit: stay in the byte, go to the next byte,
    or go to the next row, unless this was the last bit. *)
Variant advance (j : Z) : Prop :=
| adv_bit : (j mod 8 + 1 =? 8) = false → (j + 1) / 32 = j / 32 →
    (j + 1) mod 32 / 8 = j mod 32 / 8 → (j + 1) mod 8 = j mod 8 + 1 → advance j
| adv_byte : (j mod 8 + 1 =? 8) = true → (j mod 32 / 8 + 1 =? 4) = false → (j + 1) / 32 = j / 32 →
    (j + 1) mod 32 / 8 = j mod 32 / 8 + 1 → (j + 1) mod 8 = 0 → advance j
| adv_row : (j mod 8 + 1 =? 8) = true → (j mod 32 / 8 + 1 =? 4) = true → (j + 1) / 32 = j / 32 + 1 →
    (j + 1) mod 32 / 8 = 0 → (j + 1) mod 8 = 0 → j mod 32 = 31 → advance j.

Lemma advance_cases j : 0 ≤ j → advance j.
Proof.
  intros Hj. destruct (Z.eqb_spec (j mod 8 + 1) 8) as [E|E].
  - destruct (Z.eqb_spec (j mod 32 / 8 + 1) 4) as [E'|E'].
    + apply adv_row; try (by apply Z.eqb_eq); zlia.
    + apply adv_byte; [by apply Z.eqb_eq|by apply Z.eqb_neq|zlia..].
  - apply adv_bit; [by apply Z.eqb_neq|zlia..].
Qed.

(** ** Reading *)

Lemma read_loop_spec s off cnt n c val ret :
  rd_inv s → 0 ≤ off → off + cnt ≤ 1024 → Z.of_nat n ≤ cnt → ret = 0 →
  cnt ≤ 8 * Z.of_nat (length val) →
  let i := cnt - Z.of_nat n in
  ((0 < n)%nat → at_bit c (off + i) i ∧ cu_word c = rd_view s ((off + i) / 32)) →
  (∀ k, 0 ≤ k → vbit val k = if decide (k < i) then efbit s (off + k) else false) →
  ∃ val', read_loop n i cnt ret c val s = Ret ((0, val'), s) ∧ length val' = length val ∧
    ∀ k, 0 ≤ k → vbit val' k = if decide (k < cnt) then efbit s (off + k) else false.
Proof.
  intros Hs Hoff Hcnt. revert c val ret. induction n as [|n IH]; intros c val ret Hn -> Hlen i Hc Hv.
  { exists val. split_and!; [done..|]. intros k Hk. rewrite Hv by done. subst i.
    by replace (cnt - Z.of_nat 0) with cnt by lia. }
  destruct (Hc ltac:(lia)) as [Hat Hw]. clear Hc. set (j := off + i) in *.
  assert (0 ≤ i < cnt) as Hi by (subst i; lia). assert (0 ≤ j) as Hj by (subst j; lia).
  assert (cnt - Z.of_nat n = i + 1) as En by (subst i; lia).
  simpl read_loop. destruct (word_bit_at _ _ _ Hat Hj) as [-> _].
  erewrite (bind_Ret (lift_opt (Some _))) by reflexivity.
  destruct (buf_assign_spec val i (Z.testbit (cu_word c) (j mod 32))) as (val1&Ha&Hl1&Hv1); [lia|].
  pose proof Hat as (_&_&_&Erb&Erbit). rewrite Erb, Erbit, Ha.
  erewrite (bind_Ret (lift_opt (Some _))) by reflexivity. cbv zeta.
  destruct (next_result_at _ _ _ Hat ltac:(lia)) as (E1&E2&E3&E4&E5&E6).
  rewrite E1, E2, E3, E4, E5, E6.
  assert (∀ k, 0 ≤ k → vbit val1 k = if decide (k < i + 1) then efbit s (off + k) else false) as Hv1'.
  { intros k Hk. rewrite Hv1, Hv by done. destruct (decide (k = i)) as [->|].
    - rewrite decide_True by lia. unfold efbit. fold j. by rewrite <-Hw.
    - destruct (decide (k < i)), (decide (k < i + 1)); done || lia. }
  assert (j + 1 = off + (i + 1)) as Ej by (subst j; lia).
  rewrite <-Hl1 in *. rewrite En in IH.
  destruct (advance_cases j Hj) as [-> Ra Rb Rc| -> -> Ra Rb Rc| -> -> Ra Rb Rc Rd]; cbn [andb].
  - apply (IH _ val1 0); try done; try lia. intros _. rewrite <-Ej. unfold at_bit. simpl.
    by rewrite Ra, Rb, Rc.
  - apply (IH _ val1 0); try done; try lia. intros _. rewrite <-Ej. unfold at_bit. simpl.
    by rewrite Ra, Rb, Rc.
  - destruct (Z.eqb_spec i (cnt - 1)) as [El|El]; cbn [negb].
    + apply (IH _ val1 0); try done; try lia. 
    + assert (0 ≤ j / 32 + 1 < 32) by (subst j; zlia).
      erewrite bind_Ret by (by apply rd_read). cbn [fst snd]. change (0 <? 0) with false. cbv iota.
      apply (IH _ val1 0); try done; try lia. intros _. rewrite <-Ej. unfold at_bit. simpl.
      by rewrite Ra, Rb, Rc.
Qed.

(** ** Writing and clearing

    [T k b] is what the bit for position [k] of the request becomes when it
    was [b]; [upd] is the loop body that does this to the word at the cursor. *)

Section Update.
Context (upd : cursor → option Z) (T : Z → bool → bool).
Context (s0 : S) (off cnt : Z).
Context (Hs0 : rd_inv s0) (Hoff : 0 ≤ off) (Hcnt : off + cnt ≤ 1024) (Hcnt0 : 0 ≤ cnt).

(** The body, at a valid position. *)
Context (upd_ok : ∀ c j k, at_bit c j k → 0 ≤ j → 0 ≤ k < cnt → 0 ≤ cu_word c < 2 ^ 32 →
  ∃ w, upd c = Some w ∧ 0 ≤ w < 2 ^ 32 ∧ ∀ x, 0 ≤ x < 32 →
    Z.testbit w x = if decide (x = j mod 32) then T k (Z.testbit (cu_word c) x) else Z.testbit (cu_word c) x).

(** Either bits are only ever set, or every word can be written. *)
Context (permitted : (∀ k b, b = true → T k b = true) ∨ (∀ s r v, rd_inv s → rd_writable s r v)).

(** Fuse bit [j] once the first [i] bits of the request are done. *)
Definition target (i j : Z) : bool :=
  if decide (off ≤ j < off + i) then T (j - off) (efbit s0 j) else efbit s0 j.

Definition word_is (i r w : Z) : Prop :=
  0 ≤ w < 2 ^ 32 ∧ ∀ x, 0 ≤ x < 32 → Z.testbit w x = target i (32 * r + x).

Lemma efbit_row s r x : 0 ≤ x < 32 → efbit s (32 * r + x) = Z.testbit (rd_view s r) x.
Proof.
  intros Hx. unfold efbit. replace ((32 * r + x) / 32) with r by zlia.
  by replace ((32 * r + x) mod 32) with x by zlia.
Qed.

Lemma target_same i i' r x :
  0 ≤ x < 32 → 32 * (r + 1) ≤ off + i → 32 * (r + 1) ≤ off + i' →
  target i (32 * r + x) = target i' (32 * r + x).
Proof.
  intros. unfold target. destruct (decide (off ≤ 32 * r + x < off + i)),
    (decide (off ≤ 32 * r + x < off + i')); done || lia.
Qed.

(** Rows in front of [row] are done, the others untouched. *)
Definition rows_done (row : Z) (s : S) : Prop :=
  rd_inv s ∧ (∀ r, 0 ≤ r < row → r < 32 → word_is cnt r (rd_view s r)) ∧
  (∀ r, row ≤ r < 32 → rd_view s r = rd_view s0 r).

Lemma write_done s row w i :
  rows_done row s → 0 ≤ row < 32 → word_is i row w →
  (∀ x, 0 ≤ x < 32 → target i (32 * row + x) = target cnt (32 * row + x)) →
  ∃ s', ioctl_write_row row w s = Ret (0, s') ∧ rows_done (row + 1) s'.
Proof.
  intros (Hs&Hd&Hu) Hrow [Hw Hwx] Ht.
  assert (rd_writable s row w) as Hwr.
  { destruct permitted as [Hm|Ha]; [|by apply Ha]. apply rd_superset; try done.
    intros x Hx Hb. rewrite Hwx by done. rewrite Hu in Hb by lia.
    unfold target. rewrite efbit_row by done. rewrite Hb. destruct (decide _); [by apply Hm|done]. }
  destruct (rd_write s row w Hs Hrow Hw Hwr) as (s'&Hrun&Hs'&Hv&Hv'&_).
  exists s'. split; [done|]. split_and!; [done| |].
  - intros r Hr Hr32. destruct (decide (r = row)) as [->|].
    + rewrite Hv. split; [done|]. intros x Hx. by rewrite Hwx, Ht.
    + rewrite Hv' by lia. apply Hd; lia.
  - intros r Hr. rewrite Hv' by lia. apply Hu. lia.
Qed.

Lemma word_is_step c w i :
  0 ≤ i < cnt → at_bit c (off + i) i → word_is i (cu_row c) (cu_word c) → 0 ≤ w < 2 ^ 32 →
  (∀ x, 0 ≤ x < 32 → Z.testbit w x =
    if decide (x = (off + i) mod 32) then T i (Z.testbit (cu_word c) x) else Z.testbit (cu_word c) x) →
  word_is (i + 1) ((off + i) / 32) w.
Proof.
  intros Hi (Er&_) [_ Hcw] Hw Hx. split; [done|]. intros x Hxr. rewrite Hx, Hcw, Er by done.
  unfold target. destruct (decide (x = (off + i) mod 32)) as [->|Hne].
  - replace (32 * ((off + i) / 32) + (off + i) mod 32) with (off + i) by zlia.
    rewrite decide_False, decide_True by lia. by replace (off + i - off) with i by lia.
  - assert (32 * ((off + i) / 32) + x ≠ off + i) by zlia.
    destruct (decide (off ≤ 32 * ((off + i) / 32) + x < off + i)),
      (decide (off ≤ 32 * ((off + i) / 32) + x < off + (i + 1))); done || lia.
Qed.

Lemma update_loop_spec s n c ret :
  Z.of_nat n ≤ cnt → ret = 0 →
  let i := cnt - Z.of_nat n in
  rows_done (cu_row c) s → 0 ≤ cu_row c < 32 → word_is i (cu_row c) (cu_word c) →
  ((0 < n)%nat → at_bit c (off + i) i) → (n = 0%nat → off + cnt ≤ 32 * (cu_row c + 1)) →
  ∃ s' c', update_loop upd n i cnt ret c s = Ret ((0, false, c'), s') ∧
    rows_done (cu_row c') s' ∧ 0 ≤ cu_row c' < 32 ∧ word_is cnt (cu_row c') (cu_word c') ∧
    off + cnt ≤ 32 * (cu_row c' + 1).
Proof.
  revert s c ret. induction n as [|n IH]; intros s c ret Hn -> i Hd Hrow Hw Hc Hend.
  { exists s, c. subst i. replace (cnt - Z.of_nat 0) with cnt in * by lia.
    split; [done|]. split_and!; try done; try lia. }
  specialize (Hc ltac:(lia)). clear Hend. set (j := off + i) in *.
  assert (0 ≤ i < cnt) as Hi by (subst i; lia). assert (0 ≤ j) as Hj by (subst j; lia).
  assert (cnt - Z.of_nat n = i + 1) as En by (subst i; lia).
  destruct (upd_ok c j i Hc Hj Hi (proj1 Hw)) as (w&Hupd&Hwr&Hwx).
  pose proof (word_is_step c w i Hi Hc Hw Hwr Hwx) as Hw'. fold j in Hw'.
  simpl update_loop. rewrite Hupd. erewrite (bind_Ret (lift_opt (Some _))) by reflexivity. cbv zeta.
  pose proof Hc as (Er&_). rewrite Er in Hd, Hrow.
  assert (at_bit (with_word w c) j i) as Hc' by exact Hc.
  destruct (next_result_at _ _ _ Hc' ltac:(lia)) as (E1&E2&E3&E4&E5&E6).
  rewrite E1, E2, E3, E4, E5, E6. cbn [with_word cu_word].
  assert (j + 1 = off + (i + 1)) as Ej by (subst j; lia). rewrite En in IH.
  assert (off + (i + 1) ≤ 32 * (j / 32 + 1)) by zlia.
  destruct (advance_cases j Hj) as [-> Ra Rb Rc| -> -> Ra Rb Rc| -> -> Ra Rb Rc Rd]; cbn [andb].
  - apply (IH s _ 0); simpl; try done; try lia. intros _. rewrite <-Ej. unfold at_bit. simpl.
    by rewrite Ra, Rb, Rc.
  - apply (IH s _ 0); simpl; try done; try lia. intros _. rewrite <-Ej. unfold at_bit. simpl.
    by rewrite Ra, Rb, Rc.
  - destruct (Z.eqb_spec i (cnt - 1)) as [El|El]; cbn [negb].
    { apply (IH s _ 0); simpl; try done; try lia. }
    destruct (write_done s (j / 32) w (i + 1) Hd Hrow Hw') as (s1&Hrun&Hd1).
    { intros x Hx. apply target_same; [done|zlia|zlia]. }
    erewrite bind_Ret by exact Hrun. change (0 <? 0) with false. cbv iota.
    rewrite (proj2 (Z.eqb_neq (i + 1) cnt)) by lia.
    assert (0 ≤ j / 32 + 1 < 32) by (subst j; zlia). pose proof Hd1 as (Hs1&_&Hu1).
    erewrite bind_Ret by (by apply rd_read). cbn [fst snd]. change (0 <? 0) with false. cbv iota.
    apply (IH s1 _ 0); simpl; try done; try lia.
    + split; [by apply rd_range|]. intros x Hx. rewrite Hu1 by lia.
      unfold target. rewrite decide_False by zlia. by rewrite efbit_row.
    + intros _. rewrite <-Ej. unfold at_bit. simpl. by rewrite Ra, Rb, Rc.
Qed.

Lemma update_bits_spec :
  off < 1024 →
  ∃ s', update_bits upd off cnt s0 = Ret (WISE_OK, s') ∧ rd_inv s' ∧
    ∀ j, 0 ≤ j < 1024 → efbit s' j = target cnt j.
Proof.
  intros Hoff'. unfold update_bits. assert (0 ≤ off / 32 < 32) by zlia.
  erewrite bind_Ret by (by apply rd_read). cbn [fst snd default]. change (0 <? 0) with false. cbv iota.
  destruct (update_loop_spec s0 (Z.to_nat cnt) (open_cursor off (rd_view s0 (off / 32))) 0)
    as (s1&c1&Hrun&Hd1&Hrow&Hw1&Hend); simpl; try done; try lia.
  - split_and!; try done. intros r Hr Hr32. split; [apply rd_range; [done|lia]|]. intros x Hx.
    unfold target. rewrite decide_False by zlia. by rewrite efbit_row.
  - split; [by apply rd_range|]. intros x Hx. rewrite <-efbit_row by done.
    unfold target. rewrite decide_False by lia. done.
  - intros _. replace (cnt - Z.of_nat (Z.to_nat cnt)) with 0 by lia. rewrite Z.add_0_r.
    by apply open_at_bit.
  - intros E. zlia.
  - replace (cnt - Z.of_nat (Z.to_nat cnt)) with 0 in Hrun by lia.
    erewrite bind_Ret by exact Hrun. cbn [fst snd]. cbv zeta. change (0 <? 0) with false. cbv iota.
    destruct (write_done s1 _ _ cnt Hd1 Hrow Hw1) as (s2&Hrun2&Hs2&Hd2&Hu2); [done|].
    erewrite bind_Ret by exact Hrun2. exists s2. split_and!; [done..|].
    intros j Hj. assert (∃ r x, j = 32 * r + x ∧ 0 ≤ x < 32 ∧ 0 ≤ r < 32) as (r&x&->&Hx&Hr).
    { exists (j / 32), (j mod 32). split_and!; zlia. }
    rewrite efbit_row by done. destruct (Z.lt_ge_cases r (cu_row c1 + 1)).
    + destruct (Hd2 r) as [_ Hd]; [lia|lia|]. by apply Hd.
    + rewrite Hu2 by lia. unfold target. rewrite decide_False by lia. by rewrite efbit_row.
Qed.

End Update.

Lemma write_bit_ok val cnt c j k :
  cnt ≤ 8 * Z.of_nat (length val) → at_bit c j k → 0 ≤ j → 0 ≤ k < cnt → 0 ≤ cu_word c < 2 ^ 32 →
  ∃ w, write_bit val c = Some w ∧ 0 ≤ w < 2 ^ 32 ∧ ∀ x, 0 ≤ x < 32 →
    Z.testbit w x = if decide (x = j mod 32) then Z.testbit (cu_word c) x || vbit val k
                    else Z.testbit (cu_word c) x.
Proof.
  intros Hlen Hat Hj Hk Hw. destruct (word_bit_at _ _ _ Hat Hj) as [Hwb Hpos].
  pose proof Hat as (_&_&_&Erb&Erbit). unfold write_bit. rewrite Hwb, Hpos. unfold buf_bit.
  assert (0 ≤ k / 8 < Z.of_nat (length val)) by zlia.
  destruct (lookup_lt_is_Some_2 val (Z.to_nat (k / 8))) as [b Hb]; [lia|].
  assert (vbit val k = Z.testbit b (k mod 8)) as Ev by (unfold vbit; by rewrite Hb).
  assert (0 ≤ j mod 32 < 32) by zlia.
  rewrite Erb, Erbit, Hb, <-Ev. destruct (vbit val k).
  - eexists; split; [done|]. split; [apply lor_range; [lia|done|by apply BIT_range]|].
    intros x Hx. rewrite testbit_lor_BIT by lia. destruct (decide (x = j mod 32)).
    + by rewrite bool_decide_true.
    + by rewrite bool_decide_false, orb_false_r.
  - eexists; split; [done|]. split; [done|]. intros x Hx. rewrite orb_false_r.
    by destruct (decide _).
Qed.

Lemma clear_bit_ok cnt c j k :
  at_bit c j k → 0 ≤ j → 0 ≤ k < cnt → 0 ≤ cu_word c < 2 ^ 32 →
  ∃ w, clear_bit c = Some w ∧ 0 ≤ w < 2 ^ 32 ∧ ∀ x, 0 ≤ x < 32 →
    Z.testbit w x = if decide (x = j mod 32) then false else Z.testbit (cu_word c) x.
Proof.
  intros Hat Hj Hk Hw. destruct (word_bit_at _ _ _ Hat Hj) as [Hwb Hpos].
  assert (0 ≤ j mod 32 < 32) by zlia.
  unfold clear_bit. rewrite Hwb, Hpos. eexists; split; [done|].
  split; [by apply land_range_l|]. intros x Hx. rewrite testbit_land_lnot_BIT by lia.
  destruct (decide (x = j mod 32)).
  - by rewrite bool_decide_true, andb_false_r.
  - by rewrite bool_decide_false, andb_true_r.
Qed.

Lemma read_bits_spec s off cnt :
  rd_inv s → 0 ≤ off < 1024 → 0 ≤ cnt → off + cnt ≤ 1024 →
  ∃ val, scm_efuse_read off cnt s = Ret ((WISE_OK, val), s) ∧
    Z.of_nat (length val) = (cnt + 7) / 8 ∧
    ∀ k, 0 ≤ k → vbit val k = if decide (k < cnt) then efbit s (off + k) else false.
Proof.
  intros Hs Hoff Hcnt0 Hcnt. unfold scm_efuse_read. cbv zeta.
  assert (0 ≤ off / 32 < 32) by zlia.
  erewrite bind_Ret by (by apply rd_read). cbn [fst snd default]. change (0 <? 0) with false. cbv iota.
  assert (0 ≤ (cnt + 7) / 8) by zlia.
  destruct (read_loop_spec s off cnt (Z.to_nat cnt) (open_cursor off (rd_view s (off / 32)))
    (replicate (Z.to_nat ((cnt + 7) / 8)) 0) 0) as (val&Hrun&Hl&Hv); try done; try lia.
  - rewrite length_replicate. zlia.
  - intros _. replace (cnt - Z.of_nat (Z.to_nat cnt)) with 0 by lia. rewrite Z.add_0_r.
    split; [apply open_at_bit; lia|done].
  - intros k Hk. rewrite decide_False by lia. unfold vbit.
    destruct (replicate _ 0 !! _) as [b|] eqn:E; [|apply Z.bits_0].
    apply lookup_replicate in E as [-> _]. apply Z.bits_0.
  - replace (cnt - Z.of_nat (Z.to_nat cnt)) with 0 in Hrun by lia.
    erewrite bind_Ret by exact Hrun. exists val. split_and!; [done| |done].
    rewrite Hl, length_replicate. lia.
Qed.

Lemma write_bits_spec s off cnt val :
  rd_inv s → 0 ≤ off < 1024 → 0 ≤ cnt → off + cnt ≤ 1024 → cnt ≤ 8 * Z.of_nat (length val) →
  ∃ s', scm_efuse_write off cnt val s = Ret (WISE_OK, s') ∧ rd_inv s' ∧
    ∀ j, 0 ≤ j < 1024 →
      efbit s' j = if decide (off ≤ j < off + cnt) then efbit s j || vbit val (j - off) else efbit s j.
Proof.
  intros Hs Hoff Hcnt0 Hcnt Hlen.
  apply (update_bits_spec (write_bit val) (λ k b, b || vbit val k)); try done; try lia.
  - intros c j k ????. by apply (write_bit_ok val cnt).
  - left. by intros k b ->.
Qed.

Lemma clr_buffer_spec s off cnt :
  rd_inv s → (∀ s r v, rd_inv s → rd_writable s r v) → 0 ≤ off < 1024 → 0 ≤ cnt → off + cnt ≤ 1024 →
  ∃ s', update_bits clear_bit off cnt s = Ret (WISE_OK, s') ∧ rd_inv s' ∧
    ∀ j, 0 ≤ j < 1024 → efbit s' j = if decide (off ≤ j < off + cnt) then false else efbit s j.
Proof.
  intros Hs Hw Hoff Hcnt0 Hcnt.
  apply (update_bits_spec clear_bit (λ _ _, false)); try done; try lia; [|by right].
  intros c j k ????. by apply (clear_bit_ok cnt _ _ k).
Qed.

(** C15: [scm_efuse_read] returns exactly the requested fuse bits, packed from
    bit 0 of the first byte on, the rest of the last byte zero, for every
    range inside the 1024 fuses, and changes nothing. *)
Theorem efuse_read_correct s off cnt :
  rd_inv s → 0 ≤ off < 1024 → 0 ≤ cnt → off + cnt ≤ 1024 →
  ∃ val, scm_efuse_read off cnt s = Ret ((WISE_OK, val), s) ∧
    Z.of_nat (length val) = (cnt + 7) / 8 ∧
    ∀ k, 0 ≤ k → vbit val k = if decide (k < cnt) then efbit s (off + k) else false.
Proof. apply read_bits_spec. Qed.

(** C16: [scm_efuse_write] sets, of the requested range, exactly the bits that
    are set in the caller's buffer, and leaves every other fuse bit as it was;
    in particular it never clears a fuse. *)
Theorem efuse_write_correct s off cnt val :
  rd_inv s → 0 ≤ off < 1024 → 0 ≤ cnt → off + cnt ≤ 1024 → cnt ≤ 8 * Z.of_nat (length val) →
  ∃ s', scm_efuse_write off cnt val s = Ret (WISE_OK, s') ∧ rd_inv s' ∧
    ∀ j, 0 ≤ j < 1024 →
      efbit s' j = if decide (off ≤ j < off + cnt) then efbit s j || vbit val (j - off) else efbit s j.
Proof. apply write_bits_spec. Qed.

(** What was written is read back: reading a range just after writing it
    gives every bit that was set before or in the written buffer. *)
Theorem efuse_write_read_roundtrip s off cnt val :
  rd_inv s → 0 ≤ off < 1024 → 0 ≤ cnt → off + cnt ≤ 1024 → cnt ≤ 8 * Z.of_nat (length val) →
  ∃ s' val', (scm_efuse_write off cnt val;; scm_efuse_read off cnt) s = Ret ((WISE_OK, val'), s') ∧
    ∀ k, 0 ≤ k < cnt → vbit val' k = efbit s (off + k) || vbit val k.
Proof.
  intros Hs Hoff Hcnt0 Hcnt Hlen.
  destruct (write_bits_spec s off cnt val) as (s1&Hrun&Hs1&Hb); [done..|].
  destruct (read_bits_spec s1 off cnt) as (val'&Hrun'&_&Hv); [done..|].
  exists s1, val'. erewrite bind_Ret by exact Hrun. split; [done|].
  intros k Hk. rewrite Hv, decide_True by lia. rewrite Hb, decide_True by lia.
  by replace (off + k - off) with k by lia.
Qed.

End Api.

(** ** The driver implements the device file *)

Section Driver.
Context {CFG : EfuseConfig} {HW : FuseHw} {HWL : FuseHwLaws} {FL : FlashHw} {FLL : FlashHwLaws}.
Context (rows : NUM_ROW = 32%nat).

#[local] Instance driver_device : RowDevice efuse := {|
  ioctl_read_row row := scm2010_efuse_ioctl (IOCTL_EFUSE_READ_ROW row);
  ioctl_write_row row v := r ← scm2010_efuse_ioctl (IOCTL_EFUSE_WRITE_ROW row v); mret r.1;
  ioctl_get_mode := r ← scm2010_efuse_ioctl IOCTL_EFUSE_GET_MODE; mret (r.1, default 0 r.2);
  ioctl_set_mode m := r ← scm2010_efuse_ioctl (IOCTL_EFUSE_SET_MODE m); mret r.1;
  ioctl_sync := r ← scm2010_efuse_ioctl IOCTL_EFUSE_SYNC; mret r.1;
  ioctl_load := r ← scm2010_efuse_ioctl IOCTL_EFUSE_LOAD; mret r.1;
|}.

(** *** Raw access *)

Lemma program_address i row :
  0 ≤ i < 32 → 0 ≤ row < 32 →
  Z.land (Z.lor (Z.shiftl i 5) row) 31 = row ∧
  Z.land (Z.shiftr (Z.lor (Z.shiftl i 5) row) 5) 31 = i.
Proof.
  intros Hi Hr. rewrite lor_shiftl_add by lia. change (2 ^ 5) with 32.
  rewrite Z.shiftr_div_pow2 by lia. rewrite !(land_mask _ 5 : _ → Z.land _ 31 = _) by lia.
  change (2 ^ 5) with 32. split; zlia.
Qed.

(** What the loop body does to the fuses for bit [i]. *)
Lemma write_raw_bit i val old row e :
  0 ≤ i < 32 → 0 ≤ row < 32 → 0 ≤ val →
  ∃ f, (if negb (Z.land (Z.shiftr val i) 1 =? 0) && (Z.shiftr (Z.land old (BIT i)) i =? 0)
        then modify (λ e, set_fuses (fuse_program (ef_fuses e) (Z.lor (Z.shiftl i 5) row)) e)
        else mret ()) e = Ret ((), set_fuses f e) ∧
    (∀ r, 0 ≤ r < 32 → r ≠ row → fuse_row f r = fuse_row (ef_fuses e) r) ∧
    ∀ x, 0 ≤ x < 32 → Z.testbit (fuse_row f row) x =
      Z.testbit (fuse_row (ef_fuses e) row) x ||
      (bool_decide (x = i) && Z.testbit val x && negb (Z.testbit old x)).
Proof.
  intros Hi Hrow Hval.
  assert (Z.land (Z.shiftr val i) 1 = if Z.testbit val i then 1 else 0) as ->.
  { change 1 with (BIT 0). rewrite land_BIT, Z.shiftr_spec, Z.add_0_l by lia. done. }
  assert ((Z.shiftr (Z.land old (BIT i)) i =? 0) = negb (Z.testbit old i)) as ->.
  { rewrite land_BIT by lia. destruct (Z.testbit old i).
    - unfold BIT. rewrite Z.shiftr_shiftl_l, Z.sub_diag by lia. done.
    - by rewrite Z.shiftr_0_l. }
  destruct (Z.testbit val i) eqn:Ev, (Z.testbit old i) eqn:Eo; simpl.
  2:{ eexists; split; [done|]. destruct (program_address i row) as [Ea Eb]; [done..|]. split.
      - intros r Hr Hne. by rewrite fuse_program_row, Ea, (proj2 (Z.eqb_neq _ _)).
      - intros x Hx. rewrite fuse_program_row, Ea, Eb, Z.eqb_refl, testbit_lor_BIT by lia.
        destruct (decide (x = i)) as [->|]; [by rewrite !bool_decide_true, Ev, Eo|].
        by rewrite !bool_decide_false by done. }
  all: exists (ef_fuses e); split; [by destruct e|]; split; [done|]; intros x Hx;
    destruct (decide (x = i)) as [->|]; [rewrite !bool_decide_true, Ev, Eo by done
      |rewrite bool_decide_false by done]; simpl; by rewrite orb_false_r.
Qed.

Lemma write_raw_loop_spec n i val old row e :
  i + Z.of_nat n = 32 → 0 ≤ i → 0 ≤ row < 32 → 0 ≤ val →
  ∃ f, write_raw_loop n i (Z.shiftr val i) old row e = Ret ((), set_fuses f e) ∧
    (∀ r, 0 ≤ r < 32 → r ≠ row → fuse_row f r = fuse_row (ef_fuses e) r) ∧
    ∀ x, 0 ≤ x < 32 → Z.testbit (fuse_row f row) x =
      Z.testbit (fuse_row (ef_fuses e) row) x ||
      (bool_decide (i ≤ x) && Z.testbit val x && negb (Z.testbit old x)).
Proof.
  revert i e. induction n as [|n IH]; intros i e Hn Hi Hrow Hval; simpl.
  { exists (ef_fuses e). split; [by destruct e|]. split; [done|]. intros x Hx.
    rewrite bool_decide_false by lia. by rewrite orb_false_r. }
  destruct (write_raw_bit i val old row e) as (f1&Hrun1&Hr1&Hx1); [lia..|].
  erewrite bind_Ret by exact Hrun1. rewrite Z.shiftr_shiftr by lia.
  destruct (IH (i + 1) (set_fuses f1 e)) as (f&Hrun&Hr&Hx); try lia.
  exists f. split; [done|]. split.
  - intros r ??. by rewrite Hr, <-Hr1.
  - intros x Hx'. rewrite Hx by done. simpl. rewrite Hx1 by done.
    assert (bool_decide (i ≤ x) = bool_decide (x = i) || bool_decide (i + 1 ≤ x)) as ->.
    { repeat case_bool_decide; done || lia. }
    by destruct (Z.testbit (fuse_row (ef_fuses e) row) x), (bool_decide (x = i)),
      (bool_decide (i + 1 ≤ x)), (Z.testbit val x), (Z.testbit old x).
Qed.

Lemma efuse_write_raw_spec row val e :
  0 ≤ row < 32 → 0 ≤ val < 2 ^ 32 →
  ∃ f, efuse_write_raw row val e = Ret ((), set_fuses f e) ∧
    fuse_row f row = Z.lor (fuse_row (ef_fuses e) row) val ∧
    ∀ r, 0 ≤ r < 32 → r ≠ row → fuse_row f r = fuse_row (ef_fuses e) r.
Proof.
  intros Hrow Hval. unfold efuse_write_raw. mstep.
  rewrite (land_mask row 5 : _ → Z.land row 31 = _) by lia.
  change (2 ^ 5) with 32. rewrite Z.mod_small by lia.
  destruct (write_raw_loop_spec 32 0 val (fuse_row (ef_fuses e) row) row e) as (f&Hrun&Hr&Hx); try lia.
  rewrite Z.shiftr_0_r in Hrun. exists f. split_and!; [done| |done].
  apply (word_eq _ _ 32); [lia|apply fuse_row_range|apply lor_range; [lia|apply fuse_row_range|done]|].
  intros x Hxr. rewrite Hx, Z.lor_spec by done. rewrite bool_decide_true by lia.
  destruct (Z.testbit (fuse_row (ef_fuses e) row) x), (Z.testbit val x); done.
Qed.

(** *** The buffers *)

Definition words_ok (l : list Z) : Prop := Forall (λ w, 0 ≤ w < 2 ^ 32) l.

(** The driver is in mode [m] and its RAM buffer has one word per row. *)
Definition driver_inv (m : Z) (e : efuse) : Prop :=
  ef_mode e = m ∧ length (ram_buf e) = 32%nat ∧ words_ok (ram_buf e).

Definition flash_words (e : efuse) : list Z := flash_read (ef_flash e) FLASH_BUFFER_ADDR FLASH_BUFFER_WORDS.

Definition driver_view (m : Z) (e : efuse) (r : Z) : Z :=
  if m =? EFUSE_MODE_RAW then fuse_row (ef_fuses e) r
  else if m =? EFUSE_MODE_RAM_BUFFER then default 0 (ram_buf e !! Z.to_nat r)
  else default 0 (flash_words e !! Z.to_nat r).

Definition driver_writable (m : Z) (e : efuse) (r v : Z) : Prop :=
  m = EFUSE_MODE_RAW → Z.lor (fuse_row (ef_fuses e) r) v = v.

Lemma index_row r l : 0 ≤ r < 32 → (32 ≤ length l)%nat →
  ∃ w, index r l = Some w ∧ l !! Z.to_nat r = Some w.
Proof.
  intros Hr Hl. unfold index. rewrite (proj2 (Z.ltb_ge _ _)) by lia.
  destruct (lookup_lt_is_Some_2 l (Z.to_nat r)) as [w Hw]; [lia|]. eauto.
Qed.

Lemma flash_words_length e : length (flash_words e) = 34%nat.
Proof. unfold flash_words. rewrite flash_read_length. unfold FLASH_BUFFER_WORDS. by rewrite rows. Qed.

Lemma flash_words_ok e : words_ok (flash_words e).
Proof. apply Forall_lookup. intros i w Hw. by eapply flash_read_range. Qed.

Lemma default_lookup_insert l i j v : (i < length l)%nat →
  default 0 (<[i := v]> l !! j) = if decide (j = i) then v else default 0 (l !! j).
Proof.
  intros Hi. destruct (decide (j = i)) as [->|].
  - by rewrite list_lookup_insert_eq.
  - by rewrite list_lookup_insert_ne by done.
Qed.

(** Erasing and rewriting the flash buffer stores [flash_buf]. *)
Lemma flash_write_spec e :
  length (flash_buf e) = 34%nat → words_ok (flash_buf e) →
  ∃ f, efuse_flash_write e = Ret ((), set_flash f e) ∧ flash_words (set_flash f e) = flash_buf e.
Proof.
  intros Hl Hw. eexists; split; [done|]. unfold flash_words, FLASH_BUFFER_WORDS. simpl.
  rewrite rows. pose proof (flash_rewrite (ef_flash e) FLASH_BUFFER_ADDR (flash_buf e) Hw) as E.
  by rewrite Hl in E.
Qed.

Lemma driver_read m e r :
  m = 0 ∨ m = 1 ∨ m = 2 → driver_inv m e → 0 ≤ r < 32 →
  scm2010_efuse_read r e = Ret ((0, Some (driver_view m e r)), e).
Proof.
  intros Hm (Em&Hl&Hw) Hr. unfold scm2010_efuse_read, driver_view.
  rewrite (proj2 (geb_false _ _)) by (unfold SCM2010_EFUSE_ROW_MAX; lia). mstep. rewrite Em.
  destruct Hm as [->|[->| ->]]; simpl.
  - mstep. rewrite (land_mask r 5 : _ → Z.land r 31 = _), Z.mod_small; [done|lia|lia].
  - destruct (index_row r (ram_buf e) Hr) as (w&Hi&Hw'); [lia|].
    erewrite bind_Ret by (unfold ram_get; by rewrite Hi). by rewrite Hw'.
  - destruct (index_row r (flash_words e) Hr) as (w&_&Hw'); [rewrite flash_words_length; lia|].
    rewrite Hw'. apply flash_mapped_read in Hw'. rewrite Z2Nat.id in Hw' by lia. by rewrite Hw'.
Qed.

Lemma driver_write m e r v :
  m = 0 ∨ m = 1 ∨ m = 2 → driver_inv m e → 0 ≤ r < 32 → 0 ≤ v < 2 ^ 32 → driver_writable m e r v →
  ∃ e', scm2010_efuse_write r v e = Ret (0, e') ∧ driver_inv m e' ∧ driver_view m e' r = v ∧
    ∀ r', 0 ≤ r' < 32 → r' ≠ r → driver_view m e' r' = driver_view m e r'.
Proof.
  intros Hm (Em&Hl&Hw) Hr Hv Hwr. unfold scm2010_efuse_write, driver_view.
  rewrite (proj2 (geb_false _ _)) by (unfold SCM2010_EFUSE_ROW_MAX; lia). mstep. rewrite Em.
  destruct Hm as [->|[->| ->]]; simpl.
  - destruct (efuse_write_raw_spec r v e Hr Hv) as (f&Hrun&Hrow&Hoth).
    erewrite bind_Ret by exact Hrun. eexists; split; [done|]. split; [done|]. simpl.
    split; [|done]. rewrite Hrow. by apply Hwr.
  - destruct (index_row r (ram_buf e) Hr) as (w&Hi&Hw'); [lia|].
    erewrite bind_Ret by (unfold ram_put; by rewrite Hi). eexists; split; [done|]. unfold driver_inv. simpl.
    split_and!; [done|by rewrite length_insert|by apply Forall_insert| |].
    + rewrite default_lookup_insert by lia. by rewrite decide_True.
    + intros r' ??. rewrite default_lookup_insert by lia. by rewrite decide_False by lia.
  - unfold efuse_flash_read. mstep. fold (flash_words e).
    destruct (index_row r (flash_words e) Hr) as (w&Hi&Hw'); [rewrite flash_words_length; lia|].
    erewrite bind_Ret by (unfold fbuf_put; simpl; by rewrite Hi).
    set (e1 := set_fbuf _ (set_fbuf _ e)).
    assert (flash_buf e1 = <[Z.to_nat r := v]> (flash_words e)) as Eb by done.
    destruct (flash_write_spec e1) as (f&Hrun&Hf).
    { rewrite Eb, length_insert. apply flash_words_length. }
    { rewrite Eb. apply Forall_insert; [apply flash_words_ok|done]. }
    erewrite bind_Ret by exact Hrun. eexists; split; [done|]. split; [done|].
    rewrite Hf, Eb. split.
    + rewrite default_lookup_insert by (rewrite flash_words_length; lia). by rewrite decide_True.
    + intros r' ??. rewrite default_lookup_insert by (rewrite flash_words_length; lia).
      by rewrite decide_False by lia.
Qed.

Lemma driver_view_range m e r : driver_inv m e → 0 ≤ r < 32 → 0 ≤ driver_view m e r < 2 ^ 32.
Proof.
  intros (_&Hl&Hw) Hr. unfold driver_view. destruct (m =? _); [apply fuse_row_range|].
  destruct (m =? _).
  - destruct (index_row r (ram_buf e) Hr) as (w&_&E); [lia|]. rewrite E. exact (Forall_lookup_1 _ _ _ _ Hw E).
  - destruct (index_row r (flash_words e) Hr) as (w&_&E); [rewrite flash_words_length; lia|].
    rewrite E. exact (Forall_lookup_1 _ _ _ _ (flash_words_ok e) E).
Qed.

Lemma lor_superset x v n : 0 ≤ n → 0 ≤ x < 2 ^ n → 0 ≤ v < 2 ^ n →
  (∀ i, 0 ≤ i < n → Z.testbit x i = true → Z.testbit v i = true) → Z.lor x v = v.
Proof.
  intros Hn Hx Hv Hs. apply (word_eq _ _ n); [done|by apply lor_range|done|].
  intros i Hi. rewrite Z.lor_spec. specialize (Hs i Hi).
  destruct (Z.testbit x i); [by rewrite Hs|done].
Qed.

(** In each mode the driver keeps the promises of the device file. *)
#[refine] Instance driver_laws (m : Z) (Hm : m = 0 ∨ m = 1 ∨ m = 2) : RowDeviceLaws driver_device := {|
  rd_inv := driver_inv m;
  rd_view := driver_view m;
  rd_writable := driver_writable m;
|}.
Proof.
  - apply driver_view_range.
  - intros s r Hs Hr. by apply driver_read.
  - intros s r Hs Hr. simpl. unfold scm2010_efuse_read.
    rewrite (proj2 (Z.geb_le _ _)); [done|]. unfold SCM2010_EFUSE_ROW_MAX. lia.
  - intros s r v Hs Hr Hv Hwr. destruct (driver_write m s r v Hm Hs Hr Hv Hwr) as (s'&Hrun&?&?&?).
    exists s'. split_and!; try done.
    + simpl. erewrite bind_Ret; [|by erewrite bind_Ret by exact Hrun]. done.
    + intros r' v' E Hw ->. specialize (Hw eq_refl). unfold driver_view in E. simpl in E. by rewrite E.
  - intros s r v Hs Hr Hv Hx ->. apply (lor_superset _ _ 32); [lia|apply fuse_row_range|done|].
    exact Hx.
Defined.

(** *** Synchronising the fuses with a buffer *)

Lemma sync_loop_spec m n i e :
  m = 1 ∨ m = 2 → driver_inv m e → i + Z.of_nat n = 32 → 0 ≤ i →
  ∃ f, sync_loop n i e = Ret ((), set_fuses f e) ∧
    ∀ r, 0 ≤ r < 32 → fuse_row f r =
      if decide (i ≤ r) then Z.lor (fuse_row (ef_fuses e) r) (driver_view m e r)
      else fuse_row (ef_fuses e) r.
Proof.
  intros Hm. revert i e. induction n as [|n IH]; intros i e He Hn Hi; simpl.
  { exists (ef_fuses e). split; [by destruct e|]. intros r Hr. by rewrite decide_False by lia. }
  mstep. assert ((if ef_mode e =? EFUSE_MODE_RAM_BUFFER then ram_get i
    else if ef_mode e =? EFUSE_MODE_FLASH_BUFFER
    then mret (flash_mapped (ef_flash e) (FLASH_BUFFER_ADDR + i * 4)) else mret 0) e
    = Ret (driver_view m e i, e)) as Hval.
  { pose proof (driver_read m e i ltac:(tauto) He ltac:(lia)) as Hrd.
    unfold scm2010_efuse_read in Hrd.
    rewrite (proj2 (geb_false _ _)) in Hrd by (unfold SCM2010_EFUSE_ROW_MAX; lia).
    erewrite bind_Ret in Hrd by reflexivity. destruct He as (Em&_). rewrite Em in *.
    destruct Hm as [->| ->]; simpl in *.
    - apply bind_Ret_inv in Hrd as (v&e'&Hg&E). injection E as -> ->. done.
    - injection Hrd as ->. done. }
  erewrite bind_Ret by exact Hval.
  destruct (efuse_write_raw_spec i (driver_view m e i) e) as (f1&Hrun1&Hrow1&Hoth1);
    [lia|by apply driver_view_range; [|lia]|].
  erewrite bind_Ret by exact Hrun1.
  destruct (IH (i + 1) (set_fuses f1 e)) as (f&Hrun&Hr); [done|lia|lia|].
  exists f. split; [done|]. intros r Hr'. rewrite Hr by done. simpl.
  assert (driver_view m (set_fuses f1 e) r = driver_view m e r) as -> by (by destruct Hm as [->| ->]).
  destruct (decide (r = i)) as [->|].
  - rewrite decide_False, decide_True by lia. done.
  - rewrite Hoth1 by done. destruct (decide (i + 1 ≤ r)), (decide (i ≤ r)); done || lia.
Qed.

(** [sync] burns the buffer into the fuses: in either buffer mode, every
    fuse row afterwards is what it was, plus the bits of the buffered row;
    buffers and mode are untouched. In raw mode nothing happens and -EIO is
    returned. *)
Theorem efuse_sync_correct m e :
  driver_inv m e → m = 0 ∨ m = 1 ∨ m = 2 →
  (m = 0 → scm2010_efuse_sync e = Ret (- EIO, e)) ∧
  (m ≠ 0 → ∃ f, scm2010_efuse_sync e = Ret (0, set_fuses f e) ∧
     ∀ r, 0 ≤ r < 32 → fuse_row f r = Z.lor (fuse_row (ef_fuses e) r) (driver_view m e r)).
Proof.
  intros He Hm. unfold scm2010_efuse_sync. pose proof He as (Em&_). split.
  - intros ->. mstep. by rewrite Em.
  - intros Hm0. assert (m = 1 ∨ m = 2) as Hm' by tauto.
    destruct (sync_loop_spec m 32 0 e) as (f&Hrun&Hf); try done.
    exists f. mstep. rewrite Em, rows.
    assert (bad_buffer_mode m = false) as -> by (by destruct Hm' as [->| ->]).
    erewrite bind_Ret by exact Hrun. split; [done|].
    intros r Hr. rewrite Hf, decide_True by lia. done.
Qed.

(** the row check of the driver has no lower bound: in RAM-buffer mode a
    negative row reads or writes outside [ram_buf], and in raw mode a negative
    row silently accesses another row. *)
Theorem efuse_negative_row e row :
  row < 0 →
  (ef_mode e = EFUSE_MODE_RAM_BUFFER → scm2010_efuse_read row e = Fault ∧
     ∀ v, scm2010_efuse_write row v e = Fault) ∧
  (ef_mode e = EFUSE_MODE_RAW →
     scm2010_efuse_read row e = Ret ((0, Some (fuse_row (ef_fuses e) (row mod 32))), e)).
Proof.
  clear rows. intros Hr. unfold scm2010_efuse_read, scm2010_efuse_write, SCM2010_EFUSE_ROW_MAX.
  rewrite (proj2 (geb_false _ _)) by lia. split.
  - intros Em. unfold mbind, M_bind, get, ram_get, ram_put, index. rewrite Em. simpl.
    by rewrite (proj2 (Z.ltb_lt row 0)) by lia.
  - intros Em. mstep. rewrite Em. simpl. mstep.
    by rewrite (land_mask row 5 : _ → Z.land row 31 = _) by lia.
Qed.

End Driver.

(** ** Concrete hardware *)

Module Demo.

#[export] Instance config : EfuseConfig := {| NUM_ROW := 32; FLASH_BUFFER_ADDR := 0x80013000 |}.

(** The fuses as a function on rows; a flash that holds one area. *)
#[export] Instance fuse_hw : FuseHw := {|
  fuses := Z → Z;
  fuse_row f r := u32 (f r);
  fuse_program f a r :=
    if r =? Z.land a 31 then Z.lor (u32 (f r)) (BIT (Z.land (Z.shiftr a 5) 31)) else f r;
|}.

#[export] Instance fuse_hw_laws : FuseHwLaws.
Proof.
  split.
  - intros f r. apply u32_range.
  - intros f a r Hr. simpl. destruct (r =? _); [|done]. apply u32_id.
    assert (0 ≤ Z.land (Z.shiftr a 5) 31 < 32).
    { rewrite (land_mask _ 5 : _ → Z.land _ 31 = _) by lia. zlia. }
    apply (lor_range _ _ 32); [lia|apply u32_range|by apply BIT_range].
Qed.

#[export] Instance flash_hw : FlashHw := {|
  flash := Z → Z;
  flash_read f a n := (λ i, u32 (f (a + Z.of_nat i * 4))) <$> seq 0 n;
  flash_erase f a sz := λ x, if (a <=? x) && (x <? a + sz) then 0xFFFFFFFF else f x;
  flash_write f a ws := λ x, match (if x <? a then None else ws !! Z.to_nat ((x - a) / 4)) with
                             | Some w => w | None => f x end;
  flash_mapped f a := u32 (f a);
|}.

Lemma flash_word_lookup (f : flash) a n i w :
  flash_read f a n !! i = Some w → w = u32 (f (a + Z.of_nat i * 4)) ∧ (i < n)%nat.
Proof.
  simpl. rewrite list_lookup_fmap. intros (k&Hk&->)%fmap_Some.
  apply lookup_seq in Hk as [-> ?]. done.
Qed.

#[export] Instance flash_hw_laws : FlashHwLaws.
Proof.
  split.
  - intros f a n. simpl. by rewrite length_fmap, length_seq.
  - intros f a n i w [-> _]%flash_word_lookup. apply u32_range.
  - intros f a ws Hws. apply list_eq. intros i.
    destruct (decide (i < length ws)%nat) as [Hi|Hi].
    + destruct (lookup_lt_is_Some_2 ws i Hi) as [w Hw]. rewrite Hw. simpl.
      rewrite list_lookup_fmap, lookup_seq_lt by done. simpl. f_equal.
      rewrite (proj2 (Z.ltb_ge _ _)) by lia.
      replace (Z.to_nat ((a + Z.of_nat i * 4 - a) / 4)) with i.
      2:{ replace (a + Z.of_nat i * 4 - a) with (Z.of_nat i * 4) by lia.
          rewrite Z.div_mul by lia. by rewrite Nat2Z.id. }
      rewrite Hw. apply u32_id. exact (Forall_lookup_1 _ _ _ _ Hws Hw).
    + rewrite !lookup_ge_None_2; [done|lia|]. simpl. rewrite length_fmap, length_seq. lia.
  - intros f a n i w [-> _]%flash_word_lookup. done.
Qed.

(** A chip with fuse row 1 = 0x00000100, in raw and in RAM-buffer mode. *)
Definition chip (m : Z) : efuse :=
  Efuse (λ r, if r =? 1 then 0x100 else 0) (λ _, 0) m (replicate 32 0x30) (replicate 34 0).

Lemma chip_inv m : driver_inv m (chip m).
Proof. split; [done|]. split; [done|]. apply Forall_replicate. lia. Qed.

#[export] Instance chip_device : RowDevice efuse := driver_device.
Definition raw_laws : RowDeviceLaws chip_device := driver_laws (CFG:=config) eq_refl 0 (or_introl eq_refl).

Lemma efuse_read_correct_witness :
  ∃ val, scm_efuse_read 36 12 (chip 0) = Ret ((WISE_OK, val), chip 0) ∧ vbit val 4 = true.
Proof.
  destruct (@efuse_read_correct _ _ raw_laws (chip 0) 36 12 (chip_inv 0)) as (val&Hrun&_&Hv);
    try lia. exists val. split; [exact Hrun|]. rewrite Hv by lia. vm_compute. reflexivity.
Defined.

Lemma efuse_write_correct_witness :
  ∃ s', scm_efuse_write 28 8 [0xF1] (chip 0) = Ret (WISE_OK, s') ∧ rd_inv (RowDeviceLaws:=raw_laws) s'.
Proof.
  destruct (@efuse_write_correct _ _ raw_laws (chip 0) 28 8 [0xF1] (chip_inv 0)) as (s'&Hrun&Hi&_);
    try (simpl; lia). exists s'. split; [exact Hrun|exact Hi].
Defined.

Lemma efuse_write_read_roundtrip_witness :
  ∃ s' val', (scm_efuse_write 28 8 [0xF1];; scm_efuse_read 28 8) (chip 0) = Ret ((WISE_OK, val'), s') ∧
    vbit val' 0 = true.
Proof.
  destruct (@efuse_write_read_roundtrip _ _ raw_laws (chip 0) 28 8 [0xF1] (chip_inv 0))
    as (s'&val'&Hrun&Hv); try (simpl; lia).
  exists s', val'. split; [exact Hrun|]. rewrite Hv by lia. vm_compute. reflexivity.
Defined.

Lemma efuse_sync_correct_witness :
  ∃ f, scm2010_efuse_sync (chip 1) = Ret (0, set_fuses f (chip 1)) ∧ fuse_row f 1 = 0x130.
Proof.
  destruct (proj2 (efuse_sync_correct (CFG:=config) eq_refl 1 (chip 1) (chip_inv 1) ltac:(auto)) ltac:(lia))
    as (f&Hrun&Hf).
  exists f. split; [exact Hrun|]. rewrite Hf by lia. vm_compute. reflexivity.
Defined.

Lemma efuse_negative_row_witness : scm2010_efuse_read (-1) (chip 1) = Fault.
Proof. exact (proj1 (proj1 (efuse_negative_row (chip 1) (-1) ltac:(lia)) eq_refl)). Defined.

End Demo.
