(* ===== verification/TaskWdt.v ===== *)
(** * The task watchdog: src/api/wise/wise_task_wdt.c

    Tasks register with the watchdog and must reset it from time to time.
    When every registered task has reset it, the watchdog is fed and a new
    period begins; when a period ends and some task has not, the watchdog
    task reports it and stops feeding the hardware watchdog.

    Time is the free-running 32-bit tick counter [ktime]: an operation gets the
    true time as an unbounded integer and reads [u32] of it. *)

From stdpp Require Import base tactics numbers list gmap.
From S2P Require Import Prelude.

Definition WISE_OK : Z := 0.
Definition WISE_FAIL : Z := -1.
Definition WISE_ERR_NO_MEM : Z := 0x101.
Definition WISE_ERR_INVALID_STATE : Z := 0x103.

(** The tick rate (CONFIG_TIMER_HZ, a global variable of the HAL). *)
Class TickRate := { time_hz : Z }.

(** [ms_to_tick] of include/hal/timer.h. *)
Definition ms_to_tick {TR : TickRate} (t : Z) : Z := u32 (t * (time_hz / 1000)).

(** ** State *)

Record entry := Entry { task_id : Z; has_reset : bool }.

Record twdt := Twdt {
  started : bool;
  sem : bool;                   (* the binary semaphore *)
  expire_tick : Z;
  expire_dur_tick : Z;
  entries : list entry;         (* entries_slist, head first *)
  reported : option (list Z);   (* the tasks reported, once the watchdog triggered *)
}.

(** [g_twdt_ctx] is zero-initialised. *)
Definition twdt0 : twdt := Twdt false false 0 0 [] None.

Definition with_entries (l : list entry) (w : twdt) :=
  Twdt (started w) (sem w) (expire_tick w) (expire_dur_tick w) l (reported w).

Section Wdt.
Context {TR : TickRate}.

(** What the surroundings provide to a call: the time, the calling task, and
    whether [calloc] and [osThreadNew] succeed. *)
Record env := Env { now : Z; current : Z; mem_ok : bool; thread_ok : bool }.

Definition ktime (v : env) : Z := u32 (now v).

Definition task_wdt_timer_feed : M twdt unit :=
  modify (λ w, with_entries ((λ e, Entry (task_id e) false) <$> entries w) w).

Definition task_wdt_check_all_reset (w : twdt) : bool := forallb has_reset (entries w).

(** The loop does not stop at a match: the last one counts. *)
Definition task_wdt_find_entry (id : Z) (w : twdt) : option entry :=
  foldl (λ target e, if task_id e =? id then Some e else target) None (entries w).

Definition task_wdt_expire_update (v : env) : M twdt unit :=
  modify (λ w, Twdt (started w) (sem w) (u32 (ktime v + expire_dur_tick w)) (expire_dur_tick w)
                    (entries w) (reported w)).

Definition osSemaphoreRelease : M twdt unit :=
  modify (λ w, Twdt (started w) true (expire_tick w) (expire_dur_tick w) (entries w) (reported w)).

Definition task_wdt_check_feed (v : env) : M twdt unit :=
  w ← get;
  if task_wdt_check_all_reset w then
    task_wdt_timer_feed;;
    task_wdt_expire_update v;;
    osSemaphoreRelease
  else mret ().

(** The report lists the tasks that have not reset; afterwards the watchdog
    task sleeps forever. *)
Definition task_wdt_err_report : M twdt unit :=
  modify (λ w, Twdt (started w) (sem w) (expire_tick w) (expire_dur_tick w) (entries w)
    (Some (task_id <$> filter (λ e, has_reset e = false) (entries w)))).

(** One round of the [while (1)] loop of the watchdog task, up to the wait on
    the semaphore. *)
Definition task_wdt_round (v : env) : M twdt unit :=
  w ← get;
  if reported w then mret () else
  if s32 (expire_tick w - ktime v) <=? 10 * 1000 then
    let all_reset := task_wdt_check_all_reset w in
    task_wdt_expire_update v;;
    if all_reset then task_wdt_timer_feed else task_wdt_err_report
  else mret ().

Definition or_current (v : env) (id : Z) : Z := if id =? NULL then current v else id.

Definition wise_task_wdt_add (v : env) (id : Z) : M twdt Z :=
  let id := or_current v id in
  w ← get;
  match task_wdt_find_entry id w with
  | Some _ => mret WISE_FAIL
  | None =>
      if negb (mem_ok v) then mret WISE_ERR_NO_MEM else
      put (with_entries (Entry id true :: entries w) w);;
      task_wdt_check_feed v;;
      mret WISE_OK
  end.

(** [SLIST_REMOVE] unlinks the entry that was found: the last with that id. *)
Fixpoint slist_remove (id : Z) (l : list entry) : list entry :=
  match l with
  | [] => []
  | e :: l =>
      if (task_id e =? id) && negb (existsb (λ e', task_id e' =? id) l) then l
      else e :: slist_remove id l
  end.

Definition wise_task_wdt_delete (v : env) (id : Z) : M twdt Z :=
  w ← get;
  match task_wdt_find_entry id w with
  | None => mret WISE_FAIL
  | Some _ =>
      put (with_entries (slist_remove id (entries w)) w);;
      task_wdt_check_feed v;;
      mret WISE_OK
  end.

(** [entry->has_reset = true] on the entry found. *)
Fixpoint mark_reset (id : Z) (l : list entry) : list entry :=
  match l with
  | [] => []
  | e :: l =>
      if (task_id e =? id) && negb (existsb (λ e', task_id e' =? id) l)
      then Entry (task_id e) true :: l
      else e :: mark_reset id l
  end.

Definition wise_task_wdt_reset (v : env) (id : Z) : M twdt Z :=
  let id := or_current v id in
  w ← get;
  match task_wdt_find_entry id w with
  | None => mret WISE_FAIL
  | Some _ =>
      put (with_entries (mark_reset id (entries w)) w);;
      task_wdt_check_feed v;;
      mret WISE_OK
  end.

Definition wise_task_wdt_init (v : env) (timeout_s : Z) : M twdt Z :=
  w ← get;
  if started w then mret WISE_ERR_INVALID_STATE else
  put (Twdt true false (expire_tick w) (ms_to_tick (u32 (timeout_s * 1000))) (entries w) (reported w));;
  task_wdt_expire_update v;;
  if negb (thread_ok v) then mret WISE_FAIL else mret WISE_OK.

(** ** Runs of the system *)

Inductive event := EvAdd (id : Z) | EvDelete (id : Z) | EvReset (id : Z) | EvRound.

Definition run_event (v : env) (ev : event) : M twdt Z :=
  match ev with
  | EvAdd id => wise_task_wdt_add v id
  | EvDelete id => wise_task_wdt_delete v id
  | EvReset id => wise_task_wdt_reset v id
  | EvRound => task_wdt_round v;; mret WISE_OK
  end.

End Wdt.
