(* ===== verification/TaskWdtTheorems.v ===== *)
(** * The task watchdog: theorems

    The runs of the system carry, as ghost state, the time at which each task
    last registered or reset.  The invariant links them to the flags and the
    32-bit deadline that the code keeps. *)

From stdpp Require Import base tactics numbers list gmap.
From S2P Require Import Prelude TaskWdt.

Section Theorems.
Context {TR : TickRate}.

(** ** Entries *)

Definition ids (l : list entry) : list Z := task_id <$> l.

Lemma find_entry_None id w : task_wdt_find_entry id w = None ↔ id ∉ ids (entries w).
Proof.
  unfold task_wdt_find_entry, ids.
  assert (∀ l t, foldl (λ target e, if task_id e =? id then Some e else target) t l = None ↔
    t = None ∧ id ∉ task_id <$> l) as H.
  { induction l as [|e l IH]; intros t; csimpl.
    - split; [intros ->; split; [done|apply not_elem_of_nil]|by intros [-> _]].
    - rewrite IH, not_elem_of_cons. destruct (Z.eqb_spec (task_id e) id) as [->|]; naive_solver. }
  rewrite H. tauto.
Qed.

Lemma existsb_ids id l : existsb (λ e, task_id e =? id) l = bool_decide (id ∈ ids l).
Proof.
  induction l as [|e l IH]; [symmetry; apply bool_decide_eq_false_2, not_elem_of_nil|]; simpl.
  rewrite IH. unfold ids. csimpl. destruct (Z.eqb_spec (task_id e) id); simpl;
    repeat case_bool_decide; set_solver.
Qed.

Lemma mark_reset_spec id l :
  NoDup (ids l) → mark_reset id l = (λ e, if task_id e =? id then Entry (task_id e) true else e) <$> l.
Proof.
  unfold ids. induction l as [|e l IH]; csimpl; [done|]. intros [Hn Hd]%NoDup_cons.
  rewrite existsb_ids. destruct (Z.eqb_spec (task_id e) id) as [E|E]; simpl.
  - rewrite bool_decide_false by (by rewrite <-E). simpl. f_equal.
    rewrite <-(list_fmap_id l) at 1. apply list_fmap_ext. intros i e' He'.
    rewrite (proj2 (Z.eqb_neq _ _)); [done|]. intros E'. apply Hn. rewrite E, <-E'.
    apply list_elem_of_fmap_2. by eapply list_elem_of_lookup_2.
  - f_equal. by apply IH.
Qed.

Lemma slist_remove_spec id l :
  NoDup (ids l) → slist_remove id l = filter (λ e, task_id e ≠ id) l.
Proof.
  unfold ids. induction l as [|e l IH]; csimpl; [done|]. intros [Hn Hd]%NoDup_cons.
  rewrite existsb_ids. destruct (Z.eqb_spec (task_id e) id) as [E|E]; simpl.
  - rewrite bool_decide_false by (by rewrite <-E). simpl.
    rewrite filter_cons_False by tauto. symmetry. apply filter_all.
    intros e' He' E'. apply Hn. rewrite E, <-E'. by apply list_elem_of_fmap_2.
  - rewrite filter_cons_True by done. f_equal. by apply IH.
Qed.

(** ** Runs and their invariant *)

(** [last] is when each task last registered or reset, [t] the time of the
    latest event. *)
Definition note (v : env) (ev : event) (code : Z) (last : gmap Z Z) : gmap Z Z :=
  match ev with
  | EvAdd id | EvReset id => if code =? WISE_OK then <[or_current v id := now v]> last else last
  | _ => last
  end.

Inductive reach (dur : Z) : twdt → gmap Z Z → Z → Prop :=
| reach_init v w timeout :
    0 ≤ now v → wise_task_wdt_init v timeout twdt0 = Ret (WISE_OK, w) → expire_dur_tick w = dur →
    reach dur w ∅ (now v)
| reach_step w last t v ev code w' :
    reach dur w last t → t ≤ now v → run_event v ev w = Ret (code, w') →
    reach dur w' (note v ev code last) (now v).

(** [f] is when the current period began. *)
Record wdt_inv (dur : Z) (w : twdt) (last : gmap Z Z) (t f : Z) : Prop := {
  wi_nodup : NoDup (ids (entries w));
  wi_dur : expire_dur_tick w = dur;
  wi_expire : expire_tick w = u32 (f + dur);
  wi_time : f ≤ t;
  wi_pending : entries w ≠ [] → task_wdt_check_all_reset w = false;
  wi_last : ∀ e, e ∈ entries w → ∃ l, last !! task_id e = Some l ∧ l ≤ t ∧ (has_reset e = false → l ≤ f);
}.

Lemma u32_add x y : u32 (u32 x + y) = u32 (x + y).
Proof. unfold u32. by rewrite Zplus_mod_idemp_l. Qed.

(** The invariant before [task_wdt_check_feed] has dealt with a full round of
    resets. *)
Record wdt_inv_pre (dur : Z) (w : twdt) (last : gmap Z Z) (t f : Z) : Prop := {
  wp_nodup : NoDup (ids (entries w));
  wp_dur : expire_dur_tick w = dur;
  wp_expire : expire_tick w = u32 (f + dur);
  wp_time : f ≤ t;
  wp_last : ∀ e, e ∈ entries w → ∃ l, last !! task_id e = Some l ∧ l ≤ t ∧ (has_reset e = false → l ≤ f);
}.

Definition unreset (e : entry) : entry := Entry (task_id e) false.

Lemma ids_unreset l : ids (unreset <$> l) = ids l.
Proof. unfold ids. by rewrite <-list_fmap_compose. Qed.

Lemma forallb_unreset l : l ≠ [] → forallb has_reset (unreset <$> l) = false.
Proof. by destruct l. Qed.

Lemma check_feed_inv dur v w last f :
  wdt_inv_pre dur w last (now v) f →
  ∃ w' f', task_wdt_check_feed v w = Ret ((), w') ∧ wdt_inv dur w' last (now v) f'.
Proof.
  intros [Hnd Hdur Hexp Ht Hlast]. unfold task_wdt_check_feed. mstep.
  destruct (task_wdt_check_all_reset w) eqn:Eall; [|by exists w, f].
  eexists _, (now v). split; [done|]. split; simpl; try done.
  - by rewrite ids_unreset.
  - unfold ktime. by rewrite u32_add, Hdur.
  - intros Hne. apply forallb_unreset. intros E. apply Hne. by rewrite E.
  - intros e (e'&->&He')%list_elem_of_fmap. simpl.
    destruct (Hlast _ He') as (l&?&?&_). exists l. auto.
Qed.

Lemma wdt_inv_later dur w last t t' f : wdt_inv dur w last t f → t ≤ t' → wdt_inv dur w last t' f.
Proof.
  intros [] Ht. split; try done; [lia|].
  intros e He. destruct (wi_last0 _ He) as (l&?&?&?). exists l. split_and!; [done|lia|done].
Qed.

Lemma add_inv dur v id w last f code w' :
  wdt_inv dur w last (now v) f → wise_task_wdt_add v id w = Ret (code, w') →
  ∃ f', wdt_inv dur w' (note v (EvAdd id) code last) (now v) f'.
Proof.
  intros Hinv. unfold wise_task_wdt_add. mstep. simpl.
  destruct (task_wdt_find_entry _ w) eqn:Hf; [intros [= <- <-]; by exists f|].
  destruct (mem_ok v); simpl; [|intros [= <- <-]; by exists f].
  apply find_entry_None in Hf. mstep. destruct Hinv as [Hnd Hdur Hexp Ht _ Hlast].
  destruct (check_feed_inv dur v
    (with_entries (Entry (or_current v id) true :: entries w) w)
    (<[or_current v id := now v]> last) f) as (w1&f1&E&Hinv).
  { split; simpl; try done.
    - unfold ids. csimpl. by apply NoDup_cons.
    - intros e [->|He]%elem_of_cons; simpl.
      + exists (now v). split; [apply lookup_insert_eq|done].
      + rewrite lookup_insert_ne; [by apply Hlast|]. intros E. apply Hf. rewrite E.
        by apply list_elem_of_fmap_2. }
  erewrite bind_Ret by exact E. intros [= <- <-]. by exists f1.
Qed.

Lemma delete_inv dur v id w last f code w' :
  wdt_inv dur w last (now v) f → wise_task_wdt_delete v id w = Ret (code, w') →
  ∃ f', wdt_inv dur w' last (now v) f'.
Proof.
  intros Hinv. unfold wise_task_wdt_delete. mstep.
  destruct (task_wdt_find_entry _ w) eqn:Hf; [|intros [= <- <-]; by exists f].
  mstep. destruct Hinv as [Hnd Hdur Hexp Ht _ Hlast].
  destruct (check_feed_inv dur v (with_entries (slist_remove id (entries w)) w) last f)
    as (w1&f1&E&Hinv).
  { split; simpl; try done; rewrite slist_remove_spec by done.
    - eapply sublist_NoDup; [exact Hnd|]. unfold ids. by apply fmap_sublist, sublist_filter.
    - intros e0 [_ He]%list_elem_of_filter. by apply Hlast. }
  erewrite bind_Ret by exact E. intros [= <- <-]. by exists f1.
Qed.

Lemma reset_inv dur v id w last f code w' :
  wdt_inv dur w last (now v) f → wise_task_wdt_reset v id w = Ret (code, w') →
  ∃ f', wdt_inv dur w' (note v (EvReset id) code last) (now v) f'.
Proof.
  intros Hinv. unfold wise_task_wdt_reset. mstep. simpl.
  destruct (task_wdt_find_entry _ w) eqn:Hf; [|intros [= <- <-]; by exists f].
  mstep. destruct Hinv as [Hnd Hdur Hexp Ht _ Hlast].
  destruct (check_feed_inv dur v
    (with_entries (mark_reset (or_current v id) (entries w)) w)
    (<[or_current v id := now v]> last) f) as (w1&f1&E&Hinv).
  { split; simpl; try done; rewrite mark_reset_spec by done.
    - replace (ids _) with (ids (entries w)); [done|]. unfold ids.
      rewrite <-list_fmap_compose. apply list_fmap_ext. intros ? e0 _. simpl. by case_match.
    - intros e0 (e'&->&He')%list_elem_of_fmap. destruct (Z.eqb_spec (task_id e') (or_current v id)) as [Eq|Eq].
      + exists (now v). simpl. rewrite Eq. split; [apply lookup_insert_eq|done].
      + rewrite lookup_insert_ne by done. by apply Hlast. }
  erewrite bind_Ret by exact E. intros [= <- <-]. by exists f1.
Qed.

Lemma round_inv dur v w last f code w' :
  wdt_inv dur w last (now v) f → run_event v EvRound w = Ret (code, w') →
  ∃ f', wdt_inv dur w' last (now v) f'.
Proof.
  intros Hinv. simpl. unfold task_wdt_round. intros (?&w1&H1&[= <- <-])%bind_Ret_inv. revert H1.
  mstep. destruct (reported w); [intros [= <- <-]; by exists f|].
  destruct (_ <=? _); [|intros [= <- <-]; by exists f].
  mstep. destruct Hinv as [Hnd Hdur Hexp Ht Hp Hlast].
  destruct (task_wdt_check_all_reset w) eqn:Eall; intros [= _ <-]; exists (now v);
    split; simpl; try done.
  - by rewrite ids_unreset.
  - unfold ktime. by rewrite u32_add, Hdur.
  - intros Hne. apply forallb_unreset. intros E. apply Hne. by rewrite E.
  - intros e (e'&->&He')%list_elem_of_fmap. simpl.
    destruct (Hlast _ He') as (l&?&?&_). exists l. auto.
  - unfold ktime. by rewrite u32_add, Hdur.
  - intros e He. destruct (Hlast _ He) as (l&?&?&_). exists l. auto.
Qed.

Lemma event_inv dur v ev w last f code w' :
  wdt_inv dur w last (now v) f → run_event v ev w = Ret (code, w') →
  ∃ f', wdt_inv dur w' (note v ev code last) (now v) f'.
Proof.
  destruct ev; [apply add_inv|apply delete_inv|apply reset_inv|apply round_inv].
Qed.

Lemma reach_inv dur w last t : reach dur w last t → ∃ f, wdt_inv dur w last t f.
Proof.
  induction 1 as [v w timeout Hv Hinit Hd|w last t v ev code w' _ [f IH] Ht Hrun].
  - exists (now v). revert Hinit. unfold wise_task_wdt_init. mstep. simpl. mstep. mstep.
    simpl. destruct (thread_ok v); intros [= <-]. simpl in Hd.
    split; simpl; try done.
    + by apply NoDup_nil.
    + unfold ktime. by rewrite u32_add, Hd.
    + intros e He. by apply elem_of_nil in He.
  - eapply event_inv; [|exact Hrun]. by eapply wdt_inv_later.
Qed.

(** [s32] of a difference of [u32] numbers is the true difference when that
    fits. *)
Lemma s32_diff x y : -2147483648 ≤ x - y < 2147483648 → s32 (u32 x - u32 y) = x - y.
Proof.
  intros. unfold s32, u32.
  replace (x mod 2 ^ 32 - y mod 2 ^ 32 + 2 ^ 31) with ((x mod 2 ^ 32 + 2 ^ 31) - y mod 2 ^ 32) by lia.
  rewrite Zminus_mod_idemp_r, <-Z.add_sub_assoc, Zplus_mod_idemp_l, Z.mod_small; lia.
Qed.

(** What a round does, from the state it starts in. *)
Lemma round_cases v w code w' :
  reported w = None → run_event v EvRound w = Ret (code, w') →
  (10000 < s32 (expire_tick w - ktime v) ∨ task_wdt_check_all_reset w = true) ∧ reported w' = None ∨
  s32 (expire_tick w - ktime v) ≤ 10000 ∧ task_wdt_check_all_reset w = false ∧
    reported w' = Some (task_id <$> filter (λ e, has_reset e = false) (entries w)).
Proof.
  intros Hr. simpl. intros (?&w1&H1&[= <- <-])%bind_Ret_inv. revert H1.
  unfold task_wdt_round. mstep. rewrite Hr. change (10 * 1000) with 10000. cbv beta iota.
  destruct (Z.leb_spec (s32 (expire_tick w - ktime v)) 10000) as [Hle|Hgt].
  - mstep. destruct (task_wdt_check_all_reset w) eqn:Eall; intros [= _ <-]; simpl; auto.
  - intros [= _ <-]. left. auto.
Qed.

Lemma round_triggers v w :
  reported w = None → s32 (expire_tick w - ktime v) ≤ 10000 → task_wdt_check_all_reset w = false →
  ∃ w', run_event v EvRound w = Ret (WISE_OK, w') ∧
    reported w' = Some (task_id <$> filter (λ e, has_reset e = false) (entries w)).
Proof.
  intros Hr Hle Hall. simpl. unfold task_wdt_round, mbind, M_bind. simpl.
  rewrite Hr, (proj2 (Z.leb_le _ _)) by exact Hle. simpl. rewrite Hall. by eexists.
Qed.

Lemma some_not_reset w :
  task_wdt_check_all_reset w = false → filter (λ e, has_reset e = false) (entries w) ≠ [].
Proof.
  unfold task_wdt_check_all_reset. induction (entries w) as [|e l IH]; simpl; [done|].
  destruct (has_reset e) eqn:E; simpl; intros H.
  - rewrite filter_cons_False by congruence. by apply IH.
  - by rewrite filter_cons_True.
Qed.

(** C20: the watchdog raises no false alarm and misses no expiry, for timeouts
    of less than 2^31 ticks.  Over any interleaving of registrations, resets,
    deletions and watchdog rounds, at any times in order (the 32-bit tick
    counter may wrap any number of times), until the first round that triggers:
    a round that triggers reports at least one task, and every task it reports
    is registered and has neither registered nor reset for the whole timeout,
    short of the 10,000 ticks of tolerance; and a round that finds the deadline
    due while tasks are registered always triggers.  A timeout of 2^31 ticks
    (2147 s at the SDK's rate) or more, which the interface accepts, does raise
    a false alarm (wdt_long_timeout_triggers_at_once). *)
Theorem wdt_no_false_alarm dur w last t v code w' :
  reach dur w last t → dur < 2 ^ 31 → t ≤ now v → reported w = None →
  run_event v EvRound w = Ret (code, w') →
  (∀ l, reported w' = Some l → l ≠ [] ∧ ∀ id, id ∈ l →
     id ∈ ids (entries w) ∧ ∃ active, last !! id = Some active ∧ dur - 10000 ≤ now v - active) ∧
  (entries w ≠ [] → s32 (expire_tick w - ktime v) ≤ 10000 → is_Some (reported w')).
Proof.
  intros Hreach Hdur Ht Hr Hrun. destruct (reach_inv _ _ _ _ Hreach) as [f [Hnd Hd Hexp Hf Hp Hlast]].
  destruct (round_cases _ _ _ _ Hr Hrun) as [[Hc Hr']|(Hle&Hall&Hr')]; rewrite Hr'.
  { split; [done|]. intros Hne Hle. specialize (Hp Hne). destruct Hc; [lia|congruence]. }
  split; [|done]. intros l [= <-]. split.
  { intros E. by apply (some_not_reset w Hall), (fmap_nil_inv task_id). }
  intros id (e&->&[Hfalse He]%list_elem_of_filter)%list_elem_of_fmap.
  split; [by apply list_elem_of_fmap_2|].
  destruct (Hlast _ He) as (a&Ha&Hat&Haf). exists a. split; [done|]. specialize (Haf Hfalse).
  destruct (Z.lt_ge_cases (now v - f) (dur - 10000)) as [Hlt|]; [exfalso|lia].
  unfold ktime in Hle. rewrite Hexp, s32_diff in Hle by lia. lia.
Qed.

(** The documented range of the timeout is larger than the one that
    works.  With the SDK's tick rate of 1 MHz, a timeout from 2148 to 4294
    seconds makes the watchdog trigger at once: a task that registers is
    reported by the round that follows, within half a second. *)
Theorem wdt_long_timeout_triggers_at_once v0 v1 v2 timeout id :
  time_hz = 1000000 → 2148 ≤ timeout ≤ 4294 → thread_ok v0 → mem_ok v1 →
  now v1 ≤ now v2 ≤ now v1 + 500000 →
  ∃ w1 w2, wise_task_wdt_init v0 timeout twdt0 = Ret (WISE_OK, w1) ∧
    run_event v1 (EvAdd id) w1 = Ret (WISE_OK, w2) ∧
    ∃ w3, run_event v2 EvRound w2 = Ret (WISE_OK, w3) ∧ reported w3 = Some [or_current v1 id].
Proof.
  intros Hhz Ht H0 H1 Hnow. destruct v0 as [n0 c0 m0 []], v1 as [n1 c1 [] th1]; try done.
  simpl in Hnow.
  eexists _, _. split; [reflexivity|]. split; [reflexivity|].
  set (d := ms_to_tick _).
  assert (d = timeout * 1000000) as Hd.
  { unfold d, ms_to_tick. rewrite Hhz. rewrite (u32_id (timeout * 1000)) by lia.
    change (1000000 / 1000) with 1000. rewrite u32_id by lia. lia. }
  apply round_triggers; [done| |done]. simpl. unfold ktime. simpl. rewrite u32_add.
  replace (u32 (n1 + d)) with (u32 (n1 + d - 2 ^ 32)).
  - rewrite s32_diff; lia.
  - unfold u32. rewrite <-(Zminus_mod_idemp_r _ (2 ^ 32)), Z_mod_same_full. f_equal. lia.
Qed.

(** A task that registered itself with a NULL id cannot delete itself the
    same way: [wise_task_wdt_delete] does not look up the calling task, fails,
    and the task stays registered. *)
Theorem wdt_delete_null_fails v w w' :
  current v ≠ NULL → NULL ∉ ids (entries w) →
  wise_task_wdt_add v NULL w = Ret (WISE_OK, w') →
  wise_task_wdt_delete v NULL w' = Ret (WISE_FAIL, w') ∧ current v ∈ ids (entries w').
Proof.
  intros Hc Hn. unfold wise_task_wdt_add. mstep. simpl.
  destruct (task_wdt_find_entry _ w); [done|]. destruct (mem_ok v); [|done]. simpl. mstep.
  intros (?&w1&H1&[= <-])%bind_Ret_inv.
  assert (ids (entries w1) = current v :: ids (entries w)) as Hids.
  { revert H1. unfold task_wdt_check_feed. mstep.
    destruct (task_wdt_check_all_reset _).
    - repeat mstep. intros [= _ <-]. simpl. unfold ids. csimpl. f_equal. by rewrite ids_unreset.
    - by intros [= _ <-]. }
  split.
  - unfold wise_task_wdt_delete. mstep.
    rewrite (proj2 (find_entry_None _ _)); [done|]. rewrite Hids. set_solver.
  - rewrite Hids. by left.
Qed.

End Theorems.

(** ** Witnesses *)

Module Demo.

#[local] Instance rate : TickRate := {| time_hz := 1000000 |}.

Definition env_at (n task : Z) : env := Env n task true true.

(** A ten second watchdog; the counter wraps before the round. *)
Definition w_init : twdt := Twdt true false (u32 4300000000) 10000000 [] None.
Definition w_add : twdt := Twdt true true (u32 4301000000) 10000000 [Entry 7 false] None.
Definition w_end : twdt :=
  Twdt true true (u32 4311000000) 10000000 [Entry 7 false] (Some [7]).

Lemma w_add_reach : reach 10000000 w_add {[ 7 := 4291000000 ]} 4291000000.
Proof.
  replace ({[ 7 := 4291000000 ]} : gmap Z Z)
    with (note (env_at 4291000000 7) (EvAdd NULL) WISE_OK ∅) by reflexivity.
  apply (reach_step _ w_init ∅ 4290000000 (env_at 4291000000 7)); [|done|reflexivity].
  apply (reach_init _ (env_at 4290000000 7) w_init 10); [done|reflexivity|done].
Qed.

Lemma wdt_no_false_alarm_witness :
  (∀ l, reported w_end = Some l → l ≠ [] ∧ ∀ id, id ∈ l →
     id ∈ ids (entries w_add) ∧ ∃ active, ({[ 7 := 4291000000 ]} : gmap Z Z) !! id = Some active ∧
       10000000 - 10000 ≤ now (env_at 4301000000 1) - active) ∧
  (entries w_add ≠ [] → s32 (expire_tick w_add - ktime (env_at 4301000000 1)) ≤ 10000 →
     is_Some (reported w_end)).
Proof.
  apply (wdt_no_false_alarm 10000000 w_add {[ 7 := 4291000000 ]} 4291000000
    (env_at 4301000000 1) WISE_OK w_end); [apply w_add_reach|done|done|reflexivity|reflexivity].
Defined.

Lemma wdt_long_timeout_triggers_at_once_witness :
  ∃ w1 w2, wise_task_wdt_init (env_at 5 1) 3600 twdt0 = Ret (WISE_OK, w1) ∧
    run_event (env_at 100 7) (EvAdd NULL) w1 = Ret (WISE_OK, w2) ∧
    ∃ w3, run_event (env_at 150 1) EvRound w2 = Ret (WISE_OK, w3) ∧ reported w3 = Some [7].
Proof.
  apply (wdt_long_timeout_triggers_at_once (env_at 5 1) (env_at 100 7) (env_at 150 1) 3600 NULL);
    simpl; done || lia.
Defined.

Lemma wdt_delete_null_fails_witness :
  wise_task_wdt_delete (env_at 4291000000 7) NULL w_add = Ret (WISE_FAIL, w_add) ∧ 7 ∈ ids (entries w_add).
Proof.
  apply (wdt_delete_null_fails (env_at 4291000000 7) w_init w_add);
    [done|apply not_elem_of_nil|reflexivity].
Defined.

End Demo.
