(* ===== verification/Systimer.v ===== *)
(** * The system timer: src/hal/drivers/systimer/systimer-scm2010.c

    Alarms on a free-running 32-bit counter of 20 MHz with one compare
    register.  The alarms wait in a tail queue; the compare register holds the
    expiry of the first one.

    Time is a number of ticks that never wraps ([now]); the counter register is
    what is left of it modulo 2^32.  Reading the counter takes an amount of
    time that the state predicts ([delays]), so that time passes inside the
    operations too.  The compare unit is a parameter ([CompareUnit]).  A timer
    structure is known by its address; [log] records the callbacks made. *)

From stdpp Require Import base tactics numbers list.
From S2P Require Import Prelude.

(** ** Data *)

Definition SYSTIMER_TYPE_WAKEUP_FULL : Z := 0.
Definition SYSTIMER_TYPE_WAKEUP_IDLE : Z := 1.

Record systimer := Systimer {
  enqueued : Z;
  type : Z;
  cmp_cb_func : Z;
  cmp_cb_arg : Z;
  expiry : Z;
}.

Definition SYS_TIMER_CTRL_SNAP : Z := BIT 0.
Definition SYS_TIMER_CTRL_LOAD : Z := BIT 1.
Definition SYS_TIMER_CTRL_CLR_INTR : Z := BIT 5.
Definition SYS_TIMER_CTRL_EN : Z := BIT 8.
Definition SYS_TIMER_CTRL_CMP_INTR_EN : Z := BIT 11.

(** [matches now d cmp]: whether the unit raises its interrupt when the counter
    goes on by [d] from [now], with [cmp] in the compare register. *)
Class CompareUnit := { matches : Z → Z → Z → bool }.

Class CompareLaw (CU : CompareUnit) : Prop := {
  compare_match t d k cmp : 0 < k ≤ d → u32 (t + k) = cmp → matches t d cmp = true;
}.

(** The queue, the timer structures, the registers, time, the pending bit of
    the interrupt controller, the callback for snapshots and the log. *)
Record sys := Sys {
  systimer_q : list Z;
  timers : Z → systimer;
  ctrl : Z;
  compare : Z;
  now : Z;
  delays : list Z;
  pending : bool;
  snap_cb_func : Z;
  log : list (Z * Z);
}.

Definition set_q (l : list Z) (s : sys) : sys :=
  Sys l (timers s) (ctrl s) (compare s) (now s) (delays s) (pending s) (snap_cb_func s) (log s).
Definition set_timer (t : Z) (v : systimer) (s : sys) : sys :=
  Sys (systimer_q s) (λ u, if u =? t then v else timers s u) (ctrl s) (compare s) (now s) (delays s) (pending s)
    (snap_cb_func s) (log s).
Definition set_ctrl (c : Z) (s : sys) : sys :=
  Sys (systimer_q s) (timers s) c (compare s) (now s) (delays s) (pending s) (snap_cb_func s) (log s).
Definition set_compare (c : Z) (s : sys) : sys :=
  Sys (systimer_q s) (timers s) (ctrl s) c (now s) (delays s) (pending s) (snap_cb_func s) (log s).
Definition set_pending (b : bool) (s : sys) : sys :=
  Sys (systimer_q s) (timers s) (ctrl s) (compare s) (now s) (delays s) b (snap_cb_func s) (log s).
Definition set_snap (f : Z) (s : sys) : sys :=
  Sys (systimer_q s) (timers s) (ctrl s) (compare s) (now s) (delays s) (pending s) f (log s).
Definition add_log (e : Z * Z) (s : sys) : sys :=
  Sys (systimer_q s) (timers s) (ctrl s) (compare s) (now s) (delays s) (pending s) (snap_cb_func s) (log s ++ [e]).

Definition set_enqueued (v : Z) (t : systimer) : systimer :=
  Systimer v (type t) (cmp_cb_func t) (cmp_cb_arg t) (expiry t).
Definition set_expiry (v : Z) (t : systimer) : systimer :=
  Systimer (enqueued t) (type t) (cmp_cb_func t) (cmp_cb_arg t) v.

(** [abs] of the standard library on an unsigned difference. *)
Definition abs32 (x : Z) : Z := u32 (Z.abs (s32 x)).

Section Systimer.
Context {CU : CompareUnit}.

(** Time passes. *)
Definition elapse (d : Z) (s : sys) : sys :=
  Sys (systimer_q s) (timers s) (ctrl s) (compare s) (now s + d) (delays s)
    (pending s || (Z.testbit (ctrl s) 11 && matches (now s) d (compare s))) (snap_cb_func s) (log s).

Definition next_delay (s : sys) : Z := match delays s with d :: _ => d | [] => 0 end.
Definition drop_delay (s : sys) : sys :=
  Sys (systimer_q s) (timers s) (ctrl s) (compare s) (now s) (tail (delays s)) (pending s) (snap_cb_func s) (log s).

(** [SYS_TIMER_COUNT] *)
Definition read_count : M sys Z :=
  modify (λ s, elapse (next_delay s) (drop_delay s));; s ← get; mret (u32 (now s)).

(** ** The compare register *)

(** The condition of set_cmp and irq_cmp. *)
Definition expired (cur exp : Z) : bool :=
  ((cur >=? exp) && (u32 (cur - exp) <? 0xF0000000)) || ((cur <? exp) && (u32 (exp - cur) >? 0xF0000000)).

Definition scm2010_systimer_set_cmp (timer : Z) : M sys unit :=
  modify (λ s, set_ctrl (Z.lor (ctrl s) SYS_TIMER_CTRL_CMP_INTR_EN) s);;
  modify (λ s, set_compare (expiry (timers s timer)) s);;
  cur ← read_count;
  s ← get;
  if expired cur (expiry (timers s timer)) then modify (set_pending true) else mret ().

Definition scm2010_systimer_disable_cmp : M sys unit :=
  modify (λ s, set_ctrl (Z.land (ctrl s) (Z.lnot SYS_TIMER_CTRL_CMP_INTR_EN)) s).

(** [entry ? set_cmp(entry) : disable_cmp()] for the first of the queue. *)
Definition rearm : M sys unit :=
  s ← get;
  match systimer_q s with
  | entry :: _ => scm2010_systimer_set_cmp entry
  | [] => scm2010_systimer_disable_cmp
  end.

(** ** Queue *)

(** TAILQ_REMOVE follows the links of the element: it must be in the queue. *)
Definition tailq_remove (t : Z) : M sys unit :=
  s ← get;
  if bool_decide (t ∈ systimer_q s) then put (set_q (filter (λ u, u ≠ t) (systimer_q s)) s) else fault.

(** TAILQ_FOREACH with TAILQ_INSERT_BEFORE, and TAILQ_INSERT_TAIL after it. *)
Fixpoint insert_timer (dur : Z → Z) (t : Z) (l : list Z) : list Z :=
  match l with
  | [] => [t]
  | entry :: l' => if dur t <? dur entry then t :: l else entry :: insert_timer dur t l'
  end.

Definition scm2010_systimer_set_cmp_cb (timer ty func arg : Z) : M sys Z :=
  modify (λ s, set_timer timer (Systimer 0 ty func arg (expiry (timers s timer))) s);; mret 0.

Definition scm2010_systimer_set_snap_cb (func : Z) : M sys Z :=
  s ← get;
  (if snap_cb_func s =? 0 then put (set_snap func s) else mret ());; mret 0.

Definition scm2010_systimer_start_at (timer tick : Z) : M sys Z :=
  s ← get;
  c_assert (enqueued (timers s timer) =? 0);;
  modify (λ s, set_timer timer (set_expiry tick (timers s timer)) s);;
  s ← get;
  (if bool_decide (systimer_q s = []) then put (set_q [timer] s) else
   cur_time ← read_count;
   modify (λ s, set_q (insert_timer (λ t, abs32 (expiry (timers s t) - cur_time)) timer (systimer_q s)) s));;
  modify (λ s, set_timer timer (set_enqueued 1 (timers s timer)) s);;
  s ← get;
  (if bool_decide (head (systimer_q s) = Some timer) then scm2010_systimer_set_cmp timer else mret ());;
  mret 0.

Definition scm2010_systimer_stop (timer : Z) : M sys Z :=
  s ← get;
  if enqueued (timers s timer) =? 0 then mret (-1) else
  let reset_cmp := bool_decide (head (systimer_q s) = Some timer) in
  tailq_remove timer;;
  modify (λ s, set_timer timer (set_enqueued 0 (timers s timer)) s);;
  (if (reset_cmp : bool) then rearm else mret ());;
  mret 0.

Definition scm2010_systimer_get_counter : M sys Z := read_count.

(** The result and, when there is an alarm, [wtime], [wtype], and the same of
    the next one; [mtime] is the machine timer at the two readings. *)
Definition scm2010_systimer_get_wakeup_info (mtime : Z * Z) :
    M sys (Z * option (Z * Z * option (Z * Z))) :=
  s ← get;
  match systimer_q s with
  | [] => mret (-1, None)
  | timer :: rest =>
      cur_time ← read_count;
      s ← get;
      let wtime t m := (m + abs32 (expiry (timers s t) - cur_time) / 2) mod 2 ^ 64 in
      let next := match rest with
                  | n :: _ => Some (wtime n mtime.2, type (timers s n))
                  | [] => None
                  end in
      mret (0, Some (wtime timer mtime.1, type (timers s timer), next))
  end.

(** With [is_exec], the wake-up timer has been served by the watcher. *)
Definition scm2010_systimer_restart (is_exec : bool) : M sys Z :=
  (if is_exec then
     s ← get;
     timer ← lift_opt (head (systimer_q s));
     c_assert (type (timers s timer) =? SYSTIMER_TYPE_WAKEUP_IDLE);;
     tailq_remove timer;;
     modify (λ s, set_timer timer (set_enqueued 0 (timers s timer)) s)
   else mret ());;
  rearm;;
  mret 0.

(** ** Interrupts *)

(** What callbacks do: they start and stop alarms. *)
Inductive call := CStart (timer tick : Z) | CStop (timer : Z).

Fixpoint run_calls (l : list call) : M sys unit :=
  match l with
  | [] => mret ()
  | CStart t tick :: l => scm2010_systimer_start_at t tick;; run_calls l
  | CStop t :: l => scm2010_systimer_stop t;; run_calls l
  end.

(** [callback func arg time]: the calls that the function makes. *)
Context (callback : Z → Z → Z → list call).

Definition scm2010_systimer_irq_cmp : M sys unit :=
  s ← get;
  match systimer_q s with
  | [] => mret ()
  | timer :: _ =>
      cur ← read_count;
      s ← get;
      (if expired cur (expiry (timers s timer)) then
         tailq_remove timer;;
         modify (λ s, set_timer timer (set_enqueued 0 (timers s timer)) s);;
         modify (add_log (timer, now s));;
         run_calls (callback (cmp_cb_func (timers s timer)) (cmp_cb_arg (timers s timer)) (now s))
       else mret ());;
      rearm
  end.

(** Taking the interrupt clears its pending bit. *)
Definition scm2010_systimer_irq : M sys Z :=
  modify (set_pending false);;
  modify (λ s, set_ctrl (Z.lor (ctrl s) SYS_TIMER_CTRL_CLR_INTR) s);;
  scm2010_systimer_irq_cmp;;
  mret 0.

End Systimer.

(** ** Calibration of the 32 kHz oscillator *)

Definition SYS_TIMER_COUNT_MAX : Z := 0xFFFFFFFF.

Definition SYS_TIMER_DIFF (a b max : Z) : Z := if a >=? b then u32 (a - b) else u32 (max - b + a).

(** Two snapshots of the timer and the oscillator's counter. *)
Record snap := Snap { rtc1 : Z; pit1 : Z; rtc2 : Z; pit2 : Z }.

(** A division by zero is None. *)
Definition scm2010_systimer_calc_ratio (sn : snap) : option Z :=
  let pit_diff := SYS_TIMER_DIFF (pit2 sn) (pit1 sn) SYS_TIMER_COUNT_MAX in
  let rtc_diff := SYS_TIMER_DIFF (rtc2 sn) (rtc1 sn) SYS_TIMER_COUNT_MAX in
  if rtc_diff =? 0 then None else Some (u32 (pit_diff * 100 / rtc_diff)).

Definition SNAP_MOVING_AVERAGE_WEIGHT (avg ratio : Z) : Z := u32 (u32 (avg * 7) / 10 + u32 (ratio * 3) / 10).
Definition SNAP_RATIO_TO_REG (ratio : Z) : Z :=
  Z.lor (u32 (Z.shiftl (ratio / 100) 8)) (Z.land (ratio mod 100 * 255 / 100) 0xFF).

(** The new [act_ratio] and the register, from a snapshot pair. *)
Definition scm2010_systimer_rtc_cal (act_ratio : Z) (sn : snap) : option (Z * Z) :=
  match scm2010_systimer_calc_ratio sn with
  | None => None
  | Some ratio =>
      let r := if act_ratio =? 0 then ratio else SNAP_MOVING_AVERAGE_WEIGHT act_ratio ratio in
      Some (r, SNAP_RATIO_TO_REG r)
  end.

(** [measure i]: the snapshots with trim value [i]. *)
Fixpoint trim_loop (measure : Z → snap) (n : nat) (i gap trim : Z) : option (Z * Z) :=
  match n with
  | O => Some (gap, trim)
  | S n =>
      match scm2010_systimer_calc_ratio (measure i) with
      | None => None
      | Some ratio =>
          let g := abs32 (61035 - ratio) in
          if gap >? g then trim_loop measure n (i + 1) g i else trim_loop measure n (i + 1) gap trim
      end
  end.

(** The value left in SYS_TIMER_OSC32K_TRIM. *)
Definition scm2010_systimer_trim (measure : Z → snap) : option Z :=
  match trim_loop measure 64 0 0xFFFFFFFF 0 with Some (_, trim) => Some trim | None => None end.
