(* ===== verification/SystimerTheorems.v ===== *)
(** * The system timer: theorems

    As long as alarms are at most 2^28 ticks away (13.4 s) and no interrupt is
    held back for longer, no alarm goes off early, none gets lost, and alarms
    are served in the order of their expiry, although the counter wraps. *)

From stdpp Require Import base tactics numbers list sets sorting.
From S2P Require Import Prelude Systimer.

(** ** Distances modulo 2^32 *)

Definition HORIZON : Z := 2 ^ 28.

(** How far away an expiry value is at time [t]; negative when it is over. *)
Definition ahead (t exp : Z) : Z := s32 (exp - t).

Lemma s32_range x : -2 ^ 31 ≤ s32 x < 2 ^ 31.
Proof. unfold s32. pose proof (Z.mod_pos_bound (x + 2 ^ 31) (2 ^ 32) ltac:(lia)). lia. Qed.

Lemma s32_congr x : ∃ k, x = s32 x + k * 2 ^ 32.
Proof. exists ((x + 2 ^ 31) / 2 ^ 32). unfold s32. pose proof (Z.div_mod (x + 2 ^ 31) (2 ^ 32) ltac:(lia)). lia. Qed.

Lemma s32_unique x y k : x = y + k * 2 ^ 32 → -2 ^ 31 ≤ y < 2 ^ 31 → s32 x = y.
Proof. intros -> Hy. unfold s32. replace (y + k * 2 ^ 32 + 2 ^ 31) with (y + 2 ^ 31 + k * 2 ^ 32) by lia. rewrite Z.mod_add, Z.mod_small; lia. Qed.

Lemma u32_congr x : ∃ k, x = u32 x + k * 2 ^ 32.
Proof. exists (x / 2 ^ 32). unfold u32. pose proof (Z.div_mod x (2 ^ 32) ltac:(lia)). lia. Qed.

Lemma u32_unique x y k : x = y + k * 2 ^ 32 → 0 ≤ y < 2 ^ 32 → u32 x = y.
Proof. intros -> Hy. unfold u32. rewrite Z.mod_add, Z.mod_small; lia. Qed.

Lemma ahead_range t e : -2 ^ 31 ≤ ahead t e < 2 ^ 31.
Proof. apply s32_range. Qed.

(** The expiry is the counter's value that many ticks later. *)
Lemma ahead_value t e : 0 ≤ e < 2 ^ 32 → u32 (t + ahead t e) = e.
Proof.
  intros He. destruct (s32_congr (e - t)) as [k Hk]. unfold ahead.
  apply (u32_unique _ _ (- k)); lia.
Qed.

Lemma ahead_later t e d : -2 ^ 31 ≤ ahead t e - d < 2 ^ 31 → ahead (t + d) e = ahead t e - d.
Proof.
  intros H. unfold ahead in *. destruct (s32_congr (e - t)) as [k Hk].
  apply (s32_unique _ _ k); lia.
Qed.

(** Far from the ends of the range, the test for expiry is right whether or not
    the counter wraps in between. *)
Lemma expired_spec t e : 0 ≤ e < 2 ^ 32 → - HORIZON < ahead t e ≤ HORIZON →
  expired (u32 t) e = (ahead t e <=? 0).
Proof.
  intros He Ha. unfold HORIZON in *. pose proof (u32_range t) as Hc. destruct (u32_congr t) as [k Hk].
  destruct (s32_congr (e - t)) as [j Hj]. fold (ahead t e) in Hj. set (a := ahead t e) in *. set (c := u32 t) in *.
  assert (e = c + a + (j + k) * 2 ^ 32) as Hec by lia.
  unfold expired. rewrite Z.geb_leb, Z.gtb_ltb.
  assert (j + k = 0 ∨ j + k = 1 ∨ j + k = -1) as Hjk by lia.
  apply eq_true_iff_eq. rewrite orb_true_iff, !andb_true_iff, !Z.leb_le, !Z.ltb_lt.
  assert (e ≤ c → u32 (c - e) = c - e) as E1 by (intros; apply u32_id; lia).
  assert (c < e → u32 (e - c) = e - c) as E2 by (intros; apply u32_id; lia).
  destruct (Z.le_gt_cases e c) as [Hle|Hlt]; [rewrite (E1 Hle)|rewrite (E2 Hlt)]; destruct Hjk as [H|[H|H]]; rewrite H in Hec; lia.
Qed.

Lemma abs32_ahead t e : - 2 ^ 31 < ahead t e → abs32 (e - u32 t) = Z.abs (ahead t e).
Proof.
  intros Ha. unfold abs32. pose proof (ahead_range t e).
  replace (s32 (e - u32 t)) with (ahead t e). { apply u32_id. lia. }
  symmetry. destruct (u32_congr t) as [k Hk]. destruct (s32_congr (e - t)) as [j Hj]. fold (ahead t e) in Hj.
  apply (s32_unique _ _ (j + k)); lia.
Qed.

(** ** Well-formed states *)

Definition total (l : list Z) : Z := foldr Z.add 0 l.

Definition dist (s : sys) (t : Z) : Z := ahead (now s) (expiry (timers s t)).

(** [e] is near at the time of [s], and for as long as the current operation takes. *)
Definition near (s : sys) (e : Z) : Prop := - HORIZON + total (delays s) < ahead (now s) e ≤ HORIZON.

Record wf (s : sys) : Prop := {
  wf_nodup : NoDup (systimer_q s);
  wf_flag t : t ∈ systimer_q s ↔ enqueued (timers s t) ≠ 0;
  wf_expiry t : t ∈ systimer_q s → 0 ≤ expiry (timers s t) < 2 ^ 32;
  wf_near t : t ∈ systimer_q s → near s (expiry (timers s t));
  wf_delays : Forall (λ d, 0 ≤ d) (delays s);
}.

(** The compare register is set for the first alarm, and its interrupt is
    pending or still to come. *)
Definition armed (s : sys) : Prop :=
  match systimer_q s with
  | [] => True
  | h :: _ => Z.testbit (ctrl s) 11 = true ∧ compare s = expiry (timers s h) ∧ (pending s = true ∨ 0 < dist s h)
  end.

Lemma total_nonneg l : Forall (λ d, 0 ≤ d) l → 0 ≤ total l.
Proof. induction 1; simpl; lia. Qed.

Section Theorems.
Context {CU : CompareUnit} {CL : CompareLaw CU} (callback : Z → Z → Z → list call).

(** Time passes: distances shrink. *)
Lemma dist_elapse d s t : - 2 ^ 31 ≤ dist s t - d → 0 ≤ d → dist (elapse d s) t = dist s t - d.
Proof.
  intros H Hd. unfold dist in *. cbn [now timers elapse]. pose proof (ahead_range (now s) (expiry (timers s t))).
  apply ahead_later. lia.
Qed.

(** The alarm at the head of the queue is not missed. *)
Lemma armed_elapse d s : 0 ≤ d → armed s →
  (∀ h, h ∈ systimer_q s → 0 ≤ expiry (timers s h) < 2 ^ 32 ∧ - 2 ^ 31 ≤ dist s h - d) → armed (elapse d s).
Proof.
  unfold armed. cbn [systimer_q elapse]. destruct (systimer_q s) as [|h l]; [done|].
  intros Hd (Hc&He&Hp) Hh. destruct (Hh h ltac:(by left)) as [Hr Hw]. cbn [ctrl compare timers pending elapse].
  split; [done|]. split; [done|]. rewrite dist_elapse by done. destruct Hp as [->|Hp]; [by left|].
  destruct (Z.lt_ge_cases 0 (dist s h - d)) as [|Hle]; [by right|]. left. rewrite Hc.
  rewrite (compare_match (now s) d (dist s h)); [by rewrite orb_true_r|lia|].
  rewrite He. by apply ahead_value.
Qed.

(** Reading the counter: time passes as predicted. *)
Definition pass (s : sys) : sys := elapse (next_delay s) (drop_delay s).

Lemma read_count_run s : read_count s = Ret (u32 (now (pass s)), pass s).
Proof. reflexivity. Qed.

Lemma next_delay_nonneg s : Forall (λ d, 0 ≤ d) (delays s) → 0 ≤ next_delay s.
Proof. unfold next_delay. destruct 1; lia. Qed.

Lemma total_pass s : total (delays (pass s)) = total (delays s) - next_delay s.
Proof. unfold pass, next_delay, drop_delay. simpl. destruct (delays s); simpl; lia. Qed.

Lemma near_pass s e : Forall (λ d, 0 ≤ d) (delays s) → near s e → near (pass s) e ∧ ahead (now (pass s)) e = ahead (now s) e - next_delay s.
Proof.
  intros Hd [H1 H2]. pose proof (next_delay_nonneg s Hd) as Hn.
  assert (0 ≤ total (delays s) - next_delay s) as Ht.
  { unfold next_delay in *. destruct Hd; simpl; [lia|]. pose proof (total_nonneg l ltac:(done)). lia. }
  assert (ahead (now (pass s)) e = ahead (now s) e - next_delay s) as He.
  { unfold pass. simpl. apply ahead_later. unfold HORIZON in *. lia. }
  split; [|done]. split; rewrite He, ?total_pass; lia.
Qed.

Lemma delays_pass s : Forall (λ d, 0 ≤ d) (delays s) → Forall (λ d, 0 ≤ d) (delays (pass s)).
Proof. unfold pass. simpl. by destruct 1. Qed.

Lemma wf_pass s : wf s → wf (pass s).
Proof.
  intros [Hn Hf He Hr Hd]. split; [done..| |by apply delays_pass].
  intros t Ht. apply near_pass; [done|]. by apply Hr.
Qed.

Lemma near_gap s e : Forall (λ d, 0 ≤ d) (delays s) → near s e → - HORIZON < ahead (now s) e ≤ HORIZON.
Proof. intros Hd [H1 H2]. pose proof (total_nonneg _ Hd). lia. Qed.

Lemma armed_pass s : wf s → armed s → armed (pass s).
Proof.
  intros Hwf Ha. apply (armed_elapse (next_delay s) (drop_delay s)).
  - apply next_delay_nonneg, Hwf.
  - exact Ha.
  - intros h Hh. split; [by apply (wf_expiry s Hwf)|].
    destruct (near_pass s (expiry (timers s h))) as [Hn He]; [apply Hwf|by apply (wf_near s Hwf)|].
    apply near_gap in Hn; [|by apply delays_pass, Hwf]. unfold dist. simpl. unfold HORIZON in *. lia.
Qed.

(** Operations that leave the queue alone. *)
Record quiet (s s' : sys) : Prop := {
  qt_q : systimer_q s' = systimer_q s;
  qt_timers : timers s' = timers s;
  qt_log : log s' = log s;
  qt_now : now s ≤ now s';
}.

Lemma testbit_enable c : Z.testbit (Z.lor c SYS_TIMER_CTRL_CMP_INTR_EN) 11 = true.
Proof. unfold SYS_TIMER_CTRL_CMP_INTR_EN. rewrite testbit_lor_BIT by lia. by rewrite bool_decide_true, orb_true_r. Qed.

Lemma set_cmp_run t l s : wf s → systimer_q s = t :: l →
  ∃ s', scm2010_systimer_set_cmp t s = Ret ((), s') ∧ wf s' ∧ armed s' ∧ quiet s s'.
Proof.
  intros Hwf Hq. unfold scm2010_systimer_set_cmp.
  rewrite (bind_Ret (modify _) _ _ _ _ eq_refl), (bind_Ret (modify _) _ _ _ _ eq_refl).
  set (s1 := set_compare _ _). assert (wf s1) as Hwf1 by (destruct Hwf; by split).
  rewrite (bind_Ret _ _ _ _ _ (read_count_run s1)), (bind_Ret get _ _ _ _ eq_refl).
  pose proof (wf_pass s1 Hwf1) as Hwf2. pose proof (next_delay_nonneg s1 (wf_delays _ Hwf1)) as Hnd.
  assert (t ∈ systimer_q (pass s1)) as Hin by (simpl; rewrite Hq; by left).
  rewrite expired_spec; [|by apply (wf_expiry _ Hwf2)|by apply near_gap; [apply Hwf2|apply (wf_near _ Hwf2)]].
  set (s2 := pass s1) in *.
  assert (∀ b, wf (set_pending (pending s2 || b) s2) ∧ quiet s (set_pending (pending s2 || b) s2)) as Hset.
  { intros b. split; [destruct Hwf2; by split|]. split; try reflexivity. simpl. lia. }
  assert (∀ b, (b = true ∨ 0 < dist s2 t) → armed (set_pending (pending s2 || b) s2)) as Harm.
  { intros b Hb. unfold armed. simpl. rewrite Hq. split; [apply testbit_enable|]. split; [done|].
    destruct Hb as [->|Hb]; [left; by rewrite orb_true_r|by right]. }
  fold (dist s2 t). destruct (Z.leb_spec (dist s2 t) 0) as [Hle|Hlt].
  - exists (set_pending (pending s2 || true) s2). split; [rewrite orb_true_r; reflexivity|].
    split; [apply Hset|]. split; [|apply Hset]. apply Harm. by left.
  - exists (set_pending (pending s2 || false) s2). split.
    { rewrite orb_false_r. reflexivity. }
    split; [apply Hset|]. split; [|apply Hset]. apply Harm. by right.
Qed.

Lemma rearm_run s : wf s → ∃ s', rearm s = Ret ((), s') ∧ wf s' ∧ armed s' ∧ quiet s s'.
Proof.
  intros Hwf. unfold rearm. mstep. destruct (systimer_q s) as [|h l] eqn:Hq.
  - eexists. split; [reflexivity|]. split; [destruct Hwf; by split|].
    split; [unfold armed; simpl; by rewrite Hq|]. by split.
  - by apply (set_cmp_run h l).
Qed.

(** *** Removing and inserting *)

Lemma wf_remove t s : wf s →
  wf (set_timer t (set_enqueued 0 (timers s t)) (set_q (filter (λ u, u ≠ t) (systimer_q s)) s)).
Proof.
  intros [Hn Hf He Hr Hd].
  assert (∀ u, u ∈ filter (λ u, u ≠ t) (systimer_q s) → u ∈ systimer_q s ∧ (u =? t) = false) as Hu.
  { intros u [Hne Hu]%list_elem_of_filter. split; [done|by apply Z.eqb_neq]. }
  split; cbn [systimer_q timers delays set_timer set_q].
  - by apply NoDup_filter.
  - intros u. rewrite list_elem_of_filter. destruct (Z.eqb_spec u t) as [->|Hne]; simpl; [naive_solver|].
    rewrite <-Hf. naive_solver.
  - intros u Hin. destruct (Hu u Hin) as [? ->]. by apply He.
  - intros u Hin. destruct (Hu u Hin) as [? ->]. by apply Hr.
  - done.
Qed.

Lemma tailq_remove_run t s : t ∈ systimer_q s →
  tailq_remove t s = Ret ((), set_q (filter (λ u, u ≠ t) (systimer_q s)) s).
Proof. intros Ht. unfold tailq_remove. mstep. by rewrite bool_decide_true. Qed.

Lemma insert_timer_elem dur t l u : u ∈ insert_timer dur t l ↔ u = t ∨ u ∈ l.
Proof.
  induction l as [|v l IH]; simpl; [set_solver|]. case_match; rewrite !elem_of_cons; [done|]. rewrite IH. tauto.
Qed.

Lemma insert_timer_nodup dur t l : NoDup l → t ∉ l → NoDup (insert_timer dur t l).
Proof.
  induction l as [|v l IH]; intros Hn Ht; simpl; [apply NoDup_singleton|].
  case_match; [by apply NoDup_cons|]. apply NoDup_cons in Hn as [Hv Hn].
  apply NoDup_cons. split; [|apply IH; set_solver]. rewrite insert_timer_elem. set_solver.
Qed.

Lemma insert_timer_ext d1 d2 t l : (∀ u, u = t ∨ u ∈ l → d1 u = d2 u) → insert_timer d1 t l = insert_timer d2 t l.
Proof.
  induction l as [|v l IH]; intros H; [done|]. simpl. rewrite (H t), (H v) by set_solver. case_match; [done|].
  f_equal. apply IH. set_solver.
Qed.

(** Starting an alarm: the new queue, and the state is well-formed again. *)
Definition started (t tick : Z) (s : sys) : Z → systimer := λ u,
  if u =? t then Systimer 1 (type (timers s t)) (cmp_cb_func (timers s t)) (cmp_cb_arg (timers s t)) tick else timers s u.

(** The queue order at the time the insertion looks at the clock. *)
Definition gap_of (tm : Z) (T : Z → systimer) (u : Z) : Z := Z.abs (ahead tm (expiry (T u))).

(** [s0] is [s] with the expiry of [t] set, possibly somewhat later. *)
Definition timed (t tick : Z) (s s0 : sys) : Prop :=
  let s1 := set_timer t (set_expiry tick (timers s t)) s in s0 = s1 ∨ s0 = pass s1.

Definition flagged (t : Z) (s : sys) : sys := set_timer t (set_enqueued 1 (timers s t)) s.

Lemma timed_timers t tick s s0 L u : timed t tick s s0 → timers (flagged t (set_q L s0)) u = started t tick s u.
Proof.
  intros Ht. assert (timers s0 = timers (set_timer t (set_expiry tick (timers s t)) s)) as E by (by destruct Ht as [->| ->]).
  simpl. rewrite E. unfold started. simpl. rewrite Z.eqb_refl. by destruct (u =? t).
Qed.

Lemma near_same s s' e : now s' = now s → delays s' = delays s → near s e → near s' e.
Proof. unfold near. by intros -> ->. Qed.

Lemma near_started t tick s u : wf s → enqueued (timers s t) = 0 → near s tick → u = t ∨ u ∈ systimer_q s →
  near s (expiry (started t tick s u)).
Proof.
  intros Hwf Hoff Hnear Hu. unfold started. destruct (Z.eqb_spec u t) as [->|Hne]; [done|].
  destruct Hu as [|Hu]; [done|]. by apply (wf_near _ Hwf).
Qed.

Lemma wf_insert t tick s s0 L : wf s → enqueued (timers s t) = 0 → 0 ≤ tick < 2 ^ 32 → near s tick → timed t tick s s0 →
  (∀ u, u ∈ L ↔ u = t ∨ u ∈ systimer_q s) → NoDup L → wf (flagged t (set_q L s0)).
Proof.
  intros Hwf Hoff Htick Hnear Hs0 HL Hnd.
  assert (∀ u, timers (flagged t (set_q L s0)) u = started t tick s u) as Ht by (intros; by apply timed_timers).
  assert (∀ u, u ∈ systimer_q s → (u =? t) = false) as Hne.
  { intros u Hu. apply Z.eqb_neq. intros ->. apply (wf_flag _ Hwf) in Hu. lia. }
  split.
  - done.
  - intros u. rewrite Ht. simpl. rewrite HL. unfold started.
    destruct (Z.eqb_spec u t) as [->|E]; simpl; [split; [lia|by left]|]. rewrite <-(wf_flag _ Hwf). naive_solver.
  - intros u Hu. rewrite Ht. apply HL in Hu. unfold started. destruct Hu as [->|Hu]; [by rewrite Z.eqb_refl|].
    rewrite (Hne u Hu). by apply (wf_expiry _ Hwf).
  - intros u Hu. rewrite Ht. apply HL in Hu.
    pose proof (near_started t tick s u Hwf Hoff Hnear Hu) as Hn.
    apply (near_same s0); [done..|]. destruct Hs0 as [->| ->]; [exact Hn|].
    apply (near_pass (set_timer t (set_expiry tick (timers s t)) s)); [apply Hwf|exact Hn].
  - simpl. destruct Hs0 as [->| ->]; [apply Hwf|]. apply (delays_pass (set_timer t (set_expiry tick (timers s t)) s)), Hwf.
Qed.

(** The end of [start_at]. *)
Lemma finish_start t tick s s0 L : wf s → enqueued (timers s t) = 0 → 0 ≤ tick < 2 ^ 32 → near s tick → timed t tick s s0 →
  (∀ u, u ∈ L ↔ u = t ∨ u ∈ systimer_q s) → NoDup L → head L = Some t ∨ head L = head (systimer_q s) →
  ∃ s', (modify (λ s, set_timer t (set_enqueued 1 (timers s t)) s);;
         s ← get;
         (if bool_decide (head (systimer_q s) = Some t) then scm2010_systimer_set_cmp t else mret ());;
         mret 0) (set_q L s0) = Ret (0, s') ∧ wf s' ∧ (armed s → armed s') ∧ log s' = log s ∧
    (∀ u, timers s' u = started t tick s u) ∧ systimer_q s' = L.
Proof.
  intros Hwf Hoff Htick Hnear Hs0 HL Hnd Hhd.
  assert (wf (flagged t (set_q L s0))) as Hw by (by apply (wf_insert t tick s)).
  assert (∀ u, timers (flagged t (set_q L s0)) u = started t tick s u) as Ht by (intros; by apply timed_timers).
  rewrite (bind_Ret (modify _) _ _ _ _ eq_refl), (bind_Ret get _ _ _ _ eq_refl). fold (flagged t (set_q L s0)).
  assert (log s0 = log s) as Hl0 by (by destruct Hs0 as [->| ->]).
  cbn [systimer_q flagged set_timer set_q]. case_bool_decide as Hh.
  - destruct L as [|t' L']; [done|]. injection Hh as ->.
    destruct (set_cmp_run t L' (flagged t (set_q (t :: L') s0)) Hw eq_refl) as (s'&Hrun&Hw'&Ha'&[Hq1 Hq2 Hq3 _]).
    rewrite (bind_Ret _ _ _ _ _ Hrun). exists s'. split; [done|]. split; [done|]. split; [done|].
    rewrite Hq3, Hq2, Hq1. done.
  - eexists. split; [reflexivity|]. split; [done|]. split; [|done].
    intros Ha. destruct Hhd as [|Hhd]; [done|].
    destruct L as [|h L']; [done|]. destruct (systimer_q s) as [|h' l'] eqn:Hq; [done|]. injection Hhd as <-.
    assert (armed s0) as Ha0.
    { assert (armed (pass s)) as Hap by (by apply armed_pass). clear -Ha Hap Hs0 Hq Hh.
      assert ((h =? t) = false) as E by (apply Z.eqb_neq; by intros ->).
      destruct Hs0 as [->| ->]; unfold armed, dist in *; simpl in *; rewrite Hq, E in *; done. }
    assert (systimer_q s0 = h :: l') as Hq0 by (by destruct Hs0 as [->| ->]).
    assert ((h =? t) = false) as E by (apply Z.eqb_neq; by intros ->).
    unfold armed, dist in *. rewrite Hq0 in Ha0. simpl. rewrite E. exact Ha0.
Qed.

Lemma start_run t tick s : wf s → enqueued (timers s t) = 0 → 0 ≤ tick < 2 ^ 32 → near s tick →
  ∃ s' tm, scm2010_systimer_start_at t tick s = Ret (0, s') ∧ wf s' ∧ (armed s → armed s') ∧ log s' = log s ∧
    (∀ u, timers s' u = started t tick s u) ∧ (tm = now s ∨ tm = now s + next_delay s) ∧
    systimer_q s' = insert_timer (gap_of tm (started t tick s)) t (systimer_q s).
Proof.
  intros Hwf Hoff Htick Hnear. unfold scm2010_systimer_start_at. mstep. rewrite Hoff.
  rewrite (bind_Ret (c_assert (0 =? 0)) _ s tt s eq_refl), (bind_Ret (modify _) _ _ _ _ eq_refl), (bind_Ret get _ _ _ _ eq_refl).
  set (s1 := set_timer t _ s).
  assert (t ∉ systimer_q s) as Hout by (rewrite (wf_flag _ Hwf); lia).
  cbn [systimer_q set_timer s1]. case_bool_decide as Hq.
  - rewrite (bind_Ret (put _) _ _ _ _ eq_refl).
    destruct (finish_start t tick s s1 [t]) as (s'&Hrun&Hw&Ha&Hl&Ht&Hq'); try done; try (by left).
    { intros u. rewrite Hq. set_solver. } { apply NoDup_singleton. }
    exists s', (now s). split; [exact Hrun|]. rewrite Hq', Hq. split_and!; try done. by left.
  - rewrite (bind_Ret _ _ s1 (tt : ()) (set_q (insert_timer (gap_of (now (pass s1)) (started t tick s)) t (systimer_q s)) (pass s1))).
    2: { rewrite (bind_Ret _ _ _ _ _ (read_count_run s1)). unfold modify. do 3 f_equal. apply insert_timer_ext.
         intros u Hu. unfold gap_of. rewrite abs32_ahead; simpl.
         - do 2 f_equal. unfold started. by destruct (u =? t).
         - pose proof (near_started t tick s u Hwf Hoff Hnear Hu) as Hn.
           destruct (near_pass s1 (expiry (started t tick s u))) as [Hn' _]; [apply Hwf|exact Hn|].
           apply near_gap in Hn'; [|apply (delays_pass s1), Hwf]. unfold HORIZON, started in *. simpl in Hn'.
           destruct (u =? t); simpl in *; lia. }
    destruct (finish_start t tick s (pass s1) (insert_timer (gap_of (now (pass s1)) (started t tick s)) t (systimer_q s)))
      as (s'&Hrun&Hw&Ha&Hl&Ht&Hq'); try done.
    + by right.
    + intros u. apply insert_timer_elem.
    + apply insert_timer_nodup; [apply Hwf|done].
    + destruct (systimer_q s); [done|]. simpl. case_match; [by left|by right].
    + exists s', (now (pass s1)). split; [exact Hrun|]. split_and!; try done. by right.
Qed.

(** *** Stopping *)

Lemma stop_idle t s : enqueued (timers s t) = 0 → scm2010_systimer_stop t s = Ret (-1, s).
Proof. intros H. unfold scm2010_systimer_stop. mstep. by rewrite H. Qed.

(** Removing an alarm that is not the first one leaves the compare register right. *)
Lemma armed_remove t s : armed s → head (systimer_q s) ≠ Some t →
  armed (set_timer t (set_enqueued 0 (timers s t)) (set_q (filter (λ u, u ≠ t) (systimer_q s)) s)).
Proof.
  intros Ha Hh. unfold armed, dist in *. simpl. destruct (systimer_q s) as [|h l]; [done|].
  assert (h ≠ t) as Hne by (intros ->; done). rewrite filter_cons_True by done.
  by rewrite (proj2 (Z.eqb_neq _ _) Hne).
Qed.

Lemma stop_run t s : wf s → enqueued (timers s t) ≠ 0 →
  ∃ s', scm2010_systimer_stop t s = Ret (0, s') ∧ wf s' ∧ (armed s → armed s') ∧ log s' = log s ∧
    systimer_q s' = filter (λ u, u ≠ t) (systimer_q s) ∧
    (∀ u, timers s' u = if u =? t then set_enqueued 0 (timers s t) else timers s u).
Proof.
  intros Hwf Hon. unfold scm2010_systimer_stop. mstep. rewrite (proj2 (Z.eqb_neq _ _) Hon).
  rewrite (bind_Ret _ _ _ _ _ (tailq_remove_run t s (proj2 (wf_flag _ Hwf t) Hon))), (bind_Ret (modify _) _ _ _ _ eq_refl).
  change (timers (set_q _ s)) with (timers s). set (s1 := set_timer t _ _).
  pose proof (wf_remove t s Hwf : wf s1) as Hw1. case_bool_decide as Hh.
  - destruct (rearm_run s1 Hw1) as (s'&Hrun&Hw'&Ha'&[Hq Ht Hl _]). rewrite (bind_Ret _ _ _ _ _ Hrun).
    exists s'. split; [done|]. rewrite Hq, Ht, Hl. done.
  - exists s1. split; [done|]. split; [done|]. split; [|done]. intros Ha. by apply armed_remove.
Qed.

(** *** Callbacks *)

(** A callback starts alarms that are not waiting, at ticks that are near. *)
Fixpoint calls_ok (l : list call) (s : sys) : Prop :=
  match l with
  | [] => True
  | CStart t tick :: l => enqueued (timers s t) = 0 ∧ 0 ≤ tick < 2 ^ 32 ∧ near s tick ∧
      ∀ r s', scm2010_systimer_start_at t tick s = Ret (r, s') → calls_ok l s'
  | CStop t :: l => ∀ r s', scm2010_systimer_stop t s = Ret (r, s') → calls_ok l s'
  end.

Lemma run_calls_run l s : wf s → calls_ok l s → ∃ s', run_calls l s = Ret ((), s') ∧ wf s' ∧ log s' = log s.
Proof.
  revert s. induction l as [|[t tick|t] l IH]; intros s Hwf Hok; [by exists s|..]; cbn [run_calls calls_ok] in *.
  - destruct Hok as (Hoff&Htick&Hnear&Hok).
    destruct (start_run t tick s) as (s1&tm&Hrun&Hw&_&Hl&_); [done..|]. rewrite (bind_Ret _ _ _ _ _ Hrun).
    destruct (IH s1 Hw (Hok _ _ Hrun)) as (s'&?&?&?). exists s'. split_and!; [done|done|congruence].
  - destruct (decide (enqueued (timers s t) = 0)) as [Hoff|Hon].
    + rewrite (bind_Ret _ _ _ _ _ (stop_idle t s Hoff)). by apply IH, (Hok _ _ (stop_idle t s Hoff)).
    + destruct (stop_run t s) as (s1&Hrun&Hw&_&Hl&_); [done..|]. rewrite (bind_Ret _ _ _ _ _ Hrun).
      destruct (IH s1 Hw (Hok _ _ Hrun)) as (s'&?&?&?). exists s'. split_and!; [done|done|congruence].
Qed.

(** *** The interrupt handler *)

(** The interrupt is acknowledged and the counter read. *)
Definition taken (s : sys) : sys := pass (set_ctrl (Z.lor (ctrl s) SYS_TIMER_CTRL_CLR_INTR) (set_pending false s)).

(** The state in which the callback of [h] is called. *)
Definition served (h : Z) (s : sys) : sys :=
  add_log (h, now (taken s)) (set_timer h (set_enqueued 0 (timers s h))
    (set_q (filter (λ u, u ≠ h) (systimer_q s)) (taken s))).

Definition callback_ok (s : sys) : Prop :=
  ∀ h l, systimer_q s = h :: l →
    calls_ok (callback (cmp_cb_func (timers s h)) (cmp_cb_arg (timers s h)) (now (taken s))) (served h s).

Lemma wf_taken s : wf s → wf (taken s).
Proof. intros Hwf. apply wf_pass. destruct Hwf; by split. Qed.

Lemma irq_run s : wf s → callback_ok s →
  ∃ s', scm2010_systimer_irq callback s = Ret (0, s') ∧ wf s' ∧ armed s' ∧
    match systimer_q s with
    | [] => log s' = log s
    | h :: _ => if dist s h <=? next_delay s then log s' = log s ++ [(h, now s + next_delay s)]
                else log s' = log s ∧ systimer_q s' = systimer_q s
    end.
Proof.
  intros Hwf Hcb. unfold scm2010_systimer_irq, scm2010_systimer_irq_cmp.
  rewrite (bind_Ret (modify _) _ _ _ _ eq_refl), (bind_Ret (modify _) _ _ _ _ eq_refl).
  set (s0 := set_ctrl _ _). assert (wf s0) as Hw0 by (destruct Hwf; by split).
  unfold callback_ok in Hcb. destruct (systimer_q s) as [|h l] eqn:Hq.
  { exists s0. split.
    - unfold mbind, M_bind, get. cbn [systimer_q s0 set_ctrl set_pending]. by rewrite Hq.
    - split; [done|]. split; [|done]. unfold armed, s0. simpl. by rewrite Hq. }
  specialize (Hcb h l eq_refl). pose proof (wf_taken s Hwf) as Hwt.
  assert (h ∈ systimer_q (taken s)) as Hin by (simpl; rewrite Hq; by left).
  assert (dist (taken s) h = dist s h - next_delay s) as Hdist.
  { apply (near_pass s0); [apply Hw0|]. apply (wf_near _ Hw0). unfold s0. simpl. rewrite Hq. by left. }
  match goal with |- ∃ s', ((get ≫= ?k) ≫= ?k2) s0 = _ ∧ _ =>
    assert (((get ≫= k) ≫= k2) s0 = ((if dist s h <=? next_delay s then
         tailq_remove h;; modify (λ s, set_timer h (set_enqueued 0 (timers s h)) s);;
         modify (add_log (h, now (taken s)));;
         run_calls (callback (cmp_cb_func (timers s h)) (cmp_cb_arg (timers s h)) (now (taken s)))
       else mret ());; rearm;; mret 0) (taken s)) as -> end.
  { rewrite bind_assoc, (bind_Ret get _ _ _ _ eq_refl). cbn [systimer_q s0 set_ctrl set_pending]. rewrite Hq.
    rewrite bind_assoc, (bind_Ret _ _ _ _ _ (read_count_run s0)), bind_assoc, (bind_Ret get _ _ _ _ eq_refl), bind_assoc.
    change (pass s0) with (taken s). rewrite expired_spec.
    - fold (dist (taken s) h). rewrite Hdist. by replace (dist s h - next_delay s <=? 0) with (dist s h <=? next_delay s) by lia.
    - by apply (wf_expiry _ Hwt).
    - apply near_gap; [apply Hwt|by apply (wf_near _ Hwt)]. }
  destruct (dist s h <=? next_delay s).
  - rewrite bind_assoc, (bind_Ret _ _ _ _ _ (tailq_remove_run h _ Hin)), bind_assoc, (bind_Ret (modify _) _ _ _ _ eq_refl),
      bind_assoc, (bind_Ret (modify _) _ _ _ _ eq_refl).
    assert (wf (served h s)) as Hws by (pose proof (wf_remove h _ Hwt) as []; by split).
    destruct (run_calls_run _ (served h s) Hws Hcb) as (s1&Hrun&Hw1&Hl1).
    change (add_log _ _) with (served h s). rewrite (bind_Ret _ _ _ _ _ Hrun).
    destruct (rearm_run s1 Hw1) as (s'&Hrun'&Hw'&Ha'&[_ _ Hl' _]). rewrite (bind_Ret _ _ _ _ _ Hrun').
    exists s'. split; [done|]. split; [done|]. split; [done|]. rewrite Hl', Hl1. done.
  - rewrite bind_ret_l. destruct (rearm_run (taken s) Hwt) as (s'&Hrun'&Hw'&Ha'&[Hq' _ Hl' _]).
    rewrite (bind_Ret _ _ _ _ _ Hrun'). exists s'. split; [done|]. split; [done|]. split; [done|].
    split; [by rewrite Hl'|]. rewrite Hq'. exact Hq.
Qed.

(** *** Sequences of events *)

Lemma restart_run (is_exec : bool) s : wf s →
  (is_exec = true → ∃ h, head (systimer_q s) = Some h ∧ type (timers s h) = SYSTIMER_TYPE_WAKEUP_IDLE) →
  ∃ s', scm2010_systimer_restart is_exec s = Ret (0, s') ∧ wf s' ∧ armed s' ∧ log s' = log s.
Proof.
  intros Hwf Hex. unfold scm2010_systimer_restart. destruct is_exec.
  - destruct (Hex eq_refl) as (h&Hh&Hty). rewrite bind_assoc, (bind_Ret get _ _ _ _ eq_refl), Hh, bind_assoc.
    rewrite (bind_Ret (lift_opt (Some h)) _ _ _ _ eq_refl), Hty, bind_assoc.
    rewrite (bind_Ret (c_assert (SYSTIMER_TYPE_WAKEUP_IDLE =? SYSTIMER_TYPE_WAKEUP_IDLE)) _ s tt s eq_refl), bind_assoc.
    assert (h ∈ systimer_q s) as Hin by (destruct (systimer_q s); [done|]; injection Hh as ->; by left).
    rewrite (bind_Ret _ _ _ _ _ (tailq_remove_run h s Hin)), (bind_Ret (modify _) _ _ _ _ eq_refl).
    destruct (rearm_run _ (wf_remove h s Hwf)) as (s'&Hrun&Hw&Ha&[_ _ Hl _]). rewrite (bind_Ret _ _ _ _ _ Hrun).
    by exists s'.
  - rewrite bind_ret_l. destruct (rearm_run s Hwf) as (s'&Hrun&Hw&Ha&[_ _ Hl _]). rewrite (bind_Ret _ _ _ _ _ Hrun).
    by exists s'.
Qed.

Definition set_delays (ds : list Z) (s : sys) : sys :=
  Sys (systimer_q s) (timers s) (ctrl s) (compare s) (now s) ds (pending s) (snap_cb_func s) (log s).

(** What can happen: time passes and the next operation takes [ds]; a client
    calls; an interrupt is taken, also a spurious one; the chip wakes up. *)
Inductive event :=
| ETime (d : Z) (ds : list Z)
| ESetCb (t ty f a : Z)
| EStart (t tick : Z)
| EStop (t : Z)
| EIrq
| ERestart (is_exec : bool).

Definition do_event (e : event) : M sys unit :=
  match e with
  | ETime d ds => modify (λ s, set_delays ds (elapse d s))
  | ESetCb t ty f a => scm2010_systimer_set_cmp_cb t ty f a;; mret ()
  | EStart t tick => scm2010_systimer_start_at t tick;; mret ()
  | EStop t => scm2010_systimer_stop t;; mret ()
  | EIrq => scm2010_systimer_irq callback;; mret ()
  | ERestart b => scm2010_systimer_restart b;; mret ()
  end.

(** Alarms are started when they are not waiting, for a tick that is near, and
    no alarm is held up for longer than the horizon. *)
Definition admissible (e : event) (s : sys) : Prop :=
  match e with
  | ETime d ds => 0 ≤ d ∧ Forall (λ d, 0 ≤ d) ds ∧
      ∀ t, t ∈ systimer_q s → - HORIZON + total ds < dist s t - d
  | ESetCb t _ _ _ => enqueued (timers s t) = 0
  | EStart t tick => enqueued (timers s t) = 0 ∧ 0 ≤ tick < 2 ^ 32 ∧ near s tick
  | EStop _ => True
  | EIrq => callback_ok s
  | ERestart b => b = true → ∃ h, head (systimer_q s) = Some h ∧ type (timers s h) = SYSTIMER_TYPE_WAKEUP_IDLE
  end.

Lemma time_run d ds s : wf s → admissible (ETime d ds) s →
  wf (set_delays ds (elapse d s)) ∧ (armed s → armed (set_delays ds (elapse d s))) ∧
  ∀ t, t ∈ systimer_q s → dist (elapse d s) t = dist s t - d.
Proof.
  intros Hwf (Hd&Hds&Hn). pose proof (total_nonneg ds Hds).
  assert (∀ t, t ∈ systimer_q s → dist (elapse d s) t = dist s t - d) as Hdist.
  { intros t Ht. specialize (Hn t Ht). apply dist_elapse; [unfold HORIZON in *; lia|done]. }
  split; [|split; [|done]].
  - destruct Hwf as [H1 H2 H3 H4 _]. split; [done..| |done].
    intros t Ht. specialize (Hn t Ht). destruct (H4 t Ht) as [_ Hup]. split.
    + change (- HORIZON + total ds < dist (elapse d s) t). rewrite Hdist by done. lia.
    + change (dist (elapse d s) t ≤ HORIZON). rewrite Hdist by done. unfold dist. lia.
  - intros Ha. apply (armed_elapse d s) in Ha; [exact Ha|done|].
    intros h Hh. split; [by apply (wf_expiry _ Hwf)|]. specialize (Hn h Hh). unfold HORIZON in *. lia.
Qed.

Lemma event_run e s : wf s → armed s → admissible e s → ∃ s', do_event e s = Ret ((), s') ∧ wf s' ∧ armed s'.
Proof.
  intros Hwf Ha Hok. destruct e as [d ds|t ty f a|t tick|t| |b]; cbn [do_event].
  - eexists. split; [reflexivity|]. destruct (time_run d ds s Hwf Hok) as (?&?&_). auto.
  - unfold scm2010_systimer_set_cmp_cb. rewrite bind_assoc, (bind_Ret (modify _) _ _ _ _ eq_refl), bind_ret_l.
    eexists. split; [reflexivity|]. cbn in Hok.
    assert (∀ u, u ∈ systimer_q s → (u =? t) = false) as Hne.
    { intros u Hu. apply Z.eqb_neq. intros ->. by apply (wf_flag _ Hwf) in Hu. }
    split.
    + destruct Hwf as [H1 H2 H3 H4 H5]. split; [done| | | |done]; simpl.
      * intros u. rewrite H2. destruct (Z.eqb_spec u t) as [->|]; [|done]. simpl. lia.
      * intros u Hu. rewrite (Hne u Hu). by apply H3.
      * intros u Hu. rewrite (Hne u Hu). by apply H4.
    + unfold armed, dist in *. simpl. destruct (systimer_q s) as [|h l]; [done|].
      rewrite (Hne h) by (by left). done.
  - destruct Hok as (?&?&?). destruct (start_run t tick s) as (s'&tm&Hrun&Hw&Ha'&_); [done..|].
    rewrite (bind_Ret _ _ _ _ _ Hrun). exists s'. auto.
  - destruct (decide (enqueued (timers s t) = 0)) as [Hoff|Hon].
    + rewrite (bind_Ret _ _ _ _ _ (stop_idle t s Hoff)). by exists s.
    + destruct (stop_run t s) as (s'&Hrun&Hw&Ha'&_); [done..|]. rewrite (bind_Ret _ _ _ _ _ Hrun). exists s'. auto.
  - destruct (irq_run s Hwf Hok) as (s'&Hrun&Hw&Ha'&_). rewrite (bind_Ret _ _ _ _ _ Hrun). exists s'. auto.
  - destruct (restart_run b s Hwf Hok) as (s'&Hrun&Hw&Ha'&_). rewrite (bind_Ret _ _ _ _ _ Hrun). exists s'. auto.
Qed.

(** The driver after [probe], and what it can get to. *)
Inductive reach : sys → Prop :=
| reach_probe s : systimer_q s = [] → (∀ t, enqueued (timers s t) = 0) → Forall (λ d, 0 ≤ d) (delays s) → reach s
| reach_event s e s' : reach s → admissible e s → do_event e s = Ret ((), s') → reach s'.

Lemma reach_wf s : reach s → wf s ∧ armed s.
Proof.
  induction 1 as [s Hq Hf Hd|s e s' Hr [Hwf Ha] Hok Hrun].
  - split; [|unfold armed; by rewrite Hq]. split; rewrite ?Hq; try done; [apply NoDup_nil_2| | |]; intros t.
    + rewrite Hf. set_solver.
    + set_solver.
    + set_solver.
  - destruct (event_run e s Hwf Ha Hok) as (s2&Hrun2&?&?). rewrite Hrun in Hrun2. by injection Hrun2 as <-.
Qed.

(** *** Order *)

(** In a sorted queue an alarm goes behind those that are not later. *)
Lemma insert_sorted (f : Z → Z) t l : StronglySorted (λ a b, f a ≤ f b) l →
  insert_timer f t l = filter (λ u, f u ≤ f t) l ++ t :: filter (λ u, f t < f u) l ∧
  StronglySorted (λ a b, f a ≤ f b) (insert_timer f t l).
Proof.
  induction 1 as [|v l Hs IH Hv]; [split; [done|repeat constructor]|]. cbn [insert_timer].
  destruct (Z.ltb_spec (f t) (f v)) as [Hlt|Hge].
  - rewrite Forall_forall in Hv. split.
    + rewrite filter_cons_False, filter_cons_True by lia. rewrite filter_none, filter_all; [done| |].
      * intros u Hu. specialize (Hv u Hu). lia.
      * intros u Hu. specialize (Hv u Hu). lia.
    + constructor; [by constructor; [|apply Forall_forall]|]. apply Forall_cons. split; [lia|].
      apply Forall_forall. intros u Hu. specialize (Hv u Hu). lia.
  - destruct IH as [IH1 IH2]. rewrite filter_cons_True, filter_cons_False by lia. split; [by rewrite IH1|].
    constructor; [done|]. apply Forall_forall. intros u [->|Hu]%insert_timer_elem; [done|].
    rewrite Forall_forall in Hv. by apply Hv.
Qed.

Lemma sorted_ext (f g : Z → Z) l : (∀ a b, a ∈ l → b ∈ l → f a ≤ f b → g a ≤ g b) →
  StronglySorted (λ a b, f a ≤ f b) l → StronglySorted (λ a b, g a ≤ g b) l.
Proof.
  intros H Hs. induction Hs as [|v l Hs IH Hv]; constructor.
  - apply IH. intros a b Ha Hb. apply H; by right.
  - rewrite Forall_forall in *. intros u Hu. apply H; [by left|by right|by apply Hv].
Qed.

Lemma filter_ext (P Q : Z → Prop) `{!∀ x, Decision (P x), !∀ x, Decision (Q x)} (l : list Z) :
  (∀ x, x ∈ l → P x ↔ Q x) → filter P l = filter Q l.
Proof.
  induction l as [|v l IH]; intros Heq; [done|].
  assert (filter P l = filter Q l) as E by (apply IH; intros; apply Heq; by right).
  assert (P v ↔ Q v) as Hv by (apply Heq; by left). destruct (decide (P v)) as [Hp|Hp].
  - rewrite !filter_cons_True by tauto. by rewrite E.
  - rewrite !filter_cons_False by tauto. done.
Qed.

(** ** Properties *)

(** C14: every state of the system timer is well-formed and armed.  For any
    sequence of starting, stopping, interrupts (also spurious ones) with
    callbacks that start and stop alarms themselves, wake-ups and passing time,
    also inside the operations, with alarms that are started while they are not
    waiting, at most 2^28 ticks ahead, and served less than 2^28 ticks late: the
    queue has no duplicates, a timer is marked exactly when it is in the queue,
    the compare register holds the first expiry, and the interrupt for it is
    pending or still to come; and no operation fails an assertion or follows a
    dangling link. *)
Theorem systimer_invariant s : reach s →
  wf s ∧ armed s ∧ ∀ e, admissible e s → ∃ s', do_event e s = Ret ((), s').
Proof.
  intros Hr. destruct (reach_wf s Hr) as [Hwf Ha]. split; [done|]. split; [done|].
  intros e Hok. destruct (event_run e s Hwf Ha Hok) as (s'&?&_). by exists s'.
Qed.

(** C21: an alarm within the horizon is neither missed nor early, across
    wrap-arounds of the counter.  In every state that is reached with alarms at
    most 2^28 ticks (13.4 s) ahead and interrupts served less than 2^28 ticks
    late, as in C14: when as much time has passed as the first alarm was ahead,
    its interrupt is pending; and an interrupt calls back the first alarm
    exactly when it is due at the time the handler reads the counter, once, and
    leaves the queue alone otherwise.  Beyond the horizon an alarm can fire at
    once (long_alarm_fires_at_once). *)
Theorem systimer_alarm_exact s h l : reach s → systimer_q s = h :: l →
  (∀ d ds, admissible (ETime d ds) s → dist s h ≤ d →
     ∃ s', do_event (ETime d ds) s = Ret ((), s') ∧ pending s' = true) ∧
  (callback_ok s → ∃ s', scm2010_systimer_irq callback s = Ret (0, s') ∧
     (dist s h ≤ next_delay s → log s' = log s ++ [(h, now s + next_delay s)]) ∧
     (next_delay s < dist s h → log s' = log s ∧ systimer_q s' = h :: l)).
Proof.
  intros Hr Hq. destruct (reach_wf s Hr) as [Hwf Ha]. split.
  - intros d ds Hok Hd. eexists. split; [reflexivity|].
    destruct (time_run d ds s Hwf Hok) as (_&Ha'&Hdist). specialize (Ha' Ha).
    specialize (Hdist h ltac:(rewrite Hq; by left)). unfold armed in Ha'. cbn [systimer_q set_delays elapse] in Ha'.
    rewrite Hq in Ha'. destruct Ha' as (_&_&[Hp|Hp]); [done|].
    change (dist (set_delays ds (elapse d s)) h) with (dist (elapse d s) h) in Hp. lia.
  - intros Hcb. destruct (irq_run s Hwf Hcb) as (s'&Hrun&_&_&Hlog). exists s'. split; [done|]. rewrite Hq in Hlog.
    destruct (Z.leb_spec (dist s h) (next_delay s)); split; [done|lia|lia|done].
Qed.

(** alarms are queued in the order of their expiry.  When no waiting alarm
    is overdue, a new one goes behind all that are due no later and before all
    that are due later, also when some of the expiry values have wrapped around,
    and the queue stays sorted. *)
Theorem systimer_start_ordered t tick s : reach s → enqueued (timers s t) = 0 → 0 ≤ tick < 2 ^ 32 →
  total (delays s) ≤ ahead (now s) tick ≤ HORIZON →
  (∀ u, u ∈ systimer_q s → total (delays s) ≤ dist s u) →
  StronglySorted (λ a b, dist s a ≤ dist s b) (systimer_q s) →
  ∃ s', scm2010_systimer_start_at t tick s = Ret (0, s') ∧
    systimer_q s' = filter (λ u, dist s u ≤ ahead (now s) tick) (systimer_q s) ++
                    t :: filter (λ u, ahead (now s) tick < dist s u) (systimer_q s) ∧
    StronglySorted (λ a b, ahead (now s) (expiry (timers s' a)) ≤ ahead (now s) (expiry (timers s' b))) (systimer_q s').
Proof.
  intros Hr Hoff Htick Hahead Hover Hsort. destruct (reach_wf s Hr) as [Hwf _].
  pose proof (total_nonneg _ (wf_delays _ Hwf)) as Htot. pose proof (next_delay_nonneg s (wf_delays _ Hwf)) as Hnd.
  assert (next_delay s ≤ total (delays s)) as Hle.
  { pose proof (total_nonneg _ (delays_pass s (wf_delays _ Hwf))) as Hp. rewrite total_pass in Hp. lia. }
  destruct (start_run t tick s) as (s'&tm&Hrun&_&_&_&Ht&Htm&Hq); [done|done|done|split; unfold HORIZON in *; lia|].
  exists s'. split; [done|].
  assert (t ∉ systimer_q s) as Hout by (rewrite (wf_flag _ Hwf); lia).
  set (f := gap_of tm (started t tick s)) in *.
  set (del := tm - now s). assert (0 ≤ del ≤ total (delays s)) as Hdel by (unfold del; lia).
  assert (∀ u, u = t ∨ u ∈ systimer_q s → f u = ahead (now s) (expiry (started t tick s u)) - del) as Hf.
  { intros u Hu. unfold f, gap_of. assert (total (delays s) ≤ ahead (now s) (expiry (started t tick s u)) ≤ HORIZON) as Hb.
    { unfold started. destruct (Z.eqb_spec u t) as [->|]; [done|]. destruct Hu as [|Hu]; [done|].
      specialize (Hover u Hu). split; [done|]. apply (wf_near _ Hwf u Hu). }
    replace tm with (now s + del) by (unfold del; lia). rewrite ahead_later by (unfold HORIZON in *; lia). lia. }
  assert (f t = ahead (now s) tick - del) as Hft.
  { rewrite Hf by (by left). unfold started. by rewrite Z.eqb_refl. }
  assert (∀ u, u ∈ systimer_q s → f u = dist s u - del) as Hfu.
  { intros u Hu. rewrite Hf by (by right). unfold started. destruct (Z.eqb_spec u t) as [->|]; done. }
  destruct (insert_sorted f t (systimer_q s)) as [Hi Hs].
  { revert Hsort. apply sorted_ext. intros a b Ha Hb. rewrite !Hfu by done. lia. }
  rewrite Hq. split.
  - rewrite Hi. f_equal; [|f_equal]; apply filter_ext; intros u Hu; rewrite Hft, Hfu by done; lia.
  - revert Hs. apply sorted_ext. intros a b Ha Hb. rewrite insert_timer_elem in Ha, Hb.
    rewrite !Hf by done. rewrite !Ht. lia.
Qed.

End Theorems.

(** ** Calibration *)

Definition ratio_gap (measure : Z → snap) (i : Z) : option Z :=
  (λ r, abs32 (61035 - r)) <$> scm2010_systimer_calc_ratio (measure i).

Lemma trim_loop_best measure n i gap trim : (∀ k, i ≤ k < i + Z.of_nat n → is_Some (ratio_gap measure k)) →
  ∃ g t, trim_loop measure n i gap trim = Some (g, t) ∧ g ≤ gap ∧
    (∀ k gk, i ≤ k < i + Z.of_nat n → ratio_gap measure k = Some gk → g ≤ gk) ∧
    ((g, t) = (gap, trim) ∨ i ≤ t < i + Z.of_nat n ∧ ratio_gap measure t = Some g).
Proof.
  revert i gap trim. induction n as [|n IH]; intros i gap trim Hm.
  { exists gap, trim. split; [done|]. split; [done|]. split; [lia|by left]. }
  cbn [trim_loop]. destruct (Hm i ltac:(lia)) as [g0 Hg0]. unfold ratio_gap in Hg0.
  destruct (scm2010_systimer_calc_ratio (measure i)) as [r|] eqn:Hr; [|done]. injection Hg0 as Hg0.
  assert (∀ k, i + 1 ≤ k < i + 1 + Z.of_nat n → is_Some (ratio_gap measure k)) as Hm' by (intros; apply Hm; lia).
  assert (ratio_gap measure i = Some g0) as Hi by (unfold ratio_gap; rewrite Hr; simpl; by rewrite Hg0).
  rewrite Hg0, Z.gtb_ltb. destruct (Z.ltb_spec g0 gap) as [Hlt|Hge].
  - destruct (IH (i + 1) g0 i Hm') as (g&t&Hrun&Hle&Hall&Hres). exists g, t. split; [done|]. split; [lia|]. split.
    + intros k gk Hk Hgk. destruct (Z.eq_dec k i) as [->|]; [|apply (Hall k); [lia|done]].
      rewrite Hi in Hgk. injection Hgk as <-. done.
    + destruct Hres as [[= -> ->]|[? ?]]; right; [split; [lia|done]|split; [lia|done]].
  - destruct (IH (i + 1) gap trim Hm') as (g&t&Hrun&Hle&Hall&Hres). exists g, t. split; [done|]. split; [done|]. split.
    + intros k gk Hk Hgk. destruct (Z.eq_dec k i) as [->|]; [|apply (Hall k); [lia|done]].
      rewrite Hi in Hgk. injection Hgk as <-. lia.
    + destruct Hres as [?|[? ?]]; [by left|right; split; [lia|done]].
Qed.

(** The trim value that is kept is one whose ratio is nearest to 610.35. *)
Lemma trim_best measure : (∀ k, 0 ≤ k < 64 → is_Some (ratio_gap measure k)) →
  ∃ t g, scm2010_systimer_trim measure = Some t ∧ 0 ≤ t < 64 ∧ ratio_gap measure t = Some g ∧
    ∀ k gk, 0 ≤ k < 64 → ratio_gap measure k = Some gk → g ≤ gk.
Proof.
  intros Hm. destruct (trim_loop_best measure 64 0 0xFFFFFFFF 0 Hm) as (g&t&Hrun&Hle&Hall&Hres).
  exists t, g. unfold scm2010_systimer_trim. rewrite Hrun. split; [done|].
  destruct Hres as [[= -> ->]|[? ?]]; [|done]. exfalso.
  destruct (Hm 0 ltac:(lia)) as [g0 Hg0]. specialize (Hall 0 g0 ltac:(lia) Hg0). unfold ratio_gap in Hg0.
  destruct (scm2010_systimer_calc_ratio (measure 0)) as [r|]; [|done]. injection Hg0 as <-.
  unfold abs32 in Hall. pose proof (s32_range (61035 - r)). rewrite u32_id in Hall; lia.
Qed.

(** Across a wrap-around the difference of two counter readings is one too small. *)
Lemma timer_diff_wrap a b : 0 ≤ a < b → b < 2 ^ 32 → SYS_TIMER_DIFF a b SYS_TIMER_COUNT_MAX = u32 (a - b) - 1.
Proof.
  intros Ha Hb. unfold SYS_TIMER_DIFF, SYS_TIMER_COUNT_MAX. rewrite Z.geb_leb, (proj2 (Z.leb_gt _ _)) by lia.
  rewrite u32_id by lia. rewrite (u32_unique (a - b) (a - b + 2 ^ 32) (-1)) by lia. lia.
Qed.

(** ** Witnesses *)

Module Demo.

#[local] Instance unit : CompareUnit := {| matches t d cmp := (cmp - (t + 1)) mod 2 ^ 32 <? d |}.

#[local] Instance unit_law : CompareLaw unit.
Proof.
  split. intros t d k cmp Hk <-. simpl. apply Z.ltb_lt.
  assert ((u32 (t + k) - (t + 1)) mod 2 ^ 32 ≤ k - 1); [|lia].
  unfold u32. rewrite Zminus_mod_idemp_l. replace (t + k - (t + 1)) with (k - 1) by lia. apply Z.mod_le; lia.
Qed.

Definition no_calls (f a time : Z) : list call := [].

Definition fresh (t : Z) : sys := Sys [] (λ _, Systimer 0 0 0 0 0) 0 0 t [] false 0 [].
Definition after (e : event) (s : sys) : sys := match do_event no_calls e s with Ret (_, s) => s | _ => s end.

(** 100 ticks before the counter wraps. *)
Definition s0 : sys := fresh (2 ^ 32 - 100).
Definition s1 : sys := after (EStart 7 50) s0.

Lemma s0_reach : reach no_calls s0.
Proof. apply reach_probe; [reflexivity|reflexivity|constructor]. Qed.

Lemma s1_reach : reach no_calls s1.
Proof.
  apply (reach_event no_calls s0 (EStart 7 50)); [exact s0_reach| |reflexivity].
  split; [reflexivity|]. split; [lia|]. by vm_compute.
Qed.

Lemma systimer_invariant_witness :
  wf s1 ∧ armed s1 ∧ ∃ s', do_event no_calls (EStop 7) s1 = Ret ((), s').
Proof.
  destruct (systimer_invariant no_calls s1 s1_reach) as (?&?&H). split; [done|]. split; [done|]. apply H. exact I.
Defined.

(** The alarm at tick 50 is 150 ticks ahead. *)
Lemma systimer_alarm_exact_witness :
  (∃ s', do_event no_calls (ETime 160 []) s1 = Ret ((), s') ∧ pending s' = true) ∧
  (∃ s', scm2010_systimer_irq no_calls s1 = Ret (0, s') ∧ log s' = []).
Proof.
  destruct (systimer_alarm_exact no_calls s1 7 [] s1_reach eq_refl) as [H1 H2]. split.
  - apply H1.
    + split; [lia|]. split; [constructor|]. intros t Ht. apply list_elem_of_singleton in Ht as ->. by vm_compute.
    + by vm_compute.
  - destruct H2 as (s'&Hrun&_&Hl).
    + intros h l _. exact I.
    + exists s'. split; [exact Hrun|]. by destruct Hl as [-> _].
Defined.

(** An alarm at tick 20 goes before the one at tick 50, one at tick 60 behind it. *)
Lemma systimer_start_ordered_witness :
  (∃ s', scm2010_systimer_start_at 8 20 s1 = Ret (0, s') ∧ systimer_q s' = [8; 7]) ∧
  (∃ s', scm2010_systimer_start_at 8 60 s1 = Ret (0, s') ∧ systimer_q s' = [7; 8]).
Proof.
  assert (∀ tick, 20 ≤ tick ≤ 60 → ∃ s', scm2010_systimer_start_at 8 tick s1 = Ret (0, s') ∧
    systimer_q s' = filter (λ u, dist s1 u ≤ ahead (now s1) tick) [7] ++ 8 :: filter (λ u, ahead (now s1) tick < dist s1 u) [7]) as H.
  { intros tick Ht. destruct (systimer_start_ordered no_calls 8 tick s1 s1_reach) as (s'&Hrun&Hq&_).
    - reflexivity.
    - lia.
    - assert (ahead (now s1) tick = tick + 100) as ->; [|change (total (delays s1)) with 0; unfold HORIZON; lia].
      apply (s32_unique _ _ (-1)); [|lia]. change (now s1) with (2 ^ 32 - 100). lia.
    - intros u Hu. apply list_elem_of_singleton in Hu as ->. by vm_compute.
    - repeat constructor.
    - by exists s'. }
  split; [destruct (H 20) as (s'&Hr&Hq); [lia|]|destruct (H 60) as (s'&Hr&Hq); [lia|]];
    (exists s'; split; [exact Hr|]; rewrite Hq; by vm_compute).
Defined.

(** Beyond the horizon: an alarm 40 seconds ahead, across the wrap-around of
    the counter, counts as expired at once. *)
Lemma long_alarm_fires_at_once :
  let s := after (EStart 7 0x10000000) (fresh 0xE0000000) in
  pending s = true ∧ log (after EIrq s) = [(7, 0xE0000000)].
Proof. by vm_compute. Qed.

(** An overdue alarm does not keep its place: one that is due later, but nearer
    to the present, goes before it. *)
Lemma overdue_alarm_overtaken :
  systimer_q (after (EStart 8 250) (after (ETime 100 []) (after (EStart 7 100) (fresh 100)))) = [8; 7].
Proof. by vm_compute. Qed.

End Demo.
