(* ===== verification/Pm.v ===== *)
(** * The power manager: src/hal/soc/scm2010/pm.c

    The idle task calls [pm_pre_sleep_processing] with interrupts disabled.  It
    decides how long and how deep to sleep, prepares the chip and goes to sleep;
    [pm_post_sleep_processing] brings everything back.  Suspending and resuming
    the devices is in src/hal/drivers/core/device.c.

    The context, the retention RAM that is shared with the watcher firmware, and
    the registers are one memory, a value for every [loc].  What happens during
    a sleep (how long it takes, which registers and which words of the retention
    RAM change) is a parameter of the sleep, a [nap].  Readings of the machine
    timer are separated by any delays.  The single-core build with Wi-Fi, with
    control of the always-on pins and without the test hooks is modelled. *)

From stdpp Require Import base tactics numbers list gmap functions.
From S2P Require Import Prelude Systimer.

(** ** Memory *)

Inductive loc :=
| mtime | mtimecmp | wtime | wtime_next | ttime | ttime_next | wtype
| hib_limit_clr | hib_limit_cnt | hib_max_cnt | hib_min_time | hib_save_time
| power_down | pm_mode | pm_mode_enabled | pm_lpwr_io_off | callback
| wakeup_src | wakeup_evt | wakeup_reason | wakeup_type
| gpio_enabled | gpio_saved (ofs : Z)
| rtc32k | ratio | rtc | plic_en (src hart : Z)
| stay_active | stay_active_mtime
| pm_pmu_mode (row mode : Z)
(* retention RAM *)
| rram_wakeup_flag | rram_sync_flag | rram_exec_watcher | rram_pm_mode
| rram_rtc_value | rram_mtime_value | rram_next_mtime_value
| rram_wk_src | rram_wk_evt | rram_wk_fb_reason | rram_wk_fb_type | rram_wk_time
| rram_act_ratio | rram_ratio | rram_feature
(* registers *)
| PLIC_INT_ENABLE (src hart : Z) | LOWPOWER_CTRL | RESET_VECTOR (hart : Z) | CORE_RESET_CTRL
| UART_CFG (i : Z) | SYS_TIMER_RATIO | AON_MEMEMA | TOP_CFG | RF_LP | GPIO (ofs : Z) | MTIMECMP | RTC_ALARM | PMU_IRQ.

#[export] Instance loc_eq_dec : EqDecision loc.
Proof. solve_decision. Defined.

(** Calls of other parts of the system, in their order. *)
Inductive event :=
| ESuspend (dev : nat) | EResume (dev : nat) | ECallback (mode : Z)
| EWfi | ELowpowerStart | EAonVoltage (v : Z) | EPmuMode (mode : Z) | EClocks
| EDldo0V75 | EDcdc1V15
| ESystimerLoad | ESystimerRestart (is_exec : Z) | ESnap | EStayTimer (ticks : Z).

Record pm := Pm {
  mem : loc → Z;
  (** time in ticks of the machine timer, and the timer's distance from it *)
  now : Z;
  offset : Z;
  delays : list Z;
  events : list event;
}.

Definition u64 (x : Z) : Z := x mod 2 ^ 64.

Definition ld (l : loc) : M pm Z := s ← get; mret (mem s l).
Definition st (l : loc) (v : Z) : M pm unit :=
  modify (λ s, Pm (<[l := v]> (mem s)) (now s) (offset s) (delays s) (events s)).
Definition emit (e : event) : M pm unit :=
  modify (λ s, Pm (mem s) (now s) (offset s) (delays s) (events s ++ [e])).

(** ** Constants *)

Definition PM_LIGHT_SLEEP : Z := 0.
Definition PM_SLEEP : Z := 1.
Definition PM_DEEP_SLEEP : Z := 2.
Definition PM_HIBERNATION : Z := 3.

Definition PM_MODE_ACTIVE : Z := 0.
Definition PM_MODE_IDLE : Z := 1.
Definition PM_MODE_LIGHT_SLEEP : Z := 2.
Definition PM_MODE_SLEEP : Z := 3.
Definition PM_MODE_DEEP_SLEEP_0 : Z := 4.
Definition PM_MODE_DEEP_SLEEP : Z := 5.
Definition PM_MODE_HIBERNATION : Z := 6.

Definition PM_WAKEUP_TYPE_FULL : Z := 0.
Definition PM_WAKEUP_TYPE_WATCHER : Z := 1.

Definition PM_DEVICE_TIMED : Z := 3.
Definition PM_DEVICE_APP : Z := 4.

Definition USTIME : Z := 1000 * 1000.
Definition RTCTIME : Z := 100 * 20.
Definition PM_MAX_LOWPOWER_MTIME_DURATION : Z := (1000000 * 60 * 60 * 23 - 10000) * 10.
Definition RTC_COUNT_MAX : Z := 0xA8BFFFFF.
Definition PM_HIB_PREP_EXTEND_USEC : Z := 100 * 1000.

Definition WAKEUP_SRC_GPIO : Z := BIT 0.
Definition WAKEUP_SRC_RTC : Z := BIT 1.
Definition WAKEUP_SRC_ALL : Z := 0x7ff.
Definition CHIP_IDLE_EN : Z := BIT 13.
Definition CHIP_SLEEP_EN : Z := BIT 14.
Definition WAKEUP_EVENT_CLR : Z := BIT 18.

Definition RRAM_WAKEUP_WATCHER : Z := BIT 0.
Definition RRAM_WAKEUP_RESET : Z := BIT 1.
Definition RRAM_EXT_HIB_TIME : Z := BIT 2.
Definition RRAM_SAVE_FLASH : Z := BIT 0.
Definition RRAM_SAVE_CANCEL : Z := BIT 1.
Definition RRAM_WATCHER_EXEC : Z := BIT 0.

Definition PM_FEATURE_VOLTAGE_CTRL : Z := BIT 0.
Definition PM_FEATURE_AON_VOLTAGE_CTRL : Z := BIT 1.
Definition DIG_LDO_LP_MODE : Z := BIT 5.
Definition PM_FEATURE_PLL_CTRL : Z := BIT 2.
Definition PM_FEATURE_WAKEUP_IO_OFF : Z := BIT 3.
Definition PM_FEATURE_FLASH_DPD : Z := BIT 4.
Definition PM_FEATURE_WC_LOG : Z := BIT 5.
Definition PM_FEATURE_WC_UART1 : Z := BIT 7.
Definition PM_FEATURE_AON_VOLTAGE_CTRL_OCR : Z := BIT 9.
Definition PM_FEATURE_WAKEUP_LOG_ON : Z := BIT 10.
Definition qLR_0V7 : Z := 0.
Definition qLR_0V8 : Z := 1.
Definition iLR_0V8 : Z := 2.

(** pmu.h: enum pmu_mode *)
Definition ACTIVE_TO_DEEP_SLEEP_0 : Z := 0.
Definition ACTIVE_TO_DEEP_SLEEP_0_IO_OFF : Z := 1.
Definition ACTIVE_TO_DEEP_SLEEP_1 : Z := 2.
Definition ACTIVE_TO_DEEP_SLEEP_1_IO_OFF : Z := 3.
Definition ACTIVE_TO_HIBERNATION : Z := 4.
Definition ACTIVE_TO_HIBERNATION_IO_OFF : Z := 5.
Definition ACTIVE_TO_SLEEP : Z := 7.
Definition ACTIVE_TO_SLEEP_IO_OFF : Z := 8.
Definition WAKEUP_TO_ACTIVE : Z := 14.
Definition WAKEUP_TO_ACTIVE_IO_OFF : Z := 15.

Definition PMU_LOWPOWER : Z := 0.
Definition PMU_WAKEUP : Z := 1.

Definition PM_FEAT_TIMER_OFF : Z := 0x1.
Definition PM_FEAT_SYS_CG : Z := 0x2.
Definition PM_FEAT_SYS_PG : Z := 0x4.
Definition PM_FEAT_CORE_PG : Z := 0x8.

Definition pm_feat (mode : Z) : Z :=
  if mode =? PM_MODE_LIGHT_SLEEP then Z.lor PM_FEAT_TIMER_OFF PM_FEAT_SYS_CG
  else if mode =? PM_MODE_SLEEP then Z.lor PM_FEAT_TIMER_OFF PM_FEAT_SYS_CG
  else if mode =? PM_MODE_DEEP_SLEEP_0 then Z.lor (Z.lor PM_FEAT_TIMER_OFF PM_FEAT_SYS_CG) PM_FEAT_CORE_PG
  else if mode =? PM_MODE_DEEP_SLEEP then Z.lor (Z.lor PM_FEAT_TIMER_OFF PM_FEAT_SYS_PG) PM_FEAT_CORE_PG
  else if mode =? PM_MODE_HIBERNATION then Z.lor (Z.lor PM_FEAT_TIMER_OFF PM_FEAT_SYS_PG) PM_FEAT_CORE_PG
  else 0.

Definition feat (mode f : Z) : bool := negb (Z.land (pm_feat mode) f =? 0).

(** The configuration: the machine timer's ticks per microsecond, ticks of the
    RTOS per second, the limits of hibernation (count, and seconds after which
    it starts anew), whether the SDIO host has a say in sleeping, whether the
    oscillator is known to change its rate asleep, two addresses, and features. *)
Class PmConfig := {
  XTALTIME : Z;
  hz : Z;
  PM_HIBERNATION_LIMIT_COUNT : Z;
  PM_HIBERNATION_LIMIT_DURATION : Z;
  SDIO_PM : bool;
  VOLTAGE_CTRL_OCR : bool;
  pm_wakeup_wfi : Z;
  RRAM_FW_ADDR : Z;
  (** the features that are configured, and whether I/O is off in low power *)
  PM_FEATURES : Z;
  PM_LOWPOWER_IO_OFF : bool;
}.

(** The real-time clock: its 32 kHz counter, and the raw register, at a time. *)
Class RtcHw := {
  rtc_count : Z → Z;
  rtc_reg : Z → Z;
}.

(** One sleep: its length, and what the hardware and the watcher firmware
    change meanwhile. *)
Record nap := Nap { slept : Z; changes : list (loc * Z) }.

(** A device: whether its driver can suspend and resume, and what suspending
    returns this time. *)
Record device := Device { has_suspend : bool; has_resume : bool; suspend_ret : Z }.

Section Pm.
Context `{PmConfig, RtcHw}.

(** ** Times of the modes, in microseconds *)

Definition PM_SDIO_SW_PREPARE_TIME : Z := if SDIO_PM then 20000 else 0.
Definition PM_DEFAULT_SLEEP_THRESHOLD : Z := PM_SDIO_SW_PREPARE_TIME + 4000 + 5000.

(** Rows of [pm_settings]. *)
Record pm_time_settings := Settings {
  sw_save_time : Z; hw_save_time : Z; sw_restore_time : Z; hw_restore_time : Z; wh_restore_time : Z }.

Definition pm_settings (name : Z) : pm_time_settings :=
  if name =? PM_LIGHT_SLEEP then Settings (1500 + 5000) 0 1100 20 0
  else if name =? PM_SLEEP then Settings (1500 + 5000) 0 1100 6000 0
  else if name =? PM_DEEP_SLEEP then Settings (PM_SDIO_SW_PREPARE_TIME + 6500 + 5000) 0 6800 6000 3800
  else Settings (PM_SDIO_SW_PREPARE_TIME + 1650000 + 5000) 0 54000 6000 0.

Definition SAVE_TIME (name : Z) : Z := sw_save_time (pm_settings name) + hw_save_time (pm_settings name).
Definition RESTORE_TIME (name : Z) : Z := sw_restore_time (pm_settings name) + hw_restore_time (pm_settings name).
Definition MIN_TIME (name : Z) : Z := SAVE_TIME name + RESTORE_TIME name.

Definition pm_restore_time_offset (type mode : Z) : Z :=
  if mode =? PM_MODE_LIGHT_SLEEP then RESTORE_TIME PM_LIGHT_SLEEP
  else if mode =? PM_MODE_SLEEP then RESTORE_TIME PM_SLEEP
  else if (mode =? PM_MODE_DEEP_SLEEP_0) || (mode =? PM_MODE_DEEP_SLEEP) then
    if type =? PM_WAKEUP_TYPE_FULL then RESTORE_TIME PM_DEEP_SLEEP else wh_restore_time (pm_settings PM_DEEP_SLEEP)
  else if mode =? PM_MODE_HIBERNATION then
    if type =? PM_WAKEUP_TYPE_FULL then RESTORE_TIME PM_HIBERNATION else wh_restore_time (pm_settings PM_HIBERNATION)
  else 0.

Definition pm_usec_to_mtime (usec : Z) : Z := u64 (usec * XTALTIME).
Definition pm_mtime_to_usec (m : Z) : Z := m / XTALTIME.
Definition pm_rtc_to_usec (tick : Z) : M pm Z := r ← ld ratio; mret (u64 (tick * r) / RTCTIME).
(** A division by zero is a fault. *)
Definition pm_usec_to_rtc (usec : Z) : M pm Z :=
  r ← ld ratio; if r =? 0 then fault else mret (u32 (u64 (usec * RTCTIME) / r)).

(** ** Timers *)

Definition next_delay (s : pm) : Z := match delays s with d :: _ => d | [] => 0 end.

Definition prvReadMtime : M pm Z :=
  modify (λ s, Pm (mem s) (now s + next_delay s) (offset s) (tail (delays s)) (events s));;
  s ← get; mret (u64 (now s + offset s)).
Definition prvWriteMtime (v : Z) : M pm unit :=
  modify (λ s, Pm (mem s) (now s) (v - now s) (delays s) (events s)).
Definition prvReadMtimecmp : M pm Z := ld MTIMECMP.
Definition prvWriteMtimecmp (v : Z) : M pm unit := st MTIMECMP v.
Definition prvStopMtimeIrq : M pm Z := v ← ld MTIMECMP; st MTIMECMP (2 ^ 64 - 1);; mret v.

Definition rtc_get_32khz_count : M pm Z := s ← get; mret (rtc_count (now s)).
Definition read_rtc_reg : M pm Z := s ← get; mret (rtc_reg (now s)).

(** Asleep. *)
Definition take_nap (n : nap) : M pm unit :=
  modify (λ s, Pm (fold_left (λ m lv, <[lv.1 := lv.2]> m) (changes n) (mem s)) (now s + slept n) (offset s)
    (delays s) (events s)).
Definition pm_wfi (n : nap) : M pm unit := emit EWfi;; take_nap n.

(** ** The decision *)

Definition IDLE_DUR : M pm Z := w ← ld wtime; m ← ld mtime; mret (u64 (w - m)).
Definition OVER_SLEEP_THRESHOLD (wt : Z) : M pm bool :=
  m ← ld mtime; mret (wt <? u64 (m + pm_usec_to_mtime PM_DEFAULT_SLEEP_THRESHOLD)).

(** What [systimer_get_wakeup_info] returned: nothing, or the time and type of
    the first alarm, and the time of the next. *)
Definition pm_update_idle_time (info : option (Z * Z * option Z)) : M pm Z :=
  w ← prvReadMtimecmp; st wtime w;;
  st wtime_next 0;;
  m ← prvReadMtime; st mtime m;;
  over ← OVER_SLEEP_THRESHOLD w;
  if (over : bool) then mret (-1) else
  over ← match info with
         | None => mret false
         | Some (t, ty, next) =>
             if negb (w >? t) then mret false else
             st wtime t;;
             over ← OVER_SLEEP_THRESHOLD t;
             if (over : bool) then mret true else
             (if ty =? SYSTIMER_TYPE_WAKEUP_IDLE then
                w ← prvReadMtimecmp;
                st wtime_next (match next with Some n => if w >? n then n else w | None => w end)
              else mret ());;
             mret false
         end;
  if (over : bool) then mret (-1) else
  wn ← ld wtime_next;
  st wtype (if negb (wn =? 0) then PM_WAKEUP_TYPE_WATCHER else PM_WAKEUP_TYPE_FULL);;
  d ← IDLE_DUR;
  (if d >? PM_MAX_LOWPOWER_MTIME_DURATION then
     m ← ld mtime; st wtime (u64 (m + PM_MAX_LOWPOWER_MTIME_DURATION));; st wtype PM_WAKEUP_TYPE_FULL
   else mret ());;
  mret 0.

(** [min_times[mode]]; 0 where the table has no entry. *)
Definition min_time (hib_min mode : Z) : Z :=
  if mode =? PM_MODE_HIBERNATION then hib_min
  else if mode =? PM_MODE_DEEP_SLEEP then MIN_TIME PM_DEEP_SLEEP
  else if mode =? PM_MODE_LIGHT_SLEEP then MIN_TIME PM_LIGHT_SLEEP
  else 0.

(** The loop of [pm_mode_sel] from mode [n] down. *)
Fixpoint deepest (hib_min dur : Z) (n : nat) : option Z :=
  let i := Z.of_nat n in
  if negb (min_time hib_min i =? 0) && (dur >? min_time hib_min i) then Some i
  else match n with O => None | S n => deepest hib_min dur n end.

Definition pm_mode_sel : M pm Z :=
  hib ← ld hib_min_time;
  d ← IDLE_DUR;
  match deepest hib (pm_mtime_to_usec d) 6 with
  | None => mret (-1)
  | Some i =>
      st pm_mode i;;
      ty ← ld wtype;
      (if (i >=? PM_MODE_DEEP_SLEEP) && (ty =? PM_WAKEUP_TYPE_WATCHER) then
         wn ← ld wtime_next; m ← ld mtime;
         if pm_mtime_to_usec (u64 (wn - m)) >? hib then st pm_mode PM_MODE_HIBERNATION else mret ()
       else mret ());;
      mret 0
  end.

(** [while (next_mode)]: the next mode that is enabled, or 0. *)
Fixpoint next_enabled (enabled : Z) (n : nat) : Z :=
  match n with
  | O => 0
  | S n' => if negb (Z.land enabled (BIT (Z.of_nat n)) =? 0) then Z.of_nat n else next_enabled enabled n'
  end.

Definition pm_mode_check : M pm Z :=
  m ← ld pm_mode; cnt ← ld hib_limit_cnt; mx ← ld hib_max_cnt;
  (if (m =? PM_MODE_HIBERNATION) && (cnt >=? mx) then st pm_mode PM_MODE_DEEP_SLEEP else mret ());;
  m ← ld pm_mode; en ← ld pm_mode_enabled;
  (if Z.land en (BIT m) =? 0 then st pm_mode (next_enabled en (Z.to_nat (m - 1))) else mret ());;
  m ← ld pm_mode;
  mret (if m =? PM_MODE_ACTIVE then -1 else 0).

Definition HIB_CLR_DUR : M pm Z :=
  m ← ld mtime; mret (u64 (m + pm_usec_to_mtime (PM_HIBERNATION_LIMIT_DURATION * USTIME))).

Definition pm_reset_hib_limit : M pm unit :=
  clr ← ld hib_limit_clr; m ← ld mtime;
  if clr <? m then (d ← HIB_CLR_DUR; st hib_limit_clr d);; st hib_limit_cnt 0 else mret ().

Definition pm_update_target_time : M pm unit :=
  w ← ld wtime; ty ← ld wtype; m ← ld pm_mode; wn ← ld wtime_next;
  let ofs := pm_usec_to_mtime (pm_restore_time_offset ty m) in
  st ttime (u64 (w - ofs));;
  if (ty =? PM_WAKEUP_TYPE_WATCHER) && negb (wn =? 0) then st ttime_next (u64 (wn - ofs)) else mret ().

Definition pm_update_mode : M pm Z :=
  r ← pm_mode_sel;
  if negb (r =? 0) then mret (-1) else
  pm_reset_hib_limit;;
  r ← pm_mode_check;
  if negb (r =? 0) then mret (-1) else
  pm_update_target_time;;
  mret 0.

(** ** Registers and devices *)

(** Read, change and write a location. *)
Definition change (l : loc) (f : Z → Z) : M pm unit := v ← ld l; st l (f v).
Definition clear_bits (m v : Z) : Z := Z.land v (Z.lnot m).

Definition pm_save_plic (hart : Z) : M pm unit :=
  (v ← ld (PLIC_INT_ENABLE 0 hart); st (plic_en 0 hart) v);;
  (v ← ld (PLIC_INT_ENABLE 1 hart); st (plic_en 1 hart) v);;
  st (PLIC_INT_ENABLE 0 hart) 0;;
  st (PLIC_INT_ENABLE 1 hart) 0.
Definition pm_restore_plic (hart : Z) : M pm unit :=
  (v ← ld (plic_en 0 hart); st (PLIC_INT_ENABLE 0 hart) v);;
  (v ← ld (plic_en 1 hart); st (PLIC_INT_ENABLE 1 hart) v).
Definition pm_save_plic_h0 : M pm unit := pm_save_plic 0.
Definition pm_restore_plic_h0 : M pm unit := pm_restore_plic 0.
Definition pm_save_plic_h1 : M pm unit := pm_save_plic 1.
Definition pm_restore_plic_h1 : M pm unit := pm_restore_plic 1.

Definition pm_suspend_h0 : M pm unit := st (RESET_VECTOR 0) pm_wakeup_wfi;; st CORE_RESET_CTRL 1.
Definition pm_resume_h0 : M pm unit := st (RESET_VECTOR 0) pm_wakeup_wfi;; st CORE_RESET_CTRL 1.

(** The registers of the pins that are saved. *)
Definition gpio_regs : list Z := [0x04; 0x08; 0x0c; 0x10; 0x20; 0x30; 0x40].

Fixpoint each (l : list Z) (f : Z → M pm unit) : M pm unit :=
  match l with [] => mret () | x :: l => f x;; each l f end.

Definition pm_store_gpio : M pm unit := each gpio_regs (λ o, v ← ld (GPIO o); st (gpio_saved o) v).
Definition pm_restore_gpio : M pm unit := each gpio_regs (λ o, v ← ld (gpio_saved o); st (GPIO o) v).

(** One pin, as an input with a pull-down. *)
Definition pull_down_pin (i : Z) (ofs v : Z) : Z :=
  if ofs =? 0x08 then Z.lor v (BIT i)
  else if ofs =? 0x0c then Z.lor v (BIT i)
  else if ofs =? 0x20 then Z.lor (clear_bits (Z.shiftl 0xf (i * 4)) v) (Z.shiftl 0x8 (i * 4))
  else clear_bits (BIT i) v.

Definition pulled_down (enabled ofs v : Z) : Z :=
  fold_left (λ v i, if negb (Z.land enabled (BIT i) =? 0) then v else pull_down_pin i ofs v) (seqZ 0 8) v.

Definition pm_pull_down_gpio : M pm unit :=
  en ← ld gpio_enabled;
  each gpio_regs (λ o, v ← ld (gpio_saved o); st (GPIO o) (u32 (pulled_down en o v)));;
  v ← ld (GPIO 0x60);
  let v := Z.land v 0xFF in
  if v =? 0 then mret () else
  v2 ← ld (GPIO 0x50);
  st (GPIO 0x50) (Z.lor v2 v);;
  st (GPIO 0x50) (clear_bits v (Z.lor v2 v)).

Definition pm_save_gpio : M pm unit := pm_store_gpio;; pm_pull_down_gpio.

(** device.c: [i] is the place of the device in the table. *)
Fixpoint suspend_from (i : nat) (devs : list device) : M pm (Z * nat) :=
  match devs with
  | [] => mret (0, i)
  | d :: devs =>
      if negb (has_suspend d) then suspend_from (S i) devs else
      emit (ESuspend i);;
      if suspend_ret d <? 0 then mret (suspend_ret d, i) else suspend_from (S i) devs
  end.

(** [for (; dev >= &__device_tab_start; dev--)] *)
Fixpoint resume_down (devs : list device) (i : nat) : M pm unit :=
  (if default false (has_resume <$> (devs !! i)) then emit (EResume i) else mret ());;
  match i with O => mret () | S i => resume_down devs i end.

Definition pm_suspend_device (devs : list device) : M pm Z :=
  r ← suspend_from 0 devs;
  if r.1 <? 0 then resume_down devs r.2;; mret r.1 else mret 0.

Fixpoint resume_from (i : nat) (devs : list device) : M pm unit :=
  match devs with
  | [] => mret ()
  | d :: devs => (if has_resume d then emit (EResume i) else mret ());; resume_from (S i) devs
  end.
Definition pm_resume_device (devs : list device) : M pm unit := resume_from 0 devs.

(** ** Going to sleep *)

Definition pm_update_rram : M pm unit :=
  m ← ld pm_mode; st rram_pm_mode m;;
  (v ← ld wakeup_src; st rram_wk_src v);;
  (v ← ld ttime; st rram_wk_time v);;
  (if m =? PM_MODE_HIBERNATION then st rram_sync_flag RRAM_SAVE_FLASH else mret ());;
  ty ← ld wtype;
  if ty =? PM_WAKEUP_TYPE_WATCHER then
    (v ← ld rtc; st rram_rtc_value v);;
    (v ← ld mtime; st rram_mtime_value v);;
    (v ← ld ttime_next; st rram_next_mtime_value v);;
    change rram_wakeup_flag (Z.lor RRAM_WAKEUP_WATCHER)
  else mret ().

Definition RTC_WRAP (a b : Z) : bool := a >? u32 (RTC_COUNT_MAX - b).
(** The count that is [idle] behind [cur]. *)
Definition rtc_add (cur idle : Z) : Z :=
  if RTC_WRAP idle cur then u32 (idle - u32 (RTC_COUNT_MAX - cur)) else u32 (cur + idle).

Definition pm_rtc_time_next (duration : Z) : M pm Z :=
  rtc_cur ← rtc_get_32khz_count;
  rtc_idle ← pm_usec_to_rtc duration;
  c_assert (rtc_idle <? RTC_COUNT_MAX);;
  mret (rtc_add rtc_cur rtc_idle).

Definition pm_set_alarm (duration : Z) : M pm unit := n ← pm_rtc_time_next duration; st RTC_ALARM n.

Definition pm_set_rtc_wakeup : M pm unit :=
  t ← ld ttime; m ← ld mtime; pm_set_alarm (pm_mtime_to_usec (u64 (t - m))).

Definition pm_save_time : M pm unit :=
  (v ← rtc_get_32khz_count; st rtc v);;
  (v ← prvReadMtime; st mtime v);;
  v ← prvStopMtimeIrq; st mtimecmp v.

(** systimer-scm2010.c *)
Definition systimer_update_ratio : M pm Z := emit ESnap;; ld rram_ratio.

(** The calibration, from the snapshots [sn] it takes. *)
Definition systimer_rtc_cal (sn : snap) : M pm unit :=
  emit ESnap;; emit ESnap;;
  a ← ld rram_act_ratio;
  v ← lift_opt (scm2010_systimer_rtc_cal a sn);
  st rram_act_ratio v.1;;
  st SYS_TIMER_RATIO v.2.

Definition select_ratio : M pm unit :=
  (v ← systimer_update_ratio; st ratio v);;
  m ← ld pm_mode;
  if (m =? PM_MODE_HIBERNATION) || (m <=? PM_MODE_SLEEP) then v ← ld rram_act_ratio; st ratio v else mret ().

Definition pm_prepare_lowpower : M pm unit :=
  v ← ld LOWPOWER_CTRL; m ← ld pm_mode; src ← ld wakeup_src;
  st LOWPOWER_CTRL (if feat m PM_FEAT_CORE_PG then v else Z.lor (Z.lor v CHIP_SLEEP_EN) src);;
  select_ratio;;
  (if negb (Z.land src WAKEUP_SRC_RTC =? 0) then pm_set_rtc_wakeup else mret ());;
  st PMU_IRQ (if feat m PM_FEAT_CORE_PG then 0 else 1);;
  (v ← ld (pm_pmu_mode PMU_LOWPOWER m); emit (EPmuMode v));;
  (v ← ld (pm_pmu_mode PMU_WAKEUP m); emit (EPmuMode v));;
  change AON_MEMEMA (clear_bits (BIT 6));;
  change (UART_CFG 0) (Z.lor (BIT 11));;
  change (UART_CFG 1) (Z.lor (BIT 11)).

Definition pm_enter_power_down (duration : Z) (n : nap) : M pm unit :=
  st (PLIC_INT_ENABLE 0 0) 0;; st (PLIC_INT_ENABLE 1 0) 0;;
  st (PLIC_INT_ENABLE 0 1) 0;; st (PLIC_INT_ENABLE 1 1) 0;;
  v ← ld LOWPOWER_CTRL;
  let v := Z.lor (clear_bits WAKEUP_SRC_ALL (Z.lor v CHIP_SLEEP_EN)) WAKEUP_SRC_GPIO in
  pm_save_gpio;;
  v ← (if negb (duration =? 0) then
         select_ratio;;
         cur ← rtc_get_32khz_count;
         idle ← pm_usec_to_rtc (duration * 1000);
         st RTC_ALARM (rtc_add cur (if idle >? RTC_COUNT_MAX then RTC_COUNT_MAX else idle));;
         mret (Z.lor v WAKEUP_SRC_RTC)
       else mret v);
  st LOWPOWER_CTRL v;;
  st PMU_IRQ 0;;
  emit (EPmuMode ACTIVE_TO_HIBERNATION_IO_OFF);; emit (EPmuMode WAKEUP_TO_ACTIVE);;
  f ← ld rram_feature;
  (if negb (Z.land f PM_FEATURE_VOLTAGE_CTRL =? 0) then
     emit EDldo0V75;; change TOP_CFG (Z.lor DIG_LDO_LP_MODE);; emit EDcdc1V15
   else mret ());;
  change AON_MEMEMA (clear_bits (BIT 6));;
  st (RESET_VECTOR 0) 0x100000;; st (RESET_VECTOR 1) 0x100000;;
  (* waits until the other core sleeps *)
  v ← ld LOWPOWER_CTRL;
  if Z.land v (BIT 11) =? 0 then out_of_fuel else
  pm_wfi n;;
  c_assert false.

Definition run_callback : M pm unit :=
  cb ← ld callback; m ← ld pm_mode; if negb (cb =? 0) then emit (ECallback m) else mret ().

(** From the point where the devices are suspended. *)
Definition pm_go (n : nap) : M pm unit :=
  pm_save_plic_h0;;
  run_callback;;
  t ← ld ttime; now ← prvReadMtime;
  c_assert (negb (t <? u64 (now + pm_usec_to_mtime 1000)));;
  f ← ld rram_feature;
  emit (EAonVoltage (if negb (Z.land f PM_FEATURE_AON_VOLTAGE_CTRL =? 0) then qLR_0V7 else qLR_0V8));;
  m ← ld pm_mode;
  (if feat m PM_FEAT_TIMER_OFF then pm_suspend_h0;; pm_save_time;; pm_save_gpio else mret ());;
  pm_prepare_lowpower;;
  (v ← read_rtc_reg; st rtc32k v);;
  if feat m PM_FEAT_CORE_PG then
    pm_update_rram;;
    (if m =? PM_MODE_HIBERNATION then
       cnt ← ld hib_limit_cnt; mx ← ld hib_max_cnt;
       if cnt <? mx then st hib_limit_cnt (u32 (cnt + 1)) else mret ()
     else mret ());;
    st (RESET_VECTOR 1) RRAM_FW_ADDR;; st (RESET_VECTOR 0) RRAM_FW_ADDR;; st CORE_RESET_CTRL 1;;
    emit ELowpowerStart;; take_nap n
  else pm_wfi n.

(** From the point where the mode is decided. *)
Definition pm_sleep (devs : list device) (n : nap) : M pm unit :=
  m ← ld pm_mode;
  ret ← (if feat m PM_FEAT_SYS_PG then pm_save_plic_h1;; pm_suspend_device devs else mret 0);
  if negb (ret =? 0) then pm_restore_plic_h1;; st pm_mode PM_MODE_ACTIVE else
  pm_go n.

Definition pm_pre_sleep_processing (info : option (Z * Z * option Z)) (devs : list device) (n : nap) : M pm unit :=
  pd ← ld power_down;
  (if negb (pd =? 0) then pm_enter_power_down pd n else mret ());;
  sa ← ld stay_active;
  if negb (sa =? 0) then pm_wfi n else
  r ← pm_update_idle_time info;
  if negb (r =? 0) then pm_wfi n else
  r ← pm_update_mode;
  if negb (r =? 0) then pm_wfi n else
  v ← ld LOWPOWER_CTRL;
  if Z.land v (BIT 11) =? 0 then (if SDIO_PM then pm_wfi n else c_assert false) else
  pm_sleep devs n.

(** ** Waking up *)

Definition RTC_ELAPSED (a b : Z) : Z := if b >=? a then u32 (b - a) else u32 (u32 (RTC_COUNT_MAX - a) + b).

(** Waits until the counter has changed; while it has not, it waits for ever. *)
Definition pm_rtc_time_elapsed : M pm Z :=
  old ← ld rtc32k; cur ← read_rtc_reg;
  if old =? cur then out_of_fuel else
  c ← rtc_get_32khz_count;
  rv ← ld rram_rtc_value; r ← ld rtc;
  usec ← pm_rtc_to_usec (RTC_ELAPSED (if negb (rv =? 0) then rv else r) c);
  mret (u32 usec).

Definition pm_restore_mtime : M pm unit :=
  usec ← pm_rtc_time_elapsed;
  mv ← ld rram_mtime_value; m ← ld mtime;
  prvWriteMtime (u64 ((if negb (mv =? 0) then mv else m) + pm_usec_to_mtime usec)).

Definition pm_update_hib_prep_time : M pm unit :=
  t ← prvReadMtime; m ← ld mtime;
  let mtime_elapsed := u64 (t - m) in
  sf ← ld rram_sync_flag; wf ← ld rram_wakeup_flag; hm ← ld hib_min_time; hs ← ld hib_save_time;
  if negb (Z.land sf RRAM_SAVE_CANCEL =? 0) && negb (Z.land wf RRAM_EXT_HIB_TIME =? 0)
     && negb (u64 (mtime_elapsed - hm) =? 0) then
    let save := u32 (u32 (pm_mtime_to_usec mtime_elapsed) + PM_HIB_PREP_EXTEND_USEC) in
    st hib_save_time save;;
    st hib_min_time (u32 (u32 (hm - hs) + save))
  else mret ().

Definition pm_restore_time : M pm unit :=
  pm_restore_mtime;;
  (v ← ld mtimecmp; prvWriteMtimecmp v);;
  pm_update_hib_prep_time.

Definition pm_update_stats : M pm unit :=
  v ← ld LOWPOWER_CTRL; m ← ld pm_mode;
  if feat m PM_FEAT_CORE_PG then
    (e ← ld rram_wk_evt; st wakeup_evt (u16 e));;
    (r ← ld rram_wk_fb_reason; st wakeup_reason r);;
    (t ← ld rram_wk_fb_type; st wakeup_type t)
  else st wakeup_evt (Z.land (Z.shiftr v 19) WAKEUP_SRC_ALL).

Definition pm_prepare_active : M pm unit :=
  change (UART_CFG 0) (clear_bits (BIT 11));;
  change (UART_CFG 1) (clear_bits (BIT 11));;
  change AON_MEMEMA (Z.lor (BIT 6));;
  change LOWPOWER_CTRL (λ v, Z.lor (clear_bits (Z.lor CHIP_SLEEP_EN CHIP_IDLE_EN) (clear_bits WAKEUP_SRC_ALL v)) WAKEUP_EVENT_CLR);;
  st PMU_IRQ 1.

Definition rram_cleared : list loc :=
  [rram_wakeup_flag; rram_exec_watcher; rram_sync_flag; rram_pm_mode; rram_wk_src; rram_wk_evt; rram_wk_time;
   rram_rtc_value; rram_mtime_value].
Definition pm_clear_rram : M pm unit :=
  modify (λ s, Pm (fold_left (λ m l, <[l := 0]> m) rram_cleared (mem s)) (now s) (offset s) (delays s) (events s)).

Definition pm_post_sleep_processing (devs : list device) (sn : snap) : M pm unit :=
  m ← ld pm_mode;
  if m =? PM_MODE_ACTIVE then mret () else
  (if feat m PM_FEAT_SYS_CG then emit ESystimerLoad else mret ());;
  emit (EAonVoltage iLR_0V8);;
  pm_update_stats;;
  (if feat m PM_FEAT_SYS_PG then emit EClocks;; pm_resume_device devs;; pm_restore_plic_h1 else mret ());;
  (if feat m PM_FEAT_TIMER_OFF then pm_restore_time;; systimer_rtc_cal sn;; pm_resume_h0;; pm_restore_gpio else mret ());;
  (if feat m PM_FEAT_CORE_PG then
     e ← ld rram_exec_watcher; emit (ESystimerRestart (Z.land e RRAM_WATCHER_EXEC))
   else mret ());;
  pm_restore_plic_h0;;
  pm_prepare_active;;
  st pm_mode PM_MODE_ACTIVE;;
  run_callback;;
  pm_clear_rram.

(** The idle task: one call of the two. *)
Definition pm_idle (info : option (Z * Z * option Z)) (devs : list device) (n : nap) (sn : snap) : M pm unit :=
  pm_pre_sleep_processing info devs n;; pm_post_sleep_processing devs sn.

(** ** Interface *)

Definition pm_stay (dev : Z) : M pm unit := change stay_active (λ v, u32 (Z.lor v (BIT dev))).
Definition pm_relax (dev : Z) : M pm unit := change stay_active (clear_bits (BIT dev)).

(** [running]: whether the timer that calls [pm_activetimeout] is. *)
Definition pm_staytimeout (running : bool) (ms : Z) : M pm unit :=
  t ← prvReadMtime;
  let stay_mtime := u64 (t + pm_usec_to_mtime (u32 (ms * 1000))) in
  old ← ld stay_active_mtime;
  if running && (old >=? stay_mtime) then mret () else
  pm_stay PM_DEVICE_TIMED;;
  emit (EStayTimer (u32 (ms * hz) / 1000));;
  st stay_active_mtime stay_mtime.
Definition pm_activetimeout : M pm unit := pm_relax PM_DEVICE_TIMED.
Definition pm_status : M pm Z := ld stay_active.

Definition pm_power_down (duration : Z) : M pm unit := st power_down (if duration =? 0 then 2 ^ 32 - 1 else duration).
Definition pm_enable_wakeup_io (pin : Z) : M pm unit := change gpio_enabled (λ v, u8 (Z.lor v (BIT pin))).
Definition pm_disable_wakeup_io (pin : Z) : M pm unit := change gpio_enabled (clear_bits (BIT pin)).
Definition pm_query_mode : M pm Z := ld pm_mode_enabled.
Definition pm_enable_mode (mode : Z) : M pm unit := change pm_mode_enabled (λ v, u8 (Z.lor v (BIT mode))).
Definition pm_disable_mode (mode : Z) : M pm unit := change pm_mode_enabled (clear_bits (BIT mode)).
Definition pm_register_handler (cb : Z) : M pm unit := st callback cb.
Definition pm_unregister_handler : M pm unit := st callback 0.
Definition pm_set_hib_max_count (hib_max : Z) : M pm unit :=
  (d ← HIB_CLR_DUR; st hib_limit_clr d);; st hib_limit_cnt 0;; st hib_max_cnt hib_max.

Definition pm_wakeup_is_himode : M pm Z := m ← ld pm_mode; mret (if m =? PM_MODE_HIBERNATION then 1 else 0).
Definition pm_wakeup_get_reason : M pm Z := ld wakeup_reason.
Definition pm_wakeup_get_type : M pm Z := t ← ld wakeup_type; mret (Z.shiftr (Z.land t 0xFF00) 8).
Definition pm_wakeup_rest_type : M pm unit := st wakeup_type 0;; st rram_wk_fb_type 0.
Definition pm_wakeup_get_subtype : M pm Z := t ← ld wakeup_type; mret (Z.land t 0xFF).
Definition pm_wakeup_get_event : M pm Z := ld wakeup_evt.
Definition pm_wakeup_is_reset : M pm Z :=
  f ← ld rram_wakeup_flag; mret (if negb (Z.land f RRAM_WAKEUP_RESET =? 0) then 1 else 0).

(** ** Initialisation, as far as the context and the retention RAM go *)

Definition pm_para_init : M pm unit :=
  st wakeup_src WAKEUP_SRC_ALL;; st pm_mode PM_MODE_ACTIVE;; st hib_max_cnt PM_HIBERNATION_LIMIT_COUNT;;
  st stay_active (BIT PM_DEVICE_APP);;
  st pm_mode_enabled (Z.lor (Z.lor (Z.lor (BIT PM_MODE_ACTIVE) (BIT PM_MODE_LIGHT_SLEEP)) (BIT PM_MODE_DEEP_SLEEP))
    (BIT PM_MODE_HIBERNATION));;
  st gpio_enabled 0;;
  st (RESET_VECTOR 0) pm_wakeup_wfi;; st CORE_RESET_CTRL 1.

Definition PM_ACT_RATIO_TO_SLEEP_RATIO (x : Z) : Z := if VOLTAGE_CTRL_OCR then u32 (x * 933) / 1000 else x.
(** Bits 17 to 25. *)
Definition SMU_AON_MEMEMA_RET : Z := Z.shiftl 0x1ff 17.

Definition rram_fields : list loc :=
  rram_cleared ++ [rram_next_mtime_value; rram_wk_fb_reason; rram_wk_fb_type; rram_act_ratio; rram_ratio; rram_feature].

Definition pm_rram_init : M pm unit :=
  r ← ld rram_act_ratio;
  modify (λ s, Pm (fold_left (λ m l, <[l := 0]> m) rram_fields (mem s)) (now s) (offset s) (delays s) (events s));;
  st rram_act_ratio r;; st rram_ratio (PM_ACT_RATIO_TO_SLEEP_RATIO r);;
  change AON_MEMEMA (Z.lor SMU_AON_MEMEMA_RET);;
  st LOWPOWER_CTRL 0.

Definition pm_feature_init : M pm unit :=
  change rram_feature (Z.lor PM_FEATURES);;
  if PM_LOWPOWER_IO_OFF then st pm_lpwr_io_off 1 else mret ().

Definition pm_pmu_lowpower_mode_update : M pm unit :=
  off ← ld pm_lpwr_io_off;
  if negb (off =? 0) then
    st (pm_pmu_mode PMU_LOWPOWER PM_MODE_SLEEP) ACTIVE_TO_SLEEP_IO_OFF;;
    st (pm_pmu_mode PMU_LOWPOWER PM_MODE_DEEP_SLEEP_0) ACTIVE_TO_DEEP_SLEEP_0_IO_OFF;;
    st (pm_pmu_mode PMU_LOWPOWER PM_MODE_DEEP_SLEEP) ACTIVE_TO_DEEP_SLEEP_1_IO_OFF;;
    st (pm_pmu_mode PMU_LOWPOWER PM_MODE_HIBERNATION) ACTIVE_TO_HIBERNATION_IO_OFF
  else
    st (pm_pmu_mode PMU_LOWPOWER PM_MODE_SLEEP) ACTIVE_TO_SLEEP;;
    st (pm_pmu_mode PMU_LOWPOWER PM_MODE_DEEP_SLEEP_0) ACTIVE_TO_DEEP_SLEEP_0;;
    st (pm_pmu_mode PMU_LOWPOWER PM_MODE_DEEP_SLEEP) ACTIVE_TO_DEEP_SLEEP_1;;
    st (pm_pmu_mode PMU_LOWPOWER PM_MODE_HIBERNATION) ACTIVE_TO_HIBERNATION.

Definition pm_pmu_wakeup_mode_update : M pm unit :=
  f ← ld rram_feature;
  if negb (Z.land f PM_FEATURE_WAKEUP_IO_OFF =? 0) then
    st (pm_pmu_mode PMU_WAKEUP PM_MODE_DEEP_SLEEP) WAKEUP_TO_ACTIVE_IO_OFF;;
    st (pm_pmu_mode PMU_WAKEUP PM_MODE_HIBERNATION) WAKEUP_TO_ACTIVE_IO_OFF
  else
    st (pm_pmu_mode PMU_WAKEUP PM_MODE_DEEP_SLEEP) WAKEUP_TO_ACTIVE;;
    st (pm_pmu_mode PMU_WAKEUP PM_MODE_HIBERNATION) WAKEUP_TO_ACTIVE.

Definition pm_pmu_init : M pm unit := pm_pmu_lowpower_mode_update;; pm_pmu_wakeup_mode_update.

(** Features are changed only while some part stays active. *)
Definition while_active (c : M pm unit) : M pm Z :=
  sa ← ld stay_active; if sa =? 0 then mret (-1) else c;; mret 0.
Definition set_feature (bits en : Z) : M pm unit :=
  change rram_feature (if negb (en =? 0) then Z.lor bits else clear_bits bits).

Definition pm_feature_set_voltage_ctrl (en : Z) : M pm Z := while_active (set_feature PM_FEATURE_VOLTAGE_CTRL en).
Definition pm_feature_set_aon_voltage_ctrl (en : Z) : M pm Z :=
  sa ← ld stay_active;
  if sa =? 0 then mret (-1) else
  f ← ld rram_feature;
  if negb (Z.land f PM_FEATURE_AON_VOLTAGE_CTRL_OCR =? 0) then mret (-1) else
  set_feature PM_FEATURE_AON_VOLTAGE_CTRL en;; mret 0.
Definition pm_feature_set_pll_ctrl (en : Z) : M pm Z := while_active (set_feature PM_FEATURE_PLL_CTRL en).
Definition pm_feature_set_lowpower_io (en : Z) : M pm Z :=
  while_active (st pm_lpwr_io_off (if negb (en =? 0) then 0 else 1);; pm_pmu_lowpower_mode_update).
Definition pm_feature_set_wakeup_io (en : Z) : M pm Z :=
  while_active (change rram_feature (if negb (en =? 0) then clear_bits PM_FEATURE_WAKEUP_IO_OFF else Z.lor PM_FEATURE_WAKEUP_IO_OFF);;
    pm_pmu_wakeup_mode_update).
Definition pm_feature_set_wakeup_log (en : Z) : M pm Z := while_active (set_feature PM_FEATURE_WAKEUP_LOG_ON en).
Definition pm_feature_set_flash_dpd (en : Z) : M pm Z := while_active (set_feature PM_FEATURE_FLASH_DPD en).
Definition pm_feature_set_wc_log (en : Z) : M pm Z := while_active (set_feature PM_FEATURE_WC_LOG en).
Definition pm_feature_set_wc_uart1 (en : Z) : M pm Z := while_active (set_feature PM_FEATURE_WC_UART1 en).
Definition pm_feature_set_rfc_bypass (en : Z) : M pm Z :=
  while_active (st RF_LP (if negb (en =? 0) then 0x67 else 0x58)).

Definition pm_timer_init : M pm unit :=
  st stay_active_mtime 0;;
  st hib_min_time (MIN_TIME PM_HIBERNATION);; st hib_save_time (sw_save_time (pm_settings PM_HIBERNATION)).

Definition pm_init : M pm unit :=
  pm_para_init;; pm_rram_init;; pm_feature_init;; pm_pmu_init;; pm_timer_init.
End Pm.
