(* ===== verification/PmTheorems.v ===== *)
(** * The power manager: theorems

    A sleep that is decided on fits before every deadline and leaves the time
    that entering and leaving the mode takes; sleeping and waking up again gives
    back everything the sleep has taken away; hibernations are rationed. *)

From stdpp Require Import base tactics numbers list gmap functions.
From S2P Require Import Prelude Systimer Pm.

(** ** Running a command *)

Definition upd (s : pm) (l : loc) (v : Z) : pm := Pm (<[l := v]> (mem s)) (now s) (offset s) (delays s) (events s).
Definition log (s : pm) (e : event) : pm := Pm (mem s) (now s) (offset s) (delays s) (events s ++ [e]).
(** After the timer has been read. *)
Definition pass (s : pm) : pm := Pm (mem s) (now s + next_delay s) (offset s) (tail (delays s)) (events s).
(** The machine timer. *)
Definition clock (s : pm) : Z := u64 (now s + offset s).

Lemma wp_ld l s Q : Q (mem s l) s → wp (ld l) s Q.
Proof. done. Qed.
Lemma wp_st l v s Q : Q () (upd s l v) → wp (st l v) s Q.
Proof. done. Qed.
Lemma wp_emit e s Q : Q () (log s e) → wp (emit e) s Q.
Proof. done. Qed.
Lemma wp_change l f s Q : Q () (upd s l (f (mem s l))) → wp (change l f) s Q.
Proof. done. Qed.
Lemma wp_readmtime s (Q : Z → pm → Prop) : Q (clock (pass s)) (pass s) → wp prvReadMtime s Q.
Proof. done. Qed.
Lemma wp_rtc `{!RtcHw} s (Q : Z → pm → Prop) : Q (rtc_count (now s)) s → wp rtc_get_32khz_count s Q.
Proof. done. Qed.
Lemma wp_rtc_reg `{!RtcHw} s (Q : Z → pm → Prop) : Q (rtc_reg (now s)) s → wp read_rtc_reg s Q.
Proof. done. Qed.
(** Looking up after updates. *)
Lemma mem_upd s l v : mem (upd s l v) l = v.
Proof. apply fn_lookup_insert. Qed.
Lemma mem_upd_ne s l l' v : l ≠ l' → mem (upd s l v) l' = mem s l'.
Proof. intros. by apply fn_lookup_insert_ne. Qed.

Lemma mem_log s e : mem (log s e) = mem s.
Proof. done. Qed.
Lemma mem_pass s : mem (pass s) = mem s.
Proof. done. Qed.

Ltac look := repeat first
  [ rewrite mem_upd | rewrite mem_upd_ne by (discriminate || congruence) | rewrite mem_log | rewrite mem_pass ].
Tactic Notation "look" "in" hyp(H) := repeat first
  [ rewrite mem_upd in H | rewrite mem_upd_ne in H by (discriminate || congruence)
  | rewrite mem_log in H | rewrite mem_pass in H ].

Ltac wstep := lazymatch goal with
  | |- wp (mbind _ _) _ _ => apply wp_bind
  | |- wp (ld _) _ _ => apply wp_ld
  | |- wp (st _ _) _ _ => apply wp_st
  | |- wp (emit _) _ _ => apply wp_emit
  | |- wp (change _ _) _ _ => apply wp_change
  | |- wp prvReadMtime _ _ => apply wp_readmtime
  | |- wp rtc_get_32khz_count _ _ => apply wp_rtc
  | |- wp read_rtc_reg _ _ => apply wp_rtc_reg
  | |- wp (mret _) _ _ => apply wp_ret
  end.
Ltac wsteps := repeat (wstep; cbv beta).

(** Nothing but the locations in [L] has changed. *)
Definition only (L : loc → bool) (s s' : pm) : Prop := ∀ l, L l = false → mem s' l = mem s l.

(** ** Steps that touch a few locations *)

(** Only the locations in [L] have changed, no time has passed, and the calls
    in [es] were made. *)
Record stp (L : loc → bool) (es : list event) (s s' : pm) : Prop := {
  stp_only : only L s s';
  stp_now : now s' = now s;
  stp_offset : offset s' = offset s;
  stp_delays : delays s' = delays s;
  stp_events : events s' = events s ++ es;
}.

Lemma stp_refl L s : stp L [] s s.
Proof. split; try done. by rewrite app_nil_r. Qed.

Lemma stp_trans L es1 es2 s s1 s2 : stp L es1 s s1 → stp L es2 s1 s2 → stp L (es1 ++ es2) s s2.
Proof.
  intros [a1 a2 a3 a4 a5] [b1 b2 b3 b4 b5]. split; try congruence.
  - intros l Hl. by rewrite b1, a1.
  - by rewrite b5, a5, app_assoc.
Qed.

Lemma stp_weaken (L L' : loc → bool) es s s' : (∀ l, L' l = false → L l = false) → stp L es s s' → stp L' es s s'.
Proof. intros HL [a1 a2 a3 a4 a5]. split; try done. intros l Hl. auto. Qed.

Lemma stp_upd (L : loc → bool) s l v : L l = true → stp L [] s (upd s l v).
Proof.
  intros Hl. split; try done; [|by rewrite app_nil_r]. intros l' Hl'. apply mem_upd_ne. congruence.
Qed.

Lemma stp_log L s e : stp L [e] s (log s e).
Proof. by split. Qed.

(** An update after others. *)
Lemma stp_upd_r L es s s' l v : L l = true → stp L es s s' → stp L es s (upd s' l v).
Proof. intros Hl Hs. rewrite <- (app_nil_r es). eapply stp_trans; [done|]. by apply stp_upd. Qed.
Lemma stp_log_r L es s s' e : stp L es s s' → stp L (es ++ [e]) s (log s' e).
Proof. intros Hs. eapply stp_trans; [done|]. apply stp_log. Qed.

(** Reading the timer again and again. *)
Lemma pass_stp L es s s' : stp L es s s' → stp L es (pass s) (pass s').
Proof.
  intros [a1 a2 a3 a4 a5]. split; cbn; try congruence; [done|]. unfold next_delay. by rewrite a2, a4.
Qed.

Lemma clock_stp L es s s' : stp L es s s' → clock s' = clock s.
Proof. intros [a1 a2 a3 a4 a5]. unfold clock. congruence. Qed.

Ltac stp := repeat first [ apply stp_refl | apply pass_stp | apply stp_upd_r; [reflexivity|] | apply stp_log_r with (es := []) ].

(** ** The decision *)

Lemma u64_id x : 0 ≤ x < 2 ^ 64 → u64 x = x.
Proof. apply Z.mod_small. Qed.
Lemma u64_range x : 0 ≤ u64 x < 2 ^ 64.
Proof. apply Z.mod_pos_bound. lia. Qed.

Section Decision.
Context `{!PmConfig, !RtcHw}.
Context (xtal : 1 ≤ XTALTIME ≤ 1000).

Definition idle_locs (l : loc) : bool :=
  match l with wtime | wtime_next | mtime | wtype => true | _ => false end.

Lemma usec_mtime u : 0 ≤ u ≤ 10000000 → pm_usec_to_mtime u = u * XTALTIME.
Proof. intros. unfold pm_usec_to_mtime. apply u64_id. nia. Qed.

Lemma threshold : 9000 ≤ PM_DEFAULT_SLEEP_THRESHOLD ≤ 29000.
Proof. unfold PM_DEFAULT_SLEEP_THRESHOLD, PM_SDIO_SW_PREPARE_TIME. destruct SDIO_PM; lia. Qed.

(** What the answer of the system timer looks like. *)
Definition info_ok (info : option (Z * Z * option Z)) : Prop :=
  ∀ t ty nx, info = Some (t, ty, nx) → 0 ≤ t < 2 ^ 64 ∧ (∀ n, nx = Some n → t ≤ n < 2 ^ 64).

(** The first of the two deadlines. *)
Definition first_due (info : option (Z * Z * option Z)) (c : Z) : Z :=
  match info with Some (t, _, _) => Z.min c t | None => c end.
(** The deadline after it, if the first wakes up the watcher only. *)
Definition next_due (info : option (Z * Z * option Z)) (c : Z) : Z :=
  match info with
  | Some (t, ty, nx) => if (t <? c) && (ty =? SYSTIMER_TYPE_WAKEUP_IDLE) then Z.min c (default c nx) else 0
  | None => 0
  end.

Lemma first_due_le info s : first_due info (mem s MTIMECMP) ≤ mem s MTIMECMP.
Proof. unfold first_due. destruct info as [[[t ty] nx]|]; lia. Qed.

Definition over (s : pm) (w : Z) : bool := w <? clock (pass s) + PM_DEFAULT_SLEEP_THRESHOLD * XTALTIME.

Lemma OVER_run s s' w : mem s' mtime = clock (pass s) → clock (pass s) < 2 ^ 63 →
  OVER_SLEEP_THRESHOLD w s' = Ret (over s w, s').
Proof.
  intros Hm Hs. unfold OVER_SLEEP_THRESHOLD. rewrite (bind_Ret _ _ _ _ _ (eq_refl : ld mtime s' = _)), Hm.
  pose proof threshold. pose proof (u64_range (now (pass s) + offset (pass s))) as Hr. fold (clock (pass s)) in Hr.
  rewrite usec_mtime by lia. rewrite u64_id by nia. done.
Qed.

Lemma wp_OVER s s' w Q : mem s' mtime = clock (pass s) → clock (pass s) < 2 ^ 63 → Q (over s w) s' →
  wp (OVER_SLEEP_THRESHOLD w) s' Q.
Proof. intros Hm Hs HQ. unfold wp. by rewrite (OVER_run s). Qed.

(** The wake-up time is the first of the deadlines, at most the longest sleep away. *)
Definition woken_at (info : option (Z * Z * option Z)) (s : pm) : Z :=
  Z.min (first_due info (mem s MTIMECMP)) (clock (pass s) + PM_MAX_LOWPOWER_MTIME_DURATION).

(** A watcher's next deadline is not before its first. *)
Lemma next_due_spec info s : info_ok info → 0 ≤ mem s MTIMECMP < 2 ^ 64 →
  (next_due info (mem s MTIMECMP) =? 0) ||
    (clock (pass s) + PM_MAX_LOWPOWER_MTIME_DURATION <? first_due info (mem s MTIMECMP)) = false →
  woken_at info s ≤ next_due info (mem s MTIMECMP) < 2 ^ 64.
Proof.
  intros Hi Hc [Hn%Z.eqb_neq Hf%Z.ltb_ge]%orb_false_iff. unfold woken_at. revert Hn Hf.
  unfold first_due, next_due. destruct info as [[[t ty] nx]|]; [|done]. destruct (Hi t ty nx eq_refl) as [Ht Hnx].
  destruct (Z.ltb_spec t (mem s MTIMECMP)); [|done]. destruct (_ =? _); [|done]. cbn [andb]. intros _ Hf.
  destruct nx as [n|]; cbn; [specialize (Hnx n eq_refl)|]; lia.
Qed.

(** From the point where the first deadline and the one after it are known. *)
Definition set_type : M pm Z :=
  wn ← ld wtime_next;
  st wtype (if negb (wn =? 0) then PM_WAKEUP_TYPE_WATCHER else PM_WAKEUP_TYPE_FULL);;
  d ← IDLE_DUR;
  (if d >? PM_MAX_LOWPOWER_MTIME_DURATION then
     m ← ld mtime; st wtime (u64 (m + PM_MAX_LOWPOWER_MTIME_DURATION));; st wtype PM_WAKEUP_TYPE_FULL
   else mret ());;
  mret 0.

Lemma set_type_run s : 0 ≤ mem s mtime ≤ mem s wtime → mem s mtime < 2 ^ 63 → mem s wtime < 2 ^ 64 →
  wp set_type s (λ r s', r = 0 ∧ stp (λ l, match l with wtime | wtype => true | _ => false end) [] s s' ∧
    mem s' wtime = Z.min (mem s wtime) (mem s mtime + PM_MAX_LOWPOWER_MTIME_DURATION) ∧
    mem s' wtype = if (mem s wtime_next =? 0) || (mem s mtime + PM_MAX_LOWPOWER_MTIME_DURATION <? mem s wtime)
      then PM_WAKEUP_TYPE_FULL else PM_WAKEUP_TYPE_WATCHER).
Proof.
  intros Hm Hm' Hw. unfold set_type, IDLE_DUR. wsteps. look. rewrite u64_id by lia.
  rewrite Z.gtb_ltb. unfold PM_MAX_LOWPOWER_MTIME_DURATION.
  apply wp_if; intros Hb; [apply Z.ltb_lt in Hb | apply Z.ltb_ge in Hb]; wsteps; look.
  - split; [done|]. split; [by stp|]. rewrite u64_id by lia.
    rewrite (proj2 (Z.ltb_lt _ _)), orb_true_r by lia. split; [lia|done].
  - split; [done|]. split; [by stp|]. rewrite (proj2 (Z.ltb_ge _ _)), orb_false_r by lia.
    split; [lia|]. by destruct (_ =? 0).
Qed.

Lemma update_idle_time_run info s : clock (pass s) < 2 ^ 63 → 0 ≤ mem s MTIMECMP < 2 ^ 64 → info_ok info →
  wp (pm_update_idle_time info) s (λ r s', stp idle_locs [] (pass s) s' ∧ mem s' mtime = clock (pass s) ∧
    r = (if over s (first_due info (mem s MTIMECMP)) then -1 else 0) ∧
    (r = 0 → mem s' wtime = woken_at info s ∧ mem s' wtime_next = next_due info (mem s MTIMECMP) ∧
      mem s' wtype = if (next_due info (mem s MTIMECMP) =? 0) ||
        (clock (pass s) + PM_MAX_LOWPOWER_MTIME_DURATION <? first_due info (mem s MTIMECMP))
        then PM_WAKEUP_TYPE_FULL else PM_WAKEUP_TYPE_WATCHER)).
Proof.
  intros Hs Hc Hi. set (c := mem s MTIMECMP) in *. set (T := clock (pass s)) in *.
  pose proof (u64_range (now (pass s) + offset (pass s))) as HT. fold (clock (pass s)) in HT. fold T in HT.
  pose proof threshold as Hthr.
  assert (∀ s1, stp idle_locs [] (pass s) s1 → mem s1 mtime = T → mem s1 wtime = first_due info c →
    over s (first_due info c) = false → mem s1 wtime_next = next_due info c →
    wp set_type s1 (λ r s', stp idle_locs [] (pass s) s' ∧ mem s' mtime = T ∧
      r = (if over s (first_due info c) then -1 else 0) ∧
      (r = 0 → mem s' wtime = woken_at info s ∧ mem s' wtime_next = next_due info c ∧
        mem s' wtype = if (next_due info c =? 0) || (T + PM_MAX_LOWPOWER_MTIME_DURATION <? first_due info c)
          then PM_WAKEUP_TYPE_FULL else PM_WAKEUP_TYPE_WATCHER))) as Htail.
  { intros s1 Ho Hm Hw Hov Hn. assert (T ≤ first_due info c < 2 ^ 64) as Hfd.
    { split; [unfold over in Hov; apply Z.ltb_ge in Hov; fold T in Hov; nia|].
      unfold first_due. destruct info as [[[t ty] nx]|]; lia. }
    eapply wp_mono; [apply set_type_run; rewrite ?Hm, ?Hw; lia|]. intros r s' (->&Hs'&Hw'&Hty).
    rewrite Hov. split.
    { apply (stp_trans _ [] [] _ s1); [done|]. eapply stp_weaken; [|exact Hs']. by intros []. }
    rewrite (stp_only _ _ _ _ Hs' mtime), (stp_only _ _ _ _ Hs' wtime_next) by done. unfold woken_at. fold c T. rewrite Hw', Hty, Hw, Hm, Hn. split; [done|]. split; [done|]. by intros _. }
  unfold pm_update_idle_time. unfold prvReadMtimecmp. wsteps. fold c.
  apply (wp_OVER s); [by look|done|]. fold T. 
  assert (over s c = true → over s (first_due info c) = true) as Hov1.
  { unfold over, first_due. destruct info as [[[t ty] nx]|]; [|done]. rewrite !Z.ltb_lt. lia. }
  apply wp_if; intros Hov.
  { wsteps. split; [by stp|]. split; [by look|]. rewrite Hov1 by done. by split. }
  destruct info as [[[t ty] nx]|].
  - destruct (Hi t ty nx eq_refl) as [Ht Hnx]. rewrite Z.gtb_ltb. apply wp_bind. apply wp_if; intros Hb.
    { apply wp_ret. cbv beta iota. fold set_type. apply negb_true_iff, Z.ltb_ge in Hb.
      assert (first_due (Some (t, ty, nx)) c = c) as Hfd by (cbn; lia).
      rewrite Hfd in *. apply Htail; try done; try by look.
      - by stp.
      - look. cbn. by rewrite (proj2 (Z.ltb_ge t c)) by lia. }
    apply negb_false_iff, Z.ltb_lt in Hb. assert (first_due (Some (t, ty, nx)) c = t) as Hfd by (cbn; lia).
    wsteps. apply (wp_OVER s); [by look|done|]. rewrite Hfd in *. apply wp_if; intros Hov2.
    { wsteps. rewrite Hov2. split; [by stp|]. split; [by look|]. by split. }
    apply wp_bind. apply wp_if; intros Hty; wsteps; fold set_type; apply Htail; try done; try (by look);
      try (by stp).
    + look. fold c. cbn. rewrite (proj2 (Z.ltb_lt t c)), Hty by lia. cbn. destruct nx as [n|]; cbn; [|lia].
      rewrite Z.gtb_ltb. destruct (Z.ltb_spec n c); lia.
    + look. cbn. by rewrite Hty, andb_false_r.
  - wsteps. fold set_type. apply Htail; try done; try by look. by stp.
Qed.

(** The settings as numbers. *)
Lemma min_times : MIN_TIME PM_LIGHT_SLEEP = 7620 ∧ 24300 ≤ MIN_TIME PM_DEEP_SLEEP ≤ 44300.
Proof. unfold MIN_TIME, SAVE_TIME, RESTORE_TIME. cbn. unfold PM_SDIO_SW_PREPARE_TIME. destruct SDIO_PM; lia. Qed.

Lemma deepest_spec hib dur : 7620 < dur → 0 < hib → ∃ i, deepest hib dur 6 = Some i ∧
  (i = 6 ∧ hib < dur ∨ i = 5 ∧ MIN_TIME PM_DEEP_SLEEP < dur ∨ i = 2).
Proof.
  intros Hd Hh. pose proof min_times as [HL HD]. cbn [deepest].
  change (min_time hib (Z.of_nat 6)) with hib. change (min_time hib (Z.of_nat 5)) with (MIN_TIME PM_DEEP_SLEEP).
  change (min_time hib (Z.of_nat 4)) with 0. change (min_time hib (Z.of_nat 3)) with 0.
  change (min_time hib (Z.of_nat 2)) with (MIN_TIME PM_LIGHT_SLEEP).
  assert ((hib =? 0) = false) as -> by (apply Z.eqb_neq; lia).
  assert ((MIN_TIME PM_DEEP_SLEEP =? 0) = false) as -> by (apply Z.eqb_neq; lia).
  assert ((MIN_TIME PM_LIGHT_SLEEP =? 0) = false) as -> by (apply Z.eqb_neq; lia).
  rewrite !Z.gtb_ltb. cbn [negb andb Z.eqb].
  destruct (Z.ltb_spec hib dur); [exists 6; auto|].
  destruct (Z.ltb_spec (MIN_TIME PM_DEEP_SLEEP) dur); [exists 5; auto|].
  destruct (Z.ltb_spec (MIN_TIME PM_LIGHT_SLEEP) dur); [exists 2; auto|lia].
Qed.

Definition is_pm_mode (l : loc) : bool := match l with pm_mode => true | _ => false end.

(** The idle time in microseconds. *)
Definition idle_usec (s : pm) : Z := (mem s wtime - mem s mtime) / XTALTIME.

Lemma mode_sel_run s : 0 ≤ mem s mtime → mem s mtime + 9000 * XTALTIME ≤ mem s wtime < 2 ^ 64 → 0 < mem s hib_min_time →
  wp pm_mode_sel s (λ r s', r = 0 ∧ stp is_pm_mode [] s s' ∧
    (mem s' pm_mode = 2 ∨ mem s' pm_mode = 5 ∧ Z.min (mem s hib_min_time) (MIN_TIME PM_DEEP_SLEEP) < idle_usec s ∨
     mem s' pm_mode = 6 ∧ Z.min (mem s hib_min_time) (MIN_TIME PM_DEEP_SLEEP) < idle_usec s ∧
       (mem s wtype = PM_WAKEUP_TYPE_WATCHER ∨ mem s hib_min_time < idle_usec s))).
Proof.
  intros Hm Hw Hh. assert (9000 ≤ idle_usec s) as Hd by (apply Z.div_le_lower_bound; lia).
  unfold pm_mode_sel, IDLE_DUR. wsteps. rewrite u64_id by lia. fold (pm_mtime_to_usec (mem s wtime - mem s mtime)).
  change (pm_mtime_to_usec (mem s wtime - mem s mtime)) with (idle_usec s).
  destruct (deepest_spec (mem s hib_min_time) (idle_usec s)) as (i&->&Hi); [lia|lia|].
  wsteps. look. apply wp_if; intros Hb; wsteps; [apply wp_if; intros Hb'; wsteps|]; look;
    (split; [done|]; split; [by stp|]); look.
  - right; right. split; [done|]. apply andb_true_iff in Hb as [Hb1 Hb2]. apply Z.geb_le in Hb1. apply Z.eqb_eq in Hb2.
    unfold PM_MODE_DEEP_SLEEP in Hb1. split; [lia|by left].
  - unfold PM_MODE_DEEP_SLEEP in Hb. lia.
  - lia.
Qed.

Lemma next_enabled_spec en n : 0 ≤ next_enabled en n ≤ Z.of_nat n ∧
  (next_enabled en n ≠ 0 → Z.testbit en (next_enabled en n) = true) ∧
  (∀ i, 1 ≤ i ≤ Z.of_nat n → Z.testbit en i = true → i ≤ next_enabled en n).
Proof.
  induction n as [|n IH]; [cbn; split; [lia|split; [done|lia]]|]. cbn [next_enabled]. rewrite land_BIT_zero by lia.
  rewrite negb_involutive. destruct (Z.testbit en (Z.of_nat (S n))) eqn:E.
  - split; [lia|]. split; [done|]. lia.
  - destruct IH as (IH1&IH2&IH3). split; [lia|]. split; [done|]. intros i Hi Hb.
    destruct (decide (i = Z.of_nat (S n))) as [->|]; [congruence|]. apply IH3; [lia|done].
Qed.

(** The mode that is entered when [m] is the deepest that fits. *)
Definition entered (en cnt mx m : Z) : Z :=
  let m := if (m =? PM_MODE_HIBERNATION) && (cnt >=? mx) then PM_MODE_DEEP_SLEEP else m in
  if Z.testbit en m then m else next_enabled en (Z.to_nat (m - 1)).

Lemma mode_check_run s : 1 ≤ mem s pm_mode ≤ 6 →
  wp pm_mode_check s (λ r s', stp is_pm_mode [] s s' ∧
    mem s' pm_mode = entered (mem s pm_mode_enabled) (mem s hib_limit_cnt) (mem s hib_max_cnt) (mem s pm_mode) ∧
    r = if mem s' pm_mode =? 0 then -1 else 0).
Proof.
  intros Hm. unfold pm_mode_check, entered. wsteps. apply wp_if; intros Hb; wsteps; look; rewrite Hb; unfold PM_MODE_DEEP_SLEEP, PM_MODE_ACTIVE;
    rewrite land_BIT_zero by lia; destruct (Z.testbit (mem s pm_mode_enabled) _); cbn [negb]; wsteps; look;
    (split; [by stp|]); look; done.
Qed.

Lemma entered_spec en cnt mx m : 1 ≤ m ≤ 6 → 0 ≤ entered en cnt mx m ≤ m ∧
  (entered en cnt mx m ≠ 0 → Z.testbit en (entered en cnt mx m) = true) ∧
  (entered en cnt mx m = PM_MODE_HIBERNATION → m = PM_MODE_HIBERNATION ∧ cnt < mx) ∧
  (∀ i, 1 ≤ i ≤ m → i ≤ PM_MODE_DEEP_SLEEP → Z.testbit en i = true → i ≤ entered en cnt mx m).
Proof.
  intros Hm. unfold entered, PM_MODE_HIBERNATION, PM_MODE_DEEP_SLEEP. rewrite Z.geb_leb.
  destruct ((m =? 6) && (mx <=? cnt)) eqn:Eb.
  - apply andb_true_iff in Eb as [->%Z.eqb_eq Hc%Z.leb_le]. cbv zeta. destruct (Z.testbit en 5) eqn:E5.
    + split; [lia|]. split; [done|]. split; lia.
    + destruct (next_enabled_spec en (Z.to_nat (5 - 1))) as (H1&H2&H3). split; [lia|]. split; [done|]. split; [lia|].
      intros i Hi Hi5 Hb. apply H3; [|done]. destruct (decide (i = 5)) as [->|]; [congruence|lia].
  - assert (m = 6 → cnt < mx) as Hc by (intros ->; cbn in Eb; apply Z.leb_gt in Eb; lia). cbv zeta.
    destruct (Z.testbit en m) eqn:E5.
    + split; [lia|]. split; [done|]. split; lia.
    + destruct (next_enabled_spec en (Z.to_nat (m - 1))) as (H1&H2&H3). split; [lia|]. split; [done|]. split; [lia|].
      intros i Hi Hi5 Hb. apply H3; [|done]. destruct (decide (i = m)) as [->|]; [congruence|lia].
Qed.

Definition hib_locs (l : loc) : bool := match l with hib_limit_clr | hib_limit_cnt => true | _ => false end.

Lemma reset_hib_limit_run s : wp pm_reset_hib_limit s (λ _ s', stp hib_locs [] s s' ∧
  mem s' hib_limit_cnt = (if mem s hib_limit_clr <? mem s mtime then 0 else mem s hib_limit_cnt) ∧
  mem s' hib_limit_clr = (if mem s hib_limit_clr <? mem s mtime
    then u64 (mem s mtime + pm_usec_to_mtime (PM_HIBERNATION_LIMIT_DURATION * USTIME)) else mem s hib_limit_clr)).
Proof.
  unfold pm_reset_hib_limit, HIB_CLR_DUR. wsteps. destruct (_ <? _); wsteps; (split; [|by look]); by stp.
Qed.

Definition target_locs (l : loc) : bool := match l with ttime | ttime_next => true | _ => false end.

Lemma update_target_time_run s :
  let ofs := pm_usec_to_mtime (pm_restore_time_offset (mem s wtype) (mem s pm_mode)) in
  wp pm_update_target_time s (λ _ s', stp target_locs [] s s' ∧ mem s' ttime = u64 (mem s wtime - ofs) ∧
    (mem s wtype = PM_WAKEUP_TYPE_WATCHER → mem s wtime_next ≠ 0 → mem s' ttime_next = u64 (mem s wtime_next - ofs))).
Proof.
  cbv zeta. unfold pm_update_target_time. wsteps. look. apply wp_if; intros Hb; wsteps; look.
  - split; [by stp|]. by split.
  - split; [by stp|]. split; [done|]. intros Ht Hn. exfalso.
    apply andb_false_iff in Hb as [Hb%Z.eqb_neq|Hb]; [done|]. apply negb_false_iff, Z.eqb_eq in Hb. done.
Qed.

Definition mode_locs (l : loc) : bool := is_pm_mode l || hib_locs l || target_locs l.

(** A sleep that fits: the mode is one that the application allows, and the
    target time leaves time for entering and leaving it. *)
Record fits (info : option (Z * Z * option Z)) (s s' : pm) : Prop := {
  fits_mode : 1 ≤ mem s' pm_mode ≤ 6;
  fits_enabled : Z.testbit (mem s pm_mode_enabled) (mem s' pm_mode) = true;
  fits_hib : mem s' pm_mode = PM_MODE_HIBERNATION → mem s' hib_limit_cnt < mem s hib_max_cnt;
  fits_now : mem s' mtime = clock (pass s);
  fits_wake : mem s' wtime = Z.min (first_due info (mem s MTIMECMP)) (clock (pass s) + PM_MAX_LOWPOWER_MTIME_DURATION);
  fits_target : mem s' ttime = mem s' wtime - XTALTIME * pm_restore_time_offset (mem s' wtype) (mem s' pm_mode);
  fits_slack : clock (pass s) + 6500 * XTALTIME ≤ mem s' ttime;
  fits_watcher : mem s' wtype = PM_WAKEUP_TYPE_WATCHER →
    mem s' ttime_next = next_due info (mem s MTIMECMP) - XTALTIME * pm_restore_time_offset (mem s' wtype) (mem s' pm_mode)
    ∧ mem s' ttime ≤ mem s' ttime_next;
}.

(** The restore time of a mode, in numbers. *)
Lemma restore_offset ty m : 0 ≤ pm_restore_time_offset ty m ∧
  (m ≤ 2 → pm_restore_time_offset ty m ≤ 1120) ∧ (m ≤ 5 → pm_restore_time_offset ty m ≤ 12800) ∧
  (m = 6 → pm_restore_time_offset ty m = if ty =? 0 then 60000 else 0) ∧ pm_restore_time_offset ty m ≤ 60000.
Proof.
  unfold pm_restore_time_offset, RESTORE_TIME. cbn.
  unfold PM_MODE_LIGHT_SLEEP, PM_MODE_SLEEP, PM_MODE_DEEP_SLEEP_0, PM_MODE_DEEP_SLEEP, PM_MODE_HIBERNATION, PM_WAKEUP_TYPE_FULL.
  destruct (Z.eqb_spec m 2); [lia|]. destruct (Z.eqb_spec m 3); [lia|]. destruct (Z.eqb_spec m 4), (Z.eqb_spec m 5); cbn;
    destruct (Z.eqb_spec m 6), (ty =? 0); lia.
Qed.

Definition reset_due (s : pm) : bool := mem s hib_limit_clr <? mem s mtime.

(** The target time is at least the time for entering the mode away. *)
Lemma target_slack s ofs : 0 ≤ ofs → mem s mtime + 9000 * XTALTIME ≤ mem s wtime →
  ofs ≤ 1120 ∨ ofs + 6500 < idle_usec s → mem s mtime + 6500 * XTALTIME ≤ mem s wtime - ofs * XTALTIME.
Proof.
  intros Ho Hw [Hs|Hs]; [nia|]. unfold idle_usec in Hs.
  assert (0 < XTALTIME) as HX by lia. pose proof (Z.mul_div_le (mem s wtime - mem s mtime) _ HX). nia.
Qed.

Lemma update_mode_run s : 0 ≤ mem s mtime → mem s mtime + 9000 * XTALTIME ≤ mem s wtime < 2 ^ 64 →
  100000 ≤ mem s hib_min_time → mem s wtype = PM_WAKEUP_TYPE_FULL ∨ mem s wtype = PM_WAKEUP_TYPE_WATCHER →
  (mem s wtype = PM_WAKEUP_TYPE_WATCHER → mem s wtime ≤ mem s wtime_next < 2 ^ 64) →
  wp pm_update_mode s (λ r s', stp mode_locs [] s s' ∧
    mem s' hib_limit_cnt = (if reset_due s then 0 else mem s hib_limit_cnt) ∧
    mem s' hib_limit_clr = (if reset_due s
      then u64 (mem s mtime + pm_usec_to_mtime (PM_HIBERNATION_LIMIT_DURATION * USTIME)) else mem s hib_limit_clr) ∧
    (Z.testbit (mem s pm_mode_enabled) PM_MODE_LIGHT_SLEEP = true → r = 0) ∧
    (r ≠ 0 → mem s' pm_mode = PM_MODE_ACTIVE) ∧
    (r = 0 → let m := mem s' pm_mode in let ofs := XTALTIME * pm_restore_time_offset (mem s wtype) m in
      1 ≤ m ≤ 6 ∧ Z.testbit (mem s pm_mode_enabled) m = true ∧
      (m = PM_MODE_HIBERNATION → mem s' hib_limit_cnt < mem s hib_max_cnt) ∧
      mem s' ttime = mem s wtime - ofs ∧ mem s mtime + 6500 * XTALTIME ≤ mem s' ttime ∧
      (mem s wtype = PM_WAKEUP_TYPE_WATCHER → mem s' ttime_next = mem s wtime_next - ofs))).
Proof.
  intros Hm Hw Hh Hty Hwn. unfold pm_update_mode. apply wp_bind.
  eapply wp_mono; [apply mode_sel_run; lia|]. intros r s1 (->&S1&Hsel). cbn [negb Z.eqb]. apply wp_bind.
  pose proof (stp_only _ _ _ _ S1) as O1.
  eapply wp_mono; [apply reset_hib_limit_run|]. intros [] s2 (S2&Hcnt&Hclr). pose proof (stp_only _ _ _ _ S2) as O2. rewrite (O1 hib_limit_cnt eq_refl), (O1 hib_limit_clr eq_refl), (O1 mtime eq_refl) in *.
  fold (reset_due s) in Hcnt, Hclr. apply wp_bind.
  rewrite <- (O2 pm_mode eq_refl) in Hsel.
  eapply wp_mono; [apply mode_check_run; lia|]. intros r s3 (S3&Hm3&->). pose proof (stp_only _ _ _ _ S3) as O3.
  rewrite (O2 pm_mode_enabled eq_refl), (O1 pm_mode_enabled eq_refl), (O2 hib_max_cnt eq_refl), (O1 hib_max_cnt eq_refl) in Hm3.
  destruct (entered_spec (mem s pm_mode_enabled) (mem s2 hib_limit_cnt) (mem s hib_max_cnt) (mem s2 pm_mode)) as (E1&E2&E3&E4);
    [lia|]. rewrite <- Hm3 in E1, E2, E3, E4.
  rewrite <- (O3 hib_limit_cnt eq_refl) in E3, Hcnt. rewrite <- (O3 hib_limit_clr eq_refl) in Hclr.
  assert (stp mode_locs [] s s3) as S13.
  { apply (stp_trans _ [] [] _ s2); [apply (stp_trans _ [] [] _ s1)|]; (eapply stp_weaken; [|eassumption]);
      intros l; unfold mode_locs; rewrite !orb_false_iff; tauto. }
  pose proof (stp_only _ _ _ _ S13) as O.
  destruct (Z.eqb_spec (mem s3 pm_mode) 0) as [Hz|Hz]; cbn [negb Z.eqb Pos.eqb].
  { wsteps. split; [exact S13|]. split; [done|]. split; [done|]. split; [|by split].
    intros Hb. specialize (E4 2 ltac:(lia) ltac:(done) Hb). lia. }
  apply wp_bind. eapply wp_mono; [apply update_target_time_run|]. intros [] s4 (S4&Ht&Htn). wsteps.
  pose proof (stp_only _ _ _ _ S4) as O4.
  assert (stp mode_locs [] s s4) as S14.
  { apply (stp_trans _ [] [] _ s3); [done|]. eapply stp_weaken; [|exact S4]. intros l; unfold mode_locs; rewrite !orb_false_iff; tauto. }
  rewrite (O wtype eq_refl), (O wtime eq_refl) in *. rewrite (O wtime_next eq_refl) in Htn.
  rewrite (O4 hib_limit_cnt eq_refl), (O4 hib_limit_clr eq_refl), (O4 pm_mode eq_refl).
  split; [done|]. split; [done|]. split; [done|]. split; [done|]. split; [by intros []|]. intros _. cbv zeta.
  set (m := mem s3 pm_mode) in *. set (ofs := pm_restore_time_offset (mem s wtype) m) in *.
  pose proof (restore_offset (mem s wtype) m) as (R0&R2&R5&R6&Rm). fold ofs in R0, R2, R5, R6, Rm.
  rewrite usec_mtime in Ht, Htn by lia.
  assert (mem s mtime + 6500 * XTALTIME ≤ mem s wtime - ofs * XTALTIME) as Hslack.
  { pose proof min_times as [_ HD]. apply target_slack; [done|lia|].
    destruct Hsel as [Hs|[[Hs ?]|[Hs6 Hs]]]; [left; apply R2; lia|right; assert (ofs ≤ 12800) by (apply R5; lia); lia|]. right. destruct (decide (m = 6)) as [Hm6|]; [|assert (ofs ≤ 12800) by (apply R5; lia); lia].
    rewrite (R6 Hm6). destruct Hs as [? [-> | ?]]; cbn; [lia|]. destruct (_ =? 0); lia. }
  assert (0 ≤ ofs * XTALTIME) as Hp by (clear -R0 xtal; nia). rewrite (Z.mul_comm XTALTIME ofs).
  assert (0 ≤ mem s mtime + 6500 * XTALTIME) as Hp' by (clear -Hm xtal; lia).
  assert (1 ≤ m ≤ 6) as Hr by (clear -Hsel E1 Hz; lia).
  clear Hsel R0 R2 R5 R6 Rm Hh Hty Hcnt Hclr E4. rewrite u64_id in Ht by lia.
  split; [done|]. split; [by apply E2|]. split; [by intros [_ Hm6]%E3|]. split; [done|]. split; [by rewrite Ht|].
  intros Hwt. specialize (Hwn Hwt). rewrite Htn by (done || lia). apply u64_id. lia.
Qed.

Definition decision_locs (l : loc) : bool := idle_locs l || mode_locs l.

(** The two steps of the decision. *)
Lemma decision_run info s : clock (pass s) < 2 ^ 63 → 0 ≤ mem s MTIMECMP < 2 ^ 64 → info_ok info →
  100000 ≤ mem s hib_min_time →
  ∃ r s1, pm_update_idle_time info s = Ret (r, s1) ∧ stp idle_locs [] (pass s) s1 ∧
    (r ≠ 0 ↔ first_due info (mem s MTIMECMP) < clock (pass s) + PM_DEFAULT_SLEEP_THRESHOLD * XTALTIME) ∧
    (r = 0 → ∃ r' s2, pm_update_mode s1 = Ret (r', s2) ∧ stp decision_locs [] (pass s) s2 ∧
      (Z.testbit (mem s pm_mode_enabled) PM_MODE_LIGHT_SLEEP = true → r' = 0) ∧
      (r' ≠ 0 → mem s2 pm_mode = PM_MODE_ACTIVE) ∧ (r' = 0 → fits info s s2)).
Proof.
  intros Hs Hc Hi Hh. destruct (wp_run _ _ _ (update_idle_time_run info s Hs Hc Hi)) as (r&s1&E1&S1&Hm&Hr&Hret).
  pose proof (stp_only _ _ _ _ S1) as O1.
  exists r, s1. split; [done|]. split; [done|]. split.
  { rewrite Hr. unfold over. destruct (Z.ltb_spec (first_due info (mem s MTIMECMP))
      (clock (pass s) + PM_DEFAULT_SLEEP_THRESHOLD * XTALTIME)); split; intros; try done; lia. }
  intros Hr0. destruct (Hret Hr0) as (Hw&Hn&Hty). pose proof threshold as Hthr.
  assert (clock (pass s) + 9000 * XTALTIME ≤ first_due info (mem s MTIMECMP)) as Hfd.
  { rewrite Hr0 in Hr. unfold over in Hr. destruct (Z.ltb_spec (first_due info (mem s MTIMECMP))
      (clock (pass s) + PM_DEFAULT_SLEEP_THRESHOLD * XTALTIME)); [done|nia]. }
  assert (0 ≤ clock (pass s)) as Hpos by apply u64_range. pose proof (first_due_le info s) as Hle.
  assert (clock (pass s) + 9000 * XTALTIME ≤ mem s1 wtime < 2 ^ 64) as Hwr.
  { rewrite Hw. unfold woken_at, PM_MAX_LOWPOWER_MTIME_DURATION. lia. }
  assert (mem s1 wtype = PM_WAKEUP_TYPE_WATCHER → mem s1 wtime_next = next_due info (mem s MTIMECMP) ∧
    mem s1 wtime ≤ mem s1 wtime_next < 2 ^ 64) as Hwt.
  { rewrite Hty, Hn, Hw. intros Ht. split; [done|]. apply next_due_spec; [done..|]. by destruct (_ || _). }
  destruct (wp_run _ _ _ (update_mode_run s1 ltac:(by rewrite Hm) ltac:(by rewrite Hm) ltac:(by rewrite (O1 hib_min_time eq_refl))
    ltac:(rewrite Hty; destruct (_ || _); auto) ltac:(apply Hwt))) as (r'&s2&E2&S2&_&_&Hls&Hna&Hok).
  pose proof (stp_only _ _ _ _ S2) as O2.
  exists r', s2. split; [done|]. split.
  { apply (stp_trans _ [] [] _ s1); (eapply stp_weaken; [|eassumption]); intros l; unfold decision_locs; rewrite orb_false_iff; tauto. }
  rewrite (O1 pm_mode_enabled eq_refl) in *. split; [done|]. split; [done|].
  intros Hr'. destruct (Hok Hr') as (K1&K2&K3&K4&K5&K6).
  rewrite (O1 hib_max_cnt eq_refl) in K3. rewrite Hm in K5.
  rewrite <- (O2 wtype eq_refl), <- (O2 wtime eq_refl) in K4. rewrite <- (O2 wtype eq_refl) in K6, Hwt.
  split; try done.
  - by rewrite (O2 mtime eq_refl).
  - by rewrite (O2 wtime eq_refl), Hw.
  - intros Ht. destruct (Hwt Ht) as [Hn' Hl]. rewrite K6, K4, (O2 wtime eq_refl) by done. rewrite Hn' in *. split; lia.
Qed.

(** C19: A sleep is decided on only if it fits.  [pm_update_idle_time] always
    returns, and refuses exactly when the first deadline (the next tick of the
    RTOS or the first alarm) is less than the threshold away.  Otherwise
    [pm_update_mode] returns, and succeeds whenever light sleep is enabled; when
    it succeeds, the mode is enabled and is not hibernation beyond the limit,
    the wake-up is due at the first deadline or after the longest sleep, the
    target time precedes it by the restore time of the mode and is at least
    6500 us away, and a watcher that is woken up at it has its next target time
    not before it.  Nothing overflows. *)
Theorem pm_decision_fits info s : clock (pass s) < 2 ^ 63 → 0 ≤ mem s MTIMECMP < 2 ^ 64 → info_ok info →
  100000 ≤ mem s hib_min_time →
  ∃ r s1, pm_update_idle_time info s = Ret (r, s1) ∧
    (r ≠ 0 ↔ first_due info (mem s MTIMECMP) < clock (pass s) + PM_DEFAULT_SLEEP_THRESHOLD * XTALTIME) ∧
    (r = 0 → ∃ r' s2, pm_update_mode s1 = Ret (r', s2) ∧
      (Z.testbit (mem s pm_mode_enabled) PM_MODE_LIGHT_SLEEP = true → r' = 0) ∧ (r' = 0 → fits info s s2)).
Proof.
  intros Hs Hc Hi Hh. destruct (decision_run info s Hs Hc Hi Hh) as (r&s1&E1&_&Hr&H1). exists r, s1.
  split; [done|]. split; [done|]. intros Hr0. destruct (H1 Hr0) as (r'&s2&E2&_&Hl&_&Hf). eauto.
Qed.
End Decision.

(** ** A chip *)

Module Demo.

(** A timer with 10 ticks per microsecond, and an RTC at 32768 Hz. *)
#[export] Instance config : PmConfig := {|
  XTALTIME := 10; hz := 1000; PM_HIBERNATION_LIMIT_COUNT := 5; PM_HIBERNATION_LIMIT_DURATION := 3600;
  SDIO_PM := false; VOLTAGE_CTRL_OCR := false; pm_wakeup_wfi := 0x10000; RRAM_FW_ADDR := 0x20000;
  PM_FEATURES := 2; PM_LOWPOWER_IO_OFF := false;
|}.
#[export] Instance rtc_hw : RtcHw := {|
  rtc_count t := (t * 32768 / 10000000) mod (RTC_COUNT_MAX + 1);
  rtc_reg t := (t * 32768 / 10000000) mod (RTC_COUNT_MAX + 1);
|}.

Definition after {A} (c : M pm A) (s : pm) : pm := match c s with Ret (_, s) => s | _ => s end.

(** After start-up, when no part asks to stay active and the other core waits,
    with the next tick of the RTOS a second away. *)
Definition chip : pm :=
  let s := after (pm_init;; pm_relax PM_DEVICE_APP) (Pm (λ l, match l with rram_act_ratio => 61035 | _ => 0 end) 0 0 [] []) in
  let s := after (st MTIMECMP 10000000;; st LOWPOWER_CTRL (BIT 11);; st (PLIC_INT_ENABLE 0 1) 7;; st (GPIO 0x10) 255) s in
  Pm (mem s) (now s) (offset s) [10; 20; 30] (events s).

Lemma pm_decision_fits_witness : ∃ s1 s2, pm_update_idle_time None chip = Ret (0, s1) ∧ pm_update_mode s1 = Ret (0, s2) ∧
  mem s2 ttime = 10000000 - 128000 ∧ mem s2 pm_mode = PM_MODE_DEEP_SLEEP.
Proof.
  destruct (pm_decision_fits ltac:(split; discriminate) None chip) as (r&s1&E1&Hr&H1);
    [reflexivity|split; [discriminate|reflexivity]|discriminate|discriminate|].
  assert (r = 0) as ->.
  { destruct (decide (r = 0)) as [|n]; [done|]. apply Hr in n. vm_compute in n. discriminate n. }
  destruct (H1 eq_refl) as (r'&s2&E2&Hl&F). specialize (F (Hl eq_refl)). rewrite (Hl eq_refl) in E2.
  exists s1, s2. split; [exact E1|]. split; [exact E2|].
  vm_compute in E1. injection E1 as <-. vm_compute in E2. injection E2 as <-. split; reflexivity.
Defined.
End Demo.
