(* ===== verification/PmSleep.v ===== *)
(** * The power manager: sleeping and waking up

    What one sleep, from the decided mode to the end of
    [pm_post_sleep_processing], does to the chip. *)

From stdpp Require Import base tactics numbers list gmap functions.
From S2P Require Import Prelude Systimer Pm PmTheorems.

(** ** Asleep *)

(** The value of a location after the changes of a sleep. *)
Definition changed (cs : list (loc * Z)) (l : loc) (v : Z) : Z :=
  fold_left (λ v lv, if decide (lv.1 = l) then lv.2 else v) cs v.

Lemma nap_lookup cs (f : loc → Z) l : fold_left (λ m lv, <[lv.1 := lv.2]> m) cs f l = changed cs l (f l).
Proof.
  revert f. induction cs as [|[k v] cs IH]; intros f; [done|]. cbn. by rewrite IH.
Qed.

Lemma changed_other cs l v : (∀ lv, lv ∈ cs → lv.1 ≠ l) → changed cs l v = v.
Proof.
  revert v. induction cs as [|[k w] cs IH]; intros v Hc; [done|]. cbn.
  rewrite decide_False by (apply (Hc (k, w)); by left). apply IH. intros lv Hl. apply Hc. by right.
Qed.

(** What may change in a sleep of mode [m]: registers of the peripherals, of the
    timer and of the power management, the interrupt enables of the core that
    is asleep (and of the other one when the system is powered off), and what
    the watcher firmware reports. *)
Definition lost (m : Z) (l : loc) : bool :=
  match l with
  | PLIC_INT_ENABLE _ h => (h =? 0) || feat m PM_FEAT_SYS_PG
  | GPIO _ | MTIMECMP | LOWPOWER_CTRL | PMU_IRQ | UART_CFG _ | AON_MEMEMA | RTC_ALARM => true
  | RESET_VECTOR _ | CORE_RESET_CTRL => true
  | rram_wakeup_flag | rram_sync_flag | rram_exec_watcher | rram_wk_evt | rram_wk_fb_reason | rram_wk_fb_type
  | rram_wk_time | rram_next_mtime_value => feat m PM_FEAT_CORE_PG
  | _ => false
  end.

Definition nap_ok (m : Z) (n : nap) : Prop := 0 ≤ slept n ∧ ∀ lv, lv ∈ changes n → lost m lv.1 = true.

Definition asleep (n : nap) (s : pm) : pm :=
  Pm (fold_left (λ m lv, <[lv.1 := lv.2]> m) (changes n) (mem s)) (now s + slept n) (offset s) (delays s) (events s).

Lemma mem_asleep n s l : mem (asleep n s) l = changed (changes n) l (mem s l).
Proof. apply nap_lookup. Qed.

Lemma asleep_kept m n s l : nap_ok m n → lost m l = false → mem (asleep n s) l = mem s l.
Proof.
  intros [_ Hn] Hl. rewrite mem_asleep. apply changed_other. intros lv Hlv <-. rewrite (Hn lv Hlv) in Hl. done.
Qed.

(** ** The parts of a sleep *)

Definition plic_locs (h : Z) (l : loc) : bool :=
  match l with PLIC_INT_ENABLE _ h' | plic_en _ h' => h' =? h | _ => false end.
Definition gpio_locs (l : loc) : bool := match l with GPIO _ | gpio_saved _ => true | _ => false end.
Definition reset_locs (l : loc) : bool := match l with RESET_VECTOR _ | CORE_RESET_CTRL => true | _ => false end.

Section Parts.
Context `{!PmConfig, !RtcHw}.
Context (xtal : 10 ≤ XTALTIME ≤ 1000).

Lemma save_plic_run h s : wp (pm_save_plic h) s (λ _ s', stp (plic_locs h) [] s s' ∧
  mem s' (plic_en 0 h) = mem s (PLIC_INT_ENABLE 0 h) ∧ mem s' (plic_en 1 h) = mem s (PLIC_INT_ENABLE 1 h)).
Proof.
  unfold pm_save_plic. wsteps. look. split; [|done].
  repeat (apply stp_upd_r; [apply Z.eqb_refl|]). apply stp_refl.
Qed.

Lemma restore_plic_run h s : wp (pm_restore_plic h) s (λ _ s',
  stp (λ l, match l with PLIC_INT_ENABLE _ h' => h' =? h | _ => false end) [] s s' ∧
  mem s' (PLIC_INT_ENABLE 0 h) = mem s (plic_en 0 h) ∧ mem s' (PLIC_INT_ENABLE 1 h) = mem s (plic_en 1 h)).
Proof.
  unfold pm_restore_plic. wsteps. look. split; [|done].
  repeat (apply stp_upd_r; [apply Z.eqb_refl|]). apply stp_refl.
Qed.

Lemma suspend_h0_run s : wp pm_suspend_h0 s (λ _ s', stp reset_locs [] s s').
Proof. unfold pm_suspend_h0. wsteps. stp. Qed.

(** A loop over registers, each step of which copies one location. *)
Lemma each_copy (from to : Z → loc) rs s : (∀ i j, to i = to j → i = j) → (∀ i j, to i ≠ from j) → NoDup rs →
  wp (each rs (λ o, v ← ld (from o); st (to o) v)) s (λ _ s',
    (∀ o, o ∈ rs → mem s' (to o) = mem s (from o)) ∧
    (∀ l, (∀ o, o ∈ rs → l ≠ to o) → mem s' l = mem s l) ∧
    now s' = now s ∧ offset s' = offset s ∧ delays s' = delays s ∧ events s' = events s).
Proof.
  intros Hinj Hne. revert s. induction rs as [|r rs IH]; intros s Hd; cbn [each]; wsteps.
  { split; [intros o Ho; by apply not_elem_of_nil in Ho|]. by split. }
  inversion_clear Hd as [|? ? Hr Hd']. eapply wp_mono; [by apply IH|]. cbv beta. intros [] s' (H1&H2&H3).
  split; [|split; [|done]].
  - intros o [->|Ho]%elem_of_cons.
    + rewrite H2; [by look|]. intros o Ho Heq. apply Hinj in Heq. congruence.
    + rewrite H1 by done. apply mem_upd_ne. apply Hne.
  - intros l Hl. rewrite H2; [|intros o Ho; apply Hl; by right]. apply mem_upd_ne. intros Heq. by apply (Hl r); [left|].
Qed.

Lemma gpio_regs_nodup : NoDup gpio_regs.
Proof. apply (bool_decide_unpack _). by vm_compute. Qed.

Lemma stp_copy (L : loc → bool) (to : Z → loc) (rs : list Z) s s' : (∀ o, L (to o) = true) →
  (∀ l, (∀ o, o ∈ rs → l ≠ to o) → mem s' l = mem s l) ∧
  now s' = now s ∧ offset s' = offset s ∧ delays s' = delays s ∧ events s' = events s → stp L [] s s'.
Proof.
  intros HL (H1&H2&H3&H4&H5). split; try done; [|by rewrite app_nil_r]. intros l Hl. apply H1. intros o _ ->. by rewrite HL in Hl.
Qed.

Lemma store_gpio_run s : wp pm_store_gpio s (λ _ s', stp gpio_locs [] s s' ∧
  ∀ o, o ∈ gpio_regs → mem s' (gpio_saved o) = mem s (GPIO o)).
Proof.
  eapply wp_mono; [apply (each_copy GPIO gpio_saved); [congruence|done|apply gpio_regs_nodup]|].
  intros [] s' [H1 H2]. split; [|done]. by apply (stp_copy _ gpio_saved gpio_regs).
Qed.

Lemma restore_gpio_run s : wp pm_restore_gpio s (λ _ s',
  stp (λ l, match l with GPIO _ => true | _ => false end) [] s s' ∧
  ∀ o, o ∈ gpio_regs → mem s' (GPIO o) = mem s (gpio_saved o)).
Proof.
  eapply wp_mono; [apply (each_copy gpio_saved GPIO); [congruence|done|apply gpio_regs_nodup]|].
  intros [] s' [H1 H2]. split; [|done]. by apply (stp_copy _ GPIO gpio_regs).
Qed.

(** Any other loop that only writes pins. *)
Lemma each_gpio (g : Z → Z → Z) rs s :
  wp (each rs (λ o, v ← ld (gpio_saved o); st (GPIO o) (g o v))) s
    (λ _ s', stp (λ l, match l with GPIO _ => true | _ => false end) [] s s').
Proof.
  revert s. induction rs as [|r rs IH]; intros s; cbn [each]; wsteps; [apply stp_refl|].
  eapply wp_mono; [apply IH|]. intros [] s' Hs'. apply (stp_trans _ [] [] _ (upd s (GPIO r) (g r (mem s (gpio_saved r))))); [|done].
  by apply stp_upd.
Qed.

Lemma save_gpio_run s : wp pm_save_gpio s (λ _ s', stp gpio_locs [] s s' ∧
  ∀ o, o ∈ gpio_regs → mem s' (gpio_saved o) = mem s (GPIO o)).
Proof.
  unfold pm_save_gpio, pm_pull_down_gpio. wstep. eapply wp_mono; [apply store_gpio_run|]. intros [] s1 [S1 H1]. wstep. wstep. wstep.
  eapply wp_mono; [apply (each_gpio (λ o v, u32 (pulled_down (mem s1 gpio_enabled) o v)))|]. intros [] s2 S2. wsteps.
  assert (stp gpio_locs [] s s2) as S.
  { apply (stp_trans _ [] [] _ s1); [done|]. eapply stp_weaken; [|exact S2]. by intros []. }
  assert (∀ o, o ∈ gpio_regs → mem s2 (gpio_saved o) = mem s (GPIO o)) as Hg.
  { intros o Ho. rewrite (stp_only _ _ _ _ S2) by done. by apply H1. }
  apply wp_if; intros _; wsteps; [done|]. split; [by stp|]. intros o Ho. look. by apply Hg.
Qed.

Lemma select_ratio_run s : wp select_ratio s (λ _ s', stp (λ l, match l with ratio => true | _ => false end) [ESnap] s s' ∧
  mem s' ratio = if (mem s pm_mode =? PM_MODE_HIBERNATION) || (mem s pm_mode <=? PM_MODE_SLEEP)
    then mem s rram_act_ratio else mem s rram_ratio).
Proof.
  unfold select_ratio, systimer_update_ratio. wsteps. look. apply wp_if; intros Hb; wsteps; look; rewrite Hb;
    (split; [|done]); repeat (apply stp_upd_r; [done|]); apply stp_log.
Qed.

(** The sleep in ticks of the RTC. *)
Definition alarm_ticks (s : pm) : Z := (mem s ttime - mem s mtime) / XTALTIME * RTCTIME / mem s ratio.

(** A ratio from which on the longest sleep fits the RTC. *)
Definition MIN_RATIO : Z := 58500.

Lemma alarm_ticks_range d r : 0 ≤ d ≤ PM_MAX_LOWPOWER_MTIME_DURATION → MIN_RATIO ≤ r →
  0 ≤ d / XTALTIME * RTCTIME < 2 ^ 64 ∧ 0 ≤ d / XTALTIME * RTCTIME / r < RTC_COUNT_MAX.
Proof.
  unfold PM_MAX_LOWPOWER_MTIME_DURATION, MIN_RATIO, RTCTIME, RTC_COUNT_MAX. intros Hd Hr.
  assert (0 ≤ d / XTALTIME ≤ 82799990000) as Hq.
  { split; [apply Z.div_pos; lia|]. assert (d / XTALTIME ≤ d / 10) by (apply Z.div_le_compat_l; lia).
    assert (d / 10 ≤ 827999900000 / 10) by (apply Z.div_le_mono; lia).
    change (827999900000 / 10) with 82799990000 in *. lia. }
  split; [lia|]. split; [apply Z.div_pos; lia|]. apply Z.div_lt_upper_bound; lia.
Qed.

Lemma set_rtc_wakeup_run s : MIN_RATIO ≤ mem s ratio →
  0 ≤ mem s ttime - mem s mtime ≤ PM_MAX_LOWPOWER_MTIME_DURATION →
  wp pm_set_rtc_wakeup s (λ _ s', s' = upd s RTC_ALARM (rtc_add (rtc_count (now s)) (alarm_ticks s))).
Proof.
  intros Hr Hd. destruct (alarm_ticks_range _ _ Hd Hr) as [H1 H2].
  unfold pm_set_rtc_wakeup, pm_set_alarm, pm_rtc_time_next, pm_usec_to_rtc. wsteps.
  unfold MIN_RATIO in Hr. rewrite (proj2 (Z.eqb_neq (mem s ratio) 0)) by lia. wsteps.
  unfold pm_mtime_to_usec. unfold PM_MAX_LOWPOWER_MTIME_DURATION in Hd. rewrite (u64_id (_ - _)) by lia. rewrite u64_id by done.
  fold (alarm_ticks s) in H2 |- *. unfold RTC_COUNT_MAX in H2. rewrite u32_id by lia.
  apply wp_assert; [apply Z.ltb_lt; unfold RTC_COUNT_MAX; lia|]. by wsteps.
Qed.

Definition lowpower_locs (l : loc) : bool :=
  match l with
  | LOWPOWER_CTRL | ratio | RTC_ALARM | PMU_IRQ | AON_MEMEMA | UART_CFG _ => true
  | _ => false
  end.

(** The ratio that a mode uses. *)
Definition ratio_of (s : pm) : Z :=
  if (mem s pm_mode =? PM_MODE_HIBERNATION) || (mem s pm_mode <=? PM_MODE_SLEEP)
  then mem s rram_act_ratio else mem s rram_ratio.

Definition pmu_events (s : pm) : list event :=
  [ESnap; EPmuMode (mem s (pm_pmu_mode PMU_LOWPOWER (mem s pm_mode))); EPmuMode (mem s (pm_pmu_mode PMU_WAKEUP (mem s pm_mode)))].

Lemma prepare_lowpower_run s : Z.testbit (mem s wakeup_src) 1 = true → MIN_RATIO ≤ ratio_of s →
  0 ≤ mem s ttime - mem s mtime ≤ PM_MAX_LOWPOWER_MTIME_DURATION →
  wp pm_prepare_lowpower s (λ _ s', stp lowpower_locs (pmu_events s) s s' ∧ mem s' ratio = ratio_of s ∧
    mem s' RTC_ALARM = rtc_add (rtc_count (now s)) ((mem s ttime - mem s mtime) / XTALTIME * RTCTIME / ratio_of s)).
Proof.
  intros Hsrc Hr Hd. unfold pm_prepare_lowpower. wsteps.
  set (s1 := upd s LOWPOWER_CTRL _). assert (stp lowpower_locs [] s s1) as S1 by by apply stp_upd.
  eapply wp_mono; [apply select_ratio_run|]. intros [] s2 [S2 R2].
  assert (mem s2 ratio = ratio_of s) as R2' by exact R2. clearbody s1.
  assert (stp lowpower_locs [ESnap] s s2) as S12.
  { apply (stp_trans _ [] [ESnap] _ s1); [done|]. eapply stp_weaken; [|exact S2]. by intros []. }
  wsteps. change WAKEUP_SRC_RTC with (BIT 1). rewrite land_BIT_zero, Hsrc by lia. cbn [negb].
  eapply wp_mono; [apply set_rtc_wakeup_run|].
  { by rewrite R2'. }
  { by rewrite !(stp_only _ _ _ _ S12) by done. }
  intros [] s3 ->. unfold alarm_ticks. rewrite R2', !(stp_only _ _ _ _ S12), (stp_now _ _ _ _ S12) by done.
  set (a := rtc_add _ _). wsteps. look.
  split; [|by look]. unfold pmu_events. rewrite !(stp_only _ _ _ _ S12) by done.
  repeat (apply stp_upd_r; [done|]). apply (stp_log_r _ [_; _]), (stp_log_r _ [_]). by repeat (apply stp_upd_r; [done|]).
Qed.

Definition save_locs (l : loc) : bool := match l with rtc | mtime | mtimecmp | MTIMECMP => true | _ => false end.

Lemma save_time_run s : wp pm_save_time s (λ _ s', stp save_locs [] (pass s) s' ∧
  mem s' rtc = rtc_count (now s) ∧ mem s' mtime = clock (pass s) ∧ mem s' mtimecmp = mem s MTIMECMP).
Proof.
  unfold pm_save_time, prvStopMtimeIrq. wsteps. look. split; [|done]. repeat (apply stp_upd_r; [done|]).
  split; try done; [|by cbn; rewrite app_nil_r]. intros l Hl. look. apply mem_upd_ne. by intros <-.
Qed.

Definition rram_locs (l : loc) : bool :=
  match l with
  | rram_pm_mode | rram_wk_src | rram_wk_time | rram_sync_flag | rram_rtc_value | rram_mtime_value
  | rram_next_mtime_value | rram_wakeup_flag => true
  | _ => false
  end.

(** A time base in the retention RAM, where there is one, is the one in the context. *)
Definition base_ok (s : pm) : Prop :=
  (mem s rram_rtc_value = 0 ∨ mem s rram_rtc_value = mem s rtc) ∧
  (mem s rram_mtime_value = 0 ∨ mem s rram_mtime_value = mem s mtime).

Lemma update_rram_run s : base_ok s → wp pm_update_rram s (λ _ s', stp rram_locs [] s s' ∧ base_ok s').
Proof.
  intros [B1 B2]. unfold pm_update_rram, base_ok. wsteps. apply wp_if; intros Hb; wsteps; apply wp_if; intros Hb'; wsteps; look;
    (split; [by stp|]); auto.
Qed.

Definition count_locs (l : loc) : bool := match l with hib_limit_cnt => true | _ => false end.

(** The calls of the drivers, in the order of the table of devices. *)
Fixpoint driver_calls (call : nat → event) (has : device → bool) (i : nat) (devs : list device) : list event :=
  match devs with
  | [] => []
  | d :: devs => (if has d then [call i] else []) ++ driver_calls call has (S i) devs
  end.

Definition none (l : loc) : bool := false.

Lemma suspend_from_run devs i s : Forall (λ d, 0 ≤ suspend_ret d) devs →
  wp (suspend_from i devs) s (λ r s', 0 ≤ r.1 ∧ stp none (driver_calls ESuspend has_suspend i devs) s s').
Proof.
  revert i s. induction devs as [|d devs IH]; intros i s Hd; cbn [suspend_from driver_calls].
  { wsteps. split; [done|apply stp_refl]. }
  inversion_clear Hd as [|? ? H1 H2]. destruct (has_suspend d); cbn [negb app]; [|by apply IH].
  wsteps. rewrite (proj2 (Z.ltb_ge _ _)) by done. eapply wp_mono; [by apply IH|]. intros r s' [Hr Hs']. split; [done|].
  apply (stp_trans _ [_] _ _ (log s (ESuspend i))); [apply stp_log|done].
Qed.

Lemma suspend_device_run devs s : Forall (λ d, 0 ≤ suspend_ret d) devs →
  wp (pm_suspend_device devs) s (λ r s', r = 0 ∧ stp none (driver_calls ESuspend has_suspend 0 devs) s s').
Proof.
  intros Hd. unfold pm_suspend_device. wsteps. eapply wp_mono; [by apply suspend_from_run|]. intros [r i] s' [Hr Hs']. cbn in Hr |- *.
  rewrite (proj2 (Z.ltb_ge _ _)) by done. wsteps. done.
Qed.

Lemma resume_from_run devs i s : wp (resume_from i devs) s (λ _ s', stp none (driver_calls EResume has_resume i devs) s s').
Proof.
  revert i s. induction devs as [|d devs IH]; intros i s; cbn [resume_from driver_calls]; wsteps; [apply stp_refl|].
  apply wp_if; intros ->; wsteps; [|by apply IH]. eapply wp_mono; [by apply IH|]. intros [] s' Hs'.
  apply (stp_trans _ [_] _ _ (log s (EResume i))); [apply stp_log|done].
Qed.

Definition callback_event (s : pm) (m : Z) : list event := if mem s callback =? 0 then [] else [ECallback m].

Lemma run_callback_run s : wp run_callback s (λ _ s', stp none (callback_event s (mem s pm_mode)) s s').
Proof.
  unfold run_callback, callback_event. wsteps. destruct (_ =? 0); cbn; wsteps; [apply stp_refl|apply stp_log].
Qed.

Definition go_locs (l : loc) : bool :=
  plic_locs 0 l || reset_locs l || save_locs l || gpio_locs l || lowpower_locs l || rram_locs l || count_locs l
  || match l with rtc32k => true | _ => false end.

Definition voltage (s : pm) : Z := if negb (Z.land (mem s rram_feature) PM_FEATURE_AON_VOLTAGE_CTRL =? 0) then qLR_0V7 else qLR_0V8.

(** What [pm_go] has done when the chip falls asleep. *)
Record gone (s s0 : pm) : Prop := {
  gone_only : only go_locs s s0;
  gone_now : now s0 = now (pass (pass s));
  gone_offset : offset s0 = offset s;
  gone_delays : delays s0 = delays (pass (pass s));
  gone_events : events s0 = events s ++ callback_event s (mem s pm_mode) ++ [EAonVoltage (voltage s)] ++ pmu_events s
    ++ [if feat (mem s pm_mode) PM_FEAT_CORE_PG then ELowpowerStart else EWfi];
  gone_plic0 : mem s0 (plic_en 0 0) = mem s (PLIC_INT_ENABLE 0 0);
  gone_plic1 : mem s0 (plic_en 1 0) = mem s (PLIC_INT_ENABLE 1 0);
  gone_gpio o : o ∈ gpio_regs → mem s0 (gpio_saved o) = mem s (GPIO o);
  gone_mtime : mem s0 mtime = clock (pass (pass s));
  gone_rtc : mem s0 rtc = rtc_count (now (pass s));
  gone_mtimecmp : mem s0 mtimecmp = mem s MTIMECMP;
  gone_rtc32k : mem s0 rtc32k = rtc_reg (now s0);
  gone_ratio : mem s0 ratio = ratio_of s;
  gone_base : base_ok s0;
  gone_alarm : mem s0 RTC_ALARM = rtc_add (rtc_count (now s0))
    ((mem s ttime - clock (pass (pass s))) / XTALTIME * RTCTIME / ratio_of s);
  gone_count : mem s0 hib_limit_cnt =
    if (mem s pm_mode =? PM_MODE_HIBERNATION) && (mem s hib_limit_cnt <? mem s hib_max_cnt)
    then u32 (mem s hib_limit_cnt + 1) else mem s hib_limit_cnt;
}.

(** The state in which the chip can go to sleep. *)
Record ready (s : pm) : Prop := {
  ready_mode : 2 ≤ mem s pm_mode ≤ 6;
  ready_time : u64 (clock (pass s) + pm_usec_to_mtime 1000) ≤ mem s ttime;
  ready_target : 0 ≤ mem s ttime - clock (pass (pass s)) ≤ PM_MAX_LOWPOWER_MTIME_DURATION;
  ready_ratio : MIN_RATIO ≤ ratio_of s;
  ready_src : Z.testbit (mem s wakeup_src) 1 = true;
  ready_base : mem s rram_rtc_value = 0 ∧ mem s rram_mtime_value = 0;
}.

Lemma feat_timer m : 2 ≤ m ≤ 6 → feat m PM_FEAT_TIMER_OFF = true.
Proof. intros. assert (m = 2 ∨ m = 3 ∨ m = 4 ∨ m = 5 ∨ m = 6) as Hm by lia. by destruct Hm as [-> |[-> |[-> |[-> | -> ] ] ] ]. Qed.

(** The part that saves the time and the pins. *)
Lemma timer_off_run s : wp (pm_suspend_h0;; pm_save_time;; pm_save_gpio) s (λ _ s',
  stp (λ l, reset_locs l || save_locs l || gpio_locs l) [] (pass s) s' ∧
  mem s' rtc = rtc_count (now s) ∧ mem s' mtime = clock (pass s) ∧ mem s' mtimecmp = mem s MTIMECMP ∧
  ∀ o, o ∈ gpio_regs → mem s' (gpio_saved o) = mem s (GPIO o)).
Proof.
  wstep. eapply wp_mono; [apply suspend_h0_run|]. intros [] s1 S1. wstep.
  eapply wp_mono; [apply save_time_run|]. intros [] s2 (S2&T1&T2&T3).
  eapply wp_mono; [apply save_gpio_run|]. intros [] s3 (S3&G3).
  pose proof (pass_stp _ _ _ _ S1) as P1.
  rewrite !(stp_only _ _ _ _ S3 rtc), !(stp_only _ _ _ _ S3 mtime), !(stp_only _ _ _ _ S3 mtimecmp) by done.
  split; [|split; [|split; [|split]]].
  - apply (stp_trans _ [] [] _ (pass s1)); [eapply stp_weaken; [|exact P1]; intros l; by rewrite !orb_false_iff; intros [[]]|].
    apply (stp_trans _ [] [] _ s2); (eapply stp_weaken; [|eassumption]); intros l; rewrite !orb_false_iff; by intros [[]].
  - by rewrite T1, (stp_now _ _ _ _ S1).
  - by rewrite T2, (clock_stp _ _ _ _ P1).
  - by rewrite T3, (stp_only _ _ _ _ S1).
  - intros o Ho. rewrite G3 by done. rewrite (stp_only _ _ _ _ S2) by done. cbn. by rewrite (stp_only _ _ _ _ S1).
Qed.

(** Weakening to the locations of the whole. *)
Ltac wide := eapply stp_weaken; [|eassumption]; intros l; unfold go_locs; rewrite ?orb_false_iff; tauto.

(** Up to the point where the voltage is lowered. *)
Lemma go_first_run s (k : M pm unit) Q : ready s →
  (∀ s4, stp go_locs (callback_event s (mem s pm_mode) ++ [EAonVoltage (voltage s)]) (pass s) s4 →
    only (plic_locs 0) s s4 →
    mem s4 (plic_en 0 0) = mem s (PLIC_INT_ENABLE 0 0) → mem s4 (plic_en 1 0) = mem s (PLIC_INT_ENABLE 1 0) → wp k s4 Q) →
  wp (pm_save_plic_h0;; run_callback;; t ← ld ttime; now ← prvReadMtime;
      c_assert (negb (t <? u64 (now + pm_usec_to_mtime 1000)));;
      f ← ld rram_feature;
      emit (EAonVoltage (if negb (Z.land f PM_FEATURE_AON_VOLTAGE_CTRL =? 0) then qLR_0V7 else qLR_0V8));; k) s Q.
Proof.
  intros Hr Hk. wstep. eapply wp_mono; [apply save_plic_run|]. intros [] s1 (S1&P0&P1). wstep.
  eapply wp_mono; [apply run_callback_run|]. intros [] s2 S2. unfold callback_event in S2.
  rewrite !(stp_only _ _ _ _ S1) in S2 by done. fold (callback_event s (mem s pm_mode)) in S2.
  assert (stp go_locs (callback_event s (mem s pm_mode)) s s2) as S12.
  { apply (stp_trans _ [] _ _ s1); [wide|]. eapply stp_weaken; [|exact S2]. done. }
  wsteps. rewrite (clock_stp _ _ _ _ (pass_stp _ _ _ _ S12)).
  apply wp_assert.
  { rewrite (stp_only _ _ _ _ S12) by done. apply negb_true_iff, Z.ltb_ge, Hr. }
  wsteps. rewrite mem_pass, (stp_only _ _ _ _ S12 rram_feature) by done. fold (voltage s).
  apply Hk.
  - apply stp_log_r. by apply pass_stp.
  - intros l Hl. look. rewrite (stp_only _ _ _ _ S2) by done. by apply S1.
  - look. by rewrite (stp_only _ _ _ _ S2).
  - look. by rewrite (stp_only _ _ _ _ S2).
Qed.

(** The last part: into the watcher, or just waiting. *)
Lemma go_last_run n s : 2 ≤ mem s pm_mode ≤ 6 → base_ok s →
  wp (if feat (mem s pm_mode) PM_FEAT_CORE_PG then
        pm_update_rram;;
        (if mem s pm_mode =? PM_MODE_HIBERNATION then
           cnt ← ld hib_limit_cnt; mx ← ld hib_max_cnt;
           if cnt <? mx then st hib_limit_cnt (u32 (cnt + 1)) else mret ()
         else mret ());;
        st (RESET_VECTOR 1) RRAM_FW_ADDR;; st (RESET_VECTOR 0) RRAM_FW_ADDR;; st CORE_RESET_CTRL 1;;
        emit ELowpowerStart;; take_nap n
      else pm_wfi n) s (λ _ s', ∃ s0, s' = asleep n s0 ∧ base_ok s0 ∧
    stp (λ l, reset_locs l || rram_locs l || count_locs l)
      [if feat (mem s pm_mode) PM_FEAT_CORE_PG then ELowpowerStart else EWfi] s s0 ∧
    mem s0 hib_limit_cnt = (if (mem s pm_mode =? PM_MODE_HIBERNATION) && (mem s hib_limit_cnt <? mem s hib_max_cnt)
      then u32 (mem s hib_limit_cnt + 1) else mem s hib_limit_cnt)).
Proof.
  intros Hm HB. destruct (feat (mem s pm_mode) PM_FEAT_CORE_PG) eqn:Ef.
  - wstep. eapply wp_mono; [by apply update_rram_run|]. intros [] s1 [S1 B1]. wstep.
    assert (wp (if mem s pm_mode =? PM_MODE_HIBERNATION then
           cnt ← ld hib_limit_cnt; mx ← ld hib_max_cnt;
           if cnt <? mx then st hib_limit_cnt (u32 (cnt + 1)) else mret ()
         else mret ()) s1 (λ _ s2, stp count_locs [] s1 s2 ∧ mem s2 hib_limit_cnt =
           (if (mem s pm_mode =? PM_MODE_HIBERNATION) && (mem s hib_limit_cnt <? mem s hib_max_cnt)
            then u32 (mem s hib_limit_cnt + 1) else mem s hib_limit_cnt))) as Hc.
    { destruct (mem s pm_mode =? PM_MODE_HIBERNATION); wsteps; rewrite ?(stp_only _ _ _ _ S1 hib_limit_cnt), ?(stp_only _ _ _ _ S1 hib_max_cnt) by done.
      - cbn [andb]. destruct (_ <? _); wsteps; look; (split; [by stp|]); [done|]. by rewrite (stp_only _ _ _ _ S1).
      - split; [by stp|done]. }
    eapply wp_mono; [exact Hc|]. intros [] s2 [S2 C2]. wsteps. eexists. split; [reflexivity|]. split; [|split].
    + destruct B1 as [B1 B2]. split; look; by rewrite !(stp_only _ _ _ _ S2) by done.
    + apply (stp_log_r _ []). repeat (apply stp_upd_r; [done|]). apply (stp_trans _ [] [] _ s1);
        (eapply stp_weaken; [|eassumption]); intros l; rewrite !orb_false_iff; tauto.
    + by look.
  - unfold pm_wfi. wsteps. eexists. split; [reflexivity|]. split; [done|]. split; [apply stp_log|].
    assert ((mem s pm_mode =? PM_MODE_HIBERNATION) = false) as ->; [|done]. apply Z.eqb_neq. intros Hm6. by rewrite Hm6 in Ef.
Qed.

Lemma go_run n s : ready s → wp (pm_go n) s (λ _ s', ∃ s0, s' = asleep n s0 ∧ gone s s0).
Proof.
  intros Hr. pose proof (feat_timer _ (ready_mode s Hr)) as Hft. unfold pm_go. apply go_first_run; [done|].
  intros s4 S4 O4 P0 P1. wstep. wstep. rewrite (O4 pm_mode eq_refl), Hft. wstep.
  eapply wp_mono; [apply timer_off_run|]. intros [] s5 (S5&T1&T2&T3&G5).
  pose proof (pass_stp _ _ _ _ S4) as PS4. rewrite (clock_stp _ _ _ _ PS4) in T2. rewrite (stp_now _ _ _ _ S4) in T1.
  assert (stp go_locs (callback_event s (mem s pm_mode) ++ [EAonVoltage (voltage s)]) (pass (pass s)) s5) as S.
  { rewrite <- (app_nil_r [EAonVoltage _]), app_assoc. eapply stp_trans; [exact PS4|]. wide. }
  assert (∀ l, plic_locs 0 l || reset_locs l || save_locs l || gpio_locs l = false → mem s5 l = mem s l) as K.
  { intros l. rewrite !orb_false_iff. intros [[[L1 L2] L3] L4]. rewrite (stp_only _ _ _ _ S5) by (by rewrite L2, L3, L4). by apply O4. }
  assert (ratio_of s5 = ratio_of s) as HR by (unfold ratio_of; by rewrite !K by done).
  assert (pmu_events s5 = pmu_events s) as HE by (unfold pmu_events; by rewrite !K by done).
  wstep. eapply wp_mono; [apply prepare_lowpower_run|].
  { rewrite K by done. apply Hr. }
  { rewrite HR. apply Hr. }
  { rewrite K, T2 by done. apply Hr. }
  intros [] s6 (S6&R6&A6). rewrite HE in S6. rewrite HR in R6, A6. rewrite (K ttime), T2, (stp_now _ _ _ _ S) in A6 by done.
  wstep. wstep. wstep. wstep. set (s7 := upd s6 rtc32k _).
  assert (mem s7 pm_mode = mem s pm_mode) as M7. { subst s7. look. rewrite (stp_only _ _ _ _ S6), K by done. done. }
  rewrite <- M7. eapply wp_mono; [apply go_last_run|].
  { rewrite M7. apply Hr. }
  { destruct (ready_base s Hr) as [B1 B2]. subst s7. split; look; rewrite !(stp_only _ _ _ _ S6), !K by done; by left. }
  intros [] s8 (s0&->&B8&S8&C8). exists s0. split; [done|]. rewrite M7 in S8, C8.
  assert (∀ l, reset_locs l || rram_locs l || count_locs l = false → l ≠ rtc32k → mem s0 l = mem s6 l) as K6.
  { intros l Hl Hne. rewrite (stp_only _ _ _ _ S8) by done. subst s7. by look. }
  assert (∀ l, reset_locs l || rram_locs l || count_locs l = false → lowpower_locs l = false → l ≠ rtc32k →
    mem s0 l = mem s5 l) as K5.
  { intros l Hl Hl' Hne. rewrite K6 by done. by apply S6. }
  assert (stp go_locs ((callback_event s (mem s pm_mode) ++ [EAonVoltage (voltage s)]) ++ pmu_events s
    ++ [if feat (mem s pm_mode) PM_FEAT_CORE_PG then ELowpowerStart else EWfi]) (pass (pass s)) s0) as [F1 F2 F3 F4 F5].
  { eapply stp_trans; [exact S|]. apply (stp_trans _ _ _ _ s7); [|wide]. apply stp_upd_r; [done|]. wide. }
  split; try done; try (by rewrite K5 by done).
  - by rewrite F5, <- app_assoc.
  - rewrite K5, (stp_only _ _ _ _ S5) by done. exact P0.
  - rewrite K5, (stp_only _ _ _ _ S5) by done. exact P1.
  - intros o Ho. rewrite K5, G5 by done. by apply O4.
  - rewrite K5, T3 by done. by apply O4.
  - rewrite (stp_only _ _ _ _ S8) by done. subst s7. look. by rewrite (stp_now _ _ _ _ S8).
  - by rewrite K6.
  - rewrite K6, F2 by done. exact A6.
  - rewrite C8. subst s7. look. by rewrite !(stp_only _ _ _ _ S6), !K by done.
Qed.

(** ** The parts of waking up *)

(** The time asleep in microseconds, as the RTC has it. *)
Definition slept_usec (s : pm) : Z :=
  u32 (u64 (RTC_ELAPSED (mem s rtc) (rtc_count (now s)) * mem s ratio) / RTCTIME).

(** The machine timer just after it has been set. *)
Definition restored (s : pm) : Z := u64 (mem s mtime + pm_usec_to_mtime (slept_usec s)).

Definition time_locs (l : loc) : bool := match l with MTIMECMP | hib_save_time | hib_min_time => true | _ => false end.

Lemma restore_time_run s : base_ok s → mem s rtc32k ≠ rtc_reg (now s) →
  wp pm_restore_time s (λ _ s', only time_locs s s' ∧ mem s' MTIMECMP = mem s mtimecmp ∧
    now s' = now s + next_delay s ∧ offset s' = restored s - now s ∧ delays s' = tail (delays s) ∧ events s' = events s).
Proof.
  intros [B1 B2] Hn. unfold pm_restore_time, pm_restore_mtime, pm_rtc_time_elapsed, pm_rtc_to_usec. wsteps.
  rewrite (proj2 (Z.eqb_neq _ _)) by done. wsteps.
  assert ((if negb (mem s rram_rtc_value =? 0) then mem s rram_rtc_value else mem s rtc) = mem s rtc) as ->.
  { destruct (Z.eqb_spec (mem s rram_rtc_value) 0); cbn; [done|]. by destruct B1. }
  assert ((if negb (mem s rram_mtime_value =? 0) then mem s rram_mtime_value else mem s mtime) = mem s mtime) as ->.
  { destruct (Z.eqb_spec (mem s rram_mtime_value) 0); cbn; [done|]. by destruct B2. }
  fold (slept_usec s). fold (restored s). unfold wp at 1. cbn [prvWriteMtime modify].
  set (s1 := Pm (mem s) (now s) (restored s - now s) (delays s) (events s)).
  unfold prvWriteMtimecmp, pm_update_hib_prep_time. wsteps. apply wp_if; intros Hb; wsteps; look;
    (split; [intros l Hl; destruct l; try done; by look|]); done.
Qed.

Lemma rtc_cal_run c r s : scm2010_systimer_calc_ratio c = Some r → wp (systimer_rtc_cal c) s (λ _ s',
  stp (λ l, match l with rram_act_ratio | SYS_TIMER_RATIO => true | _ => false end) [ESnap; ESnap] s s').
Proof.
  intros Hc. unfold systimer_rtc_cal, scm2010_systimer_rtc_cal. wsteps. rewrite Hc. unfold wp at 1. cbn [lift_opt]. wsteps.
  repeat (apply stp_upd_r; [done|]). apply (stp_log_r _ [_]), stp_log.
Qed.

Definition stats_locs (l : loc) : bool := match l with wakeup_evt | wakeup_reason | wakeup_type => true | _ => false end.

Lemma update_stats_run s : wp pm_update_stats s (λ _ s', stp stats_locs [] s s' ∧
  (feat (mem s pm_mode) PM_FEAT_CORE_PG = true → mem s' wakeup_evt = u16 (mem s rram_wk_evt) ∧
    mem s' wakeup_reason = mem s rram_wk_fb_reason ∧ mem s' wakeup_type = mem s rram_wk_fb_type)).
Proof. unfold pm_update_stats. wsteps. apply wp_if; intros Hb; wsteps; look; (split; [by stp|]); [done|congruence]. Qed.

Definition active_locs (l : loc) : bool := match l with UART_CFG _ | AON_MEMEMA | LOWPOWER_CTRL | PMU_IRQ => true | _ => false end.

Definition active_ctrl (v : Z) : Z :=
  Z.lor (clear_bits (Z.lor CHIP_SLEEP_EN CHIP_IDLE_EN) (clear_bits WAKEUP_SRC_ALL v)) WAKEUP_EVENT_CLR.

Lemma prepare_active_run s : wp pm_prepare_active s (λ _ s', stp active_locs [] s s' ∧
  mem s' LOWPOWER_CTRL = active_ctrl (mem s LOWPOWER_CTRL) ∧ mem s' PMU_IRQ = 1).
Proof. unfold pm_prepare_active. wsteps. look. split; [by stp|done]. Qed.

Lemma clear_rram_run s : wp pm_clear_rram s (λ _ s', stp (λ l, bool_decide (l ∈ rram_cleared)) [] s s' ∧
  ∀ l, l ∈ rram_cleared → mem s' l = 0).
Proof.
  unfold wp. cbn [pm_clear_rram modify]. split.
  - split; try done; [|by cbn; rewrite app_nil_r]. intros l Hl%bool_decide_eq_false. cbn [mem]. revert Hl.
    generalize (mem s). induction rram_cleared as [|k L IH]; intros f Hl; [done|]. cbn [fold_left].
    rewrite IH by (intros ?; apply Hl; by right). apply fn_lookup_insert_ne. intros ->. apply Hl. by left.
  - intros l Hl. cbn [mem]. unfold rram_cleared in Hl.
    repeat (apply elem_of_cons in Hl as [-> | Hl]; [reflexivity|]). by apply not_elem_of_nil in Hl.
Qed.

Definition is_plic (h : Z) (l : loc) : bool := match l with PLIC_INT_ENABLE _ h' => h' =? h | _ => false end.

Definition post_locs (l : loc) : bool :=
  is_plic 0 l || is_plic 1 l || stats_locs l || time_locs l || reset_locs l || active_locs l || is_pm_mode l
  || bool_decide (l ∈ rram_cleared)
  || match l with GPIO _ | rram_act_ratio | SYS_TIMER_RATIO => true | _ => false end.

Definition early_events (m : Z) (devs : list device) : list event :=
  (if feat m PM_FEAT_SYS_CG then [ESystimerLoad] else []) ++ [EAonVoltage iLR_0V8] ++
  (if feat m PM_FEAT_SYS_PG then EClocks :: driver_calls EResume has_resume 0 devs else []).

(** Up to the point where the time is set. *)
Lemma post_first_run devs s (k : M pm unit) Q :
  let m := mem s pm_mode in
  (∀ s1, stp (λ l, stats_locs l || is_plic 1 l) (early_events m devs) s s1 →
    (∀ i, i = 0 ∨ i = 1 → mem s1 (PLIC_INT_ENABLE i 1) =
      if feat m PM_FEAT_SYS_PG then mem s (plic_en i 1) else mem s (PLIC_INT_ENABLE i 1)) →
    (feat m PM_FEAT_CORE_PG = true → mem s1 wakeup_evt = u16 (mem s rram_wk_evt) ∧
      mem s1 wakeup_reason = mem s rram_wk_fb_reason ∧ mem s1 wakeup_type = mem s rram_wk_fb_type) → wp k s1 Q) →
  wp ((if feat m PM_FEAT_SYS_CG then emit ESystimerLoad else mret ());;
      emit (EAonVoltage iLR_0V8);; pm_update_stats;;
      (if feat m PM_FEAT_SYS_PG then emit EClocks;; pm_resume_device devs;; pm_restore_plic_h1 else mret ());; k) s Q.
Proof.
  cbv zeta. set (m := mem s pm_mode). intros Hk. wstep.
  assert (wp (if feat m PM_FEAT_SYS_CG then emit ESystimerLoad else mret ()) s (λ _ s',
    stp none (if feat m PM_FEAT_SYS_CG then [ESystimerLoad] else []) s s')) as H1.
  { destruct (feat m PM_FEAT_SYS_CG); wsteps; [apply stp_log|apply stp_refl]. }
  eapply wp_mono; [exact H1|]. intros [] s1 S1. wsteps. eapply wp_mono; [apply update_stats_run|]. intros [] s2 [S2 F2].
  rewrite mem_log, !(stp_only _ _ _ _ S1) in F2 by done. fold m in F2.
  assert (stp (λ l, stats_locs l || is_plic 1 l) ((if feat m PM_FEAT_SYS_CG then [ESystimerLoad] else []) ++ [EAonVoltage iLR_0V8]) s s2) as S12.
  { eapply stp_trans; [by eapply stp_weaken; [|exact S1]|]. apply (stp_trans _ [_] [] _ (log s1 (EAonVoltage iLR_0V8))); [apply stp_log|].
    eapply stp_weaken; [|exact S2]. intros l Hl. by apply orb_false_iff in Hl as []. }
  wstep. destruct (feat m PM_FEAT_SYS_PG) eqn:Ep; wsteps.
  - eapply wp_mono; [apply resume_from_run|]. intros [] s3 S3. eapply wp_mono; [apply restore_plic_run|]. intros [] s4 (S4&P0&P1).
    apply Hk.
    + unfold early_events. rewrite Ep, app_assoc. eapply stp_trans; [exact S12|].
      apply (stp_trans _ [_] _ _ (log s2 EClocks)); [apply stp_log|]. rewrite <- (app_nil_r (driver_calls _ _ _ _)).
      eapply stp_trans; (eapply stp_weaken; [|eassumption]); [done|]. intros l Hl. by apply orb_false_iff in Hl as [].
    + intros i Hi. assert (mem s4 (PLIC_INT_ENABLE i 1) = mem s3 (plic_en i 1)) as -> by (by destruct Hi as [-> | ->]).
      rewrite (stp_only _ _ _ _ S3) by done. rewrite mem_log. by apply S12.
    + intros Hc. rewrite !(stp_only _ _ _ _ S4), !(stp_only _ _ _ _ S3) by done. by apply F2.
  - apply Hk; [|intros i Hi|done].
    + unfold early_events. rewrite Ep, !app_nil_r. exact S12.
    + rewrite (stp_only _ _ _ _ S2) by done. rewrite mem_log. by apply S1.
Qed.

Definition gpio_cal_locs (l : loc) : bool :=
  reset_locs l || match l with GPIO _ | rram_act_ratio | SYS_TIMER_RATIO => true | _ => false end.

Lemma post_gpio_run c r s : scm2010_systimer_calc_ratio c = Some r →
  wp (systimer_rtc_cal c;; pm_resume_h0;; pm_restore_gpio) s (λ _ s', stp gpio_cal_locs [ESnap; ESnap] s s' ∧
    ∀ o, o ∈ gpio_regs → mem s' (GPIO o) = mem s (gpio_saved o)).
Proof.
  intros Hc. wstep. eapply wp_mono; [by eapply rtc_cal_run|]. intros [] s1 S1. wstep.
  eapply wp_mono; [apply suspend_h0_run|]. intros [] s2 S2. eapply wp_mono; [apply restore_gpio_run|]. intros [] s3 [S3 G3]. split.
  - apply (stp_trans _ [_; _] [] _ s1); [|apply (stp_trans _ [] [] _ s2)];
      (eapply stp_weaken; [|eassumption]); unfold gpio_cal_locs; by intros [].
  - intros o Ho. rewrite G3 by done. by rewrite (stp_only _ _ _ _ S2), (stp_only _ _ _ _ S1) by done.
Qed.

Definition final_locs (l : loc) : bool :=
  is_plic 0 l || active_locs l || is_pm_mode l || bool_decide (l ∈ rram_cleared).

Definition final_events (m : Z) (s : pm) : list event :=
  (if feat m PM_FEAT_CORE_PG then [ESystimerRestart (Z.land (mem s rram_exec_watcher) RRAM_WATCHER_EXEC)] else []) ++
  callback_event s PM_MODE_ACTIVE.

Lemma post_final_run m s :
  wp ((if feat m PM_FEAT_CORE_PG then
         e ← ld rram_exec_watcher; emit (ESystimerRestart (Z.land e RRAM_WATCHER_EXEC))
       else mret ());;
      pm_restore_plic_h0;; pm_prepare_active;; st pm_mode PM_MODE_ACTIVE;; run_callback;; pm_clear_rram) s (λ _ s',
    stp final_locs (final_events m s) s s' ∧ mem s' pm_mode = PM_MODE_ACTIVE ∧
    (∀ i, i = 0 ∨ i = 1 → mem s' (PLIC_INT_ENABLE i 0) = mem s (plic_en i 0)) ∧
    mem s' LOWPOWER_CTRL = active_ctrl (mem s LOWPOWER_CTRL) ∧ (∀ l, l ∈ rram_cleared → mem s' l = 0)).
Proof.
  wstep.
  assert (wp (if feat m PM_FEAT_CORE_PG then
         e ← ld rram_exec_watcher; emit (ESystimerRestart (Z.land e RRAM_WATCHER_EXEC))
       else mret ()) s (λ _ s', stp none (if feat m PM_FEAT_CORE_PG
         then [ESystimerRestart (Z.land (mem s rram_exec_watcher) RRAM_WATCHER_EXEC)] else []) s s')) as H1.
  { destruct (feat m PM_FEAT_CORE_PG); wsteps; [apply stp_log|apply stp_refl]. }
  eapply wp_mono; [exact H1|]. intros [] s1 S1. wstep. eapply wp_mono; [apply restore_plic_run|]. intros [] s2 (S2&P0&P1). wstep.
  eapply wp_mono; [apply prepare_active_run|]. intros [] s3 (S3&A3&_). wsteps.
  eapply wp_mono; [apply run_callback_run|]. intros [] s4 S4. eapply wp_mono; [apply clear_rram_run|]. intros [] s5 [S5 C5].
  assert (callback_event (upd s3 pm_mode PM_MODE_ACTIVE) (mem (upd s3 pm_mode PM_MODE_ACTIVE) pm_mode)
    = callback_event s PM_MODE_ACTIVE) as Hcb.
  { unfold callback_event. look. by rewrite (stp_only _ _ _ _ S3), (stp_only _ _ _ _ S2), (stp_only _ _ _ _ S1) by done. }
  rewrite Hcb in S4.
  assert (∀ l, l ∉ rram_cleared → l ≠ pm_mode → mem s5 l = mem s3 l) as K.
  { intros l Hl Hne. rewrite (stp_only _ _ _ _ S5) by (by apply bool_decide_eq_false). rewrite (stp_only _ _ _ _ S4) by done. by look. }
  assert (∀ l, bool_decide (l ∈ rram_cleared) = false → l ∉ rram_cleared) as Hn by (intros l; apply bool_decide_eq_false).
  split; [|split; [|split; [|split]]]; [| | | |exact C5].
  - unfold final_events. apply (stp_trans _ _ (callback_event s PM_MODE_ACTIVE) _ s1); [by eapply stp_weaken; [|exact S1]|].
    apply (stp_trans _ [] (callback_event s PM_MODE_ACTIVE) _ s2);
      [eapply stp_weaken; [|exact S2]; unfold final_locs; intros l; rewrite !orb_false_iff; unfold is_plic; tauto|].
    apply (stp_trans _ [] (callback_event s PM_MODE_ACTIVE) _ s3); [eapply stp_weaken; [|exact S3]; unfold final_locs; intros l; rewrite !orb_false_iff; tauto|].
    apply (stp_trans _ [] (callback_event s PM_MODE_ACTIVE) _ (upd s3 pm_mode PM_MODE_ACTIVE)); [by apply stp_upd|]. rewrite <- (app_nil_r (callback_event _ _)).
    eapply stp_trans; (eapply stp_weaken; [|eassumption]); [done|]. unfold final_locs. intros l. rewrite !orb_false_iff. tauto.
  - rewrite (stp_only _ _ _ _ S5) by done. rewrite (stp_only _ _ _ _ S4) by done. by look.
  - intros i Hi. rewrite K by (done || (destruct Hi as [-> | ->]; by apply Hn)). rewrite (stp_only _ _ _ _ S3) by done.
    rewrite <- (stp_only _ _ _ _ S1 (plic_en i 0)) by done. by destruct Hi as [-> | ->].
  - rewrite K, A3 by (done || by apply Hn). by rewrite (stp_only _ _ _ _ S2), (stp_only _ _ _ _ S1) by done.
Qed.

(** What [pm_post_sleep_processing] has done. *)
Record woke (devs : list device) (s s' : pm) : Prop := {
  woke_only : only post_locs s s';
  woke_mode : mem s' pm_mode = PM_MODE_ACTIVE;
  woke_plic0 i : i = 0 ∨ i = 1 → mem s' (PLIC_INT_ENABLE i 0) = mem s (plic_en i 0);
  woke_plic1 i : i = 0 ∨ i = 1 → mem s' (PLIC_INT_ENABLE i 1) =
    if feat (mem s pm_mode) PM_FEAT_SYS_PG then mem s (plic_en i 1) else mem s (PLIC_INT_ENABLE i 1);
  woke_gpio o : o ∈ gpio_regs → mem s' (GPIO o) = mem s (gpio_saved o);
  woke_mtimecmp : mem s' MTIMECMP = mem s mtimecmp;
  woke_offset : offset s' = restored s - now s;
  woke_now : now s' = now s + next_delay s;
  woke_events : events s' = events s ++ early_events (mem s pm_mode) devs ++ [ESnap; ESnap] ++ final_events (mem s pm_mode) s;
  woke_ctrl : mem s' LOWPOWER_CTRL = active_ctrl (mem s LOWPOWER_CTRL);
  woke_rram l : l ∈ rram_cleared → mem s' l = 0;
  woke_stats : feat (mem s pm_mode) PM_FEAT_CORE_PG = true → mem s' wakeup_evt = u16 (mem s rram_wk_evt) ∧
    mem s' wakeup_reason = mem s rram_wk_fb_reason ∧ mem s' wakeup_type = mem s rram_wk_fb_type;
}.

Lemma post_run devs c r s : 2 ≤ mem s pm_mode ≤ 6 → base_ok s → mem s rtc32k ≠ rtc_reg (now s) → scm2010_systimer_calc_ratio c = Some r →
  wp (pm_post_sleep_processing devs c) s (λ _ s', woke devs s s').
Proof.
  intros Hm HB Hn Hc. unfold pm_post_sleep_processing. wstep. wstep.
  rewrite (proj2 (Z.eqb_neq _ _)) by (unfold PM_MODE_ACTIVE; lia). apply post_first_run. intros s1 S1 P1 F1.
  rewrite (feat_timer _ Hm). wstep. wstep.
  assert (only (λ l, stats_locs l || is_plic 1 l) s s1) as O1 by apply S1.
  assert (next_delay s1 = next_delay s) as D1 by (unfold next_delay; by rewrite (stp_delays _ _ _ _ S1)).
  eapply wp_mono; [apply restore_time_run|].
  { destruct HB as [B1 B2]. split; by rewrite !O1 by done. }
  { by rewrite O1, (stp_now _ _ _ _ S1) by done. }
  intros [] s2 (O2&M2&N2&F2&D2&E2). unfold restored, slept_usec in F2. rewrite !O1, (stp_now _ _ _ _ S1) in F2 by done.
  fold (slept_usec s) in F2. fold (restored s) in F2. rewrite (stp_now _ _ _ _ S1), D1 in N2.
  eapply wp_mono; [by eapply post_gpio_run|]. intros [] s3 [S3 G3].
  assert (only gpio_cal_locs s2 s3) as O3 by apply S3.
  eapply wp_mono; [apply post_final_run|]. intros [] s4 (S4&M4&P4&A4&C4).
  assert (only final_locs s3 s4) as O4 by apply S4.
  assert (final_events (mem s pm_mode) s3 = final_events (mem s pm_mode) s) as HE.
  { unfold final_events, callback_event. by rewrite !O3, !O2, !O1 by done. }
  split; try done.
  - intros l. unfold post_locs. rewrite !orb_false_iff. intros [[[[[[[[L1 L2] L3] L4] L5] L6] L7] L8] L9].
    rewrite O4, O3, O2, O1; try done; unfold final_locs, gpio_cal_locs; rewrite ?L1, ?L2, ?L3, ?L5, ?L6, ?L7, ?L8; done.
  - intros i Hi. rewrite P4 by done. by rewrite O3, O2, O1 by done.
  - intros i Hi. rewrite O4, O3, O2 by (by destruct Hi as [-> | ->]). by apply P1.
  - intros o Ho. rewrite O4 by done. rewrite G3 by done. by rewrite O2, O1 by done.
  - rewrite O4, O3, M2 by done. by apply O1.
  - by rewrite (stp_offset _ _ _ _ S4), (stp_offset _ _ _ _ S3).
  - by rewrite (stp_now _ _ _ _ S4), (stp_now _ _ _ _ S3).
  - by rewrite (stp_events _ _ _ _ S4), (stp_events _ _ _ _ S3), E2, (stp_events _ _ _ _ S1), HE, <- !app_assoc.
  - rewrite A4. by rewrite O3, O2, O1 by done.
  - intros Hf. destruct (F1 Hf) as (<-&<-&<-). by rewrite !O4, !O3, !O2 by done.
Qed.
End Parts.
