(* ===== verification/PmCycle.v ===== *)
(** * The power manager: the cycle of sleeping and waking up

    A sleep gives back what it has taken; how the time is carried over; how
    often the chip may hibernate. *)

From stdpp Require Import base tactics numbers list gmap functions.
From S2P Require Import Prelude Systimer Pm PmTheorems PmSleep.

(** A shift by less than the modulus changes the residue. *)
Lemma residue_shift a d m : 0 < m → 0 < d < m → (a - d) mod m = a mod m → False.
Proof.
  intros Hm Hd E. assert ((a - (a - d)) mod m = 0) as Z0 by (rewrite Zminus_mod, E, Z.sub_diag; by apply Z.mod_0_l; lia).
  replace (a - (a - d)) with d in Z0 by lia. rewrite Z.mod_small in Z0; lia.
Qed.

Section Cycle.
Context `{!PmConfig, !RtcHw}.
Context (xtal : 10 ≤ XTALTIME ≤ 1000).

(** What a sleep in mode [m] of [devs] between [s] and [s'] comes to. *)
Record transparent (m : Z) (devs : list device) (n : nap) (s s' : pm) : Prop := {
  tr_mode : mem s' pm_mode = PM_MODE_ACTIVE;
  tr_plic i h : i = 0 ∨ i = 1 → h = 0 ∨ h = 1 → mem s' (PLIC_INT_ENABLE i h) = mem s (PLIC_INT_ENABLE i h);
  tr_gpio o : o ∈ gpio_regs → mem s' (GPIO o) = mem s (GPIO o);
  tr_mtimecmp : mem s' MTIMECMP = mem s MTIMECMP;
  tr_settings l : match l with
    | power_down | pm_mode_enabled | callback | wakeup_src | gpio_enabled | stay_active | stay_active_mtime
    | hib_max_cnt | hib_limit_clr | pm_pmu_mode _ _ | rram_ratio | rram_feature => True
    | _ => False
    end → mem s' l = mem s l;
  tr_count : mem s' hib_limit_cnt = if (m =? PM_MODE_HIBERNATION) && (mem s hib_limit_cnt <? mem s hib_max_cnt)
    then u32 (mem s hib_limit_cnt + 1) else mem s hib_limit_cnt;
  tr_rram l : l ∈ rram_cleared → mem s' l = 0;
  tr_lowpower i : 0 ≤ i ≤ 10 ∨ i = 13 ∨ i = 14 → Z.testbit (mem s' LOWPOWER_CTRL) i = false;
  (** the timer goes on from where it stopped, by the time on the RTC in
      microseconds modulo 2^32 *)
  tr_clock : offset s' = u64 (clock (pass (pass s)) + pm_usec_to_mtime
      (u32 (u64 (RTC_ELAPSED (rtc_count (now (pass s))) (rtc_count (now (pass (pass s)) + slept n)) * ratio_of s) / RTCTIME)))
    - (now (pass (pass s)) + slept n);
  tr_events : ∃ x, events s' = events s ++
    (if feat m PM_FEAT_SYS_PG then driver_calls ESuspend has_suspend 0 devs else []) ++
    callback_event s m ++ [EAonVoltage (voltage s)] ++ pmu_events s ++
    [if feat m PM_FEAT_CORE_PG then ELowpowerStart else EWfi] ++
    (if feat m PM_FEAT_SYS_CG then [ESystimerLoad] else []) ++ [EAonVoltage iLR_0V8] ++
    (if feat m PM_FEAT_SYS_PG then EClocks :: driver_calls EResume has_resume 0 devs else []) ++
    [ESnap; ESnap] ++ (if feat m PM_FEAT_CORE_PG then [ESystimerRestart x] else []) ++ callback_event s PM_MODE_ACTIVE;
}.

(** Devices are suspended first where the system is powered off. *)
Lemma suspend_run devs s : Forall (λ d, 0 ≤ suspend_ret d) devs →
  wp (if feat (mem s pm_mode) PM_FEAT_SYS_PG then pm_save_plic_h1;; pm_suspend_device devs else mret 0) s (λ r s',
    r = 0 ∧ stp (plic_locs 1) (if feat (mem s pm_mode) PM_FEAT_SYS_PG then driver_calls ESuspend has_suspend 0 devs else []) s s' ∧
    (∀ i, i = 0 ∨ i = 1 → feat (mem s pm_mode) PM_FEAT_SYS_PG = true → mem s' (plic_en i 1) = mem s (PLIC_INT_ENABLE i 1)) ∧
    (feat (mem s pm_mode) PM_FEAT_SYS_PG = false → s' = s)).
Proof.
  intros Hd. destruct (feat (mem s pm_mode) PM_FEAT_SYS_PG).
  - wstep. eapply wp_mono; [apply save_plic_run|]. intros [] s1 (S1&P0&P1).
    eapply wp_mono; [by apply suspend_device_run|]. intros r s2 [-> S2]. split; [done|]. split; [|split; [|done]].
    + apply (stp_trans _ [] _ _ s1); [done|]. by eapply stp_weaken; [|exact S2].
    + intros i Hi _. rewrite (stp_only _ _ _ _ S2) by done. by destruct Hi as [-> | ->].
  - wsteps. split; [done|]. split; [apply stp_refl|]. by split.
Qed.

Lemma ready_stp es s s' : stp (plic_locs 1) es s s' → ready s → ready s'.
Proof.
  intros S [R1 R2 R3 R4 R5 [R6 R7]]. pose proof (pass_stp _ _ _ _ S) as S1. pose proof (pass_stp _ _ _ _ S1) as S2.
  unfold ratio_of in *.
  split; unfold ratio_of; rewrite ?(clock_stp _ _ _ _ S1), ?(clock_stp _ _ _ _ S2), ?(stp_only _ _ _ _ S) by done; done.
Qed.

Lemma active_ctrl_bits v i : 0 ≤ i ≤ 10 ∨ i = 13 ∨ i = 14 → Z.testbit (active_ctrl v) i = false.
Proof.
  intros Hi. unfold active_ctrl, clear_bits. rewrite Z.lor_spec, !Z.land_spec, !Z.lnot_spec by lia.
  assert (i = 0 ∨ i = 1 ∨ i = 2 ∨ i = 3 ∨ i = 4 ∨ i = 5 ∨ i = 6 ∨ i = 7 ∨ i = 8 ∨ i = 9 ∨ i = 10 ∨ i = 13 ∨ i = 14) as Hc by lia.
  repeat destruct Hc as [Hc|Hc]; subst i; by rewrite ?andb_false_r.
Qed.

(** The devices are suspended between [s] and [s1]. *)
Record suspended (devs : list device) (s s1 : pm) : Prop := {
  susp_stp : stp (plic_locs 1)
    (if feat (mem s pm_mode) PM_FEAT_SYS_PG then driver_calls ESuspend has_suspend 0 devs else []) s s1;
  susp_plic i : i = 0 ∨ i = 1 → feat (mem s pm_mode) PM_FEAT_SYS_PG = true →
    mem s1 (plic_en i 1) = mem s (PLIC_INT_ENABLE i 1);
  susp_none : feat (mem s pm_mode) PM_FEAT_SYS_PG = false → s1 = s;
}.

(** The three parts of a cycle. *)
Lemma cycle_run devs n c r s : ready s → Forall (λ d, 0 ≤ suspend_ret d) devs →
  nap_ok (mem s pm_mode) n → scm2010_systimer_calc_ratio c = Some r →
  rtc_reg (now (pass (pass s))) ≠ rtc_reg (now (pass (pass s)) + slept n) →
  wp (pm_sleep devs n;; pm_post_sleep_processing devs c) s (λ _ s', ∃ s1 s0,
    suspended devs s s1 ∧ gone s1 s0 ∧ woke devs (asleep n s0) s').
Proof.
  intros Hr Hd HN Hc Hrtc. unfold pm_sleep. wstep. wstep. wstep. wstep.
  eapply wp_mono; [by apply suspend_run|]. intros r0 s1 (->&S1&P1&Q1). cbn [negb Z.eqb].
  assert (mem s1 pm_mode = mem s pm_mode) as M1 by by apply S1.
  pose proof (pass_stp _ _ _ _ (pass_stp _ _ _ _ S1)) as PS.
  eapply wp_mono; [apply go_run; [done|by eapply ready_stp]|]. intros [] s2 (s0&->&G).
  assert (∀ l, lost (mem s pm_mode) l = false → mem (asleep n s0) l = mem s0 l) as K by (intros; by eapply asleep_kept).
  assert (now s0 = now (pass (pass s))) as HT by (by rewrite (gone_now _ _ G), (stp_now _ _ _ _ PS)).
  eapply wp_mono; [apply (post_run xtal devs c r); [..|done]|].
  - rewrite K, (gone_only _ _ G), M1 by done. apply Hr.
  - destruct (gone_base _ _ G) as [B1 B2]. split; by rewrite !K by done.
  - rewrite K, (gone_rtc32k _ _ G) by done. cbn [now asleep]. by rewrite HT.
  - intros [] s' W. exists s1, s0. by split.
Qed.

(** Sleeping is transparent.  Once a mode is decided on, its target time
    and the ratio of the oscillators are in range, no driver refuses and the RTC
    has moved on when the chip wakes up, then going to sleep and coming back
    succeeds, whatever registers and reports the sleep has changed.  Afterwards
    the power manager is active, the interrupt enables of both cores, the pins
    and the timer compare value are what they were, no setting has changed, the
    retention RAM and the low-power control are cleared, and the machine timer
    continues from where it stopped by the time that passed on the RTC.  The
    drivers that were suspended are resumed after the clocks, the application is
    told before and after, in this order. *)
Lemma pm_sleep_transparent devs n c r s : ready s → Forall (λ d, 0 ≤ suspend_ret d) devs →
  nap_ok (mem s pm_mode) n → scm2010_systimer_calc_ratio c = Some r →
  rtc_reg (now (pass (pass s))) ≠ rtc_reg (now (pass (pass s)) + slept n) →
  ∃ s', (pm_sleep devs n;; pm_post_sleep_processing devs c) s = Ret ((), s') ∧ transparent (mem s pm_mode) devs n s s'.
Proof.
  intros Hr Hd HN Hc Hrtc. destruct (wp_run _ _ _ (cycle_run devs n c r s Hr Hd HN Hc Hrtc)) as ([]&s'&E&s1&s0&S&G&W).
  exists s'. split; [done|]. clear E Hrtc Hc Hd. set (m := mem s pm_mode) in *. destruct S as [S1 P1 Q1].
  pose proof (pass_stp _ _ _ _ S1) as PS. pose proof (pass_stp _ _ _ _ PS) as PS2.
  assert (only (plic_locs 1) s s1) as O1 by apply S1. assert (mem s1 pm_mode = m) as M1 by by apply O1.
  assert (∀ l, lost m l = false → mem (asleep n s0) l = mem s0 l) as K0 by (intros; by eapply asleep_kept).
  assert (mem (asleep n s0) pm_mode = m) as M2 by (by rewrite K0, (gone_only _ _ G)).
  assert (∀ l, lost m l = false → go_locs l || post_locs l || plic_locs 1 l = false → mem s' l = mem s l) as K.
  { intros l L1. rewrite !orb_false_iff. intros [[L2 L3] L4]. rewrite (woke_only _ _ _ W), K0, (gone_only _ _ G), O1 by done. done. }
  assert (ratio_of s1 = ratio_of s) as HR by (unfold ratio_of; by rewrite !O1 by done).
  split.
  - apply W.
  - intros i h Hi [-> | ->].
    + rewrite (woke_plic0 _ _ _ W), K0 by done. destruct Hi as [-> | ->]; rewrite ?(gone_plic0 _ _ G), ?(gone_plic1 _ _ G); by apply O1.
    + rewrite (woke_plic1 _ _ _ W), M2 by done. destruct (feat m PM_FEAT_SYS_PG) eqn:Ef.
      * rewrite K0, (gone_only _ _ G) by done. by apply P1.
      * rewrite K0, (gone_only _ _ G), (Q1 Ef) by (done || (cbn; by rewrite Ef)). done.
  - intros o Ho. rewrite (woke_gpio _ _ _ W), K0, (gone_gpio _ _ G) by done. by apply O1.
  - rewrite (woke_mtimecmp _ _ _ W), K0, (gone_mtimecmp _ _ G) by done. by apply O1.
  - intros l Hl. apply K; destruct l; done.
  - rewrite (woke_only _ _ _ W), K0, (gone_count _ _ G), M1 by done. by rewrite !O1 by done.
  - apply W.
  - rewrite (woke_ctrl _ _ _ W). apply active_ctrl_bits.
  - rewrite (woke_offset _ _ _ W). unfold restored, slept_usec. rewrite !K0 by done.
    rewrite (gone_mtime _ _ G), (gone_rtc _ _ G), (gone_ratio _ _ G), (clock_stp _ _ _ _ PS2), HR. cbn [now asleep].
    by rewrite (gone_now _ _ G), (stp_now _ _ _ _ PS), (stp_now _ _ _ _ PS2).
  - eexists. rewrite (woke_events _ _ _ W), M2. cbn [events asleep]. rewrite (gone_events _ _ G), (stp_events _ _ _ _ S1), M1.
    assert (mem (asleep n s0) callback = mem s callback) as Hcb by (by rewrite K0, (gone_only _ _ G), O1 by done).
    unfold early_events, final_events, pmu_events, voltage, callback_event. rewrite Hcb, !O1 by done.
    by rewrite <- !app_assoc.
Qed.

(** When the idle task may call: the power manager is active and not to power
    down, the other core is waiting, the readings of the timer follow one another
    closely, and what other parts have set up is in range. *)
Record idle_ok (info : option (Z * Z * option Z)) (s : pm) : Prop := {
  io_mode : mem s pm_mode = PM_MODE_ACTIVE;
  io_power : mem s power_down = 0;
  io_core : Z.testbit (mem s LOWPOWER_CTRL) 11 = true;
  io_clock : clock (pass s) < 2 ^ 63;
  io_order : clock (pass s) ≤ clock (pass (pass s)) ≤ clock (pass (pass (pass s)));
  io_quick : clock (pass (pass (pass s))) ≤ clock (pass s) + 5500 * XTALTIME;
  io_cmp : 0 ≤ mem s MTIMECMP < 2 ^ 64;
  io_info : info_ok info;
  io_hib : 100000 ≤ mem s hib_min_time;
  io_enabled : Z.testbit (mem s pm_mode_enabled) PM_MODE_IDLE = false;
  io_src : Z.testbit (mem s wakeup_src) 1 = true;
  io_ratio : MIN_RATIO ≤ mem s rram_act_ratio ∧ MIN_RATIO ≤ mem s rram_ratio;
  io_base : mem s rram_rtc_value = 0 ∧ mem s rram_mtime_value = 0;
}.

Lemma fits_ready info s s2 : idle_ok info s → stp decision_locs [] (pass s) s2 → fits info s s2 → ready s2.
Proof.
  intros [] S [F1 F2 F3 F4 F5 F6 F7 F8]. assert (only decision_locs s s2) as O by apply S.
  pose proof (pass_stp _ _ _ _ S) as S1. pose proof (pass_stp _ _ _ _ S1) as S2.
  assert (0 ≤ clock (pass (pass s))) as Hp by apply u64_range.
  destruct (restore_offset (mem s2 wtype) (mem s2 pm_mode)) as [R0 _].
  split.
  - destruct (decide (mem s2 pm_mode = 1)) as [E|]; [|lia]. rewrite E in F2. unfold PM_MODE_IDLE in *. congruence.
  - rewrite (clock_stp _ _ _ _ S1), usec_mtime, u64_id by lia. lia.
  - rewrite (clock_stp _ _ _ _ S2). unfold PM_MAX_LOWPOWER_MTIME_DURATION in *. nia.
  - unfold ratio_of. rewrite !(O rram_act_ratio), !(O rram_ratio) by done. destruct (_ || _); apply io_ratio0.
  - by rewrite O.
  - by rewrite !O by done.
Qed.

(** The chip is not put to sleep: the core waits for an interrupt. *)
Lemma post_active devs c s : mem s pm_mode = PM_MODE_ACTIVE → pm_post_sleep_processing devs c s = Ret ((), s).
Proof. intros Hm. unfold pm_post_sleep_processing. rewrite (bind_Ret _ _ _ _ _ (eq_refl : ld pm_mode s = _)), Hm. done. Qed.

Lemma only_waits info devs n c s s2 : nap_ok PM_MODE_HIBERNATION n → mem s2 pm_mode = PM_MODE_ACTIVE →
  pm_pre_sleep_processing info devs n s = pm_wfi n s2 →
  pm_idle info devs n c s = Ret ((), asleep n (log s2 EWfi)).
Proof.
  intros HN Hm E. unfold pm_idle.
  assert (pm_pre_sleep_processing info devs n s = Ret ((), asleep n (log s2 EWfi))) as E' by by rewrite E.
  rewrite (bind_Ret _ _ _ _ _ E'). apply post_active. by rewrite (asleep_kept _ _ _ _ HN).
Qed.

(** C25: The idle task either waits or takes a sleep that is right.  On a call
    under the conditions below, [pm_pre_sleep_processing] followed by
    [pm_post_sleep_processing] runs without a failed assertion.  Either the core
    just waits for an interrupt, and then some part has asked to stay active,
    the first deadline is too close or light sleep is not allowed, and only what
    the decision computes has changed.  Or a mode is entered whose sleep fits
    before the first deadline, and then, whatever registers and reports are lost
    or changed asleep, sleeping is transparent: the interrupt enables of both
    cores, the pins, the timer compare value and all settings are as before, the
    machine timer has been moved on by the time on the RTC as the code computes
    it, in microseconds modulo 2^32 (exact for a sleep of less than 71.6 minutes,
    short by a multiple of it after a longer one, C18), hibernations are
    counted, the retention RAM and the low-power control are cleared, and drivers
    and application have been called in the right order.  The conditions
    ([idle_ok] and the hypotheses): the manager is active and not to power down,
    the other core is waiting, the clock is below 2^63, the readings of the timer
    during the call lie within 5.5 ms, the compare value and the first alarm fit
    64 bits, the estimate of a hibernation is at least 100 ms, the unused idle
    mode is not enabled, the timer is a wake-up source, the calibration of the
    RTC is available and from a ratio on with which the longest sleep fits the
    RTC, the copies of the time in the retention RAM are clear, no driver refuses
    to be suspended, asleep only those registers change that may ([nap_ok]), and
    the register of the RTC differs before and after the sleep. *)
Theorem pm_idle_correct info devs n c r s : idle_ok info s → nap_ok PM_MODE_HIBERNATION n →
  Forall (λ d, 0 ≤ suspend_ret d) devs → scm2010_systimer_calc_ratio c = Some r →
  (∃ s2, only decision_locs s s2 ∧ events s2 = events s ∧
    (mem s stay_active ≠ 0 ∨
      first_due info (mem s MTIMECMP) < clock (pass s) + PM_DEFAULT_SLEEP_THRESHOLD * XTALTIME ∨
      Z.testbit (mem s pm_mode_enabled) PM_MODE_LIGHT_SLEEP = false) ∧ mem s2 pm_mode = PM_MODE_ACTIVE ∧
    pm_idle info devs n c s = Ret ((), asleep n (log s2 EWfi))) ∨
  (∃ s2, stp decision_locs [] (pass s) s2 ∧ mem s stay_active = 0 ∧ fits info s s2 ∧
    (nap_ok (mem s2 pm_mode) n → rtc_reg (now (pass (pass s2))) ≠ rtc_reg (now (pass (pass s2)) + slept n) →
     ∃ s', pm_idle info devs n c s = Ret ((), s') ∧ transparent (mem s2 pm_mode) devs n s2 s')).
Proof.
  intros Hok HN Hd Hc. pose proof Hok as [].
  assert (pm_pre_sleep_processing info devs n s = (
    if negb (mem s stay_active =? 0) then pm_wfi n else
    r ← pm_update_idle_time info;
    if negb (r =? 0) then pm_wfi n else
    r ← pm_update_mode;
    if negb (r =? 0) then pm_wfi n else
    v ← ld LOWPOWER_CTRL;
    if Z.land v (BIT 11) =? 0 then (if SDIO_PM then pm_wfi n else c_assert false) else
    pm_sleep devs n) s) as Epre.
  { unfold pm_pre_sleep_processing. rewrite (bind_Ret _ _ _ _ _ (eq_refl : ld power_down s = _)), io_power0. cbn [negb Z.eqb].
    rewrite bind_ret_l. by rewrite (bind_Ret _ _ _ _ _ (eq_refl : ld stay_active s = _)). }
  destruct (Z.eqb_spec (mem s stay_active) 0) as [Hsa|Hsa]; cbn [negb] in Epre.
  2:{ left. exists s. split; [done|]. split; [done|]. split; [by left|]. split; [done|]. by apply only_waits. }
  assert (1 ≤ XTALTIME ≤ 1000) as x1 by lia.
  destruct (decision_run x1 info s) as (r1&s1&E1&S1&Hr1&H1); [done..|]. rewrite (bind_Ret _ _ _ _ _ E1) in Epre.
  destruct (Z.eqb_spec r1 0) as [Hz1|Hz1]; cbn [negb] in Epre.
  2:{ left. exists s1. split; [intros l Hl; rewrite (stp_only _ _ _ _ S1); [done|by apply orb_false_iff in Hl as []]|].
      split; [by rewrite (stp_events _ _ _ _ S1), app_nil_r|]. split; [right; left; by apply Hr1|].
      split; [by rewrite (stp_only _ _ _ _ S1)|]. apply only_waits; [done| |done]. by rewrite (stp_only _ _ _ _ S1). }
  destruct (H1 Hz1) as (r2&s2&E2&S2&Hl&Hna&Hf). rewrite (bind_Ret _ _ _ _ _ E2) in Epre.
  assert (only decision_locs s s2) as O by apply S2.
  destruct (Z.eqb_spec r2 0) as [Hz2|Hz2]; cbn [negb] in Epre.
  2:{ left. exists s2. split; [done|]. split; [by rewrite (stp_events _ _ _ _ S2), app_nil_r|]. split; [|split; [by apply Hna|apply only_waits; [done|by apply Hna|done] ] ].
      right; right. apply not_true_is_false. auto. }
  right. exists s2. split; [done|]. split; [done|]. specialize (Hf Hz2). split; [done|]. intros HN2 Hrtc.
  rewrite (bind_Ret _ _ _ _ _ (eq_refl : ld LOWPOWER_CTRL s2 = _)), land_BIT_zero, (O LOWPOWER_CTRL), io_core0 in Epre by done.
  cbn [negb] in Epre. destruct (pm_sleep_transparent devs n c r s2) as (s'&E'&T); try done; [by eapply fits_ready|].
  exists s'. split; [|done]. unfold pm_idle. rewrite <- E'. unfold mbind, M_bind. by rewrite Epre.
Qed.

(** C18: A long sleep loses time.  After waking up the machine timer is set to
    what it was plus the time asleep modulo 2^32 microseconds, since
    [pm_rtc_time_elapsed] returns 32 bits: it is right after sleeps of less than
    71.6 minutes, and 71.6 minutes behind for every 71.6 minutes of a longer one,
    while sleeps of up to 23 hours are allowed. *)
Theorem pm_restore_time_exact s : base_ok s → mem s rtc32k ≠ rtc_reg (now s) → 0 ≤ mem s ratio < 2 ^ 32 →
  let usec := RTC_ELAPSED (mem s rtc) (rtc_count (now s)) * mem s ratio / RTCTIME in
  ∃ s', pm_restore_time s = Ret ((), s') ∧ mem s' MTIMECMP = mem s mtimecmp ∧
    now s' = now s + next_delay s ∧
    u64 (now s + offset s') = u64 (mem s mtime + usec * XTALTIME - usec / 2 ^ 32 * (2 ^ 32 * XTALTIME)) ∧
    (usec < 2 ^ 32 ↔ u64 (now s + offset s') = u64 (mem s mtime + usec * XTALTIME)).
Proof.
  intros HB Hn Hr usec. destruct (wp_run _ _ _ (restore_time_run s HB Hn)) as ([]&s'&E&_&M&N&O&_).
  exists s'. split; [done|]. split; [done|]. split; [done|]. rewrite O.
  replace (now s + (restored s - now s)) with (restored s) by lia.
  assert (0 ≤ RTC_ELAPSED (mem s rtc) (rtc_count (now s)) < 2 ^ 32) as Hk.
  { unfold RTC_ELAPSED. destruct (_ >=? _); apply u32_range. }
  assert (0 ≤ usec) as Hu by (apply Z.div_pos; unfold RTCTIME; lia).
  assert (usec < 2 ^ 54) as Hu' by (apply Z.div_lt_upper_bound; unfold RTCTIME; nia).
  unfold restored, slept_usec. rewrite (u64_id (_ * _)) by nia. fold usec. unfold u32, pm_usec_to_mtime, u64.
  rewrite Zmod_mod, Z.add_mod_idemp_r by lia. clearbody usec.
  pose proof (Z.div_mod usec (2 ^ 32) ltac:(lia)) as Hdm. set (q := usec / 2 ^ 32) in *.
  assert (usec mod 2 ^ 32 * XTALTIME = usec * XTALTIME - q * (2 ^ 32 * XTALTIME)) as -> by nia.
  rewrite Z.add_sub_assoc. split; [done|]. split.
  - intros Hs. assert (q = 0) as -> by (apply Z.div_small; lia). f_equal. lia.
  - intros Heq. destruct (Z.lt_ge_cases usec (2 ^ 32)) as [|Hge]; [done|]. exfalso.
    assert (1 ≤ q) as Hq by (apply Z.div_le_lower_bound; lia).
    assert (0 < q * (2 ^ 32 * XTALTIME) < 2 ^ 64) as Hd.
    { assert (q * 2 ^ 32 ≤ usec) by (pose proof (Z.mod_pos_bound usec (2 ^ 32) ltac:(lia)); lia). nia. }
    apply (residue_shift (mem s mtime + usec * XTALTIME) (q * (2 ^ 32 * XTALTIME)) (2 ^ 64)); [lia|done|].
    by rewrite Heq.
Qed.
End Cycle.

Module Demo.
Import PmTheorems.Demo.

(** A driver with both functions, and one that cannot be suspended. *)
Definition drivers : list device := [Device true true 0; Device false true 0].
(** Nearly a second of sleep that loses interrupt enables and pins. *)
Definition night : nap := Nap 9800000 [(GPIO 0x10, 0)].
Definition snaps : snap := Snap 0 0 32 20000.

Lemma chip_ok : idle_ok None chip.
Proof.
  constructor.
  1-4: vm_compute; reflexivity.
  - split; vm_compute; discriminate.
  - vm_compute; discriminate.
  - split; vm_compute; [discriminate|reflexivity].
  - intros t ty nx [=].
  - vm_compute; discriminate.
  - vm_compute; reflexivity.
  - vm_compute; reflexivity.
  - split; vm_compute; discriminate.
  - split; vm_compute; reflexivity.
Qed.

Lemma night_ok m : nap_ok m night.
Proof. split; [done|]. intros lv ->%list_elem_of_singleton. done. Qed.

Lemma pm_idle_correct_witness : ∃ s', pm_idle None drivers night snaps chip = Ret ((), s') ∧
  mem s' (PLIC_INT_ENABLE 0 1) = 7 ∧ mem s' (GPIO 0x10) = 255 ∧ mem s' MTIMECMP = 10000000.
Proof.
  destruct (pm_idle_correct ltac:(split; discriminate) None drivers night snaps 62500 chip chip_ok (night_ok _))
    as [(s2&_&_&Hw&_)|(s2&S&_&F&H)].
  - repeat constructor; discriminate.
  - reflexivity.
  - destruct Hw as [Hw|[Hw|Hw]]; vm_compute in Hw; [by destruct Hw|discriminate Hw|discriminate Hw].
  - destruct H as (s'&E&T).
    + apply night_ok.
    + pose proof (pass_stp _ _ _ _ (pass_stp _ _ _ _ S)) as S2. rewrite (stp_now _ _ _ _ S2). by vm_compute.
    + exists s'. split; [exact E|]. rewrite (tr_plic _ _ _ _ _ T), (tr_gpio _ _ _ _ _ T), (tr_mtimecmp _ _ _ _ _ T) by
        (auto; by apply (bool_decide_unpack _)). rewrite !(stp_only _ _ _ _ S) by reflexivity.
      repeat split; vm_compute; reflexivity.
Defined.

(** Two hours asleep: the timer is 71.6 minutes behind. *)
Definition woken : pm :=
  Pm (λ l, match l with ratio => 61035 | mtimecmp => 10 ^ 12 | _ => 0 end) (2 * 3600 * 10000000) 0 [] [].

Lemma pm_restore_time_exact_witness : ∃ s', pm_restore_time woken = Ret ((), s') ∧
  u64 (now woken + offset s') ≠ u64 (235929600 * 61035 / RTCTIME * 10).
Proof.
  destruct (pm_restore_time_exact ltac:(split; discriminate) woken) as (s'&E&_&_&_&Hiff).
  - split; by left.
  - by vm_compute.
  - split; [discriminate|reflexivity].
  - exists s'. split; [exact E|]. intros Heq. apply Hiff in Heq. vm_compute in Heq. discriminate Heq.
Defined.
End Demo.
