(* ===== verification/I2c.v ===== *)
(** * The I2C driver: src/hal/drivers/i2c/i2c-atci2c.c

    The driver data and the registers of the controller are numbers, a value for
    every [field]; the buffers of the caller, the FIFO and the two wires are
    lists of bytes.  The controller works on its own: a byte moves between FIFO
    and wire, the transaction ends, or a master addresses the slave ([hw]).
    Before every reading of the status register any number of bytes may have
    moved ([steps]); whether a transaction command is taken while a completion is
    not acknowledged is a parameter ([I2cHw]).  The functions of the client that are called back are a
    parameter ([I2cClient]), and so is the DMA driver ([I2cDma]).  The numbers
    that the timing set-up computes in floating point are arguments. *)

From stdpp Require Import base tactics numbers list gmap functions.
From S2P Require Import Prelude.

(** ** Data *)

Inductive field :=
(* struct i2c_driver_data *)
| role | dma_en | tx_addr | tx_len | tx_offset | rx_addr | rx_len | rx_offset | slave_addr | state
| ev_type | ev0 | ev1 | cb | dma_dev | dma_ch
(* registers *)
| INTEN | ADDR | CTRL | SETUP | TPM | PULL_UP
(* the controller: status bits, a transaction in progress, the data count *)
| hw_status | hw_active | hw_count.

#[export] Instance field_eq_dec : EqDecision field.
Proof. solve_decision. Defined.

Definition I2C_STATE_UNKNOWN : Z := 0.
Definition I2C_STATE_MASTER_IDLE : Z := 1.
Definition I2C_STATE_MASTER_TX : Z := 2.
Definition I2C_STATE_MASTER_RX : Z := 3.
Definition I2C_STATE_MASTER_TX_RX : Z := 4.
Definition I2C_STATE_SLAVE_IDLE : Z := 5.
Definition I2C_STATE_SLAVE_TX : Z := 6.
Definition I2C_STATE_SLAVE_RX : Z := 7.

Definition I2C_ROLE_MASTER : Z := 0.
Definition I2C_ROLE_SLAVE : Z := 1.
Definition I2C_ADDR_LEN_10BIT : Z := 1.

Definition I2C_EVENT_MASTER_TRANS_CMPL : Z := 0.
Definition I2C_EVENT_SLAVE_RX_REQUESTED : Z := 1.
Definition I2C_EVENT_SLAVE_TX_REQUESTED : Z := 2.
Definition I2C_EVENT_SLAVE_RX_CMPL : Z := 3.
Definition I2C_EVENT_SLAVE_TX_CMPL : Z := 4.

Definition INTEN_CMPL : Z := BIT 9.
Definition INTEN_ARBLOSE : Z := BIT 4.
Definition INTEN_ADDRHIT : Z := BIT 3.
Definition INTEN_FIFOFULL : Z := BIT 1.
Definition INTEN_FIFOEMPTY : Z := BIT 0.

Definition STATUS_ACK : Z := BIT 10.
Definition STATUS_CMPL : Z := BIT 9.
Definition STATUS_ADDRHIT : Z := BIT 3.
Definition STATUS_FIFOFULL : Z := BIT 1.
Definition STATUS_FIFOEMPTY : Z := BIT 0.

Definition CTRL_PHASE_START : Z := BIT 12.
Definition CTRL_PHASE_ADDR : Z := BIT 11.
Definition CTRL_PHASE_DATA : Z := BIT 10.
Definition CTRL_PHASE_STOP : Z := BIT 9.
Definition CTRL_DIR_MASTER_TX : Z := 0.
Definition CTRL_DIR_MASTER_RX : Z := BIT 8.
Definition CTRL_DIR_SLAVE_TX : Z := BIT 8.
Definition CTRL_DATACNT (cnt : Z) : Z := Z.land cnt 0xFF.

Definition CMD_MASTER_TRANS : Z := 1.
Definition CMD_CLEAR_FIFO : Z := 4.
Definition CMD_RESET : Z := 5.

Definition SETUP_DMA_EN : Z := BIT 3.
Definition SETUP_MASTER : Z := BIT 2.
Definition SETUP_ADDR_LEN_10BIT : Z := BIT 1.
Definition SETUP_IICEN : Z := BIT 0.

Definition ATCI2C_FIFO_SIZE : nat := 4.
Definition ATCI2C_TRANS_MAX : Z := 256.
Definition EIO : Z := 5.
Definition EINVAL : Z := 22.

(** What the driver tells others: a callback with the type and the two words of
    the event's data, and calls of the DMA driver. *)
Inductive note := NCallback (type w0 w1 : Z) | NDmaCopy (is_tx : bool) (addr len : Z) | NDmaRel (ch : Z) | NDmaAbort (ch : Z).

Record i2c := I2c {
  fld : field → Z;
  tx_buf : list Z;
  rx_buf : list Z;
  fifo : list Z;
  wire_out : list Z;
  wire_in : list Z;
  steps : list nat;
  notes : list note;
}.

Definition ld (l : field) : M i2c Z := s ← get; mret (fld s l).
Definition upd (s : i2c) (l : field) (v : Z) : i2c :=
  I2c (<[l := v]> (fld s)) (tx_buf s) (rx_buf s) (fifo s) (wire_out s) (wire_in s) (steps s) (notes s).
Definition st (l : field) (v : Z) : M i2c unit := modify (λ s, upd s l v).
Definition set_tx_buf (b : list Z) (s : i2c) : i2c := I2c (fld s) b (rx_buf s) (fifo s) (wire_out s) (wire_in s) (steps s) (notes s).
Definition set_rx_buf (b : list Z) (s : i2c) : i2c := I2c (fld s) (tx_buf s) b (fifo s) (wire_out s) (wire_in s) (steps s) (notes s).
Definition set_fifo (f : list Z) (s : i2c) : i2c := I2c (fld s) (tx_buf s) (rx_buf s) f (wire_out s) (wire_in s) (steps s) (notes s).
Definition set_wires (o i : list Z) (s : i2c) : i2c := I2c (fld s) (tx_buf s) (rx_buf s) (fifo s) o i (steps s) (notes s).
Definition set_steps (n : list nat) (s : i2c) : i2c := I2c (fld s) (tx_buf s) (rx_buf s) (fifo s) (wire_out s) (wire_in s) n (notes s).
Definition tell (e : note) (s : i2c) : i2c :=
  I2c (fld s) (tx_buf s) (rx_buf s) (fifo s) (wire_out s) (wire_in s) (steps s) (notes s ++ [e]).

Definition has (v bits : Z) : bool := negb (Z.land v bits =? 0).
Definition clear_bits (bits v : Z) : Z := Z.land v (Z.lnot bits).

(** ** The controller *)

Definition finish (s : i2c) : i2c := upd (upd s hw_active 0) hw_status (Z.lor (fld s hw_status) STATUS_CMPL).

(** A byte has moved; a master counts down and is done at 0, a slave counts up. *)
Definition moved (s : i2c) : i2c :=
  if has (fld s SETUP) SETUP_MASTER then
    let s := upd s hw_count (fld s hw_count - 1) in if fld s hw_count =? 0 then finish s else s
  else upd s hw_count (fld s hw_count + 1).

(** Whether data goes out: bit 8 of the control register is the other way round
    in the two roles. *)
Definition outgoing (s : i2c) : bool :=
  if has (fld s SETUP) SETUP_MASTER then negb (has (fld s CTRL) CTRL_DIR_MASTER_RX) else has (fld s CTRL) CTRL_DIR_SLAVE_TX.

(** A slave gets no more than the master sends; a master reads ones when no
    slave drives the wire. *)
Definition silent (s : i2c) : bool := negb (has (fld s SETUP) SETUP_MASTER) && bool_decide (wire_in s = []).

(** One byte, unless the transaction has to wait for the FIFO. *)
Definition hw_byte (s : i2c) : i2c :=
  if fld s hw_active =? 0 then s else
  if outgoing s then
    match fifo s with
    | [] => s
    | b :: f => moved (set_wires (wire_out s ++ [b]) (wire_in s) (set_fifo f s))
    end
  else if silent s then s
  else if decide (length (fifo s) < ATCI2C_FIFO_SIZE)%nat then
    moved (set_wires (wire_out s) (tail (wire_in s)) (set_fifo (fifo s ++ [hd 0xFF (wire_in s)]) s))
  else s.

Definition hw_bytes (n : nat) (s : i2c) : i2c := Nat.iter n hw_byte s.

(** The other side ends the transaction: no acknowledgement, or a stop. *)
Definition hw_stop (s : i2c) : i2c := if fld s hw_active =? 0 then s else finish s.

(** A transaction without data ends; the acknowledgement of the address is seen. *)
Definition hw_answer (answer : bool) (s : i2c) : i2c :=
  if fld s hw_active =? 0 then s
  else upd (finish s) hw_status (Z.lor (Z.lor (fld s hw_status) STATUS_CMPL) (if answer then STATUS_ACK else 0)).

(** A master addresses this slave, and wants data or sends data. *)
Definition hw_addressed (wants : bool) (s : i2c) : i2c :=
  upd (upd (upd (upd s hw_active 1) hw_count 0) CTRL (if wants then Z.lor (fld s CTRL) CTRL_DIR_SLAVE_TX else clear_bits CTRL_DIR_SLAVE_TX (fld s CTRL)))
    hw_status (Z.lor (fld s hw_status) STATUS_ADDRHIT).

Definition fifo_flags (s : i2c) : Z :=
  Z.lor (if decide (fifo s = []) then STATUS_FIFOEMPTY else 0)
    (if decide (length (fifo s) < ATCI2C_FIFO_SIZE)%nat then 0 else STATUS_FIFOFULL).

Definition status_word (s : i2c) : Z := Z.lor (fld s hw_status) (fifo_flags s).

(** The interrupt line. *)
Definition irq_pending (s : i2c) : bool := has (status_word s) (fld s INTEN).

(** ** Registers, as the processor sees them *)

Definition next_steps (s : i2c) : nat := match steps s with n :: _ => n | [] => 0%nat end.
Definition read_STATUS : M i2c Z :=
  modify (λ s, hw_bytes (next_steps s) (set_steps (tail (steps s)) s));;
  s ← get; mret (status_word s).
(** Writing ones clears. *)
Definition write_STATUS (v : Z) : M i2c unit := modify (λ s, upd s hw_status (clear_bits v (fld s hw_status))).

Definition read_CTRL : M i2c Z :=
  s ← get; mret (Z.lor (clear_bits 0xFF (fld s CTRL)) (fld s hw_count mod 256)).
(** A count of 0 stands for 256. *)
Definition write_CTRL (v : Z) : M i2c unit :=
  st CTRL v;; st hw_count (if CTRL_DATACNT v =? 0 then 256 else CTRL_DATACNT v).

(** Data written to a full FIFO is lost, and nothing comes from an empty one. *)
Definition write_DATA (v : Z) : M i2c unit :=
  modify (λ s, if decide (length (fifo s) < ATCI2C_FIFO_SIZE)%nat then set_fifo (fifo s ++ [v]) s else s).
Definition read_DATA : M i2c Z :=
  s ← get; modify (set_fifo (tail (fifo s)));; mret (hd 0 (fifo s)).

(** Whether a transaction command is taken in a state of the status bits. *)
Class I2cHw := { takes_command : Z → bool }.

Definition write_CMD `{I2cHw} (v : Z) : M i2c unit :=
  modify (λ s,
    if v =? CMD_MASTER_TRANS then if takes_command (fld s hw_status) then upd s hw_active 1 else s
    else if v =? CMD_CLEAR_FIFO then set_fifo [] s
    else if v =? CMD_RESET then set_fifo [] (upd (upd (upd s hw_active 0) hw_status 0) INTEN 0)
    else s).

(** ** The driver *)

(** The DMA driver: its return code and the channel for a copy. *)
Class I2cDma := { dma_copy_hw : bool → Z → Z → Z * Z }.

(** What the client's function does when it is called: start transfers. *)
Inductive request :=
| RMasterTx (addr : Z) (a : Z) (bs : list Z) (len : Z)
| RMasterRx (addr : Z) (a : Z) (bs : list Z) (len : Z)
| RSlaveTx (a : Z) (bs : list Z) (len : Z)
| RSlaveRx (a : Z) (bs : list Z) (len : Z).
Class I2cClient := { on_event : Z → Z → Z → list request }.

Section Driver.
Context `{I2cHw, I2cDma, I2cClient}.

Definition i2c_dma_config (addr len : Z) (is_tx : bool) : M i2c Z :=
  d ← ld dma_dev;
  if d =? 0 then mret (- EIO) else
  if Z.land addr 0xF0000000 =? 0 then mret (- EINVAL) else
  st dma_ch (-1);;
  modify (tell (NDmaCopy is_tx addr len));;
  let '(ret, ch) := dma_copy_hw is_tx addr len in
  st dma_ch ch;;
  if negb (ret =? 0) then mret ret else
  r ← ld role;
  (if r =? I2C_ROLE_SLAVE then
     (v ← ld SETUP; st SETUP (Z.lor v SETUP_DMA_EN));;
     v ← read_CTRL; write_CTRL (Z.lor (clear_bits 0xFF v) (CTRL_DATACNT len))
   else mret ());;
  mret 0.

(** [ret] of the DMA set-up, the interrupt for the FIFO, and what the control
    register gets, by state. *)
Definition i2c_master_start : M i2c Z :=
  sta ← ld state; dma ← ld dma_en;
  let tx := (sta =? I2C_STATE_MASTER_TX) || (sta =? I2C_STATE_MASTER_TX_RX) in
  let rx := sta =? I2C_STATE_MASTER_RX in
  let stop_phase := if (sta =? I2C_STATE_MASTER_TX) || rx then CTRL_PHASE_STOP else 0 in
  ret ← (if dma =? 0 then mret 0
         else if tx then a ← ld tx_addr; n ← ld tx_len; i2c_dma_config a n true
         else if rx then a ← ld rx_addr; n ← ld rx_len; i2c_dma_config a n false
         else mret 0);
  if negb (ret =? 0) then mret ret else
  let fifo_int := if dma =? 0 then if tx then INTEN_FIFOEMPTY else if rx then INTEN_FIFOFULL else 0 else 0 in
  let trans_dir := if rx then CTRL_DIR_MASTER_RX else CTRL_DIR_MASTER_TX in
  len ← (if tx then ld tx_len else if rx then ld rx_len else mret 0);
  (v ← ld slave_addr; st ADDR v);;
  st INTEN (Z.lor (Z.lor INTEN_CMPL INTEN_ARBLOSE) fifo_int);;
  write_CTRL (Z.lor (Z.lor (Z.lor (Z.lor (Z.lor CTRL_PHASE_START CTRL_PHASE_ADDR) CTRL_PHASE_DATA) stop_phase) trans_dir)
    (CTRL_DATACNT len));;
  write_CMD CMD_MASTER_TRANS;;
  mret 0.

Definition bad_len (len : Z) : bool := (len >? ATCI2C_TRANS_MAX) || (len =? 0).

Definition atci2c_i2c_master_tx (addr a : Z) (bs : list Z) (len : Z) : M i2c Z :=
  if bad_len len then mret (- EINVAL) else
  modify (set_tx_buf bs);; st tx_addr a;; st tx_len len;; st tx_offset 0;; st slave_addr addr;;
  st ev0 0;; st ev1 0;; st state I2C_STATE_MASTER_TX;;
  i2c_master_start.

Definition atci2c_i2c_master_rx (addr a : Z) (bs : list Z) (len : Z) : M i2c Z :=
  if bad_len len then mret (- EINVAL) else
  modify (set_rx_buf bs);; st rx_addr a;; st rx_len len;; st rx_offset 0;; st slave_addr addr;;
  st ev0 0;; st ev1 0;; st state I2C_STATE_MASTER_RX;;
  i2c_master_start.

Definition atci2c_i2c_master_tx_rx (addr a : Z) (bs : list Z) (len : Z) (ra : Z) (rbs : list Z) (rlen : Z) : M i2c Z :=
  if bad_len len then mret (- EINVAL) else
  if bad_len rlen then mret (- EINVAL) else
  modify (set_tx_buf bs);; st tx_addr a;; st tx_len len;; st tx_offset 0;;
  modify (set_rx_buf rbs);; st rx_addr ra;; st rx_len rlen;; st rx_offset 0;;
  st slave_addr addr;; st ev0 0;; st ev1 0;; st state I2C_STATE_MASTER_TX_RX;;
  i2c_master_start.

Definition atci2c_i2c_slave_tx (a : Z) (bs : list Z) (len : Z) : M i2c Z :=
  if bad_len len then mret (- EINVAL) else
  modify (set_tx_buf bs);; st tx_addr a;; st tx_len len;; st tx_offset 0;; st state I2C_STATE_SLAVE_TX;;
  d ← ld dma_en;
  if negb (d =? 0) then i2c_dma_config a len true else mret 0.

Definition atci2c_i2c_slave_rx (a : Z) (bs : list Z) (len : Z) : M i2c Z :=
  if bad_len len then mret (- EINVAL) else
  modify (set_rx_buf bs);; st rx_addr a;; st rx_len len;; st rx_offset 0;; st state I2C_STATE_SLAVE_RX;;
  d ← ld dma_en;
  if negb (d =? 0) then i2c_dma_config a len false else mret 0.

Fixpoint run_requests (rs : list request) : M i2c unit :=
  match rs with
  | [] => mret ()
  | r :: rs =>
      (match r with
       | RMasterTx addr a bs len => atci2c_i2c_master_tx addr a bs len
       | RMasterRx addr a bs len => atci2c_i2c_master_rx addr a bs len
       | RSlaveTx a bs len => atci2c_i2c_slave_tx a bs len
       | RSlaveRx a bs len => atci2c_i2c_slave_rx a bs len
       end);; run_requests rs
  end.

Definition run_cb : M i2c unit :=
  c ← ld cb;
  if c =? 0 then mret () else
  t ← ld ev_type; w0 ← ld ev0; w1 ← ld ev1;
  modify (tell (NCallback t w0 w1));; run_requests (on_event t w0 w1).

Definition i2c_cmpl : M i2c unit :=
  run_cb;;
  r ← ld role;
  if r =? I2C_ROLE_MASTER then st INTEN 0;; st state I2C_STATE_MASTER_IDLE
  else
    write_CMD CMD_CLEAR_FIFO;;
    st INTEN (Z.lor INTEN_CMPL INTEN_ADDRHIT);;
    st state I2C_STATE_SLAVE_IDLE;;
    d ← ld dma_en;
    if negb (d =? 0) then v ← ld SETUP; st SETUP (clear_bits SETUP_DMA_EN v) else mret ().

(** [if (priv->dma_ch >= 0) ...] *)
Definition release_dma : M i2c unit :=
  ch ← ld dma_ch;
  if ch >=? 0 then modify (tell (NDmaRel ch));; st dma_ch (-1) else mret ().

(** Put into the FIFO until it is full or all is written. *)
Fixpoint fill (fuel : nat) : M i2c unit :=
  o ← ld tx_offset; n ← ld tx_len;
  if o =? n then mret () else
  match fuel with
  | O => out_of_fuel
  | S fuel =>
      s ← get;
      v ← lift_opt (tx_buf s !! Z.to_nat o);
      write_DATA v;;
      st tx_offset (u32 (o + 1));;
      v ← read_STATUS;
      if has v STATUS_FIFOFULL then write_CMD CMD_MASTER_TRANS else fill fuel
  end.

(** [priv->rx_buf[i] = v] *)
Definition store_rx (i v : Z) : M i2c unit :=
  s ← get;
  if decide (Z.to_nat i < length (rx_buf s))%nat then modify (set_rx_buf (<[Z.to_nat i := v]> (rx_buf s))) else fault.

(** Get from the FIFO until it is empty or all is read. *)
Fixpoint empty_fifo (fuel : nat) : M i2c unit :=
  o ← ld rx_offset; n ← ld rx_len;
  if o =? n then mret () else
  match fuel with
  | O => out_of_fuel
  | S fuel =>
      d ← read_DATA;
      store_rx o (u8 d);;
      st rx_offset (u32 (o + 1));;
      v ← read_STATUS;
      if has v STATUS_FIFOEMPTY then write_CMD CMD_MASTER_TRANS else empty_fifo fuel
  end.

(** What is left in the FIFO at the end. *)
Fixpoint drain (fuel : nat) : M i2c unit :=
  v ← read_STATUS;
  if has v STATUS_FIFOEMPTY then mret () else
  o ← ld rx_offset; n ← ld rx_len;
  if o =? n then mret () else
  match fuel with
  | O => out_of_fuel
  | S fuel =>
      d ← read_DATA;
      store_rx o (u8 d);;
      st rx_offset (u32 (o + 1));;
      drain fuel
  end.

(** The loops of the slave, which go on beyond the buffer. *)
Fixpoint slave_fill (fuel : nat) : M i2c unit :=
  match fuel with
  | O => out_of_fuel
  | S fuel =>
      o ← ld tx_offset; n ← ld tx_len;
      v ← (if o <? n then s ← get; lift_opt (tx_buf s !! Z.to_nat o) else mret 0);
      write_DATA v;;
      st tx_offset (u32 (o + 1));;
      v ← read_STATUS;
      if has v STATUS_FIFOFULL then mret () else slave_fill fuel
  end.

Definition slave_take : M i2c unit :=
  d ← read_DATA;
  o ← ld rx_offset; n ← ld rx_len;
  (if o <? n then store_rx o (u8 d) else mret ());;
  st rx_offset (u32 (o + 1)).

Fixpoint slave_empty (fuel : nat) : M i2c unit :=
  match fuel with
  | O => out_of_fuel
  | S fuel =>
      slave_take;;
      v ← read_STATUS;
      if has v STATUS_FIFOEMPTY then mret () else slave_empty fuel
  end.

Fixpoint slave_drain (fuel : nat) : M i2c unit :=
  v ← read_STATUS;
  if has v STATUS_FIFOEMPTY then mret () else
  match fuel with
  | O => out_of_fuel
  | S fuel => slave_take;; slave_drain fuel
  end.

(** [event.data.slave_tx_cmpl.truncated = t]: one byte of the union. *)
Definition set_truncated (t : Z) : M i2c unit := v ← ld ev1; st ev1 (Z.lor (clear_bits 0xFF v) t).

Definition master_tx_irq (fuel : nat) (status : Z) : M i2c bool :=
  dma ← ld dma_en;
  (if has status STATUS_FIFOEMPTY && (dma =? 0) then fill fuel else mret ());;
  if has status STATUS_CMPL then
    v ← read_CTRL;
    n ← ld tx_len;
    st ev0 (s32 (n - CTRL_DATACNT v));;
    release_dma;;
    sta ← ld state;
    if sta =? I2C_STATE_MASTER_TX_RX then
      write_STATUS STATUS_CMPL;;
      st state I2C_STATE_MASTER_RX;;
      i2c_master_start;;
      mret true
    else
      st ev_type I2C_EVENT_MASTER_TRANS_CMPL;;
      i2c_cmpl;;
      mret false
  else mret false.

Definition master_rx_irq (fuel : nat) (status : Z) : M i2c unit :=
  dma ← ld dma_en;
  (if has status STATUS_FIFOFULL && (dma =? 0) then empty_fifo fuel else mret ());;
  if has status STATUS_CMPL then
    v ← read_CTRL;
    (if dma =? 0 then
       drain fuel;;
       st ev_type I2C_EVENT_MASTER_TRANS_CMPL;;
       n ← ld rx_len;
       st ev1 (s32 (n - CTRL_DATACNT v))
     else mret ());;
    i2c_cmpl;;
    release_dma
  else mret ().

(** The client has to answer in its function; otherwise the controller is reset. *)
Definition slave_request (fifo_int requested completed : Z) : M i2c unit :=
  dma ← ld dma_en;
  (if dma =? 0 then v ← ld INTEN; st INTEN (Z.lor v fifo_int) else mret ());;
  c ← ld cb;
  (if negb (c =? 0) then st ev_type requested;; run_cb else mret ());;
  sta ← ld state;
  if sta =? I2C_STATE_SLAVE_IDLE then
    write_CMD CMD_RESET;;
    st ev_type completed;;
    st ev0 0;;
    i2c_cmpl
  else mret ().

Definition slave_idle_irq (status : Z) : M i2c unit :=
  if has status STATUS_ADDRHIT then
    v ← read_CTRL;
    if has v CTRL_DIR_SLAVE_TX then slave_request INTEN_FIFOEMPTY I2C_EVENT_SLAVE_TX_REQUESTED I2C_EVENT_SLAVE_TX_CMPL
    else slave_request INTEN_FIFOFULL I2C_EVENT_SLAVE_RX_REQUESTED I2C_EVENT_SLAVE_RX_CMPL
  else mret ().

(** The length of a transfer of a slave, from the count. *)
Definition slave_cmpl (total v : Z) : M i2c unit :=
  dma ← ld dma_en;
  let len := if negb (dma =? 0) then s32 (total - CTRL_DATACNT v)
             else if CTRL_DATACNT v =? 0 then ATCI2C_TRANS_MAX else CTRL_DATACNT v in
  (if u32 len <=? total then st ev0 len;; set_truncated 0 else st ev0 total;; set_truncated 1);;
  i2c_cmpl;;
  release_dma.

Definition slave_tx_irq (fuel : nat) (status : Z) : M i2c unit :=
  dma ← ld dma_en;
  (if has status STATUS_FIFOEMPTY && (dma =? 0) then slave_fill fuel else mret ());;
  if has status STATUS_CMPL then
    st ev_type I2C_EVENT_SLAVE_TX_CMPL;;
    v ← read_CTRL;
    n ← ld tx_len;
    slave_cmpl n v
  else mret ().

Definition slave_rx_irq (fuel : nat) (status : Z) : M i2c unit :=
  dma ← ld dma_en;
  (if has status STATUS_FIFOFULL && (dma =? 0) then slave_empty fuel else mret ());;
  if has status STATUS_CMPL then
    (if dma =? 0 then slave_drain fuel else mret ());;
    st ev_type I2C_EVENT_SLAVE_RX_CMPL;;
    v ← read_CTRL;
    n ← ld rx_len;
    slave_cmpl n v
  else mret ().

Definition i2c_irq (fuel : nat) : M i2c Z :=
  status ← read_STATUS;
  sta ← ld state;
  done ← (if (sta =? I2C_STATE_MASTER_TX) || (sta =? I2C_STATE_MASTER_TX_RX) then master_tx_irq fuel status
          else if sta =? I2C_STATE_MASTER_RX then master_rx_irq fuel status;; mret false
          else if sta =? I2C_STATE_SLAVE_IDLE then slave_idle_irq status;; mret false
          else if sta =? I2C_STATE_SLAVE_TX then slave_tx_irq fuel status;; mret false
          else if sta =? I2C_STATE_SLAVE_RX then slave_rx_irq fuel status;; mret false
          else c_assert false;; mret false);
  if (done : bool) then mret 0 else
  write_STATUS status;;
  mret 0.

(** [timing]: TPM and the timing fields of SETUP, computed from the bit rate. *)
Record i2c_cfg := Cfg { c_role : Z; c_addr_len : Z; c_slave_addr : Z; c_dma_en : Z; c_pull_up_en : Z }.

Definition SETUP_TIMING : Z :=
  Z.lor (Z.lor (Z.lor (Z.lor (Z.shiftl 0x1ff 4) (Z.shiftl 0x7 21)) (Z.shiftl 1 13)) (Z.shiftl 0x1f 24)) (Z.shiftl 0x1f 16).

Definition config_timing (tpm timing : Z) : M i2c unit :=
  st TPM (Z.land tpm 0x1f);;
  v ← ld SETUP; st SETUP (Z.lor (clear_bits SETUP_TIMING v) timing).

(** [pins]: the bits of the two pins; [c]: the client's function. *)
Definition atci2c_i2c_configure (cfg : i2c_cfg) (pins tpm timing c : Z) : M i2c Z :=
  d ← ld dma_dev;
  if negb (c_dma_en cfg =? 0) && (d =? 0) then mret (- EINVAL) else
  (v ← ld PULL_UP; st PULL_UP (if negb (c_pull_up_en cfg =? 0) then Z.lor v pins else clear_bits pins v));;
  write_CMD CMD_RESET;;
  (v ← ld SETUP; st SETUP (clear_bits SETUP_IICEN v));;
  config_timing tpm timing;;
  v ← ld SETUP;
  let v := if negb (c_dma_en cfg =? 0) then Z.lor v SETUP_DMA_EN else clear_bits SETUP_DMA_EN v in
  let v := if c_role cfg =? I2C_ROLE_MASTER then Z.lor v SETUP_MASTER else clear_bits SETUP_MASTER v in
  let v := if c_addr_len cfg =? I2C_ADDR_LEN_10BIT then Z.lor v SETUP_ADDR_LEN_10BIT else clear_bits SETUP_ADDR_LEN_10BIT v in
  st SETUP (Z.lor v SETUP_IICEN);;
  (if c_role cfg =? I2C_ROLE_MASTER then st state I2C_STATE_MASTER_IDLE
   else
     st ADDR (c_slave_addr cfg);;
     st INTEN (Z.lor INTEN_CMPL INTEN_ADDRHIT);;
     st state I2C_STATE_SLAVE_IDLE);;
  st cb c;; st dma_en (c_dma_en cfg);; st role (c_role cfg);;
  mret 0.

Definition atci2c_i2c_reset : M i2c Z :=
  d ← ld dma_en; ch ← ld dma_ch;
  (if negb (d =? 0) && (ch >=? 0) then modify (tell (NDmaAbort ch)) else mret ());;
  write_CMD CMD_RESET;;
  mret 0.

(** Reads the status until the transaction is over. *)
Fixpoint poll_cmpl (fuel : nat) (answer : bool) : M i2c Z :=
  v ← read_STATUS;
  if has v STATUS_CMPL then mret v else
  match fuel with
  | O => out_of_fuel
  | S fuel => modify (hw_answer answer);; poll_cmpl fuel answer
  end.

(** [answer] is whether a slave acknowledges the address. *)
Definition atci2c_i2c_master_probe (fuel : nat) (addr : Z) (answer : bool) : M i2c (Z * Z) :=
  r ← ld role;
  if negb (r =? I2C_ROLE_MASTER) then mret (- EINVAL, 0) else
  write_CTRL (Z.lor (Z.lor (Z.lor CTRL_PHASE_START CTRL_PHASE_ADDR) CTRL_PHASE_STOP) (Z.lor CTRL_DIR_MASTER_TX (CTRL_DATACNT 0)));;
  st ADDR addr;;
  write_CMD CMD_MASTER_TRANS;;
  v ← poll_cmpl fuel answer;
  let v := Z.lor v STATUS_CMPL in
  write_STATUS v;;
  mret (0, if has v STATUS_ACK then 1 else 0).

(** A fresh device: zeroed driver data. *)
Definition atci2c_i2c_probe (has_dma : bool) : M i2c unit :=
  modify (λ s, I2c (λ l, match l with INTEN | ADDR | CTRL | SETUP | TPM | PULL_UP | hw_status | hw_active | hw_count => fld s l | _ => 0 end)
    [] [] (fifo s) (wire_out s) (wire_in s) (steps s) (notes s));;
  st dma_dev (if has_dma then 1 else 0).

Definition atci2c_i2c_shutdown : M i2c unit := v ← ld SETUP; st SETUP (clear_bits SETUP_IICEN v).
End Driver.
