(* ===== verification/I2cTheorems.v ===== *)
(** * The I2C driver: transfers of a master

    Sending, receiving and the combination of both move exactly the bytes that
    were asked for, however the bus and the interrupts are interleaved. *)

From stdpp Require Import base tactics numbers list gmap functions.
From S2P Require Import Prelude I2c.

(** ** Commands *)

Lemma wp_i2c_ld l s Q : Q (fld s l) s → wp (ld l) s Q.
Proof. done. Qed.
Lemma wp_i2c_st l v s Q : Q () (upd s l v) → wp (st l v) s Q.
Proof. done. Qed.

Lemma fld_upd s l v : fld (upd s l v) l = v.
Proof. apply fn_lookup_insert. Qed.
Lemma fld_upd_ne s l l' v : l ≠ l' → fld (upd s l v) l' = fld s l'.
Proof. intros. by apply fn_lookup_insert_ne. Qed.

Ltac fields := repeat first
  [ rewrite fld_upd | rewrite fld_upd_ne by discriminate
  | progress cbn [fld tx_buf rx_buf fifo wire_out wire_in steps notes set_tx_buf set_rx_buf set_fifo set_wires set_steps tell]
  | match goal with |- context [tx_buf (upd _ _ _)] => progress change (tx_buf (upd ?s ?l ?v)) with (tx_buf s) end ].

Ltac wstep := lazymatch goal with
  | |- wp (mbind _ _) _ _ => apply wp_bind
  | |- wp (ld _) _ _ => apply wp_i2c_ld
  | |- wp (st _ _) _ _ => apply wp_i2c_st
  | |- wp (modify _) _ _ => apply wp_modify
  | |- wp get _ _ => apply wp_get
  | |- wp (mret _) _ _ => apply wp_ret
  end.
Ltac wsteps := repeat (wstep; cbv beta).

Lemma bad_len_ok n : (1 ≤ n ≤ 256)%nat → bad_len (Z.of_nat n) = false.
Proof. intros Hn. unfold bad_len. apply orb_false_iff. unfold ATCI2C_TRANS_MAX. lia. Qed.

Lemma take_drop_cons {A} (l : list A) k m x : (0 < m)%nat → l !! k = Some x →
  take m (drop k l) = x :: take (m - 1) (drop (S k) l).
Proof.
  intros Hm Hx. rewrite (drop_S l x k Hx). destruct m; [lia|]. cbn. do 2 f_equal. lia.
Qed.

Lemma take_snoc {A} (l : list A) k x : l !! k = Some x → take (S k) l = take k l ++ [x].
Proof. apply take_S_r. Qed.

(** ** Reading the status

    Bytes may move first: [P k] is kept by a moving byte, [k] bytes having moved. *)
Section Reading.
Context (P : nat → i2c → Prop) (P_byte : ∀ k s, P k s → ∃ k', (k ≤ k')%nat ∧ P k' (hw_byte s)).
Context (P_steps : ∀ k l s, P k s → P k (set_steps l s)).

Lemma bytes_inv m k s : P k s → ∃ k', (k ≤ k')%nat ∧ P k' (hw_bytes m s).
Proof.
  intros T. induction m as [|m (k1&Hk1&IH)]; [by exists k|]. destruct (P_byte k1 _ IH) as (k2&Hk2&T2).
  exists k2. split; [lia|done].
Qed.

Lemma wp_STATUS_inv k s Q : P k s → (∀ k' s', (k ≤ k')%nat → P k' s' → Q (status_word s') s') → wp read_STATUS s Q.
Proof.
  intros T HQ. unfold read_STATUS. wsteps.
  destruct (bytes_inv (next_steps s) k _ (P_steps k (tail (steps s)) s T)) as (k'&Hk&T'). by eapply HQ.
Qed.
End Reading.

(** ** A schedule: bytes on the wire and interrupts *)

Inductive act := AByte | AIrq.

(** How often an interrupt is served after a byte had its turn. *)
Fixpoint rounds_from (seen : bool) (l : list act) : nat :=
  match l, seen with
  | [], _ => 0
  | AByte :: l, _ => rounds_from true l
  | AIrq :: l, true => S (rounds_from false l)
  | AIrq :: l, false => rounds_from false l
  end.
Definition rounds : list act → nat := rounds_from false.

Lemma rounds_seen l : (rounds_from false l ≤ rounds_from true l ≤ S (rounds_from false l))%nat.
Proof. induction l as [|[] l IH]; cbn; lia. Qed.

Section Master.
Context `{!I2cHw, !I2cDma, !I2cClient}.

Definition act_run (a : act) : M i2c unit :=
  match a with
  | AByte => modify hw_byte
  | AIrq => s ← get; if irq_pending s then i2c_irq 256;; mret () else mret ()
  end.

Fixpoint acts_run (l : list act) : M i2c unit :=
  match l with [] => mret () | a :: l => act_run a;; acts_run l end.

(** A command is not taken while a completion is not acknowledged; the client
    does not start a transfer from its function. *)
Context (cmd_law : ∀ st, takes_command st = negb (has st STATUS_CMPL)).
Context (quiet : ∀ t a b, on_event t a b = []).

(** What one transfer starts from and is about: the bytes to send, the buffer
    and the number of bytes to receive. *)
Context (out0 in0 : list Z) (notes0 : list note) (ch0 : Z) (bs rb : list Z) (r : nat).
Context (len_bs : (length bs ≤ 256)%nat) (len_r : (r ≤ 256)%nat) (len_rb : (r ≤ length rb)%nat) (len_in : (r ≤ length in0)%nat).
Context (in0_bytes : Forall (λ b, 0 ≤ b < 256) in0).

(** What the release of a DMA channel tells and leaves. *)
Definition released (c : Z) : list note := if c >=? 0 then [NDmaRel c] else [].
Definition no_ch (c : Z) : Z := if c >=? 0 then -1 else c.
(** A channel is released at the end of sending. *)
Definition ch1 : Z := if decide (bs = []) then ch0 else no_ch ch0.
Definition notes1 : list note := if decide (bs = []) then notes0 else notes0 ++ released ch0.

Record common (c : Z) (ns : list note) (s : i2c) : Prop := {
  co_role : fld s role = I2C_ROLE_MASTER;
  co_dma : fld s dma_en = 0;
  co_setup : has (fld s SETUP) SETUP_MASTER = true;
  co_cb : fld s cb ≠ 0;
  co_ch : fld s dma_ch = c;
  co_notes : notes s = ns;
}.

(** The controller after [k] of [n] bytes. *)
Record engine (n k : nat) (s : i2c) : Prop := {
  en_count : fld s hw_count = Z.of_nat (n - k);
  en_active : fld s hw_active = if decide (k < n)%nat then 1 else 0;
  en_status : fld s hw_status = if decide (k < n)%nat then 0 else STATUS_CMPL;
}.

(** Sending: [o] bytes are in the FIFO or on the wire, [k] on the wire. *)
Record tx_at (both : bool) (o k : nat) (s : i2c) : Prop := {
  tx_common : common ch0 notes0 s;
  tx_engine : engine (length bs) k s;
  tx_state : fld s state = if both then I2C_STATE_MASTER_TX_RX else I2C_STATE_MASTER_TX;
  tx_bs : tx_buf s = bs;
  tx_n : fld s tx_len = Z.of_nat (length bs);
  tx_o : fld s tx_offset = Z.of_nat o;
  tx_ok : (k ≤ o ≤ length bs)%nat;
  tx_room : (o - k ≤ 4)%nat;
  tx_fifo : fifo s = take (o - k) (drop k bs);
  tx_out : wire_out s = out0 ++ take k bs;
  tx_in : wire_in s = in0;
  tx_inten : fld s INTEN = Z.lor (Z.lor INTEN_CMPL INTEN_ARBLOSE) INTEN_FIFOEMPTY;
  tx_dir : has (fld s CTRL) CTRL_DIR_MASTER_RX = false;
  tx_rx : rx_buf s = rb ∧ fld s ev1 = 0 ∧ (both = true → fld s rx_len = Z.of_nat r ∧ fld s rx_offset = 0);
}.

(** Receiving: [k] bytes came from the wire, [o] are in the buffer. *)
Record rx_at (o k : nat) (s : i2c) : Prop := {
  rx_common : common ch1 notes1 s;
  rx_engine : engine r k s;
  rx_state : fld s state = I2C_STATE_MASTER_RX;
  rx_n : fld s rx_len = Z.of_nat r;
  rx_o : fld s rx_offset = Z.of_nat o;
  rx_ok : (o ≤ k ≤ r)%nat;
  rx_room : (k - o ≤ 4)%nat;
  rx_fifo : fifo s = take (k - o) (drop o in0);
  rx_buffer : rx_buf s = take o in0 ++ drop o rb;
  rx_out : wire_out s = out0 ++ bs;
  rx_in : wire_in s = drop k in0;
  rx_inten : fld s INTEN = Z.lor (Z.lor INTEN_CMPL INTEN_ARBLOSE) INTEN_FIFOFULL;
  rx_dir : has (fld s CTRL) CTRL_DIR_MASTER_RX = true;
  rx_ev : fld s ev0 = Z.of_nat (length bs);
}.

(** ** The controller's steps *)

Lemma common_upd c ns s l v : match l with role | dma_en | SETUP | cb | dma_ch => False | _ => True end → common c ns s → common c ns (upd s l v).
Proof. intros Hl [C1 C2 C3 C4 C5 C6]. split; rewrite ?fld_upd_ne by (intros Heq; by subst); done. Qed.

(** Another byte is counted. *)
Lemma moved_engine n k s : (k < n)%nat → has (fld s SETUP) SETUP_MASTER = true → engine n k s → engine n (S k) (moved s).
Proof.
  intros Hk Hm [E1 E2 E3]. unfold moved. rewrite Hm, fld_upd, E1. rewrite decide_True in E2, E3 by done.
  replace (Z.of_nat (n - k) - 1) with (Z.of_nat (n - S k)) by lia.
  destruct (Z.eqb_spec (Z.of_nat (n - S k)) 0) as [Hz|Hz].
  - unfold finish. split; rewrite ?(decide_False (P := S k < n)%nat) by lia.
    + by rewrite !fld_upd_ne, fld_upd by done.
    + by rewrite fld_upd_ne, fld_upd by done.
    + by rewrite fld_upd, fld_upd_ne, E3 by done.
  - split; rewrite ?(decide_True (P := S k < n)%nat) by lia; [by rewrite fld_upd|by rewrite fld_upd_ne..].
Qed.

Lemma moved_fld s l : match l with hw_count | hw_active | hw_status => False | _ => True end → fld (moved s) l = fld s l.
Proof.
  intros Hl. unfold moved, finish. destruct (has _ _); [destruct (_ =? 0)|]; rewrite ?fld_upd_ne by (intros Heq; by subst); done.
Qed.

Lemma moved_lists s : tx_buf (moved s) = tx_buf s ∧ rx_buf (moved s) = rx_buf s ∧ fifo (moved s) = fifo s ∧
  wire_out (moved s) = wire_out s ∧ wire_in (moved s) = wire_in s ∧ steps (moved s) = steps s ∧ notes (moved s) = notes s.
Proof. unfold moved, finish. by destruct (has _ _); [destruct (_ =? 0)|]. Qed.

Lemma outgoing_master s : has (fld s SETUP) SETUP_MASTER = true → outgoing s = negb (has (fld s CTRL) CTRL_DIR_MASTER_RX).
Proof. unfold outgoing. by intros ->. Qed.

(** Sending one byte. *)
Lemma tx_byte both o k s : tx_at both o k s → tx_at both o (if decide (k < o)%nat then S k else k) (hw_byte s).
Proof.
  intros T. pose proof T as [C E S1 S2 S3 S4 Hok Hroom F O I N D R]. unfold hw_byte.
  destruct (decide (k < o)%nat) as [Hk|Hk].
  - rewrite (en_active _ _ _ E), decide_True by lia. rewrite (outgoing_master s), D by apply C. cbn [negb Z.eqb].
    destruct (lookup_lt_is_Some_2 bs k ltac:(lia)) as [x Hx].
    rewrite F, (take_drop_cons bs k (o - k) x) by (done || lia).
    set (s1 := set_wires _ _ _). destruct (moved_lists s1) as (L1&L2&L3&L4&L5&L6&L7).
    split; rewrite ?moved_fld by done; try done.
    + destruct C as [C1 C2 C3 C4 C5 C6]. split; rewrite ?moved_fld by done; try done. by rewrite L7.
    + apply moved_engine; [lia|apply C|]. by destruct E.
    + by rewrite L1.
    + lia.
    + lia.
    + rewrite L3. cbn. f_equal. lia.
    + rewrite L4. cbn. rewrite O, (take_snoc bs k x Hx). by rewrite app_assoc.
    + by rewrite L5.
    + by rewrite L2.
  - assert (o = k) as -> by lia. rewrite Nat.sub_diag in F. cbn in F.
    destruct (fld s hw_active =? 0); [done|]. rewrite (outgoing_master s), D by apply C. cbn [negb]. by rewrite F.
Qed.

(** Receiving one byte. *)
Lemma rx_byte o k s : rx_at o k s → rx_at o (if decide (k < r ∧ k - o < 4)%nat then S k else k) (hw_byte s).
Proof.
  intros T. pose proof T as [C E S1 S2 S3 Hok Hroom F B O I N D V]. unfold hw_byte.
  assert (length (fifo s) = (k - o)%nat) as Hlen by (rewrite F, length_take, length_drop; lia).
  rewrite (en_active _ _ _ E), (outgoing_master s), D by apply C. cbn [negb].
  destruct (decide (k < r)%nat) as [Hk|Hk].
  2:{ cbn [Z.eqb]. rewrite decide_False by lia. done. }
  cbn [Z.eqb]. unfold silent. rewrite (co_setup _ _ _ C). cbn [negb andb]. unfold ATCI2C_FIFO_SIZE. rewrite Hlen.
  destruct (decide (k - o < 4)%nat) as [Hf|Hf]; [rewrite decide_True by lia|by rewrite decide_False by lia].
  destruct (lookup_lt_is_Some_2 in0 k ltac:(lia)) as [x Hx].
  assert (hd 0xFF (wire_in s) = x ∧ tail (wire_in s) = drop (S k) in0) as [-> ->] by by rewrite I, (drop_S in0 x k Hx).
  set (s1 := set_wires _ _ _). destruct (moved_lists s1) as (L1&L2&L3&L4&L5&L6&L7).
  split; rewrite ?moved_fld by done; try done.
  - destruct C as [C1 C2 C3 C4 C5 C6]. split; rewrite ?moved_fld by done; try done. by rewrite L7.
  - apply moved_engine; [lia|apply C|]. by destruct E.
  - lia.
  - lia.
  - rewrite L3. cbn. rewrite F. replace (S k - o)%nat with (S (k - o)) by lia.
    rewrite (take_snoc (drop o in0) (k - o) x); [done|]. rewrite lookup_drop, <- Hx. f_equal. lia.
  - by rewrite L2.
  - by rewrite L4.
Qed.

(** ** The status register *)

Lemma status_bits s (c : bool) : fld s hw_status = (if c then STATUS_CMPL else 0) →
  has (status_word s) STATUS_CMPL = c ∧ has (status_word s) STATUS_FIFOEMPTY = bool_decide (fifo s = []) ∧
  has (status_word s) STATUS_FIFOFULL = negb (bool_decide (length (fifo s) < 4)%nat).
Proof.
  intros E. unfold status_word, fifo_flags, ATCI2C_FIFO_SIZE. rewrite E.
  destruct c; repeat case_bool_decide; repeat case_decide; try done; repeat split; reflexivity.
Qed.

(** Acknowledging what was read leaves a completion that came later. *)
Lemma ack_status s1 (c1 c2 : bool) : fld s1 hw_status = (if c1 then STATUS_CMPL else 0) →
  clear_bits (status_word s1) (if c2 then STATUS_CMPL else 0) = if c1 then 0 else if c2 then STATUS_CMPL else 0.
Proof.
  intros E. unfold status_word, fifo_flags, clear_bits. rewrite E.
  destruct c1, c2, (decide (fifo s1 = [])), (decide (length (fifo s1) < ATCI2C_FIFO_SIZE)%nat); done.
Qed.

Lemma engine_status n k s : engine n k s → fld s hw_status = if bool_decide (n ≤ k)%nat then STATUS_CMPL else 0.
Proof.
  intros [_ _ ->]. case_bool_decide; case_decide; try done; exfalso; lia.
Qed.

Lemma tx_steps both o k l s : tx_at both o k s → tx_at both o k (set_steps l s).
Proof. intros [C E]. split; try done; [by destruct C|by destruct E]. Qed.
Lemma rx_steps o k l s : rx_at o k s → rx_at o k (set_steps l s).
Proof. intros [C E]. split; try done; [by destruct C|by destruct E]. Qed.

Lemma wp_STATUS_tx both o k s Q : tx_at both o k s →
  (∀ k' s', (k ≤ k')%nat → tx_at both o k' s' → Q (status_word s') s') → wp read_STATUS s Q.
Proof.
  apply (wp_STATUS_inv (tx_at both o)); [|eauto using tx_steps].
  intros k1 s1 T. apply tx_byte in T. eexists. split; [|exact T]. destruct (decide _); lia.
Qed.
Lemma wp_STATUS_rx o k s Q : rx_at o k s →
  (∀ k' s', (k ≤ k')%nat → rx_at o k' s' → Q (status_word s') s') → wp read_STATUS s Q.
Proof.
  apply (wp_STATUS_inv (rx_at o)); [|eauto using rx_steps].
  intros k1 s1 T. apply rx_byte in T. eexists. split; [|exact T]. destruct (decide _); lia.
Qed.

Lemma tx_status both o k s : tx_at both o k s →
  has (status_word s) STATUS_CMPL = bool_decide (length bs ≤ k)%nat ∧
  has (status_word s) STATUS_FIFOEMPTY = bool_decide (k = o) ∧ has (status_word s) STATUS_FIFOFULL = bool_decide (o - k = 4)%nat.
Proof.
  intros T. destruct (status_bits s _ (engine_status _ _ _ (tx_engine _ _ _ _ T))) as (->&->&->).
  pose proof (tx_ok _ _ _ _ T). pose proof (tx_room _ _ _ _ T).
  assert (length (fifo s) = (o - k)%nat) as Hl by (rewrite (tx_fifo _ _ _ _ T), length_take, length_drop; lia).
  split; [done|]. split.
  - apply bool_decide_ext. rewrite <- length_zero_iff_nil, Hl. lia.
  - rewrite Hl. rewrite <- bool_decide_not. apply bool_decide_ext. lia.
Qed.
Lemma rx_status o k s : rx_at o k s →
  has (status_word s) STATUS_CMPL = bool_decide (r ≤ k)%nat ∧
  has (status_word s) STATUS_FIFOEMPTY = bool_decide (k = o) ∧ has (status_word s) STATUS_FIFOFULL = bool_decide (k - o = 4)%nat.
Proof.
  intros T. destruct (status_bits s _ (engine_status _ _ _ (rx_engine _ _ _ T))) as (->&->&->).
  pose proof (rx_ok _ _ _ T). pose proof (rx_room _ _ _ T).
  assert (length (fifo s) = (k - o)%nat) as Hl by (rewrite (rx_fifo _ _ _ T), length_take, length_drop; lia).
  split; [done|]. split.
  - apply bool_decide_ext. rewrite <- length_zero_iff_nil, Hl. lia.
  - rewrite Hl. rewrite <- bool_decide_not. apply bool_decide_ext. lia.
Qed.

(** ** The loops of the interrupt handler *)

(** A byte goes into the FIFO. *)
Lemma tx_put both o k x s : tx_at both o k s → (o - k < 4)%nat → bs !! o = Some x →
  tx_at both (S o) k (upd (set_fifo (fifo s ++ [x]) s) tx_offset (Z.of_nat (S o))).
Proof.
  intros [C E S1 S2 S3 S4 Hok Hroom F O I N D R] Hf Hx. apply lookup_lt_Some in Hx as Hlt.
  split; rewrite ?fld_upd_ne by done; try done; try lia.
  - apply common_upd; [done|]. by destruct C.
  - destruct E. by split; rewrite ?fld_upd_ne by done.
  - cbn. rewrite F. replace (S o - k)%nat with (S (o - k)) by lia. symmetry. apply take_snoc.
    rewrite lookup_drop, <- Hx. f_equal. lia.
Qed.

Lemma tx_go both o k s : tx_at both o k s → (k < length bs)%nat → tx_at both o k (upd s hw_active 1).
Proof.
  intros [C E S1 S2 S3 S4 Hok Hroom F O I N D R] Hk.
  split; rewrite ?fld_upd_ne by done; try done.
  - by apply common_upd.
  - destruct E as [E1 E2 E3]. rewrite decide_True in E2, E3 by done. split; rewrite ?decide_True by done.
    + by rewrite fld_upd_ne.
    + by rewrite fld_upd.
    + by rewrite fld_upd_ne.
Qed.

Lemma fill_run both fuel o k s : tx_at both o k s → (o - k < 4)%nat → (length bs - o ≤ fuel)%nat →
  wp (fill fuel) s (λ _ s', ∃ o' k', tx_at both o' k' s' ∧ (k ≤ k')%nat ∧ (o ≤ o')%nat ∧ ((o < length bs)%nat → (o < o')%nat)).
Proof.
  revert o k s. induction fuel as [|fuel IH]; intros o k s T Hf Hfuel; pose proof (tx_ok _ _ _ _ T) as Hok.
  { cbn [fill]. wsteps. rewrite (tx_o _ _ _ _ T), (tx_n _ _ _ _ T). rewrite (proj2 (Z.eqb_eq _ _)) by lia. wsteps.
    exists o, k. split; [done|]. lia. }
  cbn [fill]. wsteps. rewrite (tx_o _ _ _ _ T), (tx_n _ _ _ _ T).
  destruct (Z.eqb_spec (Z.of_nat o) (Z.of_nat (length bs))) as [He|He]; wsteps.
  { exists o, k. split; [done|]. lia. }
  destruct (lookup_lt_is_Some_2 bs o ltac:(lia)) as [x Hx].
  apply (wp_lift _ x); [by rewrite (tx_bs _ _ _ _ T), Nat2Z.id|]. unfold write_DATA. wsteps.
  assert (length (fifo s) = (o - k)%nat) as Hl by (rewrite (tx_fifo _ _ _ _ T), length_take, length_drop; lia).
  unfold ATCI2C_FIFO_SIZE. rewrite decide_True by lia. rewrite u32_id by lia. replace (Z.of_nat o + 1) with (Z.of_nat (S o)) by lia.
  apply (wp_STATUS_tx both (S o) k); [by apply tx_put|]. intros k' s' Hk' T'.
  destruct (tx_status _ _ _ _ T') as (_&_&->). pose proof (tx_ok _ _ _ _ T') as Hok'. pose proof (tx_room _ _ _ _ T') as Hrm'.
  case_bool_decide as Hfull.
  - unfold write_CMD. wsteps. change (CMD_MASTER_TRANS =? CMD_MASTER_TRANS) with true. cbv iota.
    rewrite cmd_law, (en_status _ _ _ (tx_engine _ _ _ _ T')), decide_True by lia. change (negb (has 0 STATUS_CMPL)) with true. cbv iota.
    exists (S o), k'. split; [apply tx_go; [done|lia]|]. lia.
  - eapply wp_mono; [apply (IH (S o) k'); [done|lia|lia]|]. intros [] s2 (o2&k2&T2&H1'&H2'&_). exists o2, k2. split; [done|]. lia.
Qed.

Lemma in0_byte o x : in0 !! o = Some x → u8 x = x.
Proof. intros Hx. apply u8_id. exact (Forall_lookup_1 _ _ _ _ in0_bytes Hx). Qed.

(** A byte goes from the FIFO to the buffer. *)
Lemma take_run o k s (c : M i2c unit) Q : rx_at o k s → (o < k)%nat → (∀ s', rx_at (S o) k s' → wp c s' Q) →
  wp (d ← read_DATA; store_rx (Z.of_nat o) (u8 d);; st rx_offset (u32 (Z.of_nat o + 1));; c) s Q.
Proof.
  intros [C E S1 S2 S3 Hok Hroom F B O I N D V] Ho Hc.
  destruct (lookup_lt_is_Some_2 in0 o ltac:(lia)) as [x Hx].
  unfold read_DATA, store_rx. wsteps. rewrite F, (take_drop_cons in0 o (k - o) x) by (done || lia). cbn [hd tail set_fifo rx_buf].
  rewrite (in0_byte o x Hx), Nat2Z.id, B, decide_True by (rewrite length_app, length_take, length_drop; lia). wsteps.
  rewrite u32_id by lia. replace (Z.of_nat o + 1) with (Z.of_nat (S o)) by lia. apply Hc.
  split; rewrite ?fld_upd_ne by done; try done; try lia.
  - apply common_upd; [done|]. by destruct C.
  - destruct E. by split; rewrite ?fld_upd_ne by done.
  - cbn. f_equal. lia.
  - cbn. destruct (lookup_lt_is_Some_2 rb o ltac:(lia)) as [y Hy].
    rewrite (take_snoc in0 o x Hx), (drop_S rb y o Hy), <- app_assoc. cbn.
    rewrite insert_app_r_alt by (rewrite length_take; lia). rewrite length_take.
    replace (o - o `min` length in0)%nat with 0%nat by lia. done.
Qed.

Lemma rx_go o k s : rx_at o k s → rx_at o k (if takes_command (fld s hw_status) then upd s hw_active 1 else s).
Proof.
  intros T. rewrite cmd_law. pose proof T as [C E S1 S2 S3 Hok Hroom F B O I N D V]. rewrite (en_status _ _ _ E).
  destruct (decide (k < r)%nat) as [Hk|Hk]; [|done]. change (negb (has 0 STATUS_CMPL)) with true. cbv iota.
  split; rewrite ?fld_upd_ne by done; try done.
  - by apply common_upd.
  - destruct E as [E1 E2 E3]. rewrite decide_True in E2, E3 by done. split; rewrite ?decide_True by done.
    + by rewrite fld_upd_ne.
    + by rewrite fld_upd.
    + by rewrite fld_upd_ne.
Qed.

Lemma empty_fifo_run fuel o k s : rx_at o k s → (o < k)%nat ∨ o = r → (r - o ≤ fuel)%nat →
  wp (empty_fifo fuel) s (λ _ s', ∃ o' k', rx_at o' k' s' ∧ (k ≤ k')%nat ∧ (o ≤ o')%nat ∧ ((o < r)%nat → (o < o')%nat)).
Proof.
  revert o k s. induction fuel as [|fuel IH]; intros o k s T Hf Hfuel; pose proof (rx_ok _ _ _ T) as Hok.
  { cbn [empty_fifo]. wsteps. rewrite (rx_o _ _ _ T), (rx_n _ _ _ T). rewrite (proj2 (Z.eqb_eq _ _)) by lia. wsteps.
    exists o, k. split; [done|]. lia. }
  cbn [empty_fifo]. wsteps. rewrite (rx_o _ _ _ T), (rx_n _ _ _ T).
  destruct (Z.eqb_spec (Z.of_nat o) (Z.of_nat r)) as [He|He].
  { wsteps. exists o, k. split; [done|]. lia. }
  apply (take_run o k); [done|lia|]. intros s1 T1. wstep. apply (wp_STATUS_rx (S o) k); [done|]. intros k' s' Hk' T'.
  destruct (rx_status _ _ _ T') as (_&->&_). pose proof (rx_ok _ _ _ T') as Hok'.
  case_bool_decide as Hempty.
  - unfold write_CMD. wsteps. change (CMD_MASTER_TRANS =? CMD_MASTER_TRANS) with true. cbv iota.
    exists (S o), k'. split; [by apply rx_go|]. lia.
  - eapply wp_mono; [apply (IH (S o) k'); [done|lia|lia]|]. intros [] s2 (o2&k2&T2&H1'&H2'&_). exists o2, k2. split; [done|]. lia.
Qed.

(** At the end the rest is fetched. *)
Lemma drain_run fuel o s : rx_at o r s → (r - o ≤ fuel)%nat → wp (drain fuel) s (λ _ s', rx_at r r s').
Proof.
  revert o s. induction fuel as [|fuel IH]; intros o s T Hfuel; pose proof (rx_ok _ _ _ T) as Hok; cbn [drain]; wstep.
  { apply (wp_STATUS_rx o r); [done|]. intros k' s' Hk' T'. pose proof (rx_ok _ _ _ T') as Hok'.
    destruct (rx_status _ _ _ T') as (_&->&_). rewrite bool_decide_eq_true_2 by lia. wsteps.
    assert (o = r) as -> by lia. by assert (k' = r) as -> by lia. }
  apply (wp_STATUS_rx o r); [done|]. intros k' s' Hk' T'. pose proof (rx_ok _ _ _ T') as Hok'. assert (k' = r) as -> by lia.
  destruct (rx_status _ _ _ T') as (_&->&_). case_bool_decide as He; wsteps; [by subst o|].
  rewrite (rx_o _ _ _ T'), (rx_n _ _ _ T'). rewrite (proj2 (Z.eqb_neq _ _)) by lia.
  apply (take_run o r); [done|lia|]. intros s1 T1. apply (IH (S o)); [done|lia].
Qed.

(** ** Starting a transaction *)

(** The control word of a transaction of [n] bytes. *)
Definition ctrl_word (stop : Z) (rx : bool) (n : Z) : Z :=
  Z.lor (Z.lor (Z.lor (Z.lor (Z.lor CTRL_PHASE_START CTRL_PHASE_ADDR) CTRL_PHASE_DATA) stop)
    (if rx then CTRL_DIR_MASTER_RX else CTRL_DIR_MASTER_TX)) (CTRL_DATACNT n).

Lemma ctrl_word_ok stop rx n : stop = CTRL_PHASE_STOP ∨ stop = 0 → (1 ≤ n ≤ 256)%nat →
  (let c := CTRL_DATACNT (ctrl_word stop rx (Z.of_nat n)) in if c =? 0 then 256 else c) = Z.of_nat n ∧
  has (ctrl_word stop rx (Z.of_nat n)) CTRL_DIR_MASTER_RX = rx.
Proof.
  intros Hs Hn. unfold ctrl_word, has, CTRL_DATACNT. rewrite !(Z.land_lor_distr_l _ (Z.land (Z.of_nat n) 255)).
  rewrite <- !Z.land_assoc. change (Z.land 255 255) with 255. change (Z.land 255 CTRL_DIR_MASTER_RX) with 0. rewrite Z.land_0_r, Z.lor_0_r.
  assert (Z.land (Z.of_nat n) 255 = Z.of_nat n mod 256) as -> by apply (Z.land_ones _ 8 ltac:(lia)).
  split; [|by destruct Hs as [-> | ->], rx].
  replace (Z.land _ 255) with 0 by (by destruct Hs as [-> | ->], rx). rewrite Z.lor_0_l. cbv zeta.
  destruct (decide (n = 256%nat)) as [->|]; [done|]. rewrite Z.mod_small by lia. by rewrite (proj2 (Z.eqb_neq _ _)) by lia.
Qed.

(** The state in which a transaction of [n] bytes has begun. *)
Definition started (stop : Z) (rx : bool) (n : nat) (s : i2c) : i2c :=
  let s := upd s ADDR (fld s slave_addr) in
  let s := upd s INTEN (Z.lor (Z.lor INTEN_CMPL INTEN_ARBLOSE) (if rx then INTEN_FIFOFULL else INTEN_FIFOEMPTY)) in
  upd (upd (upd s CTRL (ctrl_word stop rx (Z.of_nat n))) hw_count (Z.of_nat n)) hw_active 1.

Lemma master_start_run stop rx n s (Q : Z → i2c → Prop) : fld s dma_en = 0 → fld s hw_status = 0 → (1 ≤ n ≤ 256)%nat →
  (fld s state = I2C_STATE_MASTER_TX ∧ rx = false ∧ stop = CTRL_PHASE_STOP ∧ fld s tx_len = Z.of_nat n) ∨
  (fld s state = I2C_STATE_MASTER_TX_RX ∧ rx = false ∧ stop = 0 ∧ fld s tx_len = Z.of_nat n) ∨
  (fld s state = I2C_STATE_MASTER_RX ∧ rx = true ∧ stop = CTRL_PHASE_STOP ∧ fld s rx_len = Z.of_nat n) →
  Q 0 (started stop rx n s) → wp i2c_master_start s Q.
Proof.
  intros Hd Hh Hn Hst HQ. assert (stop = CTRL_PHASE_STOP ∨ stop = 0) as Hstop by naive_solver.
  destruct (ctrl_word_ok stop rx n Hstop Hn) as [Hc _]. cbv zeta in Hc.
  unfold i2c_master_start. wsteps. rewrite Hd. cbv zeta. change (0 =? 0) with true. cbv iota.
  destruct Hst as [(Hs&->&->&Hlen)|[(Hs&->&->&Hlen)|(Hs&->&->&Hlen)]]; rewrite Hs;
    cbv [I2C_STATE_MASTER_TX I2C_STATE_MASTER_TX_RX I2C_STATE_MASTER_RX]; cbn [Z.eqb Pos.eqb negb orb];
    unfold write_CTRL, write_CMD; wsteps; change (negb (0 =? 0)) with false; cbv iota; wsteps; rewrite Hlen; wsteps;
    change (CMD_MASTER_TRANS =? CMD_MASTER_TRANS) with true; cbv iota;
    rewrite !fld_upd_ne by done; rewrite Hh, cmd_law; change (negb (has 0 STATUS_CMPL)) with true; cbv iota;
    unfold started in HQ; rewrite <- Hc in HQ at 2; exact HQ.
Qed.

Lemma started_fld stop rx n s l :
  match l with ADDR | INTEN | CTRL | hw_count | hw_active => False | _ => True end → fld (started stop rx n s) l = fld s l.
Proof. intros Hl. unfold started. rewrite !fld_upd_ne by (intros Heq; by subst). done. Qed.

Lemma started_ctrl stop rx n s : fld (started stop rx n s) CTRL = ctrl_word stop rx (Z.of_nat n) ∧
  fld (started stop rx n s) INTEN = Z.lor (Z.lor INTEN_CMPL INTEN_ARBLOSE) (if rx then INTEN_FIFOFULL else INTEN_FIFOEMPTY).
Proof. unfold started. split; by rewrite !fld_upd_ne, fld_upd by done. Qed.

Lemma started_engine stop rx n s : (1 ≤ n)%nat → fld s hw_status = 0 → engine n 0 (started stop rx n s).
Proof.
  intros Hn Hh. split; rewrite ?decide_True by lia.
  - unfold started. rewrite fld_upd_ne, fld_upd by done. f_equal. lia.
  - unfold started. by rewrite fld_upd.
  - by rewrite started_fld.
Qed.

Lemma started_common c ns stop rx n s : common c ns s → common c ns (started stop rx n s).
Proof. intros C. unfold started. cbv zeta. by repeat (apply common_upd; [done|]). Qed.

Lemma started_tx (both : bool) stop s : stop = CTRL_PHASE_STOP ∨ stop = 0 → (1 ≤ length bs)%nat →
  common ch0 notes0 s → fld s hw_status = 0 → fld s state = (if both then I2C_STATE_MASTER_TX_RX else I2C_STATE_MASTER_TX) →
  tx_buf s = bs → fld s tx_len = Z.of_nat (length bs) → fld s tx_offset = 0 → fifo s = [] → wire_out s = out0 → wire_in s = in0 →
  rx_buf s = rb ∧ fld s ev1 = 0 ∧ (both = true → fld s rx_len = Z.of_nat r ∧ fld s rx_offset = 0) →
  tx_at both 0 0 (started stop false (length bs) s).
Proof.
  intros Hstop Hn C Hh S1 S2 S3 S4 F O I R.
  destruct (started_ctrl stop false (length bs) s) as [Hc Hi].
  split; rewrite ?started_fld by done; try done; try lia.
  - by apply started_common.
  - by apply started_engine.
  - change (wire_out s = out0 ++ ([] : list Z)). by rewrite app_nil_r.
  - rewrite Hc. apply ctrl_word_ok; [done|lia].
Qed.

Lemma started_rx s : (1 ≤ r)%nat → common ch1 notes1 s → fld s hw_status = 0 → fld s state = I2C_STATE_MASTER_RX →
  fld s rx_len = Z.of_nat r → fld s rx_offset = 0 → fifo s = [] → rx_buf s = rb → wire_out s = out0 ++ bs → wire_in s = in0 →
  fld s ev0 = Z.of_nat (length bs) → rx_at 0 0 (started CTRL_PHASE_STOP true r s).
Proof.
  intros Hr C Hh S1 S2 S3 F B O I V. destruct (started_ctrl CTRL_PHASE_STOP true r s) as [Hc Hi].
  split; rewrite ?started_fld by done; try done; try lia.
  - by apply started_common.
  - by apply started_engine.
  - rewrite Hc. apply ctrl_word_ok; [by left|lia].
Qed.

(** ** The end of a transfer *)

Record idle (s : i2c) : Prop := {
  id_role : fld s role = I2C_ROLE_MASTER;
  id_dma : fld s dma_en = 0;
  id_setup : has (fld s SETUP) SETUP_MASTER = true;
  id_cb : fld s cb ≠ 0;
  id_state : fld s state = I2C_STATE_MASTER_IDLE;
  id_inten : fld s INTEN = 0;
  id_active : fld s hw_active = 0;
  id_status : fld s hw_status = 0;
  id_fifo : fifo s = [];
}.

(** The client is told once, with both lengths; a DMA channel that the driver
    believes to hold is released. *)
Definition told : list note :=
  let cb := [NCallback I2C_EVENT_MASTER_TRANS_CMPL (Z.of_nat (length bs)) (Z.of_nat r)] in
  if decide (bs = []) then cb ++ released ch0 else released ch0 ++ cb.

Record done_at (s : i2c) : Prop := {
  dn_idle : idle s;
  dn_notes : notes s = notes0 ++ told;
  dn_ch : fld s dma_ch = no_ch ch0;
  dn_out : wire_out s = out0 ++ bs;
  dn_in : wire_in s = drop r in0;
  dn_buffer : rx_buf s = take r in0 ++ drop r rb;
}.

Definition release (s : i2c) : i2c :=
  if fld s dma_ch >=? 0 then upd (tell (NDmaRel (fld s dma_ch)) s) dma_ch (-1) else s.
Lemma release_run s (Q : unit → i2c → Prop) : Q () (release s) → wp release_dma s Q.
Proof. intros HQ. unfold release_dma. wsteps. unfold release in HQ. by destruct (_ >=? 0); wsteps. Qed.
Lemma release_fld s l : l ≠ dma_ch → fld (release s) l = fld s l.
Proof. intros. unfold release. destruct (_ >=? 0); [by rewrite fld_upd_ne|done]. Qed.
Lemma release_ch s : fld (release s) dma_ch = no_ch (fld s dma_ch).
Proof. unfold release, no_ch. destruct (fld s dma_ch >=? 0) eqn:E; [by rewrite fld_upd|done]. Qed.
Lemma release_lists s : notes (release s) = notes s ++ released (fld s dma_ch) ∧ tx_buf (release s) = tx_buf s ∧
  rx_buf (release s) = rx_buf s ∧ fifo (release s) = fifo s ∧ wire_out (release s) = wire_out s ∧ wire_in (release s) = wire_in s.
Proof. unfold release, released. destruct (_ >=? 0); repeat split; cbn; by rewrite ?app_nil_r. Qed.

Definition completed (s : i2c) : i2c :=
  upd (upd (tell (NCallback (fld s ev_type) (fld s ev0) (fld s ev1)) s) INTEN 0) state I2C_STATE_MASTER_IDLE.
Lemma cmpl_run s (Q : unit → i2c → Prop) : fld s role = I2C_ROLE_MASTER → fld s cb ≠ 0 → Q () (completed s) → wp i2c_cmpl s Q.
Proof.
  intros Hr Hcb HQ. unfold i2c_cmpl, run_cb. wsteps. rewrite (proj2 (Z.eqb_neq _ _) Hcb). wsteps. rewrite quiet. cbn [run_requests].
  wsteps. change (fld (tell _ s) role) with (fld s role). rewrite Hr. change (I2C_ROLE_MASTER =? I2C_ROLE_MASTER) with true. cbv iota.
  wsteps. exact HQ.
Qed.

(** The count that is read back when all bytes have moved. *)
Lemma count_read n s : engine n n s → CTRL_DATACNT (Z.lor (clear_bits 0xFF (fld s CTRL)) (fld s hw_count mod 256)) = 0.
Proof.
  intros E. rewrite (en_count _ _ _ E), Nat.sub_diag. change (Z.of_nat 0 mod 256) with 0. rewrite Z.lor_0_r.
  unfold CTRL_DATACNT, clear_bits. rewrite <- Z.land_assoc. apply Z.land_0_r.
Qed.

(** ** The interrupt handler *)

Lemma tx_ack both o k s : tx_at both o k s → tx_at both o k (upd s hw_status (fld s hw_status)).
Proof.
  intros [C E S1 S2 S3 S4 Hok Hroom F O I N D R]. split; rewrite ?fld_upd_ne by done; try done.
  - by apply common_upd.
  - destruct E. by split; rewrite ?fld_upd, ?fld_upd_ne by done.
Qed.
Lemma rx_ack o k s : rx_at o k s → rx_at o k (upd s hw_status (fld s hw_status)).
Proof.
  intros [C E S1 S2 S3 Hok Hroom F B O I N D V]. split; rewrite ?fld_upd_ne by done; try done.
  - by apply common_upd.
  - destruct E. by split; rewrite ?fld_upd, ?fld_upd_ne by done.
Qed.

(** Acknowledging a status without completion changes nothing. *)
Lemma ack_same n k1 s1 k2 s2 : engine n k1 s1 → (k1 < n)%nat → engine n k2 s2 →
  clear_bits (status_word s1) (fld s2 hw_status) = fld s2 hw_status.
Proof.
  intros E1 Hk E2. rewrite (engine_status _ _ _ E2).
  rewrite (ack_status s1 false); [done|]. by rewrite (engine_status _ _ _ E1), bool_decide_eq_false_2 by lia.
Qed.

Lemma fld_tell e s l : fld (tell e s) l = fld s l.
Proof. done. Qed.

(** Acknowledging a completion after the driver's own part of it. *)
Lemma idle_ack c ns s0 s : fld s0 hw_status = STATUS_CMPL → common c ns s → fld s hw_status = STATUS_CMPL → fld s hw_active = 0 →
  fld s state = I2C_STATE_MASTER_IDLE → fld s INTEN = 0 → fifo s = [] →
  idle (upd s hw_status (clear_bits (status_word s0) (fld s hw_status))).
Proof.
  intros Hs0 [C1 C2 C3 C4 C5 C6] Hh Ha Hs Hi Hf. split; rewrite ?fld_upd_ne by done; try done.
  rewrite fld_upd, Hh. by apply (ack_status s0 true true).
Qed.

Lemma completed_fld s l : l ≠ INTEN → l ≠ state → fld (completed s) l = fld s l.
Proof. intros. unfold completed. by rewrite !fld_upd_ne, fld_tell. Qed.
Lemma completed_off s : fld (completed s) state = I2C_STATE_MASTER_IDLE ∧ fld (completed s) INTEN = 0.
Proof. unfold completed. by rewrite fld_upd, fld_upd_ne, fld_upd by done. Qed.
Lemma completed_common c ns s : common c ns s →
  common c (ns ++ [NCallback (fld s ev_type) (fld s ev0) (fld s ev1)]) (completed s).
Proof. intros [C1 C2 C3 C4 C5 C6]. split; rewrite ?completed_fld by done; try done. cbn. by rewrite C6. Qed.

(** All bytes are on the wire and a channel has been released. *)
Record sent (both : bool) (s : i2c) : Prop := {
  se_common : common (no_ch ch0) (notes0 ++ released ch0) s;
  se_status : fld s hw_status = STATUS_CMPL;
  se_active : fld s hw_active = 0;
  se_state : fld s state = if both then I2C_STATE_MASTER_TX_RX else I2C_STATE_MASTER_TX;
  se_fifo : fifo s = [];
  se_buffer : rx_buf s = rb;
  se_out : wire_out s = out0 ++ bs;
  se_in : wire_in s = in0;
  se_ev : fld s ev0 = Z.of_nat (length bs) ∧ fld s ev1 = 0;
  se_rx : both = true → fld s rx_len = Z.of_nat r ∧ fld s rx_offset = 0;
}.

Lemma tx_sent both s : tx_at both (length bs) (length bs) s → sent both (release (upd s ev0 (Z.of_nat (length bs)))).
Proof.
  intros [[C1 C2 C3 C4 C5 C6] E S1 S2 S3 S4 Hok Hroom F O I N D (R1&R2&R3)].
  set (t := upd s ev0 _). destruct (release_lists t) as (L1&_&L3&L4&L5&L6).
  assert (∀ l, l ≠ ev0 → l ≠ dma_ch → fld (release t) l = fld s l) as Hf.
  { intros l Hl1 Hl2. rewrite release_fld by done. unfold t. by rewrite fld_upd_ne by done. }
  rewrite Nat.sub_diag in F. rewrite firstn_all in O.
  split; rewrite ?Hf, ?L3, ?L4, ?L5, ?L6 by done; try done.
  - split; rewrite ?Hf by done; try done.
    + rewrite release_ch, <- C5. unfold t. by rewrite fld_upd_ne.
    + rewrite L1, <- C5, <- C6. unfold t. by rewrite fld_upd_ne.
  - by rewrite (en_status _ _ _ E), decide_False by lia.
  - by rewrite (en_active _ _ _ E), decide_False by lia.
  - split; [rewrite release_fld by done; apply fld_upd|by rewrite Hf].
Qed.

(** The second half of a combined transfer begins. *)
Lemma sent_next s : bs ≠ [] → (1 ≤ r)%nat → sent true s →
  wp (write_STATUS STATUS_CMPL;; st state I2C_STATE_MASTER_RX;; i2c_master_start;; mret true) s (λ b s', b = true ∧ rx_at 0 0 s').
Proof.
  intros Hbs Hr [[C1 C2 C3 C4 C5 C6] Hst Ha S F B O I [V1 V2] R]. destruct (R eq_refl) as [R1 R2].
  unfold write_STATUS. wsteps. rewrite Hst. change (clear_bits STATUS_CMPL STATUS_CMPL) with 0.
  apply (master_start_run CTRL_PHASE_STOP true r); rewrite ?fld_upd_ne, ?fld_upd by done; try done; try lia.
  { right. right. rewrite !fld_upd_ne by done. done. }
  wsteps. split; [done|]. apply started_rx; rewrite ?fld_upd_ne, ?fld_upd by done; rewrite ?fld_upd_ne by done; try done.
  split; rewrite ?fld_upd_ne by done; try done.
  - unfold ch1. by rewrite decide_False.
  - unfold notes1. by rewrite decide_False.
Qed.

(** The client is told. *)
Lemma sent_done s0 s : bs ≠ [] → r = 0%nat → fld s0 hw_status = STATUS_CMPL → sent false s →
  wp (st ev_type I2C_EVENT_MASTER_TRANS_CMPL;; i2c_cmpl;; mret false) s
    (λ b s', b = false ∧ done_at (upd s' hw_status (clear_bits (status_word s0) (fld s' hw_status)))).
Proof.
  intros Hbs Hr Hs0 [C Hst Ha S F B O I [V1 V2] _]. pose proof C as [C1 C2 C3 C4 C5 C6].
  wsteps. apply cmpl_run; rewrite ?fld_upd_ne by done; try done. wsteps. set (u := upd s ev_type _).
  assert (∀ l, l ≠ ev_type → fld u l = fld s l) as Hu by (intros; unfold u; by rewrite fld_upd_ne).
  destruct (completed_off u) as [Q1 Q2]. split; [done|].
  split; [| |rewrite ?fld_upd_ne, ?completed_fld, ?Hu by done; try done; by rewrite Hr..].
  - eapply idle_ack; [done|by apply completed_common, common_upd|rewrite ?completed_fld, ?Hu by done; done..].
  - transitivity (notes s ++ [NCallback (fld u ev_type) (fld u ev0) (fld u ev1)]); [done|].
    rewrite C6, <- app_assoc. f_equal. unfold told. rewrite decide_False by done. rewrite (Hu ev0), (Hu ev1), V1, V2, Hr by done.
    unfold u. by rewrite fld_upd.
Qed.

(** The end of sending, from the interrupt handler. *)
Lemma tx_finish both s0 s : (1 ≤ length bs)%nat → (if both : bool then 1 ≤ r else r = 0)%nat →
  fld s0 hw_status = STATUS_CMPL → tx_at both (length bs) (length bs) s →
  wp (v ← read_CTRL; n ← ld tx_len; st ev0 (s32 (n - CTRL_DATACNT v));; release_dma;;
      sta ← ld state;
      if sta =? I2C_STATE_MASTER_TX_RX then write_STATUS STATUS_CMPL;; st state I2C_STATE_MASTER_RX;; i2c_master_start;; mret true
      else st ev_type I2C_EVENT_MASTER_TRANS_CMPL;; i2c_cmpl;; mret false) s
    (λ done s', wp (if (done : bool) then mret 0 else write_STATUS (status_word s0);; mret 0) s'
       (λ _ s', if both then rx_at 0 0 s' else done_at s')).
Proof.
  intros Hn Hr Hs0 T. assert (bs ≠ []) as Hbs by (intros ->; cbn in Hn; lia).
  unfold read_CTRL. wsteps. rewrite (count_read _ _ (tx_engine _ _ _ _ T)), (tx_n _ _ _ _ T), Z.sub_0_r, s32_id by lia.
  apply release_run. apply tx_sent in T. wstep. wstep. rewrite (se_state _ _ T). destruct both.
  - change (I2C_STATE_MASTER_TX_RX =? I2C_STATE_MASTER_TX_RX) with true. cbv iota.
    eapply wp_mono; [by apply sent_next|]. by intros b s' [-> ?].
  - change (I2C_STATE_MASTER_TX =? I2C_STATE_MASTER_TX_RX) with false. cbv iota.
    eapply wp_mono; [by apply (sent_done s0)|]. by intros b s' [-> ?].
Qed.

Lemma pending_bits s (c b : bool) : fld s hw_status = (if c then STATUS_CMPL else 0) →
  fld s INTEN = Z.lor (Z.lor INTEN_CMPL INTEN_ARBLOSE) (if b then INTEN_FIFOEMPTY else INTEN_FIFOFULL) →
  irq_pending s = c || has (status_word s) (if b then STATUS_FIFOEMPTY else STATUS_FIFOFULL).
Proof.
  intros E1 E2. unfold irq_pending, status_word, fifo_flags. rewrite E1, E2.
  by destruct c, b, (decide (fifo s = [])), (decide (length (fifo s) < ATCI2C_FIFO_SIZE)%nat).
Qed.

Lemma tx_pending both o k s : tx_at both o k s → irq_pending s = bool_decide (length bs ≤ k)%nat || bool_decide (k = o).
Proof.
  intros T. rewrite (pending_bits s _ true (engine_status _ _ _ (tx_engine _ _ _ _ T)) (tx_inten _ _ _ _ T)).
  by destruct (tx_status _ _ _ _ T) as (_&->&_).
Qed.
Lemma rx_pending o k s : rx_at o k s → irq_pending s = bool_decide (r ≤ k)%nat || bool_decide (k - o = 4)%nat.
Proof.
  intros T. rewrite (pending_bits s _ false (engine_status _ _ _ (rx_engine _ _ _ T)) (rx_inten _ _ _ T)).
  by destruct (rx_status _ _ _ T) as (_&_&->).
Qed.

Lemma irq_tx both o k s : (1 ≤ length bs)%nat → (if both : bool then 1 ≤ r else r = 0)%nat →
  tx_at both o k s → irq_pending s = true →
  wp (i2c_irq 256) s (λ _ s',
    (∃ o' k', tx_at both o' k' s' ∧ (k ≤ k')%nat ∧ (o < o')%nat) ∨ (if both then rx_at 0 0 s' else done_at s')).
Proof.
  intros Hn Hr T Hp. rewrite (tx_pending _ _ _ _ T) in Hp. apply orb_true_iff in Hp. rewrite !bool_decide_eq_true in Hp.
  pose proof (tx_ok _ _ _ _ T) as Hok.
  unfold i2c_irq. wstep. apply (wp_STATUS_tx both o k); [done|]. intros k1 s1 Hk1 T1. wstep. wstep.
  pose proof (tx_ok _ _ _ _ T1) as Hok1. destruct (tx_status _ _ _ _ T1) as (B1&B2&_).
  replace ((fld s1 state =? I2C_STATE_MASTER_TX) || (fld s1 state =? I2C_STATE_MASTER_TX_RX)) with true
    by (rewrite (tx_state _ _ _ _ T1); by destruct both). cbv iota.
  unfold master_tx_irq. wstep. wstep. wstep. rewrite (co_dma _ _ _ (tx_common _ _ _ _ T1)), B1, B2. wstep.
  assert (wp (if bool_decide (k1 = o) && (0 =? 0) then fill 256 else mret ()) s1 (λ _ s', ∃ o' k', tx_at both o' k' s' ∧
    (k1 ≤ k')%nat ∧ (o ≤ o')%nat ∧ ((o < length bs)%nat → k1 = o → (o < o')%nat))) as W.
  { change (0 =? 0) with true. rewrite andb_true_r. case_bool_decide.
    - eapply wp_mono; [apply (fill_run both 256 o k1); [done|lia|lia]|]. naive_solver.
    - wsteps. exists o, k1. split; [done|]. lia. }
  eapply wp_mono; [exact W|]. intros [] s2 (o2&k2&T2&Hk2&Ho2&Hlt). pose proof (tx_ok _ _ _ _ T2) as Hok2.
  clear W B1 B2. case_bool_decide as Hc.
  - assert (o2 = length bs) as -> by lia. assert (k2 = length bs) as -> by lia.
    assert (fld s1 hw_status = STATUS_CMPL) as Hs1 by by rewrite (en_status _ _ _ (tx_engine _ _ _ _ T1)), decide_False by lia.
    eapply wp_mono; [exact (tx_finish both s1 s2 Hn Hr Hs1 T2)|]. cbv beta. intros b s3 W3. eapply wp_mono; [exact W3|]. by right.
  - unfold write_STATUS. wsteps. left. exists o2, k2. assert (k1 < length bs)%nat as Hk by lia.
    rewrite (ack_same _ _ _ _ _ (tx_engine _ _ _ _ T1) Hk (tx_engine _ _ _ _ T2)). split; [by apply tx_ack|].
    specialize (Hlt ltac:(lia) ltac:(lia)). lia.
Qed.

Lemma released_no_ch c : released (no_ch c) = [].
Proof. unfold released, no_ch. destruct (c >=? 0) eqn:E; [done|]. by rewrite E. Qed.
Lemma notes_told :
  (notes1 ++ [NCallback I2C_EVENT_MASTER_TRANS_CMPL (Z.of_nat (length bs)) (Z.of_nat r)]) ++ released ch1 = notes0 ++ told.
Proof.
  unfold notes1, ch1, told. case_decide; [by rewrite <- app_assoc|].
  by rewrite released_no_ch, app_nil_r, <- !app_assoc.
Qed.

(** The end of receiving: the client is told. *)
Lemma rx_done s0 s : fld s0 hw_status = STATUS_CMPL → rx_at r r s →
  wp (st ev_type I2C_EVENT_MASTER_TRANS_CMPL;; n ← ld rx_len; st ev1 (s32 (n - 0))) s (λ _ s1, wp (i2c_cmpl;; release_dma) s1
    (λ _ s', done_at (upd s' hw_status (clear_bits (status_word s0) (fld s' hw_status))))).
Proof.
  intros Hs0 [C E S1 S2 S3 Hok Hroom F B O I N D V]. pose proof C as [C1 C2 C3 C4 C5 C6].
  wsteps. rewrite fld_upd_ne, S2, Z.sub_0_r, s32_id by (done || lia). set (u := upd (upd s ev_type _) ev1 _).
  assert (∀ l, l ≠ ev_type → l ≠ ev1 → fld u l = fld s l) as Hu by (intros; unfold u; by rewrite !fld_upd_ne).
  apply cmpl_run; rewrite ?Hu by done; try done. apply release_run. wsteps. destruct (completed_off u) as [Q1 Q2].
  set (w := completed u) in *. destruct (release_lists w) as (L1&_&L3&L4&L5&L6).
  assert (∀ l, l ≠ ev_type → l ≠ ev1 → l ≠ INTEN → l ≠ state → fld w l = fld s l) as Hw.
  { intros. unfold w. rewrite completed_fld, Hu by done. done. }
  rewrite Nat.sub_diag in F.
  assert (common (no_ch ch1) (notes w ++ released ch1) (release w)) as Cw.
  { split; rewrite ?release_ch, ?release_fld, ?Hw, ?C5 by done; try done. rewrite L1, Hw, C5 by done. done. }
  split; rewrite ?fld_upd_ne by done.
  - eapply idle_ack; [done|exact Cw|rewrite ?release_fld, ?Hw, ?L4 by done; try done..].
    + by rewrite (en_status _ _ _ E), decide_False by lia.
    + by rewrite (en_active _ _ _ E), decide_False by lia.
  - rewrite <- notes_told. transitivity (notes (release w)); [done|]. rewrite (co_notes _ _ _ Cw). f_equal.
    transitivity (notes s ++ [NCallback (fld u ev_type) (fld u ev0) (fld u ev1)]); [done|].
    rewrite C6, (Hu ev0), V by done. unfold u. by rewrite fld_upd, fld_upd_ne, fld_upd by done.
  - rewrite release_ch, Hw, C5 by done. unfold ch1, no_ch. destruct (decide _), (ch0 >=? 0) eqn:Hz; try done. by rewrite Hz.
  - cbn. rewrite L5. exact O.
  - cbn. rewrite L6. exact I.
  - cbn. rewrite L3. exact B.
Qed.

Lemma irq_rx o k s : rx_at o k s → irq_pending s = true →
  wp (i2c_irq 256) s (λ _ s', (∃ o' k', rx_at o' k' s' ∧ (k ≤ k')%nat ∧ (o < o')%nat) ∨ done_at s').
Proof.
  intros T Hp. rewrite (rx_pending _ _ _ T) in Hp. apply orb_true_iff in Hp. rewrite !bool_decide_eq_true in Hp.
  pose proof (rx_ok _ _ _ T) as Hok.
  unfold i2c_irq. wstep. apply (wp_STATUS_rx o k); [done|]. intros k1 s1 Hk1 T1. wstep. wstep.
  pose proof (rx_ok _ _ _ T1) as Hok1. pose proof (rx_room _ _ _ T1) as Hrm1. destruct (rx_status _ _ _ T1) as (B1&_&B2).
  rewrite (rx_state _ _ _ T1). change (_ || _) with false. change (I2C_STATE_MASTER_RX =? I2C_STATE_MASTER_RX) with true. cbv iota.
  unfold master_rx_irq. wstep. wstep. wstep. wstep. rewrite (co_dma _ _ _ (rx_common _ _ _ T1)), B1, B2. wstep.
  assert (wp (if bool_decide (k1 - o = 4)%nat && (0 =? 0) then empty_fifo 256 else mret ()) s1 (λ _ s', ∃ o' k', rx_at o' k' s' ∧
    (k1 ≤ k')%nat ∧ (o ≤ o')%nat ∧ ((k1 - o = 4)%nat → (o < o')%nat))) as W.
  { change (0 =? 0) with true. rewrite andb_true_r. clear B1 B2. case_bool_decide.
    - eapply wp_mono; [apply (empty_fifo_run 256 o k1); [done|lia|lia]|]. intros [] s' (o'&k'&?&?&?&?). exists o', k'. split; [done|]. lia.
    - wsteps. exists o, k1. split; [done|]. lia. }
  eapply wp_mono; [exact W|]. intros [] s2 (o2&k2&T2&Hk2&Ho2&Hlt). pose proof (rx_ok _ _ _ T2) as Hok2.
  clear W B1 B2. case_bool_decide as Hc.
  - assert (k2 = r) as -> by lia.
    assert (fld s1 hw_status = STATUS_CMPL) as Hs1 by by rewrite (en_status _ _ _ (rx_engine _ _ _ T1)), decide_False by lia.
    unfold read_CTRL. wsteps. change (0 =? 0) with true. cbv iota. rewrite (count_read _ _ (rx_engine _ _ _ T2)). wstep.
    eapply wp_mono; [apply (drain_run 256 o2); [done|lia]|]. intros [] s3 T3.
    eapply wp_mono; [by apply (rx_done s1)|]. cbv beta. intros [] s4 W4. eapply wp_mono; [exact W4|]. intros [] s5 D5.
    unfold write_STATUS. wsteps. by right.
  - unfold write_STATUS. wsteps. left. exists o2, k2. assert (k1 < r)%nat as Hk by lia.
    rewrite (ack_same _ _ _ _ _ (rx_engine _ _ _ T1) Hk (rx_engine _ _ _ T2)). split; [by apply rx_ack|]. lia.
Qed.

(** ** Progress *)

(** How far the end is away. *)
Inductive phase (both : bool) : nat → i2c → Prop :=
| PTx o k s : (1 ≤ length bs)%nat → (if both then 1 ≤ r else r = 0)%nat → tx_at both o k s →
    phase both (2 * length bs - o - k + if both then 2 * r + 2 else 1) s
| PRx o k s : rx_at o k s → phase both (2 * r - o - k + 1) s
| PDone s : done_at s → phase both 0 s.

Lemma phase_0 both s : phase both 0 s → done_at s.
Proof. inversion 1; [destruct both; lia|lia|done]. Qed.

Lemma done_quiet s : done_at s → irq_pending s = false ∧ hw_byte s = s.
Proof.
  intros [[D1 D2 D3 D4 D5 D6 D7 D8 D9] E1 E2 E3 E4 E5]. unfold irq_pending, hw_byte, has. by rewrite D6, Z.land_0_r, D7.
Qed.

(** A byte has its turn: something moves, or an interrupt is pending, or all is done. *)
Lemma byte_step both m s : phase both m s → ∃ m', phase both m' (hw_byte s) ∧
  ((m' < m)%nat ∨ m' = m ∧ (m = 0%nat ∨ irq_pending (hw_byte s) = true)).
Proof.
  intros [o k s' Hn Hr T|o k s' T|s' D].
  - pose proof (tx_ok _ _ _ _ T) as Hok. pose proof (tx_byte _ _ _ _ T) as T'. eexists. split; [exact (PTx _ _ _ _ Hn Hr T')|].
    rewrite (tx_pending _ _ _ _ T'). case_decide; [left; lia|]. right. split; [lia|]. right.
    rewrite orb_true_iff, !bool_decide_eq_true. lia.
  - pose proof (rx_ok _ _ _ T) as Hok. pose proof (rx_byte _ _ _ T) as T'. eexists. split; [exact (PRx _ _ _ _ T')|].
    pose proof (rx_room _ _ _ T). rewrite (rx_pending _ _ _ T'). case_decide; [left; lia|]. right. split; [lia|]. right.
    rewrite orb_true_iff, !bool_decide_eq_true. lia.
  - exists 0%nat. rewrite (proj2 (done_quiet _ D)). split; [by constructor|lia].
Qed.

Lemma irq_step both m s : phase both m s → wp (act_run AIrq) s (λ _ s', ∃ m', phase both m' s' ∧ (m' ≤ m)%nat ∧
  (irq_pending s = true → (m' < m)%nat)).
Proof.
  intros P. unfold act_run. wsteps. destruct (irq_pending s) eqn:Hp; [|wsteps; exists m; split; [done|lia]].
  destruct P as [o k s Hn Hr T|o k s T|s D]; [| |by rewrite (proj1 (done_quiet _ D)) in Hp].
  - pose proof (tx_ok _ _ _ _ T) as Hok.
    wstep. eapply wp_mono; [by apply (irq_tx both o k)|]. intros z s' [(o'&k'&T'&Hk&Ho)|T'].
    + wsteps. pose proof (tx_ok _ _ _ _ T'). eexists. split; [by econstructor|]. lia.
    + destruct both; wsteps; eexists; split; [exact (PRx _ _ _ _ T')|lia|exact (PDone _ _ T')|lia].
  - pose proof (rx_ok _ _ _ T) as Hok. wstep. eapply wp_mono; [by apply (irq_rx o k)|]. intros z s' [(o'&k'&T'&Hk&Ho)|T']; wsteps.
    + pose proof (rx_ok _ _ _ T'). eexists. split; [by apply (PRx both)|]. lia.
    + eexists. split; [exact (PDone _ _ T')|]. lia.
Qed.

Lemma acts_progress both l seen m s : phase both m s → (seen = true → m = 0%nat ∨ irq_pending s = true) →
  wp (acts_run l) s (λ _ s', ∃ m', phase both m' s' ∧ (m' ≤ m - rounds_from seen l)%nat).
Proof.
  revert seen m s. induction l as [|[] l IH]; intros seen m s P Hs; cbn [acts_run rounds_from].
  - wsteps. exists m. split; [done|lia].
  - unfold act_run. wsteps. destruct (byte_step _ _ _ P) as (m'&P'&Hm). pose proof (rounds_seen l).
    destruct Hm as [Hm|[-> Hm]]; [|by apply IH].
    eapply wp_mono; [by apply (IH false m')|]. intros [] s' (m2&P2&Hm2). exists m2. split; [done|lia].
  - wstep. eapply wp_mono; [by apply (irq_step both m)|]. cbv beta. intros [] s1 (m1&P1&Hle&Hlt).
    eapply wp_mono; [by apply (IH false m1)|]. intros [] s' (m2&P2&Hm2). exists m2. split; [done|].
    destruct seen; [|lia]. destruct (Hs eq_refl) as [->|Hp]; [lia|]. specialize (Hlt Hp). lia.
Qed.

(** ** The three requests *)

Record from (s : i2c) : Prop := {
  fr_idle : idle s;
  fr_out : wire_out s = out0;
  fr_in : wire_in s = in0;
  fr_notes : notes s = notes0;
  fr_ch : fld s dma_ch = ch0;
}.

Ltac start D := destruct D as [[D1 D2 D3 D4 D5 D6 D7 D8 D9] E1 E2 E3 E4];
  rewrite ?bad_len_ok by lia; wsteps.

Lemma start_tx addr a s : (1 ≤ length bs)%nat → r = 0%nat → rx_buf s = rb → from s →
  wp (atci2c_i2c_master_tx addr a bs (Z.of_nat (length bs))) s (λ v s', v = 0 ∧ tx_at false 0 0 s').
Proof.
  intros Hn Hr Hrb D. unfold atci2c_i2c_master_tx. start D.
  apply (master_start_run CTRL_PHASE_STOP false (length bs)); [exact D2|exact D8|lia|by left|].
  split; [done|]. apply started_tx; [by left|done|by split|done..].
Qed.

Lemma start_tx_rx addr a ra s : (1 ≤ length bs)%nat → (1 ≤ r)%nat → from s →
  wp (atci2c_i2c_master_tx_rx addr a bs (Z.of_nat (length bs)) ra rb (Z.of_nat r)) s (λ v s', v = 0 ∧ tx_at true 0 0 s').
Proof.
  intros Hn Hr D. unfold atci2c_i2c_master_tx_rx. start D.
  apply (master_start_run 0 false (length bs)); [exact D2|exact D8|lia|by right; left|].
  split; [done|]. apply started_tx; [by right|done|by split|done..].
Qed.

Lemma start_rx addr ra s : bs = [] → (1 ≤ r)%nat → from s →
  wp (atci2c_i2c_master_rx addr ra rb (Z.of_nat r)) s (λ v s', v = 0 ∧ rx_at 0 0 s').
Proof.
  intros Hbs Hr D. unfold atci2c_i2c_master_rx. start D.
  apply (master_start_run CTRL_PHASE_STOP true r); [exact D2|exact D8|lia|by right; right|].
  split; [done|]. apply started_rx; try done.
  - unfold ch1, notes1. rewrite !decide_True by done. by split.
  - rewrite Hbs, app_nil_r. exact E1.
  - by rewrite Hbs.
Qed.
End Master.

(** ** Transfers *)

Inductive transfer := TTx (bs : list Z) | TRx (rb : list Z) (r : nat) | TTxRx (bs rb : list Z) (r : nat).

Definition sends (t : transfer) : list Z := match t with TTx bs | TTxRx bs _ _ => bs | TRx _ _ => [] end.
Definition receives (t : transfer) : nat := match t with TRx _ r | TTxRx _ _ r => r | TTx _ => 0 end.
(** The buffer that receives: the driver keeps the one of an earlier transfer. *)
Definition buffer (t : transfer) (s : i2c) : list Z := match t with TRx rb _ | TTxRx _ rb _ => rb | TTx _ => rx_buf s end.

Definition transfer_ok (t : transfer) : Prop :=
  match t with
  | TTx bs => 1 ≤ length bs ≤ 256
  | TRx rb r => 1 ≤ r ≤ 256 ∧ r ≤ length rb
  | TTxRx bs rb r => 1 ≤ length bs ≤ 256 ∧ 1 ≤ r ≤ 256 ∧ r ≤ length rb
  end%nat.

Section Transfers.
Context `{!I2cHw, !I2cDma, !I2cClient}.

Definition transfer_run (addr a ra : Z) (t : transfer) : M i2c Z :=
  match t with
  | TTx bs => atci2c_i2c_master_tx addr a bs (Z.of_nat (length bs))
  | TRx rb r => atci2c_i2c_master_rx addr ra rb (Z.of_nat r)
  | TTxRx bs rb r => atci2c_i2c_master_tx_rx addr a bs (Z.of_nat (length bs)) ra rb (Z.of_nat r)
  end.

(** What the sections above ask of the lengths. *)
Lemma transfer_len t s : transfer_ok t →
  (length (sends t) ≤ 256 ∧ receives t ≤ 256 ∧ receives t ≤ length (buffer t s))%nat.
Proof. destruct t; cbn; lia. Qed.

(** The transfer starts. *)
Lemma transfer_start addr a ra t s : (∀ st, takes_command st = negb (has st STATUS_CMPL)) →
  transfer_ok t → (receives t ≤ length (wire_in s))%nat → idle s →
  wp (transfer_run addr a ra t) s (λ v s', v = 0 ∧ ∃ both m,
    phase (wire_out s) (wire_in s) (notes s) (fld s dma_ch) (sends t) (buffer t s) (receives t) both m s' ∧
    (m ≤ 2 * (length (sends t) + receives t) + 2)%nat).
Proof.
  intros Hcmd Hok Hin D. destruct (transfer_len t s Hok) as (L1&L2&L3).
  destruct t as [bs|rb r|bs rb r]; cbn [transfer_run transfer_ok sends receives buffer] in *.
  - eapply wp_mono; [apply (start_tx Hcmd (wire_out s) (wire_in s) (notes s) (fld s dma_ch) bs (rx_buf s) 0); (lia || done || by split)|].
    intros v s' [-> T]. split; [done|]. exists false. eexists. split; [apply (PTx _ _ _ _ _ _ _ false 0 0); (lia || done)|]. lia.
  - eapply wp_mono; [apply (start_rx Hcmd (wire_out s) (wire_in s) (notes s) (fld s dma_ch) [] rb r); (cbn; lia || done || by split)|].
    intros v s' [-> T]. split; [done|]. exists false. eexists. split; [by apply (PRx _ _ _ _ _ _ _ false 0 0)|]. lia.
  - eapply wp_mono; [apply (start_tx_rx Hcmd (wire_out s) (wire_in s) (notes s) (fld s dma_ch) bs rb r); (lia || done || by split)|].
    intros v s' [-> T]. split; [done|]. exists true. eexists. split; [apply (PTx _ _ _ _ _ _ _ true 0 0); (lia || done)|]. lia.
Qed.

(** C10: a transfer of a master without DMA (sending, receiving or both, of up to
    256 bytes each way) that the slave acknowledges moves exactly the bytes that
    were asked for.  The bus has no other master and the slave acknowledges the
    address and every byte; under this condition, whatever the order in which
    bytes move and interrupts come, and however many bytes move between two
    readings of the status register: no operation fails; and once an interrupt
    was served after a turn of the bus often enough, the bytes of the caller are
    on the wire in their order, the next bytes of the wire are in the buffer, the
    client has been told once with both lengths, and the driver is idle as
    before.  Further conditions: the driver is idle and DMA is off when the
    transfer starts; the controller takes no command while a completion is not
    acknowledged, on which the code relies (it writes one too many); and the
    client starts nothing from its function (what it starts there is forgotten). *)
Theorem i2c_master_transfer_exact addr a ra t l s :
  (∀ st, takes_command st = negb (has st STATUS_CMPL)) → (∀ ty a b, on_event ty a b = []) →
  transfer_ok t → (receives t ≤ length (wire_in s))%nat → Forall (λ b, 0 ≤ b < 256) (wire_in s) → idle s →
  wp (v ← transfer_run addr a ra t; acts_run l;; mret v) s (λ v s', v = 0 ∧
    ((2 * (length (sends t) + receives t) + 2 ≤ rounds l)%nat →
     done_at (wire_out s) (wire_in s) (notes s) (fld s dma_ch) (sends t) (buffer t s) (receives t) s')).
Proof.
  intros Hcmd Hq Hok Hin Hb D. destruct (transfer_len t s Hok) as (L1&L2&L3). wstep.
  eapply wp_mono; [by apply transfer_start|]. intros v s1 [-> (both&m&P&Hm)]. wstep.
  eapply wp_mono; [eapply (acts_progress Hcmd Hq) with (seen := false); [..|exact P|done]; done|]. intros [] s2 (m2&P2&Hm2). wstep.
  split; [done|]. intros Hr. unfold rounds in Hr. assert (m2 = 0%nat) as -> by lia. by apply phase_0 in P2.
Qed.
End Transfers.

(** ** Setting up *)

Lemma has_BIT v n : 0 ≤ n → has v (BIT n) = Z.testbit v n.
Proof. intros Hn. unfold has. by rewrite land_BIT_zero, negb_involutive. Qed.

(** A master without DMA is idle when it is configured. *)
Lemma configure_idle `{!I2cHw} cfg pins tpm timing c s : c_role cfg = I2C_ROLE_MASTER → c_dma_en cfg = 0 → c ≠ 0 →
  wp (atci2c_i2c_configure cfg pins tpm timing c) s (λ v s', v = 0 ∧ idle s').
Proof.
  intros Hr Hd Hc. unfold atci2c_i2c_configure, config_timing, write_CMD. rewrite Hr, Hd. wsteps.
  change (negb (0 =? 0)) with false. cbn [andb]. change (I2C_ROLE_MASTER =? I2C_ROLE_MASTER) with true. cbv iota zeta. wsteps.
  split; [done|]. split; try done.
  transitivity (has (Z.lor (let v := Z.lor (clear_bits SETUP_DMA_EN (Z.lor (clear_bits SETUP_TIMING (clear_bits SETUP_IICEN (fld s SETUP))) timing)) SETUP_MASTER in
    if c_addr_len cfg =? I2C_ADDR_LEN_10BIT then Z.lor v SETUP_ADDR_LEN_10BIT else clear_bits SETUP_ADDR_LEN_10BIT v) SETUP_IICEN) SETUP_MASTER); [done|].
  unfold SETUP_MASTER at 2. rewrite has_BIT by done. cbv zeta. unfold clear_bits.
  destruct (_ =? _); by rewrite !Z.lor_spec, ?Z.land_spec, ?Z.lor_spec, ?orb_true_r.
Qed.

(** ** Looking for a slave *)

Lemma no_byte s : outgoing s = true → fifo s = [] → hw_byte s = s.
Proof. intros Ho Hf. unfold hw_byte. rewrite Ho, Hf. by destruct (_ =? 0). Qed.
Lemma no_bytes n s : outgoing s = true → fifo s = [] → hw_bytes n s = s.
Proof. intros Ho Hf. induction n as [|n IH]; [done|]. transitivity (hw_byte (hw_bytes n s)); [done|]. by rewrite IH, no_byte. Qed.

(** Reading the status while nothing moves. *)
Lemma wp_STATUS_still s (Q : Z → i2c → Prop) : outgoing s = true → fifo s = [] →
  Q (status_word s) (set_steps (tail (steps s)) s) → wp read_STATUS s Q.
Proof. intros Ho Hf HQ. unfold read_STATUS. wsteps. by rewrite no_bytes by done. Qed.

(** A probe tells whether the address was acknowledged, and leaves the driver idle. *)
Lemma master_probe_correct `{!I2cHw} addr answer s : (∀ st, takes_command st = negb (has st STATUS_CMPL)) → idle s →
  wp (atci2c_i2c_master_probe 1 addr answer) s (λ v s', v = (0, if answer then 1 else 0) ∧ idle s' ∧
    wire_out s' = wire_out s ∧ wire_in s' = wire_in s ∧ notes s' = notes s).
Proof.
  intros Hcmd [D1 D2 D3 D4 D5 D6 D7 D8 D9]. unfold atci2c_i2c_master_probe, write_CTRL, write_CMD. wsteps.
  rewrite D1. change (negb _) with false. cbv iota. wsteps. change (CMD_MASTER_TRANS =? CMD_MASTER_TRANS) with true. cbv iota.
  rewrite !fld_upd_ne, D8, Hcmd by done. change (negb (has 0 STATUS_CMPL)) with true. cbv iota. set (u := upd _ hw_active 1).
  assert (outgoing u = true) as Hu by (rewrite outgoing_master; [reflexivity|exact D3]).
  assert (status_word u = STATUS_FIFOEMPTY) as Hs.
  { unfold status_word, fifo_flags. change (fld u hw_status) with (fld s hw_status). change (fifo u) with (fifo s). by rewrite D8, D9. }
  cbn [poll_cmpl]. wstep. apply wp_STATUS_still; [done|exact D9|]. rewrite Hs. change (has STATUS_FIFOEMPTY STATUS_CMPL) with false. cbv iota.
  wsteps. set (w := hw_answer answer _).
  assert (w = upd (finish (set_steps (tail (steps u)) u)) hw_status (Z.lor STATUS_CMPL (if answer then STATUS_ACK else 0))) as Hw.
  { unfold w, hw_answer. change (fld (set_steps _ u) hw_active) with 1. change (fld (set_steps _ u) hw_status) with (fld s hw_status). by rewrite D8. }
  apply wp_STATUS_still; [by rewrite Hw|rewrite Hw; exact D9|].
  assert (status_word w = Z.lor (Z.lor STATUS_CMPL (if answer then STATUS_ACK else 0)) STATUS_FIFOEMPTY) as ->.
  { unfold status_word, fifo_flags. rewrite Hw, fld_upd. change (fifo _) with (fifo s). by rewrite D9. }
  replace (has _ STATUS_CMPL) with true by by destruct answer. wsteps. unfold write_STATUS. wsteps.
  split; [by destruct answer|]. rewrite Hw. split; [|done]. split; try done.
  rewrite fld_upd. change (fld (set_steps _ _) hw_status) with (Z.lor STATUS_CMPL (if answer then STATUS_ACK else 0)). by destruct answer.
Qed.

(** ** A concrete transfer *)

Module Demo.

#[local] Instance hw : I2cHw := {| takes_command st := negb (has st STATUS_CMPL) |}.
#[local] Instance dma : I2cDma := {| dma_copy_hw _ _ _ := (0, 0) |}.
#[local] Instance client : I2cClient := {| on_event _ _ _ := [] |}.

(** A fresh device, configured as a master; the wire has five bytes. *)
Definition fresh : i2c := I2c (λ _, 0) [] [] [] [] [1; 2; 3; 4; 5] [1; 0; 2; 0; 0; 1; 3]%nat [].
Definition cfg : i2c_cfg := Cfg I2C_ROLE_MASTER 0 0 0 1.
Definition s0 : i2c :=
  match (atci2c_i2c_probe false;; atci2c_i2c_configure cfg 6 3 0 1) fresh with Ret (_, s) => s | _ => fresh end.

(** Six bytes out and five in, with 24 rounds. *)
Definition t0 : transfer := TTxRx [10; 20; 30; 40; 50; 60] [0; 0; 0; 0; 0] 5.
Definition l0 : list act := mjoin (replicate 24 [AByte; AIrq]).

Lemma i2c_master_transfer_exact_witness : idle s0 ∧ (24 ≤ rounds l0)%nat ∧
  wp (v ← transfer_run 0x50 0x1000 0x2000 t0; acts_run l0;; mret v) s0 (λ v s', v = 0 ∧
    ((24 ≤ rounds l0)%nat → done_at [] [1; 2; 3; 4; 5] [] 0 [10; 20; 30; 40; 50; 60] [0; 0; 0; 0; 0] 5 s')).
Proof.
  assert (idle s0) as Hi by (split; vm_compute; (reflexivity || discriminate)).
  split; [exact Hi|]. split; [vm_compute; lia|].
  apply (i2c_master_transfer_exact 0x50 0x1000 0x2000 t0 l0 s0); [reflexivity|reflexivity|vm_compute; lia|vm_compute; lia| |exact Hi].
  vm_compute. repeat constructor; discriminate.
Defined.

(** What such a run gives: the first channel of the DMA controller is released
    although none was taken, since the driver data starts as zeros. *)
Example demo_run : wp (transfer_run 0x50 0x1000 0x2000 t0;; acts_run l0) s0 (λ _ s,
  wire_out s = [10; 20; 30; 40; 50; 60] ∧ rx_buf s = [1; 2; 3; 4; 5] ∧ notes s = [NDmaRel 0; NCallback 0 6 5]).
Proof. vm_compute. repeat split; reflexivity. Qed.

End Demo.
