(* ===== verification/I2cSlave.v ===== *)
(** * The I2C driver: reception of a slave

    What a slave reports of the bytes that a master has sent to it. *)

From stdpp Require Import base tactics numbers list gmap functions.
From S2P Require Import Prelude I2c I2cTheorems.

(** The count and the direction are read from one register. *)
Lemma ctrl_dir c x : has (Z.lor (clear_bits 0xFF c) (x mod 256)) CTRL_DIR_SLAVE_TX = has c CTRL_DIR_SLAVE_TX.
Proof.
  unfold CTRL_DIR_SLAVE_TX. rewrite !has_BIT by done. unfold clear_bits. rewrite Z.lor_spec, Z.land_spec.
  change 256 with (2 ^ 8). rewrite Z.mod_pow2_bits_high by lia. by rewrite andb_true_r, orb_false_r.
Qed.
Lemma ctrl_count c x : CTRL_DATACNT (Z.lor (clear_bits 0xFF c) (x mod 256)) = x mod 256.
Proof.
  unfold CTRL_DATACNT, clear_bits. rewrite Z.land_lor_distr_l, <- Z.land_assoc. change (Z.land (Z.lnot 255) 255) with 0.
  rewrite Z.land_0_r, Z.lor_0_l. change 255 with (Z.ones 8). rewrite Z.land_ones by lia. by rewrite Z.mod_mod.
Qed.

(** The case of the handler for a known state. *)
Ltac dispatch H := rewrite H;
  cbv [I2C_STATE_SLAVE_RX I2C_STATE_SLAVE_TX I2C_STATE_SLAVE_IDLE I2C_STATE_MASTER_TX I2C_STATE_MASTER_TX_RX I2C_STATE_MASTER_RX];
  cbn [Z.eqb Pos.eqb orb].

Section Slave.
Context `{!I2cHw, !I2cDma, !I2cClient}.

(** The client answers a request with its buffer, and nothing else. *)
Context (a : Z) (rb : list Z) (n : nat) (n_ok : (1 ≤ n ≤ 256)%nat) (n_rb : (n ≤ length rb)%nat).
Context (client_rx : ∀ w0 w1, on_event I2C_EVENT_SLAVE_RX_REQUESTED w0 w1 = [RSlaveRx a rb (Z.of_nat n)]).
Context (client_end : ∀ w0 w1, on_event I2C_EVENT_SLAVE_RX_CMPL w0 w1 = []).

(** What the master sends. *)
Context (in0 : list Z) (len_in : (length in0 ≤ 256)%nat) (in0_bytes : Forall (λ b, 0 ≤ b < 256) in0).
Context (notes0 : list note) (ch0 : Z).

Record config (s : i2c) : Prop := {
  cf_role : fld s role = I2C_ROLE_SLAVE;
  cf_dma : fld s dma_en = 0;
  cf_setup : has (fld s SETUP) SETUP_MASTER = false;
  cf_cb : fld s cb ≠ 0;
  cf_ch : fld s dma_ch = ch0;
}.

(** [k] bytes have come, [o] of them were taken from the FIFO. *)
Record incoming (o k : nat) (stopped : bool) (s : i2c) : Prop := {
  ic_count : fld s hw_count = Z.of_nat k;
  ic_active : fld s hw_active = if stopped then 0 else 1;
  ic_dir : has (fld s CTRL) CTRL_DIR_SLAVE_TX = false;
  ic_ok : (o ≤ k ≤ length in0)%nat;
  ic_room : (k - o ≤ 4)%nat;
  ic_fifo : fifo s = take (k - o) (drop o in0);
  ic_wire : wire_in s = drop k in0;
}.

(** The slave is addressed, and has not noticed yet. *)
Record addressed (k : nat) (s : i2c) : Prop := {
  ad_config : config s;
  ad_in : incoming 0 k false s;
  ad_state : fld s state = I2C_STATE_SLAVE_IDLE;
  ad_inten : fld s INTEN = Z.lor INTEN_CMPL INTEN_ADDRHIT;
  ad_status : fld s hw_status = STATUS_ADDRHIT;
  ad_notes : notes s = notes0;
}.

(** The client has given its buffer. *)
Record serving (o k : nat) (stopped : bool) (s : i2c) : Prop := {
  sv_config : config s;
  sv_in : incoming o k stopped s;
  sv_state : fld s state = I2C_STATE_SLAVE_RX;
  sv_inten : fld s INTEN = Z.lor (Z.lor INTEN_CMPL INTEN_ADDRHIT) INTEN_FIFOFULL;
  sv_status : fld s hw_status = if stopped then STATUS_CMPL else 0;
  sv_n : fld s rx_len = Z.of_nat n;
  sv_o : fld s rx_offset = Z.of_nat o;
  sv_buf : rx_buf s = take (o `min` n) in0 ++ drop (o `min` n) rb;
  sv_notes : ∃ w0 w1, notes s = notes0 ++ [NCallback I2C_EVENT_SLAVE_RX_REQUESTED w0 w1];
}.

(** ** The controller *)

Definition more (o k : nat) : nat := if decide (k < length in0 ∧ k - o < 4)%nat then S k else k.

Definition came (o k : nat) (s : i2c) : i2c :=
  upd (set_wires (wire_out s) (drop (S k) in0) (set_fifo (take (S k - o) (drop o in0)) s)) hw_count (Z.of_nat (S k)).

Lemma slave_byte o k s : config s → incoming o k false s →
  hw_byte s = if decide (k < length in0 ∧ k - o < 4)%nat then came o k s else s.
Proof.
  intros C [I1 I2 I3 I4 I5 I6 I7]. unfold hw_byte, outgoing, silent. rewrite I2, (cf_setup _ C), I3. cbn [Z.eqb negb andb].
  assert (length (fifo s) = (k - o)%nat) as Hl by (rewrite I6, length_take, length_drop; lia).
  unfold ATCI2C_FIFO_SIZE. rewrite I7, Hl. case_bool_decide as He.
  { apply (f_equal length) in He. rewrite length_drop in He. cbn in He. by rewrite decide_False by lia. }
  assert (k < length in0)%nat as Hk.
  { destruct (decide (k < length in0)%nat); [done|]. by rewrite drop_ge in He by lia. }
  destruct (decide (k - o < 4)%nat); [|by rewrite decide_False by lia]. rewrite decide_True by lia.
  destruct (lookup_lt_is_Some_2 in0 k Hk) as [x Hx]. rewrite (drop_S in0 x k Hx). cbn [hd tail].
  unfold moved. change (fld (set_wires _ _ _)) with (fld s). rewrite (cf_setup _ C), I1, I6. unfold came. f_equal; [|lia].
  f_equal. f_equal. replace (S k - o)%nat with (S (k - o)) by lia.
  symmetry. apply take_snoc. rewrite lookup_drop, <- Hx. f_equal. lia.
Qed.

Lemma config_fld s s' : (∀ l, match l with role | dma_en | SETUP | cb | dma_ch => fld s' l = fld s l | _ => True end) → config s → config s'.
Proof.
  intros Hf [C1 C2 C3 C4 C5]. pose proof (Hf role). pose proof (Hf dma_en). pose proof (Hf SETUP). pose proof (Hf cb). pose proof (Hf dma_ch).
  cbn in *. split; congruence.
Qed.
Lemma incoming_fld o k stopped s s' : (∀ l, match l with hw_count | hw_active | CTRL => fld s' l = fld s l | _ => True end) →
  fifo s' = fifo s → wire_in s' = wire_in s → incoming o k stopped s → incoming o k stopped s'.
Proof.
  intros Hf Hff Hw [I1 I2 I3 I4 I5 I6 I7]. pose proof (Hf hw_count). pose proof (Hf hw_active). pose proof (Hf CTRL).
  cbn in *. split; congruence.
Qed.

Lemma came_incoming o k s : (k < length in0)%nat → (k - o < 4)%nat → incoming o k false s → incoming o (S k) false (came o k s).
Proof.
  intros Hk Ho [I1 I2 I3 I4 I5 I6 I7]. split; try (unfold came; rewrite ?fld_upd_ne by done; done); lia.
Qed.

Lemma addressed_byte k s : addressed k s → addressed (more 0 k) (hw_byte s).
Proof.
  intros T. pose proof T as [C I S1 S2 S3 S4]. rewrite (slave_byte 0 k) by done. unfold more. case_decide as H'; [|done].
  split; try (unfold came; rewrite ?fld_upd_ne by done; done).
  - by eapply config_fld; [|exact C]; intros [].
  - apply came_incoming; [lia|lia|done].
Qed.

Lemma serving_byte o k s : serving o k false s → serving o (more o k) false (hw_byte s).
Proof.
  intros T. pose proof T as [C I S1 S2 S3 S4 S5 S6 S7]. rewrite (slave_byte o k) by done. unfold more. case_decide as H'; [|done].
  split; try (unfold came; rewrite ?fld_upd_ne by done; done).
  - by eapply config_fld; [|exact C]; intros [].
  - apply came_incoming; [lia|lia|done].
Qed.
Lemma serving_still o k s : serving o k true s → hw_byte s = s.
Proof. intros [C [_ I2 _ _ _ _ _]]. unfold hw_byte. by rewrite I2. Qed.

Lemma more_ge o k : (k ≤ more o k)%nat.
Proof. unfold more. case_decide; lia. Qed.

Lemma wp_STATUS_addressed k s Q : addressed k s →
  (∀ k' s', addressed k' s' → Q (status_word s') s') → wp read_STATUS s Q.
Proof.
  intros T HQ. apply (wp_STATUS_inv addressed) with (k := k); [| |done|eauto].
  - intros k1 s1 T1. exists (more 0 k1). split; [apply more_ge|by apply addressed_byte].
  - intros k1 l s1 [C I ]. split; try done; [by destruct C|by destruct I].
Qed.
Lemma wp_STATUS_serving o k stopped s Q : serving o k stopped s →
  (∀ k' s', (k ≤ k')%nat → (stopped = true → k' = k) → serving o k' stopped s' → Q (status_word s') s') → wp read_STATUS s Q.
Proof.
  intros T HQ. apply (wp_STATUS_inv (λ k' s', (stopped = true → k' = k) ∧ serving o k' stopped s')) with (k := k); [| |done|].
  - intros k1 s1 [H1' T1]. destruct stopped.
    + exists k1. rewrite (serving_still o k1) by done. done.
    + exists (more o k1). split; [apply more_ge|]. split; [done|by apply serving_byte].
  - intros k1 l s1 [H1' [C I ]]. split; [done|]. split; try done; [by destruct C|by destruct I].
  - intros k' s' Hk [H1' T']. by apply (HQ k').
Qed.

(** ** The status *)

Lemma fifo_length o k stopped s : incoming o k stopped s → length (fifo s) = (k - o)%nat.
Proof. intros [I1 I2 I3 I4 I5 I6 I7]. rewrite I6, length_take, length_drop. lia. Qed.

Lemma serving_status o k stopped s : serving o k stopped s → has (status_word s) STATUS_CMPL = stopped ∧
  has (status_word s) STATUS_FIFOEMPTY = bool_decide (k = o) ∧ has (status_word s) STATUS_FIFOFULL = bool_decide (k - o = 4)%nat.
Proof.
  intros T. destruct (status_bits s _ (sv_status _ _ _ _ T)) as (->&->&->). pose proof (fifo_length _ _ _ _ (sv_in _ _ _ _ T)) as Hl.
  pose proof (ic_ok _ _ _ _ (sv_in _ _ _ _ T)). pose proof (ic_room _ _ _ _ (sv_in _ _ _ _ T)).
  split; [done|]. split.
  - apply bool_decide_ext. rewrite <- length_zero_iff_nil, Hl. lia.
  - rewrite Hl, <- bool_decide_not. apply bool_decide_ext. lia.
Qed.

(** ** Taking bytes *)

(** A byte goes to the buffer while there is room. *)
Lemma slave_take_run o k stopped s Q : serving o k stopped s → (o < k)%nat → (∀ s', serving (S o) k stopped s' → Q () s') →
  wp slave_take s Q.
Proof.
  intros [C I S1 S2 S3 S4 S5 S6 S7] Ho HQ. pose proof I as [I1 I2 I3 I4 I5 I6 I7].
  destruct (lookup_lt_is_Some_2 in0 o ltac:(lia)) as [x Hx]. pose proof (take_drop_cons in0 o (k - o) x ltac:(lia) Hx) as Hf.
  unfold slave_take, read_DATA, store_rx. wsteps. rewrite I6, Hf. cbn [hd tail].
  change (fld (set_fifo _ s)) with (fld s). rewrite S5, S4, u32_id by lia. replace (Z.of_nat o + 1) with (Z.of_nat (S o)) by lia.
  rewrite (u8_id x) by exact (Forall_lookup_1 _ _ _ _ in0_bytes Hx).
  assert (∀ t, fld t = fld s → wire_in t = wire_in s → notes t = notes s → fifo t = take (k - o - 1) (drop (S o) in0) →
    rx_buf t = take (S o `min` n) in0 ++ drop (S o `min` n) rb → Q () (upd t rx_offset (Z.of_nat (S o)))) as HQ'.
  { intros t Ht1 Ht2 Ht3 Ht4 Ht5. apply HQ. split; rewrite ?fld_upd_ne by done; rewrite ?Ht1; try done.
    - eapply config_fld; [|exact C]. intros []; cbn; rewrite ?Ht1; done.
    - split; rewrite ?fld_upd_ne by done; rewrite ?Ht1; try done; try lia; cbn; [rewrite Ht4; f_equal; lia|by rewrite Ht2].
    - cbn. by rewrite Ht3. }
  destruct (Z.ltb_spec (Z.of_nat o) (Z.of_nat n)) as [Hlt|Hge]; wsteps.
  - rewrite Nat2Z.id. change (rx_buf (set_fifo _ s)) with (rx_buf s). rewrite Nat.min_l in S6 by lia.
    rewrite S6, decide_True by (rewrite length_app, length_take, length_drop; lia). wsteps.
    apply HQ'; try done. cbn [rx_buf set_rx_buf]. rewrite Nat.min_l by lia. destruct (lookup_lt_is_Some_2 rb o ltac:(lia)) as [y Hy].
    rewrite (take_snoc in0 o x Hx), (drop_S rb y o Hy), <- app_assoc. cbn.
    rewrite insert_app_r_alt by (rewrite length_take; lia). rewrite length_take.
    by replace (o - o `min` length in0)%nat with 0%nat by lia.
  - apply HQ'; try done. rewrite Nat.min_r in S6 |- * by lia. exact S6.
Qed.

(** Until the FIFO is empty; more bytes may come meanwhile. *)
Lemma slave_empty_run fuel o k stopped s : serving o k stopped s → (o < k)%nat → (length in0 - o ≤ fuel)%nat →
  wp (slave_empty fuel) s (λ _ s', ∃ k', serving k' k' stopped s' ∧ (k ≤ k')%nat ∧ (stopped = true → k' = k)).
Proof.
  revert o k s. induction fuel as [|fuel IH]; intros o k s T Ho Hf; pose proof (ic_ok _ _ _ _ (sv_in _ _ _ _ T)) as Hok; [lia|].
  cbn [slave_empty]. wstep. apply (slave_take_run o k stopped); [done|done|]. intros s1 T1. wstep.
  apply (wp_STATUS_serving (S o) k stopped); [done|]. intros k' s' Hk Hst T'. pose proof (ic_ok _ _ _ _ (sv_in _ _ _ _ T')) as Hok'.
  destruct (serving_status _ _ _ _ T') as (_&->&_). case_bool_decide as He.
  - subst k'. wsteps. exists (S o). split; [done|]. split; [lia|]. done.
  - eapply wp_mono; [apply (IH (S o) k'); [done|lia|lia]|]. intros [] s2 (k2&T2&Hk2&Hst2). exists k2. split; [done|]. split; [lia|].
    intros Hs. specialize (Hst Hs). specialize (Hst2 Hs). lia.
Qed.

Lemma slave_drain_run fuel o k s : serving o k true s → (k - o ≤ fuel)%nat → wp (slave_drain fuel) s (λ _ s', serving k k true s').
Proof.
  revert o s. induction fuel as [|fuel IH]; intros o s T Hf; pose proof (ic_ok _ _ _ _ (sv_in _ _ _ _ T)) as Hok; cbn [slave_drain]; wstep.
  all: apply (wp_STATUS_serving o k true); [done|]; intros k' s' _ Hst T'; assert (k' = k) as -> by auto.
  all: destruct (serving_status _ _ _ _ T') as (_&->&_); case_bool_decide as He; [subst o; by wsteps|].
  - lia.
  - wstep. apply (slave_take_run o k true); [done|lia|]. intros s1 T1. apply (IH (S o)); [done|lia].
Qed.

(** ** The interrupt handler *)

Lemma addressed_status k s : addressed k s → has (status_word s) STATUS_ADDRHIT = true ∧ irq_pending s = true ∧
  clear_bits (status_word s) (fld s hw_status) = 0.
Proof.
  intros T. unfold irq_pending, status_word, fifo_flags, clear_bits. rewrite (ad_status _ _ T), (ad_inten _ _ T).
  by destruct (decide (fifo s = [])), (decide (length (fifo s) < ATCI2C_FIFO_SIZE)%nat).
Qed.

(** The address was noticed: the client gives its buffer. *)
Lemma irq_addressed k s : addressed k s → wp (i2c_irq 256) s (λ _ s', ∃ k', serving 0 k' false s').
Proof.
  intros T. unfold i2c_irq. wstep. apply (wp_STATUS_addressed k); [done|]. clear k s T. intros k s T. wstep. wstep.
  destruct (addressed_status _ _ T) as (B1&_&B2). destruct T as [C I S1 S2 S3 S4]. pose proof C as [C1 C2 C3 C4 C5]. pose proof I as [I1 I2 I3 I4 I5 I6 I7].
  dispatch S1.
  unfold slave_idle_irq. rewrite B1. unfold read_CTRL. wsteps. rewrite ctrl_dir, I3. unfold slave_request. wsteps.
  rewrite C2. change (0 =? 0) with true. cbv iota. wsteps. change (fld (upd s INTEN ?v) cb) with (fld s cb).
  rewrite (proj2 (Z.eqb_neq _ _) C4). cbn [negb]. unfold run_cb. wsteps. change (fld (upd _ ev_type _) cb) with (fld s cb).
  rewrite (proj2 (Z.eqb_neq _ _) C4). wsteps. rewrite fld_upd, client_rx. cbn [run_requests]. wsteps.
  unfold atci2c_i2c_slave_rx. rewrite bad_len_ok by lia. wsteps. change (fld _ dma_en) with (fld s dma_en). rewrite C2. cbn [negb Z.eqb]. wsteps.
  change (fld _ state =? I2C_STATE_SLAVE_IDLE) with false. cbv iota. wsteps. unfold write_STATUS. wsteps.
  exists k. change (clear_bits _ _) with (clear_bits (status_word s) (fld s hw_status)). rewrite B2.
  split; try done.
  - transitivity (Z.lor (fld s INTEN) INTEN_FIFOFULL); [done|]. by rewrite S2.
  - rewrite <- S4. by eexists _, _.
Qed.

Lemma serving_pending o k stopped s : serving o k stopped s → irq_pending s = stopped || bool_decide (k - o = 4)%nat.
Proof.
  intros T. destruct (serving_status _ _ _ _ T) as (_&_&<-). unfold irq_pending, status_word, fifo_flags.
  rewrite (sv_status _ _ _ _ T), (sv_inten _ _ _ _ T).
  by destruct stopped, (decide (fifo s = [])), (decide (length (fifo s) < ATCI2C_FIFO_SIZE)%nat).
Qed.

(** The first part of the handler. *)
Lemma serving_empty o k stopped s : serving o k stopped s →
  wp (if bool_decide (k - o = 4)%nat && (0 =? 0) then slave_empty 256 else mret ()) s
    (λ _ s', ∃ o' k', serving o' k' stopped s' ∧ (stopped = true → k' = k)).
Proof.
  intros T. change (0 =? 0) with true. rewrite andb_true_r. case_bool_decide.
  - eapply wp_mono; [apply (slave_empty_run 256 o k); [done|lia|lia]|]. intros [] s' (k'&T'&_&Hs). by exists k', k'.
  - wsteps. by exists o, k.
Qed.

Lemma irq_serving o k s : serving o k false s → wp (i2c_irq 256) s (λ _ s', ∃ o' k', serving o' k' false s').
Proof.
  intros T. unfold i2c_irq. wstep. apply (wp_STATUS_serving o k false); [done|]. intros k1 s1 _ _ T1. wstep. wstep.
  destruct (serving_status _ _ _ _ T1) as (B1&_&B2).
  dispatch (sv_state _ _ _ _ T1).
  unfold slave_rx_irq. wstep. wstep. wstep. wstep. rewrite (cf_dma _ (sv_config _ _ _ _ T1)), B1, B2. wstep.
  eapply wp_mono; [by apply serving_empty|]. intros [] s2 (o2&k2&T2&_). unfold write_STATUS. wsteps. exists o2, k2.
  assert (clear_bits (status_word s1) (fld s2 hw_status) = fld s2 hw_status) as -> by by rewrite (sv_status _ _ _ _ T2).
  destruct T2 as [C I S1 S2 S3 S4 S5 S6 S7]. split; rewrite ?fld_upd_ne by done; try done.
  - by eapply config_fld; [|exact C]; intros [].
  - by eapply incoming_fld; [| | |exact I]; [intros []|..].
Qed.

(** ** The end *)

Record slave_idle (s : i2c) : Prop := {
  si_role : fld s role = I2C_ROLE_SLAVE;
  si_dma : fld s dma_en = 0;
  si_setup : has (fld s SETUP) SETUP_MASTER = false;
  si_cb : fld s cb ≠ 0;
  si_state : fld s state = I2C_STATE_SLAVE_IDLE;
  si_inten : fld s INTEN = Z.lor INTEN_CMPL INTEN_ADDRHIT;
  si_active : fld s hw_active = 0;
  si_status : fld s hw_status = 0;
  si_fifo : fifo s = [];
}.

(** The count as the driver takes it: none stands for 256. *)
Definition counted (k : nat) : nat := if decide (k = 0)%nat then 256 else k.

Record received (k : nat) (s : i2c) : Prop := {
  re_idle : slave_idle s;
  re_buf : rx_buf s = take (k `min` n) in0 ++ drop (k `min` n) rb;
  re_wire : wire_in s = drop k in0;
  re_ch : fld s dma_ch = no_ch ch0;
  re_notes : ∃ w0 w1 t, Z.land t 255 = (if decide (n < counted k)%nat then 1 else 0) ∧
    notes s = notes0 ++ [NCallback I2C_EVENT_SLAVE_RX_REQUESTED w0 w1;
      NCallback I2C_EVENT_SLAVE_RX_CMPL (Z.of_nat (counted k `min` n)) t] ++ released ch0;
}.

Definition slave_completed (s : i2c) : i2c :=
  upd (upd (set_fifo [] (tell (NCallback (fld s ev_type) (fld s ev0) (fld s ev1)) s)) INTEN (Z.lor INTEN_CMPL INTEN_ADDRHIT))
    state I2C_STATE_SLAVE_IDLE.

Lemma slave_i2c_cmpl_run s (Q : unit → i2c → Prop) : config s → fld s ev_type = I2C_EVENT_SLAVE_RX_CMPL →
  Q () (slave_completed s) → wp i2c_cmpl s Q.
Proof.
  intros [C1 C2 C3 C4 C5] He HQ. unfold i2c_cmpl, run_cb. wsteps. rewrite (proj2 (Z.eqb_neq _ _) C4). wsteps.
  rewrite He, client_end. cbn [run_requests]. wsteps. change (fld (tell _ s) role) with (fld s role). rewrite C1.
  change (I2C_ROLE_SLAVE =? I2C_ROLE_MASTER) with false. cbv iota. unfold write_CMD. wsteps.
  change (fld _ dma_en) with (fld s dma_en). rewrite C2. change (negb (0 =? 0)) with false. cbv iota. wsteps.
  unfold slave_completed in HQ. rewrite He in HQ. exact HQ.
Qed.

(** The report: the smaller of the count and the size of the buffer. *)
Lemma slave_report k v s (Q : unit → i2c → Prop) : (k ≤ 256)%nat → fld s dma_en = 0 → CTRL_DATACNT v = Z.of_nat k mod 256 →
  (∀ t, Z.land t 255 = (if decide (n < counted k)%nat then 1 else 0) →
     wp i2c_cmpl (upd (upd s ev0 (Z.of_nat (counted k `min` n))) ev1 t) (λ _ s', wp release_dma s' Q)) →
  wp (slave_cmpl (Z.of_nat n) v) s Q.
Proof.
  intros Hk Hd Hv HQ. unfold slave_cmpl. wstep. wstep. rewrite Hd, Hv. change (negb (0 =? 0)) with false. cbv iota zeta.
  assert ((if Z.of_nat k mod 256 =? 0 then ATCI2C_TRANS_MAX else Z.of_nat k mod 256) = Z.of_nat (counted k)) as ->.
  { unfold counted. destruct (decide (k = 0)%nat) as [->|]; [done|]. destruct (decide (k = 256)%nat) as [->|]; [done|].
    rewrite Z.mod_small by lia. by rewrite (proj2 (Z.eqb_neq _ _)) by lia. }
  assert (counted k ≤ 256)%nat by (unfold counted; destruct (decide (k = 0)%nat); lia).
  rewrite u32_id by lia. destruct (Z.leb_spec (Z.of_nat (counted k)) (Z.of_nat n)) as [Hle|Hgt]; wstep; unfold set_truncated; wsteps;
    rewrite fld_upd_ne by done.
  - rewrite Nat.min_l in HQ by lia. specialize (HQ (Z.lor (clear_bits 255 (fld s ev1)) 0)). rewrite decide_False in HQ by lia.
    exact (HQ (ctrl_count (fld s ev1) 0)).
  - rewrite Nat.min_r in HQ by lia. specialize (HQ (Z.lor (clear_bits 255 (fld s ev1)) 1)). rewrite decide_True in HQ by lia.
    exact (HQ (ctrl_count (fld s ev1) 1)).
Qed.

Lemma slave_received k s1 s x y : fld s1 hw_status = STATUS_CMPL → serving k k true s →
  Z.land y 255 = (if decide (n < counted k)%nat then 1 else 0) → x = Z.of_nat (counted k `min` n) →
  let w := release (slave_completed (upd (upd (upd s ev_type I2C_EVENT_SLAVE_RX_CMPL) ev0 x) ev1 y)) in
  received k (upd w hw_status (clear_bits (status_word s1) (fld w hw_status))).
Proof.
  intros Hs1 [[C1 C2 C3 C4 C5] [I1 I2 I3 I4 I5 I6 I7] S1 S2 S3 S4 S5 S6 (w0&w1&S7)] Hy Hx w.
  set (u := slave_completed _) in w. destruct (release_lists u) as (L1&_&L3&L4&_&L6).
  assert (∀ l, l ≠ dma_ch → fld w l = fld u l) as Hw by (intros; by apply release_fld).
  assert (fld w hw_status = STATUS_CMPL) as Hst by (rewrite Hw by done; exact S3).
  split; rewrite ?fld_upd_ne by done.
  - split; try (rewrite fld_upd_ne, Hw by done; done); [|exact L4]. rewrite fld_upd, Hst. by apply (ack_status s1 true true).
  - transitivity (rx_buf (release u)); [done|]. by rewrite L3.
  - transitivity (wire_in (release u)); [done|]. by rewrite L6.
  - unfold w. rewrite release_ch. by rewrite <- C5.
  - exists w0, w1, y. split; [done|]. change (notes w = notes0 ++ [NCallback I2C_EVENT_SLAVE_RX_REQUESTED w0 w1;
      NCallback I2C_EVENT_SLAVE_RX_CMPL (Z.of_nat (counted k `min` n)) y] ++ released ch0).
    transitivity (notes (release u)); [done|]. rewrite L1. change (fld u dma_ch) with (fld s dma_ch). rewrite C5.
    change (notes u) with (notes s ++ [NCallback I2C_EVENT_SLAVE_RX_CMPL x y]). by rewrite S7, Hx, <- !app_assoc.
Qed.

Lemma irq_stopped o k s : serving o k true s → wp (i2c_irq 256) s (λ _ s', received k s').
Proof.
  intros T. unfold i2c_irq. wstep. apply (wp_STATUS_serving o k true); [done|]. intros k1 s1 _ Hk T1. rewrite (Hk eq_refl) in *. clear k1 Hk. wstep. wstep.
  destruct (serving_status _ _ _ _ T1) as (B1&_&B2).
  dispatch (sv_state _ _ _ _ T1).
  unfold slave_rx_irq. wstep. wstep. wstep. wstep. rewrite (cf_dma _ (sv_config _ _ _ _ T1)), B1, B2. wstep.
  eapply wp_mono; [by apply serving_empty|]. intros [] s2 (o2&k2&T2&Hk). rewrite (Hk eq_refl) in T2.
  pose proof (ic_ok _ _ _ _ (sv_in _ _ _ _ T2)). change (0 =? 0) with true. cbv iota. wstep.
  eapply wp_mono; [apply (slave_drain_run 256 o2 k); [done|lia]|]. intros [] s3 T3. wstep. wstep. wstep. unfold read_CTRL. wsteps.
  rewrite (fld_upd_ne s3), (sv_n _ _ _ _ T3) by done.
  apply (slave_report k); [pose proof (ic_ok _ _ _ _ (sv_in _ _ _ _ T3)); lia|exact (cf_dma _ (sv_config _ _ _ _ T3))| |].
  { rewrite ctrl_count. change (fld (upd s3 _ _) hw_count) with (fld s3 hw_count). by rewrite (ic_count _ _ _ _ (sv_in _ _ _ _ T3)). }
  intros y Hy. apply slave_i2c_cmpl_run; [|done|].
  - eapply config_fld; [|exact (sv_config _ _ _ _ T3)]. by intros [].
  - apply release_run. wsteps. unfold write_STATUS. wsteps. apply (slave_received k s1 s3); [by rewrite (sv_status _ _ _ _ T1)|done|done|done].
Qed.

(** ** Schedules *)

Lemma acts_serving l o k s : serving o k false s → wp (acts_run l) s (λ _ s', ∃ o' k', serving o' k' false s').
Proof.
  revert o k s. induction l as [|[] l IH]; intros o k s T; cbn [acts_run]; unfold act_run; wsteps.
  - by exists o, k.
  - by apply (IH o (more o k)), serving_byte.
  - destruct (irq_pending s); wsteps; [|by eapply IH].
    eapply wp_mono; [by apply (irq_serving o k)|]. intros _ s1 (o1&k1&T1). wsteps. by eapply IH.
Qed.

Lemma acts_addressed l k s : AIrq ∈ l → addressed k s → wp (acts_run l) s (λ _ s', ∃ o' k', serving o' k' false s').
Proof.
  revert k s. induction l as [|[] l IH]; intros k s Hl T; cbn [acts_run]; unfold act_run; wsteps.
  - by apply elem_of_nil in Hl.
  - apply (IH (more 0 k)); [|by apply addressed_byte]. by apply elem_of_cons in Hl as [?|?].
  - destruct (addressed_status _ _ T) as (_&->&_). wsteps.
    eapply wp_mono; [by apply (irq_addressed k)|]. intros _ s1 (k1&T1). wsteps. by eapply acts_serving.
Qed.

Lemma stop_serving o k s : serving o k false s → serving o k true (hw_stop s).
Proof.
  intros [C I S1 S2 S3 S4 S5 S6 S7]. unfold hw_stop. rewrite (ic_active _ _ _ _ I). cbn [Z.eqb]. unfold finish.
  split; rewrite ?fld_upd_ne by done; try done.
  - eapply config_fld; [|exact C]. by intros [].
  - by destruct I.
  - by rewrite fld_upd, S3.
Qed.
End Slave.

(** C17: a slave without DMA that is sent up to 256 bytes, and whose address match
    is served before the master ends the transaction, has the first of them in
    the client's buffer and never more than the buffer holds, in whatever order
    bytes move and interrupts come; the client, which answers the request with
    its buffer and starts nothing at the end, is told the smaller of the two
    lengths and whether bytes were dropped, once, and the driver is idle as
    before.  A transaction without data is reported as one of 256 bytes
    ([counted]). *)
Theorem i2c_slave_receive_exact `{!I2cHw, !I2cDma, !I2cClient} a rb n l s :
  (1 ≤ n ≤ 256)%nat → (n ≤ length rb)%nat →
  (∀ w0 w1, on_event I2C_EVENT_SLAVE_RX_REQUESTED w0 w1 = [RSlaveRx a rb (Z.of_nat n)]) →
  (∀ w0 w1, on_event I2C_EVENT_SLAVE_RX_CMPL w0 w1 = []) →
  (length (wire_in s) ≤ 256)%nat → Forall (λ b, 0 ≤ b < 256) (wire_in s) → slave_idle s → AIrq ∈ l →
  wp (modify (hw_addressed false);; acts_run l;; modify hw_stop;; act_run AIrq) s (λ _ s', ∃ k, (k ≤ length (wire_in s))%nat ∧
    received rb n (wire_in s) (notes s) (fld s dma_ch) k s').
Proof.
  intros Hn Hrb Hc1 Hc2 Hlen Hb [D1 D2 D3 D4 D5 D6 D7 D8 D9] Hl. wsteps.
  assert (addressed (wire_in s) (notes s) (fld s dma_ch) 0 (hw_addressed false s)) as T.
  { split; try done.
    - split; try done; [|cbn; lia..]. change (has (clear_bits CTRL_DIR_SLAVE_TX (fld s CTRL)) CTRL_DIR_SLAVE_TX = false).
      unfold has, clear_bits. rewrite <- Z.land_assoc. by rewrite Z.land_0_r.
    - transitivity (Z.lor (fld s hw_status) STATUS_ADDRHIT); [done|]. by rewrite D8. }
  eapply wp_mono; [by eapply (acts_addressed a rb n)|]. intros [] s1 (o&k&T1). wsteps. apply stop_serving in T1.
  unfold act_run. wsteps. erewrite serving_pending by eauto. cbn [orb]. wsteps.
  eapply wp_mono; [by eapply (irq_stopped rb n)|]. intros v s2 R. wsteps. exists k. split; [|done].
  destruct T1 as [_ [_ _ _ Hk _ _ _]]. lia.
Qed.

(** ** A concrete reception *)

Module Demo.

#[local] Instance hw : I2cHw := {| takes_command st := negb (has st STATUS_CMPL) |}.
#[local] Instance dma : I2cDma := {| dma_copy_hw _ _ _ := (0, 0) |}.
#[local] Instance client : I2cClient :=
  {| on_event t _ _ := if t =? I2C_EVENT_SLAVE_RX_REQUESTED then [RSlaveRx 0x1000 [0; 0; 0] 3] else [] |}.

(** A fresh device, configured as a slave; the master has five bytes, the client
    has room for three. *)
Definition fresh : i2c := I2c (λ _, 0) [] [] [] [] [1; 2; 3; 4; 5] [1; 0; 2]%nat [].
Definition cfg : i2c_cfg := Cfg I2C_ROLE_SLAVE 0 0x50 0 1.
Definition s0 : i2c :=
  match (atci2c_i2c_probe false;; atci2c_i2c_configure cfg 6 3 0 1) fresh with Ret (_, s) => s | _ => fresh end.
Definition l0 : list act := [AByte; AIrq; AByte; AByte; AIrq; AByte; AByte; AByte].

Lemma i2c_slave_receive_exact_witness : slave_idle s0 ∧
  wp (modify (hw_addressed false);; acts_run l0;; modify hw_stop;; act_run AIrq) s0 (λ _ s', ∃ k, (k ≤ 5)%nat ∧
    received [0; 0; 0] 3 [1; 2; 3; 4; 5] [] 0 k s').
Proof.
  assert (slave_idle s0) as Hi by (split; vm_compute; (reflexivity || discriminate)).
  split; [exact Hi|].
  apply (i2c_slave_receive_exact 0x1000 [0; 0; 0] 3 l0 s0);
    [lia|cbn; lia|reflexivity|reflexivity|vm_compute; lia|vm_compute; repeat constructor; discriminate|exact Hi|right; left].
Defined.

(** All five bytes came: three are kept and the client is told of the rest. *)
Example demo_receive : wp (modify (hw_addressed false);; acts_run l0;; modify hw_stop;; act_run AIrq) s0 (λ _ s,
  rx_buf s = [1; 2; 3] ∧ notes s = [NCallback 1 0 0; NCallback 3 3 1; NDmaRel 0]).
Proof. vm_compute. repeat split; reflexivity. Qed.

(** A master that only looks whether the address answers: the client is told of
    three bytes that never came. *)
Example demo_probed : wp (modify (hw_addressed false);; acts_run [AIrq];; modify hw_stop;; act_run AIrq) (set_wires [] [] s0) (λ _ s,
  rx_buf s = [0; 0; 0] ∧ notes s = [NCallback 1 0 0; NCallback 3 3 1; NDmaRel 0]).
Proof. vm_compute. repeat split; reflexivity. Qed.

(** An address match and the end of the transaction that are served together:
    both are acknowledged, and the end is never noticed. *)
Example demo_lost_end : wp (modify (hw_addressed false);; acts_run [AByte; AByte];; modify hw_stop;; act_run AIrq) s0 (λ _ s,
  fld s state = I2C_STATE_SLAVE_RX ∧ fld s hw_active = 0 ∧ irq_pending s = false).
Proof. vm_compute. repeat split; reflexivity. Qed.

End Demo.
