(* ===== verification/Uart.v ===== *)
(** * The serial ports: src/hal/drivers/serial/serial-core.c and serial-atcuart.c

    A port has two modes.  As a file it has two queues of characters, which the
    interrupt handler moves to and from the FIFOs of the controller; in raw mode
    the buffers of a client take the place of the queues.  Driver data and
    registers are numbers, a value for every [field].  The controller works on
    its own: characters leave and arrive between any two steps of the driver
    ([steps], [pauses]).  The trigger levels of the FIFOs are a parameter
    ([UartHw]), and so are the DMA driver ([UartDma]) and the client of the raw
    mode ([UartClient]). *)

From stdpp Require Import base tactics numbers list gmap functions.
From S2P Require Import Prelude.

(** ** Data *)

Inductive field :=
(* registers *)
| IER | OSC | LCR | MCR | DLL | DLM | FCR
(* the receiver's error bits *)
| hw_err
(* struct atcuart_port *)
| fill | depth | rx_err | fifo_ctl
| ctx_osc | ctx_ier | ctx_dll | ctx_dlm | ctx_lcr | ctx_mcr
(* struct raw_access *)
| enable | cb | ev_type | ev_err | dma_en | dma_dev | tx_ch | rx_ch
| tx_addr | tx_len | tx_oft | rx_addr | rx_len | rx_oft
(* struct serial_port: number, whether open, the handles of the queues, termios *)
| port_id | initialized | q_tx | q_rx | c_cflag | c_ispeed
(* the bit of the UARTs in the power manager's word *)
| stay.

#[export] Instance field_eq_dec : EqDecision field.
Proof. solve_decision. Defined.

Definition IER_ELSI : Z := 4.
Definition IER_ETHEI : Z := 2.
Definition IER_ERBI : Z := 1.

Definition IIR_INTRID : Z := 0x0F.
Definition IIR_INTRID_LSR : Z := 0x06.
Definition IIR_INTRID_RBR : Z := 0x04.
Definition IIR_INTRID_RTI : Z := 0x0C.
Definition IIR_INTRID_THR : Z := 0x02.
(** No interrupt is pending. *)
Definition IIR_NONE : Z := 0x01.

Definition FCR_RFIFOT_0 : Z := 0x00.
Definition FCR_RFIFOT_1 : Z := 0x40.
Definition FCR_TFIFOT_0 : Z := 0x00.
Definition FCR_TFIFOT_1 : Z := 0x10.
Definition FCR_DMAE : Z := 0x08.
Definition FCR_TFIFORST : Z := 0x04.
Definition FCR_RFIFORST : Z := 0x02.
Definition FCR_FIFOE : Z := 0x01.

Definition MCR_AFE : Z := 0x20.

Definition LCR_DLAB : Z := 0x80.
Definition LCR_SPS : Z := 0x20.
Definition LCR_EPS : Z := 0x10.
Definition LCR_PEN : Z := 0x08.
Definition LCR_STB : Z := 0x04.
Definition LCR_WLS_5 : Z := 0.
Definition LCR_WLS_6 : Z := 1.
Definition LCR_WLS_7 : Z := 2.
Definition LCR_WLS_8 : Z := 3.

Definition LSR_ERRF : Z := 0x80.
Definition LSR_TEMT : Z := 0x40.
Definition LSR_THRE : Z := 0x20.
Definition LSR_LBRE : Z := 0x10.
Definition LSR_FE : Z := 0x08.
Definition LSR_PE : Z := 0x04.
Definition LSR_OE : Z := 0x02.
Definition LSR_DR : Z := 0x01.
Definition LSR_RXERR : Z := Z.lor (Z.lor (Z.lor LSR_ERRF LSR_FE) LSR_PE) LSR_OE.

Definition CSIZE : Z := 0x300.
Definition CS5 : Z := 0.
Definition CS6 : Z := 0x100.
Definition CS7 : Z := 0x200.
Definition CS8 : Z := 0x300.
Definition CSTOPB : Z := 0x400.
Definition PARENB : Z := 0x1000.
Definition PARODD : Z := 0x2000.
Definition CRTSCTS : Z := 0x30000.

Definition UART_DATA_BITS_5 : Z := 0.
Definition UART_DATA_BITS_6 : Z := 1.
Definition UART_DATA_BITS_7 : Z := 2.
Definition UART_DATA_BITS_8 : Z := 3.
Definition UART_ODD_PARITY : Z := 1.
Definition UART_EVENT_PARITY : Z := 2.
Definition UART_STOP_BIT_2 : Z := 1.

Definition UART_EVENT_TX_CMPL : Z := 0.
Definition UART_EVENT_RX_CMPL : Z := 1.
Definition UART_ERR_NO : Z := 0.
Definition UART_ERR_OVERRUN : Z := BIT 0.
Definition UART_ERR_PARITY : Z := BIT 1.
Definition UART_ERR_FRAMING : Z := BIT 2.
Definition UART_ERR_LINE_BREAK : Z := BIT 3.

Definition EPERM : Z := 1.
Definition EIO : Z := 5.
Definition EAGAIN : Z := 11.
Definition ENOMEM : Z := 12.
Definition ENODEV : Z := 19.
Definition EBUSY : Z := 16.
Definition EINVAL : Z := 22.
Definition EINPROGRESS : Z := 115.

(** A handle of a queue: never made, in use, or deleted and still stored. *)
Definition Q_NULL : Z := 0.
Definition Q_LIVE : Z := 1.
Definition Q_DELETED : Z := 2.

Definition CONFIG_SERIAL_BUFFER_SIZE : nat := 256.
Definition CONFIG_SERIAL_CONSOLE_PORT : Z := 0.

Inductive line_error := Framing | Parity | Break.

(** What happens beside the driver: a character leaves, one arrives, one arrives
    damaged (or the line breaks, with or without a character), an interrupt is
    served ([rti]: the receiver has been idle long enough). *)
Inductive act := AOut | AIn | AErr (e : line_error) | AIrq (rti : bool).

#[export] Instance line_error_eq_dec : EqDecision line_error.
Proof. solve_decision. Defined.
#[export] Instance act_eq_dec : EqDecision act.
Proof. solve_decision. Defined.

Inductive note :=
| NCallback (type err : Z)
| NDmaCopy (is_tx : bool) (addr len : Z)
| NDmaAbort (ch : Z)
| NPinRequest (pin : Z)
| NPinFree (pin : Z).

Record uart := Uart {
  fld : field → Z;
  txq : list Z;
  rxq : list Z;
  hw_tx : list Z;
  hw_rx : list Z;
  wire_out : list Z;
  wire_in : list Z;
  tx_buf : list Z;
  rx_buf : list Z;
  steps : list nat;
  pauses : list (list act);
  notes : list note;
}.

Definition ld (l : field) : M uart Z := s ← get; mret (fld s l).
Definition upd (s : uart) (l : field) (v : Z) : uart :=
  Uart (<[l := v]> (fld s)) (txq s) (rxq s) (hw_tx s) (hw_rx s) (wire_out s) (wire_in s) (tx_buf s) (rx_buf s) (steps s) (pauses s) (notes s).
Definition st (l : field) (v : Z) : M uart unit := modify (λ s, upd s l v).
Definition change (l : field) (f : Z → Z) : M uart unit := v ← ld l; st l (f v).
Definition set_queues (t r : list Z) (s : uart) : uart :=
  Uart (fld s) t r (hw_tx s) (hw_rx s) (wire_out s) (wire_in s) (tx_buf s) (rx_buf s) (steps s) (pauses s) (notes s).
Definition set_hw_tx (f o : list Z) (s : uart) : uart :=
  Uart (fld s) (txq s) (rxq s) f (hw_rx s) o (wire_in s) (tx_buf s) (rx_buf s) (steps s) (pauses s) (notes s).
Definition set_hw_rx (f i : list Z) (s : uart) : uart :=
  Uart (fld s) (txq s) (rxq s) (hw_tx s) f (wire_out s) i (tx_buf s) (rx_buf s) (steps s) (pauses s) (notes s).
Definition set_tx_buf (b : list Z) (s : uart) : uart :=
  Uart (fld s) (txq s) (rxq s) (hw_tx s) (hw_rx s) (wire_out s) (wire_in s) b (rx_buf s) (steps s) (pauses s) (notes s).
Definition set_rx_buf (b : list Z) (s : uart) : uart :=
  Uart (fld s) (txq s) (rxq s) (hw_tx s) (hw_rx s) (wire_out s) (wire_in s) (tx_buf s) b (steps s) (pauses s) (notes s).
Definition set_steps (n : list nat) (s : uart) : uart :=
  Uart (fld s) (txq s) (rxq s) (hw_tx s) (hw_rx s) (wire_out s) (wire_in s) (tx_buf s) (rx_buf s) n (pauses s) (notes s).
Definition set_pauses (p : list (list act)) (s : uart) : uart :=
  Uart (fld s) (txq s) (rxq s) (hw_tx s) (hw_rx s) (wire_out s) (wire_in s) (tx_buf s) (rx_buf s) (steps s) p (notes s).
Definition tell (e : note) (s : uart) : uart :=
  Uart (fld s) (txq s) (rxq s) (hw_tx s) (hw_rx s) (wire_out s) (wire_in s) (tx_buf s) (rx_buf s) (steps s) (pauses s) (notes s ++ [e]).

Definition has (v bits : Z) : bool := negb (Z.land v bits =? 0).
Definition clear_bits (bits v : Z) : Z := Z.land v (Z.lnot bits).

(** ** The controller *)

(** How many characters make the receiver interrupt, and at how many left the
    transmitter does, by the FIFO control register. *)
Class UartHw := { rx_trigger : Z → nat; tx_trigger : Z → nat }.
Class UartHwLaws (H : UartHw) := {
  rx_trigger_0 : rx_trigger (Z.lor (Z.lor FCR_RFIFOT_0 FCR_TFIFOT_0) FCR_FIFOE) = 1%nat;
  tx_trigger_0 : tx_trigger (Z.lor (Z.lor FCR_RFIFOT_0 FCR_TFIFOT_0) FCR_FIFOE) = 0%nat;
}.

Definition hw_out (s : uart) : uart :=
  match hw_tx s with [] => s | b :: f => set_hw_tx f (wire_out s ++ [b]) s end.

(** A character that finds the FIFO full is lost; with automatic flow control the
    other side does not send it. *)
Definition hw_in (s : uart) : uart :=
  match wire_in s with
  | [] => s
  | b :: w =>
      if decide (Z.of_nat (length (hw_rx s)) < fld s depth) then set_hw_rx (hw_rx s ++ [b]) w s
      else if has (fld s MCR) MCR_AFE then s
      else upd (set_hw_rx (hw_rx s) w s) hw_err (Z.lor (fld s hw_err) LSR_OE)
  end.

(** A damaged character sets its bit, and the one that says that the FIFO has one. *)
Definition error_bits (e : line_error) : Z :=
  Z.lor LSR_ERRF (match e with Framing => LSR_FE | Parity => LSR_PE | Break => LSR_LBRE end).
Definition hw_bad (e : line_error) (s : uart) : uart :=
  let s := hw_in s in upd s hw_err (Z.lor (fld s hw_err) (error_bits e)).

Definition next_steps (s : uart) : nat := match steps s with n :: _ => n | [] => 0%nat end.

Definition LSR_word (s : uart) : Z :=
  Z.lor (Z.lor (Z.land (fld s hw_err) (Z.lor LSR_RXERR LSR_LBRE)) (if decide (hw_tx s = []) then Z.lor LSR_TEMT LSR_THRE else 0))
    (if decide (hw_rx s = []) then 0 else LSR_DR).

(** Reading clears the error bits, except the one that stays as long as a bad
    character is in the FIFO. *)
Definition read_LSR : M uart Z :=
  modify (λ s, Nat.iter (next_steps s) hw_in (set_steps (tail (steps s)) s));;
  s ← get; st hw_err (Z.land (fld s hw_err) LSR_ERRF);; mret (LSR_word s).

Definition read_RBR : M uart Z := s ← get; modify (set_hw_rx (tail (hw_rx s)) (wire_in s));; mret (hd 0 (hw_rx s)).

(** Two offsets have a second register behind the divisor latch bit. *)
Definition write_THR (v : Z) : M uart unit :=
  modify (λ s, if decide (Z.of_nat (length (hw_tx s)) < fld s depth) then set_hw_tx (hw_tx s ++ [v]) (wire_out s) s else s).
Definition write_20 (v : Z) : M uart unit := l ← ld LCR; if has l LCR_DLAB then st DLL (u8 v) else write_THR (u8 v).
Definition write_24 (v : Z) : M uart unit := l ← ld LCR; if has l LCR_DLAB then st DLM (u8 v) else st IER v.
Definition read_24 : M uart Z := l ← ld LCR; if has l LCR_DLAB then ld DLM else ld IER.
Definition read_DLL : M uart Z := l ← ld LCR; if has l LCR_DLAB then ld DLL else read_RBR.

Definition write_FCR (v : Z) : M uart unit :=
  st FCR (clear_bits (Z.lor FCR_TFIFORST FCR_RFIFORST) v);;
  (if has v FCR_TFIFORST then modify (λ s, set_hw_tx [] (wire_out s) s) else mret ());;
  (if has v FCR_RFIFORST then modify (λ s, upd (set_hw_rx [] (wire_in s) s) hw_err 0) else mret ()).

Section Hw.
Context `{UartHw}.

Definition int_id (rti : bool) (s : uart) : Z :=
  if has (fld s IER) IER_ELSI && negb (fld s hw_err =? 0) then IIR_INTRID_LSR
  else if has (fld s IER) IER_ERBI && bool_decide (rx_trigger (fld s FCR) ≤ length (hw_rx s))%nat then IIR_INTRID_RBR
  else if has (fld s IER) IER_ERBI && rti && bool_decide (hw_rx s ≠ []) then IIR_INTRID_RTI
  else if has (fld s IER) IER_ETHEI && bool_decide (length (hw_tx s) ≤ tx_trigger (fld s FCR))%nat then IIR_INTRID_THR
  else IIR_NONE.
End Hw.

(** ** Registers of the driver: serial-atcuart.c *)

Definition atcuart_tx_enable (en : bool) : M uart unit :=
  v ← read_24;
  let v := clear_bits IER_ETHEI v in
  let v := if en then Z.lor v IER_ETHEI else v in
  st stay (if en then 1 else 0);;
  write_24 v.

Definition atcuart_rx_enable (en : bool) : M uart unit :=
  v ← read_24;
  let v := clear_bits IER_ERBI v in
  let v := if en then Z.lor v IER_ERBI else v in
  st stay (if en then 1 else 0);;
  write_24 v.

Definition atcuart_fifo_is_full : M uart bool := f ← ld fill; d ← ld depth; mret (f =? d).

Definition atcuart_getc : M uart Z :=
  v ← read_LSR;
  if has v LSR_ERRF then mret (- EINVAL) else
  if negb (has v LSR_DR) then mret (- EAGAIN) else
  read_RBR.

Definition atcuart_tx_stopped : M uart bool := v ← read_24; mret (negb (Z.land v IER_ETHEI =? IER_ETHEI)).

Definition atcuart_port_putc (c : Z) : M uart Z :=
  full ← atcuart_fifo_is_full;
  if (full : bool) then mret (- EAGAIN) else
  write_20 c;;
  change fill (λ f, s32 (f + 1));;
  full ← atcuart_fifo_is_full;
  (if (full : bool) then atcuart_tx_enable true else mret ());;
  mret 0.

Definition abs_diff (a b : Z) : Z := Z.abs (a - b).

Definition baud_divisor (freq baud os : Z) : Z :=
  let div := freq ÷ (baud * os) in
  if abs_diff (div * baud * os) freq >? abs_diff ((div + 1) * baud * os) freq then div + 1 else div.

(** [freq]: the rate of the clock. *)
Definition atcuart_set_baudrate (freq baud : Z) : M uart unit :=
  v ← ld OSC;
  let os := Z.land v 0x1f in
  lc ← ld LCR;
  if baud * os =? 0 then fault else
  let div := baud_divisor freq baud os in
  let lc := Z.lor lc LCR_DLAB in
  st LCR lc;;
  write_24 (u8 (Z.shiftr div 8));;
  write_20 (u8 div);;
  st LCR (clear_bits LCR_DLAB lc).

Definition line_control (cflag : Z) : Z :=
  let lc := if Z.land cflag CSIZE =? CS5 then LCR_WLS_5 else if Z.land cflag CSIZE =? CS6 then LCR_WLS_6
            else if Z.land cflag CSIZE =? CS7 then LCR_WLS_7 else LCR_WLS_8 in
  let lc := if has cflag CSTOPB then Z.lor lc LCR_STB else lc in
  if has cflag PARENB then
    let lc := clear_bits LCR_SPS lc in
    let lc := if negb (has cflag PARODD) then Z.lor lc LCR_EPS else clear_bits LCR_EPS lc in
    Z.lor lc LCR_PEN
  else lc.

Definition atcuart_set_termios (freq cflag ispeed : Z) : M uart Z :=
  atcuart_set_baudrate freq ispeed;;
  let fc := Z.lor (Z.lor FCR_RFIFOT_0 FCR_TFIFOT_0) (Z.lor (Z.lor FCR_FIFOE FCR_TFIFORST) FCR_RFIFORST) in
  mc ← ld MCR;
  let mc := if has cflag CRTSCTS then Z.lor mc MCR_AFE else clear_bits MCR_AFE mc in
  st LCR (line_control cflag);;
  write_FCR fc;;
  st MCR mc;;
  st fifo_ctl (clear_bits (Z.lor FCR_TFIFORST FCR_RFIFORST) fc);;
  write_24 (Z.lor IER_ELSI IER_ERBI);;
  st c_cflag cflag;; st c_ispeed ispeed;;
  mret 0.

(** ** The raw mode *)

(** The DMA driver: return code and channel of a copy, and what a channel has
    still to move. *)
Class UartDma := { dma_copy_hw : bool → Z → Z → Z * Z; dma_ch_get_trans_size : Z → Z }.

Inductive request := RTransmit (a : Z) (bs : list Z) (len : Z) | RReceive (a : Z) (bs : list Z) (len : Z).
Class UartClient := { on_event : Z → Z → list request }.

Section Driver.
Context `{UartHw, UartDma, UartClient}.

Definition atcuart_dma_configure (a len : Z) (is_tx : bool) : M uart Z :=
  d ← ld dma_dev;
  if d =? 0 then mret (- EIO) else
  if Z.land a 0xF0000000 =? 0 then mret (- EINVAL) else
  modify (tell (NDmaCopy is_tx a len));;
  let '(ret, ch) := dma_copy_hw is_tx a len in
  st (if is_tx then tx_ch else rx_ch) ch;;
  mret ret.

(** The loop of a transmission; [true] when the FIFO got full. *)
Fixpoint transmit_loop (fuel : nat) (i : Z) : M uart bool :=
  n ← ld tx_len;
  if negb (i <? n) then mret false else
  match fuel with
  | O => out_of_fuel
  | S fuel =>
      s ← get;
      v ← lift_opt (tx_buf s !! Z.to_nat i);
      write_20 v;;
      change fill (λ f, s32 (f + 1));;
      change tx_oft (λ o, u32 (o + 1));;
      full ← atcuart_fifo_is_full;
      if (full : bool) then mret true else transmit_loop fuel (u32 (i + 1))
  end.

Definition atcuart_transmit (fuel : nat) (a : Z) (bs : list Z) (len : Z) : M uart Z :=
  e ← ld enable;
  if e =? 0 then mret (- EPERM) else
  d ← ld dma_en;
  if negb (d =? 0) then
    ch ← ld tx_ch;
    if ch >=? 0 then mret (- EINPROGRESS) else atcuart_dma_configure a len true
  else
    n ← ld tx_len; o ← ld tx_oft;
    if negb (n =? o) then mret (- EINPROGRESS) else
    modify (set_tx_buf bs);; st tx_addr a;; st tx_len len;; st tx_oft 0;;
    full ← transmit_loop fuel 0;
    (if (full : bool) then atcuart_tx_enable true else mret ());;
    (if negb full then atcuart_tx_enable true else mret ());;
    mret 0.

Definition set_receive (a : Z) (bs : list Z) (len : Z) : M uart unit :=
  modify (set_rx_buf bs);; st rx_addr a;; st rx_len len;; st rx_oft 0.

Definition atcuart_recevie (a : Z) (bs : list Z) (len : Z) : M uart Z :=
  e ← ld enable;
  if e =? 0 then mret (- EPERM) else
  d ← ld dma_en;
  if negb (d =? 0) then
    ch ← ld rx_ch;
    if ch >=? 0 then mret (- EINPROGRESS) else
    ret ← atcuart_dma_configure a len false;
    if negb (ret =? 0) then mret ret else
    set_receive a bs len;; mret 0
  else
    n ← ld rx_len; o ← ld rx_oft;
    if negb (n =? o) then mret (- EINPROGRESS) else
    set_receive a bs len;;
    atcuart_rx_enable true;;
    mret 0.

Fixpoint run_requests (fuel : nat) (rs : list request) : M uart unit :=
  match rs with
  | [] => mret ()
  | r :: rs =>
      (match r with
       | RTransmit a bs len => atcuart_transmit fuel a bs len
       | RReceive a bs len => atcuart_recevie a bs len
       end);; run_requests fuel rs
  end.

(** [if (raw->cb) { ...; raw->cb(&raw->event, raw->cb_ctx); }] *)
Definition run_cb (fuel : nat) (type err : Z) : M uart unit :=
  c ← ld cb;
  if c =? 0 then mret () else
  st ev_type type;; st ev_err err;;
  modify (tell (NCallback type err));; run_requests fuel (on_event type err).

(** [priv->rx_buf[i] = v] *)
Definition store_rx (i v : Z) : M uart unit :=
  s ← get;
  if decide (Z.to_nat i < length (rx_buf s))%nat then modify (set_rx_buf (<[Z.to_nat i := v]> (rx_buf s))) else fault.

Fixpoint receive_loop (fuel : nat) (i : Z) : M uart unit :=
  n ← ld rx_len;
  if negb (i <? n) then mret () else
  match fuel with
  | O => out_of_fuel
  | S fuel =>
      ret ← atcuart_getc;
      if ret <? 0 then mret () else
      store_rx i (Z.land ret 0xff);;
      change rx_oft (λ o, u32 (o + 1));;
      receive_loop fuel (u32 (i + 1))
  end.

(** [while ((ret = atcuart_getc(dev)) >= 0) {}] *)
Fixpoint flush (fuel : nat) : M uart unit :=
  match fuel with
  | O => out_of_fuel
  | S fuel => ret ← atcuart_getc; if ret >=? 0 then flush fuel else mret ()
  end.

Definition raw_thr (fuel : nat) : M uart unit :=
  st fill 0;;
  o ← ld tx_oft; n ← ld tx_len;
  if o =? n then
    atcuart_tx_enable false;;
    run_cb fuel UART_EVENT_TX_CMPL UART_ERR_NO
  else transmit_loop fuel o;; mret ().

Definition raw_rbr (fuel : nat) : M uart unit :=
  o ← ld rx_oft;
  receive_loop fuel o;;
  o ← ld rx_oft; n ← ld rx_len;
  if o =? n then
    atcuart_rx_enable false;;
    run_cb fuel UART_EVENT_RX_CMPL UART_ERR_NO
  else mret ().

(** The bits of the line status as errors of the event. *)
Definition event_err (lsr : Z) : Z :=
  let e := UART_ERR_NO in
  let e := if has lsr LSR_LBRE then Z.lor e UART_ERR_LINE_BREAK else e in
  let e := if has lsr LSR_FE then Z.lor e UART_ERR_FRAMING else e in
  let e := if has lsr LSR_PE then Z.lor e UART_ERR_PARITY else e in
  if has lsr LSR_OE then Z.lor e UART_ERR_OVERRUN else e.

Definition reset_rx_fifo : M uart unit := fc ← ld fifo_ctl; write_FCR (Z.lor fc FCR_RFIFORST).

Definition raw_lsr (fuel : nat) : M uart unit :=
  v ← read_LSR;
  let lsr := Z.land v LSR_RXERR in
  e ← ld enable; d ← ld dma_en;
  (if negb (e =? 0) && negb (d =? 0) then ch ← ld rx_ch; modify (tell (NDmaAbort ch));; st rx_ch (-1) else mret ());;
  change rx_err (λ n, s32 (n + if negb (lsr =? 0) then 1 else 0));;
  atcuart_rx_enable false;;
  reset_rx_fifo;;
  run_cb fuel UART_EVENT_RX_CMPL (event_err lsr).

Definition atcuart_irq_raw (fuel : nat) (rti : bool) : M uart Z :=
  s ← get;
  let intid := Z.land (int_id rti s) IIR_INTRID in
  (if intid =? IIR_INTRID_THR then raw_thr fuel else mret ());;
  (if intid =? IIR_INTRID_RBR then raw_rbr fuel else mret ());;
  (if intid =? IIR_INTRID_RTI then flush fuel else mret ());;
  (if intid =? IIR_INTRID_LSR then raw_lsr fuel else mret ());;
  mret 0.

(** [copied]: whether the DMA controller reports success. *)
Definition atcuart_dma_done_handler (fuel : nat) (is_tx copied : bool) : M uart Z :=
  if negb copied then mret (-1) else
  d ← ld dma_en;
  (if negb (d =? 0) then st (if is_tx then tx_ch else rx_ch) (-1) else mret ());;
  run_cb fuel (if is_tx then UART_EVENT_TX_CMPL else UART_EVENT_RX_CMPL) UART_ERR_NO;;
  mret 0.

Definition abort_channel (ch : field) : M uart unit :=
  c ← ld ch; if c >=? 0 then modify (tell (NDmaAbort c));; st ch (-1) else mret ().

Definition atcuart_reset (fuel : nat) : M uart Z :=
  e ← ld enable;
  if e =? 0 then mret (- EPERM) else
  atcuart_rx_enable false;;
  atcuart_tx_enable false;;
  modify (set_tx_buf []);; modify (set_rx_buf []);;
  st tx_addr 0;; st tx_len 0;; st tx_oft 0;; st rx_addr 0;; st rx_len 0;; st rx_oft 0;;
  d ← ld dma_en;
  (if negb (d =? 0) then abort_channel tx_ch;; abort_channel rx_ch else mret ());;
  flush fuel;;
  fc ← ld fifo_ctl;
  write_FCR (Z.lor (Z.lor FCR_TFIFORST FCR_RFIFORST) fc);;
  mret 0.

Definition atcuart_get_rx_len : M uart Z :=
  e ← ld enable;
  if e =? 0 then mret (- EPERM) else
  d ← ld dma_en;
  if negb (d =? 0) then n ← ld rx_len; ch ← ld rx_ch; mret (s32 (n - dma_ch_get_trans_size ch))
  else o ← ld rx_oft; mret (s32 o).

Definition atcuart_raw_deinit (fuel : nat) : M uart Z := atcuart_reset fuel;; st enable 0;; mret 0.

Record uart_cfg := Cfg { baudrate : Z; data_bits : Z; parity : Z; stop_bits : Z; cfg_dma_en : Z }.

Definition cfg_cflag (cfg : uart_cfg) : Z :=
  let f := 0 in
  let f := if parity cfg =? UART_ODD_PARITY then Z.lor f PARODD
           else if parity cfg =? UART_EVENT_PARITY then Z.lor f PARENB else clear_bits PARENB f in
  let f := if stop_bits cfg =? UART_STOP_BIT_2 then Z.lor f CSTOPB else clear_bits CSTOPB f in
  if data_bits cfg =? UART_DATA_BITS_5 then Z.lor f CS5
  else if data_bits cfg =? UART_DATA_BITS_6 then Z.lor f CS6
  else if data_bits cfg =? UART_DATA_BITS_7 then Z.lor f CS7
  else if data_bits cfg =? UART_DATA_BITS_8 then Z.lor f CS8 else f.

(** A copy of one byte that is aborted at once, in both directions. *)
Definition actuart_raw_errata (dummy : Z) : M uart unit :=
  let one (is_tx : bool) (ch : field) :=
    modify (tell (NDmaCopy is_tx dummy 1));;
    st ch (dma_copy_hw is_tx dummy 1).2;;
    c ← ld ch; modify (tell (NDmaAbort c));; st ch (-1) in
  one false rx_ch;; one true tx_ch.

(** Making the two queues; [made] says which could be. *)
Definition create_queues (made : bool * bool) : M uart bool :=
  st q_tx (if made.1 then Q_LIVE else Q_NULL);; modify (λ s, set_queues [] (rxq s) s);;
  st q_rx (if made.2 then Q_LIVE else Q_NULL);; modify (λ s, set_queues (txq s) [] s);;
  mret (made.1 && made.2).

Definition vQueueDelete (q : field) : M uart unit :=
  v ← ld q;
  if v =? Q_NULL then mret () else if v =? Q_DELETED then fault else st q Q_DELETED.

(** ** Pins *)

(** An entry of the platform's pin map, and what a request for its pin returns. *)
Record pinctrl_pin_map := PinMap { pin : Z; pin_ret : Z }.
(** What a port gets from the platform: an entry for each of its four pins
    ([TXD], [RXD], [CTS], [RTS]), and what [request_irq] returns. *)
Record port_hw := PortHw { pmap : list (option pinctrl_pin_map); irq_ret : Z }.
Definition CTS : nat := 2.
Definition RTS : nat := 3.
(** [-1], in an unsigned field *)
Definition NO_PIN : Z := 0xFFFFFFFF.

Definition has_pin (hw : port_hw) (i : nat) : bool :=
  match pmap hw !! i with Some (Some p) => negb (pin p =? NO_PIN) | _ => false end.

(** Where the loop stops, and the result of the last request. *)
Fixpoint claim_pins (i : nat) (l : list (option pinctrl_pin_map)) : M uart (nat * Z) :=
  match l with
  | [] => mret (i, 0)
  | None :: l => claim_pins (S i) l
  | Some p :: l =>
      modify (tell (NPinRequest (pin p)));;
      if pin_ret p =? 0 then claim_pins (S i) l else mret (i, pin_ret p)
  end.

(** [for (; i >= 0; i--)]: [pmap[i]] is read for the first [i] too. *)
Fixpoint free_pins (m : list (option pinctrl_pin_map)) (i : nat) : M uart unit :=
  o ← lift_opt (m !! i);
  (match o with Some p => if pin p =? NO_PIN then mret () else modify (tell (NPinFree (pin p))) | None => mret () end);;
  match i with O => mret () | S i => free_pins m i end.

Definition atcuart_port_init (freq : Z) (hw : port_hw) : M uart Z :=
  r ← claim_pins 0 (pmap hw);
  if negb (r.2 =? 0) then free_pins (pmap hw) r.1;; mret r.2 else
  (if has_pin hw CTS || has_pin hw RTS then change c_cflag (λ f, Z.lor f CRTSCTS) else mret ());;
  f ← ld c_cflag; b ← ld c_ispeed;
  atcuart_set_termios freq f b;;
  if irq_ret hw =? 0 then mret 0 else free_pins (pmap hw) r.1;; mret (irq_ret hw).

Definition raw_open (freq : Z) (made : bool * bool) (hw : port_hw) : M uart Z :=
  i ← ld initialized;
  if negb (i =? 0) then mret 0 else
  ok ← create_queues made;
  ret ← (if (ok : bool) then atcuart_port_init freq hw else mret (- ENOMEM));
  (if ret =? 0 then st initialized 1 else mret ());;
  (if negb (ret =? 0) then vQueueDelete q_tx;; vQueueDelete q_rx else mret ());;
  mret ret.

Definition atcuart_raw_init (freq : Z) (made : bool * bool) (hw : port_hw) (dev dummy : Z) (cfg : uart_cfg) (c : Z) : M uart Z :=
  p ← ld port_id;
  if p =? CONFIG_SERIAL_CONSOLE_PORT then mret (- EBUSY) else
  e ← ld enable;
  if negb (e =? 0) then mret (- EBUSY) else
  if negb (cfg_dma_en cfg =? 0) && (dev =? 0) then mret (- EINVAL) else
  ret ← raw_open freq made hw;
  if negb (ret =? 0) then mret ret else
  modify (set_tx_buf []);; modify (set_rx_buf []);;
  st cb 0;; st ev_type 0;; st ev_err 0;; st tx_addr 0;; st tx_len 0;; st tx_oft 0;; st rx_addr 0;; st rx_len 0;; st rx_oft 0;;
  st dma_en 0;; st dma_dev 0;; st tx_ch 0;; st rx_ch 0;;
  atcuart_set_termios freq (cfg_cflag cfg) (baudrate cfg);;
  st cb c;; st dma_en (cfg_dma_en cfg);;
  (if negb (cfg_dma_en cfg =? 0) then
     st dma_dev dev;; st tx_ch (-1);; st rx_ch (-1);;
     change fifo_ctl (λ v, Z.lor (Z.lor (Z.lor v FCR_DMAE) FCR_TFIFOT_1) FCR_RFIFOT_1);;
     (v ← ld fifo_ctl; write_FCR v);;
     actuart_raw_errata dummy
   else mret ());;
  write_24 IER_ELSI;;
  st enable 1;;
  mret 0.

(** ** The queues of the file *)

Definition q_spaces (q : list Z) : Z := Z.of_nat (CONFIG_SERIAL_BUFFER_SIZE - length q).
Definition send_TX (v : Z) : M uart bool :=
  s ← get;
  if q_spaces (txq s) =? 0 then mret false else modify (set_queues (txq s ++ [v]) (rxq s));; mret true.
Definition recv_TX : M uart (option Z) :=
  s ← get;
  match txq s with [] => mret None | c :: q => modify (set_queues q (rxq s));; mret (Some c) end.
(** The result is not looked at: a character that finds the queue full is lost. *)
Definition send_RX (v : Z) : M uart unit :=
  s ← get; if q_spaces (rxq s) =? 0 then mret () else modify (set_queues (txq s) (rxq s ++ [v])).

(** [while (len > 0 && !full)]: from the queue to the FIFO. *)
Fixpoint feed (len : nat) : M uart unit :=
  match len with
  | O => mret ()
  | S len =>
      full ← atcuart_fifo_is_full;
      if (full : bool) then mret () else
      c ← recv_TX;
      (match c with Some c => atcuart_port_putc c;; mret () | None => mret () end);;
      feed len
  end.

Fixpoint take_chars (fuel : nat) : M uart unit :=
  match fuel with
  | O => out_of_fuel
  | S fuel => ret ← atcuart_getc; if ret >=? 0 then send_RX (Z.land ret 0xff);; take_chars fuel else mret ()
  end.

Definition atcuart_irq_serial (fuel : nat) (rti : bool) : M uart Z :=
  s ← get;
  let intid := Z.land (int_id rti s) IIR_INTRID in
  (if intid =? IIR_INTRID_THR then
     st fill 0;;
     s ← get;
     if decide (txq s = []) then atcuart_tx_enable false else feed (length (txq s))
   else mret ());;
  (if (intid =? IIR_INTRID_RBR) || (intid =? IIR_INTRID_RTI) then take_chars fuel else mret ());;
  (if intid =? IIR_INTRID_LSR then
     v ← read_LSR;
     change rx_err (λ n, s32 (n + if negb (Z.land v LSR_RXERR =? 0) then 1 else 0));;
     reset_rx_fifo
   else mret ());;
  mret 0.

Definition atcuart_irq (fuel : nat) (rti : bool) : M uart Z :=
  e ← ld enable;
  (if negb (e =? 0) then atcuart_irq_raw fuel rti else atcuart_irq_serial fuel rti);;
  mret 0.

(** One step beside the task. *)
Definition act_run (fuel : nat) (a : act) : M uart unit :=
  match a with
  | AOut => modify hw_out
  | AIn => modify hw_in
  | AErr e => modify (hw_bad e)
  | AIrq rti => s ← get; if int_id rti s =? IIR_NONE then mret () else atcuart_irq fuel rti;; mret ()
  end.
Fixpoint acts_run (fuel : nat) (l : list act) : M uart unit :=
  match l with [] => mret () | a :: l => act_run fuel a;; acts_run fuel l end.

(** What happens between two steps of a task. *)
Definition pause (fuel : nat) : M uart unit :=
  s ← get; modify (set_pauses (tail (pauses s)));; acts_run fuel (default [] (head (pauses s))).

(** A task that waits for room, or for a character. *)
Fixpoint send_TX_wait (waits fuel : nat) (v : Z) : M uart unit :=
  ok ← send_TX v;
  if (ok : bool) then mret () else
  match waits with O => out_of_fuel | S waits => act_run fuel AOut;; act_run fuel (AIrq false);; send_TX_wait waits fuel v end.

Fixpoint recv_RX_wait (waits fuel : nat) : M uart Z :=
  s ← get;
  match rxq s with
  | c :: q => modify (set_queues (txq s) q);; mret c
  | [] => match waits with O => out_of_fuel | S waits => act_run fuel AIn;; act_run fuel (AIrq true);; recv_RX_wait waits fuel end
  end.

Definition atcuart_port_start_tx : M uart unit :=
  stopped ← atcuart_tx_stopped;
  if (stopped : bool) then s ← get; feed (length (txq s)) else mret ().

(** ** Files: serial-core.c *)

Definition serial_open (freq : Z) (made : bool * bool) (hw : port_hw) : M uart Z :=
  i ← ld initialized;
  if negb (i =? 0) then mret 0 else
  (* the second queue is made only when the first could be *)
  st q_tx (if made.1 then Q_LIVE else Q_NULL);; modify (λ s, set_queues [] (rxq s) s);;
  (if made.1 then st q_rx (if made.2 then Q_LIVE else Q_NULL);; modify (λ s, set_queues (txq s) [] s) else mret ());;
  ret ← (if made.1 && made.2 then atcuart_port_init freq hw else mret (- ENOMEM));
  if ret =? 0 then st initialized 1;; mret 0
  else vQueueDelete q_tx;; vQueueDelete q_rx;; mret ret.

(** [i]: how far [ptr] is; [again]: at the label [try_again]. *)
Fixpoint write_loop (n fuel : nat) (nonblock : bool) (bs : list Z) (again : bool) (i size len : Z) : M uart Z :=
  match n with
  | O => out_of_fuel
  | S n =>
      if again && (len =? 0) then
        if nonblock then mret (- EAGAIN) else
        v ← lift_opt (bs !! Z.to_nat i);
        send_TX_wait n fuel v;;
        s ← get;
        let size := u32 (size - 1) in
        write_loop n fuel nonblock bs false (i + 1) size (Z.min size (q_spaces (txq s)))
      else if len >? 0 then
        pause fuel;;
        v ← lift_opt (bs !! Z.to_nat i);
        ok ← send_TX v;
        if (ok : bool) then write_loop n fuel nonblock bs false (i + 1) size (len - 1)
        else write_loop n fuel nonblock bs true i size 0
      else
        (if negb (i =? 0) then atcuart_port_start_tx else mret ());;
        mret i
  end.

Definition serial_write (n fuel : nat) (nonblock : bool) (bs : list Z) (size : Z) : M uart Z :=
  s ← get;
  write_loop n fuel nonblock bs true 0 size (Z.min size (q_spaces (txq s))).

Fixpoint read_loop (n fuel : nat) (size : nat) (got : list Z) : M uart (list Z) :=
  match size with
  | O => mret got
  | S size => c ← recv_RX_wait n fuel; read_loop n fuel size (got ++ [c])
  end.

Definition serial_read (n fuel : nat) (nonblock : bool) (size : nat) : M uart (Z * list Z) :=
  s ← get;
  if nonblock && bool_decide (rxq s = []) then mret (- EAGAIN, []) else
  got ← read_loop n fuel size [];
  mret (Z.of_nat (length got), got).

Definition POLLIN : Z := 0x1.
Definition POLLOUT : Z := 0x4.
Definition serial_poll : M uart Z :=
  s ← get;
  mret (Z.lor (if negb (q_spaces (txq s) =? 0) then POLLOUT else 0) (if negb (bool_decide (rxq s = [])) then POLLIN else 0)).

(** Polls until the FIFO is empty. *)
Fixpoint atcuart_console_putc (n : nat) (c : Z) : M uart unit :=
  v ← read_LSR;
  if Z.land v LSR_THRE =? LSR_THRE then write_20 c
  else match n with O => out_of_fuel | S n => modify hw_out;; atcuart_console_putc n c end.

Fixpoint atcuart_console_write (n : nat) (cs : list Z) : M uart unit :=
  match cs with
  | [] => mret ()
  | c :: cs => (if c =? 10 then atcuart_console_putc n 13 else mret ());; atcuart_console_putc n c;; atcuart_console_write n cs
  end.

(** ** Power management *)

Definition atcuart_suspend : M uart Z :=
  i ← ld initialized;
  if i =? 0 then mret 0 else
  (v ← ld OSC; st ctx_osc v);; (v ← read_24; st ctx_ier v);; (v ← ld LCR; st ctx_lcr v);; (v ← ld MCR; st ctx_mcr v);;
  (v ← ld ctx_lcr; st LCR (Z.lor v 0x80));;
  (v ← read_DLL; st ctx_dll v);; (v ← read_24; st ctx_dlm v);;
  (v ← ld ctx_lcr; st LCR (clear_bits 0x80 v));;
  mret 0.

Definition atcuart_resume : M uart Z :=
  i ← ld initialized;
  if i =? 0 then mret 0 else
  (v ← ld ctx_osc; st OSC v);;
  (v ← ld fifo_ctl; write_FCR (Z.lor v (Z.lor FCR_TFIFORST FCR_RFIFORST)));;
  (v ← ld ctx_lcr; st LCR v);; (v ← ld ctx_mcr; st MCR v);;
  (v ← ld ctx_lcr; st LCR (Z.lor v 0x80));;
  (v ← ld ctx_dll; write_20 v);; (v ← ld ctx_dlm; write_24 v);;
  (v ← ld ctx_lcr; st LCR (clear_bits 0x80 v));;
  (v ← ld ctx_ier; write_24 v);;
  mret 0.

(** [mem], [clk]: the memory and the clock are there; [hwc]: the hardware
    configuration register; [reg]: what [register_serial_port] returns. *)
Definition atcuart_probe (mem clk : bool) (hw : port_hw) (reg id hwc baud : Z) : M uart Z :=
  if negb mem then mret (- ENOMEM) else
  if negb clk then mret (- ENODEV) else
  modify (λ s, Uart (λ l, match l with IER | OSC | LCR | MCR | DLL | DLM | FCR | hw_err | stay => fld s l | _ => 0 end)
    [] [] (hw_tx s) (hw_rx s) (wire_out s) (wire_in s) [] [] (steps s) (pauses s) (notes s));;
  st c_cflag CS8;; st c_ispeed baud;;
  (if has_pin hw CTS && has_pin hw RTS then change c_cflag (λ f, Z.lor f CRTSCTS) else mret ());;
  st depth (Z.shiftl 1 (4 + Z.land hwc 0x3));; st fill 0;; st port_id id;;
  mret reg.

Fixpoint return_pins (l : list (option pinctrl_pin_map)) : M uart unit :=
  match l with
  | [] => mret ()
  | o :: l => (match o with Some p => modify (tell (NPinFree (pin p))) | None => mret () end);; return_pins l
  end.

(** The port stays [initialized]. *)
Definition atcuart_shutdown (hw : port_hw) : M uart Z :=
  write_FCR FCR_TFIFORST;; write_FCR 0;;
  return_pins (pmap hw);;
  mret 0.
End Driver.
