(* ===== verification/UartTheorems.v ===== *)
(** * The serial ports: files

    What is written to a port leaves it, in its order and without loss, whatever
    the interrupts do; the divisor for a baud rate is the nearest one. *)

From stdpp Require Import base tactics numbers list gmap functions.
From S2P Require Import Prelude Uart.

(** ** Commands *)

Lemma wp_uart_ld l s Q : Q (fld s l) s → wp (ld l) s Q.
Proof. done. Qed.
Lemma wp_uart_st l v s Q : Q () (upd s l v) → wp (st l v) s Q.
Proof. done. Qed.
Lemma wp_uart_change l f s Q : Q () (upd s l (f (fld s l))) → wp (change l f) s Q.
Proof. done. Qed.

Lemma uart_upd s l v : fld (upd s l v) l = v.
Proof. apply fn_lookup_insert. Qed.
Lemma uart_upd_ne s l l' v : l ≠ l' → fld (upd s l v) l' = fld s l'.
Proof. intros. by apply fn_lookup_insert_ne. Qed.

Ltac ustep := lazymatch goal with
  | |- wp (mbind _ _) _ _ => apply wp_bind
  | |- wp (ld _) _ _ => apply wp_uart_ld
  | |- wp (st _ _) _ _ => apply wp_uart_st
  | |- wp (change _ _) _ _ => apply wp_uart_change
  | |- wp (modify _) _ _ => apply wp_modify
  | |- wp get _ _ => apply wp_get
  | |- wp (mret _) _ _ => apply wp_ret
  end.
Ltac usteps := repeat (ustep; cbv beta).

(** ** States that agree on the fields and lists of the transmitter *)

(** The fields that sending depends on. *)
Definition tx_fields : list field := [LCR; FCR; fill; depth; fifo_ctl; enable].

Record same_tx (s s' : uart) : Prop := {
  st_fld : ∀ l, l ∈ tx_fields → fld s' l = fld s l;
  st_thei : has (fld s' IER) IER_ETHEI = has (fld s IER) IER_ETHEI;
  st_elsi : has (fld s' IER) IER_ELSI = has (fld s IER) IER_ELSI;
  st_txq : txq s' = txq s;
  st_hw : hw_tx s' = hw_tx s;
  st_out : wire_out s' = wire_out s;
}.

#[export] Instance same_tx_preorder : PreOrder same_tx.
Proof.
  split; [by split|]. intros s1 s2 s3 [A1 A2 A2' A3 A4 A5] [B1 B2 B2' B3 B4 B5]. split; try congruence.
  intros l Hl. by rewrite B1, A1.
Qed.

Lemma same_tx_upd s l v : l ∉ tx_fields → l ≠ IER → same_tx s (upd s l v).
Proof.
  intros Hl HI. split; try done; [|by rewrite uart_upd_ne..].
  intros l' Hl'. rewrite uart_upd_ne; [done|]. by intros ->.
Qed.

Lemma same_tx_in s : same_tx s (hw_in s).
Proof.
  unfold hw_in. destruct (wire_in s); [done|]. case_decide; [by split|]. destruct (has _ _); [done|].
  etransitivity; [|apply same_tx_upd; [by apply (bool_decide_unpack _)|done]]. by split.
Qed.

Lemma same_tx_bad e s : same_tx s (hw_bad e s).
Proof. etransitivity; [apply same_tx_in|]. by apply same_tx_upd; [apply (bool_decide_unpack _)|]. Qed.

Lemma same_tx_ins n s : same_tx s (Nat.iter n hw_in s).
Proof. induction n as [|n IH]; [done|]. rewrite Nat.iter_succ. etransitivity; [done|apply same_tx_in]. Qed.

(** ** The receiver's side leaves the transmitter alone *)

(** What is left to receive. *)
Definition rx_work (s : uart) : nat := length (hw_rx s) + length (wire_in s).

Lemma rx_work_in s : (rx_work (hw_in s) ≤ rx_work s)%nat.
Proof.
  unfold hw_in. destruct (wire_in s) as [|b w] eqn:E; [done|]. unfold rx_work. rewrite E.
  case_decide; [|destruct (has _ _); [by rewrite E|]]; cbn [hw_rx wire_in set_hw_rx upd length]; rewrite ?length_app; cbn [length]; lia.
Qed.
Lemma rx_work_bad e s : (rx_work (hw_bad e s) ≤ rx_work s)%nat.
Proof. apply rx_work_in. Qed.
Lemma rx_work_ins n s : (rx_work (Nat.iter n hw_in s) ≤ rx_work s)%nat.
Proof. induction n as [|n IH]; [done|]. rewrite Nat.iter_succ. pose proof (rx_work_in (Nat.iter n hw_in s)). lia. Qed.

(** Quiet: nothing was received and nothing will be. *)
Definition quiet (s : uart) : Prop := hw_rx s = [] ∧ wire_in s = [] ∧ fld s hw_err = 0.

Lemma quiet_in s : quiet s → hw_in s = s.
Proof. intros (_&H&_). unfold hw_in. by rewrite H. Qed.
Lemma quiet_ins n s : quiet s → Nat.iter n hw_in s = s.
Proof. intros H. induction n as [|n IH]; [done|]. rewrite Nat.iter_succ, IH. by apply quiet_in. Qed.

Definition rx_step (s s' : uart) : Prop := same_tx s s' ∧ (rx_work s' ≤ rx_work s)%nat.

#[export] Instance rx_step_preorder : PreOrder rx_step.
Proof. split; [by split|]. intros s1 s2 s3 [A1 A2] [B1 B2]. split; [by etransitivity|lia]. Qed.

Lemma rx_step_upd s l v : l ∉ tx_fields → l ≠ IER → rx_step s (upd s l v).
Proof. intros. split; [by apply same_tx_upd|done]. Qed.

Lemma not_tx_field l : bool_decide (l ∈ tx_fields) = false → l ∉ tx_fields.
Proof. by rewrite bool_decide_eq_false. Qed.

Lemma read_LSR_run s : wp read_LSR s (λ _ s', rx_step s s').
Proof.
  unfold read_LSR. usteps. set (t := Nat.iter _ _ _). etransitivity; [|apply rx_step_upd; [by apply not_tx_field|done]].
  split; [etransitivity; [|apply same_tx_ins]; by split|].
  etransitivity; [apply rx_work_ins|done].
Qed.

(** A character that was got is one less to receive. *)
Lemma getc_run s : wp atcuart_getc s (λ v s', rx_step s s' ∧ (0 ≤ v → (rx_work s' < rx_work s)%nat)).
Proof.
  unfold atcuart_getc, read_LSR. usteps. set (t := Nat.iter _ _ _). set (u := upd t hw_err _).
  assert (rx_step s u) as Hu.
  { etransitivity; [|apply rx_step_upd; [by apply not_tx_field|done]].
    split; [etransitivity; [|apply same_tx_ins]; by split|]. etransitivity; [apply rx_work_ins|done]. }
  destruct (has _ _); [usteps; split; [done|unfold EINVAL; lia]|].
  destruct (has (LSR_word t) LSR_DR) eqn:Hdr; cbn [negb]; [|usteps; split; [done|unfold EAGAIN; lia]].
  unfold read_RBR. usteps.
  assert (hw_rx t ≠ []) as Hne.
  { intros He. revert Hdr. unfold LSR_word, has. destruct (decide (hw_rx t = [])); [|done].
    rewrite Z.lor_0_r, Z.land_lor_distr_l, <- Z.land_assoc. change (Z.land (Z.lor LSR_RXERR LSR_LBRE) LSR_DR) with 0.
    rewrite Z.land_0_r. by destruct (decide (hw_tx t = [])). }
  destruct (hw_rx t) as [|b f] eqn:E; [done|]. destruct Hu as [Hu1 Hu2]. revert Hu2. unfold rx_work. cbn. rewrite E. cbn.
  intros Hu2. split; [split|]; [|unfold rx_work; cbn; lia|lia].
  etransitivity; [exact Hu1|]. by split.
Qed.

Lemma same_tx_rx_step s s' : same_tx s s' → hw_rx s' = hw_rx s → wire_in s' = wire_in s → rx_step s s'.
Proof. intros H1 H2 H3. split; [done|]. unfold rx_work. by rewrite H2, H3. Qed.

Lemma take_chars_run fuel s : (rx_work s < fuel)%nat → wp (take_chars fuel) s (λ _ s', rx_step s s').
Proof.
  revert s. induction fuel as [|fuel IH]; intros s Hf; [lia|]. cbn [take_chars]. ustep.
  eapply wp_mono; [apply getc_run|]. intros v s1 [R1 Hv]. destruct (v >=? 0) eqn:Hge; [|by usteps].
  specialize (Hv ltac:(lia)). ustep. unfold send_RX. usteps.
  assert (∀ s2, rx_step s1 s2 → wp (take_chars fuel) s2 (λ _ s', rx_step s s')) as K.
  { intros s2 R2. eapply wp_mono; [apply IH; destruct R2; lia|]. intros [] s3 R3. etransitivity; [exact R1|]. by etransitivity. }
  destruct (_ =? 0); usteps; apply K; [done|]. by apply same_tx_rx_step.
Qed.

(** ** The transmitter *)

Definition FC0 : Z := Z.lor (Z.lor FCR_RFIFOT_0 FCR_TFIFOT_0) FCR_FIFOE.

(** The driver's count is at least what is in the FIFO, and the transmitter's
    interrupt is on when the count says that the FIFO is full. *)
Record tx_inv (s : uart) : Prop := {
  ti_mode : fld s enable = 0;
  ti_dlab : has (fld s LCR) LCR_DLAB = false;
  ti_fcr : fld s FCR = FC0;
  ti_ctl : fld s fifo_ctl = FC0;
  ti_depth : 0 < fld s depth < 2 ^ 30;
  ti_fill : Z.of_nat (length (hw_tx s)) ≤ fld s fill ≤ fld s depth;
  ti_elsi : has (fld s IER) IER_ELSI = true;
  ti_full : fld s fill = fld s depth → has (fld s IER) IER_ETHEI = true;
  ti_queue : (length (txq s) ≤ CONFIG_SERIAL_BUFFER_SIZE)%nat;
  ti_bytes : Forall (λ b, 0 ≤ b < 256) (txq s);
}.

Definition content (s : uart) : list Z := wire_out s ++ hw_tx s ++ txq s.
(** Whatever waits in the queue will be fetched. *)
Definition live (s : uart) : Prop := txq s ≠ [] → has (fld s IER) IER_ETHEI = true.

Lemma tx_inv_same s s' : same_tx s s' → tx_inv s → tx_inv s'.
Proof.
  intros [S1 S2 Se S3 S4 S5] [I1 I2 I3 I4 I5 I6 Ie I7 I8 I9].
  assert (∀ l, bool_decide (l ∈ tx_fields) = true → fld s' l = fld s l) as Hf by (intros l Hl; apply S1; by apply bool_decide_eq_true in Hl).
  split; rewrite ?S2, ?Se, ?S3, ?S4, ?Hf by done; done.
Qed.
Lemma content_same s s' : same_tx s s' → content s' = content s.
Proof. intros [S1 S2 Se S3 S4 S5]. unfold content. by rewrite S3, S4, S5. Qed.
Lemma live_same s s' : same_tx s s' → live s → live s'.
Proof. intros [S1 S2 Se S3 S4 S5]. unfold live. by rewrite S2, S3. Qed.

(** A step of the driver's sending part: characters move on, none is lost. *)
Record sending (s s' : uart) : Prop := {
  sd_inv : tx_inv s';
  sd_content : content s' = content s;
  sd_rx : hw_rx s' = hw_rx s ∧ wire_in s' = wire_in s ∧ fld s' hw_err = fld s hw_err;
  sd_depth : fld s' depth = fld s depth;
  sd_on : has (fld s IER) IER_ETHEI = true → has (fld s' IER) IER_ETHEI = true;
}.

Lemma sending_refl s : tx_inv s → sending s s.
Proof. by split. Qed.
Lemma sending_trans s1 s2 s3 : sending s1 s2 → sending s2 s3 → sending s1 s3.
Proof. intros [A1 A2 (A3&A4&A5) Ad A6] [B1 B2 (B3&B4&B5) Bd B6]. split; try congruence; [repeat split; congruence|auto]. Qed.

Lemma has_lor v b : has (Z.lor v b) b = negb (b =? 0).
Proof.
  unfold has. f_equal. destruct (Z.eqb_spec b 0) as [->|Hb]; [by rewrite Z.land_0_r|].
  apply Z.eqb_neq. rewrite Z.land_lor_distr_l, Z.land_diag. intros [_ H]%Z.lor_eq_0_iff. done.
Qed.

(** The bits of the transmitter and of the line status are independent. *)
Lemma ethei_elsi (en : bool) v : has (if en then Z.lor (clear_bits IER_ETHEI v) IER_ETHEI else clear_bits IER_ETHEI v) IER_ELSI = has v IER_ELSI.
Proof.
  unfold has, clear_bits. destruct en; rewrite ?Z.land_lor_distr_l, <- !Z.land_assoc.
  - change (Z.land (Z.lnot IER_ETHEI) IER_ELSI) with IER_ELSI. change (Z.land IER_ETHEI IER_ELSI) with 0. by rewrite Z.lor_0_r.
  - by change (Z.land (Z.lnot IER_ETHEI) IER_ELSI) with IER_ELSI.
Qed.

(** Writing the interrupt enable register. *)
Lemma tx_enable_run (en : bool) s (Q : unit → uart → Prop) : has (fld s LCR) LCR_DLAB = false →
  Q () (upd (upd s stay (if en then 1 else 0)) IER
    (if en then Z.lor (clear_bits IER_ETHEI (fld s IER)) IER_ETHEI else clear_bits IER_ETHEI (fld s IER))) →
  wp (atcuart_tx_enable en) s Q.
Proof.
  intros Hl HQ. unfold atcuart_tx_enable, read_24, write_24. usteps. rewrite Hl. usteps.
  rewrite uart_upd_ne, Hl by done. usteps. exact HQ.
Qed.

Lemma putc_run c s : tx_inv s → fld s fill < fld s depth → 0 ≤ c < 256 →
  wp (atcuart_port_putc c) s (λ _ s', tx_inv s' ∧ wire_out s' = wire_out s ∧ hw_tx s' = hw_tx s ++ [c] ∧ txq s' = txq s ∧
    (hw_rx s' = hw_rx s ∧ wire_in s' = wire_in s ∧ fld s' hw_err = fld s hw_err) ∧
    (has (fld s IER) IER_ETHEI = true → has (fld s' IER) IER_ETHEI = true) ∧
    fld s' fill = fld s fill + 1 ∧ fld s' depth = fld s depth).
Proof.
  intros I Hf Hc. pose proof I as [I1 I2 I3 I4 I5 I6 Ie I7 I8 I9]. unfold atcuart_port_putc, atcuart_fifo_is_full, write_20, write_THR. usteps.
  rewrite (proj2 (Z.eqb_neq _ _)) by lia. usteps. rewrite I2. usteps. rewrite decide_True by lia. rewrite u8_id by done.
  set (s1 := set_hw_tx _ _ s). change (fld s1) with (fld s). rewrite s32_id by lia. set (s2 := upd s1 fill _).
  assert (∀ l, l ≠ fill → fld s2 l = fld s l) as Hs2 by (intros; unfold s2; by rewrite uart_upd_ne).
  assert (fld s2 fill = fld s fill + 1) as Hs2f by (unfold s2; by rewrite uart_upd).
  rewrite Hs2f, Hs2 by done.
  destruct (Z.eqb_spec (fld s fill + 1) (fld s depth)) as [He|He].
  - usteps. apply tx_enable_run; [by rewrite Hs2|]. usteps. set (s3 := upd _ IER _).
    assert (∀ l, l ≠ fill → l ≠ stay → l ≠ IER → fld s3 l = fld s l) as Hs3 by (intros; unfold s3; rewrite !uart_upd_ne, Hs2 by done; done).
    assert (fld s3 fill = fld s fill + 1) as Hs3f by (unfold s3; by rewrite !uart_upd_ne).
    assert (has (fld s3 IER) IER_ETHEI = true) as Hon by (unfold s3; rewrite uart_upd; apply has_lor).
    split; [|rewrite Hs3f, !Hs3 by done; done].
    split; rewrite ?Hs3f, ?Hs3 by done; try done; [cbn; rewrite length_app; cbn; lia|].
    unfold s3. rewrite uart_upd, (ethei_elsi true), Hs2 by done. done.
  - usteps. split; [|rewrite Hs2f, !Hs2 by done; done].
    split; rewrite ?Hs2f, ?Hs2 by done; try done. cbn. rewrite length_app. cbn. lia.
Qed.

(** From the queue to the FIFO: until the FIFO counts as full, or the queue is empty. *)
Lemma feed_run len s : tx_inv s → (len ≤ length (txq s))%nat →
  wp (feed len) s (λ _ s', sending s s' ∧ wire_out s' = wire_out s ∧
    (length (txq s') = length (txq s) - len ∨ has (fld s' IER) IER_ETHEI = true)%nat ∧
    ((0 < len)%nat → fld s fill < fld s depth → (length (txq s') < length (txq s))%nat) ∧ (length (txq s') ≤ length (txq s))%nat).
Proof.
  revert s. induction len as [|len IH]; intros s I Hl; cbn [feed].
  { usteps. split; [by apply sending_refl|]. split; [done|]. split; [left; lia|]. lia. }
  unfold atcuart_fifo_is_full at 1. usteps. pose proof I as [I1 I2 I3 I4 I5 I6 Ie I7 I8 I9].
  destruct (Z.eqb_spec (fld s fill) (fld s depth)) as [He|He].
  { usteps. split; [by apply sending_refl|]. split; [done|]. split; [right; auto|]. lia. }
  unfold recv_TX. usteps. destruct (txq s) as [|c q] eqn:Hq; [cbn in Hl; lia|]. usteps.
  inversion_clear I9 as [|? ? Hc Hqb].
  set (s1 := set_queues q (rxq s) s).
  assert (tx_inv s1) as I' by (split; try done; cbn in *; lia).
  eapply wp_mono; [apply (putc_run c s1); [done|cbn; lia|done]|]. cbv beta. intros v s2 (J&O&F&T&R&On&Hfill&Hd). usteps.
  assert (sending s s2) as Sd.
  { split; [done| |exact R|exact Hd|exact On]. unfold content. rewrite O, F, T, Hq. cbn. by rewrite <- !app_assoc. }
  eapply wp_mono; [apply IH; [done|rewrite T; cbn in *; lia]|]. cbv beta. intros [] s3 (Sd3&O3&E3&_&L3). rewrite T in *. cbn in Hl, E3, L3 |- *.
  split; [by eapply sending_trans|]. split; [by rewrite O3, O|]. split; [|lia]. destruct E3 as [E3|E3]; [left; lia|by right].
Qed.

Section Irq.
Context `{!UartHw, !UartHwLaws _, !UartDma, !UartClient}.

(** The transmitter's interrupt: the FIFO is empty. *)
Lemma int_id_thr rti s : fld s FCR = FC0 → int_id rti s = IIR_INTRID_THR → hw_tx s = [] ∧ has (fld s IER) IER_ETHEI = true.
Proof.
  unfold int_id. intros HF. rewrite HF. unfold FC0. rewrite tx_trigger_0.
  destruct (has (fld s IER) IER_ELSI && _); [done|]. destruct (has (fld s IER) IER_ERBI && _); [done|].
  destruct (has (fld s IER) IER_ERBI && rti && _); [done|]. destruct (has (fld s IER) IER_ETHEI); [|done]. cbn [andb].
  case_bool_decide as Hl; [|done]. intros _. split; [|done]. apply length_zero_iff_nil. lia.
Qed.

Lemma int_id_cases rti s : int_id rti s = IIR_INTRID_LSR ∨ int_id rti s = IIR_INTRID_RBR ∨ int_id rti s = IIR_INTRID_RTI ∨
  int_id rti s = IIR_INTRID_THR ∨ int_id rti s = IIR_NONE.
Proof. unfold int_id. repeat destruct (_ && _); auto. Qed.

(** With nothing received only the transmitter interrupts. *)
Lemma int_id_quiet rti s : tx_inv s → quiet s → int_id rti s ≠ IIR_INTRID_LSR ∧ int_id rti s ≠ IIR_INTRID_RBR ∧ int_id rti s ≠ IIR_INTRID_RTI ∧
  (has (fld s IER) IER_ETHEI = true → hw_tx s = [] → int_id rti s = IIR_INTRID_THR).
Proof.
  intros I (Q1&Q2&Q3). unfold int_id. rewrite (ti_fcr _ I), Q1, Q3. unfold FC0. rewrite rx_trigger_0, tx_trigger_0.
  change (negb (0 =? 0)) with false. rewrite andb_false_r, bool_decide_eq_false_2 by (cbn; lia). rewrite andb_false_r.
  rewrite bool_decide_eq_false_2 by tauto. rewrite andb_false_r. destruct (_ && _) eqn:E; [done|].
  repeat split; try done. intros Hon Hh. rewrite Hon, Hh in E. done.
Qed.

(** How far the last character is from the wire. *)
Definition distance (s : uart) : nat := 2 * length (txq s) + length (hw_tx s).

(** Any step beside the tasks. *)
Record beside (s s' : uart) : Prop := {
  be_inv : tx_inv s';
  be_content : content s' = content s;
  be_live : live s → live s';
  be_queue : (length (txq s') ≤ length (txq s))%nat;
  be_distance : (distance s' ≤ distance s)%nat;
  be_rx : (rx_work s' ≤ rx_work s)%nat;
  be_depth : fld s' depth = fld s depth;
}.

Lemma same_tx_depth s s' : same_tx s s' → fld s' depth = fld s depth.
Proof. intros S. apply (st_fld _ _ S). by apply (bool_decide_unpack _). Qed.

Lemma distance_same s s' : same_tx s s' → distance s' = distance s.
Proof. intros S. unfold distance. by rewrite (st_txq _ _ S), (st_hw _ _ S). Qed.

Lemma beside_rx s s' : tx_inv s → rx_step s s' → beside s s'.
Proof.
  intros I [S R]. split; [by eapply tx_inv_same|by apply content_same|by apply live_same| | |done|by apply same_tx_depth].
  - by rewrite (st_txq _ _ S).
  - by rewrite (distance_same _ _ S).
Qed.

Lemma moved_distance s s' : content s' = content s → wire_out s' = wire_out s → (length (txq s') ≤ length (txq s))%nat →
  (distance s' + (length (txq s) - length (txq s')) ≤ distance s)%nat.
Proof.
  intros Hc Ho Hq. apply (f_equal length) in Hc. unfold content in Hc. rewrite !length_app, Ho in Hc. unfold distance. lia.
Qed.

(** Serving the transmitter. *)
Definition thr_part : M uart unit :=
  st fill 0;; s ← get; if decide (txq s = []) then atcuart_tx_enable false else feed (length (txq s)).

Lemma thr_run s : tx_inv s → hw_tx s = [] → has (fld s IER) IER_ETHEI = true →
  wp thr_part s (λ _ s', beside s s' ∧ live s' ∧ (txq s ≠ [] → (length (txq s') < length (txq s))%nat) ∧
    wire_out s' = wire_out s ∧ hw_rx s' = hw_rx s ∧ wire_in s' = wire_in s ∧ fld s' hw_err = fld s hw_err).
Proof.
  intros [I1 I2 I3 I4 I5 I6 Ie I7 I8 I9] Hh Hon. unfold thr_part. usteps. set (s1 := upd s fill 0).
  assert (tx_inv s1) as I'.
  { split; unfold s1; rewrite ?uart_upd_ne by done; try done; rewrite uart_upd.
    change (hw_tx (upd s fill 0)) with (hw_tx s). rewrite Hh, uart_upd_ne by done. cbn [length]. lia. }
  change (txq s1) with (txq s). destruct (decide (txq s = [])) as [Hq|Hq].
  - apply tx_enable_run; [done|]. set (s2 := upd _ IER _).
    assert (∀ l, l ≠ stay → l ≠ IER → fld s2 l = fld s1 l) as H2 by (intros; unfold s2; by rewrite !uart_upd_ne).
    assert (fld s2 IER = clear_bits IER_ETHEI (fld s IER)) as Hier by (unfold s2; by rewrite uart_upd).
    split; [split; try done|split; [|done]].
    + destruct I' as [J1 J2 J3 J4 J5 J6 Je J7 J8 J9]. split; rewrite ?H2 by done; try done.
      * rewrite Hier, (ethei_elsi false). done.
      * unfold s1. rewrite uart_upd, uart_upd_ne by done. lia.
    + intros _ Hq'. exfalso. exact (Hq' Hq).
    + intros Hq'. exfalso. exact (Hq' Hq).
  - eapply wp_mono; [apply (feed_run (length (txq s)) s1); [done|done]|]. cbv beta. intros [] s2 (Sd&O&E&Lt&Le). destruct Sd as [J C R Hdep On].
    assert (live s2) as Lv.
    { intros Hq2. destruct E as [E|E]; [|done]. change (txq s1) with (txq s) in E. rewrite Nat.sub_diag in E.
      by apply length_zero_iff_nil in E. }
    split; [split; try done|].
    + pose proof (moved_distance s s2 C O Le). lia.
    + unfold rx_work. destruct R as (->&->&_). done.
    + split; [done|]. split; [|split; [exact O|exact R]]. intros _. apply Lt; [|unfold s1; rewrite uart_upd, uart_upd_ne by done; lia].
      destruct (txq s); [done|cbn; lia].
Qed.

Lemma reset_rx_run s (Q : unit → uart → Prop) : tx_inv s → (∀ s', rx_step s s' → fld s' hw_err = 0 → Q () s') → wp reset_rx_fifo s Q.
Proof.
  intros I HQ. unfold reset_rx_fifo, write_FCR. usteps. rewrite (ti_ctl _ I). change (has _ FCR_TFIFORST) with false.
  change (has _ FCR_RFIFORST) with true. cbv iota. usteps. apply HQ; [|by rewrite uart_upd]. set (s1 := upd s FCR _).
  assert (rx_step s s1) as R1.
  { split; [|done]. split; try done. unfold s1. intros l Hl. destruct (decide (l = FCR)) as [->|].
    - by rewrite uart_upd, (ti_fcr _ I).
    - by rewrite uart_upd_ne. }
  etransitivity; [exact R1|]. etransitivity; [|apply rx_step_upd; [by apply not_tx_field|done]]. split; [by split|].
  unfold rx_work. cbn. lia.
Qed.

Lemma id_mask rti s : Z.land (int_id rti s) IIR_INTRID = int_id rti s.
Proof. by destruct (int_id_cases rti s) as [->|[->|[->|[->| ->]]]]. Qed.

(** Which part of the handler runs. *)
Lemma irq_serial_run fuel rti s (Q : Z → uart → Prop) : fld s enable = 0 →
  (int_id rti s = IIR_INTRID_THR → wp thr_part s (λ _ s', Q 0 s')) →
  (int_id rti s = IIR_INTRID_RBR ∨ int_id rti s = IIR_INTRID_RTI → wp (take_chars fuel) s (λ _ s', Q 0 s')) →
  (int_id rti s = IIR_INTRID_LSR → wp (v ← read_LSR;
     change rx_err (λ n, s32 (n + if negb (Z.land v LSR_RXERR =? 0) then 1 else 0));; reset_rx_fifo) s (λ _ s', Q 0 s')) →
  (int_id rti s = IIR_NONE → Q 0 s) → wp (atcuart_irq fuel rti) s Q.
Proof.
  intros He H1' H2' H3' H4'. unfold atcuart_irq. ustep. ustep. rewrite He. change (negb (0 =? 0)) with false. cbv iota.
  unfold atcuart_irq_serial. ustep. ustep. ustep. rewrite id_mask.
  destruct (int_id_cases rti s) as [E|[E|[E|[E|E]]]]; rewrite E in *; cbv zeta; cbn [Z.eqb Pos.eqb orb];
    cbv [IIR_INTRID_THR IIR_INTRID_RBR IIR_INTRID_RTI IIR_INTRID_LSR IIR_NONE] in *; cbn [Z.eqb Pos.eqb orb].
  - do 5 ustep. eapply wp_mono; [by apply H3'|]. intros. usteps. done.
  - usteps. eapply wp_mono; [apply H2'; by left|]. intros. usteps. done.
  - usteps. eapply wp_mono; [apply H2'; by right|]. intros. usteps. done.
  - ustep. eapply wp_mono; [by apply H1'|]. intros. usteps. done.
  - usteps. by apply H4'.
Qed.

(** A line error on record: the next interrupt is about it. *)
Definition noise (s : uart) : nat := if fld s hw_err =? 0 then 0 else 1.
Definition pending_work (s : uart) : nat := rx_work s + noise s.

Lemma noise_le s : (noise s ≤ 1)%nat.
Proof. unfold noise. destruct (_ =? _); lia. Qed.

Lemma in_errf s : Z.land (fld (hw_in s) hw_err) LSR_ERRF = Z.land (fld s hw_err) LSR_ERRF.
Proof.
  unfold hw_in. destruct (wire_in s); [done|]. case_decide; [done|]. destruct (has _ _); [done|].
  rewrite uart_upd, Z.land_lor_distr_l. change (Z.land LSR_OE LSR_ERRF) with 0. by rewrite Z.lor_0_r.
Qed.
Lemma ins_errf n s : Z.land (fld (Nat.iter n hw_in s) hw_err) LSR_ERRF = Z.land (fld s hw_err) LSR_ERRF.
Proof. induction n as [|n IH]; [done|]. by rewrite Nat.iter_succ, in_errf. Qed.

Lemma ins_rx n s : hw_rx s ≠ [] → hw_rx (Nat.iter n hw_in s) ≠ [].
Proof.
  intros Hs. induction n as [|n IH]; [done|]. rewrite Nat.iter_succ. unfold hw_in. destruct (wire_in _); [done|].
  case_decide; [|by destruct (has _ _)]. cbn. intros [Hz _]%app_eq_nil. done.
Qed.

(** Without a recorded error, a character that is there is got. *)
Lemma getc_clean s : fld s hw_err = 0 → wp atcuart_getc s (λ v s', fld s' hw_err = 0 ∧ (hw_rx s ≠ [] → (rx_work s' < rx_work s)%nat)).
Proof.
  intros He. unfold atcuart_getc, read_LSR. usteps. set (s0 := set_steps _ s). set (t := Nat.iter _ _ s0).
  assert (Z.land (fld t hw_err) LSR_ERRF = 0) as Ht by (unfold t; rewrite ins_errf; change (Z.land (fld s hw_err) LSR_ERRF = 0); by rewrite He).
  assert (rx_work t ≤ rx_work s)%nat as Hw by (etransitivity; [apply rx_work_ins|done]).
  assert (has (LSR_word t) LSR_ERRF = false) as ->.
  { unfold LSR_word, has. rewrite !Z.land_lor_distr_l, <- Z.land_assoc.
    change (Z.land (Z.lor LSR_RXERR LSR_LBRE) LSR_ERRF) with LSR_ERRF. rewrite Ht. by destruct (decide _), (decide _). }
  destruct (has (LSR_word t) LSR_DR) eqn:Hdr; cbn [negb].
  - unfold read_RBR. usteps. split; [exact Ht|]. intros Hne. apply (ins_rx (next_steps s) s0) in Hne. fold t in Hne.
    unfold rx_work in *. cbn in *. destruct (hw_rx t); [done|]. cbn in *. lia.
  - usteps. split; [exact Ht|]. intros Hne. apply (ins_rx (next_steps s) s0) in Hne. fold t in Hne. exfalso.
    revert Hdr. unfold LSR_word, has. rewrite (decide_False (P := hw_rx t = [])) by done. rewrite Z.land_lor_distr_l.
    change (Z.land LSR_DR LSR_DR) with 1. intros Hz%negb_false_iff%Z.eqb_eq. apply Z.lor_eq_0_iff in Hz as [_ Hz]. done.
Qed.

Lemma take_chars_clean fuel s : fld s hw_err = 0 → (rx_work s < fuel)%nat →
  wp (take_chars fuel) s (λ _ s', rx_step s s' ∧ fld s' hw_err = 0 ∧ (hw_rx s ≠ [] → (rx_work s' < rx_work s)%nat)).
Proof.
  revert s. induction fuel as [|fuel IH]; intros s He Hf; [lia|]. cbn [take_chars]. ustep.
  eapply wp_mono; [apply wp_and; [apply getc_run|by apply getc_clean]|]. cbv beta. intros v s1 [[R1 Hv] [He1 Hlt]].
  destruct (v >=? 0) eqn:Hge; [|by usteps]. specialize (Hv ltac:(lia)). ustep. unfold send_RX. usteps.
  assert (∀ s2, rx_step s1 s2 → fld s2 hw_err = 0 → wp (take_chars fuel) s2 (λ _ s', rx_step s s' ∧ fld s' hw_err = 0 ∧ (hw_rx s ≠ [] → (rx_work s' < rx_work s)%nat))) as K.
  { intros s2 R2 He2. eapply wp_mono; [apply IH; [done|destruct R2; lia]|]. cbv beta. intros [] s3 (R3&He3&_).
    split; [etransitivity; [exact R1|]; by etransitivity|]. split; [done|]. intros _. destruct R2, R3. lia. }
  destruct (_ =? 0); usteps; apply K; try done.
Qed.

(** The order in which the sources of an interrupt are reported. *)
Lemma int_id_source rti s : tx_inv s →
  (int_id rti s = IIR_INTRID_LSR → fld s hw_err ≠ 0) ∧
  (int_id rti s = IIR_INTRID_RBR ∨ int_id rti s = IIR_INTRID_RTI → fld s hw_err = 0 ∧ hw_rx s ≠ []) ∧
  (int_id rti s = IIR_NONE → has (fld s IER) IER_ETHEI = true → hw_tx s ≠ []).
Proof.
  intros I. unfold int_id. rewrite (ti_elsi _ I), (ti_fcr _ I). unfold FC0. rewrite rx_trigger_0, tx_trigger_0. cbn [andb].
  destruct (Z.eqb_spec (fld s hw_err) 0) as [He|He]; cbn [negb]; [|by repeat split; intros; [..|naive_solver|naive_solver|]].
  split; [by intros; repeat destruct (_ && _)|]. split.
  - intros Hs. split; [done|]. intros Hr. rewrite Hr in Hs. cbn [length] in Hs.
    rewrite (bool_decide_eq_false_2 (1 ≤ 0)%nat), (bool_decide_eq_false_2 ([] ≠ [])), !andb_false_r in Hs by (lia || tauto).
    destruct (_ && _); naive_solver.
  - destruct (has (fld s IER) IER_ERBI && _); [done|]. destruct (has (fld s IER) IER_ERBI && _ && _); [done|].
    intros Hs Hon Hh. by rewrite Hon, Hh in Hs.
Qed.

(** Serving an interrupt is a step beside the tasks, and gets something done. *)
Lemma irq_beside fuel rti s : tx_inv s → (rx_work s < fuel)%nat → wp (atcuart_irq fuel rti) s (λ _ s', beside s s' ∧
  (distance s' + pending_work s' ≤ distance s + pending_work s)%nat ∧
  (int_id rti s ≠ IIR_NONE → int_id rti s ≠ IIR_INTRID_THR ∨ txq s ≠ [] → (distance s' + pending_work s' < distance s + pending_work s)%nat)).
Proof.
  intros I Hf. destruct (int_id_source rti s I) as (Hl&Hr&_). pose proof (noise_le s). apply irq_serial_run; [apply I|..].
  - intros E. destruct (int_id_thr _ _ (ti_fcr _ I) E) as [E1 E2]. eapply wp_mono; [by apply thr_run|]. cbv beta.
    intros [] s' (B&_&Lt&O&R1&R2&R3). split; [done|].
    assert (pending_work s' = pending_work s) as -> by (unfold pending_work, rx_work, noise; by rewrite R1, R2, R3).
    pose proof (moved_distance s s' (be_content _ _ B) O (be_queue _ _ B)). split; [lia|]. intros _ [?|Hq]; [done|]. specialize (Lt Hq). lia.
  - intros E. destruct (Hr E) as [He Hne]. eapply wp_mono; [by apply take_chars_clean|]. cbv beta. intros [] s' (R&He'&Hlt).
    split; [by apply beside_rx|]. specialize (Hlt Hne). rewrite (distance_same _ _ (proj1 R)).
    assert (noise s' = 0%nat) as Hn by (unfold noise; by rewrite He'). unfold pending_work. lia.
  - intros E. ustep. eapply wp_mono; [apply read_LSR_run|]. intros v s1 R1. usteps.
    assert (rx_step s (upd s1 rx_err (s32 (fld s1 rx_err + (if negb (Z.land v LSR_RXERR =? 0) then 1 else 0))))) as R2.
    { etransitivity; [exact R1|]. apply rx_step_upd; [by apply not_tx_field|done]. }
    apply reset_rx_run; [by eapply tx_inv_same; [apply R2|]|]. intros s3 R3 He3.
    assert (rx_step s s3) as R by (by etransitivity). split; [by apply beside_rx|]. rewrite (distance_same _ _ (proj1 R)).
    assert (noise s3 = 0%nat) as Hn by (unfold noise; by rewrite He3).
    assert (noise s = 1%nat) as Hn0 by (unfold noise; by rewrite (proj2 (Z.eqb_neq _ _) (Hl E))).
    destruct R as [_ R]. unfold pending_work. lia.
  - intros E. split; [by split|]. split; [lia|done].
Qed.

(** ** Steps beside the tasks *)

Lemma beside_refl s : tx_inv s → beside s s.
Proof. by split. Qed.
Lemma beside_trans s1 s2 s3 : beside s1 s2 → beside s2 s3 → beside s1 s3.
Proof. intros [A1 A2 A3 A4 A5 A6 A7] [B1 B2 B3 B4 B5 B6 B7]. split; [done|congruence|auto|lia|lia|lia|congruence]. Qed.

Lemma out_beside s : tx_inv s → beside s (hw_out s).
Proof.
  intros I. pose proof I as [I1 I2 I3 I4 I5 I6 Ie I7 I8 I9]. unfold hw_out. destruct (hw_tx s) as [|b f] eqn:E; [by apply beside_refl|].
  split; try done.
  - split; try done. cbn in *. lia.
  - unfold content. cbn. by rewrite E, <- app_assoc.
  - unfold distance. cbn. rewrite E. cbn. lia.
Qed.

Lemma in_beside s : tx_inv s → beside s (hw_in s).
Proof. intros I. apply beside_rx; [done|split; [apply same_tx_in|apply rx_work_in]]. Qed.
Lemma bad_beside e s : tx_inv s → beside s (hw_bad e s).
Proof. intros I. apply beside_rx; [done|split; [apply same_tx_bad|apply rx_work_bad]]. Qed.

Lemma act_beside fuel a s : tx_inv s → (rx_work s < fuel)%nat → wp (act_run fuel a) s (λ _ s', beside s s').
Proof.
  intros I Hf. destruct a as [| |e|rti]; unfold act_run; usteps.
  - by apply out_beside.
  - by apply in_beside.
  - by apply bad_beside.
  - destruct (_ =? _); [usteps; by apply beside_refl|]. ustep. eapply wp_mono; [by apply irq_beside|]. intros v s' [B _]. by usteps.
Qed.

Lemma acts_beside fuel l s : tx_inv s → (rx_work s < fuel)%nat → wp (acts_run fuel l) s (λ _ s', beside s s').
Proof.
  revert s. induction l as [|a l IH]; intros s I Hf; cbn [acts_run]; [usteps; by apply beside_refl|].
  ustep. eapply wp_mono; [by apply act_beside|]. intros [] s1 B. eapply wp_mono; [apply IH; [apply B|destruct B; lia]|].
  intros [] s2 B2. by eapply beside_trans.
Qed.

Lemma pause_beside fuel s : tx_inv s → (rx_work s < fuel)%nat → wp (pause fuel) s (λ _ s', beside s s').
Proof.
  intros I Hf. unfold pause. usteps. set (s1 := set_pauses _ s). assert (tx_inv s1) as I1 by by destruct I.
  eapply wp_mono; [by apply acts_beside|]. intros [] s2 B. eapply beside_trans; [|exact B]. by split.
Qed.

(** ** Progress *)

(** How often an interrupt is served after a character had its turn to leave. *)
Fixpoint rounds_from (seen : bool) (l : list act) : nat :=
  match l, seen with
  | [], _ => 0
  | AOut :: l, _ => rounds_from true l
  | AIn :: l, _ | AErr _ :: l, _ => rounds_from seen l
  | AIrq _ :: l, true => S (rounds_from false l)
  | AIrq _ :: l, false => rounds_from false l
  end.
Definition rounds : list act → nat := rounds_from false.

Lemma rounds_from_seen l : (rounds_from false l ≤ rounds_from true l ≤ S (rounds_from false l))%nat.
Proof. induction l as [|[] l IH]; cbn; lia. Qed.

(** Damaged characters that arrive. *)
Fixpoint damaged (l : list act) : nat :=
  match l with [] => 0 | AErr _ :: l => S (damaged l) | _ :: l => damaged l end.

(** What waits will be fetched. *)
Record flowing (s : uart) : Prop := { fw_inv : tx_inv s; fw_live : live s }.

Lemma flowing_beside s s' : beside s s' → flowing s → flowing s'.
Proof. intros [] []. split; auto. Qed.

(** What is still to be done, on both sides. *)
Definition total (s : uart) : nat := distance s + pending_work s.

Lemma total_in s : (total (hw_in s) ≤ total s)%nat.
Proof.
  unfold total. rewrite (distance_same _ _ (same_tx_in s)). unfold pending_work, rx_work, hw_in. pose proof (noise_le s).
  destruct (wire_in s) as [|b w] eqn:E; [by rewrite E|]. case_decide; [cbn; rewrite length_app; unfold noise; cbn; lia|].
  destruct (has _ _); [by rewrite E|]. pose proof (noise_le (upd (set_hw_rx (hw_rx s) w s) hw_err (Z.lor (fld s hw_err) LSR_OE))).
  cbn [hw_rx wire_in upd set_hw_rx length]. lia.
Qed.
Lemma total_bad e s : (total (hw_bad e s) ≤ S (total s))%nat.
Proof.
  pose proof (total_in s). pose proof (noise_le (hw_bad e s)). unfold total, pending_work in *.
  rewrite (distance_same _ _ (same_tx_bad e s)). rewrite (distance_same _ _ (same_tx_in s)) in *.
  assert (rx_work (hw_bad e s) = rx_work (hw_in s)) as -> by done. lia.
Qed.

Lemma out_step s : flowing s → flowing (hw_out s) ∧ ((total (hw_out s) < total s)%nat ∨ hw_out s = s ∧ hw_tx s = []).
Proof.
  intros F. split; [eapply flowing_beside; [apply out_beside; apply F|done]|].
  unfold hw_out. destruct (hw_tx s) as [|b f] eqn:E; [by right|]. left. unfold total, distance, pending_work, rx_work, noise. cbn. rewrite E. cbn. lia.
Qed.

Lemma irq_flow fuel rti s : flowing s → (rx_work s < fuel)%nat →
  wp (act_run fuel (AIrq rti)) s (λ _ s', flowing s' ∧ beside s s' ∧ (total s' ≤ total s)%nat ∧
    (hw_tx s = [] → distance s ≠ 0%nat → (total s' < total s)%nat)).
Proof.
  intros F Hf. pose proof F as [I L]. destruct (int_id_source rti s I) as (_&_&Hn). unfold act_run. usteps.
  destruct (Z.eqb_spec (int_id rti s) IIR_NONE) as [E|E].
  - usteps. split; [done|]. split; [by apply beside_refl|]. split; [done|]. intros Hh Hd. exfalso.
    assert (txq s ≠ []) as Hq by (intros Hq; unfold distance in Hd; rewrite Hq, Hh in Hd; cbn in Hd; lia). by apply (Hn E (L Hq)).
  - ustep. eapply wp_mono; [by apply irq_beside|]. cbv beta. intros v s' (B&Hle&Hlt). usteps.
    split; [by eapply flowing_beside|]. split; [done|]. split; [exact Hle|]. intros Hh Hd.
    assert (txq s ≠ []) as Hq by (intros Hq; unfold distance in Hd; rewrite Hq, Hh in Hd; cbn in Hd; lia). apply (Hlt E). by right.
Qed.

Lemma acts_flow fuel l seen s : flowing s → (rx_work s < fuel)%nat → (seen = true → hw_tx s = []) →
  wp (acts_run fuel l) s (λ _ s', flowing s' ∧ beside s s' ∧
    (distance s' = 0 ∨ total s' + rounds_from seen l ≤ total s + damaged l)%nat).
Proof.
  revert seen s. induction l as [|a l IH]; intros seen s F Hf Hr; cbn [acts_run rounds_from damaged].
  { usteps. split; [done|]. split; [apply beside_refl; apply F|lia]. }
  assert (∀ s1 seen' (k : nat), flowing s1 → beside s s1 → (seen' = true → hw_tx s1 = []) →
    (distance s1 = 0 ∨ total s1 + k ≤ total s)%nat →
    wp (acts_run fuel l) s1 (λ _ s', flowing s' ∧ beside s s' ∧ (distance s' = 0 ∨ total s' + rounds_from seen' l + k ≤ total s + damaged l)%nat)) as K.
  { intros s1 seen' k F1 B1 Hr1 Hk. eapply wp_mono; [apply (IH seen' s1); [done|destruct B1; lia|done]|]. cbv beta.
    intros [] s' (F'&B'&D'). split; [done|]. split; [by eapply beside_trans|]. pose proof (be_distance _ _ B'). lia. }
  destruct a as [| |e|rti]; ustep.
  - unfold act_run. usteps. destruct (out_step s F) as [F1 H1']. pose proof (out_beside s (fw_inv _ F)) as B. pose proof (rounds_from_seen l).
    destruct H1' as [Hd|[He Hrd]].
    + eapply wp_mono; [apply (K _ false 1%nat); [done|done|done|lia]|]. cbv beta. intros [] s' (F'&B'&D'). split; [done|]. split; [done|]. lia.
    + rewrite He in *. eapply wp_mono; [apply (K _ true 0%nat); [done|done|done|lia]|]. cbv beta. intros [] s' (F'&B'&D'). split; [done|]. split; [done|]. lia.
  - unfold act_run. usteps. pose proof (in_beside s (fw_inv _ F)) as B. pose proof (total_in s).
    eapply wp_mono; [apply (K _ seen 0%nat); [by eapply flowing_beside|done| |lia]|].
    + intros Hs. by rewrite (st_hw _ _ (same_tx_in s)), Hr.
    + cbv beta. intros [] s' (F'&B'&D'). split; [done|]. split; [done|]. lia.
  - unfold act_run. usteps. pose proof (bad_beside e s (fw_inv _ F)) as B. pose proof (total_bad e s).
    eapply wp_mono; [apply (IH seen (hw_bad e s)); [by eapply flowing_beside|destruct B; lia|]|].
    + intros Hs. by rewrite (st_hw _ _ (same_tx_bad e s)), Hr.
    + cbv beta. intros [] s' (F'&B'&D'). split; [done|]. split; [by eapply beside_trans|]. lia.
  - eapply wp_mono; [by apply irq_flow|]. cbv beta. intros [] s1 (F1&B1&D1&Lt). pose proof (be_distance _ _ B1).
    destruct seen.
    + specialize (Lt (Hr eq_refl)). eapply wp_mono; [apply (K s1 false 1%nat); [done|done|done|]|].
      * destruct (decide (distance s = 0)%nat); [left; lia|right; specialize (Lt ltac:(done)); lia].
      * cbv beta. intros [] s' (F'&B'&D'). split; [done|]. split; [done|]. lia.
    + eapply wp_mono; [apply (K s1 false 0%nat); [done|done|done|lia]|]. cbv beta. intros [] s' (F'&B'&D'). split; [done|]. split; [done|]. lia.
Qed.

(** A task that waits for room gets it. *)
Lemma send_wait_run fuel v waits s : flowing s → (rx_work s < fuel)%nat → (total s ≤ waits)%nat →
  wp (send_TX_wait waits fuel v) s (λ _ s', ∃ s1, flowing s1 ∧ beside s s1 ∧ (length (txq s1) < CONFIG_SERIAL_BUFFER_SIZE)%nat ∧
    s' = set_queues (txq s1 ++ [v]) (rxq s1) s1).
Proof.
  revert s. induction waits as [|waits IH]; intros s F Hf Hw; cbn [send_TX_wait]; ustep; unfold send_TX; usteps.
  all: destruct (Z.eqb_spec (q_spaces (txq s)) 0) as [He|He]; usteps;
    [|exists s; split; [done|]; split; [apply beside_refl, F|]; split; [unfold q_spaces in He; lia|done]].
  all: assert (txq s ≠ []) as Hne by (intros Hq; rewrite Hq in He; done).
  { exfalso. unfold total, distance in Hw. destruct (txq s); [done|]. cbn in Hw. lia. }
  unfold act_run at 1. usteps. pose proof (out_beside s (fw_inv _ F)) as B1. destruct (out_step s F) as [F1 H1'].
  eapply wp_mono; [apply (irq_flow fuel false (hw_out s)); [done|destruct B1; lia]|]. cbv beta. intros [] s2 (F2&B2&D2&Lt).
  eapply wp_mono; [apply (IH s2); [done|destruct B1, B2; lia|]|].
  - destruct H1' as [Hd|[Ho Hh]]; [lia|]. rewrite Ho in *. specialize (Lt Hh). assert (distance s ≠ 0%nat); [|lia].
    unfold distance. destruct (txq s); [done|cbn; lia].
  - cbv beta. intros [] s' (s1&F3&B3&Hl&->). exists s1. split; [done|]. split; [|done]. by eapply beside_trans; [|eapply beside_trans].
Qed.

(** ** Writing *)

Lemma start_tx_run s : tx_inv s → wp atcuart_port_start_tx s (λ _ s', flowing s' ∧ content s' = content s ∧ rx_work s' = rx_work s ∧
  fld s' depth = fld s depth).
Proof.
  intros I. unfold atcuart_port_start_tx, atcuart_tx_stopped, read_24. usteps. rewrite (ti_dlab _ I). usteps.
  destruct (Z.eqb_spec (Z.land (fld s IER) IER_ETHEI) IER_ETHEI) as [He|He]; cbn [negb]; usteps.
  - split; [|done]. split; [done|]. intros _. unfold has. by rewrite He.
  - eapply wp_mono; [by apply (feed_run (length (txq s)))|]. cbv beta. intros [] s' (Sd&O&E&_&_). destruct Sd as [J C (R1&R2&R3) Hd On].
    split; [|unfold rx_work; by rewrite R1, R2]. split; [done|].
    intros Hq. destruct E as [E|E]; [|done]. rewrite Nat.sub_diag in E. by apply length_zero_iff_nil in E.
Qed.

Lemma spaces_pos q len : 0 < len ≤ q_spaces q → (q_spaces q =? 0) = false ∧ (length q < CONFIG_SERIAL_BUFFER_SIZE)%nat.
Proof. unfold q_spaces. intros Hl. split; [apply Z.eqb_neq; lia|lia]. Qed.

Lemma push_inv c s : tx_inv s → 0 ≤ c < 256 → (length (txq s) < CONFIG_SERIAL_BUFFER_SIZE)%nat → tx_inv (set_queues (txq s ++ [c]) (rxq s) s).
Proof.
  intros [I1 I2 I3 I4 I5 I6 Ie I7 I8 I9] Hc Hl. split; try done; cbn; [rewrite length_app; cbn; lia|].
  apply Forall_app. split; [done|]. by constructor.
Qed.

(** The state after a write: [bs] was accepted. *)
Record wrote (bs : list Z) (s s' : uart) : Prop := {
  wo_flow : flowing s';
  wo_content : content s' = content s ++ bs;
  wo_rx : (rx_work s' ≤ rx_work s)%nat;
  wo_depth : fld s' depth = fld s depth;
}.

Lemma write_loop_run fuel nb bs size : ∀ n len i s, Forall (λ b, 0 ≤ b < 256) bs → tx_inv s → (rx_work s < fuel)%nat →
  Z.of_nat len ≤ q_spaces (txq s) → (i + len ≤ length bs)%nat → (len < n)%nat → (0 < i + len)%nat →
  wp (write_loop n fuel nb bs false (Z.of_nat i) size (Z.of_nat len)) s (λ v s', v = Z.of_nat (i + len) ∧ wrote (take len (drop i bs)) s s').
Proof.
  induction n as [|n IH]; intros len i s Hb I Hf Hl Hi Hn Hpos; [lia|]. cbn [write_loop andb].
  destruct len as [|len].
  - change (Z.of_nat 0 >? 0) with false. cbv iota. rewrite (proj2 (Z.eqb_neq _ _)) by lia. cbn [negb]. ustep.
    eapply wp_mono; [by apply start_tx_run|]. cbv beta. intros [] s1 (F&C&R&D). usteps.
    split; [lia|]. split; [done|by rewrite C, app_nil_r|lia|done].
  - rewrite (proj2 (Z.gtb_gt _ _)) by lia. ustep. eapply wp_mono; [by apply pause_beside|]. intros [] s1 B.
    destruct (lookup_lt_is_Some_2 bs i ltac:(lia)) as [c Hc]. pose proof (Forall_lookup_1 _ _ _ _ Hb Hc) as Hcb.
    ustep. apply (wp_lift _ c); [by rewrite Nat2Z.id|]. unfold send_TX. usteps.
    assert (Z.of_nat (S len) ≤ q_spaces (txq s1)) as Hsp by (destruct B; unfold q_spaces in *; lia).
    destruct (spaces_pos (txq s1) (Z.of_nat (S len)) ltac:(lia)) as [-> Hlt]. usteps.
    set (s2 := set_queues _ _ s1). replace (Z.of_nat i + 1) with (Z.of_nat (S i)) by lia. replace (Z.of_nat (S len) - 1) with (Z.of_nat len) by lia.
    assert (tx_inv s2) as J by by apply push_inv; [apply B|..].
    eapply wp_mono; [apply (IH len (S i) s2); try done; try lia|].
    + destruct B. change (rx_work s2) with (rx_work s1). lia.
    + unfold q_spaces in *. change (txq s2) with (txq s1 ++ [c]). rewrite length_app. cbn [length]. lia.
    + cbv beta. intros v s3 (->&[F3 C3 R3 D3]). split; [lia|]. change (rx_work s2) with (rx_work s1) in R3. change (fld s2) with (fld s1) in D3.
      split; [done| |destruct B; lia|rewrite D3; apply B].
      rewrite C3. transitivity ((content s1 ++ [c]) ++ take len (drop (S i) bs)); [unfold content; cbn; by rewrite <- !app_assoc|].
      rewrite (be_content _ _ B), (drop_S bs c i Hc), <- app_assoc. done.
Qed.

(** Enough steps for the longest wait: for everything that is to be sent and to be
    received. *)
Definition patience (n : nat) (s : uart) : Prop := (3 * CONFIG_SERIAL_BUFFER_SIZE + Z.to_nat (fld s depth) + rx_work s + 3 ≤ n)%nat.

Lemma total_bound s : tx_inv s → (total s ≤ 2 * CONFIG_SERIAL_BUFFER_SIZE + Z.to_nat (fld s depth) + rx_work s + 1)%nat.
Proof.
  intros I. pose proof (noise_le s). unfold total, distance, pending_work. destruct I as [_ _ _ _ _ Hfi _ _ Hq _]. lia.
Qed.

(** When there is room, a write takes what fits. *)
Lemma serial_write_fits n fuel nb bs s : Forall (λ b, 0 ≤ b < 256) bs → bs ≠ [] → tx_inv s → (rx_work s < fuel)%nat →
  (CONFIG_SERIAL_BUFFER_SIZE < n)%nat → (length (txq s) < CONFIG_SERIAL_BUFFER_SIZE)%nat →
  let k := (length bs `min` (CONFIG_SERIAL_BUFFER_SIZE - length (txq s)))%nat in
  wp (serial_write n fuel nb bs (Z.of_nat (length bs))) s (λ v s', v = Z.of_nat k ∧ wrote (take k bs) s s').
Proof.
  intros Hb Hne I Hf Hn Hroom k. unfold serial_write. usteps. replace (Z.min _ _) with (Z.of_nat k) by (unfold k, q_spaces; lia).
  assert (length bs ≠ 0)%nat by (intros E; by apply length_zero_iff_nil in E).
  assert (write_loop n fuel nb bs true 0 (Z.of_nat (length bs)) (Z.of_nat k) = write_loop n fuel nb bs false 0 (Z.of_nat (length bs)) (Z.of_nat k)) as ->.
  { destruct n as [|n]; [done|]. cbn [write_loop andb]. by rewrite (proj2 (Z.eqb_neq (Z.of_nat k) 0)) by lia. }
  by apply (write_loop_run fuel nb bs (Z.of_nat (length bs)) n k 0 s); try done; unfold k, q_spaces; try lia.
Qed.

(** When there is none, it says so or waits. *)
Lemma serial_write_full n fuel nb bs s : Forall (λ b, 0 ≤ b < 256) bs → bs ≠ [] → Z.of_nat (length bs) < 2 ^ 32 → flowing s →
  (rx_work s < fuel)%nat → patience n s → (length (txq s) = CONFIG_SERIAL_BUFFER_SIZE)%nat →
  wp (serial_write n fuel nb bs (Z.of_nat (length bs))) s (λ v s', if nb then v = - EAGAIN ∧ s' = s else
    ∃ k, v = Z.of_nat k ∧ (0 < k ≤ length bs)%nat ∧ wrote (take k bs) s s').
Proof.
  intros Hb Hne Hlt F Hf Hn Hfull. unfold patience in Hn. unfold serial_write. usteps.
  assert (length bs ≠ 0)%nat by (intros E; by apply length_zero_iff_nil in E).
  assert (q_spaces (txq s) = 0) as -> by (unfold q_spaces; lia). rewrite Z.min_r by lia.
  destruct n as [|n]; [lia|]. cbn [write_loop andb]. change (0 =? 0) with true. cbv iota. destruct nb; [by usteps|].
  destruct (lookup_lt_is_Some_2 bs 0 ltac:(lia)) as [c Hc]. pose proof (Forall_lookup_1 _ _ _ _ Hb Hc) as Hcb.
  ustep. apply (wp_lift _ c); [done|]. ustep. pose proof (total_bound s (fw_inv _ F)).
  eapply wp_mono; [apply (send_wait_run fuel c n s); [done|done|lia]|]. cbv beta. intros [] s' (s1&F1&B1&Hroom&->). usteps.
  set (s2 := set_queues _ _ s1). assert (tx_inv s2) as J by (by apply push_inv; [apply F1|..]).
  rewrite u32_id by lia. set (k := ((length bs - 1) `min` (CONFIG_SERIAL_BUFFER_SIZE - length (txq s2)))%nat).
  replace (Z.min _ _) with (Z.of_nat k) by (unfold k, q_spaces; lia). change (0 + 1) with (Z.of_nat 1).
  eapply wp_mono; [apply (write_loop_run fuel false bs (Z.of_nat (length bs) - 1) n k 1 s2); try done|].
  - change (rx_work s2) with (rx_work s1). destruct B1. lia.
  - unfold k, q_spaces. lia.
  - unfold k. lia.
  - unfold k. lia.
  - lia.
  - cbv beta. intros v s3 (->&[F3 C3 R3 D3]). exists (1 + k)%nat. split; [done|]. split; [unfold k; lia|].
    change (rx_work s2) with (rx_work s1) in R3. change (fld s2) with (fld s1) in D3.
    split; [done| |destruct B1; lia|rewrite D3; apply B1].
    rewrite C3, <- (be_content _ _ B1). destruct bs as [|c' bs]; [done|]. injection Hc as ->.
    unfold content. cbn. by rewrite <- !app_assoc.
Qed.

(** ** Sessions *)

(** A write that may block or not, or something beside it. *)
Inductive op := OWrite (nonblock : bool) (bs : list Z) | OAct (a : act).

(** The results of the writes. *)
Fixpoint session (n fuel : nat) (l : list op) : M uart (list Z) :=
  match l with
  | [] => mret []
  | OWrite nb bs :: l =>
      v ← serial_write n fuel nb bs (Z.of_nat (length bs));
      vs ← session n fuel l;
      mret (v :: vs)
  | OAct a :: l => act_run fuel a;; session n fuel l
  end.

Fixpoint writes (l : list op) : list (bool * list Z) :=
  match l with [] => [] | OWrite nb bs :: l => (nb, bs) :: writes l | OAct _ :: l => writes l end.

(** What the writes accepted, by their results. *)
Definition accepted (l : list op) (vs : list Z) : list Z := concat (zip_with (λ w v, take (Z.to_nat v) w.2) (writes l) vs).

(** Some of the characters, or none because the queue is full and the write may
    not wait. *)
Definition result_ok (w : bool * list Z) (v : Z) : Prop := 0 < v ≤ Z.of_nat (length w.2) ∨ w.1 = true ∧ v = - EAGAIN.

Definition op_ok (o : op) : Prop :=
  match o with OWrite _ bs => bs ≠ [] ∧ Forall (λ b, 0 ≤ b < 256) bs ∧ Z.of_nat (length bs) < 2 ^ 32 | OAct _ => True end.

Lemma serial_write_run n fuel nb bs s : op_ok (OWrite nb bs) → flowing s → (rx_work s < fuel)%nat → patience n s →
  wp (serial_write n fuel nb bs (Z.of_nat (length bs))) s (λ v s', result_ok (nb, bs) v ∧ wrote (take (Z.to_nat v) bs) s s').
Proof.
  intros (Hne&Hb&Hlt) F Hf Hn. pose proof (ti_queue _ (fw_inv _ F)).
  assert (length bs ≠ 0)%nat by (intros E; by apply length_zero_iff_nil in E).
  destruct (decide (length (txq s) = CONFIG_SERIAL_BUFFER_SIZE)) as [Hq|Hq].
  - eapply wp_mono; [by apply serial_write_full|]. cbv beta. intros v s' Hv. destruct nb.
    + destruct Hv as [-> ->]. split; [by right|]. split; [done|by rewrite app_nil_r|done|done].
    + destruct Hv as (k&->&Hk&W). rewrite Nat2Z.id. split; [left; cbn [snd]; lia|done].
  - eapply wp_mono; [apply serial_write_fits; try done; [apply F|unfold patience in Hn; lia|lia]|]. cbv beta. intros v s' [-> W].
    rewrite Nat2Z.id. split; [left; cbn [snd]; lia|done].
Qed.

Lemma session_run n fuel l s : Forall op_ok l → flowing s → (rx_work s < fuel)%nat → patience n s →
  wp (session n fuel l) s (λ vs s', Forall2 result_ok (writes l) vs ∧ wrote (accepted l vs) s s').
Proof.
  intros Hl. revert s. induction Hl as [|o l Ho Hl IH]; intros s F Hf Hn; cbn [session writes].
  { usteps. split; [done|]. split; [done|by rewrite app_nil_r|done|done]. }
  destruct o as [nb bs|a]; ustep.
  - eapply wp_mono; [by apply serial_write_run|]. cbv beta. intros v s1 (Hv&[F1 C1 R1 D1]). ustep.
    eapply wp_mono; [apply IH; [done|lia|unfold patience in *; rewrite D1; lia]|]. cbv beta. intros vs s2 (Hvs&[F2 C2 R2 D2]). usteps.
    split; [by constructor|]. split; [done| |lia|by rewrite D2]. rewrite C2, C1, <- app_assoc. done.
  - eapply wp_mono; [apply act_beside; [apply F|done]|]. intros [] s1 B.
    eapply wp_mono; [apply IH; [by eapply flowing_beside|destruct B; lia|destruct B as [_ _ _ _ _ ? Hd]; unfold patience in *; rewrite Hd; lia]|].
    cbv beta. intros vs s2 (Hvs&[F2 C2 R2 D2]). split; [done|].
    split; [done| |destruct B; lia|rewrite D2; apply B]. rewrite C2, (be_content _ _ B). done.
Qed.
End Irq.

(** ** Opening *)

Lemma line_control_dlab f : has (line_control f) LCR_DLAB = false.
Proof.
  unfold line_control. repeat match goal with |- context [if ?b then _ else _] => destruct b end; reflexivity.
Qed.

Section Files.
Context `{!UartHw, !UartHwLaws _, !UartDma, !UartClient}.

(** Setting the line up leaves an empty transmitter; the driver's count stays. *)
Lemma set_termios_run freq f b s (Q : Z → uart → Prop) : b * Z.land (fld s OSC) 0x1f ≠ 0 →
  (∀ s', fld s' FCR = FC0 → fld s' fifo_ctl = FC0 → has (fld s' LCR) LCR_DLAB = false → hw_tx s' = [] → txq s' = txq s →
     fld s' IER = Z.lor IER_ELSI IER_ERBI → (∀ l, l ∈ [enable; fill; depth; initialized] → fld s' l = fld s l) → Q 0 s') →
  wp (atcuart_set_termios freq f b) s Q.
Proof.
  intros Hos HQ. unfold atcuart_set_termios, atcuart_set_baudrate. usteps. rewrite (proj2 (Z.eqb_neq _ _) Hos).
  usteps. cbv zeta. usteps. set (lc := Z.lor _ LCR_DLAB). assert (has lc LCR_DLAB = true) as Hlc by apply has_lor.
  unfold write_24 at 1, write_20. usteps. rewrite uart_upd, Hlc. usteps. rewrite uart_upd_ne, uart_upd, Hlc by done. usteps.
  unfold write_FCR. usteps. change (has _ FCR_TFIFORST) with true. change (has _ FCR_RFIFORST) with true. cbv iota. usteps.
  unfold write_24. usteps.
  match goal with |- context [has (fld ?t LCR) LCR_DLAB] => change (fld t LCR) with (line_control f) end.
  rewrite line_control_dlab. usteps. apply HQ; try done.
  - match goal with |- context [has (fld ?t LCR) LCR_DLAB] => change (fld t LCR) with (line_control f) end. apply line_control_dlab.
  - intros l Hl. repeat (apply elem_of_cons in Hl as [->|Hl]; [done|]). by apply elem_of_nil in Hl.
Qed.

(** The platform gives the port all it asks for. *)
Record hw_ok (hw : port_hw) : Prop := {
  ho_pins : Forall (λ o, ∀ p, o = Some p → pin_ret p = 0) (pmap hw);
  ho_irq : irq_ret hw = 0;
}.

Lemma claim_pins_run i l s (Q : nat * Z → uart → Prop) : Forall (λ o, ∀ p, o = Some p → pin_ret p = 0) l →
  (∀ s', fld s' = fld s → txq s' = txq s → Q ((i + length l)%nat, 0) s') → wp (claim_pins i l) s Q.
Proof.
  intros Hl. revert i s. induction Hl as [|[p|] l Hp _ IH]; intros i s HQ; cbn [claim_pins length]; usteps.
  - rewrite <-(Nat.add_0_r i). by apply HQ.
  - rewrite (Hp p eq_refl). cbn [Z.eqb]. apply IH. intros s' E T. rewrite Nat.add_succ_comm. apply HQ; [by rewrite E|by rewrite T].
  - apply IH. intros s' E T. rewrite Nat.add_succ_comm. apply HQ; [by rewrite E|by rewrite T].
Qed.

Lemma port_init_run freq hw s (Q : Z → uart → Prop) : hw_ok hw → fld s c_ispeed * Z.land (fld s OSC) 0x1f ≠ 0 →
  (∀ s', fld s' FCR = FC0 → fld s' fifo_ctl = FC0 → has (fld s' LCR) LCR_DLAB = false → hw_tx s' = [] → txq s' = txq s →
     fld s' IER = Z.lor IER_ELSI IER_ERBI → (∀ l, l ∈ [enable; fill; depth; initialized] → fld s' l = fld s l) → Q 0 s') →
  wp (atcuart_port_init freq hw) s Q.
Proof.
  intros [Hp Hr] Ho HQ. unfold atcuart_port_init. ustep. apply claim_pins_run; [done|]. intros s1 E1 T1. cbn [snd Z.eqb negb].
  destruct (has_pin hw CTS || has_pin hw RTS); usteps;
    (apply set_termios_run; [rewrite ?uart_upd_ne, E1 by done; exact Ho|]);
    intros s2 F1 F2 F3 F4 F5 F6 F7; rewrite Hr; cbn [Z.eqb]; usteps; apply HQ; try done; try (by rewrite F5);
    intros l Hl; rewrite (F7 l Hl);
    repeat (apply elem_of_cons in Hl as [->|Hl]; [by rewrite ?uart_upd_ne, E1 by done|]); by apply elem_of_nil in Hl.
Qed.

(** A port that is opened can be written to. *)
Lemma open_establishes freq hw s : hw_ok hw → fld s initialized = 0 → fld s enable = 0 → 0 < fld s depth < 2 ^ 30 → 0 ≤ fld s fill < fld s depth →
  fld s c_ispeed * Z.land (fld s OSC) 0x1f ≠ 0 →
  wp (serial_open freq (true, true) hw) s (λ v s', v = 0 ∧ tx_inv s' ∧ live s' ∧ fld s' initialized = 1).
Proof.
  intros Hw Hi He Hd Hf Ho. unfold serial_open. usteps. rewrite Hi. change (negb (0 =? 0)) with false. cbv iota. usteps. cbn [fst snd andb]. usteps.
  apply port_init_run; [exact Hw|exact Ho|]. intros s1 F1 F2 F3 F4 F5 F6 F7. usteps. change (0 =? 0) with true. cbv iota. usteps.
  assert (∀ l, bool_decide (l ∈ [enable; fill; depth; initialized]) = true → fld s1 l = fld s l) as F8.
  { intros l Hl. rewrite F7 by (by apply bool_decide_eq_true in Hl). apply bool_decide_eq_true in Hl.
    repeat (apply elem_of_cons in Hl as [->|Hl]; [done|]). by apply elem_of_nil in Hl. }
  split; [done|]. split; [|split; [|by rewrite uart_upd]].
  - split; rewrite ?uart_upd_ne by done; rewrite ?F6, ?F8 by done; try done; cbn; rewrite ?F4, ?F5; cbn; try lia; try constructor.
  - intros Hq. exfalso. apply Hq. cbn. by rewrite F5.
Qed.

Lemma fifo_depth hwc : 16 ≤ Z.shiftl 1 (4 + Z.land hwc 0x3) ≤ 128.
Proof.
  rewrite Z.shiftl_1_l. pose proof (Z.mod_pos_bound hwc 4 eq_refl).
  replace (Z.land hwc 0x3) with (hwc mod 2 ^ 2) by (symmetry; apply (Z.land_ones hwc 2); lia). change (2 ^ 2) with 4.
  assert (hwc mod 4 = 0 ∨ hwc mod 4 = 1 ∨ hwc mod 4 = 2 ∨ hwc mod 4 = 3) as [->|[->|[->| ->]]] by lia; by vm_compute.
Qed.

(** A port that was found and is opened can be written to, whatever the state of
    the memory and the controller before, and whatever size its FIFO has. *)
Lemma probe_open_establishes freq hw id hwc baud s : hw_ok hw → baud * Z.land (fld s OSC) 0x1f ≠ 0 →
  wp (atcuart_probe true true hw 0 id hwc baud;; serial_open freq (true, true) hw) s
     (λ v s', v = 0 ∧ tx_inv s' ∧ live s' ∧ fld s' initialized = 1).
Proof.
  intros Hw Ho. unfold atcuart_probe. cbn [negb]. usteps. pose proof (fifo_depth hwc).
  destruct (has_pin hw CTS && has_pin hw RTS); usteps; apply open_establishes; try done;
    repeat (rewrite uart_upd || rewrite uart_upd_ne by done); try done; try lia.
Qed.

(** ** What is written leaves the port *)

(** C32: characters that are written to a port leave it once, in their order, and
    none is lost.  A port is open as a file, with nothing lost on its way, one task
    writes to it, and no console output goes there; over any sequence of writes
    (of at least one character, with or without O_NONBLOCK), of characters that leave, arrive or arrive damaged, and of interrupts, also in the
    middle of a write, no write fails or waits for ever: each of them returns how
    many characters it took, at least one, except that with O_NONBLOCK it returns
    -EAGAIN when the queue is full; and the wire, the FIFO and the queue together
    hold what was sent before and what the writes took.  Serving interrupts then
    brings all of it to the wire, whatever else is received meanwhile. *)
Theorem uart_file_tx_exact n fuel l l' s :
  tx_inv s → live s → Forall op_ok l → (rx_work s < fuel)%nat → patience n s →
  wp (vs ← session n fuel l; acts_run fuel l';; mret vs) s (λ vs s', Forall2 result_ok (writes l) vs ∧ tx_inv s' ∧ live s' ∧
    content s' = content s ++ accepted l vs ∧
    ((2 * length (content s ++ accepted l vs) + rx_work s + damaged l' + 2 ≤ rounds l')%nat → wire_out s' = content s ++ accepted l vs)).
Proof.
  intros I L Hl Hf Hn. ustep. eapply wp_mono; [by apply session_run|]. cbv beta. intros vs s1 (Hvs&[F1 C1 R1 D1]). ustep.
  eapply wp_mono; [apply (acts_flow fuel l' false); [done|lia|done]|]. cbv beta. intros [] s2 (F2&B2&D2). usteps.
  split; [done|]. split; [apply F2|]. split; [apply F2|]. split; [by rewrite (be_content _ _ B2), C1|]. intros Hr.
  assert (distance s2 = 0)%nat as Hd.
  { destruct D2 as [?|D2]; [done|]. exfalso. pose proof (noise_le s1). rewrite <- C1 in Hr.
    assert (distance s1 ≤ 2 * length (content s1))%nat by (unfold distance, content; rewrite !length_app; lia).
    unfold rounds, total, pending_work in *. lia. }
  unfold distance in Hd. rewrite <- C1, <- (be_content _ _ B2). unfold content.
  rewrite (proj1 (length_zero_iff_nil (hw_tx s2))), (proj1 (length_zero_iff_nil (txq s2))), !app_nil_r by lia. done.
Qed.
End Files.

(** ** Baud rates and line errors *)

(** The divisor is the one that comes nearest to the clock. *)
Lemma baud_divisor_nearest freq baud os k : 0 ≤ freq → 0 < baud → 0 < os →
  abs_diff (baud_divisor freq baud os * baud * os) freq ≤ abs_diff (k * baud * os) freq.
Proof.
  intros Hf Hb Ho. unfold baud_divisor, abs_diff. set (c := baud * os). assert (0 < c) by (unfold c; nia).
  rewrite Z.quot_div_nonneg by lia. pose proof (Z.div_mod freq c ltac:(lia)) as Hd. pose proof (Z.mod_pos_bound freq c ltac:(lia)) as Hm.
  set (d := freq / c) in *. set (r := freq mod c) in *. rewrite <- !Z.mul_assoc. change (baud * os) with c.
  assert (Z.abs (d * c - freq) = r) as -> by nia. assert (Z.abs ((d + 1) * c - freq) = c - r) as -> by nia.
  assert (Z.min r (c - r) ≤ Z.abs (k * c - freq)).
  { destruct (Z.le_gt_cases k d); [assert (k * c ≤ d * c) by nia; lia|]. assert ((d + 1) * c ≤ k * c) by nia. lia. }
  destruct (Z.gtb_spec r (c - r)); [assert (Z.abs ((d + 1) * c - freq) = c - r) as -> by nia; lia|].
  assert (Z.abs (d * c - freq) = r) as -> by nia. lia.
Qed.

(** A client that asks for odd parity gets none. *)
Lemma odd_parity_off cfg : parity cfg = UART_ODD_PARITY → has (line_control (cfg_cflag cfg)) LCR_PEN = false.
Proof.
  intros Hp. unfold cfg_cflag. rewrite Hp. change (UART_ODD_PARITY =? UART_ODD_PARITY) with true. cbv iota zeta.
  by repeat match goal with |- context [if ?b then _ else _] => destruct b end.
Qed.

(** A line break is never reported. *)
Lemma line_break_masked v : has (event_err (Z.land v LSR_RXERR)) UART_ERR_LINE_BREAK = false.
Proof.
  unfold event_err. replace (has (Z.land v LSR_RXERR) LSR_LBRE) with false.
  - by repeat match goal with |- context [if ?b then _ else _] => destruct b end.
  - unfold has. rewrite <- Z.land_assoc. change (Z.land LSR_RXERR LSR_LBRE) with 0. by rewrite Z.land_0_r.
Qed.

(** ** A concrete port *)

Module Demo.

#[local] Instance hw : UartHw := {|
  rx_trigger v := if Z.land v 0xC0 =? 0 then 1%nat else 4%nat;
  tx_trigger v := if Z.land v 0x30 =? 0 then 0%nat else 4%nat |}.
#[local] Instance hw_laws : UartHwLaws hw.
Proof. by split. Qed.
#[local] Instance dma : UartDma := {| dma_copy_hw _ _ _ := (0, 0); dma_ch_get_trans_size _ := 0 |}.
#[local] Instance client : UartClient := {| on_event _ _ := [] |}.

Definition fresh : uart := Uart (λ l, match l with OSC => 16 | _ => 0 end) [] [] [] [] [] [] [] [] [] [[AOut]; []; [AIrq false]] [].
(** Pins for the data lines alone. *)
Definition pins : port_hw := PortHw [Some (PinMap 21 0); Some (PinMap 22 0); None; None] 0.
Definition opened : uart :=
  match (atcuart_probe true true pins 0 1 0 115200;; serial_open 40000000 (true, true) pins) fresh with Ret (_, s) => s | _ => fresh end.

(** Two writes of 20 characters, with a character and interrupts in between, and
    then enough rounds. *)
Definition text : list Z := seqZ 65 20.
Definition l0 : list op := [OWrite false text; OAct AOut; OAct (AErr Parity); OAct (AIrq false); OWrite true text].
Definition rest : list act := mjoin (replicate 95 [AOut; AIrq false]).

Lemma uart_file_tx_exact_witness : tx_inv opened ∧ live opened ∧
  wp (vs ← session 1000 10 l0; acts_run 10 rest;; mret vs) opened (λ vs s', Forall2 result_ok (writes l0) vs ∧ tx_inv s' ∧ live s' ∧
    content s' = content opened ++ accepted l0 vs ∧
    ((2 * length (content opened ++ accepted l0 vs) + rx_work opened + damaged rest + 2 ≤ rounds rest)%nat →
      wire_out s' = content opened ++ accepted l0 vs)).
Proof.
  assert (tx_inv opened) as I.
  { split; vm_compute; try (reflexivity || discriminate || lia); [by split|by split; discriminate|constructor]. }
  assert (live opened) as L by (intros Hq; exfalso; apply Hq; vm_compute; reflexivity).
  split; [exact I|]. split; [exact L|].
  apply (uart_file_tx_exact 1000 10 l0 rest opened I L); [|vm_compute; lia|vm_compute; lia].
  repeat constructor; (discriminate || (vm_compute; repeat constructor; discriminate)).
Defined.

Example demo_session : wp (session 1000 10 l0;; acts_run 10 rest) opened (λ _ s, wire_out s = text ++ text ∧ txq s = [] ∧ hw_tx s = []).
Proof. vm_compute. repeat split; reflexivity. Qed.

(** A write that may wait, of more than the queue holds, after one that filled it. *)
Definition long : list Z := replicate 300 66.
Example demo_waits : wp (session 1500 10 [OWrite true long; OWrite true text; OWrite false text]) opened
  (λ vs s, vs = [256; 16; 16] ∧ length (txq s) = 256%nat).
Proof. vm_compute. repeat split; reflexivity. Qed.

(** Changing the line while the FIFO counts as full stops the port for good: the
    interrupt is off, and the count is never reset. *)
Example demo_stall : wp (session 300 10 [OWrite true text];; atcuart_set_termios 40000000 CS8 9600;; session 300 10 [OWrite true text];; acts_run 10 rest) opened
  (λ _ s, (length (txq s) = 24)%nat ∧ hw_tx s = [] ∧ int_id false s = IIR_NONE).
Proof. vm_compute. repeat split; reflexivity. Qed.

(** Writing nothing sends a character and then reads past the buffer. *)
Example demo_write_nothing : serial_write 300 10 false [7] 0 opened = Fault.
Proof. vm_compute. reflexivity. Qed.

(** A read that may not block waits for all it asked for. *)
Example demo_read_blocks : serial_read 100 10 true 2 (set_queues [] [1] opened) = OutOfFuel.
Proof. vm_compute. reflexivity. Qed.

(** An open that fails, and another that gets no queue, delete a queue twice. *)
Definition taken : port_hw := PortHw [Some (PinMap 21 0); Some (PinMap 22 (- EBUSY)); None; None] 0.
Example demo_open_twice : (atcuart_probe true true taken 0 1 0 115200;; serial_open 40000000 (true, true) taken;;
  serial_open 40000000 (false, false) taken) fresh = Fault.
Proof. vm_compute. reflexivity. Qed.

(** A pin the port could not get is given back too, which the pin controller
    refuses; then the ones it has. *)
Example demo_pin_refused : wp (serial_open 40000000 (true, true) taken) fresh
  (λ v s, v = - EBUSY ∧ notes s = [NPinRequest 21; NPinRequest 22; NPinFree 22; NPinFree 21]).
Proof. vm_compute. split; reflexivity. Qed.

(** Without an interrupt, the pin map is read past its end. *)
Example demo_no_irq : (atcuart_probe true true pins 0 1 0 115200;; serial_open 40000000 (true, true) (PortHw (pmap pins) (- EBUSY))) fresh = Fault.
Proof. vm_compute. reflexivity. Qed.

(** Flow control with one of its two pins: off when the port is found, on when it is opened. *)
Definition half : port_hw := PortHw [Some (PinMap 21 0); Some (PinMap 22 0); Some (PinMap 23 0); None] 0.
Example demo_half_flow : wp (atcuart_probe true true half 0 1 0 115200;; (f ← ld c_cflag; serial_open 40000000 (true, true) half;; mret f)) fresh
  (λ f s, has f CRTSCTS = false ∧ has (fld s MCR) MCR_AFE = true).
Proof. vm_compute. split; reflexivity. Qed.

(** After a shutdown, opening the port again does nothing: its FIFO stays off. *)
Example demo_open_after_shutdown : wp (atcuart_shutdown pins;; serial_open 40000000 (true, true) pins) opened (λ v s, v = 0 ∧ fld s FCR = 0).
Proof. vm_compute. split; reflexivity. Qed.

End Demo.
