(* ===== verification/UartRaw.v ===== *)
(** * The serial ports: the raw mode

    A transmission puts its bytes on the wire and ends with one event; a
    reception takes the next bytes of the wire, and no more. *)

From stdpp Require Import base tactics numbers list gmap functions.
From S2P Require Import Prelude Uart UartTheorems.

Section Raw.
Context `{!UartHw, !UartHwLaws _, !UartDma, !UartClient}.
(** The client does not start a transfer from its function. *)
Context (passive : ∀ t e, on_event t e = []).

Record raw_mode (s : uart) : Prop := {
  rm_enable : fld s enable = 1;
  rm_dma : fld s dma_en = 0;
  rm_cb : fld s cb ≠ 0;
  rm_dlab : has (fld s LCR) LCR_DLAB = false;
  rm_fcr : fld s FCR = FC0;
  rm_depth : 0 < fld s depth < 2 ^ 30;
  rm_ctl : fld s fifo_ctl = FC0;
  rm_elsi : has (fld s IER) IER_ELSI = true;
}.

Lemma raw_mode_fld s s' : raw_mode s → (∀ l, match l with enable | dma_en | cb | LCR | FCR | depth | fifo_ctl => fld s' l = fld s l | _ => True end) →
  has (fld s' IER) IER_ELSI = has (fld s IER) IER_ELSI → raw_mode s'.
Proof.
  intros [R1 R2 R3 R4 R5 R6 R7 R8] Hf He. pose proof (Hf enable). pose proof (Hf dma_en). pose proof (Hf cb). pose proof (Hf LCR).
  pose proof (Hf FCR). pose proof (Hf depth). pose proof (Hf fifo_ctl). cbn in *. split; congruence.
Qed.

(** The bits of the receiver and of the line status are independent. *)
Lemma erbi_elsi (en : bool) v : has (if en then Z.lor (clear_bits IER_ERBI v) IER_ERBI else clear_bits IER_ERBI v) IER_ELSI = has v IER_ELSI.
Proof.
  unfold has, clear_bits. destruct en; rewrite ?Z.land_lor_distr_l, <- !Z.land_assoc.
  - change (Z.land (Z.lnot IER_ERBI) IER_ELSI) with IER_ELSI. change (Z.land IER_ERBI IER_ELSI) with 0. by rewrite Z.lor_0_r.
  - by change (Z.land (Z.lnot IER_ERBI) IER_ELSI) with IER_ELSI.
Qed.

(** A callback tells the client. *)
Lemma run_cb_run fuel ty e s (Q : unit → uart → Prop) : fld s cb ≠ 0 →
  Q () (tell (NCallback ty e) (upd (upd s ev_type ty) ev_err e)) → wp (run_cb fuel ty e) s Q.
Proof.
  intros Hc HQ. unfold run_cb. usteps. rewrite (proj2 (Z.eqb_neq _ _) Hc). usteps. rewrite passive. cbn [run_requests]. usteps. exact HQ.
Qed.

(** ** Transmission *)

Section Transmit.
Context (out0 : list Z) (notes0 : list note) (bs : list Z).
Context (bs_bytes : Forall (λ b, 0 ≤ b < 256) bs) (bs_len : Z.of_nat (length bs) < 2 ^ 30).

(** [o] bytes were handed to the FIFO. *)
Record sending_at (o : nat) (s : uart) : Prop := {
  sa_mode : raw_mode s;
  sa_quiet : quiet s;
  sa_len : fld s tx_len = Z.of_nat (length bs);
  sa_oft : fld s tx_oft = Z.of_nat o;
  sa_ok : (o ≤ length bs)%nat;
  sa_buf : tx_buf s = bs;
  sa_fill : Z.of_nat (length (hw_tx s)) ≤ fld s fill ≤ fld s depth;
  sa_content : wire_out s ++ hw_tx s = out0 ++ take o bs;
  sa_notes : notes s = notes0;
}.

Record sent_all (s : uart) : Prop := {
  al_mode : raw_mode s;
  al_quiet : quiet s;
  al_off : has (fld s IER) IER_ETHEI = false;
  al_oft : fld s tx_oft = fld s tx_len;
  al_fill : fld s fill = 0;
  al_hw : hw_tx s = [];
  al_out : wire_out s = out0 ++ bs;
  al_notes : notes s = notes0 ++ [NCallback UART_EVENT_TX_CMPL UART_ERR_NO];
}.

Lemma transmit_loop_run fuel o s : sending_at o s → fld s fill < fld s depth → (length bs - o ≤ fuel)%nat →
  wp (transmit_loop fuel (Z.of_nat o)) s (λ _ s', ∃ o', sending_at o' s' ∧ fld s' IER = fld s IER ∧ wire_out s' = wire_out s ∧
    (o ≤ o')%nat ∧ ((o < length bs)%nat → (o < o')%nat)).
Proof.
  revert o s. induction fuel as [|fuel IH]; intros o s T Hf Hfuel; cbn [transmit_loop]; ustep; ustep; rewrite (sa_len _ _ T);
    pose proof (sa_ok _ _ T) as Hok; destruct (Z.ltb_spec (Z.of_nat o) (Z.of_nat (length bs))) as [Hlt|Hge]; cbn [negb]; try lia.
  1,3: usteps; exists o; do 3 (split; [done|]); lia.
  destruct (lookup_lt_is_Some_2 bs o ltac:(lia)) as [c Hc]. pose proof (Forall_lookup_1 _ _ _ _ bs_bytes Hc) as Hb.
  destruct T as [M (Q1&Q2&Q3) L1 L2 L3 L4 L5 L6 L7]. pose proof M as [R1 R2 R3 R4 R5 R6 R7 R8].
  usteps. apply (wp_lift _ c); [by rewrite L4, Nat2Z.id|]. unfold write_20, write_THR, atcuart_fifo_is_full. usteps. rewrite R4. usteps.
  rewrite u8_id by done. rewrite decide_True by lia. set (s1 := set_hw_tx _ _ s). change (fld s1) with (fld s). rewrite s32_id by lia.
  set (s2 := upd s1 fill _). change (fld s2 tx_oft) with (fld s tx_oft). rewrite L2, u32_id by lia. replace (Z.of_nat o + 1) with (Z.of_nat (S o)) by lia.
  set (s3 := upd s2 tx_oft _). change (fld s3 depth) with (fld s depth). change (fld s3 fill) with (fld s fill + 1).
  assert (sending_at (S o) s3) as T3.
  { split; try done.
    - lia.
    - change (fld s3 fill) with (fld s fill + 1). change (fld s3 depth) with (fld s depth). change (hw_tx s3) with (hw_tx s ++ [c]).
      rewrite length_app. cbn [length]. lia.
    - change (wire_out s ++ hw_tx s ++ [c] = out0 ++ take (S o) bs). rewrite (take_S_r bs o c Hc), !app_assoc. by rewrite L6. }
  destruct (Z.eqb_spec (fld s fill + 1) (fld s depth)) as [He|He].
  - usteps. exists (S o). do 3 (split; [done|]). lia.
  - eapply wp_mono; [apply (IH (S o) s3); [done|change (fld s3 fill) with (fld s fill + 1); change (fld s3 depth) with (fld s depth); lia|lia]|].
    cbv beta. intros b s4 (o'&T4&E4&W4&Ho&_). exists o'. do 3 (split; [done|]). lia.
Qed.

(** The interrupt is on while a transmission is in progress. *)
Definition busy_at (o : nat) (s : uart) : Prop := sending_at o s ∧ has (fld s IER) IER_ETHEI = true.

Lemma raw_int_id_quiet rti s : raw_mode s → quiet s → int_id rti s =
  if has (fld s IER) IER_ETHEI && bool_decide (hw_tx s = []) then IIR_INTRID_THR else IIR_NONE.
Proof.
  intros M (Q1&Q2&Q3). unfold int_id. rewrite (rm_fcr _ M), Q1, Q3. unfold FC0. rewrite rx_trigger_0, tx_trigger_0.
  change (negb (0 =? 0)) with false. rewrite andb_false_r, bool_decide_eq_false_2 by (cbn; lia). rewrite andb_false_r.
  rewrite (bool_decide_eq_false_2 (_ ≠ _)) by tauto. rewrite andb_false_r.
  rewrite (bool_decide_ext (length (hw_tx s) ≤ 0)%nat (hw_tx s = [])); [done|]. rewrite <- length_zero_iff_nil. lia.
Qed.

Lemma tx_enable_sending (en : bool) o s (Q : unit → uart → Prop) : sending_at o s →
  (∀ s', sending_at o s' → has (fld s' IER) IER_ETHEI = en → fld s' fill = fld s fill → hw_tx s' = hw_tx s → wire_out s' = wire_out s → Q () s') →
  wp (atcuart_tx_enable en) s Q.
Proof.
  intros T HQ. apply tx_enable_run; [apply T|]. set (s' := upd _ IER _). apply HQ; try done.
  - destruct T as [M (Q1&Q2&Q3) L1 L2 L3 L4 L5 L6 L7]. split; try done.
    eapply raw_mode_fld; [exact M|by intros []|apply ethei_elsi].
  - transitivity (has (if en then Z.lor (clear_bits IER_ETHEI (fld s IER)) IER_ETHEI else clear_bits IER_ETHEI (fld s IER)) IER_ETHEI); [done|].
    destruct en; [apply has_lor|]. unfold has, clear_bits. rewrite <- Z.land_assoc. by rewrite Z.land_0_r.
Qed.

(** Bytes that have left, or the end. *)
Lemma raw_tx_irq rti o s : busy_at o s → hw_tx s = [] →
  wp (atcuart_irq (length bs) rti) s (λ _ s', (∃ o', busy_at o' s' ∧ wire_out s' = wire_out s ∧ (o < o')%nat) ∨ sent_all s').
Proof.
  intros [T Hon] Hh. pose proof T as [M Q L1 L2 L3 L4 L5 L6 L7]. unfold atcuart_irq. ustep. ustep. rewrite (rm_enable _ M). cbn [negb Z.eqb].
  unfold atcuart_irq_raw. ustep. ustep. ustep. rewrite raw_int_id_quiet, Hon, bool_decide_eq_true_2 by done. cbv zeta.
  change (Z.land (if true && true then IIR_INTRID_THR else IIR_NONE) IIR_INTRID) with IIR_INTRID_THR.
  cbv [IIR_INTRID_THR IIR_INTRID_RBR IIR_INTRID_RTI IIR_INTRID_LSR]. cbn [Z.eqb Pos.eqb]. unfold raw_thr. ustep. ustep. ustep.
  set (s1 := upd s fill 0).
  assert (sending_at o s1) as T1.
  { split; try done. - by eapply raw_mode_fld; [exact M|intros []|].
    - change (fld s1 fill) with 0. change (fld s1 depth) with (fld s depth). change (hw_tx s1) with (hw_tx s). rewrite Hh. destruct M. cbn [length]. lia. }
  usteps. change (fld s1 tx_oft) with (fld s tx_oft). change (fld s1 tx_len) with (fld s tx_len). rewrite L1, L2.
  destruct (Z.eqb_spec (Z.of_nat o) (Z.of_nat (length bs))) as [He|He]; ustep.
  - apply (tx_enable_sending false o); [done|]. intros s2 T2 Hoff Hfill Hhw Hwire. apply run_cb_run; [apply T2|]. usteps. right.
    destruct T2 as [M2 Q2 K1 K2 K3 K4 K5 K6 K7].
    split; try done.
    + by eapply raw_mode_fld; [exact M2|intros []|].
    + transitivity (fld s2 tx_oft); [done|]. transitivity (fld s2 tx_len); [|done]. rewrite K1, K2. by f_equal; lia.
    + transitivity (hw_tx s2); [done|]. by rewrite Hhw.
    + transitivity (wire_out s2); [done|]. rewrite Hhw in K6. change (hw_tx s1) with (hw_tx s) in K6. rewrite Hh, app_nil_r in K6.
      rewrite K6, take_ge by lia. done.
    + cbn. by rewrite K7.
  - eapply wp_mono; [apply (transmit_loop_run (length bs) o s1); [done|change (0 < fld s depth); destruct M; lia|lia]|].
    cbv beta. intros b s2 (o2&T2&E2&W2&_&Ho2). usteps. left. exists o2. split; [|split; [done|lia]]. split; [done|]. by rewrite E2.
Qed.

(** How far the end is away. *)
Inductive tx_phase : nat → uart → Prop :=
| TPBusy o s : busy_at o s → tx_phase (2 * (length bs - o) + length (hw_tx s) + 1) s
| TPDone s : sent_all s → tx_phase 0 s.

Lemma tx_phase_quiet m s : tx_phase m s → raw_mode s ∧ quiet s.
Proof. intros [o s' [T _]|s' D]; [by destruct T|by destruct D]. Qed.

Lemma tx_phase_out m s : tx_phase m s → ∃ m', tx_phase m' (hw_out s) ∧ ((m' < m)%nat ∨ m' = m ∧ hw_out s = s ∧ hw_tx s = []).
Proof.
  intros [o s' [T Hon]|s' D].
  - unfold hw_out. destruct (hw_tx s') as [|b f] eqn:E.
    + exists (2 * (length bs - o) + 0 + 1)%nat. split; [|right; done]. pose proof (TPBusy o s' (conj T Hon)) as P. by rewrite E in P.
    + exists (2 * (length bs - o) + length f + 1)%nat. split; [|left; cbn; lia].
      apply (TPBusy o (set_hw_tx f (wire_out s' ++ [b]) s')). split; [|done]. destruct T as [M Q L1 L2 L3 L4 L5 L6 L7].
      split; try done.
      * by destruct M.
      * change (Z.of_nat (length f) ≤ fld s' fill ≤ fld s' depth). rewrite E in L5. cbn [length] in L5. lia.
      * change ((wire_out s' ++ [b]) ++ f = out0 ++ take o bs). by rewrite <- L6, E, <- app_assoc.
  - exists 0%nat. unfold hw_out. rewrite (al_hw _ D). split; [by constructor|]. right. done.
Qed.

Lemma tx_phase_irq rti m s : tx_phase m s →
  wp (act_run (length bs) (AIrq rti)) s (λ _ s', ∃ m', tx_phase m' s' ∧ (m' ≤ m)%nat ∧ (hw_tx s = [] → m ≠ 0%nat → (m' < m)%nat)).
Proof.
  intros P. destruct (tx_phase_quiet _ _ P) as [M Q]. unfold act_run. usteps. rewrite raw_int_id_quiet by done.
  destruct P as [o s [T Hon]|s D].
  - rewrite Hon. cbn [andb]. case_bool_decide as Hh.
    + change (IIR_INTRID_THR =? IIR_NONE) with false. cbv iota. ustep. eapply wp_mono; [by apply (raw_tx_irq rti o)|]. cbv beta.
      intros v s' [(o'&B&W&Ho)|D]; usteps; [|exists 0%nat; split; [by constructor|lia]].
      pose proof (sa_ok _ _ (proj1 B)). pose proof (proj1 B) as T'.
      assert (length (hw_tx s') ≤ o' - o)%nat as Hlen.
      { pose proof (f_equal length (sa_content _ _ T')) as Hc'. pose proof (f_equal length (sa_content _ _ T)) as Hc.
        rewrite !length_app, length_take, W in Hc'. rewrite !length_app, length_take, Hh in Hc. cbn in Hc. lia. }
      eexists. split; [by constructor|]. rewrite Hh. cbn [length]. lia.
    + change (IIR_NONE =? IIR_NONE) with true. cbv iota. usteps. eexists. split; [by constructor|]. split; [done|]. by intros.
  - rewrite (al_off _ D). cbn [andb]. change (IIR_NONE =? IIR_NONE) with true. cbv iota. usteps. exists 0%nat. split; [by constructor|lia].
Qed.

Lemma tx_phase_in m s : tx_phase m s → hw_in s = s.
Proof. intros P. apply quiet_in. by eapply tx_phase_quiet. Qed.

Lemma tx_acts l seen m s : damaged l = 0%nat → tx_phase m s → (seen = true → hw_tx s = []) →
  wp (acts_run (length bs) l) s (λ _ s', ∃ m', tx_phase m' s' ∧ (m' ≤ m - rounds_from seen l)%nat).
Proof.
  revert seen m s. induction l as [|a l IH]; intros seen m s Hc P Hs; cbn [acts_run rounds_from].
  { usteps. exists m. split; [done|lia]. }
  destruct a as [| |e|rti]; cbn in Hc; [..|lia|]; ustep.
  - unfold act_run. usteps. destruct (tx_phase_out _ _ P) as (m'&P'&Hm). pose proof (rounds_from_seen l).
    destruct Hm as [Hm|(->&He&Hh)].
    + eapply wp_mono; [by apply (IH false m')|]. cbv beta. intros [] s' (m2&P2&Hm2). exists m2. split; [done|lia].
    + rewrite He in *. by apply IH.
  - unfold act_run. usteps. rewrite (tx_phase_in _ _ P). by apply IH.
  - eapply wp_mono; [by apply (tx_phase_irq rti m)|]. cbv beta. intros [] s1 (m1&P1&Hle&Hlt).
    eapply wp_mono; [by apply (IH false m1)|]. cbv beta. intros [] s' (m2&P2&Hm2). exists m2. split; [done|].
    destruct seen; [|lia]. specialize (Hlt (Hs eq_refl)). lia.
Qed.
End Transmit.

(** A port in raw mode on which nothing is sent. *)
Record tx_idle (s : uart) : Prop := {
  ix_mode : raw_mode s;
  ix_oft : fld s tx_oft = fld s tx_len;
  ix_fill : fld s fill = 0;
  ix_hw : hw_tx s = [];
}.

Lemma transmit_run a bs s : Forall (λ b, 0 ≤ b < 256) bs → Z.of_nat (length bs) < 2 ^ 30 → tx_idle s → quiet s →
  wp (atcuart_transmit (length bs) a bs (Z.of_nat (length bs))) s (λ v s', v = 0 ∧ ∃ m, tx_phase (wire_out s) (notes s) bs m s' ∧
    (m ≤ 2 * length bs + 1)%nat).
Proof.
  intros Hb Hlen [M Ho Hfi Hh] Q. pose proof M as [R1 R2 R3 R4 R5 R6 R7 R8]. unfold atcuart_transmit. usteps. rewrite R1.
  change (1 =? 0) with false. cbv iota. usteps. rewrite R2. change (negb (0 =? 0)) with false. cbv iota. usteps. rewrite Ho, Z.eqb_refl. cbn [negb]. usteps. set (s1 := upd _ tx_oft 0).
  assert (sending_at (wire_out s) (notes s) bs 0 s1) as T1.
  { split; try done; try lia.
    - change (Z.of_nat (length (hw_tx s)) ≤ fld s fill ≤ fld s depth). rewrite Hh, Hfi. cbn [length]. lia.
    - change (wire_out s ++ hw_tx s = wire_out s ++ take 0 bs). by rewrite Hh. }
  eapply wp_mono; [apply (transmit_loop_run (wire_out s) (notes s) bs Hb Hlen (length bs) 0 s1); [done|change (fld s fill < fld s depth); lia|lia]|].
  cbv beta. intros b s2 (o2&T2&E2&W2&_).
  assert (∀ s3, sending_at (wire_out s) (notes s) bs o2 s3 → has (fld s3 IER) IER_ETHEI = true → hw_tx s3 = hw_tx s2 →
    ∃ m, tx_phase (wire_out s) (notes s) bs m s3 ∧ (m ≤ 2 * length bs + 1)%nat) as K.
  { intros s3 T3 Hon Hh3. eexists. split; [by apply (TPBusy _ _ _ o2)|]. rewrite Hh3.
    pose proof (f_equal length (sa_content _ _ _ _ _ T2)) as Hc. rewrite !length_app, length_take, W2 in Hc. change (wire_out s1) with (wire_out s) in Hc.
    pose proof (sa_ok _ _ _ _ _ T2). lia. }
  destruct b; cbn [negb]; usteps; (eapply tx_enable_sending; [exact T2|]); intros s3 T3 Hon _ Hh3 _; usteps; split; [done|eauto|done|eauto].
Qed.

(** ** Reception *)

Section Receive.
Context (in0 : list Z) (notes0 : list note) (rb : list Z) (n : nat).
Context (in0_bytes : Forall (λ b, 0 ≤ b < 256) in0) (n_rb : (n ≤ length rb)%nat) (n_len : Z.of_nat n < 2 ^ 30).

(** No character gets lost: there is flow control, or the FIFO has room for all
    that comes. *)
Definition flows (s : uart) : Prop := has (fld s MCR) MCR_AFE = true ∨ Z.of_nat (length (hw_rx s ++ wire_in s)) ≤ fld s depth.

(** [o] bytes are in the buffer; the rest is in the FIFO or still to come. *)
Record receiving (o : nat) (s : uart) : Prop := {
  rc_mode : raw_mode s;
  rc_flow : flows s;
  rc_err : fld s hw_err = 0;
  rc_off : has (fld s IER) IER_ETHEI = false;
  rc_len : fld s rx_len = Z.of_nat n;
  rc_oft : fld s rx_oft = Z.of_nat o;
  rc_ok : (o ≤ n)%nat;
  rc_buf : rx_buf s = take o in0 ++ drop o rb;
  rc_rest : hw_rx s ++ wire_in s = drop o in0;
  rc_notes : notes s = notes0;
}.

Record received_all (s : uart) : Prop := {
  ra_mode : raw_mode s;
  ra_flow : flows s;
  ra_err : fld s hw_err = 0;
  ra_off : has (fld s IER) IER_ETHEI = false ∧ has (fld s IER) IER_ERBI = false;
  ra_len : fld s rx_len = Z.of_nat n;
  ra_oft : fld s rx_oft = fld s rx_len;
  ra_buf : rx_buf s = take n in0 ++ drop n rb;
  ra_rest : hw_rx s ++ wire_in s = drop n in0;
  ra_notes : notes s = notes0 ++ [NCallback UART_EVENT_RX_CMPL UART_ERR_NO];
}.

Lemma flows_le s s' : fld s' MCR = fld s MCR → fld s' depth = fld s depth → (length (hw_rx s' ++ wire_in s') ≤ length (hw_rx s ++ wire_in s))%nat →
  flows s → flows s'.
Proof. unfold flows. intros -> -> Hl [Hf|Hf]; [by left|]. right. lia. Qed.

(** An arriving byte changes the FIFO and the wire only. *)
Lemma in_flow s : flows s →
  hw_in s = s ∨ ∃ b w, wire_in s = b :: w ∧ hw_in s = set_hw_rx (hw_rx s ++ [b]) w s.
Proof.
  unfold flows. intros Hf. unfold hw_in. destruct (wire_in s) as [|b w]; [by left|]. case_decide as Hd; [right; eauto|].
  destruct Hf as [->|Hf]; [by left|]. rewrite length_app in Hf. cbn in Hf. lia.
Qed.

Lemma receiving_in o s : receiving o s → receiving o (hw_in s) ∧ (length (hw_rx s) ≤ length (hw_rx (hw_in s)))%nat ∧ fld (hw_in s) = fld s.
Proof.
  intros T. destruct (in_flow s (rc_flow _ _ T)) as [->|(b&w&E&->)]; [done|].
  destruct T as [M F1 F2 F3 F4 F5 F6 F7 F8 F9]. split; [|cbn; rewrite length_app; split; [lia|done]].
  split; try done; [by destruct M| |].
  - eapply flows_le; [| | |exact F1]; [done..|]. cbn. rewrite E, <- app_assoc. done.
  - change ((hw_rx s ++ [b]) ++ w = drop o in0). by rewrite <- F8, E, <- app_assoc.
Qed.
Lemma receiving_ins o k s : receiving o s → receiving o (Nat.iter k hw_in s) ∧ (length (hw_rx s) ≤ length (hw_rx (Nat.iter k hw_in s)))%nat ∧
  fld (Nat.iter k hw_in s) = fld s.
Proof.
  intros T. induction k as [|k (T'&L'&F')]; [done|]. rewrite Nat.iter_succ. destruct (receiving_in o _ T') as (T2&L2&F2).
  split; [done|]. split; [lia|]. by rewrite F2.
Qed.

(** The next byte, when there is one. *)
Lemma getc_receiving o s : receiving o s →
  wp atcuart_getc s (λ v s', fld s' IER = fld s IER ∧ ((v < 0 ∧ hw_rx s = [] ∧ receiving o s') ∨
    ∃ f, in0 !! o = Some v ∧ 0 ≤ v < 256 ∧ receiving o (set_hw_rx (v :: f) (wire_in s') s') ∧ f = hw_rx s')).
Proof.
  intros T. unfold atcuart_getc, read_LSR. usteps. set (s0 := set_steps _ s).
  assert (receiving o s0) as T0 by (destruct T as [M ]; split; try done; by destruct M).
  destruct (receiving_ins o (next_steps s) s0 T0) as (T1&L1&F1). set (t := Nat.iter _ _ _) in *. clearbody t.
  rewrite (rc_err _ _ T1). change (Z.land 0 LSR_ERRF) with 0. set (u := upd t hw_err 0).
  assert (fld u IER = fld s IER) as Hier by (unfold u; rewrite uart_upd_ne by done; by rewrite F1).
  assert (receiving o u) as Tu.
  { destruct T1 as [M G1 G2 G3 G4 G5 G6 G7 G8 G9]. split; try done. by eapply raw_mode_fld; [exact M|intros []|]. }
  assert (LSR_word t = Z.lor (if decide (hw_tx t = []) then Z.lor LSR_TEMT LSR_THRE else 0) (if decide (hw_rx t = []) then 0 else LSR_DR)) as ->
    by (unfold LSR_word; by rewrite (rc_err _ _ T1)).
  replace (has _ LSR_ERRF) with false by (by destruct (decide (hw_tx t = [])), (decide (hw_rx t = []))).
  destruct (decide (hw_rx t = [])) as [Hh|Hh].
  - replace (has _ LSR_DR) with false by (by destruct (decide (hw_tx t = []))). cbn [negb]. usteps. split; [done|]. left. split; [done|]. split; [|done].
    rewrite Hh in L1. change (hw_rx s0) with (hw_rx s) in L1. apply length_zero_iff_nil. cbn in L1. lia.
  - replace (has _ LSR_DR) with true by (by destruct (decide (hw_tx t = []))). cbn [negb]. unfold read_RBR. usteps. split; [done|]. right.
    change (hw_rx u) with (hw_rx t) in *. destruct (hw_rx t) as [|b f] eqn:E; [done|]. cbn [hd tail]. exists f.
    assert (in0 !! o = Some b) as Hb.
    { pose proof (rc_rest _ _ T1) as Hr. rewrite E in Hr. cbn in Hr. rewrite <- (Nat.add_0_r o), <- lookup_drop. by rewrite <- Hr. }
    split; [done|]. split; [exact (Forall_lookup_1 _ _ _ _ in0_bytes Hb)|]. split; [|done].
    destruct Tu as [M G1 G2 G3 G4 G5 G6 G7 G8 G9]. assert (hw_rx u = b :: f) as Eu by exact E. split; try done; [by destruct M| |].
    + eapply flows_le; [| | |exact G1]; [done..|]. rewrite Eu. done.
    + rewrite <- G8, Eu. done.
Qed.

Lemma receive_loop_run fuel o s : receiving o s → (n - o ≤ fuel)%nat →
  wp (receive_loop fuel (Z.of_nat o)) s (λ _ s', ∃ o', receiving o' s' ∧ fld s' IER = fld s IER ∧ (o ≤ o')%nat ∧
    ((o < n)%nat → hw_rx s ≠ [] → (o < o')%nat)).
Proof.
  revert o s. induction fuel as [|fuel IH]; intros o s T Hfuel; cbn [receive_loop]; ustep; ustep; rewrite (rc_len _ _ T);
    pose proof (rc_ok _ _ T) as Hok; destruct (Z.ltb_spec (Z.of_nat o) (Z.of_nat n)) as [Hlt|Hge]; cbn [negb]; try lia.
  1,3: usteps; exists o; do 2 (split; [done|]); lia.
  ustep. eapply wp_mono; [by apply (getc_receiving o)|]. cbv beta. intros v s1 [Hier [(Hv&Hh&T1)|(f&Hv&Hb&T1&Hf)]].
  { rewrite (proj2 (Z.ltb_lt _ _) Hv). usteps. exists o. do 2 (split; [done|]). split; [lia|]. by intros. }
  apply lookup_lt_Some in Hv as Hlen. rewrite (proj2 (Z.ltb_ge v 0)) by lia. unfold store_rx. usteps.
  destruct T1 as [M F1 F2 F3 F4 F5 F6 F7 F8 F9]. cbn in F7, F8. change (fld (set_hw_rx (v :: f) (wire_in s1) s1)) with (fld s1) in *.
  assert (Z.land v 255 = v) as -> by (change 255 with (Z.ones 8); rewrite Z.land_ones by lia; apply Z.mod_small; lia).
  rewrite Nat2Z.id, F7, decide_True by (rewrite length_app, length_take, length_drop; lia). usteps. cbn [fld set_rx_buf].
  rewrite F5, u32_id by lia. replace (Z.of_nat o + 1) with (Z.of_nat (S o)) by lia.
  set (s2 := upd _ rx_oft _).
  assert (receiving (S o) s2) as T2.
  { split; try done; [by eapply (raw_mode_fld (set_hw_rx (v :: f) (wire_in s1) s1)); [exact M|intros []|]| |lia| |].
    - eapply flows_le; [| | |exact F1]; [done..|]. change (length (hw_rx s1 ++ wire_in s1) ≤ length ((v :: f) ++ wire_in s1))%nat. rewrite <- Hf. cbn. lia.
    - transitivity (<[o:=v]> (take o in0 ++ drop o rb)); [done|]. destruct (lookup_lt_is_Some_2 rb o ltac:(lia)) as [y Hy].
      rewrite (take_S_r in0 o v Hv), (drop_S rb y o Hy), <- app_assoc. cbn.
      rewrite insert_app_r_alt by (rewrite length_take; lia). rewrite length_take. by replace (o - o `min` length in0)%nat with 0%nat by lia.
    - transitivity (hw_rx s1 ++ wire_in s1); [done|]. rewrite (drop_S in0 v o Hv) in F8. rewrite <- Hf. by injection F8. }
  eapply wp_mono; [apply (IH (S o) s2); [done|lia]|]. cbv beta. intros [] s3 (o3&T3&E3&Ho3&_). exists o3. split; [done|].
  split; [by rewrite E3|]. lia.
Qed.

Lemma rx_enable_run (en : bool) s (Q : unit → uart → Prop) : has (fld s LCR) LCR_DLAB = false →
  Q () (upd (upd s stay (if en then 1 else 0)) IER
    (if en then Z.lor (clear_bits IER_ERBI (fld s IER)) IER_ERBI else clear_bits IER_ERBI (fld s IER))) →
  wp (atcuart_rx_enable en) s Q.
Proof.
  intros Hl HQ. unfold atcuart_rx_enable, read_24, write_24. usteps. rewrite Hl. usteps.
  rewrite uart_upd_ne, Hl by done. usteps. exact HQ.
Qed.

(** The two enable bits are independent. *)
Lemma erbi_bits (en : bool) v : let w := if en then Z.lor (clear_bits IER_ERBI v) IER_ERBI else clear_bits IER_ERBI v in
  has w IER_ERBI = en ∧ has w IER_ETHEI = has v IER_ETHEI.
Proof.
  cbv zeta. unfold has, clear_bits. destruct en; rewrite ?Z.land_lor_distr_l, <- !Z.land_assoc.
  - change (Z.land (Z.lnot IER_ERBI) IER_ERBI) with 0. change (Z.land (Z.lnot IER_ERBI) IER_ETHEI) with IER_ETHEI.
    change (Z.land IER_ERBI IER_ETHEI) with 0. by rewrite Z.land_0_r, Z.lor_0_r.
  - change (Z.land (Z.lnot IER_ERBI) IER_ERBI) with 0. change (Z.land (Z.lnot IER_ERBI) IER_ETHEI) with IER_ETHEI. by rewrite Z.land_0_r.
Qed.

Definition waiting (o : nat) (s : uart) : Prop := receiving o s ∧ (o < n)%nat ∧ has (fld s IER) IER_ERBI = true.

Lemma raw_rx_int_id rti s : raw_mode s → fld s hw_err = 0 → has (fld s IER) IER_ETHEI = false →
  int_id rti s = if has (fld s IER) IER_ERBI && negb (bool_decide (hw_rx s = [])) then IIR_INTRID_RBR else IIR_NONE.
Proof.
  intros M He Hoff. unfold int_id. rewrite (rm_fcr _ M), He, Hoff. unfold FC0. rewrite rx_trigger_0. change (negb (0 =? 0)) with false.
  rewrite andb_false_r. cbn [andb].
  rewrite (bool_decide_ext (1 ≤ length (hw_rx s))%nat (hw_rx s ≠ [])) by (rewrite <- length_zero_iff_nil; lia).
  rewrite bool_decide_not. by destruct (has (fld s IER) IER_ERBI), rti, (bool_decide (hw_rx s = [])).
Qed.

Lemma raw_rx_irq rti o s : waiting o s → hw_rx s ≠ [] →
  wp (atcuart_irq n rti) s (λ _ s', (∃ o', waiting o' s' ∧ (o < o')%nat) ∨ received_all s').
Proof.
  intros (T&Ho&Hon) Hh. unfold atcuart_irq. ustep. ustep. rewrite (rm_enable _ (rc_mode _ _ T)). cbn [negb Z.eqb].
  unfold atcuart_irq_raw. ustep. ustep. ustep. rewrite raw_rx_int_id by apply T. rewrite Hon, bool_decide_eq_false_2 by done. cbv zeta.
  change (Z.land (if true && negb false then IIR_INTRID_RBR else IIR_NONE) IIR_INTRID) with IIR_INTRID_RBR.
  cbv [IIR_INTRID_THR IIR_INTRID_RBR IIR_INTRID_RTI IIR_INTRID_LSR]. cbn [Z.eqb Pos.eqb]. ustep. ustep. ustep.
  unfold raw_rbr. ustep. ustep. rewrite (rc_oft _ _ T). ustep.
  eapply wp_mono; [apply (receive_loop_run n o s T); lia|]. cbv beta. intros [] s1 (o1&T1&E1&_&Hlt). specialize (Hlt Ho Hh).
  ustep. ustep. ustep. ustep. rewrite (rc_oft _ _ T1), (rc_len _ _ T1). pose proof (rc_ok _ _ T1) as Hok1.
  destruct (Z.eqb_spec (Z.of_nat o1) (Z.of_nat n)) as [He|He].
  - assert (o1 = n) as -> by lia. ustep. apply rx_enable_run; [apply T1|]. set (s2 := upd _ IER _). apply run_cb_run; [apply T1|]. usteps. right.
    destruct T1 as [M F1 F2 F3 F4 F5 F6 F7 F8 F9]. destruct (erbi_bits false (fld s1 IER)) as [B1 B2].
    split; try done.
    + eapply raw_mode_fld; [exact M|by intros []|apply (erbi_elsi false)].
    + split; [|exact B1]. transitivity (has (fld s1 IER) IER_ETHEI); [exact B2|done].
    + transitivity (fld s1 rx_oft); [done|]. transitivity (fld s1 rx_len); [by rewrite F4, F5|done].
    + cbn. by rewrite F9.
  - usteps. left. exists o1. split; [|done]. split; [done|]. split; [lia|]. by rewrite E1.
Qed.

Inductive rx_phase : nat → uart → Prop :=
| RPWait o s : waiting o s → rx_phase (n - o) s
| RPDone s : received_all s → rx_phase 0 s.

Lemma waiting_out o s : waiting o s → waiting o (hw_out s).
Proof.
  intros (T&Ho&Hon). unfold hw_out. destruct (hw_tx s); [done|]. split; [|done]. destruct T as [M F1 F2 F3 F4 F5 F6 F7 F8 F9].
  split; try done. by destruct M.
Qed.
Lemma received_all_out s : received_all s → received_all (hw_out s).
Proof.
  intros [M F1 F2 F3 Fl F4 F5 F6 F7]. unfold hw_out. destruct (hw_tx s); [done|]. split; try done. by destruct M.
Qed.
Lemma rx_phase_out m s : rx_phase m s → rx_phase m (hw_out s) ∧ hw_rx (hw_out s) = hw_rx s.
Proof.
  intros P. split; [|by unfold hw_out; destruct (hw_tx s)].
  destruct P as [o s W|s D]; [by apply RPWait, waiting_out|by apply RPDone, received_all_out].
Qed.

Context (enough : (n ≤ length in0)%nat).

Lemma rx_phase_in m s : rx_phase m s → rx_phase m (hw_in s) ∧ (m ≠ 0%nat → hw_rx (hw_in s) ≠ []).
Proof.
  intros [o s' (T&Ho&Hon)|s' D].
  - destruct (receiving_in o s' T) as (T'&L&F). split; [apply RPWait; split; [done|]; by rewrite F|]. intros _ He.
    rewrite He in L. cbn in L. assert (hw_rx s' = []) as Hh by (apply length_zero_iff_nil; lia).
    assert (wire_in s' ≠ []) as Hw.
    { intros Hw. pose proof (rc_rest _ _ T) as Hr. rewrite Hh, Hw in Hr. apply (f_equal length) in Hr. rewrite length_drop in Hr. cbn in Hr. lia. }
    revert He. unfold hw_in. destruct (wire_in s') as [|b w]; [done|]. rewrite Hh. destruct (rm_depth _ (rc_mode _ _ T)).
    rewrite decide_True by (cbn; lia). done.
  - split; [|done]. apply RPDone. destruct (in_flow s' (ra_flow _ D)) as [->|(b&w&E&->)]; [done|]. destruct D as [M F1 F2 F3 Fl F4 F5 F6 F7].
    split; try done; [by destruct M| |].
    + eapply flows_le; [| | |exact F1]; [done..|]. cbn. rewrite E, <- app_assoc. done.
    + change ((hw_rx s' ++ [b]) ++ w = drop n in0). by rewrite <- F6, E, <- app_assoc.
Qed.

Lemma rx_phase_irq rti m s : rx_phase m s →
  wp (act_run n (AIrq rti)) s (λ _ s', ∃ m', rx_phase m' s' ∧ (m' ≤ m)%nat ∧ (hw_rx s ≠ [] → m ≠ 0%nat → (m' < m)%nat)).
Proof.
  intros [o s' W|s' D]; unfold act_run; usteps.
  - pose proof W as (T&Ho&Hon). rewrite raw_rx_int_id by apply T. rewrite Hon. cbn [andb]. case_bool_decide as Hh; cbn [negb].
    + change (IIR_NONE =? IIR_NONE) with true. cbv iota. usteps. eexists. split; [by apply RPWait|]. split; [done|]. by intros.
    + change (IIR_INTRID_RBR =? IIR_NONE) with false. cbv iota. ustep. eapply wp_mono; [by apply (raw_rx_irq rti o)|]. cbv beta.
      intros v s2 [(o'&W'&Ho')|D']; usteps; eexists; (split; [by constructor|]).
      * destruct W' as (_&?&_). lia.
      * lia.
  - destruct (ra_off _ D) as [D1 D2]. rewrite raw_rx_int_id by (done || apply D). rewrite D2. cbn [andb].
    change (IIR_NONE =? IIR_NONE) with true. cbv iota. usteps. exists 0%nat. split; [by constructor|]. lia.
Qed.

(** How often an interrupt is served after a byte had its turn to arrive. *)
Fixpoint rx_rounds_from (seen : bool) (l : list act) : nat :=
  match l, seen with
  | [], _ => 0
  | AIn :: l, _ | AErr _ :: l, _ => rx_rounds_from true l
  | AOut :: l, _ => rx_rounds_from seen l
  | AIrq _ :: l, true => S (rx_rounds_from false l)
  | AIrq _ :: l, false => rx_rounds_from false l
  end.

Lemma rx_acts l seen m s : damaged l = 0%nat → rx_phase m s → (seen = true → m ≠ 0%nat → hw_rx s ≠ []) →
  wp (acts_run n l) s (λ _ s', ∃ m', rx_phase m' s' ∧ (m' ≤ m - rx_rounds_from seen l)%nat).
Proof.
  revert seen m s. induction l as [|a l IH]; intros seen m s Hc P Hs; cbn [acts_run rx_rounds_from].
  { usteps. exists m. split; [done|lia]. }
  destruct a as [| |e|rti]; cbn in Hc; [..|lia|]; ustep.
  - unfold act_run. usteps. destruct (rx_phase_out _ _ P) as [P' Hh]. apply IH; [done|done|]. by rewrite Hh.
  - unfold act_run. usteps. destruct (rx_phase_in _ _ P) as [P' Hh]. by apply IH.
  - eapply wp_mono; [by apply (rx_phase_irq rti m)|]. cbv beta. intros [] s1 (m1&P1&Hle&Hlt).
    eapply wp_mono; [by apply (IH false m1)|]. cbv beta. intros [] s' (m2&P2&Hm2). exists m2. split; [done|].
    destruct seen; [|lia]. destruct (decide (m = 0)%nat); [lia|]. specialize (Hs eq_refl ltac:(done)). specialize (Hlt Hs). lia.
Qed.

(** ** Line errors *)

(** [brk]: the line may break.  A break is not reported as an error. *)
Context (brk : bool).

Definition damage (s : uart) : Prop := brk = false → has (fld s hw_err) (Z.lor LSR_FE LSR_PE) = true.

(** A reception on a line with errors: [o] bytes are in the buffer, and the client
    has been told [es].  The receiver is on until the client was told. *)
Record attempt (o : nat) (es : list Z) (s : uart) : Prop := {
  at_mode : raw_mode s;
  at_flow : flows s;
  at_off : has (fld s IER) IER_ETHEI = false;
  at_on : has (fld s IER) IER_ERBI = bool_decide (es = []);
  at_len : fld s rx_len = Z.of_nat n;
  at_oft : fld s rx_oft = Z.of_nat o;
  at_ok : (o ≤ n)%nat;
  at_buf : rx_buf s = take o in0 ++ drop o rb;
  at_notes : notes s = notes0 ++ (NCallback UART_EVENT_RX_CMPL <$> es);
  at_wait : es = [] → (o < n)%nat ∧ (fld s hw_err = 0 → hw_rx s ++ wire_in s = drop o in0) ∧ (fld s hw_err ≠ 0 → damage s);
  at_told : ∀ e es', es = e :: es' → o = n ∧ e = UART_ERR_NO ∨ (o < n)%nat ∧ (brk = false → e ≠ UART_ERR_NO);
}.

Lemma attempt_waiting o s : attempt o [] s → fld s hw_err = 0 → waiting o s.
Proof.
  intros [A1 A2 A3 A4 A5 A6 A7 A8 A9 A10 A11] He. destruct (A10 eq_refl) as (B1&B2&_).
  split; [|done]. split; try done; [by apply B2|]. rewrite A9. apply app_nil_r.
Qed.
Lemma waiting_attempt o s : waiting o s → attempt o [] s.
Proof.
  intros ([F1 F2 F3 F4 F5 F6 F7 F8 F9 F10]&Ho&Hon). split; try done. by rewrite F10, app_nil_r.
Qed.
Lemma received_attempt s : received_all s → attempt n [UART_ERR_NO] s.
Proof.
  intros [F1 F2 F3 [F4 F4'] Fl F5 F6 F7 F8]. split; try done; [by rewrite F5|]. intros e es' [= <- <-]. by left.
Qed.

(** Steps of the line that leave the driver's fields alone. *)
Lemma attempt_in o es s : attempt o es s → attempt o es (hw_in s) ∧ fld (hw_in s) = fld s.
Proof.
  intros A. destruct (in_flow s (at_flow _ _ _ A)) as [->|(b&w&E&->)]; [done|]. split; [|done].
  destruct A as [A1 A2 A3 A4 A5 A6 A7 A8 A9 A10 A11]. split; try done.
  - by destruct A1.
  - eapply flows_le; [| | |exact A2]; [done..|]. cbn. rewrite E, <- app_assoc. done.
  - intros He. destruct (A10 He) as (B1&B2&B3). split; [done|]. split; [|done]. intros Hz.
    change ((hw_rx s ++ [b]) ++ w = drop o in0). by rewrite <- (B2 Hz), E, <- app_assoc.
Qed.

Lemma attempt_ins o es k s : attempt o es s → attempt o es (Nat.iter k hw_in s) ∧ fld (Nat.iter k hw_in s) = fld s.
Proof.
  intros A. induction k as [|k [A' F']]; [done|]. rewrite Nat.iter_succ. destruct (attempt_in o es _ A') as [A2 F2]. by rewrite F2.
Qed.

Lemma attempt_out o es s : attempt o es s → attempt o es (hw_out s).
Proof.
  intros [A1 A2 A3 A4 A5 A6 A7 A8 A9 A10 A11]. unfold hw_out. destruct (hw_tx s); [done|]. split; try done. by destruct A1.
Qed.

Lemma bad_nonzero v e : Z.lor v (error_bits e) ≠ 0.
Proof. intros [_ Hz]%Z.lor_eq_0_iff. by destruct e. Qed.

Lemma attempt_bad e o es s : (e = Break → brk = true) → attempt o es s → attempt o es (hw_bad e s) ∧ fld (hw_bad e s) hw_err ≠ 0.
Proof.
  intros Hb A. destruct (attempt_in o es s A) as [[A1 A2 A3 A4 A5 A6 A7 A8 A9 A10 A11] F].
  assert (fld (hw_bad e s) hw_err = Z.lor (fld (hw_in s) hw_err) (error_bits e)) as He by (unfold hw_bad; by rewrite uart_upd).
  split; [|rewrite He; apply bad_nonzero].
  assert (∀ l, l ≠ hw_err → fld (hw_bad e s) l = fld (hw_in s) l) as Hf by (intros; unfold hw_bad; by rewrite uart_upd_ne).
  split; rewrite ?Hf by done; try done.
  - eapply raw_mode_fld; [exact A1|by intros []|by rewrite Hf].
  - intros Hes. destruct (A10 Hes) as (B1&B2&B3). split; [done|]. split; [intros Hz; by destruct (bad_nonzero (fld (hw_in s) hw_err) e); rewrite <- He|].
    intros _ Hbr. rewrite He. unfold has. rewrite Z.land_lor_distr_l. apply negb_true_iff, Z.eqb_neq. intros [_ Hz]%Z.lor_eq_0_iff.
    destruct e; [done|done|]. specialize (Hb eq_refl). congruence.
Qed.

(** Framing and parity errors are reported. *)
Lemma event_err_damage v : has v (Z.lor LSR_FE LSR_PE) = true → event_err (Z.land v LSR_RXERR) ≠ UART_ERR_NO.
Proof.
  unfold has, event_err. intros Hv%negb_true_iff%Z.eqb_neq. unfold has. rewrite <- !Z.land_assoc.
  change (Z.land LSR_RXERR LSR_FE) with LSR_FE. change (Z.land LSR_RXERR LSR_PE) with LSR_PE.
  change (Z.land LSR_RXERR LSR_LBRE) with 0. rewrite Z.land_0_r. change (negb (0 =? 0)) with false. cbv iota zeta.
  rewrite Z.land_lor_distr_r in Hv.
  destruct (Z.eqb_spec (Z.land v LSR_FE) 0) as [E1|E1], (Z.eqb_spec (Z.land v LSR_PE) 0) as [E2|E2]; cbn [negb].
  { by rewrite E1, E2 in Hv. }
  all: by destruct (negb (Z.land v (Z.land LSR_RXERR LSR_OE) =? 0)).
Qed.

Lemma raw_reset_run s (Q : unit → uart → Prop) : raw_mode s →
  Q () (upd (set_hw_rx [] (wire_in s) (upd s FCR FC0)) hw_err 0) → wp reset_rx_fifo s Q.
Proof.
  intros M HQ. unfold reset_rx_fifo, write_FCR. usteps. rewrite (rm_ctl _ M). change (has _ FCR_TFIFORST) with false.
  change (has _ FCR_RFIFORST) with true. cbv iota. usteps. exact HQ.
Qed.

(** The handler of a line error ends the reception, if there still is one. *)
Lemma raw_lsr_run k o es s : attempt o es s → fld s hw_err ≠ 0 → wp (raw_lsr k) s (λ _ s', ∃ e, attempt o (es ++ [e]) s').
Proof.
  intros A He. unfold raw_lsr, read_LSR. usteps. set (s0 := set_steps _ s).
  assert (attempt o es s0) as A0 by (destruct A as [M]; split; try done; by destruct M).
  destruct (attempt_ins o es (next_steps s) s0 A0) as (At&Ft). set (t := Nat.iter _ _ _) in *. change (fld s0) with (fld s) in Ft. clearbody t s0.
  set (v := LSR_word t). set (t1 := upd t hw_err _). pose proof (at_mode _ _ _ At) as M.
  assert (fld t1 enable = 1) as -> by exact (rm_enable _ M). assert (fld t1 dma_en = 0) as -> by exact (rm_dma _ M).
  change (negb (1 =? 0) && negb (0 =? 0)) with false. cbv iota. usteps. set (t2 := upd t1 rx_err _).
  apply rx_enable_run; [exact (rm_dlab _ M)|]. usteps. set (t3 := upd _ IER _).
  assert (fld t3 IER = clear_bits IER_ERBI (fld t IER)) as HI by (unfold t3; by rewrite uart_upd).
  assert (raw_mode t3) as M3.
  { eapply raw_mode_fld; [exact M|by intros []|]. rewrite HI. apply (erbi_elsi false). }
  apply raw_reset_run; [exact M3|]. usteps. set (t4 := upd _ hw_err 0). apply run_cb_run; [exact (rm_cb _ M3)|]. set (s' := tell _ _).
  exists (event_err (Z.land v LSR_RXERR)). destruct (erbi_bits false (fld t IER)) as [E1 E2].
  destruct At as [A1 A2 A3 A4 A5 A6 A7 A8 A9 A10 A11].
  assert (raw_mode s') as M'.
  { destruct M3 as [? ? ? ? ? ? ? Hel]. split; try done. }
  split; try done.
  - eapply flows_le; [| | |exact A2]; [done..|]. cbn. rewrite length_app. lia.
  - change (has (fld t3 IER) IER_ETHEI = false). rewrite HI. by rewrite E2.
  - change (has (fld t3 IER) IER_ERBI = bool_decide (es ++ [event_err (Z.land v LSR_RXERR)] = [])). rewrite HI, E1, bool_decide_eq_false_2; [done|].
    by destruct es.
  - change (notes t ++ [NCallback UART_EVENT_RX_CMPL (event_err (Z.land v LSR_RXERR))] =
      notes0 ++ (NCallback UART_EVENT_RX_CMPL <$> es ++ [event_err (Z.land v LSR_RXERR)])). by rewrite A9, fmap_app, <- app_assoc.
  - by destruct es.
  - intros e es' Hes. destruct es as [|e0 es]; [|injection Hes as <- _; by eapply A11]. injection Hes as <- _.
    destruct (A10 eq_refl) as (B1&_&B3). right. split; [done|]. intros Hbr. apply event_err_damage. unfold v, LSR_word.
    specialize (B3 ltac:(by rewrite Ft) Hbr). revert B3. unfold has. rewrite !Z.land_lor_distr_l, <- !Z.land_assoc.
    change (Z.land (Z.lor LSR_RXERR LSR_LBRE) (Z.lor LSR_FE LSR_PE)) with (Z.lor LSR_FE LSR_PE).
    intros Hz%negb_true_iff%Z.eqb_neq. apply negb_true_iff, Z.eqb_neq. intros [[Hx _]%Z.lor_eq_0_iff _]%Z.lor_eq_0_iff. done.
Qed.

Lemma lsr_irq_run rti o es s : attempt o es s → fld s hw_err ≠ 0 → wp (atcuart_irq n rti) s (λ _ s', ∃ e, attempt o (es ++ [e]) s').
Proof.
  intros A He. unfold atcuart_irq. ustep. ustep. rewrite (rm_enable _ (at_mode _ _ _ A)). cbn [negb Z.eqb].
  unfold atcuart_irq_raw. ustep. ustep. ustep.
  assert (int_id rti s = IIR_INTRID_LSR) as ->.
  { unfold int_id. rewrite (rm_elsi _ (at_mode _ _ _ A)), (proj2 (Z.eqb_neq _ _) He). done. }
  cbv zeta. change (Z.land IIR_INTRID_LSR IIR_INTRID) with IIR_INTRID_LSR.
  cbv [IIR_INTRID_THR IIR_INTRID_RBR IIR_INTRID_RTI IIR_INTRID_LSR]. cbn [Z.eqb Pos.eqb]. do 7 ustep.
  eapply wp_mono; [by apply (raw_lsr_run n o es)|]. cbv beta. intros [] s' H'. usteps. done.
Qed.

Lemma attempt_irq rti o es s : attempt o es s →
  wp (act_run n (AIrq rti)) s (λ _ s', ∃ o' es', attempt o' es' s' ∧ (es ≠ [] → es' ≠ []) ∧
    (hw_rx s ≠ [] ∨ fld s hw_err ≠ 0 → es' ≠ [] ∨ (n - o' < n - o)%nat) ∧ (es' ≠ [] ∨ n - o' ≤ n - o)%nat).
Proof.
  intros A. unfold act_run. destruct (decide (fld s hw_err = 0)) as [He|He].
  - destruct es as [|e0 es0].
    + pose proof (attempt_waiting _ _ A He) as W. pose proof (raw_rx_irq rti o s W) as Hirq. pose proof W as (T&Ho&Hon). usteps.
      rewrite raw_rx_int_id by apply T. rewrite Hon. cbn [andb]. case_bool_decide as Hh; cbn [negb].
      * change (IIR_NONE =? IIR_NONE) with true. cbv iota. usteps. exists o, []. split; [done|]. split; [done|]. split; [tauto|right; lia].
      * change (IIR_INTRID_RBR =? IIR_NONE) with false. cbv iota. ustep.
        eapply wp_mono; [by apply Hirq|]. cbv beta. intros v s2 [(o'&W'&Ho')|D']; usteps.
        -- exists o', []. split; [by apply waiting_attempt|]. split; [done|]. destruct W' as (_&?&_). split; right; lia.
        -- exists n, [UART_ERR_NO]. split; [by apply received_attempt|]. split; [done|]. split; left; done.
    + usteps. rewrite raw_rx_int_id by (done || apply A). rewrite (at_on _ _ _ A), bool_decide_eq_false_2 by done. cbn [andb].
      change (IIR_NONE =? IIR_NONE) with true. cbv iota. usteps. exists o, (e0 :: es0). split; [done|]. split; [done|]. split; left; done.
  - usteps. assert (int_id rti s = IIR_INTRID_LSR) as ->.
    { unfold int_id. rewrite (rm_elsi _ (at_mode _ _ _ A)), (proj2 (Z.eqb_neq _ _) He). done. }
    change (IIR_INTRID_LSR =? IIR_NONE) with false. cbv iota. ustep.
    eapply wp_mono; [by apply (lsr_irq_run rti o es s)|]. cbv beta. intros v s' (e&A'). usteps. exists o, (es ++ [e]).
    split; [done|]. split; [by destruct es|]. split; left; by destruct es.
Qed.

Lemma attempt_acts l seen o es s : (AErr Break ∈ l → brk = true) → attempt o es s →
  (seen = true → es = [] → hw_rx s ≠ [] ∨ fld s hw_err ≠ 0) →
  wp (acts_run n l) s (λ _ s', ∃ o' es', attempt o' es' s' ∧ (es' ≠ [] ∨ n - o' + rx_rounds_from seen l ≤ n - o)%nat ∧ (es ≠ [] → es' ≠ [])).
Proof.
  revert seen o es s. induction l as [|a l IH]; intros seen o es s Hb A Hs; cbn [acts_run rx_rounds_from].
  { usteps. exists o, es. split; [done|]. split; [right; lia|done]. }
  assert (AErr Break ∈ l → brk = true) as Hb' by (intros; apply Hb; by right).
  destruct a as [| |e|rti]; ustep.
  - unfold act_run. usteps. apply IH; [done|by apply attempt_out|]. intros H1' H2'. unfold hw_out. destruct (hw_tx s); by apply Hs.
  - unfold act_run. usteps. destruct (attempt_in o es s A) as [A' F']. apply IH; [done|done|]. intros _ Hes.
    destruct (decide (fld s hw_err = 0)) as [He|He]; [left|right; by rewrite F'].
    subst es. pose proof (attempt_waiting _ _ A He) as W. destruct (rx_phase_in (n - o) s) as [_ Hn]; [by constructor|]. apply Hn.
    destruct W as (_&?&_). lia.
  - unfold act_run. usteps. destruct (attempt_bad e o es s) as [A' E']; [intros ->; apply Hb; by left|done|]. apply IH; [done|done|]. by right.
  - eapply wp_mono; [by apply (attempt_irq rti o es)|]. cbv beta. intros [] s1 (o1&es1&A1&E1&Hlt&Hle).
    eapply wp_mono; [by apply (IH false o1 es1)|]. cbv beta. intros [] s' (o2&es2&A2&D2&E2). exists o2, es2. split; [done|]. split; [|auto].
    destruct (decide (es2 = [])) as [->|]; [right|by left].
    assert (es1 = []) as -> by (destruct es1; [done|]; by destruct E2). assert (es = []) as -> by (destruct es; [done|]; by destruct E1).
    destruct D2 as [?|D2]; [done|]. destruct seen; [destruct (Hlt (Hs eq_refl eq_refl)) as [?|?]; [done|lia]|].
    destruct Hle as [?|?]; [done|lia].
Qed.
End Receive.

(** A port in raw mode on which nothing is in progress. *)
Record raw_idle (s : uart) : Prop := {
  ri_tx : tx_idle s;
  ri_flow : flows s;
  ri_err : fld s hw_err = 0;
  ri_off : has (fld s IER) IER_ETHEI = false;
  ri_rx : fld s rx_oft = fld s rx_len;
}.

Lemma receive_run a rb n s : (1 ≤ n)%nat → raw_idle s →
  wp (atcuart_recevie a rb (Z.of_nat n)) s (λ v s', v = 0 ∧ rx_phase (hw_rx s ++ wire_in s) (notes s) rb n n s').
Proof.
  intros Hn [[M Ho Hfi Hh] Hf He Hoff Hrx]. pose proof M as [R1 R2 R3 R4 R5 R6 R7 R8]. unfold atcuart_recevie. usteps. rewrite R1.
  change (1 =? 0) with false. cbv iota. usteps. rewrite R2. change (negb (0 =? 0)) with false. cbv iota. usteps. rewrite Hrx, Z.eqb_refl.
  cbn [negb]. unfold set_receive. usteps. apply rx_enable_run; [exact R4|]. usteps. split; [done|]. set (s' := upd _ IER _).
  destruct (erbi_bits true (fld s IER)) as [B1 B2].
  replace n with (n - 0)%nat at 2 by lia. apply (RPWait _ _ _ _ 0). split; [|split; [lia|exact B1]].
  split; try done; try lia.
  - eapply raw_mode_fld; [exact M|by intros []|apply (erbi_elsi true)].
  - transitivity (has (fld s IER) IER_ETHEI); [exact B2|done].
Qed.
End Raw.

(** C31: in raw mode, without DMA, a reception takes exactly the next bytes of the
    wire, which has at least as many as are asked for.  Nothing else is in progress on the port, the client starts nothing from
    its function, and the other side obeys flow control or there is room in the
    FIFO for what comes.  Then, for any interleaving of characters that leave,
    arrive or arrive damaged and of interrupts, no operation fails, and the buffer
    holds the first bytes of the wire in their order and is otherwise as it was;
    once an interrupt was served after a turn of the line as often as there are
    bytes, the client has been told, and the first it was told is that all bytes
    are there, or, when fewer are, of an error (a line break excepted, which is
    told as success).  When no character is
    damaged, all bytes are in the buffer, the client has been told once, and what
    came later is kept for the next reception. *)
Theorem uart_raw_receive_exact `{!UartHw, !UartHwLaws _, !UartDma, !UartClient} a rb n l s :
  (∀ t e, on_event t e = []) → (1 ≤ n ≤ length rb)%nat → Z.of_nat n < 2 ^ 30 → Forall (λ b, 0 ≤ b < 256) (hw_rx s ++ wire_in s) →
  (n ≤ length (hw_rx s ++ wire_in s))%nat → raw_idle s →
  wp (v ← atcuart_recevie a rb (Z.of_nat n); acts_run n l;; mret v) s (λ v s', v = 0 ∧
    (∃ o es, (o ≤ n)%nat ∧ rx_buf s' = take o (hw_rx s ++ wire_in s) ++ drop o rb ∧
       notes s' = notes s ++ (NCallback UART_EVENT_RX_CMPL <$> es) ∧ ((n ≤ rx_rounds_from false l)%nat → es ≠ []) ∧
       ∀ e es', es = e :: es' → o = n ∧ e = UART_ERR_NO ∨ (o < n)%nat ∧ (AErr Break ∉ l → e ≠ UART_ERR_NO)) ∧
    (damaged l = 0%nat → (n ≤ rx_rounds_from false l)%nat → received_all (hw_rx s ++ wire_in s) (notes s) rb n s')).
Proof.
  intros Hp Hn Hlt Hb Hen I. ustep. eapply wp_mono; [apply receive_run; [lia|done]|]. cbv beta. intros v s1 [-> P]. ustep.
  set (brk := bool_decide (AErr Break ∈ l)).
  assert (wp (acts_run n l) s1 (λ _ s', ∃ o es, attempt (hw_rx s ++ wire_in s) (notes s) rb n brk o es s' ∧
      (es ≠ [] ∨ n - o + rx_rounds_from false l ≤ n - 0)%nat ∧ (([] : list Z) ≠ [] → es ≠ []))) as Hatt.
  { apply (attempt_acts Hp); try done; try lia.
    - intros. by apply bool_decide_eq_true_2.
    - apply waiting_attempt. inversion P as [o s3 W Hz|]; subst; [|lia]. pose proof (rc_ok _ _ _ _ _ _ (proj1 W)).
      by assert (o = 0%nat) as -> by lia. }
  assert (wp (acts_run n l) s1 (λ _ s', damaged l = 0%nat → (n ≤ rx_rounds_from false l)%nat →
      received_all (hw_rx s ++ wire_in s) (notes s) rb n s')) as Hclean.
  { destruct (decide (damaged l = 0%nat)) as [Hc|Hc]; [|by eapply wp_mono; [exact Hatt|]].
    eapply wp_mono; [eapply (rx_acts Hp) with (seen := false); [..|exact P|done]; done || lia|]. cbv beta. intros [] s2 (m&P2&Hm) _ Hr.
    assert (m = 0%nat) as -> by lia. inversion P2 as [o s3 (_&Ho&_) Hz|]; [lia|done]. }
  eapply wp_mono; [exact (wp_and _ _ _ _ Hatt Hclean)|].
  cbv beta. intros [] s2 [(o&es&A&D&_) Hc]. usteps. split; [done|]. split; [|done]. exists o, es. destruct A as [_ _ _ _ _ _ A7 A8 A9 A10 A11].
  split; [done|]. split; [done|]. split; [done|]. split.
  - intros Hr He. destruct D as [?|D]; [done|]. destruct (A10 He). lia.
  - intros e es' He. destruct (A11 e es' He) as [?|[? Hbr]]; [by left|right]. split; [done|]. intros Hnb. apply Hbr. by apply bool_decide_eq_false_2.
Qed.

(** A transmission puts its bytes on the wire, and tells the client once. *)
Theorem uart_raw_transmit_exact `{!UartHw, !UartHwLaws _, !UartDma, !UartClient} a bs l s :
  (∀ t e, on_event t e = []) → Forall (λ b, 0 ≤ b < 256) bs → Z.of_nat (length bs) < 2 ^ 30 → tx_idle s → quiet s →
  damaged l = 0%nat →
  wp (v ← atcuart_transmit (length bs) a bs (Z.of_nat (length bs)); acts_run (length bs) l;; mret v) s (λ v s', v = 0 ∧
    ((2 * length bs + 1 ≤ rounds l)%nat → sent_all (wire_out s) (notes s) bs s')).
Proof.
  intros Hp Hb Hlt I Q Hc. ustep. eapply wp_mono; [by apply transmit_run|]. cbv beta. intros v s1 [-> (m&P&Hm)]. ustep.
  eapply wp_mono; [eapply (tx_acts Hp) with (seen := false); [..|exact P|done]; done|]. cbv beta. intros [] s2 (m2&P2&Hm2). usteps.
  split; [done|]. intros Hr. unfold rounds in Hr. assert (m2 = 0%nat) as -> by lia. inversion P2; [lia|done].
Qed.

(** ** A concrete port *)

Module Demo.

#[local] Instance hw : UartHw := {|
  rx_trigger v := if Z.land v 0xC0 =? 0 then 1%nat else 4%nat;
  tx_trigger v := if Z.land v 0x30 =? 0 then 0%nat else 4%nat |}.
#[local] Instance hw_laws : UartHwLaws hw.
Proof. by split. Qed.
#[local] Instance dma : UartDma := {| dma_copy_hw _ _ _ := (0, 0); dma_ch_get_trans_size _ := 0 |}.
#[local] Instance client : UartClient := {| on_event _ _ := [] |}.

Definition fresh : uart := Uart (λ l, match l with OSC => 16 | _ => 0 end) [] [] [] [] [] (seqZ 1 16) [] [] [2; 0; 1]%nat [] [].
Definition cfg : uart_cfg := Cfg 115200 UART_DATA_BITS_8 0 0 0.

Definition pins : port_hw := PortHw [None; None; None; None] 0.
Definition ready : uart :=
  match (atcuart_probe true true pins 0 1 0 115200;; atcuart_raw_init 40000000 (true, true) pins 0 0 cfg 1) fresh with Ret (_, s) => s | _ => fresh end.
Definition l0 : list act := mjoin (replicate 12 [AIn; AIrq false]).

Lemma uart_raw_receive_exact_witness : raw_idle ready ∧
  wp (v ← atcuart_recevie 0x1000 (replicate 12 0) 12; acts_run 12 l0;; mret v) ready (λ v s', v = 0 ∧
    (∃ o es, (o ≤ 12)%nat ∧ rx_buf s' = take o (seqZ 1 16) ++ drop o (replicate 12 0) ∧
       notes s' = [] ++ (NCallback UART_EVENT_RX_CMPL <$> es) ∧ ((12 ≤ rx_rounds_from false l0)%nat → es ≠ []) ∧
       ∀ e es', es = e :: es' → o = 12%nat ∧ e = UART_ERR_NO ∨ (o < 12)%nat ∧ (AErr Break ∉ l0 → e ≠ UART_ERR_NO)) ∧
    (damaged l0 = 0%nat → (12 ≤ rx_rounds_from false l0)%nat → received_all (seqZ 1 16) [] (replicate 12 0) 12 s')).
Proof.
  assert (raw_idle ready) as I.
  { split; [split; [split| | |]|right|..]; vm_compute; try (reflexivity || discriminate || lia). by split. }
  split; [exact I|].
  apply (uart_raw_receive_exact 0x1000 (replicate 12 0) 12 l0 ready);
    [reflexivity|vm_compute; lia|vm_compute; reflexivity|vm_compute; repeat constructor; discriminate|vm_compute; lia|exact I].
Defined.

Example demo_raw_receive : wp (atcuart_recevie 0x1000 (replicate 12 0) 12;; acts_run 12 l0) ready
  (λ _ s, rx_buf s = seqZ 1 12 ∧ notes s = [NCallback 1 0] ∧ hw_rx s ++ wire_in s = seqZ 13 4).
Proof. vm_compute. repeat split; reflexivity. Qed.

(** A damaged character after some good ones. *)
Example demo_framing : wp (atcuart_recevie 0x1000 (replicate 12 0) 12;; acts_run 12 (mjoin (replicate 3 [AIn; AIrq false]) ++ [AErr Framing; AIrq false])) ready
  (λ _ s, rx_buf s = seqZ 1 6 ++ replicate 6 0 ∧ notes s = [NCallback UART_EVENT_RX_CMPL UART_ERR_FRAMING] ∧ hw_rx s = []).
Proof. vm_compute. repeat split; reflexivity. Qed.

(** A line break is told as a complete reception. *)
Example demo_break : wp (atcuart_recevie 0x1000 (replicate 12 0) 12;; acts_run 12 [AErr Break; AIrq false]) ready
  (λ _ s, rx_buf s = replicate 12 0 ∧ notes s = [NCallback UART_EVENT_RX_CMPL UART_ERR_NO]).
Proof. vm_compute. repeat split; reflexivity. Qed.

(** A reception that ends with an error cannot be followed by another one. *)
Example demo_error_sticks : wp (atcuart_recevie 0x1000 [0; 0] 2;; st hw_err LSR_FE;; acts_run 30 [AIrq false];; atcuart_recevie 0x1000 [0; 0] 2) ready
  (λ v s, v = - EINPROGRESS ∧ notes s = [NCallback UART_EVENT_RX_CMPL UART_ERR_FRAMING]).
Proof. vm_compute. repeat split; reflexivity. Qed.

(** The end of a transmission lets the chip sleep during a reception. *)
Example demo_stay_dropped : wp (atcuart_recevie 0x1000 [0; 0] 2;; atcuart_transmit 30 0x2000 [1] 1;; acts_run 30 [AOut; AIrq false]) (set_hw_rx [] [] ready)
  (λ _ s, fld s stay = 0 ∧ has (fld s IER) IER_ERBI = true ∧ notes s = [NCallback UART_EVENT_TX_CMPL UART_ERR_NO]).
Proof. vm_compute. repeat split; reflexivity. Qed.

End Demo.
