(* ===== verification/Dma.v ===== *)
(** * The DMA controller driver: src/hal/drivers/dma/dma-scm2010.c

    One controller: its allocation bits, its channels with their descriptor
    arrays, and the registers the driver reads and writes.  The transfer engine
    is hardware, a parameter of the model ([DmaEngine]) with its documented
    behaviour as laws ([DmaEngineLaws]).

    Completion callbacks run in interrupt context; the model records them, in
    order, in [calls]. *)

From stdpp Require Import base tactics numbers list gmap.
From S2P Require Import Prelude.

(** ** Configuration *)

(** Channels of the instance (CONFIG_SCM2010_DMA0_CH_NUM or ..DMA1..), length of
    a descriptor array, and where the linker put the arrays. *)
Class DmaConfig := {
  DMAC_CH_NUM : Z;
  DMA_DESC_NUM : Z;
  dma_desc_base : Z;
  dma_dynamic_alloc : bool;        (* CONFIG_SUPPORT_DMA_DYNAMIC_ALLOC *)
}.

Class DmaConfigOk {DC : DmaConfig} : Prop := {
  ch_num_range : 1 ≤ DMAC_CH_NUM ≤ 8;
  desc_num_range : 1 ≤ DMA_DESC_NUM;
  desc_base_range : 0 < dma_desc_base;
  desc_end_range : dma_desc_base + DMAC_CH_NUM * (DMA_DESC_NUM * 32) ≤ 2 ^ 32;
}.

Definition EBUSY : Z := 16.

(** ** Registers *)

Definition DMAC_CH_ABORT : Z := 0x24.
Definition DMAC_INT_STATUS : Z := 0x30.
Definition DMAC_CH_N_CTRL (n : Z) : Z := 0x40 + n * 0x20.
Definition DMAC_CH_N_TRAN_SIZE (n : Z) : Z := 0x44 + n * 0x20.
Definition DMAC_CH_SRC_N_ADDR_L (n : Z) : Z := 0x48 + n * 0x20.
Definition DMAC_CH_SRC_N_ADDR_H (n : Z) : Z := 0x4c + n * 0x20.
Definition DMAC_CH_DST_N_ADDR_L (n : Z) : Z := 0x50 + n * 0x20.
Definition DMAC_CH_DST_N_ADDR_H (n : Z) : Z := 0x54 + n * 0x20.
Definition DMAC_CH_N_LL_ADDR_L (n : Z) : Z := 0x58 + n * 0x20.
Definition DMAC_CH_N_LL_ADDR_H (n : Z) : Z := 0x5c + n * 0x20.

Definition INT_STATUS_TC_DONE (v : Z) : Z := Z.shiftr (Z.land v 0xff0000) 16.
Definition INT_STATUS_ABORT (v : Z) : Z := Z.shiftr (Z.land v 0xff00) 8.
Definition INT_STATUS_ERROR (v : Z) : Z := Z.shiftr (Z.land v 0xff) 0.

(** ** Descriptors *)

(** [struct scm2010_dma_ch_cfg], a word of bit fields; an assignment to a field
    of [n] bits keeps the low [n] bits. *)
Definition bf (n x : Z) : Z := Z.land x (2 ^ n - 1).

Record ch_cfg := ChCfg {
  enable : Z; int_tc_mask : Z; int_err_mask : Z; int_abt_mask : Z;
  dst_req_sel : Z; src_req_sel : Z; dst_addr_ctrl : Z; src_addr_ctrl : Z;
  dst_mode : Z; src_mode : Z; dst_width : Z; src_width : Z;
  src_bust_size : Z; priority : Z;
}.

Definition cfg_word (c : ch_cfg) : Z :=
  Z.lor (enable c) (Z.lor (Z.shiftl (int_tc_mask c) 1) (Z.lor (Z.shiftl (int_err_mask c) 2)
  (Z.lor (Z.shiftl (int_abt_mask c) 3) (Z.lor (Z.shiftl (dst_req_sel c) 4)
  (Z.lor (Z.shiftl (src_req_sel c) 8) (Z.lor (Z.shiftl (dst_addr_ctrl c) 12)
  (Z.lor (Z.shiftl (src_addr_ctrl c) 14) (Z.lor (Z.shiftl (dst_mode c) 16)
  (Z.lor (Z.shiftl (src_mode c) 17) (Z.lor (Z.shiftl (dst_width c) 18)
  (Z.lor (Z.shiftl (src_width c) 21) (Z.lor (Z.shiftl (src_bust_size c) 24)
  (Z.shiftl (priority c) 29))))))))))))).

Definition TRANSFERx1 : Z := 0.
Definition TRANSFERx128 : Z := 7.
Definition BYTE : Z := 0.
Definition HALF_WORD : Z := 1.
Definition WORD : Z := 2.
Definition INCREMENT_ADDR : Z := 0.
Definition DMA_NORMAL_MODE : Z := 0.
Definition DMA_CH_PRIORITY_HIGH : Z := 1.

Definition default_dma_ch_cfg : ch_cfg :=
  ChCfg 1 0 0 0 0 0 INCREMENT_ADDR INCREMENT_ADDR DMA_NORMAL_MODE DMA_NORMAL_MODE
        WORD WORD TRANSFERx128 DMA_CH_PRIORITY_HIGH.

Definition default_hw_dma_ch_cfg : ch_cfg :=
  ChCfg 1 0 0 0 0 0 INCREMENT_ADDR INCREMENT_ADDR DMA_NORMAL_MODE DMA_NORMAL_MODE
        BYTE BYTE TRANSFERx1 DMA_CH_PRIORITY_HIGH.

(** [struct scm2010_dma_desc], 32 bytes; the configuration as its word. *)
Record dma_desc := Desc {
  dmac_cfg : Z; tran_size : Z; src_addr_l : Z; src_addr_h : Z;
  dst_addr_l : Z; dst_addr_h : Z; llptr_l : Z; llptr_h : Z;
}.

Definition desc0 : dma_desc := Desc 0 0 0 0 0 0 0 0.
Definition DESC_SIZE : Z := 32.

(** [struct dma_desc_chain] and [struct dma_ctrl] of include/hal/dma.h. *)
Record dma_desc_chain := Chain { src_addr : Z; dst_addr : Z; len : Z }.

Record dma_ctrl := Ctrl {
  c_src_mode : Z; c_dst_mode : Z; c_src_req : Z; c_dst_req : Z;
  c_src_addr_ctrl : Z; c_dst_addr_ctrl : Z; c_src_width : Z; c_dst_width : Z;
  c_intr_mask : Z; c_src_burst_size : Z;
}.

(** ** State *)

Inductive dma_isr_status := DMA_STATUS_NONE | DMA_STATUS_COMPLETE | DMA_STATUS_ABORTED | DMA_STATUS_ERROR.

#[global] Instance status_eq_dec : EqDecision dma_isr_status.
Proof. solve_decision. Defined.

Record dma_channel := Channel { ch_desc : Z; cb : Z; priv_data : Z }.

Record call := Call { call_ch : Z; call_cb : Z; call_priv : Z; call_status : dma_isr_status }.

Definition memory := Z → Z.

Record dmac := Dmac {
  ch_status : Z;
  ch_aborted : Z;
  ch_keep : Z;
  channel : Z → dma_channel;      (* an array of 8 *)
  regs : Z → Z;
  int_status : Z;                 (* DMAC_INT_STATUS, write one to clear *)
  descs : gmap Z dma_desc;        (* the descriptor arrays, by address *)
  ram : memory;
  calls : list call;
}.

Definition set_status v d := Dmac v (ch_aborted d) (ch_keep d) (channel d) (regs d) (int_status d) (descs d) (ram d) (calls d).
Definition set_aborted v d := Dmac (ch_status d) v (ch_keep d) (channel d) (regs d) (int_status d) (descs d) (ram d) (calls d).
Definition set_keep v d := Dmac (ch_status d) (ch_aborted d) v (channel d) (regs d) (int_status d) (descs d) (ram d) (calls d).
Definition set_channel v d := Dmac (ch_status d) (ch_aborted d) (ch_keep d) v (regs d) (int_status d) (descs d) (ram d) (calls d).
Definition set_regs v d := Dmac (ch_status d) (ch_aborted d) (ch_keep d) (channel d) v (int_status d) (descs d) (ram d) (calls d).
Definition set_int v d := Dmac (ch_status d) (ch_aborted d) (ch_keep d) (channel d) (regs d) v (descs d) (ram d) (calls d).
Definition set_descs v d := Dmac (ch_status d) (ch_aborted d) (ch_keep d) (channel d) (regs d) (int_status d) v (ram d) (calls d).
Definition set_ram v d := Dmac (ch_status d) (ch_aborted d) (ch_keep d) (channel d) (regs d) (int_status d) (descs d) v (calls d).
Definition set_calls v d := Dmac (ch_status d) (ch_aborted d) (ch_keep d) (channel d) (regs d) (int_status d) (descs d) (ram d) v.

(** Update of one element of an array. *)
Definition upd {A} (f : Z → A) (k : Z) (v : A) : Z → A := λ i, if i =? k then v else f i.

(** ** The transfer engine *)

Definition field (w lo n : Z) : Z := Z.land (Z.shiftr w lo) (2 ^ n - 1).

(** A memory to memory descriptor: enabled, no handshake, both addresses
    incremented, same width on both sides. *)
Definition mem2mem (d : dma_desc) : bool :=
  (field (dmac_cfg d) 0 1 =? 1) && (field (dmac_cfg d) 12 2 =? 0) && (field (dmac_cfg d) 14 2 =? 0) &&
  (field (dmac_cfg d) 16 1 =? 0) && (field (dmac_cfg d) 17 1 =? 0) &&
  (field (dmac_cfg d) 18 3 =? field (dmac_cfg d) 21 3) &&
  (src_addr_h d =? 0) && (dst_addr_h d =? 0).

Definition xfer_bytes (d : dma_desc) : Z := tran_size d * 2 ^ field (dmac_cfg d) 21 3.

Definition copy_range (src dst n : Z) (m : memory) : memory :=
  λ a, if (dst <=? a) && (a <? dst + n) then m (src + (a - dst)) else m a.

Definition disjoint_ranges (a n b k : Z) : Prop := ∀ x, a ≤ x < a + n → b ≤ x < b + k → False.

(** Both addresses are multiples of the width. *)
Definition aligned (d : dma_desc) : Prop :=
  src_addr_l d mod 2 ^ field (dmac_cfg d) 21 3 = 0 ∧ dst_addr_l d mod 2 ^ field (dmac_cfg d) 21 3 = 0.

(** What a descriptor asks for. *)
Definition transfer (m : memory) (d : dma_desc) : memory :=
  copy_range (src_addr_l d) (dst_addr_l d) (xfer_bytes d) m.

(** [engine fetch d m]: memory after the transfer that starts with [d] in the
    channel registers and reads further descriptors with [fetch]. *)
Class DmaEngine := { engine : (Z → option dma_desc) → dma_desc → memory → memory }.

Inductive desc_list (fetch : Z → option dma_desc) : dma_desc → list dma_desc → Prop :=
| desc_last d : llptr_l d = 0 → desc_list fetch d [d]
| desc_link d d' ds :
    llptr_l d ≠ 0 → fetch (llptr_l d) = Some d' → desc_list fetch d' ds → desc_list fetch d (d :: ds).

(** A chain of transfers at aligned addresses, none onto its own source. *)
Class DmaEngineLaws {DC : DmaConfig} (DE : DmaEngine) : Prop := {
  engine_chain fetch d ds m :
    desc_list fetch d ds → (length ds ≤ Z.to_nat DMA_DESC_NUM)%nat → Forall (λ d, mem2mem d = true) ds →
    Forall aligned ds →
    Forall (λ d, disjoint_ranges (src_addr_l d) (xfer_bytes d) (dst_addr_l d) (xfer_bytes d)) ds →
    engine fetch d m = foldl transfer m ds;
}.

(** ** The driver *)

Section Driver.
Context {DC : DmaConfig} {DE : DmaEngine}.

Definition dma_write (val off : Z) : M dmac unit :=
  modify (λ d, if off =? DMAC_INT_STATUS then set_int (Z.land (int_status d) (Z.lnot val)) d
               else set_regs (upd (regs d) off val) d).

Definition dma_read (off : Z) : M dmac Z :=
  d ← get; mret (if off =? DMAC_INT_STATUS then int_status d else regs d off).

Definition DMA_CH_N_IDLE (d : dmac) (ch : Z) : bool := Z.land (ch_status d) (BIT ch) =? 0.
Definition SET_DMA_CH_N_BUSY (ch : Z) : M dmac unit :=
  modify (λ d, set_status (u8 (Z.lor (ch_status d) (BIT ch))) d).
Definition SET_DMA_CH_N_IDLE (ch : Z) : M dmac unit :=
  modify (λ d, set_status (u8 (Z.land (ch_status d) (Z.lnot (BIT ch)))) d).

Definition set_ch_aborted (ch : Z) : M dmac unit :=
  modify (λ d, set_aborted (u8 (Z.lor (ch_aborted d) (BIT ch))) d).
Definition clr_ch_aborted (ch : Z) : M dmac unit :=
  modify (λ d, set_aborted (u8 (Z.land (ch_aborted d) (Z.lnot (BIT ch)))) d).
Definition set_ch_keep (ch : Z) : M dmac unit :=
  modify (λ d, set_keep (u8 (Z.lor (ch_keep d) (BIT ch))) d).
Definition clr_ch_keep (ch : Z) : M dmac unit :=
  modify (λ d, set_keep (u8 (Z.land (ch_keep d) (Z.lnot (BIT ch)))) d).

(** *** Interrupts *)

Definition status_of (trmc abrt error ch : Z) : dma_isr_status :=
  let chk := Z.shiftl 1 ch in
  if negb (Z.land error chk =? 0) then DMA_STATUS_ERROR
  else if negb (Z.land abrt chk =? 0) then DMA_STATUS_ABORTED
  else if negb (Z.land trmc chk =? 0) then DMA_STATUS_COMPLETE
  else DMA_STATUS_NONE.

(** The call of the client, which is recorded; what the client does with the
    controller from there is an operation after the interrupt. *)
Definition run_cb (ch : Z) (status : dma_isr_status) : M dmac unit :=
  modify (λ d, set_calls (calls d ++ [Call ch (cb (channel d ch)) (priv_data (channel d ch)) status]) d).

(** One channel; true is the early [return 0]. *)
Definition isr_channel (trmc abrt error ch : Z) : M dmac bool :=
  let status := status_of trmc abrt error ch in
  let idle :=
    d ← get;
    if negb (bool_decide (status = DMA_STATUS_NONE)) && (Z.land (ch_keep d) (BIT ch) =? 0)
    then SET_DMA_CH_N_IDLE ch else mret () in
  d ← get;
  if negb (bool_decide (status = DMA_STATUS_NONE)) && negb (cb (channel d ch) =? NULL) then
    if bool_decide (status = DMA_STATUS_ABORTED) then
      set_ch_aborted ch;; run_cb ch status;; idle;; mret false
    else if negb (Z.land (ch_aborted d) (BIT ch) =? 0) then mret true
    else run_cb ch status;; idle;; mret false
  else idle;; mret false.

(** Channels [n - 1] down to 0. *)
Fixpoint isr_loop (trmc abrt error : Z) (n : nat) : M dmac unit :=
  match n with
  | O => mret ()
  | S n =>
      stop ← isr_channel trmc abrt error (Z.of_nat n);
      if (stop : bool) then mret () else isr_loop trmc abrt error n
  end.

Definition scm2010_dmac_isr : M dmac Z :=
  st ← dma_read DMAC_INT_STATUS;
  if st =? 0 then mret 0 else
  dma_write st DMAC_INT_STATUS;;
  isr_loop (INT_STATUS_TC_DONE st) (INT_STATUS_ABORT st) (INT_STATUS_ERROR st) (Z.to_nat DMAC_CH_NUM);;
  mret 0.

(** *** Channels *)

Definition scm2010_dma_kick (ch : Z) (d : dma_desc) : M dmac Z :=
  dma_write (src_addr_l d) (DMAC_CH_SRC_N_ADDR_L ch);;
  dma_write (src_addr_h d) (DMAC_CH_SRC_N_ADDR_H ch);;
  dma_write (dst_addr_l d) (DMAC_CH_DST_N_ADDR_L ch);;
  dma_write (dst_addr_h d) (DMAC_CH_DST_N_ADDR_H ch);;
  dma_write (llptr_l d) (DMAC_CH_N_LL_ADDR_L ch);;
  dma_write (llptr_h d) (DMAC_CH_N_LL_ADDR_H ch);;
  dma_write (tran_size d) (DMAC_CH_N_TRAN_SIZE ch);;
  dma_write (dmac_cfg d) (DMAC_CH_N_CTRL ch);;
  mret 0.

(** The search for an idle channel: [n] channels are left, [i] is next. *)
Fixpoint alloc_loop (n : nat) (i : Z) : M dmac Z :=
  match n with
  | O => mret 0xff
  | S n =>
      d ← get;
      if DMA_CH_N_IDLE d i then
        clr_ch_aborted i;; clr_ch_keep i;; SET_DMA_CH_N_BUSY i;; mret i
      else alloc_loop n (i + 1)
  end.

Definition scm2010_dma_alloc_ch : M dmac Z := alloc_loop (Z.to_nat DMAC_CH_NUM) 0.

Definition scm2010_dma_ch_release (ch : Z) : M dmac unit := SET_DMA_CH_N_IDLE ch.

Definition scm2010_dma_ch_is_busy (ch : Z) : M dmac bool :=
  v ← dma_read (DMAC_CH_N_CTRL ch); mret (negb (Z.land v (BIT 0) =? 0)).

Definition scm2010_dma_ch_get_trans_size (ch : Z) : M dmac Z :=
  v ← dma_read (DMAC_CH_N_TRAN_SIZE ch); mret (s32 v).

(** Writing a descriptor: outside the arrays there is no descriptor to write. *)
Definition read_desc (a : Z) : M dmac dma_desc := d ← get; lift_opt (descs d !! a).
Definition write_desc (a : Z) (v : dma_desc) : M dmac unit :=
  read_desc a;; modify (λ d, set_descs (<[a := v]> (descs d)) d).

(** The hardware finishes the transfer of a channel: memory is copied, the
    enable bit falls and, unless masked, the completion is flagged. *)
Definition loaded (d : dmac) (ch : Z) : dma_desc :=
  Desc (regs d (DMAC_CH_N_CTRL ch)) (regs d (DMAC_CH_N_TRAN_SIZE ch))
       (regs d (DMAC_CH_SRC_N_ADDR_L ch)) (regs d (DMAC_CH_SRC_N_ADDR_H ch))
       (regs d (DMAC_CH_DST_N_ADDR_L ch)) (regs d (DMAC_CH_DST_N_ADDR_H ch))
       (regs d (DMAC_CH_N_LL_ADDR_L ch)) (regs d (DMAC_CH_N_LL_ADDR_H ch)).

Definition hw_complete (ch : Z) : M dmac unit :=
  modify (λ d,
    let x := loaded d ch in
    let d := set_ram (engine (λ a, descs d !! a) x (ram d)) d in
    let d := set_regs (upd (regs d) (DMAC_CH_N_CTRL ch) (Z.land (dmac_cfg x) (Z.lnot 1))) d in
    if field (dmac_cfg x) 1 1 =? 0 then set_int (Z.lor (int_status d) (BIT (16 + ch))) d else d).

(** *** Copies *)

(** Element [i] of the loop of [scm2010_dma_copy]: the transfer size, width and
    what [rem] becomes. *)
Definition plan (remainder rem l : Z) : Z * Z * Z :=
  if (remainder =? 0) && (4 <=? l) then (l / 4, WORD, Z.land l 3)
  else if (remainder =? 2) && (2 <=? l) then (l / 2, HALF_WORD, Z.land l 1)
  else (l, BYTE, rem).

Definition copy_cfg (ch int_mask width : Z) : ch_cfg :=
  let c := default_dma_ch_cfg in
  ChCfg (enable c) (bf 1 int_mask) (int_err_mask c) (int_abt_mask c)
        (bf 4 ((ch + 1) * 2)) (bf 4 ((ch + 1) * 2 - 1)) (dst_addr_ctrl c) (src_addr_ctrl c)
        (dst_mode c) (src_mode c) width width (src_bust_size c) (priority c).

Definition link_to (desc i desc_num : Z) : Z :=
  if i <? desc_num - 1 then desc + (i + 1) * DESC_SIZE else 0.

Fixpoint copy_fill (ch desc desc_num int_mask remainder : Z) (rem i : Z) (l : list dma_desc_chain) : M dmac unit :=
  match l with
  | [] => mret ()
  | c :: l =>
      let '(size, width, rem) := plan remainder rem (len c) in
      write_desc (desc + i * DESC_SIZE)
        (Desc (cfg_word (copy_cfg ch int_mask width)) size (src_addr c) 0 (dst_addr c) 0
              (link_to desc i desc_num) 0);;
      (if negb (rem =? 0) then
         modify (λ d, set_ram (copy_range (u32 (src_addr c + len c - rem))
                                          (u32 (dst_addr c + len c - rem)) rem (ram d)) d)
       else mret ());;
      copy_fill ch desc desc_num int_mask remainder rem (i + 1) l
  end.

(** Other threads and interrupts run during [osDelay]. *)
Class Scheduler := { osDelay : dmac → dmac }.
Context {SC : Scheduler}.

(** The [while] around the allocation. *)
Fixpoint alloc_wait (fuel : nat) (block : bool) : M dmac (option Z) :=
  match fuel with
  | O => out_of_fuel
  | S fuel =>
      ch ← scm2010_dma_alloc_ch;
      if ch =? 0xff then
        if block then modify osDelay;; alloc_wait fuel block else mret None
      else mret (Some ch)
  end.

(** The polling loop; the hardware finishes before poll [late]. *)
Fixpoint copy_poll (fuel late : nat) (wait : bool) (ch : Z) : M dmac unit :=
  match fuel with
  | O => out_of_fuel
  | S fuel =>
      (if decide (late = O) then hw_complete ch else mret ());;
      busy ← scm2010_dma_ch_is_busy ch;
      if (busy : bool) then (if wait then modify osDelay else mret ());; copy_poll fuel (pred late) wait ch
      else mret ()
  end.

Definition scm2010_dma_copy (fuel late : nat) (block wait : bool) (chain : list dma_desc_chain)
    (int_mask remainder handler priv : Z) : M dmac Z :=
  let desc_num := Z.of_nat (length chain) in
  c_assert (desc_num <=? DMA_DESC_NUM);;
  och ← alloc_wait fuel block;
  match och with
  | None => mret (-1)
  | Some ch =>
      d ← get;
      let desc := ch_desc (channel d ch) in
      put (set_channel (upd (channel d) ch (Channel desc handler priv)) d);;
      c_assert (negb (desc =? NULL));;
      copy_fill ch desc desc_num int_mask remainder 0 0 chain;;
      first ← read_desc desc;
      scm2010_dma_kick ch first;;
      if negb (int_mask =? 0) then
        copy_poll fuel late wait ch;;
        scm2010_dma_ch_release ch;;
        mret 0
      else mret 0
  end.

Definition hw_cfg (c : dma_ctrl) : ch_cfg :=
  let b := default_hw_dma_ch_cfg in
  ChCfg (enable b)
        (if negb (Z.land (c_intr_mask c) 1 =? 0) then 1 else int_tc_mask b)
        (if negb (Z.land (c_intr_mask c) 2 =? 0) then 1 else int_err_mask b)
        (if negb (Z.land (c_intr_mask c) 4 =? 0) then 1 else int_abt_mask b)
        (bf 4 (c_dst_req c)) (bf 4 (c_src_req c))
        (bf 2 (c_dst_addr_ctrl c)) (bf 2 (c_src_addr_ctrl c))
        (bf 1 (c_dst_mode c)) (bf 1 (c_src_mode c))
        (bf 3 (c_dst_width c)) (bf 3 (c_src_width c))
        (bf 4 (c_src_burst_size c)) (priority b).

Fixpoint hw_fill (cfg desc desc_num i : Z) (l : list dma_desc_chain) : M dmac unit :=
  match l with
  | [] => mret ()
  | c :: l =>
      write_desc (desc + i * DESC_SIZE)
        (Desc cfg (len c) (src_addr c) 0 (dst_addr c) 0 (link_to desc i desc_num) 0);;
      hw_fill cfg desc desc_num (i + 1) l
  end.

(** The result is the return value and what is stored through [dma_ch]. *)
Definition scm2010_dma_copy_hw (keep : bool) (ctrl : dma_ctrl) (chain : list dma_desc_chain)
    (handler priv : Z) : M dmac (Z * option Z) :=
  ch ← scm2010_dma_alloc_ch;
  if ch =? 0xff then mret (- EBUSY, None) else
  (if keep then set_ch_keep ch else clr_ch_keep ch);;
  d ← get;
  let desc := ch_desc (channel d ch) in
  hw_fill (cfg_word (hw_cfg ctrl)) desc (Z.of_nat (length chain)) 0 chain;;
  (if negb (handler =? NULL) then
     modify (λ d, set_channel (upd (channel d) ch (Channel (ch_desc (channel d ch)) handler priv)) d)
   else mret ());;
  first ← read_desc desc;
  scm2010_dma_kick ch first;;
  mret (0, Some ch).

(** A reload keeps the configuration and the high address words. *)
Fixpoint reload_fill (desc desc_num i : Z) (l : list dma_desc_chain) : M dmac unit :=
  match l with
  | [] => mret ()
  | c :: l =>
      o ← read_desc (desc + i * DESC_SIZE);
      write_desc (desc + i * DESC_SIZE)
        (Desc (dmac_cfg o) (len c) (src_addr c) (src_addr_h o) (dst_addr c) (dst_addr_h o)
              (link_to desc i desc_num) (llptr_h o));;
      reload_fill desc desc_num (i + 1) l
  end.

Definition scm2010_dma_reload (ch : Z) (chain : list dma_desc_chain) : M dmac Z :=
  d ← get;
  let desc := ch_desc (channel d ch) in
  c_assert (negb (Z.land (ch_keep d) (BIT ch) =? 0));;
  SET_DMA_CH_N_BUSY ch;;
  clr_ch_aborted ch;;
  reload_fill desc (Z.of_nat (length chain)) 0 chain;;
  first ← read_desc desc;
  scm2010_dma_kick ch first;;
  mret 0.

Definition scm2010_dma_ch_rel (ch : Z) : M dmac Z :=
  st ← dma_read DMAC_INT_STATUS;
  SET_DMA_CH_N_IDLE ch;;
  dma_write st DMAC_INT_STATUS;;
  mret 0.

Definition scm2010_dma_ch_abort (ch : Z) : M dmac Z :=
  dma_write (Z.shiftl 1 ch) DMAC_CH_ABORT;;
  ctrl ← dma_read (DMAC_CH_N_CTRL ch);
  dma_write (Z.land ctrl (Z.lnot 1)) (DMAC_CH_N_CTRL ch);;
  d ← get;
  (if Z.land (ch_keep d) (BIT ch) =? 0 then SET_DMA_CH_N_IDLE ch else mret ());;
  st ← dma_read DMAC_INT_STATUS;
  dma_write st DMAC_INT_STATUS;;
  mret 0.

(** *** Probing *)

(** The descriptor array of channel [i]: the static array, or what
    [dma_kmalloc(sizeof(struct scm2010_dma_desc))] returned ([ptrs]). *)
Fixpoint probe_loop (ptrs : list Z) (n : nat) (i : Z) : M dmac unit :=
  match n with
  | O => mret ()
  | S n =>
      let p := if dma_dynamic_alloc then default NULL (head ptrs)
               else dma_desc_base + i * (DMA_DESC_NUM * DESC_SIZE) in
      (if dma_dynamic_alloc && negb (p =? NULL)
       then modify (λ d, set_descs (<[p := desc0]> (descs d)) d) else mret ());;
      modify (λ d, set_channel (upd (channel d) i
        (Channel p (cb (channel d i)) (priv_data (channel d i)))) d);;
      probe_loop (tail ptrs) n (i + 1)
  end.

(** [irq_ok]: whether [request_irq] succeeds. *)
Definition scm2010_dma_probe (ptrs : list Z) (irq_ok : bool) : M dmac Z :=
  modify (λ d, set_aborted 0 (set_status 0 d));;
  probe_loop ptrs (Z.to_nat DMAC_CH_NUM) 0;;
  if irq_ok then mret 0 else mret (-1).

(** Before [probe]: zeroed variables, and the static descriptor arrays unless
    descriptors are allocated. *)
Definition desc_area : gmap Z dma_desc :=
  list_to_map ((λ i, (dma_desc_base + i * DESC_SIZE, desc0)) <$> seqZ 0 (DMAC_CH_NUM * DMA_DESC_NUM)).

Definition dmac0 (m : memory) : dmac :=
  Dmac 0 0 0 (λ _, Channel NULL NULL NULL) (λ _, 0) 0
       (if dma_dynamic_alloc then ∅ else desc_area) m [].

End Driver.
