(* ===== verification/DmaTheorems.v ===== *)
(** * The DMA controller driver: theorems

    Channel allocation over interleaved driver calls and interrupts, what the
    interrupt handler reports, and the contents of memory after a copy. *)

From stdpp Require Import base tactics numbers list gmap.
From S2P Require Import Prelude Dma.

(** ** Channel bits *)

Definition busy (d : dmac) (ch : Z) : bool := Z.testbit (ch_status d) ch.
Definition kept (d : dmac) (ch : Z) : bool := Z.testbit (ch_keep d) ch.
Definition aborted (d : dmac) (ch : Z) : bool := Z.testbit (ch_aborted d) ch.

Lemma u8_lor_testbit x i j : 0 ≤ i < 8 → 0 ≤ j < 8 →
  Z.testbit (u8 (Z.lor x (BIT i))) j = Z.testbit x j || bool_decide (j = i).
Proof. intros. unfold u8. rewrite Z.mod_pow2_bits_low by lia. apply testbit_lor_BIT; lia. Qed.

Lemma u8_land_testbit x i j : 0 ≤ i < 8 → 0 ≤ j < 8 →
  Z.testbit (u8 (Z.land x (Z.lnot (BIT i)))) j = Z.testbit x j && negb (bool_decide (j = i)).
Proof. intros. unfold u8. rewrite Z.mod_pow2_bits_low by lia. apply testbit_land_lnot_BIT; lia. Qed.

Lemma idle_busy d ch : 0 ≤ ch → DMA_CH_N_IDLE d ch = negb (busy d ch).
Proof. apply land_BIT_zero. Qed.

(** ** Framing: what a command leaves alone *)

Definition keeps {A B} (f : dmac → B) (c : M dmac A) : Prop :=
  ∀ d a d', c d = Ret (a, d') → f d' = f d.

Section Keeps.
Context {B : Type} (f : dmac → B).

Lemma keeps_ret {A} (a : A) : keeps f (mret a).
Proof. by intros d a' d' [= <- <-]. Qed.
Lemma keeps_get : keeps f get.
Proof. by intros d a' d' [= <- <-]. Qed.
Lemma keeps_lift {A} (o : option A) : keeps f (lift_opt o).
Proof. intros d a d'. unfold lift_opt. destruct o; by intros [= <- <-]. Qed.
Lemma keeps_modify g : (∀ d, f (g d) = f d) → keeps f (modify g).
Proof. by intros H d a' d' [= <- <-]. Qed.
Lemma keeps_bind {A C} (c : M dmac A) (k : A → M dmac C) :
  keeps f c → (∀ a, keeps f (k a)) → keeps f (c ≫= k).
Proof.
  intros Hc Hk d a d' (a1&d1&H1&H2)%bind_Ret_inv.
  by rewrite (Hk _ _ _ _ H2), (Hc _ _ _ H1).
Qed.
Lemma keeps_if {A} (b : bool) (c1 c2 : M dmac A) :
  keeps f c1 → keeps f c2 → keeps f (if b then c1 else c2).
Proof. by destruct b. Qed.
End Keeps.

#[export] Hint Resolve keeps_ret keeps_get keeps_lift keeps_bind keeps_if : wise.

Ltac keeps_tac :=
  repeat first
    [ apply keeps_ret | apply keeps_get | apply keeps_lift
    | apply keeps_if | apply keeps_bind; [|intros ?]
    | apply keeps_modify; intros ?; try (case_match; reflexivity); reflexivity
    | progress unfold dma_write, dma_read, write_desc, read_desc ].

Section Channels.
Context {DC : DmaConfig} {OK : DmaConfigOk} {DE : DmaEngine} {SC : Scheduler}.

Lemma kick_keeps {B} (f : dmac → B) ch x :
  (∀ d v, f (set_regs v d) = f d) → (∀ d v, f (set_int v d) = f d) → keeps f (scm2010_dma_kick ch x).
Proof.
  intros Hr Hi. unfold scm2010_dma_kick.
  repeat first [apply keeps_ret | apply keeps_bind; [|intros ?]];
    apply keeps_modify; intros d; by destruct (_ =? _).
Qed.

Lemma hw_fill_keeps cfg desc n i l : keeps ch_status (hw_fill cfg desc n i l).
Proof. revert i. induction l as [|c l IH]; intros i; simpl; keeps_tac. apply IH. Qed.

Lemma reload_fill_keeps desc n i l : keeps ch_status (reload_fill desc n i l).
Proof. revert i. induction l as [|c l IH]; intros i; simpl; keeps_tac. apply IH. Qed.

(** The state after channel [i] has been given out. *)
Definition granted_state (i : Z) (d : dmac) : dmac :=
  set_status (u8 (Z.lor (ch_status d) (BIT i)))
    (set_keep (u8 (Z.land (ch_keep d) (Z.lnot (BIT i))))
      (set_aborted (u8 (Z.land (ch_aborted d) (Z.lnot (BIT i)))) d)).

Lemma alloc_loop_spec n i d : 0 ≤ i →
  (∃ j, i ≤ j < i + Z.of_nat n ∧ busy d j = false ∧ (∀ k, i ≤ k < j → busy d k = true) ∧
        alloc_loop n i d = Ret (j, granted_state j d)) ∨
  (∀ k, i ≤ k < i + Z.of_nat n → busy d k = true) ∧ alloc_loop n i d = Ret (0xff, d).
Proof.
  revert i. induction n as [|n IH]; intros i Hi; simpl.
  { right. split; [lia|done]. }
  mstep. rewrite idle_busy by done. destruct (busy d i) eqn:Eb; simpl.
  - destruct (IH (i + 1) ltac:(lia)) as [(j&Hj&Hjb&Hk&E)|[Hk E]]; [left; exists j|right]; rewrite E.
    + split_and!; [lia|lia|done| |done]. intros k Hk'.
      destruct (Z.eq_dec k i) as [->|]; [done|]. apply Hk; lia.
    + split; [|done]. intros k Hk'. destruct (Z.eq_dec k i) as [->|]; [done|]. apply Hk; lia.
  - left. exists i. split_and!; [lia|lia|done|lia|reflexivity].
Qed.

(** An allocation gives out the first idle channel, or fails when there is none. *)
Lemma alloc_ch_spec d :
  (∃ j, 0 ≤ j < DMAC_CH_NUM ∧ busy d j = false ∧ (∀ k, 0 ≤ k < j → busy d k = true) ∧
        scm2010_dma_alloc_ch d = Ret (j, granted_state j d)) ∨
  (∀ k, 0 ≤ k < DMAC_CH_NUM → busy d k = true) ∧ scm2010_dma_alloc_ch d = Ret (0xff, d).
Proof.
  destruct OK. pose proof (alloc_loop_spec (Z.to_nat DMAC_CH_NUM) 0 d ltac:(lia)) as H.
  rewrite Z.add_0_l, Z2Nat.id in H by lia. exact H.
Qed.

(** ** Interleavings *)

(** What can happen to a controller: the hardware raises status bits, the
    interrupt is taken, or a thread runs a driver call. *)
Inductive event :=
| EvFlag (st : Z)
| EvIrq
| EvAlloc (r : Z)
| EvCopyHw (keep : bool) (ctrl : dma_ctrl) (chain : list dma_desc_chain) (handler priv : Z) (r : Z * option Z)
| EvRelease (ch : Z)
| EvRel (ch : Z)
| EvAbort (ch : Z)
| EvReload (ch : Z) (chain : list dma_desc_chain).

Inductive dma_step : event → dmac → dmac → Prop :=
| step_flag st d : dma_step (EvFlag st) d (set_int (Z.lor (int_status d) st) d)
| step_irq r d d' : scm2010_dmac_isr d = Ret (r, d') → dma_step EvIrq d d'
| step_alloc r d d' : scm2010_dma_alloc_ch d = Ret (r, d') → dma_step (EvAlloc r) d d'
| step_copy_hw keep ctrl chain handler priv r d d' :
    scm2010_dma_copy_hw keep ctrl chain handler priv d = Ret (r, d') →
    dma_step (EvCopyHw keep ctrl chain handler priv r) d d'
| step_release ch d d' : 0 ≤ ch < 8 → scm2010_dma_ch_release ch d = Ret ((), d') → dma_step (EvRelease ch) d d'
| step_rel ch r d d' : 0 ≤ ch < 8 → scm2010_dma_ch_rel ch d = Ret (r, d') → dma_step (EvRel ch) d d'
| step_abort ch r d d' : 0 ≤ ch < 8 → scm2010_dma_ch_abort ch d = Ret (r, d') → dma_step (EvAbort ch) d d'
| step_reload ch chain r d d' :
    0 ≤ ch < 8 → scm2010_dma_reload ch chain d = Ret (r, d') → dma_step (EvReload ch chain) d d'.

Definition pending (d : dmac) (ch : Z) : dma_isr_status :=
  status_of (INT_STATUS_TC_DONE (int_status d)) (INT_STATUS_ABORT (int_status d))
            (INT_STATUS_ERROR (int_status d)) ch.

(** The events that end a client's use of channel [ch]. *)
Definition ends (ch : Z) (e : event) (d : dmac) : Prop :=
  match e with
  | EvIrq => pending d ch ≠ DMA_STATUS_NONE ∧ kept d ch = false
  | EvRelease c | EvRel c => c = ch
  | EvAbort c => c = ch ∧ kept d ch = false
  | _ => False
  end.

(** The channel an event gives to a client. *)
Definition granted (e : event) : option Z :=
  match e with
  | EvAlloc r => if r =? 0xff then None else Some r
  | EvCopyHw _ _ _ _ _ (_, r) => r
  | _ => None
  end.

(** A stretch of events none of which ends the use of [ch]. *)
Inductive holds (ch : Z) : dmac → list event → dmac → Prop :=
| holds_nil d : holds ch d [] d
| holds_cons e es d d1 d2 :
    dma_step e d d1 → ¬ ends ch e d → holds ch d1 es d2 → holds ch d (e :: es) d2.

Lemma granted_state_busy j ch d : 0 ≤ j < 8 → 0 ≤ ch < 8 →
  busy (granted_state j d) ch = busy d ch || bool_decide (ch = j).
Proof. intros. unfold busy, granted_state. simpl. by apply u8_lor_testbit. Qed.

Lemma alloc_busy ch d r d' : 0 ≤ ch < 8 → busy d ch = true →
  scm2010_dma_alloc_ch d = Ret (r, d') → busy d' ch = true ∧ r ≠ ch.
Proof.
  intros Hch Hb. destruct OK.
  destruct (alloc_ch_spec d) as [(j&Hj&Hjb&_&->)|[_ ->]]; intros [= <- <-].
  - rewrite granted_state_busy, Hb by lia. split; [done|congruence].
  - split; [done|lia].
Qed.

Lemma set_idle_busy ch c d : 0 ≤ c < 8 → 0 ≤ ch < 8 → c ≠ ch → busy d ch = true →
  busy (set_status (u8 (Z.land (ch_status d) (Z.lnot (BIT c)))) d) ch = true.
Proof.
  intros ??? Hb. unfold busy in *. simpl. rewrite u8_land_testbit, Hb by done.
  by rewrite bool_decide_false by congruence.
Qed.

(** ** The interrupt handler, channel by channel *)

(** What the handler does for a channel with status [s]: the callback, then
    the channel is idle unless it is kept. *)
Definition ch_call (s : dma_isr_status) (ch : Z) (d : dmac) : list call :=
  if negb (bool_decide (s = DMA_STATUS_NONE)) && negb (cb (channel d ch) =? NULL)
  then [Call ch (cb (channel d ch)) (priv_data (channel d ch)) s] else [].

Definition ch_done (s : dma_isr_status) (ch : Z) (d : dmac) : dmac :=
  let d1 :=
    if negb (bool_decide (s = DMA_STATUS_NONE)) && negb (cb (channel d ch) =? NULL) then
      set_calls (calls d ++ ch_call s ch d)
        (if bool_decide (s = DMA_STATUS_ABORTED)
         then set_aborted (u8 (Z.lor (ch_aborted d) (BIT ch))) d else d)
    else d in
  if negb (bool_decide (s = DMA_STATUS_NONE)) && negb (kept d ch)
  then set_status (u8 (Z.land (ch_status d1) (Z.lnot (BIT ch)))) d1 else d1.

(** A completion or error of a channel that was flagged as aborted. *)
Definition spurious (s : dma_isr_status) (ch : Z) (d : dmac) : bool :=
  bool_decide (s = DMA_STATUS_COMPLETE ∨ s = DMA_STATUS_ERROR) &&
  negb (cb (channel d ch) =? NULL) && aborted d ch.

Lemma isr_channel_spec t a e ch d : 0 ≤ ch →
  isr_channel t a e ch d =
    if spurious (status_of t a e ch) ch d then Ret (true, d)
    else Ret (false, ch_done (status_of t a e ch) ch d).
Proof.
  intros Hch. unfold isr_channel, spurious, ch_done, ch_call. generalize (status_of t a e ch). intros s.
  mstep. rewrite (land_BIT_zero (ch_aborted d)) by done. unfold aborted.
  destruct s, (cb (channel d ch) =? 0) eqn:Ecb, (Z.testbit (ch_aborted d) ch); simpl;
    unfold run_cb, set_ch_aborted; repeat first [mstep; simpl | rewrite bind_ret_l; simpl];
    unfold mbind, M_bind; simpl; rewrite ?(land_BIT_zero (ch_keep d)) by done; unfold kept;
    rewrite ?Ecb; destruct (Z.testbit (ch_keep d) ch); reflexivity.
Qed.

Lemma ch_done_frame s ch d :
  channel (ch_done s ch d) = channel d ∧ ch_keep (ch_done s ch d) = ch_keep d ∧
  int_status (ch_done s ch d) = int_status d ∧ regs (ch_done s ch d) = regs d ∧
  descs (ch_done s ch d) = descs d ∧ ram (ch_done s ch d) = ram d.
Proof.
  unfold ch_done. split_and!;
    by destruct (negb _ && negb (kept _ _)), (negb _ && negb (_ =? _)), (bool_decide (s = DMA_STATUS_ABORTED)).
Qed.


Lemma ch_done_busy s ch c d : 0 ≤ ch < 8 → 0 ≤ c < 8 →
  busy (ch_done s ch d) c =
    busy d c && negb (bool_decide (c = ch) && negb (bool_decide (s = DMA_STATUS_NONE)) && negb (kept d ch)).
Proof.
  intros Hch Hc. unfold ch_done, busy.
  destruct (negb _ && negb (kept d ch)) eqn:E.
  - simpl. rewrite u8_land_testbit by done. rewrite <-andb_assoc, E, andb_true_r.
    by destruct (negb _ && negb (_ =? _)), (bool_decide (s = DMA_STATUS_ABORTED)).
  - rewrite <-andb_assoc, E, andb_false_r. simpl. rewrite andb_true_r.
    by destruct (negb _ && negb (_ =? _)), (bool_decide (s = DMA_STATUS_ABORTED)).
Qed.


(** The interrupt loop idles no channel that is kept or has no status. *)
Lemma isr_loop_busy t a e n ch d r d' : (n ≤ 8)%nat → 0 ≤ ch < 8 → busy d ch = true →
  (status_of t a e ch = DMA_STATUS_NONE ∨ kept d ch = true) →
  isr_loop t a e n d = Ret (r, d') → busy d' ch = true.
Proof.
  revert d r d'. induction n as [|n IH]; intros d r d' Hn Hch Hb Hs; simpl; [by intros [= _ <-]|].
  unfold mbind, M_bind. rewrite isr_channel_spec by lia.
  destruct (spurious _ _ _); [by intros [= _ <-]|].
  set (s := status_of t a e (Z.of_nat n)).
  destruct (ch_done_frame s (Z.of_nat n) d) as (_&Hk&_).
  apply IH; [lia|done| |unfold kept; rewrite Hk; exact Hs].
  rewrite ch_done_busy, Hb by lia. case_bool_decide as Ec; [|done]. subst.
  destruct Hs as [Hs| ->]; [unfold s; by rewrite Hs|]. by rewrite !andb_false_r.
Qed.

Ltac minv H :=
  repeat match type of H with
  | (_ ≫= _) _ = Ret _ => let x := fresh "x" in let d := fresh "d" in let H1 := fresh "H" in
      apply bind_Ret_inv in H as (x&d&H1&H)
  end.

Lemma write_reg val off d : off ≠ DMAC_INT_STATUS →
  dma_write val off d = Ret ((), set_regs (upd (regs d) off val) d).
Proof. intros H. unfold dma_write, modify. by rewrite (proj2 (Z.eqb_neq _ _)). Qed.

Lemma read_reg off d : off ≠ DMAC_INT_STATUS → dma_read off d = Ret (regs d off, d).
Proof. intros H. unfold dma_read. mstep. by rewrite (proj2 (Z.eqb_neq _ _)). Qed.

Lemma abort_run c d : 0 ≤ c →
  scm2010_dma_ch_abort c d = Ret (0,
    let r := upd (regs d) DMAC_CH_ABORT (Z.shiftl 1 c) in
    set_int 0 (set_regs (upd r (DMAC_CH_N_CTRL c) (Z.land (r (DMAC_CH_N_CTRL c)) (Z.lnot 1)))
      (if kept d c then d else set_status (u8 (Z.land (ch_status d) (Z.lnot (BIT c)))) d))).
Proof.
  intros Hc. assert (DMAC_CH_N_CTRL c ≠ DMAC_INT_STATUS) by (unfold DMAC_CH_N_CTRL, DMAC_INT_STATUS; lia).
  unfold scm2010_dma_ch_abort.
  erewrite bind_Ret by (by apply write_reg). erewrite bind_Ret by (by apply read_reg).
  erewrite bind_Ret by (by apply write_reg). mstep. cbn [set_regs ch_keep].
  rewrite land_BIT_zero by done. unfold kept.
  destruct (Z.testbit (ch_keep d) c); simpl; mstep; mstep; mstep; simpl;
    rewrite Z.land_lnot_diag; done.
Qed.

Lemma reload_status c chain r d d' : scm2010_dma_reload c chain d = Ret (r, d') →
  ch_status d' = u8 (Z.lor (ch_status d) (BIT c)).
Proof.
  intros H. unfold scm2010_dma_reload in H. minv H.
  injection H0 as <- <-. unfold c_assert in H1. destruct (negb _); [|done].
  injection H1 as _ <-. injection H2 as _ <-. injection H3 as _ <-. injection H as _ <-.
  rewrite (kick_keeps ch_status c _ ltac:(done) ltac:(done) _ _ _ H6).
  assert (keeps ch_status (read_desc (ch_desc (channel d c)))) as Hk by keeps_tac.
  rewrite (Hk _ _ _ H5). by rewrite (reload_fill_keeps _ _ _ _ _ _ _ H4).
Qed.

(** After the allocation, [scm2010_dma_copy_hw] does not touch the allocation
    bits. *)
Lemma copy_hw_status keep ctrl chain handler priv ch r d d' :
  ((if keep : bool then set_ch_keep ch else clr_ch_keep ch);;
   d ← get;
   hw_fill (cfg_word (hw_cfg ctrl)) (ch_desc (channel d ch)) (Z.of_nat (length chain)) 0 chain;;
   (if negb (handler =? NULL) then
      modify (λ d, set_channel (upd (channel d) ch (Channel (ch_desc (channel d ch)) handler priv)) d)
    else mret ());;
   first ← read_desc (ch_desc (channel d ch));
   scm2010_dma_kick ch first;;
   mret (0, Some ch)) d = Ret (r, d') →
  ch_status d' = ch_status d ∧ r.2 = Some ch.
Proof.
  intros H. minv H. injection H as <- <-. split; [|done].
  rewrite (kick_keeps ch_status ch _ ltac:(done) ltac:(done) _ _ _ H5).
  assert (keeps ch_status (read_desc (ch_desc (channel x0 ch)))) as Hk by keeps_tac.
  rewrite (Hk _ _ _ H4).
  assert (ch_status d3 = ch_status d2) as ->
    by (destruct (negb _); by inversion H3).
  rewrite (hw_fill_keeps _ _ _ _ _ _ _ _ H2).
  injection H1 as <- <-. destruct keep; by inversion H0.
Qed.

Lemma step_holds ch e d d' : 0 ≤ ch < 8 → busy d ch = true → dma_step e d d' → ¬ ends ch e d →
  busy d' ch = true ∧ granted e ≠ Some ch.
Proof.
  intros Hch Hb Hstep Hends. destruct Hstep as
    [st d|r d d' H|r d d' H|keep ctrl chain handler priv r d d' H|c d d' Hc H|c r d d' Hc H
    |c r d d' Hc H|c chain r d d' Hc H]; simpl in Hends.
  - done.
  - split; [|done]. revert H. unfold scm2010_dmac_isr. mstep. simpl.
    destruct (int_status d =? 0); [by intros [= _ <-]|]. mstep.
    intros (?&d1&H1&[= _ <-])%bind_Ret_inv. destruct OK.
    eapply isr_loop_busy; [| | | |exact H1]; simpl; [lia|done|done|].
    destruct (decide (pending d ch = DMA_STATUS_NONE)) as [E|E]; [by left|right].
    apply not_false_is_true. intros Hk. by apply Hends.
  - destruct (alloc_busy ch d r d' Hch Hb H) as [? Hr]. split; [done|]. simpl.
    case_match; congruence.
  - revert H. unfold scm2010_dma_copy_hw. intros (r1&d1&H1&H2)%bind_Ret_inv.
    destruct (alloc_busy ch d r1 d1 Hch Hb H1) as [Hb1 Hr1].
    destruct (r1 =? 255); [by injection H2 as <- <-|].
    assert (ch_status d' = ch_status d1 ∧ r.2 = Some r1) as [Hs Hr].
    { by apply (copy_hw_status keep ctrl chain handler priv r1 r d1). }
    split; [by unfold busy; rewrite Hs|]. simpl. destruct r as [? r]. simpl in *. congruence.
  - injection H as <-. split; [|done]. by apply set_idle_busy.
  - split; [|done]. revert H. unfold scm2010_dma_ch_rel. mstep. mstep. mstep.
    intros [= _ <-]. by apply (set_idle_busy ch c d).
  - split; [|done]. rewrite abort_run in H by lia. injection H as _ <-.
    destruct (kept d c) eqn:Ek; [done|]. apply (set_idle_busy ch c d); [done..| |done].
    intros ->. by apply Hends.
  - split; [|done]. unfold busy. rewrite (reload_status _ _ _ _ _ H), u8_lor_testbit by done.
    unfold busy in Hb. by rewrite Hb.
Qed.

Lemma holds_exclusive ch d es d' : 0 ≤ ch < 8 → busy d ch = true → holds ch d es d' →
  busy d' ch = true ∧ ∀ e, e ∈ es → granted e ≠ Some ch.
Proof.
  intros Hch Hb Hh. induction Hh as [d|e es d d1 d2 Hs He _ IH].
  - split; [done|]. intros e He. by apply elem_of_nil in He.
  - destruct (step_holds ch e d d1 Hch Hb Hs He) as [Hb1 Hg]. destruct (IH Hb1) as [Hb2 IHg].
    split; [done|]. intros e' [->|He']%elem_of_cons; auto.
Qed.

(** C23: a channel belongs to one client at a time.  A channel that an
    allocation gave out was idle before, and stays busy and is given to nobody
    else over any sequence of interrupts, allocations, transfers, reloads,
    releases and aborts of any clients, until one of them ends this use of it:
    its own interrupt (unless the channel is kept), release, or abort (unless
    kept).  Clients act between interrupts; what they do in their callbacks is
    taken as a later operation. *)
Theorem dma_channel_exclusive ch d d1 es d2 :
  scm2010_dma_alloc_ch d = Ret (ch, d1) → ch ≠ 0xff → holds ch d1 es d2 →
  busy d ch = false ∧ busy d2 ch = true ∧ ∀ e, e ∈ es → granted e ≠ Some ch.
Proof.
  destruct OK. intros Halloc Hne Hh. destruct (alloc_ch_spec d) as [(j&Hj&Hjb&_&E)|[_ E]];
    rewrite E in Halloc; injection Halloc as <- <-; [|done].
  split; [done|]. eapply holds_exclusive; [| |exact Hh]; [lia|].
  rewrite granted_state_busy by lia. by rewrite bool_decide_true, orb_true_r.
Qed.

(** ** The interrupt handler *)



Lemma isr_enter d : int_status d ≠ 0 →
  scm2010_dmac_isr d =
    (isr_loop (INT_STATUS_TC_DONE (int_status d)) (INT_STATUS_ABORT (int_status d))
       (INT_STATUS_ERROR (int_status d)) (Z.to_nat DMAC_CH_NUM);; mret 0) (set_int 0 d).
Proof.
  intros Hne. unfold scm2010_dmac_isr. mstep. simpl. rewrite (proj2 (Z.eqb_neq _ _)) by done.
  mstep. simpl. by rewrite Z.land_lnot_diag.
Qed.


Lemma isr_loop_stops t a e n i d : 0 ≤ i < Z.of_nat n → spurious (status_of t a e i) i d = true →
  (∀ k, i < k < Z.of_nat n → status_of t a e k = DMA_STATUS_NONE) →
  isr_loop t a e n d = Ret ((), d).
Proof.
  induction n as [|n IH]; intros Hi Hsp Hnone; [lia|]. simpl.
  unfold mbind, M_bind. rewrite isr_channel_spec by lia.
  destruct (Z.eq_dec i (Z.of_nat n)) as [->|Hne]; [by rewrite Hsp|].
  rewrite Hnone by lia. unfold spurious, ch_done. simpl. apply IH; [lia|done|].
  intros. apply Hnone. lia.
Qed.

(** A completion from a channel flagged as aborted makes the handler
    return in the middle of its loop, after it has acknowledged every status:
    the channels below lose their completions.  Their callbacks never run,
    their status bits are gone and they stay busy. *)
Theorem dma_isr_drops_completions d i :
  0 ≤ i < DMAC_CH_NUM → int_status d ≠ 0 → spurious (pending d i) i d = true →
  (∀ k, i < k < DMAC_CH_NUM → pending d k = DMA_STATUS_NONE) →
  scm2010_dmac_isr d = Ret (0, set_int 0 d).
Proof.
  intros Hi Hne Hsp Hnone. destruct OK. rewrite isr_enter by done.
  erewrite bind_Ret; [reflexivity|]. apply (isr_loop_stops _ _ _ _ i); [lia|done|].
  intros k Hk. apply Hnone. lia.
Qed.

End Channels.

(** ** Witnesses *)

Module Demo.

#[local] Instance cfg : DmaConfig := {|
  DMAC_CH_NUM := 8; DMA_DESC_NUM := 4; dma_desc_base := 4096; dma_dynamic_alloc := false |}.

#[local] Instance cfg_ok : DmaConfigOk.
Proof. split; simpl; lia. Qed.

(** Channels 0 to 2 in use with callbacks; channel 2 was flagged as aborted. *)
Definition d_busy (st abrt : Z) : dmac :=
  Dmac 7 abrt 0 (λ ch, Channel 4096 (100 + ch) (200 + ch)) (λ _, 0) st ∅ (λ _, 0) [].

Definition d_at (status int : Z) (log : list call) : dmac :=
  Dmac status 0 0 (λ ch, Channel 4096 (100 + ch) (200 + ch)) (λ _, 0) int ∅ (λ _, 0) log.

Definition es : list event := [EvAlloc 4; EvFlag (BIT 17); EvIrq; EvAlloc 1].
Definition d_last : dmac := d_at 31 0 [Call 1 101 201 DMA_STATUS_COMPLETE].

(** Channel 3 is in use; channel 4 is allocated, channel 1 completes and is
    given out again. *)
Lemma es_holds : holds 3 (d_at 15 0 []) es d_last.
Proof.
  eapply (holds_cons _ _ _ _ (d_at 31 0 [])); [apply step_alloc; by vm_compute|by intros []|].
  eapply (holds_cons _ _ _ _ (d_at 31 (BIT 17) [])); [apply step_flag|by intros []|].
  eapply (holds_cons _ _ _ _ (d_at 29 0 [Call 1 101 201 DMA_STATUS_COMPLETE]));
    [apply (step_irq 0); by vm_compute|by intros [Hn _]|].
  eapply (holds_cons _ _ _ _ d_last); [apply step_alloc; by vm_compute|by intros []|].
  apply holds_nil.
Qed.

Lemma dma_channel_exclusive_witness :
  EvAlloc 1 ∈ es ∧ busy (d_at 7 0 []) 3 = false ∧ busy d_last 3 = true ∧
  ∀ e, e ∈ es → granted e ≠ Some 3.
Proof.
  split; [right; right; right; by left|].
  apply (dma_channel_exclusive 3 (d_at 7 0 []) (d_at 15 0 []) es d_last);
    [by vm_compute|lia|exact es_holds].
Defined.


(** Channels 0 and 2 complete, channel 2 flagged: channel 0 stays busy, unreported. *)
Lemma dma_isr_drops_completions_witness :
  pending (d_busy 0x50000 4) 0 = DMA_STATUS_COMPLETE ∧
  scm2010_dmac_isr (d_busy 0x50000 4) = Ret (0, set_int 0 (d_busy 0x50000 4)) ∧
  busy (set_int 0 (d_busy 0x50000 4)) 0 = true ∧ calls (set_int 0 (d_busy 0x50000 4)) = [].
Proof.
  split; [reflexivity|]. split; [|split; reflexivity].
  apply (dma_isr_drops_completions (d_busy 0x50000 4) 2).
  - simpl. lia.
  - done.
  - reflexivity.
  - intros k Hk. simpl in Hk. assert (k = 3 ∨ k = 4 ∨ k = 5 ∨ k = 6 ∨ k = 7) as Hc by lia.
    repeat destruct Hc as [->|Hc]; [..|subst k]; reflexivity.
Defined.

End Demo.
