(* ===== verification/DmaCopy.v ===== *)
(** * The DMA controller driver: memory to memory copies

    [scm2010_dma_copy] splits every element of a chain into a part for the
    transfer engine, in words, half words or bytes, and a remainder that the
    processor copies.  The theorems compare memory afterwards with the plain
    copies the caller asked for. *)

From stdpp Require Import base tactics numbers list gmap.
From S2P Require Import Prelude Dma DmaTheorems.

(** ** Plain copies *)

Definition do_copy (m : memory) (c : dma_desc_chain) : memory :=
  copy_range (src_addr c) (dst_addr c) (len c) m.

Definition covers (c : dma_desc_chain) (a : Z) : Prop := dst_addr c ≤ a < dst_addr c + len c.

Definition no_feedback (l : list dma_desc_chain) : Prop := ∀ c c', c ∈ l → c' ∈ l →
  disjoint_ranges (src_addr c) (len c) (dst_addr c') (len c').

Lemma do_copy_in m c a : covers c a → do_copy m c a = m (src_addr c + (a - dst_addr c)).
Proof.
  intros [H1 H2]. unfold do_copy, copy_range.
  by rewrite (proj2 (Z.leb_le _ _)), (proj2 (Z.ltb_lt _ _)).
Qed.

Lemma do_copy_out m c a : ¬ covers c a → do_copy m c a = m a.
Proof.
  intros Hn. unfold do_copy, copy_range, covers in *.
  destruct (Z.leb_spec (dst_addr c) a), (Z.ltb_spec a (dst_addr c + len c)); simpl; try done. lia.
Qed.

#[global] Instance covers_dec c a : Decision (covers c a).
Proof. unfold covers. apply _. Defined.

Lemma copies_out l m a : (∀ c, c ∈ l → ¬ covers c a) → foldl do_copy m l a = m a.
Proof.
  induction l as [|c l IH] using rev_ind; [done|]. intros Hn. rewrite foldl_snoc.
  rewrite do_copy_out by (apply Hn; set_solver). apply IH. intros c' Hc'. apply Hn. set_solver.
Qed.

(** Copies that do not feed each other: an address some of them cover, all from
    the same place [p], ends up with what was at [p]. *)
Lemma copies_in l m a p : no_feedback l →
  (∀ c, c ∈ l → covers c a → src_addr c + (a - dst_addr c) = p) → (∃ c, c ∈ l ∧ covers c a) →
  foldl do_copy m l a = m p.
Proof.
  induction l as [|c l IH] using rev_ind; intros Hnf Hp (c0&Hc0&Hcov0).
  { by apply elem_of_nil in Hc0. }
  rewrite foldl_snoc. destruct (decide (covers c a)) as [Hcov|Hncov].
  - rewrite do_copy_in, (Hp c) by (done || set_solver). apply copies_out. intros c' Hc' Hcov'.
    assert (covers c a) as [? ?] by done. pose proof (Hp c ltac:(set_solver) Hcov) as <-.
    eapply (Hnf c c'); [set_solver|set_solver| |exact Hcov']. lia.
  - rewrite do_copy_out by done. apply IH.
    + intros c1 c2 H1 H2. apply Hnf; set_solver.
    + intros c' Hc'. apply Hp. set_solver.
    + exists c0. apply elem_of_app in Hc0 as [?| ->%list_elem_of_singleton]; done.
Qed.

(** ** Chains *)

Definition entry_ok (c : dma_desc_chain) : Prop :=
  0 ≤ src_addr c ∧ 0 ≤ dst_addr c ∧ 0 ≤ len c ∧
  src_addr c + len c ≤ 2 ^ 32 ∧ dst_addr c + len c ≤ 2 ^ 32.

(** The destinations of a chain overlap neither each other nor any source. *)
Definition separate (l : list dma_desc_chain) : Prop :=
  no_feedback l ∧
  ∀ i j c c', l !! i = Some c → l !! j = Some c' → i ≠ j →
    disjoint_ranges (dst_addr c) (len c) (dst_addr c') (len c').

(** What a [remainder] must say: the callers pass the low bits of all addresses,
    0 for words and 2 for half words. *)
Definition aligned_to (n : Z) (c : dma_desc_chain) : Prop := src_addr c mod n = 0 ∧ dst_addr c mod n = 0.

Definition remainder_ok (remainder : Z) (l : list dma_desc_chain) : Prop :=
  (remainder = 0 → Forall (aligned_to 4) l) ∧ (remainder = 2 → Forall (aligned_to 2) l).

(** As [nuttx_dma_copydata] and [vendor_device.c] compute it. *)
Definition low_bits (l : list dma_desc_chain) : Z :=
  foldr (λ c r, Z.lor r (Z.lor (Z.land (src_addr c) 3) (Z.land (dst_addr c) 3))) 0 l.

Lemma low_bits_ok l : remainder_ok (low_bits l) l.
Proof.
  assert (∀ k, 0 ≤ k < 2 → Z.testbit (low_bits l) k = false →
    Forall (λ c, Z.testbit (src_addr c) k = false ∧ Z.testbit (dst_addr c) k = false) l) as Hbit.
  { intros k Hk. induction l as [|c l IH]; simpl; [constructor|]. rewrite !Z.lor_spec, !Z.land_spec.
    assert (Z.testbit 3 k = true) as -> by (assert (k = 0 ∨ k = 1) as [-> | ->] by lia; done).
    rewrite !andb_true_r. intros [Hl [H1 H2]%orb_false_iff]%orb_false_iff. constructor; [done|by apply IH]. }
  assert (∀ x, Z.testbit x 0 = false → x mod 2 = 0) as Hodd.
  { intros x. rewrite Z.bit0_odd, Zmod_odd. by intros ->. }
  assert (∀ x, Z.testbit x 0 = false → Z.testbit x 1 = false → x mod 4 = 0) as H4.
  { intros x H0 H1. apply Hodd in H0. apply Z.testbit_false in H1; [|done]. zlia. }
  split; intros H.
  - pose proof (Hbit 0 ltac:(lia) ltac:(by rewrite H)) as F0. pose proof (Hbit 1 ltac:(lia) ltac:(by rewrite H)) as F1.
    rewrite Forall_forall in *. intros c Hc. destruct (F0 c Hc), (F1 c Hc). split; by apply H4.
  - pose proof (Hbit 0 ltac:(lia) ltac:(by rewrite H)) as F0. eapply Forall_impl; [exact F0|].
    intros c [? ?]. split; by apply Hodd.
Qed.

(** The remainder that [rem] holds when an element is processed fits in it. *)
Fixpoint rems_fit (remainder rem : Z) (l : list dma_desc_chain) : bool :=
  match l with
  | [] => true
  | c :: l => let '(_, _, rem) := plan remainder rem (len c) in (rem <=? len c) && rems_fit remainder rem l
  end.

(** The copies the processor makes and those the engine makes. *)
Fixpoint tails (remainder rem : Z) (l : list dma_desc_chain) : list dma_desc_chain :=
  match l with
  | [] => []
  | c :: l =>
      let '(_, _, rem) := plan remainder rem (len c) in
      (if rem =? 0 then [] else [Chain (u32 (src_addr c + len c - rem)) (u32 (dst_addr c + len c - rem)) rem])
      ++ tails remainder rem l
  end.

Fixpoint xfers (remainder rem : Z) (l : list dma_desc_chain) : list dma_desc_chain :=
  match l with
  | [] => []
  | c :: l =>
      let '(size, width, rem) := plan remainder rem (len c) in
      Chain (src_addr c) (dst_addr c) (size * 2 ^ width) :: xfers remainder rem l
  end.

(** [e] copies a part of what [c] copies. *)
Definition part_of (e c : dma_desc_chain) : Prop :=
  ∃ off, 0 ≤ off ∧ src_addr e = src_addr c + off ∧ dst_addr e = dst_addr c + off ∧ off + len e ≤ len c.

Lemma plan_spec remainder rem l size width rem' :
  plan remainder rem l = (size, width, rem') → 0 ≤ rem → 0 ≤ l →
  0 ≤ rem' ∧ (width = 0 ∨ width = 1 ∧ remainder = 2 ∨ width = 2 ∧ remainder = 0) ∧ size * 2 ^ width ≤ l ∧ 0 ≤ size ∧
  (size * 2 ^ width = l ∨ size * 2 ^ width + rem' = l).
Proof.
  unfold plan, WORD, HALF_WORD, BYTE. intros H Hr Hl.
  assert (Z.land l 3 = l mod 4) as E3 by (apply (land_mask l 2); lia).
  assert (Z.land l 1 = l mod 2) as E1 by (apply (land_mask l 1); lia).
  destruct ((remainder =? 0) && _) eqn:E0; [|destruct ((remainder =? 2) && _) eqn:E2]; injection H as <- <- <-; rewrite ?E3, ?E1;
    change (2 ^ 2) with 4; change (2 ^ 1) with 2; change (2 ^ 0) with 1; split_and!; try lia; try zlia.
Qed.

Lemma parts_of_chain remainder rem l : 0 ≤ rem → Forall entry_ok l → rems_fit remainder rem l = true →
  ∀ e, e ∈ tails remainder rem l ++ xfers remainder rem l → ∃ c, c ∈ l ∧ part_of e c.
Proof.
  revert rem. induction l as [|c l IH]; intros rem Hr; simpl; [intros _ _ e He; by apply elem_of_nil in He|].
  intros [(?&?&?&?&?) Hl]%Forall_cons. destruct (plan remainder rem (len c)) as [[size width] rem'] eqn:Ep.
  destruct (plan_spec _ _ _ _ _ _ Ep ltac:(done) ltac:(done)) as (Hr'&Hw&Hs&Hs0&Hsum).
  intros [Hfit%Z.leb_le Hrest]%andb_prop e He.
  rewrite <-app_assoc, elem_of_app in He. destruct He as [He|He].
  { exists c. split; [by left|]. destruct (Z.eqb_spec rem' 0); [by apply elem_of_nil in He|].
    apply list_elem_of_singleton in He as ->. exists (len c - rem'). simpl.
    rewrite !u32_id by lia. split_and!; lia. }
  rewrite elem_of_app, elem_of_cons in He. destruct He as [He|[->|He]].
  2: { exists c. split; [by left|]. exists 0. simpl. split_and!; lia. }
  all: destruct (IH rem' Hr' Hl Hrest e) as (c'&?&?); [apply elem_of_app; auto|];
    exists c'; split; [by right|done].
Qed.

Lemma parts_cover remainder rem l c a : 0 ≤ rem → Forall entry_ok l → rems_fit remainder rem l = true →
  c ∈ l → covers c a → ∃ e, e ∈ tails remainder rem l ++ xfers remainder rem l ∧ covers e a.
Proof.
  revert rem. induction l as [|c0 l IH]; intros rem Hr; simpl; [intros _ _ He; by apply elem_of_nil in He|].
  intros [(?&?&?&?&?) Hl]%Forall_cons. destruct (plan remainder rem (len c0)) as [[size width] rem'] eqn:Ep.
  destruct (plan_spec _ _ _ _ _ _ Ep ltac:(done) ltac:(done)) as (Hr'&Hw&Hs&Hs0&Hsum).
  intros [Hfit%Z.leb_le Hrest]%andb_prop [->|Hc]%elem_of_cons Hcov.
  - destruct (decide (a < dst_addr c0 + size * 2 ^ width)) as [Hlt|Hge].
    { eexists. split; [rewrite !elem_of_app, elem_of_cons; right; by left|].
      unfold covers in *. simpl. lia. }
    unfold covers in Hcov. assert (rem' ≠ 0) by lia. rewrite (proj2 (Z.eqb_neq _ _)) by done.
    eexists. split; [rewrite !elem_of_app; left; left; by left|].
    unfold covers. simpl. rewrite u32_id by lia. lia.
  - destruct (IH rem' Hr' Hl Hrest Hc Hcov) as (e&He&?). exists e. split; [|done].
    rewrite !elem_of_app, elem_of_cons in *. tauto.
Qed.

(** The parts together make the same memory as the chain. *)
Lemma parts_equal remainder l m a : Forall entry_ok l → separate l → rems_fit remainder 0 l = true →
  foldl do_copy m (tails remainder 0 l ++ xfers remainder 0 l) a = foldl do_copy m l a.
Proof.
  intros Hok [Hnf Hdst] Hfit.
  pose proof (parts_of_chain remainder 0 l ltac:(done) Hok Hfit) as Hparts.
  assert (∀ e c, part_of e c → covers e a → covers c a) as Hsub.
  { intros e c (off&?&?&?&?) Hcov. unfold covers in *. lia. }
  destruct (decide (Exists (λ c, covers c a) l)) as [(c&Hc&Hcov)%Exists_exists|Hno].
  - transitivity (m (src_addr c + (a - dst_addr c))).
    + apply copies_in.
      * intros e1 e2 H1 H2. destruct (Hparts e1 H1) as (c1&Hc1&o1&?&?&?&?).
        destruct (Hparts e2 H2) as (c2&Hc2&o2&?&?&?&?).
        intros x Hx1 Hx2. apply (Hnf c1 c2 Hc1 Hc2 x); lia.
      * intros e He Hecov. destruct (Hparts e He) as (c'&Hc'&Hp).
        assert (c' = c) as ->.
        { apply list_elem_of_lookup in Hc as [i Hi], Hc' as [j Hj].
          destruct (decide (i = j)) as [->|Hij]; [congruence|]. exfalso.
          apply (Hdst i j c c' Hi Hj Hij a); [done|]. by eapply Hsub. }
        destruct Hp as (off&?&->&->&?). lia.
      * by eapply parts_cover.
    + symmetry. apply copies_in; [done| |by exists c]. intros c' Hc' Hcov'.
      assert (c' = c) as ->; [|done].
      apply list_elem_of_lookup in Hc as [i Hi], Hc' as [j Hj].
      destruct (decide (i = j)) as [->|Hij]; [congruence|]. exfalso.
      by apply (Hdst i j c c' Hi Hj Hij a).
  - rewrite !copies_out; [done| |].
    + intros c Hc Hcov. apply Hno, Exists_exists. eauto.
    + intros e He Hcov. destruct (Hparts e He) as (c&Hc&Hp). apply Hno, Exists_exists. eauto.
Qed.

(** ** Running the driver *)

Section Copy.
Context {DC : DmaConfig} {OK : DmaConfigOk} {DE : DmaEngine} {DEL : DmaEngineLaws DE} {SC : Scheduler}.

(** Every channel has its array of descriptors. *)
Record dma_ok (d : dmac) : Prop := {
  do_desc ch : 0 ≤ ch < DMAC_CH_NUM →
    0 < ch_desc (channel d ch) ∧ ch_desc (channel d ch) + DMA_DESC_NUM * DESC_SIZE ≤ 2 ^ 32;
  do_descs ch k : 0 ≤ ch < DMAC_CH_NUM → 0 ≤ k < DMA_DESC_NUM →
    is_Some (descs d !! (ch_desc (channel d ch) + k * DESC_SIZE));
}.

Lemma cfg_fields ch width : 0 ≤ ch < 8 → (width = 0 ∨ width = 1 ∨ width = 2) →
  ∀ size src dst ll, let d := Desc (cfg_word (copy_cfg ch 1 width)) size src 0 dst 0 ll 0 in
  mem2mem d = true ∧ xfer_bytes d = size * 2 ^ width ∧
  field (dmac_cfg d) 1 1 = 1 ∧ Z.testbit (dmac_cfg d) 0 = true ∧ field (dmac_cfg d) 21 3 = width.
Proof.
  intros Hch Hw size src dst ll. unfold mem2mem, xfer_bytes. cbn [dmac_cfg src_addr_h dst_addr_h tran_size].
  assert (ch = 0 ∨ ch = 1 ∨ ch = 2 ∨ ch = 3 ∨ ch = 4 ∨ ch = 5 ∨ ch = 6 ∨ ch = 7) as Hc by lia.
  repeat destruct Hc as [->|Hc]; [..|subst ch]; destruct Hw as [->|[->| ->]];
    (split_and!; reflexivity).
Qed.

(** The descriptors that [copy_fill] writes. *)
Fixpoint mk_descs (ch desc n remainder rem i : Z) (l : list dma_desc_chain) : list dma_desc :=
  match l with
  | [] => []
  | c :: l =>
      let '(size, width, rem) := plan remainder rem (len c) in
      Desc (cfg_word (copy_cfg ch 1 width)) size (src_addr c) 0 (dst_addr c) 0 (link_to desc i n) 0
      :: mk_descs ch desc n remainder rem (i + 1) l
  end.

Definition placed (desc i : Z) (ds : list dma_desc) (m : gmap Z dma_desc) : Prop :=
  ∀ k x, ds !! k = Some x → m !! (desc + (i + Z.of_nat k) * DESC_SIZE) = Some x.

Lemma copy_fill_run ch desc n remainder rem i l d :
  0 ≤ i → (∀ k, i ≤ k < i + Z.of_nat (length l) → is_Some (descs d !! (desc + k * DESC_SIZE))) →
  ∃ m, copy_fill ch desc n 1 remainder rem i l d =
      Ret ((), set_ram (foldl do_copy (ram d) (tails remainder rem l)) (set_descs m d)) ∧
    placed desc i (mk_descs ch desc n remainder rem i l) m ∧
    ∀ a, (∀ k, i ≤ k → a ≠ desc + k * DESC_SIZE) → m !! a = descs d !! a.
Proof.
  revert rem i d. induction l as [|c l IH]; intros rem i d Hi Hs; simpl.
  { exists (descs d). split; [by destruct d|]. split; [|done]. intros k x Hk. by rewrite lookup_nil in Hk. }
  destruct (plan remainder rem (len c)) as [[size width] rem'].
  destruct (Hs i ltac:(simpl; lia)) as [old Hold].
  unfold write_desc, read_desc.
  set (D := Desc _ _ _ _ _ _ _ _).
  set (d1 := set_descs (<[desc + i * DESC_SIZE := D]> (descs d)) d).
  set (m1 := foldl do_copy (ram d) (if rem' =? 0 then [] else
    [Chain (u32 (src_addr c + len c - rem')) (u32 (dst_addr c + len c - rem')) rem'])).
  destruct (IH rem' (i + 1) (set_ram m1 d1)) as (m&Hrun&Hpl&Hout); [lia| |].
  { intros k Hk. simpl. destruct (decide (k = i)) as [->|]; [by rewrite lookup_insert_eq|].
    rewrite lookup_insert_ne by (unfold DESC_SIZE; lia). apply Hs. simpl. lia. }
  exists m. split_and!.
  - unfold mbind, M_bind, lift_opt. simpl. rewrite Hold. simpl. fold d1.
    replace ((if negb (rem' =? 0) then _ else _) d1) with (Ret ((), set_ram m1 d1) : outcome (() * dmac)).
    + rewrite Hrun, foldl_app. unfold m1. by destruct d.
    + unfold m1. destruct (rem' =? 0); simpl; [|done]. unfold d1. by destruct d.
  - intros [|k] x; simpl.
    + intros [= <-]. rewrite Z.add_0_r, Hout; [simpl; by rewrite lookup_insert_eq|].
      intros k Hk. unfold DESC_SIZE. lia.
    + intros Hx. specialize (Hpl k x Hx).
      by replace (i + Z.of_nat (S k)) with (i + 1 + Z.of_nat k) by lia.
  - intros a Ha. rewrite Hout by (intros k Hk; apply Ha; lia). simpl.
    rewrite lookup_insert_ne; [done|]. intros E. by apply (Ha i).
Qed.

Lemma kick_run ch x d : 0 ≤ ch →
  ∃ r, scm2010_dma_kick ch x d = Ret (0, set_regs r d) ∧ loaded (set_regs r d) ch = x.
Proof.
  intros Hch. eexists. split.
  - unfold scm2010_dma_kick.
    repeat (erewrite bind_Ret; [|apply write_reg;
      unfold DMAC_CH_N_CTRL, DMAC_CH_N_TRAN_SIZE, DMAC_CH_SRC_N_ADDR_L, DMAC_CH_SRC_N_ADDR_H,
        DMAC_CH_DST_N_ADDR_L, DMAC_CH_DST_N_ADDR_H, DMAC_CH_N_LL_ADDR_L, DMAC_CH_N_LL_ADDR_H,
        DMAC_INT_STATUS; lia]).
    reflexivity.
  - destruct x. unfold loaded. cbn [set_regs regs].
    unfold upd, DMAC_CH_N_CTRL, DMAC_CH_N_TRAN_SIZE, DMAC_CH_SRC_N_ADDR_L, DMAC_CH_SRC_N_ADDR_H,
      DMAC_CH_DST_N_ADDR_L, DMAC_CH_DST_N_ADDR_H, DMAC_CH_N_LL_ADDR_L, DMAC_CH_N_LL_ADDR_H.
    f_equal; repeat match goal with |- context [?a =? ?b] =>
      destruct (Z.eqb_spec a b); [first [reflexivity|exfalso; lia]|] end; exfalso; lia.
Qed.

Definition finished (ch : Z) (x : dma_desc) (d : dmac) : dmac :=
  set_regs (upd (regs d) (DMAC_CH_N_CTRL ch) (Z.land (dmac_cfg x) (Z.lnot 1)))
    (set_ram (engine (λ a, descs d !! a) x (ram d)) d).

Lemma is_busy_run ch d : 0 ≤ ch →
  scm2010_dma_ch_is_busy ch d = Ret (Z.testbit (regs d (DMAC_CH_N_CTRL ch)) 0, d).
Proof.
  intros Hch. unfold scm2010_dma_ch_is_busy.
  erewrite bind_Ret by (apply read_reg; unfold DMAC_CH_N_CTRL, DMAC_INT_STATUS; lia).
  by rewrite land_BIT_zero, negb_involutive.
Qed.

Lemma copy_poll_run fuel late wait ch x d : (wait = true → ∀ d, osDelay d = d) → 0 ≤ ch → loaded d ch = x →
  Z.testbit (dmac_cfg x) 0 = true → field (dmac_cfg x) 1 1 = 1 → (late < fuel)%nat →
  copy_poll fuel late wait ch d = Ret ((), finished ch x d).
Proof.
  intros Hwait Hch Hx Hbit Hmask. revert late. induction fuel as [|fuel IH]; intros late Hlate; [lia|].
  simpl. destruct (decide (late = O)) as [->|Hne].
  - assert (hw_complete ch d = Ret ((), finished ch x d)) as E.
    { unfold hw_complete, modify. rewrite Hx, Hmask. reflexivity. }
    erewrite bind_Ret by exact E. erewrite bind_Ret by (by apply is_busy_run).
    unfold finished at 1. cbn [set_regs regs]. unfold upd. rewrite Z.eqb_refl.
    rewrite Z.land_spec, Z.lnot_spec by lia. by rewrite andb_false_r.
  - mstep. erewrite bind_Ret by (by apply is_busy_run).
    replace (regs d (DMAC_CH_N_CTRL ch)) with (dmac_cfg x) by (by rewrite <-Hx).
    rewrite Hbit. assert ((if wait then modify osDelay else mret ()) d = Ret ((), d)) as Ew.
    { destruct wait; [|done]. unfold modify. by rewrite Hwait. }
    erewrite bind_Ret by exact Ew. apply IH. lia.
Qed.

Lemma mk_descs_length ch desc n remainder rem i l : length (mk_descs ch desc n remainder rem i l) = length l.
Proof. revert rem i. induction l as [|c l IH]; intros; simpl; [done|]. case_match. case_match. simpl. by rewrite IH. Qed.

Lemma mk_descs_list ch desc remainder rem i l m x ds : 0 < desc → 0 ≤ i →
  mk_descs ch desc (i + Z.of_nat (length l)) remainder rem i l = x :: ds →
  placed desc i (x :: ds) m → desc_list (λ a, m !! a) x (x :: ds).
Proof.
  intros Hdesc. revert rem i x ds. induction l as [|c l IH]; intros rem i x ds Hi; simpl; [done|].
  destruct (plan remainder rem (len c)) as [[size width] rem']. intros [= <- Hds] Hpl.
  destruct l as [|c' l].
  { simpl in Hds. subst ds. apply desc_last. simpl. unfold link_to. simpl.
    rewrite (proj2 (Z.ltb_ge _ _)); [done|lia]. }
  replace (i + Z.of_nat (S (length (c' :: l)))) with (i + 1 + Z.of_nat (length (c' :: l))) in Hds by lia.
  destruct ds as [|x' ds]; [simpl in Hds; by destruct (plan remainder rem' (len c')) as [[??]?]|].
  assert (link_to desc i (i + Z.of_nat (S (length (c' :: l)))) = desc + (i + 1) * DESC_SIZE) as Hl.
  { unfold link_to. rewrite (proj2 (Z.ltb_lt _ _)); [done|simpl; lia]. }
  rewrite Hl in *. eapply desc_link.
  - simpl. unfold DESC_SIZE. lia.
  - simpl. exact (Hpl 1%nat x' eq_refl).
  - eapply (IH rem' (i + 1)); [lia|exact Hds|]. intros k y Hk. specialize (Hpl (S k) y Hk).
    by replace (i + 1 + Z.of_nat k) with (i + Z.of_nat (S k)) by lia.
Qed.

(** What the engine makes of these descriptors. *)
Lemma mk_descs_transfer ch desc n remainder rem i l m : 0 ≤ ch < 8 → 0 ≤ rem → Forall entry_ok l →
  foldl transfer m (mk_descs ch desc n remainder rem i l) = foldl do_copy m (xfers remainder rem l).
Proof.
  intros Hch. revert rem i m. induction l as [|c l IH]; intros rem i m Hr; simpl; [done|].
  intros [(?&?&?&?&?) Hl]%Forall_cons. destruct (plan remainder rem (len c)) as [[size width] rem'] eqn:Ep.
  destruct (plan_spec _ _ _ _ _ _ Ep ltac:(done) ltac:(done)) as (Hr'&Hw&_). simpl.
  rewrite IH by done. f_equal. unfold transfer.
  by destruct (cfg_fields ch width Hch ltac:(tauto) size (src_addr c) (dst_addr c) (link_to desc i n)) as (_&->&_).
Qed.

Lemma mk_descs_ok ch desc n remainder rem i l : 0 ≤ ch < 8 → 0 ≤ rem → Forall entry_ok l → no_feedback l →
  remainder_ok remainder l →
  Forall (λ d, mem2mem d = true ∧ aligned d ∧
    disjoint_ranges (src_addr_l d) (xfer_bytes d) (dst_addr_l d) (xfer_bytes d) ∧
    field (dmac_cfg d) 1 1 = 1 ∧ Z.testbit (dmac_cfg d) 0 = true) (mk_descs ch desc n remainder rem i l).
Proof.
  intros Hch. revert rem i. induction l as [|c l IH]; intros rem i Hr; simpl; [constructor|].
  intros [(?&?&?&?&?) Hl]%Forall_cons Hnf [Hr4 Hr2]. destruct (plan remainder rem (len c)) as [[size width] rem'] eqn:Ep.
  destruct (plan_spec _ _ _ _ _ _ Ep ltac:(done) ltac:(done)) as (Hr'&Hw&Hs&_).
  destruct (cfg_fields ch width Hch ltac:(tauto) size (src_addr c) (dst_addr c) (link_to desc i n)) as (?&Hx&?&?&Hfw).
  constructor.
  - split_and!; [done| | |done|done].
    + unfold aligned. rewrite Hfw. cbn [src_addr_l dst_addr_l].
      destruct Hw as [->|[[-> E]|[-> E]]]; [by rewrite !Z.mod_1_r| |].
      * apply Hr2, Forall_cons in E as [E _]. exact E.
      * apply Hr4, Forall_cons in E as [E _]. exact E.
    + rewrite Hx. simpl. intros a Ha Hb. apply (Hnf c c ltac:(by left) ltac:(by left) a); lia.
  - apply IH; [done..| |].
    + intros c1 c2 Hc1 Hc2. apply Hnf; by right.
    + split; intros E; [apply Hr4, Forall_cons in E as [_ E]|apply Hr2, Forall_cons in E as [_ E]]; exact E.
Qed.

Lemma engine_run ch desc remainder l m mem x ds :
  0 < desc → 0 ≤ ch < 8 → (length l ≤ Z.to_nat DMA_DESC_NUM)%nat → Forall entry_ok l → no_feedback l →
  remainder_ok remainder l →
  mk_descs ch desc (Z.of_nat (length l)) remainder 0 0 l = x :: ds → placed desc 0 (x :: ds) m →
  engine (λ a, m !! a) x mem = foldl do_copy mem (xfers remainder 0 l).
Proof.
  intros Hdesc Hch Hlen Hok Hnf Hrem Hmk Hpl.
  pose proof (mk_descs_ok ch desc (Z.of_nat (length l)) remainder 0 0 l Hch ltac:(done) Hok Hnf Hrem) as Hall.
  rewrite Hmk in Hall. rewrite (engine_chain _ _ (x :: ds)).
  - rewrite <-Hmk. by apply mk_descs_transfer.
  - eapply (mk_descs_list ch desc remainder 0 0 l); [done|done|exact Hmk|done].
  - rewrite <-Hmk, mk_descs_length. done.
  - eapply Forall_impl; [exact Hall|]. by intros ? [? _].
  - eapply Forall_impl; [exact Hall|]. by intros ? (_&?&_).
  - eapply Forall_impl; [exact Hall|]. by intros ? (_&_&?&_).
Qed.

(** The whole call, with the parts that are copied. *)
Lemma copy_run fuel late block wait l remainder handler priv d :
  dma_ok d → (∃ ch, 0 ≤ ch < DMAC_CH_NUM ∧ busy d ch = false) →
  l ≠ [] → Z.of_nat (length l) ≤ DMA_DESC_NUM → Forall entry_ok l → no_feedback l → remainder_ok remainder l →
  (late < fuel)%nat → (wait = true → ∀ d, osDelay d = d) →
  ∃ d', scm2010_dma_copy fuel late block wait l 1 remainder handler priv d = Ret (0, d') ∧
    ram d' = foldl do_copy (ram d) (tails remainder 0 l ++ xfers remainder 0 l) ∧
    (∀ ch, 0 ≤ ch < 8 → busy d' ch = busy d ch) ∧ calls d' = calls d ∧ int_status d' = int_status d.
Proof.
  intros Hd (ch0&Hch0&Hidle) Hne Hlen Hok Hnf Hrem Hlate Hwait. destruct OK.
  destruct (alloc_ch_spec d) as [(j&Hj&Hjb&_&Ealloc)|[Hall _]]; [|by rewrite Hall in Hidle].
  destruct Hd as [Hdesc Hdescs]. destruct (Hdesc j Hj) as [Hpos Hend]. specialize (Hdescs j).
  set (desc := ch_desc (channel d j)) in *.
  set (d2 := set_channel (upd (channel d) j (Channel desc handler priv)) (granted_state j d)).
  destruct (copy_fill_run j desc (Z.of_nat (length l)) remainder 0 0 l d2) as (m&Hfill&Hpl&_); [done| |].
  { intros k Hk. apply Hdescs; [done|]. lia. }
  destruct (mk_descs j desc (Z.of_nat (length l)) remainder 0 0 l) as [|x ds] eqn:Hmk.
  { apply (f_equal length) in Hmk. rewrite mk_descs_length in Hmk. by destruct l. }
  set (d3 := set_ram _ _) in Hfill.
  assert (m !! desc = Some x) as Hx.
  { rewrite <-(Hpl 0%nat x eq_refl). f_equal. lia. }
  destruct (kick_run j x d3 ltac:(lia)) as (r&Hkick&Hload).
  pose proof (mk_descs_ok j desc (Z.of_nat (length l)) remainder 0 0 l ltac:(lia) ltac:(done) Hok Hnf Hrem) as Hall.
  rewrite Hmk in Hall. apply Forall_cons in Hall as [(_&_&_&Hmask&Hbit) _].
  exists (set_status (u8 (Z.land (u8 (Z.lor (ch_status d) (BIT j))) (Z.lnot (BIT j))))
    (finished j x (set_regs r d3))). split_and!.
  - unfold scm2010_dma_copy, c_assert. rewrite (proj2 (Z.leb_le _ _)) by done. mstep.
    destruct fuel as [|fuel]; [lia|]. cbn [alloc_wait].
    assert (alloc_wait (S fuel) block d = Ret (Some j, granted_state j d)) as Ea.
    { simpl. erewrite bind_Ret by exact Ealloc. by rewrite (proj2 (Z.eqb_neq j 255)) by lia. }
    erewrite bind_Ret by exact Ea. cbv beta iota. mstep. mstep.
    change (ch_desc (channel (granted_state j d) j)) with desc. rewrite (proj2 (Z.eqb_neq desc 0)) by lia.
    mstep. erewrite bind_Ret by exact Hfill.
    assert (read_desc desc d3 = Ret (x, d3)) as Er.
    { unfold read_desc. mstep. unfold d3. simpl. unfold lift_opt. by rewrite Hx. }
    erewrite bind_Ret by exact Er. erewrite bind_Ret by exact Hkick. change (negb (1 =? 0)) with true. cbv beta iota.
    erewrite bind_Ret by (apply copy_poll_run; [exact Hwait|lia|exact Hload|done|done|lia]). reflexivity.
  - cbn [set_status ram finished set_regs set_ram]. rewrite foldl_app.
    eapply (engine_run j desc remainder l); [done|lia|lia|done|done|done|exact Hmk|done].
  - intros ch Hch. unfold busy. cbn [set_status ch_status].
    rewrite u8_land_testbit, u8_lor_testbit by lia. fold (busy d ch).
    destruct (bool_decide_reflect (ch = j)) as [->|]; [by rewrite Hjb|].
    by rewrite orb_false_r, andb_true_r.
  - done.
  - done.
Qed.

(** C26: a polled memory to memory copy does what was asked.  For every chain of
    at least one element that fits the descriptor array, with [remainder]
    computed from the low bits of its addresses as the callers do
    ([low_bits_ok]; 0 only when all are multiples of 4, 2 only when they are
    multiples of 2, for the engine moves words and half words only at aligned
    addresses), whose destinations overlap neither each other nor a source, and
    whose left-over bytes fit their elements ([rems_fit]; the left-over of an
    element leaks into the next, dma_copy_stale_remainder): when a channel is
    idle, the call with the interrupt mask set, at any number of polls before
    the engine is done, returns 0, memory is what copying the elements one after
    the other gives, the channel is free again, and no interrupt is flagged or
    callback made.  With [wait], where the polling loop sleeps, this is for
    other tasks that leave the controller and the memory alone. *)
Theorem dma_copy_correct fuel late block wait l remainder handler priv d :
  dma_ok d → (∃ ch, 0 ≤ ch < DMAC_CH_NUM ∧ busy d ch = false) →
  l ≠ [] → Z.of_nat (length l) ≤ DMA_DESC_NUM → Forall entry_ok l → separate l → remainder_ok remainder l →
  rems_fit remainder 0 l = true → (late < fuel)%nat → (wait = true → ∀ d, osDelay d = d) →
  ∃ d', scm2010_dma_copy fuel late block wait l 1 remainder handler priv d = Ret (0, d') ∧
    (∀ a, ram d' a = foldl do_copy (ram d) l a) ∧
    (∀ ch, 0 ≤ ch < 8 → busy d' ch = busy d ch) ∧ calls d' = calls d ∧ int_status d' = int_status d.
Proof.
  intros Hd Hidle Hne Hlen Hok Hsep Hrem Hfit Hlate Hwait.
  destruct (copy_run fuel late block wait l remainder handler priv d) as (d'&?&Hram&?&?&?); [done..|apply Hsep|done|done|done|].
  exists d'. split; [done|]. split; [|done]. intros a. rewrite Hram. by apply parts_equal.
Qed.

(** A remainder leaks into the next element.  [rem] is not reset between
    the elements of a chain: after an element of 4 or more bytes with [r] bytes
    left over, a following element shorter than [r] makes the processor copy
    [r] bytes that end where that element ends, so bytes in front of its
    destination, which the caller did not ask to change, are overwritten. *)
Theorem dma_copy_stale_remainder fuel late block c1 c2 handler priv d r a :
  dma_ok d → (∃ ch, 0 ≤ ch < DMAC_CH_NUM ∧ busy d ch = false) → 2 ≤ DMA_DESC_NUM →
  Forall entry_ok [c1; c2] → no_feedback [c1; c2] → (late < fuel)%nat →
  remainder_ok 0 [c1; c2] → 4 ≤ len c1 → r = len c1 mod 4 → len c2 < r → r ≤ src_addr c2 → r ≤ dst_addr c2 →
  a = dst_addr c2 + len c2 - r → ¬ covers c1 a → ¬ covers c1 (src_addr c2 + len c2 - r) →
  a < dst_addr c2 ∧ foldl do_copy (ram d) [c1; c2] a = ram d a ∧
  ∃ d', scm2010_dma_copy fuel late block false [c1; c2] 1 0 handler priv d = Ret (0, d') ∧
    ram d' a = ram d (src_addr c2 + len c2 - r).
Proof.
  intros Hd Hidle Hnum Hok Hnf Hlate Hrem Hlen1 Hr Hlen2 Hsrc Hdst Ha Hn1 Hn2.
  assert (entry_ok c1 ∧ entry_ok c2) as [(?&?&?&?&?) (?&?&?&?&?)].
  { apply Forall_cons in Hok as [? [? _]%Forall_cons]. done. }
  assert (0 ≤ r < 4) by (subst r; apply Z.mod_pos_bound; lia).
  split; [lia|]. split.
  { simpl. rewrite do_copy_out by (unfold covers; lia). by apply do_copy_out. }
  destruct (copy_run fuel late block false [c1; c2] 0 handler priv d) as (d'&Hrun&Hram&_);
    [done|done|done|simpl; lia|done|done|done|done|done|].
  exists d'. split; [done|]. rewrite Hram.
  assert (plan 0 0 (len c1) = (len c1 / 4, WORD, r)) as P1.
  { unfold plan. rewrite (proj2 (Z.leb_le _ _)) by done. subst r. simpl. f_equal.
    apply (land_mask (len c1) 2). lia. }
  assert (plan 0 r (len c2) = (len c2, BYTE, r)) as P2.
  { unfold plan. by rewrite (proj2 (Z.leb_gt _ _)) by lia. }
  cbn [tails xfers]. rewrite P1, P2, (proj2 (Z.eqb_neq r 0)) by lia. rewrite !u32_id by lia. simpl.
  change (2 ^ WORD) with 4. change (2 ^ BYTE) with 1.
  rewrite do_copy_out by (unfold covers; simpl; lia).
  rewrite do_copy_out by (unfold covers in *; simpl; zlia).
  rewrite do_copy_in by (unfold covers; simpl; lia). simpl.
  replace (src_addr c2 + len c2 - r + _) with (src_addr c2 + len c2 - r) by lia.
  apply do_copy_out. unfold covers in *. simpl. lia.
Qed.

(** ** Probing *)

Lemma probe_loop_run ptrs n i d : dma_dynamic_alloc = false →
  ∃ f, probe_loop ptrs n i d = Ret ((), set_channel f d) ∧
    ∀ c, f c = if (i <=? c) && (c <? i + Z.of_nat n)
               then Channel (dma_desc_base + c * (DMA_DESC_NUM * DESC_SIZE)) (cb (channel d c)) (priv_data (channel d c))
               else channel d c.
Proof.
  intros Hdyn. revert ptrs i d. induction n as [|n IH]; intros ptrs i d; simpl.
  { exists (channel d). split; [by destruct d|]. intros c.
    destruct (Z.leb_spec i c), (Z.ltb_spec c (i + Z.of_nat 0)); simpl; done || lia. }
  rewrite Hdyn. simpl. mstep. mstep.
  destruct (IH (tail ptrs) (i + 1) (set_channel (upd (channel d) i (Channel
    (dma_desc_base + i * (DMA_DESC_NUM * DESC_SIZE)) (cb (channel d i)) (priv_data (channel d i)))) d))
    as (f&E&Hf). exists f. split; [by rewrite E|]. intros c. rewrite Hf. simpl. unfold upd.
  destruct (Z.eqb_spec c i) as [->|Hne].
  - rewrite (proj2 (Z.leb_gt (i + 1) i)), Z.leb_refl by lia. simpl.
    by rewrite (proj2 (Z.ltb_lt i (i + Z.of_nat (S n)))) by lia.
  - replace (i + 1 <=? c) with (i <=? c) by (apply eq_true_iff_eq; rewrite !Z.leb_le; lia).
    by replace (c <? i + 1 + Z.of_nat n) with (c <? i + Z.of_nat (S n))
      by (apply eq_true_iff_eq; rewrite !Z.ltb_lt; lia).
Qed.

Lemma desc_area_lookup k : 0 ≤ k < DMAC_CH_NUM * DMA_DESC_NUM →
  is_Some (desc_area !! (dma_desc_base + k * DESC_SIZE)).
Proof.
  intros Hk. apply not_eq_None_Some. intros E%not_elem_of_list_to_map_2. apply E.
  rewrite <-list_fmap_compose.
  apply (list_elem_of_fmap_2 (λ i, dma_desc_base + i * DESC_SIZE)). apply elem_of_seqZ. lia.
Qed.

(** With static descriptor arrays, probing gives every channel its array and
    leaves all channels idle. *)
Lemma probe_ok ptrs m : dma_dynamic_alloc = false →
  ∃ d, scm2010_dma_probe ptrs true (dmac0 m) = Ret (0, d) ∧ dma_ok d ∧ ram d = m ∧ ch_status d = 0.
Proof.
  intros Hdyn. destruct OK. unfold scm2010_dma_probe. mstep.
  destruct (probe_loop_run ptrs (Z.to_nat DMAC_CH_NUM) 0 (set_aborted 0 (set_status 0 (dmac0 m))) Hdyn)
    as (f&E&Hf). eexists. split; [by erewrite bind_Ret by exact E|]. split; [|done].
  assert (∀ ch, 0 ≤ ch < DMAC_CH_NUM → ch_desc (f ch) = dma_desc_base + ch * (DMA_DESC_NUM * DESC_SIZE)) as Hd.
  { intros ch Hch. by rewrite Hf, (proj2 (Z.leb_le _ _)), (proj2 (Z.ltb_lt _ _)) by lia. }
  unfold DESC_SIZE in *. split; simpl.
  - intros ch Hch. rewrite Hd by done.
    assert ((ch + 1) * (DMA_DESC_NUM * 32) ≤ DMAC_CH_NUM * (DMA_DESC_NUM * 32))
      by (apply Z.mul_le_mono_nonneg_r; lia).
    assert (0 ≤ ch * (DMA_DESC_NUM * 32)) by (apply Z.mul_nonneg_nonneg; lia). unfold DESC_SIZE. lia.
  - intros ch k Hch Hk. rewrite Hd by done. rewrite Hdyn.
    replace (dma_desc_base + ch * (DMA_DESC_NUM * 32) + k * 32)
      with (dma_desc_base + (ch * DMA_DESC_NUM + k) * DESC_SIZE) by (unfold DESC_SIZE; lia).
    assert ((ch + 1) * DMA_DESC_NUM ≤ DMAC_CH_NUM * DMA_DESC_NUM)
      by (apply Z.mul_le_mono_nonneg_r; lia).
    assert (0 ≤ ch * DMA_DESC_NUM) by (apply Z.mul_nonneg_nonneg; lia).
    apply desc_area_lookup. lia.
Qed.

End Copy.

(** ** Witnesses *)

Module Demo.

#[local] Instance cfg : DmaConfig := {|
  DMAC_CH_NUM := 8; DMA_DESC_NUM := 4; dma_desc_base := 4096; dma_dynamic_alloc := false |}.

#[local] Instance cfg_ok : DmaConfigOk.
Proof. split; simpl; lia. Qed.

(** An engine that follows a chain as far as a descriptor array goes. *)
Fixpoint follow (n : nat) (fetch : Z → option dma_desc) (d : dma_desc) (m : memory) : memory :=
  match n with
  | O => m
  | S n =>
      if llptr_l d =? 0 then transfer m d else
      match fetch (llptr_l d) with
      | Some d' => follow n fetch d' (transfer m d)
      | None => transfer m d
      end
  end.

#[local] Instance eng : DmaEngine := {| engine := follow (Z.to_nat DMA_DESC_NUM) |}.

Lemma follow_chain n fetch d ds m :
  desc_list fetch d ds → (length ds ≤ n)%nat → follow n fetch d m = foldl transfer m ds.
Proof.
  intros Hl. revert n m. induction Hl as [d Hll|d d' ds Hll Hf Hl IH]; intros n m Hn; simpl in *.
  - destruct n; [lia|]. simpl. by rewrite (proj2 (Z.eqb_eq _ _)).
  - destruct n; [lia|]. simpl. rewrite (proj2 (Z.eqb_neq _ _)), Hf by done. apply IH. lia.
Qed.

#[local] Instance eng_laws : DmaEngineLaws eng.
Proof. split. intros. by apply follow_chain. Qed.

#[local] Instance sched : Scheduler := {| osDelay := λ d, d |}.

Definition ram0 : memory := λ a, a mod 251.

(** Three elements of 7, 8 and 5 bytes. *)
Definition chain0 : list dma_desc_chain :=
  [Chain 0x10000 0x20000 7; Chain 0x11000 0x21000 8; Chain 0x12000 0x22000 5].

Lemma chain0_separate : separate chain0.
Proof.
  split.
  - intros c c' Hc Hc' x. repeat (apply elem_of_cons in Hc as [->|Hc]); [..|by apply elem_of_nil in Hc];
      (repeat (apply elem_of_cons in Hc' as [->|Hc']); [..|by apply elem_of_nil in Hc']); simpl; lia.
  - intros i j c c' Hi Hj Hij x.
    destruct i as [|[|[|i]]], j as [|[|[|j]]]; simpl in *; simplify_eq; simpl; lia.
Qed.

Lemma dma_copy_correct_witness :
  ∃ d d', scm2010_dma_probe [] true (dmac0 ram0) = Ret (0, d) ∧
    scm2010_dma_copy 10 3 false true chain0 1 0 NULL NULL d = Ret (0, d') ∧
    ∀ a, ram d' a = foldl do_copy ram0 chain0 a.
Proof.
  destruct (probe_ok (DC:=cfg) [] ram0 eq_refl) as (d&Hp&Hok&Hram&Hst).
  destruct (dma_copy_correct 10 3 false true chain0 0 NULL NULL d) as (d'&Hrun&Hd'&_).
  - exact Hok.
  - exists 0. split; [simpl; lia|]. unfold busy. rewrite Hst. done.
  - done.
  - simpl. lia.
  - repeat constructor; simpl; lia.
  - exact chain0_separate.
  - exact (low_bits_ok chain0).
  - reflexivity.
  - lia.
  - reflexivity.
  - exists d, d'. rewrite Hram in Hd'. done.
Defined.

(** 7 bytes, then 1 byte: 2 bytes in front of the second destination change. *)
Lemma dma_copy_stale_remainder_witness :
  ∃ d d', scm2010_dma_probe [] true (dmac0 ram0) = Ret (0, d) ∧
    scm2010_dma_copy 10 3 false false [Chain 0x10000 0x20000 7; Chain 0x11000 0x21000 1] 1 0 NULL NULL d
      = Ret (0, d') ∧
    ram d' 0x20ffe = ram0 0x10ffe ∧ ram0 0x10ffe ≠ ram0 0x20ffe.
Proof.
  destruct (probe_ok (DC:=cfg) [] ram0 eq_refl) as (d&Hp&Hok&Hram&Hst).
  destruct (dma_copy_stale_remainder 10 3 false (Chain 0x10000 0x20000 7) (Chain 0x11000 0x21000 1)
    NULL NULL d 3 0x20ffe) as (_&_&d'&Hrun&Hd').
  - exact Hok.
  - exists 0. split; [simpl; lia|]. unfold busy. rewrite Hst. done.
  - simpl. lia.
  - repeat constructor; simpl; lia.
  - intros c c' Hc Hc' x. repeat (apply elem_of_cons in Hc as [->|Hc]); [..|by apply elem_of_nil in Hc];
      (repeat (apply elem_of_cons in Hc' as [->|Hc']); [..|by apply elem_of_nil in Hc']); simpl; lia.
  - lia.
  - split; [|done]. intros _. repeat constructor.
  - simpl. lia.
  - reflexivity.
  - simpl. lia.
  - simpl. lia.
  - simpl. lia.
  - reflexivity.
  - unfold covers. simpl. lia.
  - unfold covers. simpl. lia.
  - exists d, d'. rewrite Hram in Hd'. split; [done|]. split; [done|]. split; [exact Hd'|done].
Defined.

End Demo.
