(* ===== verification/Repeater.v ===== *)
(** * The Wi-Fi repeater: src/lib/repeater/wifi_repeater.c

    Received packets are routed to the local network stack (lwip), to the host
    behind SDIO or USB, or to both, by fixed rules and a table of IPv4 filters.
    src/lib/sdio/sdio-filter.c installs the default table.

    The configuration modelled has IPv4 filters only (no
    CONFIG_SUPPORT_REPEATER_IPV6: [wifi_ipv6_filter_init] does not exist in the
    sources) and no console commands.  [filter_mtx] protects single accesses and
    is not part of the state.  Functions stored in pointers are numbers; what
    is handed to them is recorded in [out]. *)

From stdpp Require Import base tactics numbers list gmap.
From S2P Require Import Prelude.

Definition OK : Z := 0.
Definition FAIL : Z := -1.

Definition CONFIG_REPEATER_IF_NUM : Z := 1.

Definition WIFI_FILTER_TO_LWIP : Z := 1.
Definition WIFI_FILTER_TO_HOST : Z := 2.
Definition WIFI_FILTER_TO_BOTH : Z := 3.
Definition WIFI_FILTER_TO_BUTT : Z := 4.

Inductive wifi_filter_type := WIFI_FILTER_TYPE_IPV4 | WIFI_FILTER_TYPE_IPV6.

Definition WIFI_FILTER_MASK_IP : Z := 0x01.
Definition WIFI_FILTER_MASK_PROTOCOL : Z := 0x02.
Definition WIFI_FILTER_MASK_LOCAL_PORT : Z := 0x04.
Definition WIFI_FILTER_MASK_LOCAL_PORT_RANGE : Z := 0x08.
Definition WIFI_FILTER_MASK_REMOTE_PORT : Z := 0x10.
Definition WIFI_FILTER_MASK_REMOTE_PORT_RANGE : Z := 0x20.

Definition ETHERTYPE_IP : Z := 0x0800.
Definition ETHERTYPE_ARP : Z := 0x0806.
Definition ETHERTYPE_IPV6 : Z := 0x86DD.
Definition ETHERTYPE_PAE : Z := 0x888e.
Definition IP_PROTO_ICMP : Z := 1.
Definition IP_PROTO_IGMP : Z := 2.
Definition IP_PROTO_TCP : Z := 6.
Definition IP_PROTO_UDP : Z := 17.
Definition ETHER_HDR_LEN : Z := 14.

(** ** State *)

(** [struct wifi_ipv4_filter], 20 bytes without padding, so that [memcmp] is
    equality of the fields. *)
Record wifi_ipv4_filter := Filter {
  remote_ip : Z;
  local_port : Z; localp_min : Z; localp_max : Z;
  remote_port : Z; remotep_min : Z; remotep_max : Z;
  packet_type : Z; config_type : Z; match_mask : Z; resv : Z;
}.

#[global] Instance filter_eq_dec : EqDecision wifi_ipv4_filter.
Proof. solve_decision. Defined.

Definition filter0 : wifi_ipv4_filter := Filter 0 0 0 0 0 0 0 0 0 0 0.

Record wifi_filter_config := Cfg {
  ifp : Z;
  host_input : Z;
  lwip_input : Z;
  default_dir : Z;
  max_ipv4_num : Z;
  ipv4_used : Z;
  ipv4_filters : option (list wifi_ipv4_filter);   (* NULL, or the array *)
}.

(** [memset(cfg, 0, ...)]. *)
Definition cfg0 : wifi_filter_config := Cfg 0 0 0 0 0 0 None.

(** What the input functions get. *)
Inductive output :=
| HostInput (func ifp : Z) (m : list Z)           (* the host takes over the mbuf *)
| LwipInput (func ifp : Z) (p : option (list Z))  (* a pbuf, or NULL *)
| FreeMbuf.                                       (* [m_topbuf] frees the mbuf *)

Record repeater := Repeater {
  host_carrier_on : bool;
  filter_cfg : wifi_filter_config;       (* the array has one element *)
  if_input : Z → Z;                      (* per interface *)
  if_etherinput : Z → Z;
  out : list output;
}.

Definition set_cfg c r := Repeater (host_carrier_on r) c (if_input r) (if_etherinput r) (out r).
Definition set_used n c := Cfg (ifp c) (host_input c) (lwip_input c) (default_dir c) (max_ipv4_num c) n (ipv4_filters c).
Definition set_filters l c := Cfg (ifp c) (host_input c) (lwip_input c) (default_dir c) (max_ipv4_num c) (ipv4_used c) l.

Definition emit (o : output) : M repeater unit :=
  modify (λ r, Repeater (host_carrier_on r) (filter_cfg r) (if_input r) (if_etherinput r) (out r ++ [o])).

(** The addresses of [ether_inputpbuf] and [repeater_input]. *)
Class RepeaterEnv := {
  IPV4_CNT : Z;                 (* CONFIG_SUPPORT_WIFI_REPEATER_IPV4_CNT *)
  ether_inputpbuf : Z;
  repeater_input_fn : Z;
}.

Section Repeater.
Context {RE : RepeaterEnv}.

(** [&repeater_ctx.filter_cfg[idx]], to read through it. *)
Definition cfg_at (idx : Z) : M repeater wifi_filter_config :=
  r ← get; if idx =? 0 then mret (filter_cfg r) else fault.

Definition put_cfg (c : wifi_filter_config) : M repeater unit := modify (set_cfg c).

(** ** The filter table *)

Definition wifi_repeater_ops_set_def_dir (idx direction : Z) : M repeater Z :=
  if idx >=? CONFIG_REPEATER_IF_NUM then mret FAIL else
  c ← cfg_at idx;
  put_cfg (Cfg (ifp c) (host_input c) (lwip_input c) direction (max_ipv4_num c) (ipv4_used c) (ipv4_filters c));;
  mret OK.

Definition is_ipv4_filter_duplicate (c : wifi_filter_config) (table : list wifi_ipv4_filter) (f : wifi_ipv4_filter) : Z :=
  if existsb (λ g, bool_decide (g = f)) (take (Z.to_nat (ipv4_used c)) table) then FAIL else OK.

Definition has (f : wifi_ipv4_filter) (mask : Z) : bool := negb (Z.land (match_mask f) mask =? 0).

Definition wifi_adddel_ipv4_filter_check_param (f : wifi_ipv4_filter) : Z :=
  if has f WIFI_FILTER_MASK_LOCAL_PORT && (local_port f =? 0) then FAIL else
  if has f WIFI_FILTER_MASK_REMOTE_PORT && (remote_port f =? 0) then FAIL else
  if has f WIFI_FILTER_MASK_LOCAL_PORT_RANGE && (localp_min f >=? localp_max f) then FAIL else
  if has f WIFI_FILTER_MASK_REMOTE_PORT_RANGE && (remotep_min f >=? remotep_max f) then FAIL else
  OK.

(** [None] is a NULL filter argument. *)
Definition wifi_add_ipv4_filter (c : wifi_filter_config) (table : list wifi_ipv4_filter) (new_filter : option wifi_ipv4_filter)
    : M repeater Z :=
  match new_filter with
  | None => mret FAIL
  | Some f =>
      if ipv4_used c >=? max_ipv4_num c then mret FAIL else
      if negb (wifi_adddel_ipv4_filter_check_param f =? OK) then mret FAIL else
      if negb (is_ipv4_filter_duplicate c table f =? 0) then mret FAIL else
      lift_opt (table !! Z.to_nat (ipv4_used c));;
      put_cfg (set_used (ipv4_used c + 1) (set_filters (Some (<[Z.to_nat (ipv4_used c) := f]> table)) c));;
      mret OK
  end.

Definition wifi_repeater_ops_add_filter (idx : Z) (new_filter : option wifi_ipv4_filter) (type : wifi_filter_type)
    : M repeater Z :=
  if idx >=? CONFIG_REPEATER_IF_NUM then mret FAIL else
  c ← cfg_at idx;
  match type, ipv4_filters c with
  | WIFI_FILTER_TYPE_IPV4, Some table => wifi_add_ipv4_filter c table new_filter
  | _, _ => mret FAIL
  end.

(** The search of [wifi_del_ipv4_filter]. *)
Fixpoint find_filter (f : wifi_ipv4_filter) (l : list wifi_ipv4_filter) (i : nat) : option nat :=
  match l with
  | [] => None
  | g :: l => if bool_decide (g = f) then Some i else find_filter f l (S i)
  end.

(** [memmove] of the entries behind [i]; the last used slot keeps its old
    contents. *)
Definition close_gap (i used : nat) (table : list wifi_ipv4_filter) : list wifi_ipv4_filter :=
  take i table ++ drop (S i) (take used table) ++ drop (used - 1) table.

Definition wifi_del_ipv4_filter (c : wifi_filter_config) (table : list wifi_ipv4_filter) (del_filter : option wifi_ipv4_filter)
    : M repeater Z :=
  match del_filter with
  | None => mret FAIL
  | Some f =>
      if negb (wifi_adddel_ipv4_filter_check_param f =? OK) then mret FAIL else
      let used := Z.to_nat (ipv4_used c) in
      match find_filter f (take used table) 0 with
      | Some i => put_cfg (set_used (ipv4_used c - 1) (set_filters (Some (close_gap i used table)) c));; mret OK
      | None => mret FAIL
      end
  end.

Definition wifi_repeater_ops_del_filter (idx : Z) (del_filter : option wifi_ipv4_filter) (type : wifi_filter_type)
    : M repeater Z :=
  if idx >=? CONFIG_REPEATER_IF_NUM then mret FAIL else
  c ← cfg_at idx;
  match type, ipv4_filters c with
  | WIFI_FILTER_TYPE_IPV4, Some table => wifi_del_ipv4_filter c table del_filter
  | _, _ => mret FAIL
  end.

(** The result with what is stored through [num] and [filter]. *)
Definition wifi_repeater_ops_query_filter (idx : Z) (type : wifi_filter_type)
    : M repeater (Z * option (Z * list wifi_ipv4_filter)) :=
  if idx >=? CONFIG_REPEATER_IF_NUM then mret (FAIL, None) else
  c ← cfg_at idx;
  match type, ipv4_filters c with
  | WIFI_FILTER_TYPE_IPV4, Some table => mret (OK, Some (ipv4_used c, table))
  | _, _ => mret (FAIL, None)
  end.

(** No check of [idx]. *)
Definition wifi_repeater_ops_free_filters (idx : Z) (type : wifi_filter_type) : M repeater Z :=
  match type with
  | WIFI_FILTER_TYPE_IPV4 =>
      c ← cfg_at idx;
      match ipv4_filters c with
      | None => mret FAIL
      | Some table =>
          put_cfg (set_used 0 (set_filters (Some (replicate (Z.to_nat (max_ipv4_num c)) filter0)) c));;
          mret OK
      end
  | WIFI_FILTER_TYPE_IPV6 => mret FAIL
  end.

Definition wifi_repeater_ops_host_carrier_getset (set on : bool) : M repeater (Z * bool) :=
  if set then
    modify (λ r, Repeater on (filter_cfg r) (if_input r) (if_etherinput r) (out r));; mret (OK, on)
  else r ← get; mret (OK, host_carrier_on r).

(** ** Attaching *)

Definition upd_if (f : Z → Z) (i v : Z) : Z → Z := λ j, if j =? i then v else f j.

(** Writing through a NULL [ifp] faults. *)
Definition repeater_if_deattach (c : wifi_filter_config) : M repeater wifi_filter_config :=
  if ifp c =? NULL then fault else
  modify (λ r, Repeater (host_carrier_on r) (filter_cfg r)
                 (upd_if (if_input r) (ifp c) (if_etherinput r (ifp c))) (if_etherinput r) (out r));;
  mret (Cfg (ifp c) NULL NULL (default_dir c) (max_ipv4_num c) (ipv4_used c) (ipv4_filters c)).

Definition repeater_if_attach (c : wifi_filter_config) (func : Z) : M repeater wifi_filter_config :=
  if ifp c =? NULL then fault else
  modify (λ r, Repeater (host_carrier_on r) (filter_cfg r)
                 (upd_if (if_input r) (ifp c) repeater_input_fn)
                 (upd_if (if_etherinput r) (ifp c) (if_input r (ifp c))) (out r));;
  mret (Cfg (ifp c) func ether_inputpbuf (default_dir c) (max_ipv4_num c) (ipv4_used c) (ipv4_filters c)).

Definition wifi_repeater_ops_deinit (idx : Z) : M repeater Z :=
  c ← cfg_at idx;
  repeater_if_deattach c;;
  put_cfg cfg0;;
  mret OK.

(** [vap_ifp]: what [wlandev] and [wlan_get_vap] find, the interface or NULL. *)
Definition repeater_set_ifp (vap_ifp : Z) (c : wifi_filter_config) : Z * wifi_filter_config :=
  let c := Cfg vap_ifp (host_input c) (lwip_input c) (default_dir c) (max_ipv4_num c) (ipv4_used c) (ipv4_filters c) in
  if ifp c =? NULL then (FAIL, c) else (OK, c).

(** [kzalloc] clears the memory it gets without a test for NULL. *)
Definition wifi_ipv4_filter_init (kmalloc_ok : bool) (c : wifi_filter_config) : M repeater (Z * wifi_filter_config) :=
  if negb kmalloc_ok then fault else
  mret (OK, Cfg (ifp c) (host_input c) (lwip_input c) (default_dir c) IPV4_CNT 0
              (Some (replicate (Z.to_nat IPV4_CNT) filter0))).

Definition wifi_repeater_ops_init (vap_ifp : Z) (kmalloc_ok : bool) (idx func : Z) : M repeater Z :=
  if idx >=? CONFIG_REPEATER_IF_NUM then mret FAIL else
  c ← cfg_at idx;
  if ipv4_filters c then mret FAIL else
  if func =? NULL then mret FAIL else
  put_cfg cfg0;;
  let '(ret, c) := repeater_set_ifp vap_ifp cfg0 in
  put_cfg c;;
  if ret <? 0 then mret FAIL else
  c ← repeater_if_attach c func;
  let c := Cfg (ifp c) (host_input c) (lwip_input c) WIFI_FILTER_TO_LWIP (max_ipv4_num c) (ipv4_used c) (ipv4_filters c) in
  put_cfg c;;
  r ← wifi_ipv4_filter_init kmalloc_ok c;
  put_cfg r.2;;
  if negb (r.1 =? 0) then mret FAIL else mret OK.

(** ** Matching *)

(** Reads of the packet: [None] is a read past its end. *)
Definition rd (m : list Z) (off : Z) : option Z := m !! Z.to_nat off.
Definition rd16 (m : list Z) (off : Z) : option Z :=
  a ← rd m off; b ← rd m (off + 1); Some (a + b * 256).
Definition rd32 (m : list Z) (off : Z) : option Z :=
  a ← rd16 m off; b ← rd16 m (off + 2); Some (a + b * 65536).

Definition swap_portnum (x : Z) : Z :=
  Z.lor (Z.shiftr (Z.land x 0xff00) 8) (Z.shiftl (Z.land x 0x00ff) 8).
Definition swap_ipaddr (x : Z) : Z :=
  Z.lor (Z.lor (Z.lor (Z.shiftr (Z.land x 0xff000000) 24) (Z.shiftr (Z.land x 0x00ff0000) 8))
    (Z.shiftl (Z.land x 0x0000ff00) 8)) (Z.shiftl (Z.land x 0x000000ff) 24).
Definition htons (x : Z) : Z := swap_portnum x.

(** The transport header: an offset into the packet. *)
Inductive l4_hdr := TcpHdr (off : Z) | UdpHdr (off : Z) | NoHdr.

Definition match_ip (f : wifi_ipv4_filter) (m : list Z) : option bool :=
  srcipaddr ← rd32 m (ETHER_HDR_LEN + 12); Some (remote_ip f =? swap_ipaddr srcipaddr).

Definition match_protocol (f : wifi_ipv4_filter) (m : list Z) : option bool :=
  proto ← rd m (ETHER_HDR_LEN + 9); Some (packet_type f =? proto).

(** The source port is at offset 0 of both headers, the destination port at 2. *)
Definition match_local_port_and_range (f : wifi_ipv4_filter) (m : list Z) (l4 : l4_hdr) : option bool :=
  match l4 with
  | UdpHdr off | TcpHdr off =>
      p ← rd16 m (off + 2);
      let port_number := swap_portnum p in
      let matched := local_port f =? port_number in
      Some (if has f WIFI_FILTER_MASK_LOCAL_PORT_RANGE && (localp_min f <=? port_number) &&
               (port_number <=? localp_max f) then true else matched)
  | NoHdr => Some false
  end.

Definition match_remote_port_and_range (f : wifi_ipv4_filter) (m : list Z) (l4 : l4_hdr) : option bool :=
  match l4 with
  | UdpHdr off | TcpHdr off =>
      p ← rd16 m off;
      let port_number := swap_portnum p in
      let matched := remote_port f =? port_number in
      Some (if has f WIFI_FILTER_MASK_REMOTE_PORT_RANGE && (remotep_min f <=? port_number) &&
               (port_number <=? remotep_max f) then true else matched)
  | NoHdr => Some false
  end.

Definition match_funcs (f : wifi_ipv4_filter) (m : list Z) (l4 : l4_hdr) : list (option bool) :=
  [match_ip f m; match_protocol f m; match_local_port_and_range f m l4; match_local_port_and_range f m l4;
   match_remote_port_and_range f m l4; match_remote_port_and_range f m l4].

(** The loop over the mask bits, from [mask_bit]. *)
Fixpoint match_mask_bits (f : wifi_ipv4_filter) (funcs : list (option bool)) (mask_bit : Z) : option bool :=
  match funcs with
  | [] => Some true
  | func :: funcs =>
      if has f (Z.shiftl 1 mask_bit) then
        r ← func; if (r : bool) then match_mask_bits f funcs (mask_bit + 1) else Some false
      else match_mask_bits f funcs (mask_bit + 1)
  end.

Fixpoint match_table (l : list wifi_ipv4_filter) (m : list Z) (l4 : l4_hdr) : option Z :=
  match l with
  | [] => Some WIFI_FILTER_TO_BUTT
  | f :: l =>
      r ← match_mask_bits f (match_funcs f m l4) 0;
      if (r : bool) then Some (config_type f) else match_table l m l4
  end.

Definition ipv4_match_filter (c : wifi_filter_config) (m : list Z) : option Z :=
  v_hl ← rd m ETHER_HDR_LEN;
  let iphdr_hlen := u8 (Z.land v_hl 0x0f * 4) in
  proto ← rd m (ETHER_HDR_LEN + 9);
  let l4 := if proto =? IP_PROTO_TCP then TcpHdr (ETHER_HDR_LEN + iphdr_hlen)
            else if proto =? IP_PROTO_UDP then UdpHdr (ETHER_HDR_LEN + iphdr_hlen) else NoHdr in
  table ← ipv4_filters c;
  match_table (take (Z.to_nat (ipv4_used c)) table) m l4.

Definition match_filter (c : wifi_filter_config) (m : list Z) : option Z :=
  if ipv4_used c >? 0 then ipv4_match_filter c m else Some WIFI_FILTER_TO_BUTT.

(** ** Routing *)

(** [pbuf_ok]: whether the pbuf pool has room for a copy. *)
Definition repeater_forward_packet (pbuf_ok : bool) (c : wifi_filter_config) (direction : Z) (m : list Z)
    : M repeater unit :=
  let p := if pbuf_ok then Some m else None in
  let direction := if direction =? WIFI_FILTER_TO_BUTT then default_dir c else direction in
  if direction =? WIFI_FILTER_TO_HOST then emit (HostInput (host_input c) (ifp c) m)
  else if direction =? WIFI_FILTER_TO_LWIP then
    emit FreeMbuf;; emit (LwipInput (lwip_input c) (ifp c) p)
  else
    emit (HostInput (host_input c) (ifp c) m);;
    if p then emit (LwipInput (lwip_input c) (ifp c) p) else mret ().

(** The direction for a packet when the host is ready, before filters are
    consulted: [Some] direction, or [None] for the filters. *)
Definition input_direction (c : wifi_filter_config) (m : list Z) : option Z :=
  ether_type ← rd16 m 12;
  if (ether_type =? htons ETHERTYPE_PAE) || (ether_type =? htons ETHERTYPE_IPV6)
  then Some WIFI_FILTER_TO_LWIP
  else if ether_type =? htons ETHERTYPE_ARP then Some WIFI_FILTER_TO_BOTH
  else if ether_type =? htons ETHERTYPE_IP then
    proto ← rd m (ETHER_HDR_LEN + 9);
    if (proto =? IP_PROTO_ICMP) || (proto =? IP_PROTO_IGMP) then Some WIFI_FILTER_TO_BOTH
    else match_filter c m
  else Some WIFI_FILTER_TO_LWIP.

Definition repeater_input (pbuf_ok : bool) (in_ifp : Z) (m : list Z) : M repeater unit :=
  r ← get;
  c ← cfg_at (if ifp (filter_cfg r) =? in_ifp then 0 else 1);
  c_assert (negb (lwip_input c =? NULL));;
  c_assert (negb (host_input c =? NULL));;
  if negb (host_carrier_on r) then repeater_forward_packet pbuf_ok c WIFI_FILTER_TO_LWIP m
  else direction ← lift_opt (input_direction c m); repeater_forward_packet pbuf_ok c direction m.

(** ** The default table: src/lib/sdio/sdio-filter.c *)

Definition filter_def_setting : list wifi_ipv4_filter :=
  let port_proto := Z.lor WIFI_FILTER_MASK_LOCAL_PORT WIFI_FILTER_MASK_PROTOCOL in
  let rport_proto := Z.lor WIFI_FILTER_MASK_REMOTE_PORT WIFI_FILTER_MASK_PROTOCOL in
  [ Filter 0 68 0 0 0 0 0 17 WIFI_FILTER_TO_LWIP port_proto 0;
    Filter 0 5201 0 0 0 0 0 6 WIFI_FILTER_TO_HOST port_proto 0;
    Filter 0 0 0 0 5201 0 0 6 WIFI_FILTER_TO_HOST rport_proto 0;
    Filter 0 5201 0 0 0 0 0 17 WIFI_FILTER_TO_HOST port_proto 0;
    Filter 0 0 0 0 5201 0 0 17 WIFI_FILTER_TO_HOST rport_proto 0;
    Filter 0 1234 0 0 0 1000 60000 6 WIFI_FILTER_TO_HOST
      (Z.lor port_proto WIFI_FILTER_MASK_REMOTE_PORT_RANGE) 0 ].

Fixpoint add_all (l : list wifi_ipv4_filter) : M repeater unit :=
  match l with
  | [] => mret ()
  | f :: l => wifi_repeater_ops_add_filter 0 (Some f) WIFI_FILTER_TYPE_IPV4;; add_all l
  end.

(** [scdc_input] is the host's input function. *)
Definition sdio_wifi_filter_init (vap_ifp : Z) (kmalloc_ok : bool) (scdc_input : Z) : M repeater Z :=
  ret ← wifi_repeater_ops_init vap_ifp kmalloc_ok 0 scdc_input;
  if negb (ret =? 0) then mret (-1) else
  wifi_repeater_ops_set_def_dir 0 WIFI_FILTER_TO_HOST;;
  add_all filter_def_setting;;
  mret 0.

End Repeater.
