(* ===== verification/RepeaterTheorems.v ===== *)
(** * The Wi-Fi repeater: theorems

    The filter table implements a bounded list without duplicates, and packets
    are routed by its rules, which are the documented ones up to a condition on
    ports that a rule does not specify. *)

From stdpp Require Import base tactics numbers list gmap.
From S2P Require Import Prelude Repeater.

#[local] Arguments swap_ipaddr : simpl never.
#[local] Arguments swap_portnum : simpl never.

(** ** Byte order *)

Lemma land_field x k : 0 ≤ k → Z.land x (255 * 2 ^ k) = (x / 2 ^ k) mod 256 * 2 ^ k.
Proof.
  intros Hk. rewrite <-!Z.shiftl_mul_pow2, <-Z.shiftr_div_pow2 by done.
  change 256 with (2 ^ 8). rewrite <-(land_mask (Z.shiftr x k) 8) by lia. apply Z.bits_inj'. intros i Hi.
  rewrite Z.land_spec, !Z.shiftl_spec, Z.land_spec by done.
  destruct (Z.lt_ge_cases i k) as [Hlt|Hge].
  - rewrite !(Z.testbit_neg_r _ (i - k)) by lia. by rewrite andb_false_r.
  - rewrite Z.shiftr_spec by lia. by replace (i - k + k) with i by lia.
Qed.

Definition byte (x : Z) : Prop := 0 ≤ x < 256.

Lemma lor_low_high y x k : 0 ≤ k → 0 ≤ y < 2 ^ k → Z.lor y (x * 2 ^ k) = y + x * 2 ^ k.
Proof.
  intros Hk Hy. rewrite Z.add_comm, <-lor_shiftl_add, Z.shiftl_mul_pow2 by done. apply Z.lor_comm.
Qed.

Lemma swap_portnum_bytes a b : byte a → byte b → swap_portnum (a + b * 256) = a * 256 + b.
Proof.
  unfold byte, swap_portnum. intros Ha Hb.
  change 0xff00 with (255 * 2 ^ 8). change 0x00ff with (255 * 2 ^ 0). rewrite !land_field by done.
  rewrite Z.shiftr_div_pow2, Z.shiftl_mul_pow2, Z.div_mul by done.
  change (2 ^ 0) with 1. rewrite Z.div_1_r, Z.mul_1_r.
  change (2 ^ 8) with 256. replace ((a + b * 256) / 256 mod 256) with b by zlia.
  replace ((a + b * 256) mod 256) with a by zlia.
  change (a * 256) with (a * 2 ^ 8). rewrite (lor_low_high b a 8) by (simpl; lia). lia.
Qed.

Lemma swap_ipaddr_bytes a b c d : byte a → byte b → byte c → byte d →
  swap_ipaddr (a + b * 256 + (c + d * 256) * 65536) = (a * 256 + b) * 65536 + (c * 256 + d).
Proof.
  unfold byte, swap_ipaddr. intros Ha Hb Hc Hd.
  change 0xff000000 with (255 * 2 ^ 24). change 0x00ff0000 with (255 * 2 ^ 16).
  change 0x0000ff00 with (255 * 2 ^ 8). change 0x000000ff with (255 * 2 ^ 0). rewrite !land_field by done.
  rewrite !Z.shiftr_div_pow2, !Z.shiftl_mul_pow2 by done.
  change (2 ^ 24) with 16777216. change (2 ^ 16) with 65536. change (2 ^ 8) with 256. change (2 ^ 0) with 1.
  set (x := a + b * 256 + (c + d * 256) * 65536).
  replace (x / 16777216 mod 256 * 16777216 / 16777216) with d by (unfold x; zlia).
  replace (x / 65536 mod 256 * 65536 / 256) with (c * 2 ^ 8) by (unfold x; zlia).
  replace (x / 256 mod 256 * 256 * 256) with (b * 2 ^ 16) by (unfold x; zlia).
  replace (x / 1 mod 256 * 1 * 16777216) with (a * 2 ^ 24) by (unfold x; zlia).
  rewrite (lor_low_high d c 8) by (simpl; lia). rewrite (lor_low_high _ b 16) by (simpl; lia).
  rewrite (lor_low_high _ a 24) by (simpl; lia). lia.
Qed.

(** ** The table as a list *)

Section Theorems.
Context {RE : RepeaterEnv}.

Definition valid (f : wifi_ipv4_filter) : bool := wifi_adddel_ipv4_filter_check_param f =? OK.

(** What a client can do. *)
Inductive op :=
| OpAdd (f : wifi_ipv4_filter) | OpDel (f : wifi_ipv4_filter) | OpFree | OpQuery | OpDir (direction : Z).

Inductive result := Code (z : Z) | Filters (l : list wifi_ipv4_filter).

Definition coded (c : M repeater Z) : M repeater result := z ← c; mret (Code z).

Definition run_op (o : op) : M repeater result :=
  match o with
  | OpAdd f => coded (wifi_repeater_ops_add_filter 0 (Some f) WIFI_FILTER_TYPE_IPV4)
  | OpDel f => coded (wifi_repeater_ops_del_filter 0 (Some f) WIFI_FILTER_TYPE_IPV4)
  | OpFree => coded (wifi_repeater_ops_free_filters 0 WIFI_FILTER_TYPE_IPV4)
  | OpQuery =>
      r ← wifi_repeater_ops_query_filter 0 WIFI_FILTER_TYPE_IPV4;
      match r with
      | (_, Some (num, table)) => mret (Filters (take (Z.to_nat num) table))
      | (code, None) => mret (Code code)
      end
  | OpDir d => coded (wifi_repeater_ops_set_def_dir 0 d)
  end.

Fixpoint run_ops (l : list op) : M repeater (list result) :=
  match l with
  | [] => mret []
  | o :: l => r ← run_op o; rs ← run_ops l; mret (r :: rs)
  end.

(** The specification: a list, at most [IPV4_CNT] long, and the default
    direction. *)
Definition spec := (list wifi_ipv4_filter * Z)%type.

Definition spec_op (o : op) (s : spec) : result * spec :=
  let '(l, dir) := s in
  match o with
  | OpAdd f =>
      if (Z.of_nat (length l) <? IPV4_CNT) && valid f && negb (bool_decide (f ∈ l))
      then (Code OK, (l ++ [f], dir)) else (Code FAIL, s)
  | OpDel f =>
      if valid f && bool_decide (f ∈ l) then (Code OK, (filter (λ g, g ≠ f) l, dir)) else (Code FAIL, s)
  | OpFree => (Code OK, ([], dir))
  | OpQuery => (Filters l, s)
  | OpDir d => (Code OK, (l, d))
  end.

Fixpoint spec_ops (os : list op) (s : spec) : list result * spec :=
  match os with
  | [] => ([], s)
  | o :: os => let '(r, s) := spec_op o s in let '(rs, s) := spec_ops os s in (r :: rs, s)
  end.

(** The table in use holds the list. *)
Record table_rep (r : repeater) (table : list wifi_ipv4_filter) (s : spec) : Prop := {
  tr_table : ipv4_filters (filter_cfg r) = Some table;
  tr_size : Z.of_nat (length table) = IPV4_CNT;
  tr_max : max_ipv4_num (filter_cfg r) = IPV4_CNT;
  tr_used : 0 ≤ ipv4_used (filter_cfg r) ≤ IPV4_CNT;
  tr_list : take (Z.to_nat (ipv4_used (filter_cfg r))) table = s.1;
  tr_dir : default_dir (filter_cfg r) = s.2;
  tr_nodup : NoDup s.1;
}.

(** What the table operations leave alone. *)
Definition same_wiring (r r' : repeater) : Prop :=
  host_carrier_on r' = host_carrier_on r ∧ if_input r' = if_input r ∧ if_etherinput r' = if_etherinput r ∧
  out r' = out r ∧ ifp (filter_cfg r') = ifp (filter_cfg r) ∧
  host_input (filter_cfg r') = host_input (filter_cfg r) ∧ lwip_input (filter_cfg r') = lwip_input (filter_cfg r).

Lemma existsb_elem f (l : list wifi_ipv4_filter) : existsb (λ g, bool_decide (g = f)) l = bool_decide (f ∈ l).
Proof.
  induction l as [|g l IH]; [by rewrite bool_decide_false by apply not_elem_of_nil|].
  simpl. rewrite IH. apply eq_true_iff_eq. rewrite orb_true_iff, !bool_decide_eq_true, elem_of_cons.
  naive_solver.
Qed.

Lemma find_filter_spec f l i :
  NoDup l → match find_filter f l i with
  | Some j => ∃ k, j = (i + k)%nat ∧ (k < length l)%nat ∧ delete k l = filter (λ g, g ≠ f) l ∧ f ∈ l
  | None => f ∉ l
  end.
Proof.
  revert i. induction l as [|g l IH]; intros i; simpl; [intros _; apply not_elem_of_nil|].
  intros [Hg Hnd]%NoDup_cons. case_bool_decide as E.
  - subst g. exists 0%nat. split; [lia|]. split; [lia|]. split; [|by left]. simpl.
    rewrite filter_cons_False by tauto. symmetry. apply filter_all. intros g Hg' ->. done.
  - specialize (IH (S i) Hnd). destruct (find_filter f l (S i)) as [j|].
    + destruct IH as (k&->&Hk&Hdel&Hf). exists (S k). split; [lia|]. split; [lia|]. split; [|by right].
      simpl. rewrite filter_cons_True by done. by f_equal.
    + rewrite not_elem_of_cons. auto.
Qed.

Lemma take_close_gap i u t : (i < u ≤ length t)%nat →
  take (u - 1) (close_gap i u t) = delete i (take u t) ∧ length (close_gap i u t) = length t.
Proof.
  intros Hi. unfold close_gap. rewrite delete_take_drop, take_take, Nat.min_l by lia.
  rewrite app_assoc. split.
  - rewrite take_app_le.
    + apply take_ge. rewrite length_app, length_take, length_drop, length_take. lia.
    + rewrite length_app, length_take, length_drop, length_take. lia.
  - rewrite !length_app, length_take, !length_drop, length_take. lia.
Qed.

Lemma take_insert_end u t (f : wifi_ipv4_filter) : (u < length t)%nat → take (S u) (<[u := f]> t) = take u t ++ [f].
Proof.
  intros Hu. rewrite (take_S_r _ _ f) by (by apply list_lookup_insert_eq). f_equal.
  rewrite take_insert. case_decide; [lia|done].
Qed.

Lemma table_rep_length r t s : table_rep r t s →
  ipv4_used (filter_cfg r) = Z.of_nat (length s.1).
Proof. intros [? ? ? ? <- ? ?]. rewrite length_take. lia. Qed.

Lemma run_add f r t s : table_rep r t s →
  ∃ r' t', run_op (OpAdd f) r = Ret ((spec_op (OpAdd f) s).1, r') ∧
    table_rep r' t' (spec_op (OpAdd f) s).2 ∧ same_wiring r r'.
Proof.
  intros Hrep. pose proof (table_rep_length r t s Hrep) as Hlen. destruct s as [l dir].
  destruct Hrep as [Ht Hsz Hmax Hused Hl Hdir Hnd]. simpl in *.
  unfold coded, wifi_repeater_ops_add_filter, cfg_at. simpl.
  unfold mbind, M_bind. simpl. rewrite Ht. unfold wifi_add_ipv4_filter.
  rewrite Hmax, Z.geb_leb. destruct (Z.ltb_spec (Z.of_nat (length l)) IPV4_CNT) as [Hlt|Hge].
  2: { rewrite (proj2 (Z.leb_le _ _)) by lia. exists r, t. done. }
  rewrite (proj2 (Z.leb_gt _ _)) by lia. fold (valid f). destruct (valid f); simpl; [|by exists r, t].
  unfold is_ipv4_filter_duplicate. rewrite Hl, existsb_elem.
  case_bool_decide as Hf; simpl; [by exists r, t|].
  assert (Z.to_nat (ipv4_used (filter_cfg r)) < length t)%nat as Hu by lia.
  destruct (lookup_lt_is_Some_2 t _ Hu) as [old Hold].
  unfold mbind, M_bind, lift_opt. rewrite Hold. simpl.
  eexists _, (<[Z.to_nat (ipv4_used (filter_cfg r)):=f]> t). split; [reflexivity|]. split; [|done].
  split; simpl; try done.
  - by rewrite length_insert.
  - lia.
  - rewrite Z2Nat.inj_add, Nat.add_1_r by lia. rewrite take_insert_end by done. by rewrite Hl.
  - apply NoDup_app. split_and!; [done| |apply NoDup_singleton].
    intros x Hx ->%list_elem_of_singleton. done.
Qed.

Lemma run_del f r t s : table_rep r t s →
  ∃ r' t', run_op (OpDel f) r = Ret ((spec_op (OpDel f) s).1, r') ∧
    table_rep r' t' (spec_op (OpDel f) s).2 ∧ same_wiring r r'.
Proof.
  intros Hrep. pose proof (table_rep_length r t s Hrep) as Hlen. destruct s as [l dir].
  destruct Hrep as [Ht Hsz Hmax Hused Hl Hdir Hnd]. simpl in *.
  unfold coded, wifi_repeater_ops_del_filter, cfg_at. simpl.
  unfold mbind, M_bind. simpl. rewrite Ht. unfold wifi_del_ipv4_filter.
  fold (valid f). destruct (valid f); simpl; [|by exists r, t].
  rewrite Hl. pose proof (find_filter_spec f l 0 Hnd) as Hfind.
  destruct (find_filter f l 0) as [j|]; [|rewrite bool_decide_false by done; by exists r, t].
  destruct Hfind as (k&->&Hk&Hdel&Hf). rewrite bool_decide_true by done. simpl.
  destruct (take_close_gap k (Z.to_nat (ipv4_used (filter_cfg r))) t) as [Hgap Hglen]; [lia|].
  eexists _, (close_gap k (Z.to_nat (ipv4_used (filter_cfg r))) t).
  split; [reflexivity|]. split; [|done]. split; simpl; try done.
  - by rewrite Hglen.
  - lia.
  - rewrite Z2Nat.inj_sub by lia. change (Z.to_nat 1) with 1%nat. by rewrite Hgap, Hl, Hdel.
  - by apply NoDup_filter.
Qed.

Lemma run_op_refines o r t s : table_rep r t s →
  ∃ r' t', run_op o r = Ret ((spec_op o s).1, r') ∧ table_rep r' t' (spec_op o s).2 ∧ same_wiring r r'.
Proof.
  destruct o; [apply run_add|apply run_del|..]; intros Hrep; destruct s as [l dir]; simpl in *;
    destruct Hrep as [Ht Hsz Hmax Hused Hl Hdir Hnd]; unfold coded.
  - unfold wifi_repeater_ops_free_filters, cfg_at, mbind, M_bind. simpl. rewrite Ht. simpl.
    eexists _, _. split; [reflexivity|]. split; [|done]. split; simpl; try done.
    + rewrite length_replicate, Hmax. lia.
    + lia.
    + apply NoDup_nil_2.
  - unfold wifi_repeater_ops_query_filter, cfg_at, mbind, M_bind. simpl. rewrite Ht. simpl.
    exists r, t. simpl in Hl. by rewrite Hl.
  - unfold wifi_repeater_ops_set_def_dir, cfg_at, mbind, M_bind. simpl.
    eexists _, t. split; [reflexivity|]. split; [|done]. by split.
Qed.

Lemma same_wiring_trans r1 r2 r3 : same_wiring r1 r2 → same_wiring r2 r3 → same_wiring r1 r3.
Proof. unfold same_wiring. intros (?&?&?&?&?&?&?) (?&?&?&?&?&?&?). split_and!; congruence. Qed.

Lemma run_ops_refines os r t s : table_rep r t s →
  ∃ r' t', run_ops os r = Ret ((spec_ops os s).1, r') ∧ table_rep r' t' (spec_ops os s).2 ∧ same_wiring r r'.
Proof.
  revert r t s. induction os as [|o os IH]; intros r t s Hrep; simpl.
  { exists r, t. done. }
  destruct (run_op_refines o r t s Hrep) as (r1&t1&Hrun&Hrep1&Hw1).
  destruct (spec_op o s) as [res s1] eqn:Eo. simpl in *.
  destruct (IH r1 t1 s1 Hrep1) as (r2&t2&Hrun2&Hrep2&Hw2).
  destruct (spec_ops os s1) as [rs s2]. simpl in *.
  exists r2, t2. erewrite bind_Ret by exact Hrun. erewrite bind_Ret by exact Hrun2.
  split; [done|]. split; [done|]. by eapply same_wiring_trans.
Qed.

Lemma init_rep vap func r : ipv4_filters (filter_cfg r) = None → vap ≠ NULL → func ≠ NULL → 0 ≤ IPV4_CNT →
  ∃ r' t, wifi_repeater_ops_init vap true 0 func r = Ret (OK, r') ∧ table_rep r' t ([], WIFI_FILTER_TO_LWIP) ∧
    ifp (filter_cfg r') = vap ∧ host_input (filter_cfg r') = func ∧
    lwip_input (filter_cfg r') = ether_inputpbuf ∧ if_input r' vap = repeater_input_fn ∧
    if_etherinput r' vap = if_input r vap ∧ host_carrier_on r' = host_carrier_on r ∧ out r' = out r.
Proof.
  intros Hnone Hvap Hfunc Hcnt. unfold wifi_repeater_ops_init, cfg_at. simpl. unfold mbind, M_bind. simpl.
  rewrite Hnone, (proj2 (Z.eqb_neq func 0)) by done. simpl. unfold repeater_set_ifp. simpl.
  rewrite (proj2 (Z.eqb_neq vap 0)) by done. simpl. unfold repeater_if_attach. simpl.
  rewrite (proj2 (Z.eqb_neq vap 0)) by done. simpl.
  eexists _, _. split; [reflexivity|]. simpl. unfold upd_if. rewrite Z.eqb_refl. split; [|done].
  split; simpl; try done.
  - rewrite length_replicate. lia.
  - apply NoDup_nil_2.
Qed.

(** C28: the filter table of an initialised repeater is a bounded list without
    duplicates.  Any sequence of additions, deletions, resets, queries and
    changes of the default direction returns, operation by operation, what the
    list specification returns, and never goes outside the array; attaching
    redirects the interface to the repeater and remembers its own input
    function. *)
Theorem repeater_table_refines os vap func r :
  ipv4_filters (filter_cfg r) = None → vap ≠ NULL → func ≠ NULL → 0 ≤ IPV4_CNT →
  ∃ r1 r2 t, wifi_repeater_ops_init vap true 0 func r = Ret (OK, r1) ∧
    if_input r1 vap = repeater_input_fn ∧ if_etherinput r1 vap = if_input r vap ∧
    run_ops os r1 = Ret ((spec_ops os ([], WIFI_FILTER_TO_LWIP)).1, r2) ∧
    table_rep r2 t (spec_ops os ([], WIFI_FILTER_TO_LWIP)).2 ∧ same_wiring r1 r2.
Proof.
  intros Hnone Hvap Hfunc Hcnt.
  destruct (init_rep vap func r) as (r1&t1&Hinit&Hrep&_&_&_&?&?&_); [done..|].
  destruct (run_ops_refines os r1 t1 _ Hrep) as (r2&t2&?&?&?). by exists r1, r2, t2.
Qed.

(** ** Documented matching *)

(** The fields of an IPv4 packet that filters look at, in network byte order. *)
Record view := View { v_src : Z; v_proto : Z; v_ports : option (Z * Z) }.

Definition be16 (m : list Z) (off : Z) : option Z :=
  a ← rd m off; b ← rd m (off + 1); Some (a * 256 + b).
Definition be32 (m : list Z) (off : Z) : option Z :=
  a ← be16 m off; b ← be16 m (off + 2); Some (a * 65536 + b).

Definition has_ports (proto : Z) : bool := (proto =? IP_PROTO_TCP) || (proto =? IP_PROTO_UDP).

Definition l4_offset (v_hl : Z) : Z := ETHER_HDR_LEN + u8 (Z.land v_hl 0x0f * 4).

Definition parse (m : list Z) : option view :=
  v_hl ← rd m ETHER_HDR_LEN;
  proto ← rd m (ETHER_HDR_LEN + 9);
  src ← be32 m (ETHER_HDR_LEN + 12);
  if has_ports proto then
    sport ← be16 m (l4_offset v_hl);
    dport ← be16 m (l4_offset v_hl + 2);
    Some (View src proto (Some (sport, dport)))
  else Some (View src proto None).

(** A condition on a port: a number and a range, each if specified, and one of
    them is enough. *)
Definition port_ok (by_port : bool) (port : Z) (by_range : bool) (lo hi : Z) (p : option Z) : bool :=
  if negb by_port && negb by_range then true else
  match p with
  | None => false
  | Some p => (by_port && (port =? p)) || (by_range && (lo <=? p) && (p <=? hi))
  end.

(** The header's description of a rule: conditions that are not specified in
    the mask do not count, all others must hold. *)
Definition doc_match (f : wifi_ipv4_filter) (v : view) : bool :=
  (negb (has f WIFI_FILTER_MASK_IP) || (remote_ip f =? v_src v)) &&
  (negb (has f WIFI_FILTER_MASK_PROTOCOL) || (packet_type f =? v_proto v)) &&
  port_ok (has f WIFI_FILTER_MASK_LOCAL_PORT) (local_port f)
    (has f WIFI_FILTER_MASK_LOCAL_PORT_RANGE) (localp_min f) (localp_max f) (snd <$> v_ports v) &&
  port_ok (has f WIFI_FILTER_MASK_REMOTE_PORT) (remote_port f)
    (has f WIFI_FILTER_MASK_REMOTE_PORT_RANGE) (remotep_min f) (remotep_max f) (fst <$> v_ports v).

(** The rule as it is applied: when a number or a range is specified, the number
    counts in either case. *)
Definition port_applied (by_port : bool) (port : Z) (by_range : bool) (lo hi : Z) (p : option Z) : bool :=
  if negb by_port && negb by_range then true else
  match p with
  | None => false
  | Some p => (port =? p) || (by_range && (lo <=? p) && (p <=? hi))
  end.

Definition rule_match (f : wifi_ipv4_filter) (v : view) : bool :=
  (negb (has f WIFI_FILTER_MASK_IP) || (remote_ip f =? v_src v)) &&
  (negb (has f WIFI_FILTER_MASK_PROTOCOL) || (packet_type f =? v_proto v)) &&
  port_applied (has f WIFI_FILTER_MASK_LOCAL_PORT) (local_port f)
    (has f WIFI_FILTER_MASK_LOCAL_PORT_RANGE) (localp_min f) (localp_max f) (snd <$> v_ports v) &&
  port_applied (has f WIFI_FILTER_MASK_REMOTE_PORT) (remote_port f)
    (has f WIFI_FILTER_MASK_REMOTE_PORT_RANGE) (remotep_min f) (remotep_max f) (fst <$> v_ports v).

(** The first rule that matches decides. *)
Fixpoint first_rule (matches : wifi_ipv4_filter → view → bool) (l : list wifi_ipv4_filter) (v : view) : Z :=
  match l with
  | [] => WIFI_FILTER_TO_BUTT
  | f :: l => if matches f v then config_type f else first_rule matches l v
  end.

(** A filter that leaves the ports it does not specify at 0. *)
Definition canonical (f : wifi_ipv4_filter) : Prop :=
  (has f WIFI_FILTER_MASK_LOCAL_PORT = false → local_port f = 0) ∧
  (has f WIFI_FILTER_MASK_REMOTE_PORT = false → remote_port f = 0).

Definition ports_used (v : view) : Prop := ∀ s d, v_ports v = Some (s, d) → s ≠ 0 ∧ d ≠ 0.

Lemma rd16_be16 m off p : Forall byte m → be16 m off = Some p → ∃ q, rd16 m off = Some q ∧ swap_portnum q = p.
Proof.
  unfold be16, rd16. intros Hb. destruct (rd m off) as [a|] eqn:Ea; [|done].
  destruct (rd m (off + 1)) as [b|] eqn:Eb; [|done]. simpl. intros [= <-]. eexists. split; [reflexivity|].
  apply swap_portnum_bytes; eapply (proj1 (Forall_lookup byte m)); eauto.
Qed.

Lemma rd32_be32 m off p : Forall byte m → be32 m off = Some p → ∃ q, rd32 m off = Some q ∧ swap_ipaddr q = p.
Proof.
  unfold be32, rd32, be16, rd16. intros Hb. pose proof (proj1 (Forall_lookup byte m) Hb) as Hl.
  destruct (rd m off) as [a|] eqn:Ea; [|done]. destruct (rd m (off + 1)) as [b|] eqn:Eb; [|done].
  destruct (rd m (off + 2)) as [c|] eqn:Ec; [|done]. destruct (rd m (off + 2 + 1)) as [d|] eqn:Ed; [|done].
  simpl. intros [= <-]. eexists. split; [reflexivity|]. apply swap_ipaddr_bytes; eauto.
Qed.

Definition l4_of (v_hl proto : Z) : l4_hdr :=
  if proto =? IP_PROTO_TCP then TcpHdr (l4_offset v_hl)
  else if proto =? IP_PROTO_UDP then UdpHdr (l4_offset v_hl) else NoHdr.

Lemma if_true_orb (a b : bool) : (if a then true else b) = b || a.
Proof. by destruct a, b. Qed.

(** What the match functions read from a packet with a view. *)
Lemma match_funcs_view f m v v_hl : Forall byte m → parse m = Some v → rd m ETHER_HDR_LEN = Some v_hl →
  let l4 := l4_of v_hl (v_proto v) in
  match_ip f m = Some (remote_ip f =? v_src v) ∧ match_protocol f m = Some (packet_type f =? v_proto v) ∧
  match_local_port_and_range f m l4 = Some (match v_ports v with
    | Some (_, d) => (local_port f =? d) ||
        (has f WIFI_FILTER_MASK_LOCAL_PORT_RANGE && (localp_min f <=? d) && (d <=? localp_max f))
    | None => false end) ∧
  match_remote_port_and_range f m l4 = Some (match v_ports v with
    | Some (s, _) => (remote_port f =? s) ||
        (has f WIFI_FILTER_MASK_REMOTE_PORT_RANGE && (remotep_min f <=? s) && (s <=? remotep_max f))
    | None => false end).
Proof.
  intros Hb Hp Hv. unfold parse in Hp. rewrite Hv, obind_Some in Hp.
  destruct (rd m (ETHER_HDR_LEN + 9)) as [proto|] eqn:Eproto; [|done]. rewrite obind_Some in Hp.
  destruct (be32 m (ETHER_HDR_LEN + 12)) as [src|] eqn:Esrc; [|done]. rewrite obind_Some in Hp.
  destruct (rd32_be32 _ _ _ Hb Esrc) as (q&Eq&Hq).
  assert (match_ip f m = Some (remote_ip f =? src)) as Hip.
  { unfold match_ip. by rewrite Eq, obind_Some, Hq. }
  assert (match_protocol f m = Some (packet_type f =? proto)) as Hproto.
  { unfold match_protocol. by rewrite Eproto. }
  unfold has_ports, l4_of in *.
  destruct (proto =? IP_PROTO_TCP) eqn:Etcp, (proto =? IP_PROTO_UDP) eqn:Eudp; simpl in Hp.
  4: { injection Hp as <-. simpl. rewrite Etcp, Eudp. split_and!; done. }
  all: destruct (be16 m (l4_offset v_hl)) as [sp|] eqn:Esp; [|done]; rewrite obind_Some in Hp;
    destruct (be16 m (l4_offset v_hl + 2)) as [dp|] eqn:Edp; [|done]; rewrite obind_Some in Hp; injection Hp as <-; simpl;
    rewrite ?Etcp, ?Eudp;
    destruct (rd16_be16 _ _ _ Hb Esp) as (q1&E1&H1); destruct (rd16_be16 _ _ _ Hb Edp) as (q2&E2&H2);
    unfold match_local_port_and_range, match_remote_port_and_range; rewrite E1, E2, !obind_Some, H1, H2;
    (split_and!; [done|done| |]);
    by rewrite if_true_orb.
Qed.

(** The two conditions agree if a port that is not specified is 0 and the
    packet's is not. *)
Lemma port_agrees by_port port by_range lo hi op :
  (by_port = false → port = 0) → (∀ p, op = Some p → p ≠ 0) →
  port_applied by_port port by_range lo hi op = port_ok by_port port by_range lo hi op.
Proof.
  intros Hport Hp. unfold port_ok, port_applied. destruct by_port, by_range, op as [p|]; simpl in *; try done.
  rewrite Hport by done. specialize (Hp p eq_refl). by rewrite (proj2 (Z.eqb_neq _ _)) by congruence.
Qed.

(** The loop over the mask, with its tests as booleans. *)
Lemma mask_loop f b_ip b_proto b_local b_remote ok_local ok_remote :
  (if has f WIFI_FILTER_MASK_LOCAL_PORT || has f WIFI_FILTER_MASK_LOCAL_PORT_RANGE
   then b_local = ok_local else ok_local = true) →
  (if has f WIFI_FILTER_MASK_REMOTE_PORT || has f WIFI_FILTER_MASK_REMOTE_PORT_RANGE
   then b_remote = ok_remote else ok_remote = true) →
  match_mask_bits f [Some b_ip; Some b_proto; Some b_local; Some b_local; Some b_remote; Some b_remote] 0 =
  Some ((negb (has f WIFI_FILTER_MASK_IP) || b_ip) && (negb (has f WIFI_FILTER_MASK_PROTOCOL) || b_proto)
        && ok_local && ok_remote).
Proof.
  cbn [match_mask_bits].
  change (Z.shiftl 1 0) with WIFI_FILTER_MASK_IP. change (Z.shiftl 1 (0 + 1)) with WIFI_FILTER_MASK_PROTOCOL.
  change (Z.shiftl 1 (0 + 1 + 1)) with WIFI_FILTER_MASK_LOCAL_PORT.
  change (Z.shiftl 1 (0 + 1 + 1 + 1)) with WIFI_FILTER_MASK_LOCAL_PORT_RANGE.
  change (Z.shiftl 1 (0 + 1 + 1 + 1 + 1)) with WIFI_FILTER_MASK_REMOTE_PORT.
  change (Z.shiftl 1 (0 + 1 + 1 + 1 + 1 + 1)) with WIFI_FILTER_MASK_REMOTE_PORT_RANGE.
  destruct (has f WIFI_FILTER_MASK_IP), (has f WIFI_FILTER_MASK_PROTOCOL),
    (has f WIFI_FILTER_MASK_LOCAL_PORT), (has f WIFI_FILTER_MASK_LOCAL_PORT_RANGE),
    (has f WIFI_FILTER_MASK_REMOTE_PORT), (has f WIFI_FILTER_MASK_REMOTE_PORT_RANGE);
    simpl; intros Hl Hr; rewrite ?obind_Some; subst;
    destruct b_ip, b_proto; try reflexivity; repeat case_match; simplify_eq; reflexivity.
Qed.

Lemma match_mask_rule f m v v_hl : Forall byte m → parse m = Some v → rd m ETHER_HDR_LEN = Some v_hl →
  match_mask_bits f (match_funcs f m (l4_of v_hl (v_proto v))) 0 = Some (rule_match f v).
Proof.
  intros Hb Hp Hv. destruct (match_funcs_view f m v v_hl Hb Hp Hv) as (Hip&Hproto&Hlocal&Hremote).
  unfold match_funcs. rewrite Hip, Hproto, Hlocal, Hremote. unfold rule_match, port_applied.
  apply mask_loop.
  - destruct (has f WIFI_FILTER_MASK_LOCAL_PORT), (has f WIFI_FILTER_MASK_LOCAL_PORT_RANGE), (v_ports v) as [[??]|]; done.
  - destruct (has f WIFI_FILTER_MASK_REMOTE_PORT), (has f WIFI_FILTER_MASK_REMOTE_PORT_RANGE), (v_ports v) as [[??]|]; done.
Qed.

Lemma match_table_rule l m v v_hl : Forall byte m → parse m = Some v → rd m ETHER_HDR_LEN = Some v_hl →
  match_table l m (l4_of v_hl (v_proto v)) = Some (first_rule rule_match l v).
Proof.
  intros Hb Hp Hv. induction l as [|f l IH]; [done|]. cbn [match_table first_rule].
  rewrite (match_mask_rule f m v v_hl), obind_Some by done. by destruct (rule_match f v).
Qed.

(** Where the documented rule and the rule that is applied agree. *)
Lemma rule_doc f v : canonical f → ports_used v → rule_match f v = doc_match f v.
Proof.
  intros [Hcl Hcr] Hports. unfold rule_match, doc_match. f_equal; [f_equal|]; apply port_agrees; try done;
    intros p ([s d]&E1&->)%fmap_Some; by apply (Hports s d).
Qed.

Lemma first_rule_doc l v : Forall canonical l → ports_used v → first_rule rule_match l v = first_rule doc_match l v.
Proof. intros Hc Hp. induction Hc as [|f l Hf _ IH]; [done|]. cbn [first_rule]. by rewrite rule_doc, IH. Qed.

(** ** Routing *)

(** The routing of a packet of type [ether_type]: 802.1X and IPv6 go to lwip, ARP,
    ICMP and IGMP to both sides, other IPv4 packets where the first matching
    filter says or else in the default direction, all else to lwip. *)
Definition routed (matches : wifi_ipv4_filter → view → bool) (s : spec) (ether_type : Z) (v : view) : Z :=
  if (ether_type =? ETHERTYPE_PAE) || (ether_type =? ETHERTYPE_IPV6) then WIFI_FILTER_TO_LWIP
  else if ether_type =? ETHERTYPE_ARP then WIFI_FILTER_TO_BOTH
  else if ether_type =? ETHERTYPE_IP then
    if (v_proto v =? IP_PROTO_ICMP) || (v_proto v =? IP_PROTO_IGMP) then WIFI_FILTER_TO_BOTH
    else let d := first_rule matches s.1 v in if d =? WIFI_FILTER_TO_BUTT then s.2 else d
  else WIFI_FILTER_TO_LWIP.

(** What is handed out for a direction; the copy for lwip may fail. *)
Definition deliveries (pbuf_ok : bool) (c : wifi_filter_config) (direction : Z) (m : list Z) : list output :=
  let lwip := LwipInput (lwip_input c) (ifp c) (if pbuf_ok then Some m else None) in
  let host := HostInput (host_input c) (ifp c) m in
  if direction =? WIFI_FILTER_TO_HOST then [host]
  else if direction =? WIFI_FILTER_TO_LWIP then [FreeMbuf; lwip]
  else if pbuf_ok then [host; lwip] else [host].

Definition takes_mbuf (o : output) : bool :=
  match o with HostInput _ _ _ | FreeMbuf => true | LwipInput _ _ _ => false end.

Definition sent (l : list output) (r : repeater) : repeater :=
  Repeater (host_carrier_on r) (filter_cfg r) (if_input r) (if_etherinput r) (out r ++ l).

Lemma forward_run pbuf_ok c direction m r :
  repeater_forward_packet pbuf_ok c direction m r =
    Ret ((), sent (deliveries pbuf_ok c (if direction =? WIFI_FILTER_TO_BUTT then default_dir c else direction) m) r).
Proof.
  unfold repeater_forward_packet, deliveries, emit, sent. set (d := if direction =? WIFI_FILTER_TO_BUTT then default_dir c else direction).
  destruct (d =? WIFI_FILTER_TO_HOST); [done|]. destruct (d =? WIFI_FILTER_TO_LWIP), pbuf_ok;
    unfold mbind, M_bind, modify, mret, M_ret; simpl; by rewrite <-?app_assoc.
Qed.

Lemma deliveries_take_mbuf pbuf_ok c direction m :
  length (filter (λ o, takes_mbuf o = true) (deliveries pbuf_ok c direction m)) = 1%nat.
Proof.
  unfold deliveries. destruct (_ =? _); [done|]. destruct (_ =? _); [done|]. by destruct pbuf_ok.
Qed.

Lemma ether_type_be m et : Forall byte m → be16 m 12 = Some et →
  ∃ q, rd16 m 12 = Some q ∧ ∀ x, 0 ≤ x < 65536 → (q =? htons x) = (et =? x).
Proof.
  intros Hb. unfold be16, rd16. pose proof (proj1 (Forall_lookup byte m) Hb) as Hl.
  destruct (rd m 12) as [a|] eqn:Ea; [|done]. destruct (rd m (12 + 1)) as [b|] eqn:Eb; [|done].
  rewrite !obind_Some. intros [= <-]. eexists. split; [reflexivity|]. intros x Hx.
  assert (byte a) as Ha by eauto. assert (byte b) as Hb' by eauto. unfold byte in Ha, Hb'.
  replace (htons x) with (x / 256 + x mod 256 * 256).
  - apply eq_true_iff_eq. rewrite !Z.eqb_eq. split; intros; zlia.
  - symmetry. unfold htons. replace x with (x mod 256 + x / 256 * 256) at 1 by zlia.
    rewrite swap_portnum_bytes; unfold byte; zlia.
Qed.

Lemma input_direction_rule r t s m et v : table_rep r t s → Forall byte m → be16 m 12 = Some et →
  (et = ETHERTYPE_IP → parse m = Some v) →
  ∃ d, input_direction (filter_cfg r) m = Some d ∧
    (if d =? WIFI_FILTER_TO_BUTT then default_dir (filter_cfg r) else d) = routed rule_match s et v.
Proof.
  intros [Ht Hsz Hmax Hused Hl Hdir _] Hb Het Hparse. unfold input_direction, routed.
  destruct (ether_type_be m et Hb Het) as (q&->&Hq). rewrite obind_Some, !Hq by (unfold ETHERTYPE_PAE,
    ETHERTYPE_IPV6, ETHERTYPE_ARP, ETHERTYPE_IP; lia).
  destruct (_ || _); [by eexists|]. destruct (et =? ETHERTYPE_ARP); [by eexists|].
  destruct (Z.eqb_spec et ETHERTYPE_IP) as [E|]; [|by eexists]. specialize (Hparse E).
  pose proof Hparse as Hp. unfold parse in Hp.
  destruct (rd m ETHER_HDR_LEN) as [v_hl|] eqn:Ehl; [|done]. rewrite obind_Some in Hp.
  destruct (rd m (ETHER_HDR_LEN + 9)) as [proto|] eqn:Eproto; [|done]. rewrite obind_Some in Hp.
  destruct (be32 m (ETHER_HDR_LEN + 12)) as [src|] eqn:Esrc; [|done]. rewrite obind_Some in Hp.
  assert (v_proto v = proto) as Hvp.
  { destruct (has_ports proto); [|by injection Hp as <-].
    destruct (be16 m (l4_offset v_hl)); [|done]. rewrite obind_Some in Hp.
    destruct (be16 m (l4_offset v_hl + 2)); [|done]. rewrite obind_Some in Hp. by injection Hp as <-. }
  rewrite obind_Some, Hvp. destruct (_ || _); [by eexists|].
  exists (first_rule rule_match s.1 v). split; [|by rewrite Hdir].
  unfold match_filter. destruct (Z.gtb_spec (ipv4_used (filter_cfg r)) 0) as [Hgt|Hle].
  - unfold ipv4_match_filter. rewrite Ehl, Eproto, !obind_Some, Ht, obind_Some, Hl. rewrite <-Hvp.
    apply (match_table_rule s.1 m v v_hl); done.
  - rewrite <-Hl. by replace (Z.to_nat (ipv4_used (filter_cfg r))) with 0%nat by lia.
Qed.

(** C29: packets are routed by the rules of the table.  On an attached repeater,
    every received frame whose headers are complete is handed to lwip while the
    host is away; otherwise 802.1X, IPv6 and unknown types go to lwip, ARP, ICMP
    and IGMP to both sides, and other IPv4 packets where the first rule that
    matches says, or in the default direction.  Nothing else changes, and the
    packet buffer is given up exactly once.  A rule matches ([rule_match]) when
    every condition in its mask holds, with one deviation from the header
    (doc_match): a rule with only a port range also matches the port number that
    it does not specify.  The two agree, for the last part of the theorem, when
    the filters leave unspecified ports at 0 and the packet has no port 0. *)
Theorem repeater_routes pbuf_ok r t s m et v :
  table_rep r t s → lwip_input (filter_cfg r) ≠ NULL → host_input (filter_cfg r) ≠ NULL →
  Forall byte m → be16 m 12 = Some et → (et = ETHERTYPE_IP → parse m = Some v) →
  let direction := if host_carrier_on r then routed rule_match s et v else WIFI_FILTER_TO_LWIP in
  let outs := deliveries pbuf_ok (filter_cfg r) direction m in
  repeater_input pbuf_ok (ifp (filter_cfg r)) m r = Ret ((), sent outs r) ∧
  length (filter (λ o, takes_mbuf o = true) outs) = 1%nat ∧
  (Forall canonical s.1 → ports_used v → routed rule_match s et v = routed doc_match s et v).
Proof.
  intros Hrep Hlwip Hhost Hb Het Hparse direction outs. split; [|split; [apply deliveries_take_mbuf|]].
  - unfold repeater_input, cfg_at, c_assert. unfold mbind, M_bind. simpl. rewrite Z.eqb_refl. simpl.
    rewrite (proj2 (Z.eqb_neq _ _) Hlwip), (proj2 (Z.eqb_neq _ _) Hhost). simpl.
    unfold outs, direction. destruct (host_carrier_on r) eqn:Ehc; simpl; [|by rewrite forward_run].
    destruct (input_direction_rule r t s m et v) as (d&->&Hd); [done..|]. simpl. by rewrite forward_run, Hd.
  - intros Hc Hports. unfold routed. by rewrite first_rule_doc.
Qed.

(** A port that a filter does not specify is matched all the same.  The
    header says a field whose mask bit is not set is not a matching condition,
    but with only the range bit set, a packet whose destination port equals
    [local_port] matches although the port is outside the range. *)
Theorem repeater_unspecified_port_matches f m v_hl v s d :
  Forall byte m → parse m = Some v → rd m ETHER_HDR_LEN = Some v_hl → v_ports v = Some (s, d) →
  match_mask f = WIFI_FILTER_MASK_LOCAL_PORT_RANGE → local_port f = d → d < localp_min f →
  match_mask_bits f (match_funcs f m (l4_of v_hl (v_proto v))) 0 = Some true ∧ doc_match f v = false.
Proof.
  intros Hb Hp Hv Hports Hmask Hport Hlow.
  destruct (match_funcs_view f m v v_hl Hb Hp Hv) as (Hip&Hproto&Hlocal&Hremote).
  unfold match_funcs. rewrite Hip, Hproto, Hlocal, Hremote, Hports, Hport, Z.eqb_refl. split.
  - cbn [match_mask_bits]. unfold has. rewrite Hmask. reflexivity.
  - unfold doc_match, port_ok, has. rewrite Hmask, Hports. simpl.
    by rewrite (proj2 (Z.leb_gt _ _)) by done.
Qed.

End Theorems.

(** ** Witnesses *)

Module Demo.

#[local] Instance renv : RepeaterEnv := {| IPV4_CNT := 15; ether_inputpbuf := 1000; repeater_input_fn := 1001 |}.

Definition r_boot : repeater := Repeater true cfg0 (λ _, 7) (λ _, 0) [].

Definition ops : list op :=
  OpDir WIFI_FILTER_TO_HOST :: (OpAdd <$> filter_def_setting) ++
  [OpDel (Filter 0 5201 0 0 0 0 0 6 WIFI_FILTER_TO_HOST 6 0); OpQuery].

(** The default table is accepted, and one of its rules deleted again. *)
Lemma repeater_table_refines_witness :
  ∃ r1 r2 t, wifi_repeater_ops_init 50 true 0 60 r_boot = Ret (OK, r1) ∧
    if_input r1 50 = 1001 ∧ if_etherinput r1 50 = 7 ∧
    run_ops ops r1 = Ret ((spec_ops ops ([], WIFI_FILTER_TO_LWIP)).1, r2) ∧
    table_rep r2 t (spec_ops ops ([], WIFI_FILTER_TO_LWIP)).2 ∧ same_wiring r1 r2.
Proof.
  apply (repeater_table_refines (RE:=renv) ops 50 60 r_boot); [reflexivity|lia|lia|simpl; lia].
Defined.

(** The table as installed. *)
Definition table : list wifi_ipv4_filter := filter_def_setting ++ replicate 9 filter0.
Definition r_run : repeater :=
  Repeater true (Cfg 50 60 1000 WIFI_FILTER_TO_HOST 15 6 (Some table)) (λ _, 1001) (λ _, 7) [].

Lemma r_run_rep : table_rep r_run table (filter_def_setting, WIFI_FILTER_TO_HOST).
Proof.
  split; simpl; try done. repeat (apply NoDup_cons; split; [set_solver|]). apply NoDup_nil_2.
Qed.

(** A UDP packet from port 67 to port 68 (DHCP): to lwip. *)
Definition dhcp : list Z :=
  replicate 12 0 ++ [8; 0] ++ [0x45; 0; 0; 0; 0; 0; 0; 0; 64; 17; 0; 0; 10; 0; 0; 1; 10; 0; 0; 2] ++
  [0; 67; 0; 68; 0; 8; 0; 0].

Lemma bytes_forallb l : forallb (λ x, (0 <=? x) && (x <? 256)) l = true → Forall byte l.
Proof.
  intros H. apply Forall_forall. intros x Hx. rewrite forallb_forall in H.
  apply list_elem_of_In in Hx. specialize (H x Hx). unfold byte. lia.
Qed.

Lemma repeater_routes_witness :
  repeater_input true 50 dhcp r_run = Ret ((), sent [FreeMbuf; LwipInput 1000 50 (Some dhcp)] r_run).
Proof.
  refine (proj1 (repeater_routes true r_run table (filter_def_setting, WIFI_FILTER_TO_HOST) dhcp ETHERTYPE_IP
    (View 0x0a000001 17 (Some (67, 68))) _ _ _ _ _ _)).
  - exact r_run_rep.
  - done.
  - done.
  - apply bytes_forallb. reflexivity.
  - reflexivity.
  - reflexivity.
Defined.

(** A rule for ports 5000 to 5100 with a stray [local_port] of 68. *)
Definition stray : wifi_ipv4_filter :=
  Filter 0 68 5000 5100 0 0 0 0 WIFI_FILTER_TO_HOST WIFI_FILTER_MASK_LOCAL_PORT_RANGE 0.

Lemma repeater_unspecified_port_matches_witness :
  valid stray = true ∧
  match_mask_bits stray (match_funcs stray dhcp (UdpHdr 34)) 0 = Some true ∧
  doc_match stray (View 0x0a000001 17 (Some (67, 68))) = false.
Proof.
  split; [reflexivity|].
  apply (repeater_unspecified_port_matches stray dhcp 0x45 (View 0x0a000001 17 (Some (67, 68))) 67 68).
  - apply bytes_forallb. reflexivity.
  - reflexivity.
  - reflexivity.
  - reflexivity.
  - reflexivity.
  - reflexivity.
  - simpl. lia.
Defined.

End Demo.
