(* ===== verification/Dhcps.v ===== *)
(** * The DHCP server: src/lib/net/dhcps/dhcps.c

    Addresses are numbers in host order (0 is "any"); the conversions between
    byte orders are in the reading and writing of messages.  The two client
    lists keep the order of the C lists.  A message is the list of its bytes;
    reading or writing outside a buffer, the lease board or [opt_val] is a
    [Fault].  Datagrams that are sent are collected in [sent]; [held] counts
    the message copies taken from the heap and not given back. *)

From stdpp Require Import base tactics numbers list.
From S2P Require Import Prelude.

(** ** Constants *)

(** CONFIG_LWIP_DHCPS_MAX_LEASE and CONFIG_LWIP_DHCPS_LEASE_TIME (minutes). *)
Class DhcpsConfig := { DHCPS_MAX_LEASE : Z; DHCPS_LEASE_TIME_DEF : Z }.

Definition NBBY : Z := 8.
Definition LEASE_BOARDS_BYTES `{DhcpsConfig} : Z := (DHCPS_MAX_LEASE + (NBBY - 1)) / NBBY.

Definition DHCP_BOOTREQUEST : Z := 1.
Definition DHCP_BOOTREPLY : Z := 2.
Definition DHCP_DISCOVER : Z := 1.
Definition DHCP_OFFER : Z := 2.
Definition DHCP_REQUEST : Z := 3.
Definition DHCP_DECLINE : Z := 4.
Definition DHCP_ACK : Z := 5.
Definition DHCP_NAK : Z := 6.
Definition DHCP_RELEASE : Z := 7.

Definition DHCP_OPTION_SUBNET_MASK : Z := 1.
Definition DHCP_OPTION_ROUTER : Z := 3.
Definition DHCP_OPTION_DNS_SERVER : Z := 6.
Definition DHCP_OPTION_BROADCAST : Z := 28.
Definition DHCP_OPTION_REQUESTED_IP : Z := 50.
Definition DHCP_OPTION_LEASE_TIME : Z := 51.
Definition DHCP_OPTION_MESSAGE_TYPE : Z := 53.
Definition DHCP_OPTION_SERVER_ID : Z := 54.
Definition DHCP_OPTION_PARAMETER_REQUEST_LIST : Z := 55.
Definition DHCP_OPTION_END : Z := 255.

Definition DHCP_SNAME_OFS : Z := 44.
Definition DHCP_OPTIONS_OFS : Z := 240.
Definition DHCP_OPTIONS_LEN : Z := 68.
Definition DHCP_MIN_OPTIONS_LEN : Z := 68.
Definition DHCP_MSG_SIZE : Z := DHCP_OPTIONS_OFS + DHCP_OPTIONS_LEN.
Definition DHCP_MAGIC_COOKIE : Z := 0x63825363.
Definition NETIF_MAX_HWADDR_LEN : Z := 6.

Definition SUBNET_MASK_FLAGS : Z := 0x0001.
Definition ROUTER_FLAGS : Z := 0x0002.
Definition DNS_SERVER_FLAGS : Z := 0x0004.
Definition BROADCAST_FLAGS : Z := 0x0008.

Definition ERR_OK : Z := 0.
Definition ERR_MEM : Z := -1.
Definition ERR_VAL : Z := -6.
Definition ERR_IF : Z := -12.
Definition ERR_ARG : Z := -16.

(** ** Data *)

Record dhcps_client := Client { ipaddr : Z; hwaddr : list Z; cl_lease_time : Z }.

#[global] Instance client_eq_dec : EqDecision dhcps_client.
Proof. solve_decision. Defined.

(** Values of the options that are looked at, None as long as not given:
    message type, requested address, flags of the parameter request list. *)
Record rx_options := RxOptions { rx_type : option Z; rx_ip : option Z; rx_params : option Z }.

Record dhcps := Dhcps {
  pcb_allocated : bool;
  server_ip : Z;
  gw_ip : Z;
  dns_ip : Z;
  client_ip : Z;
  your_ip : Z;
  start_ip : Z;
  end_ip : Z;
  lease_time : Z;
  boards : list Z;
  offered : list dhcps_client;
  bound : list dhcps_client;
  rx : rx_options;
  sent : list (list Z);
  held : Z;
  started : bool;
}.

Definition set_boards b d := Dhcps (pcb_allocated d) (server_ip d) (gw_ip d) (dns_ip d) (client_ip d) (your_ip d)
  (start_ip d) (end_ip d) (lease_time d) b (offered d) (bound d) (rx d) (sent d) (held d) (started d).
Definition set_offered l d := Dhcps (pcb_allocated d) (server_ip d) (gw_ip d) (dns_ip d) (client_ip d) (your_ip d)
  (start_ip d) (end_ip d) (lease_time d) (boards d) l (bound d) (rx d) (sent d) (held d) (started d).
Definition set_bound l d := Dhcps (pcb_allocated d) (server_ip d) (gw_ip d) (dns_ip d) (client_ip d) (your_ip d)
  (start_ip d) (end_ip d) (lease_time d) (boards d) (offered d) l (rx d) (sent d) (held d) (started d).
Definition set_rx o d := Dhcps (pcb_allocated d) (server_ip d) (gw_ip d) (dns_ip d) (client_ip d) (your_ip d)
  (start_ip d) (end_ip d) (lease_time d) (boards d) (offered d) (bound d) o (sent d) (held d) (started d).
Definition set_client_ip a d := Dhcps (pcb_allocated d) (server_ip d) (gw_ip d) (dns_ip d) a (your_ip d) (start_ip d)
  (end_ip d) (lease_time d) (boards d) (offered d) (bound d) (rx d) (sent d) (held d) (started d).
Definition set_your_ip a d := Dhcps (pcb_allocated d) (server_ip d) (gw_ip d) (dns_ip d) (client_ip d) a (start_ip d)
  (end_ip d) (lease_time d) (boards d) (offered d) (bound d) (rx d) (sent d) (held d) (started d).
Definition set_range s e d := Dhcps (pcb_allocated d) (server_ip d) (gw_ip d) (dns_ip d) (client_ip d) (your_ip d) s e
  (lease_time d) (boards d) (offered d) (bound d) (rx d) (sent d) (held d) (started d).
Definition set_net sv gw d := Dhcps (pcb_allocated d) sv gw (dns_ip d) (client_ip d) (your_ip d) (start_ip d) (end_ip
  d) (lease_time d) (boards d) (offered d) (bound d) (rx d) (sent d) (held d) (started d).
Definition set_dns a d := Dhcps (pcb_allocated d) (server_ip d) (gw_ip d) a (client_ip d) (your_ip d) (start_ip d)
  (end_ip d) (lease_time d) (boards d) (offered d) (bound d) (rx d) (sent d) (held d) (started d).
Definition set_lease_time t d := Dhcps (pcb_allocated d) (server_ip d) (gw_ip d) (dns_ip d) (client_ip d) (your_ip d)
  (start_ip d) (end_ip d) t (boards d) (offered d) (bound d) (rx d) (sent d) (held d) (started d).
Definition set_pcb b d := Dhcps b (server_ip d) (gw_ip d) (dns_ip d) (client_ip d) (your_ip d) (start_ip d) (end_ip d)
  (lease_time d) (boards d) (offered d) (bound d) (rx d) (sent d) (held d) (started d).
Definition set_started b d := Dhcps (pcb_allocated d) (server_ip d) (gw_ip d) (dns_ip d) (client_ip d) (your_ip d)
  (start_ip d) (end_ip d) (lease_time d) (boards d) (offered d) (bound d) (rx d) (sent d) (held d) b.
Definition add_sent m d := Dhcps (pcb_allocated d) (server_ip d) (gw_ip d) (dns_ip d) (client_ip d) (your_ip d)
  (start_ip d) (end_ip d) (lease_time d) (boards d) (offered d) (bound d) (rx d) (sent d ++ [m]) (held d) (started d).
Definition add_held  d := Dhcps (pcb_allocated d) (server_ip d) (gw_ip d) (dns_ip d) (client_ip d) (your_ip d)
  (start_ip d) (end_ip d) (lease_time d) (boards d) (offered d) (bound d) (rx d) (sent d) (held d + 1) (started d).

Section Dhcps.
Context {CFG : DhcpsConfig}.

(** ** The lease board *)

Definition is_valid (s c e : Z) : bool := (s <=? c) && (c <=? e).

Definition isclr (b : list Z) (i : Z) : bool := Z.land (b !!! Z.to_nat (i / NBBY)) (BIT (i mod NBBY)) =? 0.

(** [setbit] and [clrbit] of sys/param.h. *)
Definition setbit (i : Z) : M dhcps unit :=
  d ← get;
  v ← lift_opt (boards d !! Z.to_nat (i / NBBY));
  put (set_boards (<[Z.to_nat (i / NBBY) := Z.lor v (BIT (i mod NBBY))]> (boards d)) d).

Definition clrbit (i : Z) : M dhcps unit :=
  d ← get;
  v ← lift_opt (boards d !! Z.to_nat (i / NBBY));
  put (set_boards (<[Z.to_nat (i / NBBY) := Z.land v (Z.lnot (BIT (i mod NBBY)))]> (boards d)) d).

Definition do_lease (ip : Z) : M dhcps unit :=
  d ← get; setbit (u32 (ip - start_ip d)).

Definition cancel_lease (ip : Z) : M dhcps unit :=
  d ← get;
  if negb (is_valid (start_ip d) ip (end_ip d)) then mret () else clrbit (u32 (ip - start_ip d)).

Definition cancel_all_leases : M dhcps unit :=
  modify (set_boards (replicate (Z.to_nat LEASE_BOARDS_BYTES) 0)).

(** The first clear bit from [i] on, [n] bits at most. *)
Fixpoint first_clear (b : list Z) (n : nat) (i : Z) : Z :=
  match n with
  | O => i
  | S n => if isclr b i then i else first_clear b n (i + 1)
  end.

Definition get_lease : M dhcps Z :=
  d ← get;
  let i := first_clear (boards d) (Z.to_nat (LEASE_BOARDS_BYTES * NBBY)) 0 in
  let ip := u32 (start_ip d + i) in
  if is_valid (start_ip d) ip (end_ip d) then do_lease ip;; mret ip else mret 0.

(** ** Clients *)

Definition same_hw (hw : list Z) (c : dhcps_client) : Prop := hwaddr c = hw.
#[global] Instance same_hw_dec hw c : Decision (same_hw hw c).
Proof. unfold same_hw. apply _. Defined.

(** [is_offered] and [is_bound]: the first client of the list with the address. *)
Fixpoint find_client (hw : list Z) (l : list dhcps_client) : option dhcps_client :=
  match l with
  | [] => None
  | c :: l => if decide (same_hw hw c) then Some c else find_client hw l
  end.

Definition is_offered (hw : list Z) (d : dhcps) : option dhcps_client := find_client hw (offered d).
Definition is_bound (hw : list Z) (d : dhcps) : option dhcps_client := find_client hw (bound d).

Definition is_ip_bound (ip : Z) (d : dhcps) : bool := existsb (λ c, ipaddr c =? ip) (bound d).

(** [list_del] of the client that was found. *)
Fixpoint del_client (hw : list Z) (l : list dhcps_client) : list dhcps_client :=
  match l with
  | [] => []
  | c :: l => if decide (same_hw hw c) then l else c :: del_client hw l
  end.

Definition offer (mem_ok : bool) (hw : list Z) (ip : Z) : M dhcps unit :=
  if mem_ok then modify (λ d, set_offered (offered d ++ [Client ip hw (lease_time d)]) d) else mret ().

Definition _bind (c : dhcps_client) : M dhcps unit :=
  modify (λ d, set_bound (bound d ++ [c]) (set_offered (del_client (hwaddr c) (offered d)) d)).

(** [forget] for a client of one list or the other. *)
Definition forget_offered (c : dhcps_client) : M dhcps unit :=
  cancel_lease (ipaddr c);; modify (λ d, set_offered (del_client (hwaddr c) (offered d)) d).
Definition forget_bound (c : dhcps_client) : M dhcps unit :=
  cancel_lease (ipaddr c);; modify (λ d, set_bound (del_client (hwaddr c) (bound d)) d).

(** The loop over the bound clients: the ones that stay. *)
Fixpoint coarse_loop (l : list dhcps_client) : M dhcps (list dhcps_client) :=
  match l with
  | [] => mret []
  | c :: l =>
      let t := if cl_lease_time c >? 0 then cl_lease_time c - 1 else cl_lease_time c in
      if t =? 0 then cancel_lease (ipaddr c);; coarse_loop l
      else r ← coarse_loop l; mret (Client (ipaddr c) (hwaddr c) t :: r)
  end.

Definition dhcps_do_coarse_tmr : M dhcps unit :=
  d ← get; l ← coarse_loop (bound d); modify (set_bound l).

(** ** Parameter request list and options *)

Definition request_flag (o : Z) : Z :=
  if o =? DHCP_OPTION_SUBNET_MASK then SUBNET_MASK_FLAGS
  else if o =? DHCP_OPTION_ROUTER then ROUTER_FLAGS
  else if o =? DHCP_OPTION_DNS_SERVER then DNS_SERVER_FLAGS
  else if o =? DHCP_OPTION_BROADCAST then BROADCAST_FLAGS
  else 0.

Definition dhcps_parse_param_request (l : list Z) : Z := fold_left (λ v o, Z.lor v (request_flag o)) l 0.

(** Bytes of a message. *)
Definition rd (msg : list Z) (i : Z) : M dhcps Z := lift_opt (msg !! Z.to_nat i).

Fixpoint rd_bytes (msg : list Z) (i : Z) (n : nat) : M dhcps (list Z) :=
  match n with
  | O => mret []
  | S n => b ← rd msg i; r ← rd_bytes msg (i + 1) n; mret (b :: r)
  end.

(** Four bytes in network order. *)
Definition be32 (l : list Z) : Z :=
  match l with
  | [a; b; c; e] => a * 2 ^ 24 + b * 2 ^ 16 + c * 2 ^ 8 + e
  | _ => 0
  end.

Definition rx_given (o : rx_options) (is_type : bool) : bool :=
  bool_decide (is_Some (if is_type then rx_type o else rx_ip o)).
Definition rx_set (is_type : bool) (v : Z) (o : rx_options) : rx_options :=
  if is_type then RxOptions (Some v) (rx_ip o) (rx_params o) else RxOptions (rx_type o) (Some v) (rx_params o).

(** The value of a message type or requested address option: [memcpy] into
    the 4 bytes of [opt_val], then decoding; None is [return ERR_VAL]. *)
Definition option_value (msg : list Z) (ofs opt_len : Z) : M dhcps (option Z) :=
  if opt_len >? 4 then fault else
  v ← rd_bytes msg (ofs + 2) (Z.to_nat opt_len);
  if opt_len =? 4 then mret (Some (be32 v))
  else if opt_len =? 1 then mret (Some (v !!! 0%nat))
  else mret None.

(** [while (option < end)] *)
Fixpoint parse_options (fuel : nat) (msg : list Z) (ofs end_ : Z) : M dhcps Z :=
  match fuel with
  | O => out_of_fuel
  | S fuel =>
      if ofs <? end_ then
        opt_op ← rd msg ofs;
        opt_len ← rd msg (ofs + 1);
        let next := ofs + (opt_len + 2) in
        if (opt_op =? DHCP_OPTION_MESSAGE_TYPE) || (opt_op =? DHCP_OPTION_REQUESTED_IP) then
          let is_type := opt_op =? DHCP_OPTION_MESSAGE_TYPE in
          d ← get;
          if rx_given (rx d) is_type then parse_options fuel msg next end_ else
          v ← option_value msg ofs opt_len;
          match v with
          | None => mret ERR_VAL
          | Some v => modify (λ d, set_rx (rx_set is_type v (rx d)) d);; parse_options fuel msg next end_
          end
        else if opt_op =? DHCP_OPTION_PARAMETER_REQUEST_LIST then
          l ← rd_bytes msg (ofs + 2) (Z.to_nat opt_len);
          modify (λ d, set_rx (RxOptions (rx_type (rx d)) (rx_ip (rx d)) (Some (dhcps_parse_param_request l))) d);;
          parse_options fuel msg next end_
        else if opt_op =? DHCP_OPTION_END then parse_options fuel msg next ofs
        else parse_options fuel msg next end_
      else mret ERR_OK
  end.

Definition dhcps_parse_request (msg : list Z) (len : Z) : M dhcps Z :=
  modify (set_rx (RxOptions None None None));;
  cookie ← rd_bytes msg 236 4;
  if negb (be32 cookie =? DHCP_MAGIC_COOKIE) then mret ERR_VAL else
  ciaddr ← rd_bytes msg 12 4;
  modify (set_client_ip (be32 ciaddr));;
  parse_options (S (Z.to_nat len)) msg DHCP_OPTIONS_OFS len.

(** ** Replies *)

(** The option area of a reply as it grows. *)
Definition add_option (out : list Z) (ty len : Z) : M dhcps (list Z) :=
  c_assert (Z.of_nat (length out) + 2 + len <=? DHCP_OPTIONS_LEN);; mret (out ++ [ty; len]).
Definition add_option_byte (out : list Z) (v : Z) : M dhcps (list Z) :=
  c_assert (Z.of_nat (length out) <? DHCP_OPTIONS_LEN);; mret (out ++ [v]).
Definition be_bytes (v : Z) : list Z :=
  [Z.shiftr (Z.land v 0xFF000000) 24; Z.shiftr (Z.land v 0x00FF0000) 16; Z.shiftr (Z.land v 0x0000FF00) 8;
   Z.land v 0x000000FF].
Definition add_option_long (out : list Z) (v : Z) : M dhcps (list Z) :=
  c_assert (Z.of_nat (length out) + 4 <=? DHCP_OPTIONS_LEN);; mret (out ++ be_bytes v).

Definition add_option_addr (out : list Z) (ty v : Z) : M dhcps (list Z) :=
  out ← add_option out ty 4; add_option_long out v.

(** The header: what is taken from the request, and what is set. *)
Definition reply_header (msg : list Z) (d : dhcps) : list Z :=
  [DHCP_BOOTREPLY; 1; NETIF_MAX_HWADDR_LEN; 0] ++ take 4 (drop 4 msg) ++ [0; 0] ++ take 2 (drop 10 msg) ++
  [0; 0; 0; 0] ++ be_bytes (your_ip d) ++ be_bytes (server_ip d) ++ [0; 0; 0; 0] ++ take 16 (drop 28 msg) ++
  replicate 64 0 ++ replicate 128 0 ++ be_bytes DHCP_MAGIC_COOKIE.

(** Header and options, None without memory. *)
Definition create_msg (pbuf_ok : bool) (msg : list Z) (message_type : Z) : M dhcps (option (list Z * list Z)) :=
  if negb pbuf_ok then mret None else
  d ← get;
  out ← add_option [] DHCP_OPTION_MESSAGE_TYPE 1;
  out ← add_option_byte out message_type;
  mret (Some (reply_header msg d, out)).

(** The END option and the padding. *)
Fixpoint pad_loop (fuel : nat) (out : list Z) : list Z :=
  match fuel with
  | O => out
  | S fuel =>
      let n := Z.of_nat (length out) in
      if ((n <? DHCP_MIN_OPTIONS_LEN) || negb (Z.land n 3 =? 0)) && (n <? DHCP_OPTIONS_LEN)
      then pad_loop fuel (out ++ [0]) else out
  end.

Definition add_option_trailer (out : list Z) : list Z :=
  pad_loop (Z.to_nat DHCP_OPTIONS_LEN) (out ++ [DHCP_OPTION_END]).

Definition option_req_en (d : dhcps) (flag : Z) : bool :=
  negb (Z.land (default 0 (rx_params (rx d))) flag =? 0).

Definition add_reply_options (out : list Z) : M dhcps (list Z) :=
  d ← get;
  out ← add_option_addr out DHCP_OPTION_SERVER_ID (server_ip d);
  out ← add_option_addr out DHCP_OPTION_LEASE_TIME (u32 (lease_time d * 60));
  out ← (if option_req_en d SUBNET_MASK_FLAGS then add_option_addr out DHCP_OPTION_SUBNET_MASK 0xFFFFFF00 else mret out);
  out ← (if option_req_en d ROUTER_FLAGS && negb (gw_ip d =? 0)
         then add_option_addr out DHCP_OPTION_ROUTER (gw_ip d) else mret out);
  out ← (if option_req_en d DNS_SERVER_FLAGS
         then add_option_addr out DHCP_OPTION_DNS_SERVER (if negb (dns_ip d =? 0) then dns_ip d else server_ip d)
         else mret out);
  (if option_req_en d BROADCAST_FLAGS
   then add_option_addr out DHCP_OPTION_BROADCAST (Z.lor (server_ip d) 0x000000FF) else mret out).

(** [udp_sendto_if] to the broadcast address. *)
Definition send (m : list Z) : M dhcps Z := modify (add_sent m);; mret ERR_OK.

(** [dhcps_offer] and [dhcps_ack]; [ty] is the message type. *)
Definition dhcps_reply (pbuf_ok : bool) (msg_in : list Z) (ty : Z) : M dhcps Z :=
  p ← create_msg pbuf_ok msg_in ty;
  match p with
  | None => mret ERR_MEM
  | Some (hdr, out) => out ← add_reply_options out; send (hdr ++ add_option_trailer out)
  end.

Definition dhcps_offer (pbuf_ok : bool) (msg_in : list Z) : M dhcps Z := dhcps_reply pbuf_ok msg_in DHCP_OFFER.
Definition dhcps_ack (pbuf_ok : bool) (msg_in : list Z) : M dhcps Z := dhcps_reply pbuf_ok msg_in DHCP_ACK.

Definition dhcps_nak (pbuf_ok : bool) (msg_in : list Z) : M dhcps Z :=
  p ← create_msg pbuf_ok msg_in DHCP_NAK;
  match p with
  | None => mret ERR_MEM
  | Some (hdr, out) => send (hdr ++ add_option_trailer out)
  end.

(** ** Messages *)

(** The heap's answers while a message is handled: for the copy of a split
    message, for a client record, and for the reply. *)
Record mem := Mem { mem_copy : bool; mem_client : bool; mem_pbuf : bool }.

Definition recv_discover (m : mem) (req_msg chwaddr : list Z) : M dhcps unit :=
  d ← get;
  match is_bound chwaddr d with Some cl => forget_bound cl | None => mret () end;;
  d ← get;
  leased_ip ←
    match is_offered chwaddr d with
    | None =>
        if negb (client_ip d =? 0) then
          if negb (is_ip_bound (client_ip d) d)
          then offer (mem_client m) chwaddr (client_ip d);; mret (Some (client_ip d))
          else mret None
        else ip ← get_lease; offer (mem_client m) chwaddr ip;; mret (Some ip)
    | Some cl => mret (Some (ipaddr cl))
    end;
  match leased_ip with
  | None => mret ()
  | Some ip =>
      modify (set_your_ip ip);;
      if ip =? 0 then mret () else dhcps_offer (mem_pbuf m) req_msg;; mret ()
  end.

(** The client that was found gets the full lease time again. *)
Fixpoint refill_client (hw : list Z) (t : Z) (l : list dhcps_client) : list dhcps_client :=
  match l with
  | [] => []
  | c :: l => if decide (same_hw hw c) then Client (ipaddr c) (hwaddr c) t :: l else c :: refill_client hw t l
  end.

Definition refill (c : dhcps_client) : M dhcps unit :=
  modify (λ d, set_your_ip (ipaddr c) (set_bound (refill_client (hwaddr c) (lease_time d) (bound d)) d)).

Definition recv_request (m : mem) (req_msg chwaddr : list Z) : M dhcps unit :=
  d ← get;
  let request_ip := default 0 (rx_ip (rx d)) in
  match is_offered chwaddr d with
  | Some cl =>
      if negb (request_ip =? 0) && negb (request_ip =? ipaddr cl)
      then dhcps_nak (mem_pbuf m) req_msg;; mret ()
      else modify (set_your_ip (ipaddr cl));; _bind cl;; dhcps_ack (mem_pbuf m) req_msg;; mret ()
  | None =>
      match is_bound chwaddr d with
      | Some cl =>
          if (ipaddr cl =? client_ip d) || ((client_ip d =? 0) && (ipaddr cl =? request_ip))
          then refill cl;; dhcps_ack (mem_pbuf m) req_msg;; mret ()
          else dhcps_nak (mem_pbuf m) req_msg;; mret ()
      | None => dhcps_nak (mem_pbuf m) req_msg;; mret ()
      end
  end.

Definition recv_release (chwaddr : list Z) : M dhcps unit :=
  d ← get;
  match is_offered chwaddr d with
  | Some cl => forget_offered cl
  | None => match is_bound chwaddr d with Some cl => forget_bound cl | None => mret () end
  end.

(** [payload] is the first buffer of the message, [all] all of it. *)
Definition dhcps_recv (m : mem) (payload all : list Z) : M dhcps unit :=
  d ← get;
  if negb (pcb_allocated d) then mret () else
  if Z.of_nat (length payload) <? DHCP_SNAME_OFS then mret () else
  op ← rd payload 0;
  if negb (op =? DHCP_BOOTREQUEST) then mret () else
  req ← (if bool_decide (length all ≠ length payload) then
           if negb (mem_copy m) then mret None else
           if Z.of_nat (length all) >? DHCP_MSG_SIZE then fault else
           modify add_held;; mret (Some all)
         else mret (Some payload));
  match req with
  | None => mret ()
  | Some req_msg =>
      chwaddr ← rd_bytes req_msg 28 6;
      r ← dhcps_parse_request req_msg (Z.of_nat (length all));
      if negb (r =? ERR_OK) then mret () else
      d ← get;
      let msg_type := u8 (default 0 (rx_type (rx d))) in
      if msg_type =? DHCP_DISCOVER then recv_discover m req_msg chwaddr
      else if msg_type =? DHCP_REQUEST then recv_request m req_msg chwaddr
      else if (msg_type =? DHCP_DECLINE) || (msg_type =? DHCP_RELEASE) then recv_release chwaddr
      else mret ()
  end.

(** ** Control *)

(** A server just created: [memset] and the defaults. *)
Definition dhcps_create : dhcps :=
  Dhcps false 0 0 0 0 0 0 0 DHCPS_LEASE_TIME_DEF (replicate (Z.to_nat LEASE_BOARDS_BYTES) 0) [] []
    (RxOptions None None None) [] 0 false.

(** [dhcps_start] on a server that exists, with the interface's address and
    gateway; [udp_ok] is whether the PCB is there. *)
Definition dhcps_start (udp_ok : bool) (netif_ip netif_gw : Z) : M dhcps Z :=
  if negb udp_ok then mret ERR_MEM else
  modify (set_pcb true);;
  if netif_ip =? 0 then mret ERR_ARG else
  modify (set_net netif_ip netif_gw);;
  let server_ip := Z.land netif_ip 0xFFFFFF00 in
  let local_ip := Z.land netif_ip 0xFF in
  let local_ip := if local_ip >=? 0x80 then u32 (local_ip - DHCPS_MAX_LEASE) else local_ip + 1 in
  let start := Z.lor server_ip local_ip in
  modify (set_range start (u32 (start + DHCPS_MAX_LEASE - 1)));;
  modify (set_started true);;
  mret ERR_OK.

Definition dhcps_stop : M dhcps Z :=
  d ← get;
  if negb (started d) then mret ERR_IF else
  modify (set_started false);; modify (set_pcb false);; mret ERR_OK.

Fixpoint forget_all (l : list dhcps_client) : M dhcps unit :=
  match l with [] => mret () | c :: l => cancel_lease (ipaddr c);; forget_all l end.

Definition dhcps_configure (start end_ lease_to : Z) : M dhcps Z :=
  cancel_all_leases;;
  d ← get; forget_all (offered d);; modify (set_offered []);;
  d ← get; forget_all (bound d);; modify (set_bound []);;
  modify (λ d, set_lease_time lease_to (set_range start end_ d));;
  mret ERR_OK.

Definition dhcps_setdns (dnsserver : option Z) : M dhcps Z := modify (set_dns (default 0 dnsserver));; mret ERR_OK.

Definition dhcps_getdns : M dhcps (Z * Z) :=
  d ← get; if dns_ip d =? 0 then mret (ERR_VAL, 0) else mret (ERR_OK, dns_ip d).

End Dhcps.
