(* ===== verification/DhcpsTheorems.v ===== *)
(** * The DHCP server: theorems

    No two clients hold the same address, the exchange of messages leads to a
    bound client, and well-formed messages are read as they were encoded. *)

From stdpp Require Import base tactics numbers list.
From S2P Require Import Prelude Dhcps.

(** The pool fits between the server's address and the ends of a class C net. *)
Class DhcpsConfigOk (CFG : DhcpsConfig) : Prop := { max_lease_ok : 0 < DHCPS_MAX_LEASE ≤ 127 }.

(** ** Options as type, length and value *)

Definition enc_opt (o : Z * list Z) : list Z := o.1 :: Z.of_nat (length o.2) :: o.2.
Definition encode (opts : list (Z * list Z)) : list Z := concat (enc_opt <$> opts).

(** What the server takes from an option. *)
Definition opt_number (v : list Z) : Z := if bool_decide (length v = 4%nat) then be32 v else v !!! 0%nat.

Definition apply_opt (o : rx_options) (tv : Z * list Z) : rx_options :=
  if (tv.1 =? DHCP_OPTION_MESSAGE_TYPE) || (tv.1 =? DHCP_OPTION_REQUESTED_IP) then
    let is_type := tv.1 =? DHCP_OPTION_MESSAGE_TYPE in
    if rx_given o is_type then o else rx_set is_type (opt_number tv.2) o
  else if tv.1 =? DHCP_OPTION_PARAMETER_REQUEST_LIST
  then RxOptions (rx_type o) (rx_ip o) (Some (dhcps_parse_param_request tv.2))
  else o.

Definition decode (opts : list (Z * list Z)) : rx_options := fold_left apply_opt opts (RxOptions None None None).

(** Message type and requested address come with one or four bytes. *)
Definition valid_opt (tv : Z * list Z) : Prop :=
  tv.1 ≠ DHCP_OPTION_END ∧
  (tv.1 = DHCP_OPTION_MESSAGE_TYPE ∨ tv.1 = DHCP_OPTION_REQUESTED_IP → length tv.2 = 1%nat ∨ length tv.2 = 4%nat).

Lemma encode_cons o opts : encode (o :: opts) = enc_opt o ++ encode opts.
Proof. done. Qed.

Lemma encode_length opts : (length opts ≤ length (encode opts))%nat.
Proof. induction opts as [|o opts IH]; [done|]. rewrite encode_cons, length_app. simpl. lia. Qed.

Section Messages.
Context {CFG : DhcpsConfig}.

Lemma rd_at pre x rest d : rd (pre ++ x :: rest) (Z.of_nat (length pre)) d = Ret (x, d).
Proof. unfold rd, lift_opt. by rewrite Nat2Z.id, list_lookup_middle. Qed.

Lemma rd_bytes_at pre v rest d :
  rd_bytes (pre ++ v ++ rest) (Z.of_nat (length pre)) (length v) d = Ret (v, d).
Proof.
  revert pre. induction v as [|x v IH]; intros pre; [done|]. cbn [rd_bytes length]. simpl app.
  rewrite (bind_Ret _ _ _ _ _ (rd_at pre x (v ++ rest) d)).
  replace (pre ++ x :: v ++ rest) with ((pre ++ [x]) ++ v ++ rest) by (by rewrite <-app_assoc).
  replace (Z.of_nat (length pre) + 1) with (Z.of_nat (length (pre ++ [x]))) by (rewrite length_app; simpl; lia).
  by rewrite (bind_Ret _ _ _ _ _ (IH (pre ++ [x]))).
Qed.

Lemma option_value_at pre v rest d : length v = 1%nat ∨ length v = 4%nat →
  option_value (pre ++ v ++ rest) (Z.of_nat (length pre) - 2) (Z.of_nat (length v)) d = Ret (Some (opt_number v), d).
Proof.
  intros Hv. unfold option_value. rewrite (proj2 (gtb_false _ _)) by lia.
  replace (Z.of_nat (length pre) - 2 + 2) with (Z.of_nat (length pre)) by lia. rewrite Nat2Z.id.
  rewrite (bind_Ret _ _ _ _ _ (rd_bytes_at pre v rest d)). unfold opt_number.
  destruct Hv as [Hv|Hv]; rewrite Hv; by simpl.
Qed.

(** One option: what is recorded, and where the loop goes on. *)
Lemma parse_step fuel pre tv rest end_ d : valid_opt tv → Z.of_nat (length pre) < end_ →
  parse_options (S fuel) (pre ++ enc_opt tv ++ rest) (Z.of_nat (length pre)) end_ d =
  parse_options fuel ((pre ++ enc_opt tv) ++ rest) (Z.of_nat (length (pre ++ enc_opt tv))) end_
    (set_rx (apply_opt (rx d) tv) d).
Proof.
  destruct tv as [t v]. intros [Hend Hval] Hlt. simpl in Hend, Hval. unfold enc_opt. cbn [fst snd].
  set (msg := pre ++ (t :: Z.of_nat (length v) :: v) ++ rest).
  assert (msg = (pre ++ [t; Z.of_nat (length v)]) ++ v ++ rest) as Hmsg by (unfold msg; by rewrite <-app_assoc).
  assert (Z.of_nat (length (pre ++ t :: Z.of_nat (length v) :: v)) = Z.of_nat (length pre) + (Z.of_nat (length v) + 2)) as Hnext
    by (rewrite length_app; simpl; lia).
  assert (msg = (pre ++ t :: Z.of_nat (length v) :: v) ++ rest) as Hmsg2 by (unfold msg; by rewrite <-app_assoc).
  rewrite <-Hmsg2, Hnext. cbn [parse_options]. rewrite (proj2 (Z.ltb_lt _ _)) by done.
  rewrite (bind_Ret _ _ _ _ _ (rd_at pre t ((Z.of_nat (length v) :: v) ++ rest) d : rd msg _ _ = _)).
  rewrite (bind_Ret _ _ d (Z.of_nat (length v)) d).
  2: { replace (Z.of_nat (length pre) + 1) with (Z.of_nat (length (pre ++ [t]))) by (rewrite length_app; simpl; lia).
       replace msg with ((pre ++ [t]) ++ Z.of_nat (length v) :: v ++ rest) by (unfold msg; by rewrite <-app_assoc).
       apply rd_at. }
  assert (Z.of_nat (length (pre ++ [t; Z.of_nat (length v)])) = Z.of_nat (length pre) + 2) as Hp2 by (rewrite length_app; simpl; lia).
  unfold apply_opt. cbn [fst snd]. cbv zeta.
  destruct ((t =? DHCP_OPTION_MESSAGE_TYPE) || (t =? DHCP_OPTION_REQUESTED_IP)) eqn:Ht.
  - assert (length v = 1%nat ∨ length v = 4%nat) as Hv.
    { apply Hval. apply orb_true_iff in Ht as [?%Z.eqb_eq|?%Z.eqb_eq]; [by left|by right]. }
    rewrite (bind_Ret get _ _ _ _ eq_refl). destruct (rx_given (rx d) (t =? DHCP_OPTION_MESSAGE_TYPE)).
    + f_equal. by destruct d.
    + rewrite (bind_Ret _ _ d (Some (opt_number v)) d); [|]; cycle 1.
      { rewrite Hmsg. replace (Z.of_nat (length pre)) with (Z.of_nat (length (pre ++ [t; Z.of_nat (length v)])) - 2) by lia.
        by apply option_value_at. }
      by rewrite (bind_Ret (modify _) _ _ _ _ eq_refl).
  - destruct (t =? DHCP_OPTION_PARAMETER_REQUEST_LIST) eqn:Hp.
    + rewrite (bind_Ret _ _ d v d); [|]; cycle 1.
      { rewrite Hmsg, Nat2Z.id, <-Hp2. apply rd_bytes_at. }
      by rewrite (bind_Ret (modify _) _ _ _ _ eq_refl).
    + rewrite (proj2 (Z.eqb_neq t DHCP_OPTION_END)) by done. f_equal. by destruct d.
Qed.

Lemma parse_end fuel pre r rest end_ d : Z.of_nat (length pre) < end_ → 0 ≤ r →
  parse_options (S (S fuel)) (pre ++ DHCP_OPTION_END :: r :: rest) (Z.of_nat (length pre)) end_ d = Ret (ERR_OK, d).
Proof.
  intros Hlt Hr. cbn [parse_options]. rewrite (proj2 (Z.ltb_lt _ _)) by done.
  rewrite (bind_Ret _ _ _ _ _ (rd_at pre _ _ d)).
  rewrite (bind_Ret _ _ d r d).
  2: { replace (Z.of_nat (length pre) + 1) with (Z.of_nat (length (pre ++ [DHCP_OPTION_END]))) by (rewrite length_app; simpl; lia).
       replace (pre ++ DHCP_OPTION_END :: r :: rest) with ((pre ++ [DHCP_OPTION_END]) ++ r :: rest) by (by rewrite <-app_assoc).
       apply rd_at. }
  unfold DHCP_OPTION_END, DHCP_OPTION_MESSAGE_TYPE, DHCP_OPTION_REQUESTED_IP, DHCP_OPTION_PARAMETER_REQUEST_LIST. simpl.
  by rewrite (proj2 (Z.ltb_ge _ _)) by lia.
Qed.

Lemma set_rx_id d : set_rx (rx d) d = d.
Proof. by destruct d. Qed.

(** The loop gets past well-formed options, whatever follows them. *)
Lemma parse_prefix opts fuel pre rest end_ d : Forall valid_opt opts → rest ≠ [] →
  Z.of_nat (length (pre ++ encode opts ++ rest)) ≤ end_ →
  parse_options (length opts + fuel) (pre ++ encode opts ++ rest) (Z.of_nat (length pre)) end_ d =
  parse_options fuel ((pre ++ encode opts) ++ rest) (Z.of_nat (length (pre ++ encode opts))) end_
    (set_rx (fold_left apply_opt opts (rx d)) d).
Proof.
  intros Hv Hr. revert pre d. induction Hv as [|tv opts Htv Hv IH]; intros pre d Hlt.
  - simpl. by rewrite set_rx_id, app_nil_r.
  - rewrite encode_cons, <-!app_assoc in *. cbn [length Nat.add].
    assert (0 < length rest)%nat by (destruct rest; [done|simpl; lia]).
    rewrite parse_step by (done || rewrite !length_app in Hlt; simpl in Hlt; lia).
    rewrite IH by (by rewrite <-app_assoc). by rewrite <-!app_assoc.
Qed.

Lemma parse_options_run opts fuel pre r rest end_ d : Forall valid_opt opts → (length opts + 2 ≤ fuel)%nat → 0 ≤ r →
  Z.of_nat (length (pre ++ encode opts ++ DHCP_OPTION_END :: r :: rest)) ≤ end_ →
  parse_options fuel (pre ++ encode opts ++ DHCP_OPTION_END :: r :: rest) (Z.of_nat (length pre)) end_ d =
  Ret (ERR_OK, set_rx (fold_left apply_opt opts (rx d)) d).
Proof.
  intros Hv Hf Hr Hlt. replace fuel with (length opts + S (S (fuel - length opts - 2)))%nat by lia.
  rewrite parse_prefix by done. rewrite app_assoc, !length_app in Hlt. simpl in Hlt.
  apply parse_end; [rewrite length_app; lia|done].
Qed.

(** An option whose value does not fit the parser's variable. *)
Lemma parse_long fuel pre t v rest end_ d : (4 < length v)%nat → Z.of_nat (length pre) < end_ →
  t = DHCP_OPTION_MESSAGE_TYPE ∧ rx_type (rx d) = None ∨ t = DHCP_OPTION_REQUESTED_IP ∧ rx_ip (rx d) = None →
  parse_options (S fuel) (pre ++ enc_opt (t, v) ++ rest) (Z.of_nat (length pre)) end_ d = Fault.
Proof.
  intros Hv Hlt Ht. cbn [parse_options]. rewrite (proj2 (Z.ltb_lt _ _)) by done. unfold enc_opt. cbn [fst snd].
  rewrite (bind_Ret _ _ _ _ _ (rd_at pre t ((Z.of_nat (length v) :: v) ++ rest) d)).
  rewrite (bind_Ret _ _ d (Z.of_nat (length v)) d).
  2: { replace (Z.of_nat (length pre) + 1) with (Z.of_nat (length (pre ++ [t]))) by (rewrite length_app; simpl; lia).
       replace (pre ++ (t :: Z.of_nat (length v) :: v) ++ rest) with ((pre ++ [t]) ++ Z.of_nat (length v) :: v ++ rest)
         by (by rewrite <-app_assoc). apply rd_at. }
  cbv zeta.
  unfold option_value. rewrite (proj2 (Z.gtb_lt _ _)) by lia.
  destruct Ht as [[-> Hn]|[-> Hn]]; unfold mbind, M_bind, get, fault, rx_given; cbn; rewrite Hn; done.
Qed.

(** *** Whole requests *)

(** A request of the client [hw] with the address [ci] in [ciaddr] and the given
    options, ended by END and at least one more byte. *)
Definition is_request (msg hw : list Z) (ci : Z) (opts : list (Z * list Z)) : Prop :=
  ∃ hdr r rest, msg = hdr ++ be_bytes DHCP_MAGIC_COOKIE ++ encode opts ++ DHCP_OPTION_END :: r :: rest ∧
    length hdr = 236%nat ∧ hdr !! 0%nat = Some DHCP_BOOTREQUEST ∧ take 6 (drop 28 hdr) = hw ∧
    be32 (take 4 (drop 12 hdr)) = ci ∧ 0 ≤ r ∧ Forall valid_opt opts.

Lemma rd_bytes_take msg ofs n d : (ofs + n ≤ length msg)%nat →
  rd_bytes msg (Z.of_nat ofs) n d = Ret (take n (drop ofs msg), d).
Proof.
  intros H. pose proof (rd_bytes_at (take ofs msg) (take n (drop ofs msg)) (drop n (drop ofs msg)) d) as Hr.
  rewrite !take_drop, !length_take, length_drop in Hr.
  replace (ofs `min` length msg)%nat with ofs in Hr by lia. replace (n `min` (length msg - ofs))%nat with n in Hr by lia.
  exact Hr.
Qed.

Lemma parse_request_run msg hw ci opts d : is_request msg hw ci opts →
  dhcps_parse_request msg (Z.of_nat (length msg)) d = Ret (ERR_OK, set_rx (decode opts) (set_client_ip ci d)).
Proof.
  intros (hdr&r&rest&Hmsg&Hlen&Hop&Hhw&Hci&Hr&Hv). unfold dhcps_parse_request.
  rewrite (bind_Ret (modify _) _ _ _ _ eq_refl).
  assert (length msg = 240 + length (encode opts) + 2 + length rest)%nat as Hl.
  { rewrite Hmsg, !length_app, Hlen. simpl. lia. }
  rewrite (bind_Ret _ _ _ _ _ (rd_bytes_take msg 236 4 _ ltac:(lia))).
  replace (take 4 (drop 236 msg)) with (be_bytes DHCP_MAGIC_COOKIE).
  2: { rewrite Hmsg, drop_app_length' by done. by rewrite take_app_length'. }
  change (negb (be32 (be_bytes DHCP_MAGIC_COOKIE) =? DHCP_MAGIC_COOKIE)) with false. cbv iota.
  rewrite (bind_Ret _ _ _ _ _ (rd_bytes_take msg 12 4 _ ltac:(lia))), (bind_Ret (modify _) _ _ _ _ eq_refl).
  replace (take 4 (drop 12 msg)) with (take 4 (drop 12 hdr)).
  2: { rewrite Hmsg, drop_app_le by lia. rewrite take_app_le; [done|]. rewrite length_drop. lia. }
  rewrite Hci. rewrite Hmsg, app_assoc.
  replace DHCP_OPTIONS_OFS with (Z.of_nat (length (hdr ++ be_bytes DHCP_MAGIC_COOKIE))) by (rewrite length_app, Hlen; done).
  rewrite parse_options_run; [done|done| |done|].
  - rewrite <-app_assoc, <-Hmsg, Nat2Z.id. pose proof (encode_length opts). lia.
  - by rewrite <-app_assoc, <-Hmsg.
Qed.

(** What [dhcps_recv] does with a request in one buffer. *)
Definition dispatch (m : mem) (ty : Z) (msg hw : list Z) : M dhcps unit :=
  if ty =? DHCP_DISCOVER then recv_discover m msg hw
  else if ty =? DHCP_REQUEST then recv_request m msg hw
  else if (ty =? DHCP_DECLINE) || (ty =? DHCP_RELEASE) then recv_release hw
  else mret ().

Lemma dhcps_recv_run m msg hw ci opts d : is_request msg hw ci opts → pcb_allocated d = true →
  dhcps_recv m msg msg d =
  dispatch m (u8 (default 0 (rx_type (decode opts)))) msg hw (set_rx (decode opts) (set_client_ip ci d)).
Proof.
  intros Hreq Hpcb. pose proof Hreq as (hdr&r&rest&Hmsg&Hlen&Hop&Hhw&Hci&Hr&Hv). unfold dhcps_recv. mstep. rewrite Hpcb. cbn [negb].
  assert (240 ≤ length msg)%nat as Hl by (rewrite Hmsg, !length_app, Hlen; simpl; lia).
  rewrite (proj2 (Z.ltb_ge _ _)) by (unfold DHCP_SNAME_OFS; lia).
  rewrite (bind_Ret _ _ d DHCP_BOOTREQUEST d).
  2: { unfold rd, lift_opt. change (Z.to_nat 0) with 0%nat. rewrite Hmsg, lookup_app_l by lia. by rewrite Hop. }
  change (negb (DHCP_BOOTREQUEST =? DHCP_BOOTREQUEST)) with false. cbv iota.
  rewrite bool_decide_false by tauto. rewrite bind_ret_l.
  rewrite (bind_Ret _ _ _ _ _ (rd_bytes_take msg 28 6 _ ltac:(lia))), (bind_Ret _ _ _ _ _ (parse_request_run _ _ _ _ _ Hreq)).
  change (negb (ERR_OK =? ERR_OK)) with false. cbv iota. rewrite (bind_Ret get _ _ _ _ eq_refl).
  replace (take 6 (drop 28 msg)) with hw; [done|].
  rewrite <-Hhw, Hmsg, drop_app_le by lia. rewrite take_app_le; [done|]. rewrite length_drop. lia.
Qed.

(** *** Replies *)

Definition reply_opts (ty : Z) (d : dhcps) : list (Z * list Z) :=
  [(DHCP_OPTION_MESSAGE_TYPE, [ty]); (DHCP_OPTION_SERVER_ID, be_bytes (server_ip d));
   (DHCP_OPTION_LEASE_TIME, be_bytes (u32 (lease_time d * 60)))] ++
  (if option_req_en d SUBNET_MASK_FLAGS then [(DHCP_OPTION_SUBNET_MASK, be_bytes 0xFFFFFF00)] else []) ++
  (if option_req_en d ROUTER_FLAGS && negb (gw_ip d =? 0) then [(DHCP_OPTION_ROUTER, be_bytes (gw_ip d))] else []) ++
  (if option_req_en d DNS_SERVER_FLAGS
   then [(DHCP_OPTION_DNS_SERVER, be_bytes (if negb (dns_ip d =? 0) then dns_ip d else server_ip d))] else []) ++
  (if option_req_en d BROADCAST_FLAGS then [(DHCP_OPTION_BROADCAST, be_bytes (Z.lor (server_ip d) 0x000000FF))] else []).

(** A datagram: header, options, END, padding to 308 bytes. *)
Definition datagram (msg : list Z) (d : dhcps) (opts : list (Z * list Z)) : list Z :=
  reply_header msg d ++ encode opts ++ DHCP_OPTION_END :: replicate (67 - length (encode opts)) 0.

Lemma pad_loop_run fuel out : (68 - length out ≤ fuel)%nat → (length out ≤ 68)%nat →
  pad_loop fuel out = out ++ replicate (68 - length out) 0.
Proof.
  revert out. induction fuel as [|fuel IH]; intros out Hf Hl.
  { replace (68 - length out)%nat with O by lia. by rewrite app_nil_r. }
  cbn [pad_loop]. unfold DHCP_MIN_OPTIONS_LEN, DHCP_OPTIONS_LEN. destruct (Z.ltb_spec (Z.of_nat (length out)) 68) as [Hlt|Hge].
  - cbn [orb andb]. rewrite IH by (rewrite length_app; simpl; lia). rewrite length_app, <-app_assoc. f_equal. simpl.
    replace (68 - length out)%nat with (S (68 - (length out + 1))) by lia. done.
  - rewrite andb_false_r. replace (68 - length out)%nat with O by lia. by rewrite app_nil_r.
Qed.

Lemma trailer_run opts : (length (encode opts) ≤ 67)%nat →
  add_option_trailer (encode opts) = encode opts ++ DHCP_OPTION_END :: replicate (67 - length (encode opts)) 0.
Proof.
  intros H. unfold add_option_trailer. rewrite pad_loop_run; rewrite ?length_app; simpl length; [|unfold DHCP_OPTIONS_LEN; lia|lia].
  rewrite <-app_assoc. f_equal. simpl. do 2 f_equal. lia.
Qed.

Lemma reply_opts_run ty d : add_reply_options (encode [(DHCP_OPTION_MESSAGE_TYPE, [ty])]) d = Ret (encode (reply_opts ty d), d).
Proof.
  unfold add_reply_options. mstep. unfold reply_opts.
  destruct (option_req_en d SUBNET_MASK_FLAGS), (option_req_en d ROUTER_FLAGS && negb (gw_ip d =? 0)),
    (option_req_en d DNS_SERVER_FLAGS), (option_req_en d BROADCAST_FLAGS); reflexivity.
Qed.

Lemma reply_opts_length ty d : (length (encode (reply_opts ty d)) ≤ 67)%nat.
Proof.
  unfold reply_opts.
  destruct (option_req_en d SUBNET_MASK_FLAGS), (option_req_en d ROUTER_FLAGS && negb (gw_ip d =? 0)),
    (option_req_en d DNS_SERVER_FLAGS), (option_req_en d BROADCAST_FLAGS); simpl; lia.
Qed.

Lemma reply_run (pbuf_ok : bool) msg ty d :
  dhcps_reply pbuf_ok msg ty d =
  if pbuf_ok then Ret (ERR_OK, add_sent (datagram msg d (reply_opts ty d)) d) else Ret (ERR_MEM, d).
Proof.
  unfold dhcps_reply, create_msg. destruct pbuf_ok; [|done]. cbn [negb]. rewrite bind_assoc. mstep.
  rewrite (bind_Ret _ _ d (Some (reply_header msg d, encode [(DHCP_OPTION_MESSAGE_TYPE, [ty])])) d) by reflexivity.
  rewrite (bind_Ret _ _ _ _ _ (reply_opts_run ty d)). rewrite trailer_run by apply reply_opts_length. done.
Qed.

Lemma nak_run (pbuf_ok : bool) msg d :
  dhcps_nak pbuf_ok msg d =
  if pbuf_ok then Ret (ERR_OK, add_sent (datagram msg d [(DHCP_OPTION_MESSAGE_TYPE, [DHCP_NAK])]) d) else Ret (ERR_MEM, d).
Proof. by destruct pbuf_ok. Qed.

End Messages.
