(* ===== verification/DhcpsLeases.v ===== *)
(** * The DHCP server: leases

    The lease board and the client lists keep the addresses apart, whatever
    messages come in and leases run out. *)

From stdpp Require Import base tactics numbers list sets.
From S2P Require Import Prelude Dhcps DhcpsTheorems.

(** ** The board *)

Section Board.
Context {CFG : DhcpsConfig} {OK : DhcpsConfigOk CFG}.

Definition BITS : Z := LEASE_BOARDS_BYTES * NBBY.

Lemma BITS_range : DHCPS_MAX_LEASE ≤ BITS ≤ 134.
Proof. pose proof max_lease_ok. unfold BITS, LEASE_BOARDS_BYTES, NBBY. zlia. Qed.

Lemma isclr_testbit b i : 0 ≤ i → isclr b i = negb (Z.testbit (b !!! Z.to_nat (i / 8)) (i mod 8)).
Proof. intros Hi. unfold isclr, NBBY. apply land_BIT_zero. apply Z.mod_pos_bound. lia. Qed.

Lemma byte_index i : 0 ≤ i < BITS → (Z.to_nat (i / 8) < Z.to_nat LEASE_BOARDS_BYTES)%nat.
Proof. unfold BITS, NBBY. intros Hi. pose proof (Z.div_lt_upper_bound i 8 LEASE_BOARDS_BYTES). zlia. Qed.

(** Changing bit [i] of a board leaves the others alone. *)
Lemma isclr_insert b i j v : 0 ≤ i → 0 ≤ j → (Z.to_nat (i / 8) < length b)%nat →
  isclr (<[Z.to_nat (i / 8) := v]> b) j =
  if decide (i / 8 = j / 8) then negb (Z.testbit v (j mod 8)) else isclr b j.
Proof.
  intros Hi Hj Hl. rewrite !isclr_testbit by done. destruct (decide (i / 8 = j / 8)) as [E|Hne].
  - rewrite <-E. by rewrite list_lookup_total_insert_eq.
  - rewrite list_lookup_total_insert_ne; [done|]. pose proof (Z.div_pos i 8). pose proof (Z.div_pos j 8). zlia.
Qed.

Lemma same_bit i j : 0 ≤ i → 0 ≤ j → i / 8 = j / 8 → (j mod 8 = i mod 8 ↔ j = i).
Proof. intros. split; [zlia|by intros ->]. Qed.

Lemma setbit_run i d : 0 ≤ i < BITS → length (boards d) = Z.to_nat LEASE_BOARDS_BYTES →
  ∃ b, setbit i d = Ret ((), set_boards b d) ∧ length b = Z.to_nat LEASE_BOARDS_BYTES ∧
    ∀ j, 0 ≤ j → isclr b j = isclr (boards d) j && negb (bool_decide (j = i)).
Proof.
  intros Hi Hl. pose proof (byte_index i Hi) as Hb. unfold setbit. mstep. unfold NBBY.
  destruct (lookup_lt_is_Some_2 (boards d) (Z.to_nat (i / 8))) as [v Hv]; [lia|]. rewrite Hv.
  rewrite (bind_Ret (lift_opt (Some v)) _ d v d eq_refl).
  eexists. split; [reflexivity|]. split; [by rewrite length_insert|]. intros j Hj.
  rewrite isclr_insert by lia. pose proof (Z.mod_pos_bound i 8). pose proof (Z.mod_pos_bound j 8).
  rewrite testbit_lor_BIT by lia. destruct (decide (i / 8 = j / 8)) as [E|E].
  - rewrite isclr_testbit, <-E by done. rewrite (list_lookup_total_correct _ _ _ Hv). rewrite negb_orb. f_equal. f_equal.
    apply bool_decide_ext, same_bit; [lia..|done].
  - rewrite bool_decide_false by (intros ->; done). by rewrite andb_true_r.
Qed.

Lemma clrbit_run i d : 0 ≤ i < BITS → length (boards d) = Z.to_nat LEASE_BOARDS_BYTES →
  ∃ b, clrbit i d = Ret ((), set_boards b d) ∧ length b = Z.to_nat LEASE_BOARDS_BYTES ∧
    ∀ j, 0 ≤ j → isclr b j = isclr (boards d) j || bool_decide (j = i).
Proof.
  intros Hi Hl. pose proof (byte_index i Hi) as Hb. unfold clrbit. mstep. unfold NBBY.
  destruct (lookup_lt_is_Some_2 (boards d) (Z.to_nat (i / 8))) as [v Hv]; [lia|]. rewrite Hv.
  rewrite (bind_Ret (lift_opt (Some v)) _ d v d eq_refl).
  eexists. split; [reflexivity|]. split; [by rewrite length_insert|]. intros j Hj.
  rewrite isclr_insert by lia. pose proof (Z.mod_pos_bound i 8). pose proof (Z.mod_pos_bound j 8).
  rewrite testbit_land_lnot_BIT by lia. destruct (decide (i / 8 = j / 8)) as [E|E].
  - rewrite isclr_testbit, <-E by done. rewrite (list_lookup_total_correct _ _ _ Hv). rewrite negb_andb, negb_involutive. f_equal.
    apply bool_decide_ext, same_bit; [lia..|done].
  - rewrite bool_decide_false by (intros ->; done). by rewrite orb_false_r.
Qed.

Lemma first_clear_spec b n i : let k := first_clear b n i in
  i ≤ k ≤ i + Z.of_nat n ∧ (k < i + Z.of_nat n → isclr b k = true) ∧ ∀ j, i ≤ j < k → isclr b j = false.
Proof.
  revert i. induction n as [|n IH]; intros i; cbn [first_clear]; [split_and!; lia|].
  destruct (isclr b i) eqn:E; [split_and!; [lia|lia|done|lia]|].
  destruct (IH (i + 1)) as (H1&H2&H3). split; [lia|]. split; [intros; apply H2; lia|].
  intros j Hj. destruct (Z.eq_dec j i) as [->|]; [done|]. apply H3. lia.
Qed.

(** ** Clients *)

Definition clients (d : dhcps) : list dhcps_client := offered d ++ bound d.

Record leases_ok (d : dhcps) : Prop := {
  lo_board : length (boards d) = Z.to_nat LEASE_BOARDS_BYTES;
  lo_range : 0 < start_ip d ≤ end_ip d ∧ end_ip d < 2 ^ 32 ∧ end_ip d < start_ip d + BITS;
  lo_server : ¬ (start_ip d ≤ server_ip d ≤ end_ip d);
  lo_addr c : c ∈ clients d → ipaddr c = 0 ∨
    start_ip d ≤ ipaddr c ≤ end_ip d ∧ isclr (boards d) (ipaddr c - start_ip d) = false;
  lo_unique c1 c2 : c1 ∈ clients d → c2 ∈ clients d → ipaddr c1 = ipaddr c2 → ipaddr c1 ≠ 0 → hwaddr c1 = hwaddr c2;
  lo_hw : NoDup (hwaddr <$> clients d);
}.

Lemma find_client_Some hw l c : find_client hw l = Some c → c ∈ l ∧ hwaddr c = hw.
Proof.
  induction l as [|x l IH]; simpl; [done|]. case_decide as E.
  - intros [= ->]. split; [by left|done].
  - intros H. destruct (IH H). split; [by right|done].
Qed.

Lemma find_client_None hw l : find_client hw l = None ↔ hw ∉ hwaddr <$> l.
Proof.
  induction l as [|x l IH]; simpl; [set_solver|]. case_decide as E.
  - split; [done|]. intros H. exfalso. apply H. unfold same_hw in E. rewrite E. by left.
  - rewrite IH. unfold same_hw in E. set_solver.
Qed.

Lemma del_client_elem hw l x : NoDup (hwaddr <$> l) → x ∈ del_client hw l ↔ x ∈ l ∧ hwaddr x ≠ hw.
Proof.
  induction l as [|c l IH]; simpl; intros Hnd; [set_solver|]. apply NoDup_cons in Hnd as [Hc Hnd].
  unfold same_hw. case_decide as E.
  - split.
    + intros Hx. split; [by right|]. intros E'. apply Hc. rewrite E, <-E'. by apply list_elem_of_fmap_2.
    + intros [[->|Hx]%elem_of_cons Hne]; [done|done].
  - rewrite !elem_of_cons, IH by done. naive_solver.
Qed.

Lemma del_client_hw hw l h : h ∈ hwaddr <$> del_client hw l → h ∈ hwaddr <$> l.
Proof. induction l as [|c l IH]; simpl; [done|]. case_decide; [by right|]. rewrite fmap_cons, !elem_of_cons. naive_solver. Qed.

Lemma del_client_nodup hw l : NoDup (hwaddr <$> l) → NoDup (hwaddr <$> del_client hw l).
Proof.
  induction l as [|c l IH]; simpl; intros Hnd; [done|]. apply NoDup_cons in Hnd as [Hc Hnd]. case_decide; [done|].
  rewrite fmap_cons. apply NoDup_cons. split; [|by apply IH]. intros Hin%del_client_hw. done.
Qed.

Lemma refill_client_hw hw t l : hwaddr <$> refill_client hw t l = hwaddr <$> l.
Proof. induction l as [|c l IH]; cbn [refill_client]; [done|]. case_decide; rewrite !fmap_cons; [done|]. by rewrite IH. Qed.

Lemma refill_client_elem hw t l x : x ∈ refill_client hw t l → ∃ y, y ∈ l ∧ ipaddr y = ipaddr x ∧ hwaddr y = hwaddr x.
Proof.
  induction l as [|c l IH]; simpl; [set_solver|]. case_decide.
  - intros [->|Hx]%elem_of_cons; [exists c|exists x]; (split; [set_solver|done]).
  - intros [->|Hx]%elem_of_cons; [exists c; split; [set_solver|done]|].
    destruct (IH Hx) as (y&?&?&?). exists y. split; [set_solver|done].
Qed.

(** The same clients with the same addresses, or fewer. *)
Lemma leases_keep d d' : leases_ok d →
  boards d' = boards d → start_ip d' = start_ip d → end_ip d' = end_ip d → server_ip d' = server_ip d →
  NoDup (hwaddr <$> clients d') →
  (∀ x, x ∈ clients d' → ∃ y, y ∈ clients d ∧ ipaddr y = ipaddr x ∧ hwaddr y = hwaddr x) → leases_ok d'.
Proof.
  intros [H1 H2 H3 H4 H5 H6] Eb Es Ee Esv Hnd Hx. split; rewrite ?Eb, ?Es, ?Ee, ?Esv; try done.
  - intros c Hc. destruct (Hx c Hc) as (y&Hy&<-&_). by apply H4.
  - intros c1 c2 Hc1 Hc2 E Hnz. destruct (Hx c1 Hc1) as (y1&Hy1&E1&<-). destruct (Hx c2 Hc2) as (y2&Hy2&E2&<-).
    apply H5; congruence.
Qed.

(** Clients go, and their bits are cleared. *)
Lemma leases_remove d d' (gone : list Z → Prop) : leases_ok d →
  length (boards d') = length (boards d) → start_ip d' = start_ip d → end_ip d' = end_ip d → server_ip d' = server_ip d →
  NoDup (hwaddr <$> clients d') →
  (∀ x, x ∈ clients d' → ∃ y, y ∈ clients d ∧ ipaddr y = ipaddr x ∧ hwaddr y = hwaddr x ∧ ¬ gone (hwaddr y)) →
  (∀ i, 0 ≤ i → (∀ y, y ∈ clients d → ipaddr y = start_ip d + i → ¬ gone (hwaddr y)) → isclr (boards d') i = isclr (boards d) i) →
  leases_ok d'.
Proof.
  intros [H1 H2 H3 H4 H5 H6] Eb Es Ee Esv Hnd Hx Hbit. split; rewrite ?Eb, ?Es, ?Ee, ?Esv; try done.
  - intros c Hc. destruct (Hx c Hc) as (y&Hy&<-&_&Hg). destruct (H4 y Hy) as [?|[? Hi]]; [by left|right]. split; [done|].
    rewrite Hbit; [done|lia|]. intros z Hz E. assert (hwaddr y = hwaddr z) as <- by (apply H5; [done|done|lia|lia]). done.
  - intros c1 c2 Hc1 Hc2 E Hnz. destruct (Hx c1 Hc1) as (y1&Hy1&E1&<-&_). destruct (Hx c2 Hc2) as (y2&Hy2&E2&<-&_).
    apply H5; congruence.
Qed.

(** The board is as long as the pool needs it. *)
Definition board_ok (d : dhcps) : Prop := length (boards d) = Z.to_nat LEASE_BOARDS_BYTES ∧
  0 < start_ip d ≤ end_ip d ∧ end_ip d < 2 ^ 32 ∧ end_ip d < start_ip d + BITS.

Lemma leases_board d : leases_ok d → board_ok d.
Proof. intros []. by split. Qed.

Lemma cancel_run ip d : board_ok d →
  ∃ b, cancel_lease ip d = Ret ((), set_boards b d) ∧ length b = length (boards d) ∧
    ∀ i, 0 ≤ i → start_ip d + i ≠ ip → isclr b i = isclr (boards d) i.
Proof.
  intros [H1 H2]. unfold cancel_lease. mstep. unfold is_valid.
  destruct (Z.leb_spec (start_ip d) ip), (Z.leb_spec ip (end_ip d)); simpl;
    try (exists (boards d); by destruct d).
  destruct (clrbit_run (u32 (ip - start_ip d)) d) as (b&Hrun&Hlen&Hb); [rewrite u32_id; lia|done|].
  exists b. split; [done|]. split; [lia|]. intros i Hi Hne. rewrite Hb by done. rewrite u32_id by lia.
  rewrite bool_decide_false by lia. by rewrite orb_false_r.
Qed.

(** *** Forgetting *)

Lemma clients_hw d : NoDup (hwaddr <$> clients d) →
  NoDup (hwaddr <$> offered d) ∧ NoDup (hwaddr <$> bound d) ∧ ∀ h, h ∈ hwaddr <$> offered d → h ∉ hwaddr <$> bound d.
Proof. unfold clients. rewrite fmap_app. intros (?&?&?)%NoDup_app. done. Qed.

Lemma forget_bound_run c d : leases_ok d → c ∈ bound d →
  ∃ b, forget_bound c d = Ret ((), set_bound (del_client (hwaddr c) (bound d)) (set_boards b d)) ∧
    leases_ok (set_bound (del_client (hwaddr c) (bound d)) (set_boards b d)) ∧
    (∀ i, 0 ≤ i → start_ip d + i ≠ ipaddr c → isclr b i = isclr (boards d) i).
Proof.
  intros Hok Hc. destruct (cancel_run (ipaddr c) d (leases_board d Hok)) as (b&Hrun&Hlen&Hb). unfold forget_bound.
  rewrite (bind_Ret _ _ _ _ _ Hrun). exists b. split; [done|]. split; [|done].
  destruct (clients_hw d (lo_hw _ Hok)) as (Hno&Hnb&Hdis).
  apply (leases_remove d _ (λ h, h = hwaddr c)); try done.
  - unfold clients. simpl. rewrite fmap_app. apply NoDup_app. split; [done|]. split; [|by apply del_client_nodup].
    intros h Ho Hd. by apply (Hdis h), del_client_hw with (hwaddr c).
  - intros x [Hx|Hx]%elem_of_app; simpl in Hx.
    + exists x. split_and!; [by apply elem_of_app; left|done|done|]. intros E. apply (Hdis (hwaddr x)).
      * by apply list_elem_of_fmap_2.
      * rewrite E. by apply list_elem_of_fmap_2.
    + apply del_client_elem in Hx as [Hx Hne]; [|done]. exists x. split_and!; [by apply elem_of_app; right|done..].
  - intros i Hi Hg. simpl. apply Hb; [done|]. intros E. apply (Hg c); [by apply elem_of_app; right|done|done].
Qed.

Lemma forget_offered_run c d : leases_ok d → c ∈ offered d →
  ∃ b, forget_offered c d = Ret ((), set_offered (del_client (hwaddr c) (offered d)) (set_boards b d)) ∧
    leases_ok (set_offered (del_client (hwaddr c) (offered d)) (set_boards b d)).
Proof.
  intros Hok Hc. destruct (cancel_run (ipaddr c) d (leases_board d Hok)) as (b&Hrun&Hlen&Hb). unfold forget_offered.
  rewrite (bind_Ret _ _ _ _ _ Hrun). exists b. split; [done|].
  destruct (clients_hw d (lo_hw _ Hok)) as (Hno&Hnb&Hdis).
  apply (leases_remove d _ (λ h, h = hwaddr c)); try done.
  - unfold clients. simpl. rewrite fmap_app. apply NoDup_app. split; [by apply del_client_nodup|]. split; [|done].
    intros h Hd%del_client_hw. by apply Hdis.
  - intros x [Hx|Hx]%elem_of_app; simpl in Hx.
    + apply del_client_elem in Hx as [Hx Hne]; [|done]. exists x. split_and!; [by apply elem_of_app; left|done..].
    + exists x. split_and!; [by apply elem_of_app; right|done|done|]. intros E. apply (Hdis (hwaddr x)).
      * rewrite E. by apply list_elem_of_fmap_2.
      * by apply list_elem_of_fmap_2.
  - intros i Hi Hg. simpl. apply Hb; [done|]. intros E. apply (Hg c); [by apply elem_of_app; left|done|done].
Qed.

(** *** Leasing *)

(** Address number [i] of the pool is free. *)
Definition free (d : dhcps) (i : Z) : Prop := 0 ≤ i ∧ start_ip d + i ≤ end_ip d ∧ isclr (boards d) i = true.

Lemma get_lease_run d : leases_ok d →
  (∃ i b, free d i ∧ (∀ j, 0 ≤ j < i → ¬ free d j) ∧ get_lease d = Ret (start_ip d + i, set_boards b d) ∧
     length b = Z.to_nat LEASE_BOARDS_BYTES ∧ ∀ j, 0 ≤ j → isclr b j = isclr (boards d) j && negb (bool_decide (j = i))) ∨
  ((∀ j, ¬ free d j) ∧ get_lease d = Ret (0, d)).
Proof.
  intros Hok. destruct Hok as [H1 (Hs&He&Hr) _ _ _ _]. unfold get_lease. mstep.
  pose proof BITS_range as HB.
  destruct (first_clear_spec (boards d) (Z.to_nat (LEASE_BOARDS_BYTES * NBBY)) 0) as (Hk&Hclr&Hbefore).
  set (k := first_clear _ _ _) in *. fold BITS in Hk, Hclr. rewrite Z2Nat.id in Hk, Hclr by lia.
  destruct (decide (start_ip d + k ≤ end_ip d)) as [Hin|Hout].
  - left. assert (isclr (boards d) k = true) as Hck by (apply Hclr; lia).
    destruct (setbit_run k d) as (b&Hrun&Hlen&Hb); [lia|done|].
    exists k, b. split; [split; [lia|done]|]. split; [intros j Hj (_&_&Hc); rewrite Hbefore in Hc; [done|lia]|].
    split; [|done]. rewrite u32_id by lia. unfold is_valid. rewrite (proj2 (Z.leb_le _ _)), (proj2 (Z.leb_le _ _)) by lia. simpl.
    unfold do_lease. rewrite bind_assoc. mstep. replace (u32 (start_ip d + k - start_ip d)) with k by (rewrite u32_id; lia).
    by rewrite (bind_Ret _ _ _ _ _ Hrun).
  - right. split.
    + intros j (?&?&Hc). rewrite Hbefore in Hc; [done|lia].
    + assert (is_valid (start_ip d) (u32 (start_ip d + k)) (end_ip d) = false) as ->; [|done].
      unfold is_valid. apply andb_false_iff. rewrite !Z.leb_gt. destruct (decide (start_ip d + k < 2 ^ 32)).
      * right. rewrite u32_id; lia.
      * left. unfold u32. zlia.
Qed.

(** A client is added to the offered ones. *)
Lemma leases_add d hw ip t b : leases_ok d → hw ∉ hwaddr <$> clients d → length b = Z.to_nat LEASE_BOARDS_BYTES →
  (ip = 0 ∧ b = boards d ∨ ∃ i, free d i ∧ ip = start_ip d + i ∧
     ∀ j, 0 ≤ j → isclr b j = isclr (boards d) j && negb (bool_decide (j = i))) →
  leases_ok (set_offered (offered d ++ [Client ip hw t]) (set_boards b d)).
Proof.
  intros [H1 H2 H3 H4 H5 H6] Hhw Hlen Hip.
  assert (∀ x, x ∈ clients (set_offered (offered d ++ [Client ip hw t]) (set_boards b d)) ↔ x ∈ clients d ∨ x = Client ip hw t) as Hx.
  { intros x. unfold clients. simpl. rewrite !elem_of_app, list_elem_of_singleton. tauto. }
  assert (∀ x, x ∈ clients d → ipaddr x = ip → ip = 0) as Hnew.
  { intros x Hin E. destruct Hip as [[-> _]|(i&(?&?&Hc)&->&_)]; [done|]. destruct (H4 x Hin) as [?|[? Hf]]; [lia|].
    rewrite E in Hf. replace (start_ip d + i - start_ip d) with i in Hf by lia. congruence. }
  split; [done|done|done| | |].
  - intros c Hc%Hx. simpl. destruct Hc as [Hc| ->]; simpl.
    + destruct (H4 c Hc) as [?|[? Hf]]; [by left|right]. split; [done|].
      destruct Hip as [[_ ->]|(i&_&_&Hb)]; [done|]. rewrite Hb by lia. by rewrite Hf.
    + destruct Hip as [[-> _]|(i&(?&?&?)&->&Hb)]; [by left|right]. split; [lia|]. rewrite Hb by lia.
      replace (start_ip d + i - start_ip d) with i by lia. by rewrite bool_decide_true, andb_false_r.
  - intros c1 c2 Hc1%Hx Hc2%Hx E Hnz. destruct Hc1 as [Hc1| ->], Hc2 as [Hc2| ->]; simpl in *; [by apply H5| | |done].
    + exfalso. apply Hnz. rewrite E. by apply (Hnew c1).
    + exfalso. apply Hnz. by apply (Hnew c2).
  - unfold clients in *. simpl. rewrite !fmap_app in *. apply NoDup_app in H6 as (Ho&Hd&Hb). simpl.
    apply NoDup_app. split; [apply NoDup_app; split; [done|split; [|apply NoDup_singleton]]|split; [|done]].
    + intros h Hh ->%list_elem_of_singleton. apply Hhw, elem_of_app. by left.
    + intros h [Hh| ->%list_elem_of_singleton]%elem_of_app; [by apply Hd|]. intros Hin. apply Hhw, elem_of_app. by right.
Qed.

(** *** Handlers *)

Lemma leases_same d d' : leases_ok d → boards d' = boards d → start_ip d' = start_ip d → end_ip d' = end_ip d →
  server_ip d' = server_ip d → offered d' = offered d → bound d' = bound d → leases_ok d'.
Proof.
  intros Hok Eb Es Ee Esv Eo Ebd. apply (leases_keep d d' Hok); try done; unfold clients; rewrite Eo, Ebd.
  - apply Hok.
  - intros x Hx. by exists x.
Qed.

Lemma reply_leases pbuf_ok msg ty d : leases_ok d → ∃ r d', dhcps_reply pbuf_ok msg ty d = Ret (r, d') ∧ leases_ok d'.
Proof. intros Hok. rewrite reply_run. destruct pbuf_ok; eexists _, _; (split; [reflexivity|]); [|done]. by apply (leases_same d). Qed.

Lemma nak_leases pbuf_ok msg d : leases_ok d → ∃ r d', dhcps_nak pbuf_ok msg d = Ret (r, d') ∧ leases_ok d'.
Proof. intros Hok. rewrite nak_run. destruct pbuf_ok; eexists _, _; (split; [reflexivity|]); [|done]. by apply (leases_same d). Qed.

(** The end of DISCOVER. *)
Lemma discover_end pbuf_ok msg (ip : Z) d : leases_ok d →
  ∃ d', (modify (set_your_ip ip);; if ip =? 0 then mret () else dhcps_offer pbuf_ok msg;; mret ()) d = Ret ((), d') ∧ leases_ok d'.
Proof.
  intros Hok. rewrite (bind_Ret (modify _) _ _ _ _ eq_refl).
  assert (leases_ok (set_your_ip ip d)) as Hok' by (by apply (leases_same d)). destruct (ip =? 0); [by eexists|].
  destruct (reply_leases pbuf_ok msg DHCP_OFFER _ Hok') as (r&d'&Hrun&?). unfold dhcps_offer.
  rewrite (bind_Ret _ _ _ _ _ Hrun). by exists d'.
Qed.

Lemma offer_run (mem_ok : bool) hw ip d :
  offer mem_ok hw ip d = Ret ((), if mem_ok then set_offered (offered d ++ [Client ip hw (lease_time d)]) d else d).
Proof. by destruct mem_ok. Qed.

(** A DISCOVER as the standard has it, with an empty [ciaddr]. *)
Lemma discover_leases m msg hw d : leases_ok d → client_ip d = 0 →
  ∃ d', recv_discover m msg hw d = Ret ((), d') ∧ leases_ok d'.
Proof.
  intros Hok Hci. unfold recv_discover. mstep.
  assert (∃ d1, (match is_bound hw d with Some cl => forget_bound cl | None => mret () end) d = Ret ((), d1) ∧
    leases_ok d1 ∧ client_ip d1 = 0 ∧ hw ∉ hwaddr <$> bound d1) as (d1&Hrun1&Hok1&Hci1&Hnb).
  { unfold is_bound. destruct (find_client hw (bound d)) as [cl|] eqn:Hf.
    - apply find_client_Some in Hf as [Hin <-]. destruct (forget_bound_run cl d Hok Hin) as (b&Hrun&Hok1&_).
      eexists. split; [exact Hrun|]. split; [done|]. split; [done|]. simpl. rewrite list_elem_of_fmap.
      intros (x&E&Hx). apply del_client_elem in Hx as [_ Hne]; [by apply Hne|]. apply (clients_hw d), Hok.
    - exists d. split; [done|]. split; [done|]. split; [done|]. by apply find_client_None. }
  rewrite (bind_Ret _ _ _ _ _ Hrun1), (bind_Ret get _ _ _ _ eq_refl). clear Hrun1.
  destruct (is_offered hw d1) as [cl|] eqn:Hf; unfold is_offered in Hf.
  { rewrite bind_ret_l. by apply discover_end. }
  assert (hw ∉ hwaddr <$> clients d1) as Hnew.
  { unfold clients. rewrite fmap_app, elem_of_app. apply find_client_None in Hf. tauto. }
  rewrite Hci1. change (negb (0 =? 0)) with false. cbv iota. rewrite bind_assoc.
  destruct (get_lease_run d1 Hok1) as [(i&b&Hfree&_&Hrun&Hlen&Hb)|[Hnone Hrun]];
    rewrite (bind_Ret _ _ _ _ _ Hrun), bind_assoc, (bind_Ret _ _ _ _ _ (offer_run _ _ _ _)), bind_ret_l; apply discover_end.
  - assert (leases_ok (set_boards b d1)) as Hokb.
    { pose proof (leases_add d1 hw (start_ip d1 + i) 0 b Hok1 Hnew Hlen (or_intror (ex_intro _ i (conj Hfree (conj eq_refl Hb))))) as Ha.
      apply (leases_keep _ (set_boards b d1)) in Ha; [done|done..|apply Hok1|].
      intros x Hx. exists x. split; [|done]. unfold clients in *. simpl in *. rewrite !elem_of_app in *. tauto. }
    destruct (mem_client m); [|done].
    apply (leases_add d1 hw (start_ip d1 + i) (lease_time d1) b); [done..|]. right. by exists i.
  - destruct (mem_client m); [|done].
    pose proof (leases_add d1 hw 0 (lease_time d1) (boards d1) Hok1 Hnew (lo_board _ Hok1) (or_introl (conj eq_refl eq_refl))) as Ha.
    by destruct d1.
Qed.

Lemma request_leases m msg hw d : leases_ok d → ∃ d', recv_request m msg hw d = Ret ((), d') ∧ leases_ok d'.
Proof.
  intros Hok. unfold recv_request. mstep.
  assert (∀ d0, leases_ok d0 → ∃ d', (dhcps_nak (mem_pbuf m) msg;; mret ()) d0 = Ret ((), d') ∧ leases_ok d') as Hnak.
  { intros d0 Hok0. destruct (nak_leases (mem_pbuf m) msg d0 Hok0) as (r&d'&Hrun&?). rewrite (bind_Ret _ _ _ _ _ Hrun). by exists d'. }
  assert (∀ d0, leases_ok d0 → ∃ d', (dhcps_ack (mem_pbuf m) msg;; mret ()) d0 = Ret ((), d') ∧ leases_ok d') as Hack.
  { intros d0 Hok0. destruct (reply_leases (mem_pbuf m) msg DHCP_ACK d0 Hok0) as (r&d'&Hrun&?). unfold dhcps_ack.
    rewrite (bind_Ret _ _ _ _ _ Hrun). by exists d'. }
  destruct (clients_hw d (lo_hw _ Hok)) as (Hno&Hnb&Hdis).
  destruct (is_offered hw d) as [cl|] eqn:Hf; unfold is_offered in Hf.
  - case_match; [by apply Hnak|]. rewrite (bind_Ret (modify _) _ _ _ _ eq_refl), (bind_Ret (_bind _) _ _ _ _ eq_refl). apply Hack.
    apply find_client_Some in Hf as [Hin Hhw]. apply (leases_keep d); try done; unfold clients; simpl.
    + rewrite fmap_app, fmap_app. simpl. apply NoDup_app. split; [by apply del_client_nodup|]. split.
      * intros h Hh [Hb|E%list_elem_of_singleton]%elem_of_app; [by apply (Hdis h); [apply del_client_hw in Hh|]|].
        subst h. apply list_elem_of_fmap in Hh as (x&E&Hx). apply del_client_elem in Hx as [_ Hne]; [by apply Hne|done].
      * apply NoDup_app. split; [done|]. split; [|apply NoDup_singleton]. intros h Hh ->%list_elem_of_singleton.
        apply (Hdis (hwaddr cl)); [by apply list_elem_of_fmap_2|done].
    + intros x Hx. exists x. split; [|done]. rewrite !elem_of_app, list_elem_of_singleton in *.
      destruct Hx as [Hx|[Hx| ->]]; [left|by right|by left]. by apply del_client_elem in Hx as [? _].
  - destruct (is_bound hw d) as [cl|] eqn:Hfb; [|by apply Hnak]. case_match; [|by apply Hnak].
    unfold refill. rewrite (bind_Ret (modify _) _ _ _ _ eq_refl). apply Hack.
    apply (leases_keep d); try done; unfold clients; simpl.
    + rewrite fmap_app, refill_client_hw, <-fmap_app. apply Hok.
    + intros x [Hx|Hx]%elem_of_app; [exists x; split; [apply elem_of_app; by left|done]|].
      apply refill_client_elem in Hx as (y&?&?&?). exists y. split; [apply elem_of_app; by right|done].
Qed.

Lemma release_leases hw d : leases_ok d → ∃ d', recv_release hw d = Ret ((), d') ∧ leases_ok d'.
Proof.
  intros Hok. unfold recv_release. mstep. unfold is_offered, is_bound.
  destruct (find_client hw (offered d)) as [cl|] eqn:Hf.
  - apply find_client_Some in Hf as [Hin _]. destruct (forget_offered_run cl d Hok Hin) as (b&?&?). by eexists.
  - destruct (find_client hw (bound d)) as [cl|] eqn:Hfb; [|by eexists].
    apply find_client_Some in Hfb as [Hin _]. destruct (forget_bound_run cl d Hok Hin) as (b&?&?&_). by eexists.
Qed.

(** *** Any message

    Reading a message changes only what is remembered of it. *)

Lemma rd_frame msg i d x d' : rd msg i d = Ret (x, d') → d' = d.
Proof. unfold rd, lift_opt. case_match; [by intros [= _ ->]|done]. Qed.

Lemma rd_bytes_frame msg i n d v d' : rd_bytes msg i n d = Ret (v, d') → d' = d.
Proof.
  revert i d v d'. induction n as [|n IH]; intros i d v d'; cbn [rd_bytes]; [by intros [= _ <-]|].
  intros (b&d1&H1&H2)%bind_Ret_inv. apply rd_frame in H1 as ->. apply bind_Ret_inv in H2 as (r&d2&H2&H3).
  apply IH in H2 as ->. by injection H3 as _ <-.
Qed.

Lemma option_value_frame msg ofs len d v d' : option_value msg ofs len d = Ret (v, d') → d' = d.
Proof.
  unfold option_value. case_match; [done|]. intros (b&d1&H1&H2)%bind_Ret_inv. apply rd_bytes_frame in H1 as ->.
  repeat case_match; by injection H2 as _ <-.
Qed.

Lemma parse_options_frame fuel msg ofs end_ d r d' : parse_options fuel msg ofs end_ d = Ret (r, d') → ∃ o, d' = set_rx o d.
Proof.
  assert (∀ d : dhcps, ∃ o, d = set_rx o d) as Hid by (intros [] ; eexists; reflexivity).
  revert ofs end_ d. induction fuel as [|fuel IH]; intros ofs end_ d; cbn [parse_options]; [done|].
  case_match; [|intros [= _ <-]; apply Hid].
  intros (op&d1&H1&H2)%bind_Ret_inv. apply rd_frame in H1 as ->.
  apply bind_Ret_inv in H2 as (len&d2&H2&H3). apply rd_frame in H2 as ->. cbv zeta in H3.
  assert (∀ o d0 d1, d1 = set_rx o d0 → ∀ o', set_rx o' d1 = set_rx o' d0) as Hset by (by intros o d0 d1 ->).
  destruct ((op =? DHCP_OPTION_MESSAGE_TYPE) || (op =? DHCP_OPTION_REQUESTED_IP)).
  - rewrite (bind_Ret get _ _ _ _ eq_refl) in H3. case_match; [by apply IH in H3|].
    apply bind_Ret_inv in H3 as (v&d3&H3&H4). apply option_value_frame in H3 as ->.
    destruct v as [v|]; [|injection H4 as _ <-; apply Hid]. rewrite (bind_Ret (modify _) _ _ _ _ eq_refl) in H4.
    apply IH in H4 as [o ->]. by exists o.
  - destruct (op =? DHCP_OPTION_PARAMETER_REQUEST_LIST).
    + apply bind_Ret_inv in H3 as (v&d3&H3&H4). apply rd_bytes_frame in H3 as ->.
      rewrite (bind_Ret (modify _) _ _ _ _ eq_refl) in H4. apply IH in H4 as [o ->]. by exists o.
    + case_match; by apply IH in H3.
Qed.

Lemma parse_request_frame msg len d r d' : dhcps_parse_request msg len d = Ret (r, d') → leases_ok d → leases_ok d'.
Proof.
  unfold dhcps_parse_request. rewrite (bind_Ret (modify _) _ _ _ _ eq_refl).
  intros (c&d1&H1&H2)%bind_Ret_inv Hok. apply rd_bytes_frame in H1 as ->.
  assert (leases_ok (set_rx (RxOptions None None None) d)) as Hok1 by (by apply (leases_same d)).
  case_match; [by injection H2 as _ <-|]. apply bind_Ret_inv in H2 as (ci&d2&H2&H3). apply rd_bytes_frame in H2 as ->.
  rewrite (bind_Ret (modify _) _ _ _ _ eq_refl) in H3. apply parse_options_frame in H3 as [o ->]. by apply (leases_same d).
Qed.

(** A DISCOVER comes with an empty [ciaddr]. *)
Definition discover_ok (req : list Z) : Prop := ∀ d len d', dhcps_parse_request req len d = Ret (ERR_OK, d') →
  u8 (default 0 (rx_type (rx d'))) = DHCP_DISCOVER → client_ip d' = 0.

Lemma discover_ok_zero req : (16 ≤ length req)%nat → be32 (take 4 (drop 12 req)) = 0 → discover_ok req.
Proof.
  intros Hlen Hz d len d' Hrun _. unfold dhcps_parse_request in Hrun. rewrite (bind_Ret (modify _) _ _ _ _ eq_refl) in Hrun.
  apply bind_Ret_inv in Hrun as (c&d1&H1&Hrun). apply rd_bytes_frame in H1 as ->. case_match; [done|].
  rewrite (bind_Ret _ _ _ _ _ (rd_bytes_take req 12 4 _ Hlen)), (bind_Ret (modify _) _ _ _ _ eq_refl), Hz in Hrun.
  by apply parse_options_frame in Hrun as [o ->].
Qed.

Lemma recv_leases m payload all d d' : leases_ok d → dhcps_recv m payload all d = Ret ((), d') →
  discover_ok payload → discover_ok all → leases_ok d'.
Proof.
  intros Hok Hrun Hd1 Hd2. unfold dhcps_recv in Hrun. rewrite (bind_Ret get _ _ _ _ eq_refl) in Hrun.
  case_match; [by injection Hrun as <-|]. case_match; [by injection Hrun as <-|].
  apply bind_Ret_inv in Hrun as (op&d1&H1&Hrun). apply rd_frame in H1 as ->.
  case_match; [by injection Hrun as <-|].
  apply bind_Ret_inv in Hrun as (req&d2&H2&Hrun).
  assert (leases_ok d2 ∧ ∀ r, req = Some r → discover_ok r) as [Hok2 Hreq].
  { destruct (bool_decide (length all ≠ length payload)).
    - destruct (mem_copy m); cbn [negb] in H2; [|injection H2 as <- <-; by split].
      destruct (Z.of_nat (length all) >? DHCP_MSG_SIZE); [done|].
      rewrite (bind_Ret (modify _) _ _ _ _ eq_refl) in H2. injection H2 as <- <-.
      split; [by apply (leases_same d)|by intros r [= <-]].
    - injection H2 as <- <-. split; [done|by intros r [= <-]]. }
  destruct req as [req|]; [|by injection Hrun as <-]. specialize (Hreq req eq_refl).
  apply bind_Ret_inv in Hrun as (hw&d3&H3&Hrun). apply rd_bytes_frame in H3 as ->.
  apply bind_Ret_inv in Hrun as (r&d4&H4&Hrun). pose proof (parse_request_frame _ _ _ _ _ H4 Hok2) as Hok4.
  destruct (Z.eqb_spec r ERR_OK) as [->|]; [|by injection Hrun as <-]. cbn [negb] in Hrun.
  rewrite (bind_Ret get _ _ _ _ eq_refl) in Hrun. cbv zeta in Hrun.
  destruct (Z.eqb_spec (u8 (default 0 (rx_type (rx d4)))) DHCP_DISCOVER) as [E|E].
  { destruct (discover_leases m req hw d4 Hok4 (Hreq _ _ _ H4 E)) as (d5&Hr&?). rewrite Hr in Hrun. by injection Hrun as <-. }
  case_match.
  { destruct (request_leases m req hw d4 Hok4) as (d5&Hr&?). rewrite Hr in Hrun. by injection Hrun as <-. }
  case_match; [|by injection Hrun as <-].
  destruct (release_leases hw d4 Hok4) as (d5&Hr&?). rewrite Hr in Hrun. by injection Hrun as <-.
Qed.

(** *** Time and control *)

(** The loop of the coarse timer: who stays, and which bits are kept. *)
Lemma coarse_run l d : board_ok d → NoDup (hwaddr <$> l) →
  ∃ r b, coarse_loop l d = Ret (r, set_boards b d) ∧ length b = length (boards d) ∧
    (hwaddr <$> r) `sublist_of` (hwaddr <$> l) ∧
    (∀ x, x ∈ r → ∃ y, y ∈ l ∧ ipaddr y = ipaddr x ∧ hwaddr y = hwaddr x) ∧
    (∀ i, 0 ≤ i → (∀ y, y ∈ l → ipaddr y = start_ip d + i → hwaddr y ∈ hwaddr <$> r) → isclr b i = isclr (boards d) i).
Proof.
  revert d. induction l as [|c l IH]; intros d Hok Hnd; cbn [coarse_loop].
  { exists [], (boards d). split; [by destruct d|]. split; [done|]. split; [done|]. split; [set_solver|done]. }
  rewrite fmap_cons in *. apply NoDup_cons in Hnd as [Hc Hnd]. cbv zeta.
  set (t := if cl_lease_time c >? 0 then cl_lease_time c - 1 else cl_lease_time c). destruct (t =? 0).
  - destruct (cancel_run (ipaddr c) d Hok) as (b1&Hrun1&Hlen1&Hb1). rewrite (bind_Ret _ _ _ _ _ Hrun1).
    destruct (IH (set_boards b1 d)) as (r&b&Hrun&Hlen&Hsub&Hx&Hb); [destruct Hok; split; [simpl; lia|done]|done|].
    exists r, b. split; [exact Hrun|]. split; [simpl in Hlen; lia|]. split; [by apply sublist_cons|]. split.
    + intros x H. destruct (Hx x H) as (y&?&?&?). exists y. split; [by right|done].
    + intros i Hi Hy. rewrite Hb by (done || intros y Hin; apply Hy; by right). simpl. apply Hb1; [done|]. intros E.
      apply Hc. eapply sublist_subseteq; [exact Hsub|]. apply Hy; [by left|done].
  - destruct (IH d Hok Hnd) as (r&b&Hrun&Hlen&Hsub&Hx&Hb). rewrite (bind_Ret _ _ _ _ _ Hrun).
    exists (Client (ipaddr c) (hwaddr c) t :: r), b. split; [done|]. split; [done|]. rewrite fmap_cons. simpl.
    split; [by apply sublist_skip|]. split.
    + intros x [->|H]%elem_of_cons; [exists c; split; [by left|done]|]. destruct (Hx x H) as (y&?&?&?).
      exists y. split; [by right|done].
    + intros i Hi Hy. apply Hb; [done|]. intros y Hin E.
      destruct (proj1 (elem_of_cons _ _ _) (Hy y (list_elem_of_further _ _ _ Hin) E)) as [E'|]; [|done].
      exfalso. apply Hc. rewrite <-E'. by apply list_elem_of_fmap_2.
Qed.

Lemma timer_leases d : leases_ok d → ∃ d', dhcps_do_coarse_tmr d = Ret ((), d') ∧ leases_ok d'.
Proof.
  intros Hok. destruct (clients_hw d (lo_hw _ Hok)) as (Hno&Hnb&Hdis).
  destruct (coarse_run (bound d) d (leases_board d Hok) Hnb) as (r&b&Hrun&Hlen&Hsub&Hx&Hb).
  unfold dhcps_do_coarse_tmr. mstep. rewrite (bind_Ret _ _ _ _ _ Hrun). eexists. split; [reflexivity|].
  assert (∀ h, h ∈ hwaddr <$> r → h ∈ hwaddr <$> bound d) as Hin by (intros h; by apply sublist_subseteq).
  apply (leases_remove d _ (λ h, h ∈ hwaddr <$> bound d ∧ h ∉ hwaddr <$> r)); try done.
  - unfold clients. simpl. rewrite fmap_app. apply NoDup_app. split; [done|]. split; [naive_solver|].
    by eapply sublist_NoDup.
  - intros x [Hxo|Hxr]%elem_of_app; simpl in *.
    + exists x. split_and!; [by apply elem_of_app; left|done|done|]. intros [? _]. apply (Hdis (hwaddr x)); [|done].
      by apply list_elem_of_fmap_2.
    + destruct (Hx x Hxr) as (y&Hy&Ei&Eh). exists y. split_and!; [by apply elem_of_app; right|done|done|].
      intros [_ Hn]. apply Hn. rewrite Eh. by apply list_elem_of_fmap_2.
  - intros i Hi Hg. apply Hb; [done|]. intros y Hy E. apply dec_stable. intros Hn.
    apply (Hg y); [by apply elem_of_app; right|done|]. split; [by apply list_elem_of_fmap_2|done].
Qed.

(** The pool that [dhcps_start] sets up: next to the server's address, in the
    same class C net. *)
Lemma net_part ip : 0 ≤ ip < 2 ^ 32 → Z.land ip 0xFFFFFF00 = ip - ip mod 256.
Proof.
  intros Hip. change 0xFFFFFF00 with (Z.land (2 ^ 32 - 1) (Z.lnot (2 ^ 8 - 1))).
  rewrite Z.land_assoc, land_mask, Z.mod_small by lia. by rewrite land_lnot_mask.
Qed.

Lemma net_host ip h : 0 ≤ ip → 0 ≤ h < 256 → Z.lor (ip - ip mod 256) h = ip - ip mod 256 + h.
Proof.
  intros Hip Hh. replace (ip - ip mod 256) with (Z.shiftl (ip / 256) 8).
  - rewrite lor_shiftl_add by lia. rewrite Z.shiftl_mul_pow2 by lia. done.
  - rewrite Z.shiftl_mul_pow2 by lia. zlia.
Qed.

Lemma dhcps_start_run ip gw d : 0 < ip < 2 ^ 32 →
  ∃ d', dhcps_start true ip gw d = Ret (ERR_OK, d') ∧ clients d' = clients d ∧ boards d' = boards d ∧ server_ip d' = ip ∧
    pcb_allocated d' = true ∧ lease_time d' = lease_time d ∧ sent d' = sent d ∧
    0 < start_ip d' ∧ end_ip d' = start_ip d' + DHCPS_MAX_LEASE - 1 ∧ end_ip d' < 2 ^ 32 ∧ ¬ (start_ip d' ≤ ip ≤ end_ip d') ∧
    start_ip d' / 256 = ip / 256 ∧ end_ip d' / 256 = ip / 256.
Proof.
  intros Hip. unfold dhcps_start. cbn [negb]. rewrite (bind_Ret (modify _) _ _ _ _ eq_refl).
  rewrite (proj2 (Z.eqb_neq _ _)) by lia. rewrite (bind_Ret (modify _) _ _ _ _ eq_refl). cbv zeta.
  rewrite net_part by lia. replace (Z.land ip 255) with (ip mod 256) by (symmetry; apply (land_mask ip 8); lia).
  pose proof (Z.mod_pos_bound ip 256 ltac:(lia)) as Hm. pose proof max_lease_ok as Hmax.
  set (h := if ip mod 256 >=? 0x80 then u32 (ip mod 256 - DHCPS_MAX_LEASE) else ip mod 256 + 1).
  assert (h = if ip mod 256 >=? 0x80 then ip mod 256 - DHCPS_MAX_LEASE else ip mod 256 + 1) as Hh.
  { unfold h. rewrite Z.geb_leb. destruct (Z.leb_spec 128 (ip mod 256)); [|done]. apply u32_id. lia. }
  rewrite Z.geb_leb in Hh. clearbody h.
  assert (0 < h ∧ h + DHCPS_MAX_LEASE - 1 ≤ 254 ∧ (h = ip mod 256 - DHCPS_MAX_LEASE ∨ h = ip mod 256 + 1)) as (Hh1&Hh2&Hh3).
  { destruct (Z.leb_spec 128 (ip mod 256)); lia. }
  rewrite net_host by lia. unfold mbind, M_bind. simpl. eexists. split; [reflexivity|]. simpl.
  rewrite u32_id by zlia. split_and!; try done; zlia.
Qed.

Lemma forget_all_run l d : board_ok d → ∃ b, forget_all l d = Ret ((), set_boards b d) ∧ length b = length (boards d).
Proof.
  revert d. induction l as [|c l IH]; intros d Hok; cbn [forget_all]; [exists (boards d); by destruct d|].
  destruct (cancel_run (ipaddr c) d Hok) as (b1&Hrun1&Hlen1&_). rewrite (bind_Ret _ _ _ _ _ Hrun1).
  destruct (IH (set_boards b1 d)) as (b&Hrun&Hlen); [destruct Hok; split; [simpl; lia|done]|].
  exists b. split; [exact Hrun|]. simpl in Hlen. lia.
Qed.

Lemma leases_empty d : clients d = [] → board_ok d → ¬ (start_ip d ≤ server_ip d ≤ end_ip d) → leases_ok d.
Proof.
  intros Hc [H1 H2] H3. split; try done; rewrite Hc; [set_solver|set_solver|apply NoDup_nil_2].
Qed.

Lemma configure_leases s e t d : leases_ok d → 0 < s ≤ e → e < 2 ^ 32 → e < s + BITS → ¬ (s ≤ server_ip d ≤ e) →
  ∃ d', dhcps_configure s e t d = Ret (ERR_OK, d') ∧ leases_ok d' ∧ clients d' = [].
Proof.
  intros Hok Hs He Hr Hsv. unfold dhcps_configure, cancel_all_leases. rewrite (bind_Ret (modify _) _ _ _ _ eq_refl).
  set (d1 := set_boards _ d). assert (board_ok d1) as Hb1.
  { destruct (leases_board d Hok) as [_ ?]. split; [simpl; by rewrite length_replicate|done]. }
  rewrite (bind_Ret get _ _ _ _ eq_refl). destruct (forget_all_run (offered d1) d1 Hb1) as (b2&Hrun2&Hl2).
  rewrite (bind_Ret _ _ _ _ _ Hrun2), (bind_Ret (modify _) _ _ _ _ eq_refl), (bind_Ret get _ _ _ _ eq_refl).
  set (d2 := set_offered [] (set_boards b2 d1)). assert (board_ok d2) as Hb2 by (destruct Hb1; split; [simpl in *; lia|done]).
  destruct (forget_all_run (bound d2) d2 Hb2) as (b3&Hrun3&Hl3).
  rewrite (bind_Ret _ _ _ _ _ Hrun3), (bind_Ret (modify _) _ _ _ _ eq_refl), (bind_Ret (modify _) _ _ _ _ eq_refl).
  eexists. split; [reflexivity|]. split; [|done]. apply leases_empty; [done| |done]. split; [|done].
  simpl. rewrite Hl3. apply Hb2.
Qed.

(** ** Properties *)

(** What can happen to a server: starting it, messages of any content that
    are handled to the end, where a DISCOVER has an empty [ciaddr], time, DNS
    settings, stopping, starting again with the same pool or without clients,
    and a new configuration with a pool that fits the board. *)
Inductive reach : dhcps → Prop :=
| reach_start ip gw d' : 0 < ip < 2 ^ 32 → dhcps_start true ip gw dhcps_create = Ret (ERR_OK, d') → reach d'
| reach_recv m payload all d d' : reach d → discover_ok payload → discover_ok all →
    dhcps_recv m payload all d = Ret ((), d') → reach d'
| reach_timer d d' : reach d → dhcps_do_coarse_tmr d = Ret ((), d') → reach d'
| reach_dns o d r d' : reach d → dhcps_setdns o d = Ret (r, d') → reach d'
| reach_stop d r d' : reach d → dhcps_stop d = Ret (r, d') → reach d'
| reach_restart ip gw d d' : reach d → 0 < ip < 2 ^ 32 → dhcps_start true ip gw d = Ret (ERR_OK, d') →
    clients d = [] ∨ start_ip d' = start_ip d ∧ end_ip d' = end_ip d → reach d'
| reach_configure s e t d d' : reach d → 0 < s ≤ e → e < 2 ^ 32 → e < s + BITS → ¬ (s ≤ server_ip d ≤ e) →
    dhcps_configure s e t d = Ret (ERR_OK, d') → reach d'.

Lemma start_board ip gw d d' : 0 < ip < 2 ^ 32 → length (boards d) = Z.to_nat LEASE_BOARDS_BYTES →
  dhcps_start true ip gw d = Ret (ERR_OK, d') →
  clients d' = clients d ∧ boards d' = boards d ∧ board_ok d' ∧ ¬ (start_ip d' ≤ server_ip d' ≤ end_ip d').
Proof.
  intros Hip Hlen Hrun. destruct (dhcps_start_run ip gw d Hip) as (d2&Hrun2&Hc&Hb&Hsv&_&_&_&H1&H2&H3&H4&_).
  rewrite Hrun in Hrun2. injection Hrun2 as <-. rewrite Hsv. split_and!; try done.
  pose proof max_lease_ok. pose proof BITS_range. split; [by rewrite Hb|]. lia.
Qed.

Lemma reach_leases d : reach d → leases_ok d.
Proof.
  induction 1 as [ip gw d' Hip Hrun|m payload all d d' _ Hok Hd1 Hd2 Hrun|d d' _ Hok Hrun|o d r d' _ Hok Hrun|d r d' _ Hok Hrun
    |ip gw d d' _ Hok Hip Hrun Hsame|s e t d d' _ Hok Hs He Hr Hsv Hrun].
  - destruct (start_board ip gw dhcps_create d') as (Hc&_&Hb&Hsv); [done|simpl; by rewrite length_replicate|done|].
    by apply leases_empty.
  - by eapply recv_leases.
  - destruct (timer_leases d Hok) as (d2&Hr2&?). rewrite Hrun in Hr2. by injection Hr2 as <-.
  - injection Hrun as _ <-. by apply (leases_same d).
  - unfold dhcps_stop in Hrun. rewrite (bind_Ret get _ _ _ _ eq_refl) in Hrun. case_match.
    + by injection Hrun as _ <-.
    + injection Hrun as _ <-. by apply (leases_same d).
  - destruct (start_board ip gw d d') as (Hc&Hbd&Hb&Hsv); [done|apply Hok|done|].
    destruct Hsame as [Hnil|[Es Ee]]; [apply leases_empty; [congruence|done|done]|].
    destruct Hok as [H1 H2 H3 H4 H5 H6]. split; rewrite ?Hc, ?Hbd; try done; [apply Hb|].
    intros c Hin. rewrite Es, Ee. by apply H4.
  - destruct (configure_leases s e t d Hok Hs He Hr Hsv) as (d2&Hr2&?&_). rewrite Hrun in Hr2. by injection Hr2 as <-.
Qed.

(** C27: no two clients hold the same address.  From the start of the server,
    whatever messages come in with [ciaddr] 0 in every DISCOVER, otherwise of any
    content that does not crash the server (dhcps_long_option_faults), whatever
    leases run out, are declined or released, whether or not the heap has
    memory, and through stops, restarts and changes of the DNS server: every
    client is listed once, two clients never have the same address, every
    address lies in the pool and is not the server's, its bit on the lease board
    is set, and the coarse timer never touches anything outside the board.  A
    client for which there was no address is listed with the address 0.  A
    DISCOVER that names an address in [ciaddr] is offered that address without a
    check, so that two clients can hold it (ciaddr_offered_twice).  A restart
    that moves the pool happens while there are no clients, and a range that is
    configured fits the board and does not contain the server. *)
Theorem dhcps_leases_unique d : reach d →
  (∀ i j c1 c2, clients d !! i = Some c1 → clients d !! j = Some c2 → i ≠ j →
     hwaddr c1 ≠ hwaddr c2 ∧ (ipaddr c1 = ipaddr c2 → ipaddr c1 = 0)) ∧
  (∀ c, c ∈ clients d → ipaddr c ≠ 0 →
     start_ip d ≤ ipaddr c ≤ end_ip d ∧ ipaddr c ≠ server_ip d ∧ isclr (boards d) (ipaddr c - start_ip d) = false) ∧
  (∃ d', dhcps_do_coarse_tmr d = Ret ((), d')).
Proof.
  intros Hr. pose proof (reach_leases d Hr) as Hok. split; [|split].
  - intros i j c1 c2 H1 H2 Hne.
    assert (hwaddr c1 ≠ hwaddr c2) as Hhw.
    { intros E. apply Hne. eapply NoDup_lookup; [apply (lo_hw _ Hok)| |].
      - rewrite list_lookup_fmap, H1. reflexivity.
      - rewrite list_lookup_fmap, H2. simpl. by rewrite E. }
    split; [done|]. intros E. destruct (Z.eq_dec (ipaddr c1) 0) as [|Hnz]; [done|]. exfalso. apply Hhw.
    apply (lo_unique _ Hok); [by eapply list_elem_of_lookup_2|by eapply list_elem_of_lookup_2|done|done].
  - intros c Hc Hnz. destruct (lo_addr _ Hok c Hc) as [?|[? ?]]; [done|]. split; [done|]. split; [|done].
    intros E. apply (lo_server _ Hok). lia.
  - destruct (timer_leases d Hok) as (d'&?&_). by exists d'.
Qed.

(** The address in the [yiaddr] field and the first option of a datagram. *)
Definition yiaddr (q : list Z) : list Z := take 4 (drop 16 q).
Definition first_option (q : list Z) : list Z := take 3 (drop 240 q).

Lemma header_length msg d : (240 ≤ length msg)%nat → length (reply_header msg d) = 240%nat.
Proof. intros H. unfold reply_header. rewrite !length_app, !length_take, !length_drop, !length_replicate. unfold be_bytes. cbn [length]. lia. Qed.

Lemma request_length msg hw ci opts : is_request msg hw ci opts → (240 ≤ length msg)%nat.
Proof. intros (hdr&r&rest&->&Hlen&_). rewrite !length_app, Hlen. simpl. lia. Qed.

Lemma datagram_fields msg d ty opts : (240 ≤ length msg)%nat →
  let q := datagram msg d ((DHCP_OPTION_MESSAGE_TYPE, [ty]) :: opts) in
  yiaddr q = be_bytes (your_ip d) ∧ first_option q = [DHCP_OPTION_MESSAGE_TYPE; 1; ty].
Proof.
  intros Hl q. split.
  - unfold q, datagram, yiaddr, reply_header.
    assert (length (take 4 (drop 4 msg)) = 4%nat) as H1 by (rewrite length_take, length_drop; lia).
    assert (length (take 2 (drop 10 msg)) = 2%nat) as H2 by (rewrite length_take, length_drop; lia).
    destruct (take 4 (drop 4 msg)) as [|? [|? [|? [|? [|]]]]]; try done.
    destruct (take 2 (drop 10 msg)) as [|? [|? [|]]]; done.
  - unfold q, datagram, first_option. rewrite drop_app_length' by (by rewrite header_length). reflexivity.
Qed.

(** DISCOVER of a client that is not known yet. *)
Lemma discover_fresh msg hw d i : leases_ok d → client_ip d = 0 → hw ∉ hwaddr <$> clients d →
  free d i → (∀ j, 0 ≤ j < i → ¬ free d j) →
  ∃ b, let d1 := set_your_ip (start_ip d + i)
         (set_offered (offered d ++ [Client (start_ip d + i) hw (lease_time d)]) (set_boards b d)) in
    recv_discover (Mem true true true) msg hw d = Ret ((), add_sent (datagram msg d1 (reply_opts DHCP_OFFER d1)) d1) ∧
    isclr b i = false.
Proof.
  intros Hok Hci Hnew Hfree Hleast. unfold recv_discover. mstep.
  assert (hw ∉ hwaddr <$> bound d ∧ hw ∉ hwaddr <$> offered d) as [Hnb Hno].
  { unfold clients in Hnew. rewrite fmap_app, elem_of_app in Hnew. tauto. }
  unfold is_bound. rewrite (proj2 (find_client_None hw (bound d)) Hnb), bind_ret_l, (bind_Ret get _ _ _ _ eq_refl).
  unfold is_offered. rewrite (proj2 (find_client_None hw (offered d)) Hno), Hci. change (negb (0 =? 0)) with false. cbv iota.
  destruct (get_lease_run d Hok) as [(i'&b&Hfree'&Hleast'&Hrun&_&Hb)|[Hnone _]]; [|by destruct (Hnone i)].
  assert (i' = i) as ->.
  { destruct Hfree as (?&?&?), Hfree' as (?&?&?). destruct (Z.lt_trichotomy i i') as [?|[?|?]]; [|done|].
    - exfalso. apply (Hleast' i); [lia|by split].
    - exfalso. apply (Hleast i'); [lia|by split]. }
  rewrite bind_assoc, (bind_Ret _ _ _ _ _ Hrun), bind_assoc, (bind_Ret _ _ _ _ _ (offer_run _ _ _ _)), bind_ret_l.
  cbn [mem_client mem_pbuf]. rewrite (bind_Ret (modify _) _ _ _ _ eq_refl).
  pose proof (lo_range _ Hok). destruct Hfree as (?&?&?). rewrite (proj2 (Z.eqb_neq (start_ip d + i) 0)) by lia.
  exists b. split; [|rewrite Hb by done; by rewrite bool_decide_true, andb_false_r].
  unfold dhcps_offer. rewrite (bind_Ret _ _ _ _ _ (reply_run true msg DHCP_OFFER _)). done.
Qed.

(** REQUEST of a client that has an offer. *)
Lemma request_offered msg hw d cl : is_offered hw d = Some cl →
  default 0 (rx_ip (rx d)) = 0 ∨ default 0 (rx_ip (rx d)) = ipaddr cl →
  let d1 := set_bound (bound d ++ [cl]) (set_offered (del_client (hwaddr cl) (offered d)) (set_your_ip (ipaddr cl) d)) in
  recv_request (Mem true true true) msg hw d = Ret ((), add_sent (datagram msg d1 (reply_opts DHCP_ACK d1)) d1).
Proof.
  intros Ho Hip d1. unfold recv_request. mstep. rewrite Ho. cbv zeta.
  assert (negb (default 0 (rx_ip (rx d)) =? 0) && negb (default 0 (rx_ip (rx d)) =? ipaddr cl) = false) as ->.
  { destruct Hip as [-> | ->]; [done|]. by rewrite Z.eqb_refl, andb_false_r. }
  rewrite (bind_Ret (modify _) _ _ _ _ eq_refl), (bind_Ret (_bind _) _ _ _ _ eq_refl). unfold dhcps_ack.
  rewrite (bind_Ret _ _ _ _ _ (reply_run true msg DHCP_ACK _)). done.
Qed.

(** C30: DISCOVER, OFFER, REQUEST, ACK.  A client that is not known yet and
    sends a DISCOVER, with [ciaddr] 0, is offered the lowest free address of the
    pool, in a message of type OFFER with that address in [yiaddr]; when it then
    sends a REQUEST that names this address or none, the answer is an ACK with
    the same address, and the client is bound to it, with the address marked on
    the board.  Both messages come in one buffer each, as in C34, the server is
    running, and memory can be allocated. *)
Theorem dhcps_exchange_binds d i hw msg1 msg2 opts1 opts2 ci2 :
  reach d → pcb_allocated d = true → hw ∉ hwaddr <$> clients d → free d i → (∀ j, 0 ≤ j < i → ¬ free d j) →
  is_request msg1 hw 0 opts1 → rx_type (decode opts1) = Some DHCP_DISCOVER →
  is_request msg2 hw ci2 opts2 → rx_type (decode opts2) = Some DHCP_REQUEST →
  rx_ip (decode opts2) = None ∨ rx_ip (decode opts2) = Some (start_ip d + i) →
  let m := Mem true true true in
  ∃ d1 d2 q1 q2, dhcps_recv m msg1 msg1 d = Ret ((), d1) ∧ dhcps_recv m msg2 msg2 d1 = Ret ((), d2) ∧
    sent d2 = sent d ++ [q1; q2] ∧
    yiaddr q1 = be_bytes (start_ip d + i) ∧ first_option q1 = [DHCP_OPTION_MESSAGE_TYPE; 1; DHCP_OFFER] ∧
    yiaddr q2 = be_bytes (start_ip d + i) ∧ first_option q2 = [DHCP_OPTION_MESSAGE_TYPE; 1; DHCP_ACK] ∧
    bound d2 = bound d ++ [Client (start_ip d + i) hw (lease_time d)] ∧ offered d2 = offered d ∧
    isclr (boards d2) i = false.
Proof.
  intros Hr Hpcb Hnew Hfree Hleast Hm1 Ht1 Hm2 Ht2 Hip m. subst m. pose proof (reach_leases d Hr) as Hok.
  rewrite (dhcps_recv_run _ msg1 hw 0 opts1 d Hm1 Hpcb), Ht1.
  set (d0 := set_rx (decode opts1) (set_client_ip 0 d)).
  assert (leases_ok d0) as Hok0 by (by apply (leases_same d)).
  destruct (discover_fresh msg1 hw d0 i Hok0 eq_refl Hnew Hfree Hleast) as (b&Hrun1&Hb).
  set (d1 := set_your_ip _ _) in Hrun1. set (q1 := datagram msg1 d1 _) in Hrun1.
  exists (add_sent q1 d1). unfold dispatch. change (u8 (default 0 (Some DHCP_DISCOVER)) =? DHCP_DISCOVER) with true. cbv iota.
  rewrite Hrun1. rewrite (dhcps_recv_run _ msg2 hw ci2 opts2 (add_sent q1 d1) Hm2 Hpcb), Ht2.
  unfold dispatch. change (u8 (default 0 (Some DHCP_REQUEST)) =? DHCP_DISCOVER) with false.
  change (u8 (default 0 (Some DHCP_REQUEST)) =? DHCP_REQUEST) with true. cbv iota.
  set (d2 := set_rx (decode opts2) _).
  assert (hw ∉ hwaddr <$> offered d) as Hno.
  { unfold clients in Hnew. rewrite fmap_app, elem_of_app in Hnew. tauto. }
  set (cl := Client (start_ip d + i) hw (lease_time d)).
  assert (∀ l, hw ∉ hwaddr <$> l → find_client hw (l ++ [cl]) = Some cl ∧ del_client hw (l ++ [cl]) = l) as Hlast.
  { intros l. induction l as [|x l IH]; simpl; intros Hn; [unfold same_hw; by rewrite !decide_True|].
    unfold same_hw in *. rewrite !decide_False by set_solver. destruct IH as [? ->]; [set_solver|done]. }
  destruct (Hlast (offered d) Hno) as [Hfind Hdel].
  rewrite (request_offered msg2 hw d2 cl Hfind).
  2: { unfold d2. simpl. destruct Hip as [-> | ->]; [by left|by right]. }
  set (d3 := set_bound _ _). set (q2 := datagram msg2 d3 _).
  exists (add_sent q2 d3), q1, q2. split; [done|]. split; [done|].
  destruct (datagram_fields msg1 d1 DHCP_OFFER (tail (reply_opts DHCP_OFFER d1)) (request_length _ _ _ _ Hm1)) as [Hy1 Ho1].
  destruct (datagram_fields msg2 d3 DHCP_ACK (tail (reply_opts DHCP_ACK d3)) (request_length _ _ _ _ Hm2)) as [Hy2 Ho2].
  split; [simpl; by rewrite <-app_assoc|]. split_and!; [exact Hy1|exact Ho1|exact Hy2|exact Ho2|done| |exact Hb].
  exact Hdel.
Qed.

(** C34: well-formed requests are read exactly.  For a message with any list of
    options, each with its type, length and value, that is ended by END and at
    least one more byte: parsing records [ciaddr], the first message type, the
    first requested address and the flags of the last parameter request list, as
    a fold over the options gives them; nothing outside the message is read, and
    nothing else of the server's state changes.  Options of the types message
    type and requested address have one byte or four (longer ones are
    dhcps_long_option_faults); there are no PAD options, which the parser takes
    to have a length; and the byte behind END is needed because the parser reads
    a length there too: it reads beyond a message that ends with END. *)
Theorem dhcps_parse_exact msg hw ci opts d : is_request msg hw ci opts →
  dhcps_parse_request msg (Z.of_nat (length msg)) d = Ret (ERR_OK, set_rx (decode opts) (set_client_ip ci d)).
Proof. apply parse_request_run. Qed.

(** C37: an option with a wrong length corrupts the stack.  A request in which
    the first message type or requested address option is longer than four
    bytes makes the parser copy the whole value over its four-byte variable:
    one packet from any station takes the server down. *)
Theorem dhcps_long_option_faults m hdr t v rest opts d :
  length hdr = 236%nat → hdr !! 0%nat = Some DHCP_BOOTREQUEST → pcb_allocated d = true → Forall valid_opt opts →
  t = DHCP_OPTION_MESSAGE_TYPE ∧ rx_type (decode opts) = None ∨ t = DHCP_OPTION_REQUESTED_IP ∧ rx_ip (decode opts) = None →
  (4 < length v)%nat →
  let msg := hdr ++ be_bytes DHCP_MAGIC_COOKIE ++ encode opts ++ enc_opt (t, v) ++ rest in
  dhcps_recv m msg msg d = Fault.
Proof.
  intros Hlen Hop Hpcb Hval Ht Hv msg.
  assert (length msg = 240 + length (encode opts) + (2 + length v) + length rest)%nat as Hl.
  { unfold msg. rewrite !length_app, Hlen. simpl. lia. }
  assert (msg = (hdr ++ be_bytes DHCP_MAGIC_COOKIE) ++ encode opts ++ enc_opt (t, v) ++ rest) as Hmsg by (unfold msg; by rewrite <-app_assoc).
  unfold dhcps_recv. mstep. rewrite Hpcb. cbn [negb]. rewrite (proj2 (Z.ltb_ge _ _)) by (unfold DHCP_SNAME_OFS; lia).
  rewrite (bind_Ret _ _ d DHCP_BOOTREQUEST d).
  2: { unfold rd, lift_opt. change (Z.to_nat 0) with 0%nat. unfold msg. rewrite lookup_app_l by lia. by rewrite Hop. }
  change (negb (DHCP_BOOTREQUEST =? DHCP_BOOTREQUEST)) with false. cbv iota.
  rewrite bool_decide_false by tauto. rewrite bind_ret_l.
  rewrite (bind_Ret _ _ _ _ _ (rd_bytes_take msg 28 6 _ ltac:(lia))). unfold dhcps_parse_request.
  rewrite bind_assoc, (bind_Ret (modify _) _ _ _ _ eq_refl), bind_assoc, (bind_Ret _ _ _ _ _ (rd_bytes_take msg 236 4 _ ltac:(lia))).
  replace (take 4 (drop 236 msg)) with (be_bytes DHCP_MAGIC_COOKIE).
  2: { unfold msg. rewrite drop_app_length' by done. by rewrite take_app_length'. }
  change (negb (be32 (be_bytes DHCP_MAGIC_COOKIE) =? DHCP_MAGIC_COOKIE)) with false. cbv iota.
  rewrite bind_assoc, (bind_Ret _ _ _ _ _ (rd_bytes_take msg 12 4 _ ltac:(lia))), bind_assoc, (bind_Ret (modify _) _ _ _ _ eq_refl).
  set (d1 := set_client_ip _ _).
  assert (parse_options (S (Z.to_nat (Z.of_nat (length msg)))) msg DHCP_OPTIONS_OFS (Z.of_nat (length msg)) d1 = Fault) as Hf.
  { rewrite Nat2Z.id. replace (S (length msg)) with (length opts + S (length msg - length opts))%nat.
    2: { pose proof (encode_length opts). lia. }
    assert (DHCP_OPTIONS_OFS = Z.of_nat (length (hdr ++ be_bytes DHCP_MAGIC_COOKIE))) as -> by (rewrite length_app, Hlen; done).
    rewrite Hmsg at 2. rewrite parse_prefix; [|done|done|by rewrite <-Hmsg].
    apply parse_long; [done|rewrite !length_app, Hlen; simpl; lia|exact Ht]. }
  unfold mbind, M_bind. by rewrite Hf.
Qed.

End Board.

(** ** Witnesses *)

Module Demo.

#[local] Instance cfg : DhcpsConfig := {| DHCPS_MAX_LEASE := 100; DHCPS_LEASE_TIME_DEF := 120 |}.
#[local] Instance cfg_ok : DhcpsConfigOk cfg.
Proof. split. simpl. lia. Qed.

(** 192.168.1.1, and a message of the client [hw]. *)
Definition server : Z := 0xC0A80101.
Definition header (hw : list Z) (ci : Z) : list Z :=
  [DHCP_BOOTREQUEST] ++ replicate 11 0 ++ be_bytes ci ++ replicate 12 0 ++ hw ++ replicate 202 0.
Definition request (hw : list Z) (ci : Z) (opts : list (Z * list Z)) : list Z :=
  header hw ci ++ be_bytes DHCP_MAGIC_COOKIE ++ encode opts ++ [DHCP_OPTION_END; 0].

Definition hwA : list Z := [2; 0; 0; 0; 0; 0xA].
Definition hwB : list Z := [2; 0; 0; 0; 0; 0xB].
Definition discover : list (Z * list Z) := [(DHCP_OPTION_MESSAGE_TYPE, [DHCP_DISCOVER]); (DHCP_OPTION_PARAMETER_REQUEST_LIST, [1; 3; 6])].
Definition ask (ip : Z) : list (Z * list Z) :=
  [(DHCP_OPTION_MESSAGE_TYPE, [DHCP_REQUEST]); (DHCP_OPTION_REQUESTED_IP, be_bytes ip)].

Definition mem_all : mem := Mem true true true.
Definition result {A} (d : dhcps) (o : outcome (A * dhcps)) : dhcps := match o with Ret (_, d) => d | _ => d end.
Definition on `{DhcpsConfig} : dhcps := result dhcps_create (dhcps_start true server 0 dhcps_create).
Definition recv `{DhcpsConfig} (msg : list Z) (d : dhcps) : dhcps := result d (dhcps_recv mem_all msg msg d).

Lemma on_reach : reach on.
Proof. apply (reach_start server 0); [unfold server; lia|reflexivity]. Qed.

Lemma discover_request hw : length hw = 6%nat → is_request (request hw 0 discover) hw 0 discover.
Proof.
  intros Hhw. exists (header hw 0), 0, []. do 6 (destruct hw as [|? hw]; [done|]). destruct hw; [|done].
  split_and!; try reflexivity.
  constructor; [|constructor; [|constructor]]; (split; [done|]); intros H; [by left|by destruct H].
Qed.

Lemma ask_request : is_request (request hwA 0 (ask (server + 1))) hwA 0 (ask (server + 1)).
Proof.
  exists (header hwA 0), 0, []. split_and!; try reflexivity.
  constructor; [|constructor; [|constructor]]; (split; [done|]); intros _; [by left|by right].
Qed.

Definition offered_A : dhcps := recv (request hwA 0 discover) on.
Definition bound_A : dhcps := recv (request hwA 0 (ask (server + 1))) offered_A.

Lemma bound_A_reach : reach bound_A.
Proof.
  assert (∀ opts, discover_ok (request hwA 0 opts)) as Hd.
  { intros opts. apply discover_ok_zero; [|reflexivity]. unfold request. rewrite length_app. simpl. lia. }
  apply (reach_recv mem_all (request hwA 0 (ask (server + 1))) (request hwA 0 (ask (server + 1))) offered_A);
    [|apply Hd|apply Hd|by vm_compute].
  apply (reach_recv mem_all (request hwA 0 discover) (request hwA 0 discover) on); [exact on_reach|apply Hd|apply Hd|by vm_compute].
Qed.

Lemma bound_A_clients : clients bound_A = [Client (server + 1) hwA 120].
Proof. by vm_compute. Qed.

Lemma dhcps_leases_unique_witness :
  clients bound_A = [Client (server + 1) hwA 120] ∧
  (start_ip bound_A ≤ server + 1 ≤ end_ip bound_A ∧ isclr (boards bound_A) (server + 1 - start_ip bound_A) = false).
Proof.
  split; [exact bound_A_clients|]. destruct (dhcps_leases_unique bound_A bound_A_reach) as (_&H&_).
  destruct (H (Client (server + 1) hwA 120)) as (Hr&_&Hb); [rewrite bound_A_clients; by left|by vm_compute|].
  exact (conj Hr Hb).
Defined.

Lemma dhcps_exchange_binds_witness :
  ∃ d1 d2, dhcps_recv mem_all (request hwA 0 discover) (request hwA 0 discover) on = Ret ((), d1) ∧
    dhcps_recv mem_all (request hwA 0 (ask (server + 1))) (request hwA 0 (ask (server + 1))) d1 = Ret ((), d2) ∧
    bound d2 = [Client (server + 1) hwA 120] ∧ length (sent d2) = 2%nat.
Proof.
  destruct (dhcps_exchange_binds on 0 hwA (request hwA 0 discover) (request hwA 0 (ask (server + 1))) discover (ask (server + 1)) 0)
    as (d1&d2&q1&q2&H1&H2&Hs&_&_&_&_&Hb&_).
  - exact on_reach.
  - reflexivity.
  - apply not_elem_of_nil.
  - split; [lia|]. split; [by vm_compute|reflexivity].
  - lia.
  - by apply discover_request.
  - reflexivity.
  - exact ask_request.
  - reflexivity.
  - right. reflexivity.
  - exists d1, d2. split; [exact H1|]. split; [exact H2|]. split; [exact Hb|]. by rewrite Hs.
Defined.

Lemma dhcps_parse_exact_witness :
  dhcps_parse_request (request hwA 0 discover) 253 on =
  Ret (ERR_OK, set_rx (RxOptions (Some DHCP_DISCOVER) None (Some 7)) (set_client_ip 0 on)).
Proof. exact (dhcps_parse_exact (request hwA 0 discover) hwA 0 discover on (discover_request hwA eq_refl)). Defined.

Lemma dhcps_long_option_faults_witness :
  let msg := header hwA 0 ++ be_bytes DHCP_MAGIC_COOKIE ++ enc_opt (DHCP_OPTION_MESSAGE_TYPE, replicate 200 0x41) ++ [255; 0] in
  dhcps_recv mem_all msg msg on = Fault.
Proof.
  apply (dhcps_long_option_faults mem_all (header hwA 0) DHCP_OPTION_MESSAGE_TYPE (replicate 200 0x41) [255; 0] [] on).
  - reflexivity.
  - reflexivity.
  - reflexivity.
  - constructor.
  - left. by split.
  - rewrite length_replicate. lia.
Defined.

(** A DISCOVER with an address in [ciaddr] gets that address although it is
    offered to another client. *)
Lemma ciaddr_offered_twice :
  ipaddr <$> offered (recv (request hwB (server + 1) discover) offered_A) = [server + 1; server + 1].
Proof. by vm_compute. Qed.

(** With one address in the pool: a client that came too late is listed with
    the address 0, and gets no offer after the pool has an address again. *)
#[local] Instance tiny : DhcpsConfig := {| DHCPS_MAX_LEASE := 1; DHCPS_LEASE_TIME_DEF := 120 |}.

Definition release : list (Z * list Z) := [(DHCP_OPTION_MESSAGE_TYPE, [DHCP_RELEASE])].

Lemma exhausted_pool_sticks :
  let late := recv (H := tiny) (request hwB 0 discover) (recv (H := tiny) (request hwA 0 discover) (on (H := tiny))) in
  let freed := recv (H := tiny) (request hwA 0 release) late in
  let again := recv (H := tiny) (request hwB 0 discover) freed in
  ipaddr <$> offered late = [server + 1; 0] ∧ isclr (boards freed) 0 = true ∧ length (sent again) = 1%nat.
Proof. by vm_compute. Qed.

End Demo.
