(* ===== verification/Cli.v ===== *)
(** * The command line interface: src/lib/cli/cli.c

    A line of input is edited ([cli_readline]), recorded in the history, broken
    into commands at [;] and into arguments at blanks ([cli_parse_line]), and
    the commands are looked up and run ([cli_process_cmd]).

    Strings live in a store of objects, because the code works in place: the
    parser writes into the line it is given, the history hands out pointers to
    its own strings, and a command can be run on such a string.  An access to
    an object that was freed, or outside of an object, is a fault.

    Handlers of the rest of the SDK are parameters ([Handlers]);
    [history] and [help], which are part of the same file, are not.  The
    configuration is the default one, with history and completion. *)

From Stdlib Require Import String Ascii.
From stdpp Require Import base tactics numbers list gmap.
From S2P Require Import Prelude.

(** ** Characters and strings *)

(** The bytes of a literal. *)
Fixpoint str (s : string) : list Z :=
  match s with
  | EmptyString => []
  | String c s => Z.of_N (N_of_ascii c) :: str s
  end.

Definition BLANK : Z := 32.
Definition QUOTE : Z := 34.
Definition SEMI : Z := 59.
Definition BACKSLASH : Z := 92.
Definition TAB : Z := 9.
Definition ESC : Z := 27.

(** The string at the start of a buffer; None when there is no terminator. *)
Fixpoint cstr (b : list Z) : option (list Z) :=
  match b with
  | [] => None
  | c :: b => if c =? 0 then Some [] else s ← cstr b; Some (c :: s)
  end.

(** Overwriting bytes of a buffer. *)
Definition splice (b : list Z) (ofs : nat) (data : list Z) : list Z :=
  take ofs b ++ data ++ drop (ofs + length data) b.

(** ** State *)

Class CliConfig := {
  CMD_MAX_CMDLINE_SIZE : Z;
  CONFIG_CLI_MAX_HISTORY : Z;
}.

Definition CMD_MAX_ARGV : nat := 32.

Definition CMD_RET_SUCCESS : Z := 0.
Definition CMD_RET_FAILURE : Z := 1.
Definition CMD_RET_USAGE : Z := -1.

(** The handlers of this file, and all others by a number. *)
Inductive handler_t := History | Help | Ext (id : Z).

Record cli_cmd := CliCmd {
  name : list Z;
  handler : handler_t;
  desc : list Z;
  usage : option (list Z);
}.

(** A pointer: the object and the offset. *)
Definition ptr : Type := Z * Z.

(** Arguments are places in a line, or literals. *)
Inductive arg := APtr (p : ptr) | AStr (s : list Z).

Record cli := Cli {
  heap : gmap Z (list Z);
  next_id : Z;
  cmd_history : list (option Z);
  cmd_hindex : Z;
  cmd_cursor : Z;
  cmd_locked : option cli_cmd;
  stdin : list Z;
  output : list Z;
  (** calls of the handlers of the rest of the SDK, with their arguments *)
  calls : list (Z * list (list Z));
}.

Definition set_heap h s := Cli h (next_id s) (cmd_history s) (cmd_hindex s) (cmd_cursor s) (cmd_locked s)
  (stdin s) (output s) (calls s).
Definition new_object o b s := Cli (<[o := b]> (heap s)) (o + 1) (cmd_history s) (cmd_hindex s) (cmd_cursor s)
  (cmd_locked s) (stdin s) (output s) (calls s).
Definition set_history l s := Cli (heap s) (next_id s) l (cmd_hindex s) (cmd_cursor s) (cmd_locked s)
  (stdin s) (output s) (calls s).
Definition set_hindex i s := Cli (heap s) (next_id s) (cmd_history s) i (cmd_cursor s) (cmd_locked s)
  (stdin s) (output s) (calls s).
Definition set_cursor i s := Cli (heap s) (next_id s) (cmd_history s) (cmd_hindex s) i (cmd_locked s)
  (stdin s) (output s) (calls s).
Definition set_locked c s := Cli (heap s) (next_id s) (cmd_history s) (cmd_hindex s) (cmd_cursor s) c
  (stdin s) (output s) (calls s).
Definition set_stdin l s := Cli (heap s) (next_id s) (cmd_history s) (cmd_hindex s) (cmd_cursor s) (cmd_locked s)
  l (output s) (calls s).
Definition add_output t s := Cli (heap s) (next_id s) (cmd_history s) (cmd_hindex s) (cmd_cursor s) (cmd_locked s)
  (stdin s) (output s ++ t) (calls s).
Definition add_call c s := Cli (heap s) (next_id s) (cmd_history s) (cmd_hindex s) (cmd_cursor s) (cmd_locked s)
  (stdin s) (output s) (calls s ++ [c]).

(** ** Memory and strings *)

Definition object (o : Z) : M cli (list Z) := s ← get; lift_opt (heap s !! o).

Definition load (p : ptr) : M cli Z :=
  b ← object p.1; if p.2 <? 0 then fault else lift_opt (b !! Z.to_nat p.2).

Definition write_bytes (p : ptr) (data : list Z) : M cli unit :=
  b ← object p.1;
  if (p.2 <? 0) || (Z.of_nat (length b) <? p.2 + Z.of_nat (length data)) then fault else
  modify (λ s, set_heap (<[p.1 := splice b (Z.to_nat p.2) data]> (heap s)) s).

Definition store (p : ptr) (c : Z) : M cli unit := write_bytes p [c].

Definition adv (p : ptr) (n : Z) : ptr := (p.1, p.2 + n).

Definition string_at (p : ptr) : M cli (list Z) :=
  b ← object p.1; if p.2 <? 0 then fault else lift_opt (cstr (drop (Z.to_nat p.2) b)).

Definition arg_str (a : arg) : M cli (list Z) :=
  match a with APtr p => string_at p | AStr s => mret s end.

Fixpoint arg_strs (l : list arg) : M cli (list (list Z)) :=
  match l with [] => mret [] | a :: l => s ← arg_str a; r ← arg_strs l; mret (s :: r) end.

Definition strcpy (p : ptr) (s : list Z) : M cli unit := write_bytes p (s ++ [0]).

(** [memmove(s, s + 1, strlen(s + 1))] *)
Definition memmove_down (p : ptr) : M cli unit := t ← string_at (adv p 1); write_bytes p t.

Definition puts (t : list Z) : M cli unit := modify (add_output t).

(** ** Input *)

(** [getchar()]: a number below 0 says that there is no character yet; at the
    end of the input it waits for ever. *)
Definition getchar : M cli Z :=
  s ← get; match stdin s with [] => out_of_fuel | c :: l => put (set_stdin l s);; mret c end.

Definition ungetc (c : Z) : M cli unit :=
  if c <? 0 then mret () else modify (λ s, set_stdin (c :: stdin s) s).

(** [while ((c = getchar()) < 0);] *)
Fixpoint wait_loop (fuel : nat) : M cli Z :=
  match fuel with
  | O => out_of_fuel
  | S fuel => c ← getchar; if c <? 0 then wait_loop fuel else mret c
  end.

Definition wait_char : M cli Z := s ← get; wait_loop (S (length (stdin s))).

(** ** Parsing a line *)

Definition is_blank (c : Z) : bool := (c >? 0) && (c <? 0x21).

Fixpoint skip_blanks (fuel : nat) (s : ptr) : M cli ptr :=
  match fuel with
  | O => out_of_fuel
  | S fuel => c ← load s; if is_blank c then skip_blanks fuel (adv s 1) else mret s
  end.

(** The inner loop: where it ends, and whether it left by [goto out]. *)
Fixpoint word_loop (fuel : nat) (inquote : bool) (s : ptr) : M cli (ptr * bool) :=
  match fuel with
  | O => out_of_fuel
  | S fuel =>
      c ← load s;
      if (c =? 0) || is_blank c then mret (s, false)
      else if inquote then
        if c =? BACKSLASH then
          c1 ← load (adv s 1);
          (if (c1 =? BACKSLASH) || (c1 =? QUOTE) then memmove_down s else mret ());;
          word_loop fuel inquote (adv s 1)
        else if c =? QUOTE then mret (s, false)
        else word_loop fuel inquote (adv s 1)
      else
        if c =? BACKSLASH then memmove_down s;; word_loop fuel inquote (adv s 1)
        else if c =? SEMI then store s 0;; mret (adv s 1, true)
        else word_loop fuel inquote (adv s 1)
  end.

(** [while (argc < CMD_MAX_ARGV)]: [room] arguments fit.  The new place in the
    line and the arguments. *)
Fixpoint parse_args (fuel room : nat) (s : ptr) (argv : list ptr) : M cli (ptr * list ptr) :=
  match room with
  | O => mret (s, argv)
  | S room =>
      s ← skip_blanks fuel s;
      c ← load s;
      if c =? 0 then mret (s, argv) else
      let inquote := c =? QUOTE in
      let s := if inquote then adv s 1 else s in
      let argv := argv ++ [s] in
      r ← word_loop fuel inquote s;
      if (r.2 : bool) then mret (r.1, argv) else
      c ← load r.1;
      if c =? 0 then mret (r.1, argv) else
      store r.1 0;;
      parse_args fuel room (adv r.1 1) argv
  end.

(** The array of the caller has CMD_MAX_ARGV elements, and the last one written
    is [argv[argc]]. *)
Definition cli_parse_line (s : ptr) : M cli (ptr * list ptr) :=
  b ← object s.1;
  r ← parse_args (S (length b)) CMD_MAX_ARGV s [];
  if (CMD_MAX_ARGV <=? length r.2)%nat then fault else mret r.

(** ** Commands *)

(** The other handlers: the return code and what they print; the linked table
    of commands; whether the heap has memory for [n] bytes. *)
Class Handlers := {
  ext_run : Z → list (list Z) → Z * list Z;
  table : list cli_cmd;
  malloc_ok : Z → bool;
}.

Section Cli.
Context `{CliConfig, Handlers}.

Definition cli_lock_cmd (cmd : option cli_cmd) : M cli unit := modify (set_locked cmd).

(** From [cli_cmd_start()] to [cli_cmd_end()]. *)
Definition cli_cmds (s : cli) : list cli_cmd :=
  match cmd_locked s with Some c => [c] | None => table end.

Definition cli_find_cmd (cmd : list Z) (t : list cli_cmd) : option cli_cmd :=
  head (filter (λ c, name c = cmd) t).

(** [exec] runs a handler. *)
Definition cli_process_cmd (exec : handler_t → list arg → M cli Z) (argv : list arg) : M cli Z :=
  s ← get;
  argv0 ← lift_opt (head argv);
  cmd0 ← arg_str argv0;
  match cli_find_cmd cmd0 (cli_cmds s) with
  | None => puts (str "Unknown command: " ++ cmd0 ++ [10]);; mret (-1)
  | Some cmd =>
      rc ← exec (handler cmd) argv;
      if rc =? CMD_RET_USAGE then
        match usage cmd with
        | Some u => puts (str "Usage: " ++ u ++ [10]);; mret rc
        | None => exec (handler cmd) [AStr (name cmd); AStr (str "help")];; mret 0
        end
      else if rc =? CMD_RET_FAILURE then
        cmd0 ← arg_str argv0; puts (str "Error: " ++ cmd0 ++ [10]);; mret rc
      else mret rc
  end.

(** ** History *)

Definition hindex (index : Z) : Z := Z.land index (CONFIG_CLI_MAX_HISTORY - 1).

(** [cmd_history[i]], an element of the array. *)
Definition slot (i : Z) : M cli (option Z) :=
  s ← get; if i <? 0 then fault else lift_opt (cmd_history s !! Z.to_nat i).
Definition set_slot (i : Z) (v : option Z) : M cli unit :=
  s ← get;
  if (i <? 0) || (Z.of_nat (length (cmd_history s)) <=? i) then fault
  else put (set_history (<[Z.to_nat i := v]> (cmd_history s)) s).

Definition cmd_oldest_index (s : cli) : Z :=
  let oldest := cmd_hindex s - (CONFIG_CLI_MAX_HISTORY - 1) in if 0 >? oldest then 0 else oldest.

(** None when there is no memory. *)
Definition strdup (t : list Z) : M cli (option Z) :=
  if negb (malloc_ok (Z.of_nat (length t) + 1)) then mret None else
  s ← get; put (new_object (next_id s) (t ++ [0]) s);; mret (Some (next_id s)).

Definition free (o : Z) : M cli unit :=
  s ← get; _ ← lift_opt (heap s !! o); put (set_heap (delete o (heap s)) s).

(** [strcmp] with a string that may be absent. *)
Definition same_string (last : option Z) (cmd : list Z) : M cli bool :=
  match last with None => mret false | Some o => t ← string_at (o, 0); mret (bool_decide (t = cmd)) end.

Definition cmd_history_add (cmd : ptr) : M cli unit :=
  s ← get;
  last ← slot (hindex (cmd_hindex s - 1));
  t ← string_at cmd;
  same ← same_string last t;
  if (same : bool) then modify (set_cursor (cmd_hindex s)) else
  dup ← strdup t;
  match dup with
  | None => mret ()
  | Some o =>
      if cmd_hindex s >=? 2 ^ 31 - 1 then fault else
      set_slot (hindex (cmd_hindex s)) (Some o);;
      modify (set_hindex (cmd_hindex s + 1));;
      modify (set_cursor (cmd_hindex s + 1));;
      let index := hindex (cmd_hindex s + 1) in
      old ← slot index;
      match old with Some old => free old;; set_slot index None | None => mret () end
  end.

Definition cmd_history_search_backward : M cli (option Z) :=
  s ← get;
  let oldest := cmd_oldest_index s in
  let cursor := cmd_cursor s - 1 in
  h ← slot (hindex cursor);
  modify (set_cursor (if cursor >? oldest then cursor else oldest));;
  mret h.

Definition cmd_history_search_forward : M cli (option Z) :=
  s ← get;
  if cmd_cursor s =? cmd_hindex s then mret None else
  modify (set_cursor (cmd_cursor s + 1));;
  slot (hindex (cmd_cursor s + 1)).

(** ** Running a line *)

(** [do { ... } while (ret == CMD_RET_SUCCESS)] *)
Fixpoint run_loop (exec : handler_t → list arg → M cli Z) (fuel : nat) (line : ptr) (ret : Z) : M cli Z :=
  match fuel with
  | O => out_of_fuel
  | S fuel =>
      r ← cli_parse_line line;
      if bool_decide (r.2 = []) then mret ret else
      ret ← cli_process_cmd exec (APtr <$> r.2);
      if ret =? CMD_RET_SUCCESS then run_loop exec fuel r.1 ret else mret ret
  end.

Definition run_command (exec : handler_t → list arg → M cli Z) (line : option ptr) : M cli Z :=
  match line with
  | None => mret (-1)
  | Some p =>
      t ← string_at p;
      if bool_decide (t = []) then mret (-1) else
      if Z.of_nat (length t) >=? CMD_MAX_CMDLINE_SIZE then puts (str "Command too long" ++ [10]);; mret (-1) else
      cmd_history_add p;;
      run_loop exec (S (S (length t))) p CMD_RET_SUCCESS
  end.

(** [atoi], which saturates. *)
Fixpoint digits (acc : Z) (l : list Z) : Z :=
  match l with
  | c :: l => if (48 <=? c) && (c <=? 57) then digits (acc * 10 + (c - 48)) l else acc
  | [] => acc
  end.
Fixpoint skip_space (l : list Z) : list Z :=
  match l with
  | c :: l' => if (c =? 32) || ((9 <=? c) && (c <=? 13)) then skip_space l' else l
  | [] => []
  end.
Definition atoi (l : list Z) : Z :=
  let l := skip_space l in
  let v := match l with
           | 45 :: l => - digits 0 l
           | 43 :: l => digits 0 l
           | _ => digits 0 l
           end in
  Z.max (- 2 ^ 31) (Z.min (2 ^ 31 - 1) v).

(** The digits of a number that is not negative, for [%4d]. *)
Fixpoint decimal (fuel : nat) (n : Z) : list Z :=
  match fuel with
  | O => []
  | S fuel => (if n <? 10 then [] else decimal fuel (n / 10)) ++ [48 + n mod 10]
  end.
Definition pad4 (t : list Z) : list Z := replicate (4 - length t) 32 ++ t.

Fixpoint show_entries (n : nat) (index : Z) : M cli unit :=
  match n with
  | O => mret ()
  | S n =>
      h ← slot (hindex index);
      t ← match h with Some o => string_at (o, 0) | None => fault end;
      puts (pad4 (decimal 10 index) ++ [32] ++ t ++ [10]);;
      show_entries n (index + 1)
  end.

(** [run] is [cli_run_command]. *)
Definition show_cmd_history (run : option ptr → M cli Z) (argv : list arg) : M cli Z :=
  s ← get;
  if (length argv =? 1)%nat then
    let index := cmd_oldest_index s in
    show_entries (Z.to_nat (cmd_hindex s - index)) index;; mret 0
  else if (2 <? length argv)%nat then mret CMD_RET_USAGE else
  a ← lift_opt (argv !! 1%nat);
  t ← arg_str a;
  h ← slot (hindex (atoi t));
  run ((λ o, (o, 0)) <$> h);;
  mret 0.

(** [%-20s] *)
Definition pad20 (t : list Z) : list Z := t ++ replicate (20 - length t) 32.

Definition cmd_help (exec : handler_t → list arg → M cli Z) (argv : list arg) : M cli Z :=
  s ← get;
  if (length argv =? 1)%nat then
    puts (cli_cmds s ≫= λ c, pad20 (name c) ++ str " - " ++ desc c ++ [10]);; mret CMD_RET_SUCCESS
  else
  a ← lift_opt (argv !! 1%nat);
  t ← arg_str a;
  match cli_find_cmd t (cli_cmds s) with
  | None => mret CMD_RET_FAILURE
  | Some cmd =>
      match usage cmd with
      | Some u => puts (str "Usage: " ++ u ++ [10] ++ desc cmd ++ [10])
      | None => exec (handler cmd) [AStr (name cmd); AStr (str "help")];; mret ()
      end;;
      mret CMD_RET_SUCCESS
  end.

(** [depth] bounds the commands that run commands. *)
Fixpoint exec (depth : nat) (h : handler_t) (argv : list arg) : M cli Z :=
  match depth with
  | O => out_of_fuel
  | S depth =>
      match h with
      | History => show_cmd_history (run_command (exec depth)) argv
      | Help => cmd_help (exec depth) argv
      | Ext id =>
          args ← arg_strs argv;
          modify (add_call (id, args));; puts (ext_run id args).2;; mret (ext_run id args).1
      end
  end.

Definition cli_run_command (depth : nat) (line : option ptr) : M cli Z := run_command (exec depth) line.

Definition os_system (depth : nat) (command : list Z) : M cli Z :=
  line ← strdup command;
  match line with
  | None => mret (-1)
  | Some o => ret ← cli_run_command depth (Some (o, 0)); free o;; mret ret
  end.

(** ** Editing a line *)

Definition erase_seq : list Z := [8; 32; 8].

(** [while (col > plen) { __puts(erase_seq); col--; }] *)
Definition erase_to (plen col : Z) : M cli unit :=
  puts (mjoin (replicate (Z.to_nat (col - plen)) erase_seq)).

(** Where the cursor is after a character, and what is printed for it: TABs
    are expanded. *)
Definition next_col (col c : Z) : Z := if c =? TAB then col + (8 - Z.land col 7) else col + 1.
Definition echo (col c : Z) : list Z := if c =? TAB then replicate (Z.to_nat (8 - Z.land col 7)) 32 else [c].

(** [for (s = buffer; s < p; ++s)] of delete_char *)
Fixpoint retype (n : nat) (s : ptr) (col : Z) : M cli Z :=
  match n with
  | O => mret col
  | S n => c ← load s; puts (echo col c);; retype n (adv s 1) (next_col col c)
  end.

(** Place in the buffer, column and number of characters. *)
Record cur := Cur { cp : Z; ccol : Z; cn : Z }.

Definition delete_char (buffer : Z) (plen : Z) (k : cur) : M cli cur :=
  if cn k =? 0 then mret k else
  let p := cp k - 1 in
  c ← load (buffer, p);
  if c =? TAB then
    erase_to plen (ccol k);;
    col ← retype (Z.to_nat p) (buffer, 0) (Z.min plen (ccol k));
    mret (Cur p col (cn k - 1))
  else puts erase_seq;; mret (Cur p (ccol k - 1) (cn k - 1)).

(** The loop of ^W: until a blank was deleted. *)
Fixpoint erase_word_loop (fuel : nat) (buffer plen : Z) (k : cur) : M cli cur :=
  match fuel with
  | O => out_of_fuel
  | S fuel =>
      if negb (cn k >? 0) then mret k else
      c ← load (buffer, cp k);
      if c =? BLANK then mret k else
      k ← delete_char buffer plen k; erase_word_loop fuel buffer plen k
  end.

(** States CSI_START, CSI_PARAM, CSI_INTERMEDIATE are 1, 2, 3.  [room] is what
    is left of [esc]; None is [goto fail]. *)
Fixpoint csi_loop (room : nat) (state : Z) : M cli (option Z) :=
  c ← wait_char;
  match room with
  | O => mret None
  | S room =>
      if (c >=? 0x20) && (c <? 0x30) then if state >? 2 then mret None else csi_loop room 2
      else if (c >=? 0x30) && (c <? 0x40) then if state >? 3 then mret None else csi_loop room 3
      else if (c >=? 0x40) && (c <? 0x7f) then mret (Some c)
      else mret None
  end.

Definition handle_escape_sequence (buf plen : Z) (k : cur) : M cli cur :=
  c ← wait_char;
  if negb (c =? 91) then mret k else
  r ← csi_loop 6 1;
  match r with
  | None => mret k
  | Some c =>
      if (c =? 65) || (c =? 66) then
        erase_to plen (ccol k);;
        h ← (if c =? 65 then cmd_history_search_backward else cmd_history_search_forward);
        match h with
        | Some o =>
            t ← string_at (o, 0);
            puts t;; strcpy (buf, 0) t;;
            let n := Z.of_nat (length t) in mret (Cur n (n + plen) n)
        | None => mret (Cur 0 plen 0)
        end
      else mret k
  end.

(** The loop to the end of a word. *)
Fixpoint skip_word (fuel : nat) (s : ptr) : M cli ptr :=
  match fuel with
  | O => out_of_fuel
  | S fuel => c ← load s; if (c =? 0) || is_blank c then mret s else skip_word fuel (adv s 1)
  end.

(** The first run of commands that start with [w]: where it starts, and where
    it ends when a command follows ([end]; otherwise NULL). *)
Fixpoint completions (w : list Z) (i : nat) (t : list cli_cmd) (start : option nat) : option nat * option nat :=
  match t with
  | [] => (start, None)
  | c :: t =>
      if bool_decide (take (length w) (name c) = w)
      then completions w (S i) t (match start with None => Some i | Some j => Some j end)
      else match start with None => completions w (S i) t None | Some j => (Some j, Some i) end
  end.

(** The cycle through the candidates. *)
Fixpoint complete_loop (fuel : nat) (line plen : Z) (start : nat) (end_ : option nat) (t : nat) (col : Z) : M cli cur :=
  match fuel with
  | O => out_of_fuel
  | S fuel =>
      s ← get;
      cmd ← lift_opt (cli_cmds s !! t);
      erase_to plen col;;
      puts (name cmd);; strcpy (line, 0) (name cmd);;
      let n := Z.of_nat (length (name cmd)) in
      c ← getchar;
      let t := if bool_decide (end_ = Some (S t)) then start else S t in
      if c =? TAB then complete_loop fuel line plen start end_ t (n + plen)
      else ungetc c;; mret (Cur n (n + plen) n)
  end.

Definition cmd_autocomplete (line plen : Z) (k : cur) : M cli cur :=
  store (line, cp k) 0;;
  b ← object line;
  s ← skip_blanks (S (length b)) (line, 0);
  c ← load s;
  if c =? 0 then mret k else
  e ← skip_word (S (length b)) s;
  store e 0;;
  w ← string_at s;
  st ← get;
  match completions w 0 (cli_cmds st) None with
  | (None, _) => mret k
  | (Some start, end_) => complete_loop (S (length (stdin st))) line plen start end_ start (ccol k)
  end.

(** [while (p < buffer + blen)] *)
Fixpoint readline_loop (fuel : nat) (buffer blen plen : Z) (k : cur) : M cli Z :=
  match fuel with
  | O => out_of_fuel
  | S fuel =>
      if negb (cp k <? blen) then mret (cn k) else
      c ← wait_char;
      if (c =? 13) || (c =? 10) then store (buffer, cp k) 0;; puts [13; 10];; mret (cp k)
      else if c =? 0 then readline_loop fuel buffer blen plen k
      else if c =? 0x03 then store (buffer, 0) 0;; mret (-1)
      else if c =? 0x15 then
        erase_to plen (ccol k);; readline_loop fuel buffer blen plen (Cur 0 (Z.min plen (ccol k)) 0)
      else if c =? 0x17 then
        k ← delete_char buffer plen k;
        k ← erase_word_loop (S (Z.to_nat (cn k))) buffer plen k;
        readline_loop fuel buffer blen plen k
      else if (c =? 0x08) || (c =? 0x7F) then
        k ← delete_char buffer plen k; readline_loop fuel buffer blen plen k
      else if c =? ESC then
        k ← handle_escape_sequence buffer plen k; readline_loop fuel buffer blen plen k
      else if c =? TAB then
        k ← cmd_autocomplete buffer plen k; readline_loop fuel buffer blen plen k
      else if cn k <? blen - 2 then
        puts (echo (ccol k) c);; store (buffer, cp k) (u8 c);;
        readline_loop fuel buffer blen plen (Cur (cp k + 1) (next_col (ccol k) c) (cn k + 1))
      else puts [7];; readline_loop fuel buffer blen plen k
  end.

Definition cli_readline (prompt : option (list Z)) (buffer blen : Z) : M cli Z :=
  puts (default [] prompt);;
  let plen := Z.of_nat (length (default [] prompt)) in
  store (buffer, 0) 0;;
  s ← get;
  readline_loop (S (length (stdin s))) buffer blen plen (Cur 0 plen 0).

(** One round of the task that serves the console. *)
Definition cli_task (depth : nat) (prompt : list Z) (input : Z) : M cli unit :=
  len ← cli_readline (Some prompt) input CMD_MAX_CMDLINE_SIZE;
  if len <=? 0 then mret () else cli_run_command depth (Some (input, 0));; mret ().

End Cli.
