(* ===== verification/CliTheorems.v ===== *)
(** * Theorems on the command line interface

    Lines that are made of words, quoted words and commands separated by [;]
    are run as a reference definition says; the history refines the list of all
    commands so far; and the line editor computes what a list of keys means. *)

From Stdlib Require Import String.
From stdpp Require Import base tactics numbers list gmap.
From S2P Require Import Prelude Cli.

(** ** Strings and buffers *)

Definition nozero (t : list Z) : Prop := Forall (λ c, c ≠ 0) t.

Lemma cstr_app t r : nozero t → cstr (t ++ 0 :: r) = Some t.
Proof.
  induction t as [|c t IH]; intros Ht; simpl; [done|].
  apply Forall_cons in Ht as [Hc Ht]. rewrite (proj2 (Z.eqb_neq c 0) Hc), (IH Ht). done.
Qed.

Lemma cstr_nozero b t : cstr b = Some t → nozero t.
Proof.
  revert t. induction b as [|c b IH]; intros t; simpl; [done|].
  destruct (Z.eqb_spec c 0); [intros [= <-]; by constructor|].
  destruct (cstr b) as [u|]; simpl; [|done]. intros [= <-]. constructor; [done|]. by apply IH.
Qed.

Lemma splice_app (a d x r : list Z) : length d = length x → splice (a ++ d ++ r) (length a) x = a ++ x ++ r.
Proof.
  intros Hl. unfold splice. rewrite take_app_length. f_equal. f_equal.
  rewrite drop_app_ge by lia. replace (length a + length x - length a)%nat with (length d) by lia.
  by rewrite drop_app_length.
Qed.

Lemma splice_length b ofs (d : list Z) : (ofs + length d ≤ length b)%nat → length (splice b ofs d) = length b.
Proof. intros. unfold splice. rewrite !length_app, length_take, length_drop. lia. Qed.

(** Changing one object. *)
Definition set_obj (o : Z) (b : list Z) (s : cli) : cli := set_heap (<[o := b]> (heap s)) s.

Lemma set_obj_obj o b b' s : set_obj o b (set_obj o b' s) = set_obj o b s.
Proof. unfold set_obj, set_heap; simpl. by rewrite insert_insert_eq. Qed.
Lemma heap_set_obj o b s : heap (set_obj o b s) !! o = Some b.
Proof. apply lookup_insert_eq. Qed.
Lemma set_obj_id o b s : heap s !! o = Some b → set_obj o b s = s.
Proof. intros Hb. unfold set_obj, set_heap. rewrite insert_id by done. by destruct s. Qed.
#[export] Hint Rewrite set_obj_obj : wise.

Section Memory.
Context (s : cli) (o : Z).

Lemma object_run b : heap s !! o = Some b → object o s = Ret (b, s).
Proof. intros Hb. unfold object, mbind, M_bind, get, lift_opt. by rewrite Hb. Qed.

Lemma load_at pre c r : heap s !! o = Some (pre ++ c :: r) → load (o, Z.of_nat (length pre)) s = Ret (c, s).
Proof.
  intros Hb. unfold load. simpl. rewrite (bind_Ret _ _ _ _ _ (object_run _ Hb)).
  rewrite (proj2 (Z.ltb_ge _ _)) by lia. rewrite Nat2Z.id, list_lookup_middle by done. done.
Qed.

Lemma write_at pre d x r : heap s !! o = Some (pre ++ d ++ r) → length d = length x →
  write_bytes (o, Z.of_nat (length pre)) x s = Ret ((), set_obj o (pre ++ x ++ r) s).
Proof.
  intros Hb Hl. unfold write_bytes. simpl. rewrite (bind_Ret _ _ _ _ _ (object_run _ Hb)).
  rewrite (proj2 (orb_false_iff _ _)).
  - rewrite Nat2Z.id, splice_app by done. done.
  - rewrite !length_app. split; [apply Z.ltb_ge|apply Z.ltb_ge]; lia.
Qed.

Lemma store_at pre c x r : heap s !! o = Some (pre ++ c :: r) →
  store (o, Z.of_nat (length pre)) x s = Ret ((), set_obj o (pre ++ x :: r) s).
Proof. intros Hb. unfold store. by rewrite (write_at pre [c] [x] r Hb). Qed.

Lemma string_at_at pre t r : heap s !! o = Some (pre ++ t ++ 0 :: r) → nozero t →
  string_at (o, Z.of_nat (length pre)) s = Ret (t, s).
Proof.
  intros Hb Ht. unfold string_at. simpl. rewrite (bind_Ret _ _ _ _ _ (object_run _ Hb)).
  rewrite (proj2 (Z.ltb_ge _ _)) by lia. rewrite Nat2Z.id, drop_app_length, cstr_app by done. done.
Qed.

Lemma string_at_0 t r : heap s !! o = Some (t ++ 0 :: r) → nozero t → string_at (o, 0) s = Ret (t, s).
Proof. apply (string_at_at []). Qed.
End Memory.

(** ** The reference for lines *)

(** A word that something follows: blanks before it, and the character that
    ends it, which is a quote after a quoted word. *)
Record item := Item { lead : list Z; quoted : bool; body : list Z; sep : Z }.

Definition blanks (l : list Z) : Prop := Forall (λ c, is_blank c = true) l.

(** What a character of a word is not. *)
Definition word_char (inquote : bool) (c : Z) : Prop :=
  c ≠ 0 ∧ is_blank c = false ∧ c ≠ BACKSLASH ∧ c ≠ (if inquote then QUOTE else SEMI).

Definition plain (w : list Z) : Prop :=
  match w with [] => False | c :: _ => c ≠ QUOTE end ∧ Forall (word_char false) w.

Definition item_ok (i : item) : Prop :=
  blanks (lead i) ∧
  if quoted i then Forall (word_char true) (body i) ∧ sep i = QUOTE
  else plain (body i) ∧ is_blank (sep i) = true.

Definition open_quote (i : item) : list Z := if quoted i then [QUOTE] else [].
Definition item_text (i : item) : list Z := lead i ++ open_quote i ++ body i ++ [sep i].
(** What the parser leaves of it. *)
Definition item_done (i : item) : list Z := lead i ++ open_quote i ++ body i ++ [0].

(** One command: words, and a last word that nothing follows; no last word
    stands for trailing blanks. *)
Record seg := Seg { items : list item; last_lead : list Z; last_body : list Z }.

Definition seg_ok (g : seg) : Prop :=
  Forall item_ok (items g) ∧ blanks (last_lead g) ∧ (last_body g = [] ∨ plain (last_body g)).

Definition seg_text (g : seg) : list Z := (items g ≫= item_text) ++ last_lead g ++ last_body g.
Definition last_args (w : list Z) : list (list Z) := if bool_decide (w = []) then [] else [w].
Definition seg_args (g : seg) : list (list Z) :=
  (body <$> items g) ++ last_args (last_body g).

(** Commands are separated by [;], directly behind the last word. *)
Fixpoint line_text (l : list seg) (e : seg) : list Z :=
  match l with
  | [] => seg_text e
  | g :: l => seg_text g ++ SEMI :: line_text l e
  end.

Definition line_ok (l : list seg) (e : seg) : Prop :=
  Forall (λ g, seg_ok g ∧ last_body g ≠ [] ∧ (length (seg_args g) < CMD_MAX_ARGV)%nat) l ∧
  seg_ok e ∧ (length (seg_args e) < CMD_MAX_ARGV)%nat.

(** ** Parsing *)

(** A finished argument in the first part of the line. *)
Definition arg_in (o : Z) (pre : list Z) (p : ptr) (w : list Z) : Prop :=
  nozero w ∧ ∃ x y, pre = x ++ w ++ 0 :: y ∧ p = (o, Z.of_nat (length x)).

Lemma arg_in_app o pre r p w : arg_in o pre p w → arg_in o (pre ++ r) p w.
Proof.
  intros (Hw&x&y&->&->). split; [done|]. exists x, (y ++ r). split; [|done].
  rewrite <-!app_assoc. done.
Qed.

Lemma arg_in_run o pre p w s : arg_in o pre p w → heap s !! o = Some pre → string_at p s = Ret (w, s).
Proof. intros (Hw&x&y&->&->) Hs. by apply (string_at_at s o x w y). Qed.

Lemma args_in_run o pre s l ws : Forall2 (arg_in o pre) l ws → heap s !! o = Some pre →
  arg_strs (APtr <$> l) s = Ret (ws, s).
Proof.
  induction 1 as [|p w l ws Hp _ IH]; intros Hs; simpl; [done|].
  rewrite (bind_Ret _ _ _ _ _ (arg_in_run _ _ _ _ _ Hp Hs)), (bind_Ret _ _ _ _ _ (IH Hs)). done.
Qed.

Section Parse.
Context (o : Z).

Lemma adv_at (pre : list Z) c : adv (o, Z.of_nat (length pre)) 1 = (o, Z.of_nat (length (pre ++ [c]))).
Proof. unfold adv. simpl. rewrite length_app. simpl. f_equal. lia. Qed.

Lemma app_mid (pre : list Z) c r : pre ++ c :: r = (pre ++ [c]) ++ r.
Proof. by rewrite <-app_assoc. Qed.

Lemma skip_blanks_run s l : ∀ pre c r fuel, heap s !! o = Some (pre ++ l ++ c :: r) → blanks l → is_blank c = false →
  (length l < fuel)%nat →
  skip_blanks fuel (o, Z.of_nat (length pre)) s = Ret ((o, Z.of_nat (length (pre ++ l))), s).
Proof.
  induction l as [|b l IH]; intros pre c r [|fuel] Hs Hl Hc Hf; simpl in Hf; try lia; simpl in *.
  - rewrite (bind_Ret _ _ _ _ _ (load_at s o pre c r Hs)), Hc, app_nil_r. done.
  - apply Forall_cons in Hl as [Hb Hl].
    rewrite (bind_Ret _ _ _ _ _ (load_at s o pre b _ Hs)), Hb, (adv_at pre b).
    rewrite (app_mid pre) in Hs. rewrite (IH _ c r fuel Hs Hl Hc) by lia. by rewrite <-app_assoc.
Qed.

(** Going through a word to the character that stops it. *)
Lemma word_loop_run s q w : ∀ pre c r fuel, heap s !! o = Some (pre ++ w ++ c :: r) → Forall (word_char q) w →
  (length w < fuel)%nat →
  word_loop fuel q (o, Z.of_nat (length pre)) s =
  word_loop (fuel - length w) q (o, Z.of_nat (length (pre ++ w))) s.
Proof.
  induction w as [|x w IH]; intros pre c r fuel Hs Hw Hf; simpl in Hf |- *.
  - by rewrite app_nil_r, Nat.sub_0_r.
  - destruct fuel as [|fuel]; [lia|]. apply Forall_cons in Hw as [(H0&Hb&Hbs&Hq) Hw].
    cbn [word_loop]. rewrite (bind_Ret _ _ _ _ _ (load_at s o pre x _ Hs)).
    rewrite (proj2 (Z.eqb_neq x 0)), Hb, (proj2 (Z.eqb_neq x BACKSLASH)) by done. redb.
    simpl in Hs. rewrite (app_mid pre) in Hs.
    rewrite (adv_at pre x).
    destruct q; rewrite (proj2 (Z.eqb_neq x _) Hq);
      rewrite (IH _ c r fuel Hs Hw) by lia; by rewrite <-app_assoc.
Qed.

(** A character that ends a word without ending the command. *)
Lemma word_loop_stop s q pre c r fuel : heap s !! o = Some (pre ++ c :: r) → (0 < fuel)%nat →
  c = 0 ∨ is_blank c = true ∨ (q = true ∧ c = QUOTE) →
  word_loop fuel q (o, Z.of_nat (length pre)) s = Ret (((o, Z.of_nat (length pre)), false), s).
Proof.
  intros Hs Hf Hc. destruct fuel as [|fuel]; [lia|]. cbn [word_loop].
  rewrite (bind_Ret _ _ _ _ _ (load_at s o pre c r Hs)).
  destruct Hc as [->|[Hc|[-> ->]]]; [done| |done]. by rewrite Hc, orb_true_r.
Qed.

Lemma word_loop_semi s pre r fuel : heap s !! o = Some (pre ++ SEMI :: r) → (0 < fuel)%nat →
  word_loop fuel false (o, Z.of_nat (length pre)) s =
  Ret (((o, Z.of_nat (length (pre ++ [0]))), true), set_obj o (pre ++ 0 :: r) s).
Proof.
  intros Hs Hf. destruct fuel as [|fuel]; [lia|]. cbn [word_loop].
  rewrite (bind_Ret _ _ _ _ _ (load_at s o pre SEMI r Hs)).
  change ((SEMI =? 0) || is_blank SEMI) with false. change (SEMI =? BACKSLASH) with false.
  change (SEMI =? SEMI) with true. cbn match.
  rewrite (bind_Ret _ _ _ _ _ (store_at s o pre SEMI 0 r Hs)). by rewrite (adv_at pre 0).
Qed.

Lemma word_char_nozero q w : Forall (word_char q) w → nozero w.
Proof. intros Hw. eapply Forall_impl; [exact Hw|]. by intros c (H0&_). Qed.

Lemma plain_first w : plain w → ∃ c w', w = c :: w' ∧ c ≠ 0 ∧ is_blank c = false ∧ (c =? QUOTE) = false.
Proof.
  intros [Hq Hw]. destruct w as [|c w]; [done|]. apply Forall_cons in Hw as [(H0&Hb&_) _].
  exists c, w. split_and!; try done. by apply Z.eqb_neq.
Qed.

(** Behind the blanks: the opening quote, if there is one. *)
Lemma item_first i : item_ok i → ∃ c w, open_quote i ++ body i ++ [sep i] = c :: w ∧ c ≠ 0 ∧ is_blank c = false ∧
  (c =? QUOTE) = quoted i.
Proof.
  intros [_ Hi]. unfold open_quote. destruct (quoted i).
  - by exists QUOTE, (body i ++ [sep i]).
  - destruct Hi as [Hp _]. destruct (plain_first _ Hp) as (c&w&->&H0&Hb&Hq). by exists c, (w ++ [sep i]).
Qed.

Lemma item_body i : item_ok i → Forall (word_char (quoted i)) (body i) ∧ sep i ≠ 0 ∧
  (is_blank (sep i) = true ∨ (quoted i = true ∧ sep i = QUOTE)).
Proof.
  intros [_ Hi]. destruct (quoted i); [destruct Hi as [Hw ->]; split_and!; [done|done|by right]|].
  destruct Hi as [[_ Hw] Hb]. split_and!; [done| |by left]. intros E. by rewrite E in Hb.
Qed.

(** One turn of the loop over the arguments. *)
Lemma item_run s fuel room pre i r argv : item_ok i → heap s !! o = Some (pre ++ item_text i ++ r) →
  (length (item_text i) < fuel)%nat → ∃ p, arg_in o (pre ++ item_done i) p (body i) ∧
  parse_args fuel (S room) (o, Z.of_nat (length pre)) argv s =
  parse_args fuel room (o, Z.of_nat (length (pre ++ item_done i))) (argv ++ [p])
    (set_obj o (pre ++ item_done i ++ r) s).
Proof.
  intros Hi Hs Hf. destruct (item_first i Hi) as (c&w&Ew&H0&Hb&Hq).
  destruct (item_body i Hi) as (Hw&Hsep0&Hsep). destruct Hi as [Hl _].
  unfold item_text in Hs, Hf. rewrite !length_app in Hf. simpl in Hf.
  set (p := pre ++ lead i ++ open_quote i).
  exists (o, Z.of_nat (length p)). unfold item_done. split.
  { split; [by eapply word_char_nozero|]. exists p, []. split; [|done]. unfold p. by rewrite <-!app_assoc. }
  cbn [parse_args].
  assert (heap s !! o = Some (pre ++ lead i ++ c :: w ++ r)) as Hs1.
  { change (c :: w ++ r) with ((c :: w) ++ r). rewrite <-Ew, Hs. by rewrite <-!app_assoc. }
  rewrite (bind_Ret _ _ _ _ _ (skip_blanks_run s (lead i) pre c (w ++ r) fuel Hs1 Hl Hb ltac:(lia))).
  assert (heap s !! o = Some ((pre ++ lead i) ++ c :: w ++ r)) as Hs2 by (by rewrite <-app_assoc).
  rewrite (bind_Ret _ _ _ _ _ (load_at s o _ c _ Hs2)). rewrite (proj2 (Z.eqb_neq c 0) H0), Hq.
  assert ((if quoted i then adv (o, Z.of_nat (length (pre ++ lead i))) 1 else (o, Z.of_nat (length (pre ++ lead i))))
          = (o, Z.of_nat (length p))) as ->.
  { unfold p, open_quote. destruct (quoted i); [rewrite (adv_at _ QUOTE), <-app_assoc|rewrite app_nil_r]; done. }
  assert (heap s !! o = Some (p ++ body i ++ sep i :: r)) as Hs3.
  { rewrite Hs. unfold p. by rewrite <-!app_assoc. }
  assert (heap s !! o = Some ((p ++ body i) ++ sep i :: r)) as Hs4 by (by rewrite <-app_assoc).
  assert (word_loop fuel (quoted i) (o, Z.of_nat (length p)) s =
          Ret (((o, Z.of_nat (length (p ++ body i))), false), s)) as Hloop.
  { rewrite (word_loop_run s (quoted i) (body i) p _ r fuel Hs3 Hw) by lia.
    apply (word_loop_stop s _ _ (sep i) r); [done|lia|]. destruct Hsep as [?|[??]]; [by right; left|by right; right]. }
  rewrite (bind_Ret _ _ _ _ _ Hloop). cbn [fst snd].
  rewrite (bind_Ret _ _ _ _ _ (load_at s o _ _ _ Hs4)), (proj2 (Z.eqb_neq _ 0) Hsep0).
  rewrite (bind_Ret _ _ _ _ _ (store_at s o _ _ 0 _ Hs4)), (adv_at _ 0).
  unfold p. by rewrite <-!app_assoc.
Qed.

Lemma items_run : ∀ its s fuel room pre r argv, Forall item_ok its →
  heap s !! o = Some (pre ++ (its ≫= item_text) ++ r) → (length (its ≫= item_text) < fuel)%nat → ∃ ps,
  Forall2 (arg_in o (pre ++ (its ≫= item_done))) ps (body <$> its) ∧
  parse_args fuel (length its + room) (o, Z.of_nat (length pre)) argv s =
  parse_args fuel room (o, Z.of_nat (length (pre ++ (its ≫= item_done)))) (argv ++ ps)
    (set_obj o (pre ++ (its ≫= item_done) ++ r) s).
Proof.
  induction its as [|i its IH]; intros s fuel room pre r argv Hits Hs Hf.
  - exists []. rewrite !app_nil_r. simpl in *. rewrite set_obj_id by done. by split.
  - apply Forall_cons in Hits as [Hi Hits]. rewrite !bind_cons in Hs, Hf |- *. rewrite <-app_assoc in Hs.
    rewrite length_app in Hf.
    destruct (item_run s fuel (length its + room) pre i _ argv Hi Hs ltac:(lia)) as (p&Hp&Hrun).
    destruct (IH (set_obj o (pre ++ item_done i ++ (its ≫= item_text) ++ r) s) fuel room (pre ++ item_done i) r
      (argv ++ [p]) Hits) as (ps&Hps&Hrun2); [by rewrite heap_set_obj, <-app_assoc|lia|].
    exists (p :: ps). split.
    + simpl. constructor; [rewrite app_assoc; by apply arg_in_app|]. by rewrite app_assoc.
    + simpl length. change (S (length its) + room)%nat with (S (length its + room)).
      rewrite Hrun, Hrun2, set_obj_obj. by rewrite <-!app_assoc.
Qed.

(** The last word, or blanks, before the end of the line. *)
Lemma last_end_run s fuel room pre l w r argv : heap s !! o = Some (pre ++ l ++ w ++ 0 :: r) → blanks l →
  w = [] ∨ plain w → (length l + length w < fuel)%nat → ∃ ps,
  Forall2 (arg_in o (pre ++ l ++ w ++ 0 :: r)) ps (last_args w) ∧
  parse_args fuel (S room) (o, Z.of_nat (length pre)) argv s = Ret (((o, Z.of_nat (length (pre ++ l ++ w))), argv ++ ps), s).
Proof.
  intros Hs Hl Hw Hf. cbn [parse_args]. destruct Hw as [->|Hw]; simpl in *.
  - exists []. split; [constructor|].
    rewrite (bind_Ret _ _ _ _ _ (skip_blanks_run s l pre 0 r fuel Hs Hl eq_refl ltac:(lia))).
    rewrite app_assoc in Hs. rewrite (bind_Ret _ _ _ _ _ (load_at s o _ _ _ Hs)). simpl. by rewrite !app_nil_r.
  - destruct (plain_first _ Hw) as (c&w'&E&H0&Hb&Hq). destruct Hw as [_ Hw].
    exists [(o, Z.of_nat (length (pre ++ l)))]. split.
    { unfold last_args. rewrite bool_decide_false by (by rewrite E). constructor; [|constructor]. split; [by eapply word_char_nozero|].
      exists (pre ++ l), r. by rewrite <-app_assoc. }
    assert (heap s !! o = Some (pre ++ l ++ c :: w' ++ 0 :: r)) as Hs1 by (by rewrite Hs, E).
    rewrite (bind_Ret _ _ _ _ _ (skip_blanks_run s l pre c _ fuel Hs1 Hl Hb ltac:(lia))).
    rewrite app_assoc in Hs1. rewrite (bind_Ret _ _ _ _ _ (load_at s o _ _ _ Hs1)).
    rewrite (proj2 (Z.eqb_neq c 0) H0), Hq. rewrite app_assoc in Hs.
    assert (word_loop fuel false (o, Z.of_nat (length (pre ++ l))) s =
      Ret (((o, Z.of_nat (length ((pre ++ l) ++ w))), false), s)) as Hloop.
    { rewrite (word_loop_run s false w _ _ _ fuel Hs Hw) by lia. rewrite app_assoc in Hs.
      apply (word_loop_stop s _ _ 0 r); [done|lia|by left]. }
    rewrite (bind_Ret _ _ _ _ _ Hloop). cbn [fst snd]. rewrite app_assoc in Hs.
    rewrite (bind_Ret _ _ _ _ _ (load_at s o _ _ _ Hs)). simpl. by rewrite <-app_assoc.
Qed.

(** The last word before a semicolon. *)
Lemma last_semi_run s fuel room pre l w r argv : heap s !! o = Some (pre ++ l ++ w ++ SEMI :: r) → blanks l →
  plain w → (length l + length w < fuel)%nat →
  parse_args fuel (S room) (o, Z.of_nat (length pre)) argv s =
  Ret (((o, Z.of_nat (length (pre ++ l ++ w ++ [0]))), argv ++ [(o, Z.of_nat (length (pre ++ l)))]),
       set_obj o (pre ++ l ++ w ++ 0 :: r) s).
Proof.
  intros Hs Hl Hw Hf. cbn [parse_args]. destruct (plain_first _ Hw) as (c&w'&E&H0&Hb&Hq). destruct Hw as [_ Hw].
  assert (heap s !! o = Some (pre ++ l ++ c :: w' ++ SEMI :: r)) as Hs1 by (by rewrite Hs, E).
  rewrite (bind_Ret _ _ _ _ _ (skip_blanks_run s l pre c _ fuel Hs1 Hl Hb ltac:(lia))).
  rewrite app_assoc in Hs1. rewrite (bind_Ret _ _ _ _ _ (load_at s o _ _ _ Hs1)).
  rewrite (proj2 (Z.eqb_neq c 0) H0), Hq. rewrite app_assoc in Hs.
  rewrite (bind_Ret (word_loop _ _ _) _ s ((o, Z.of_nat (length (((pre ++ l) ++ w) ++ [0]))), true)
    (set_obj o (((pre ++ l) ++ w) ++ 0 :: r) s)); [cbn [fst snd]; by rewrite <-!app_assoc|].
  rewrite (word_loop_run s false w _ _ _ fuel Hs Hw) by lia. rewrite app_assoc in Hs.
  by apply word_loop_semi; [|lia].
Qed.
End Parse.

Lemma room_for g : (length (seg_args g) < CMD_MAX_ARGV)%nat →
  ∃ room, CMD_MAX_ARGV = (length (items g) + S room)%nat.
Proof.
  unfold seg_args. rewrite length_app, length_fmap. intros Hl.
  exists (CMD_MAX_ARGV - S (length (items g)))%nat. lia.
Qed.

Lemma seg_text_length g : (length (items g ≫= item_text) + (length (last_lead g) + length (last_body g)) =
  length (seg_text g))%nat.
Proof. unfold seg_text. by rewrite !length_app. Qed.

Lemma items_done_length g : length (items g ≫= item_done) = length (items g ≫= item_text).
Proof.
  induction (items g) as [|i l IH]; [done|]. rewrite !bind_cons, !length_app, IH.
  unfold item_done, item_text. by rewrite !length_app.
Qed.

Lemma argc_ok g (ps : list ptr) P : Forall2 P ps (seg_args g) → (length (seg_args g) < CMD_MAX_ARGV)%nat →
  (CMD_MAX_ARGV <=? length ps)%nat = false.
Proof. intros Hp Hl. apply Forall2_length in Hp. apply Nat.leb_gt. by rewrite Hp. Qed.

(** [cli_parse_line] on the last command of a line. *)
Lemma cli_parse_end s o pre g r : seg_ok g → (length (seg_args g) < CMD_MAX_ARGV)%nat →
  heap s !! o = Some (pre ++ seg_text g ++ 0 :: r) → ∃ ps pre',
  Forall2 (arg_in o (pre' ++ 0 :: r)) ps (seg_args g) ∧ (length pre' = length pre + length (seg_text g))%nat ∧
  cli_parse_line (o, Z.of_nat (length pre)) s = Ret (((o, Z.of_nat (length pre')), ps), set_obj o (pre' ++ 0 :: r) s).
Proof.
  intros (Hits&Hl&Hb) Hargs Hs. destruct (room_for g Hargs) as (room&Hroom). pose proof (seg_text_length g) as Hlen.
  unfold cli_parse_line. rewrite (bind_Ret _ _ _ _ _ (object_run s o _ Hs)).
  set (fuel := S (length (pre ++ seg_text g ++ 0 :: r))).
  assert (length (seg_text g) < fuel)%nat by (unfold fuel; rewrite !length_app; simpl; lia).
  unfold seg_text in Hs. rewrite <-!app_assoc in Hs.
  destruct (items_run o (items g) s fuel (S room) pre _ [] Hits Hs ltac:(lia)) as (ps&Hps&Hrun).
  set (q := pre ++ (items g ≫= item_done)) in *.
  set (s1 := set_obj o _ s) in Hrun.
  assert (heap s1 !! o = Some (q ++ last_lead g ++ last_body g ++ 0 :: r)) as Hs1.
  { unfold s1. rewrite heap_set_obj. unfold q. by rewrite <-app_assoc. }
  destruct (last_end_run o s1 fuel room q _ _ _ ps Hs1 Hl Hb ltac:(lia)) as (ps2&Hps2&Hrun2).
  assert (Forall2 (arg_in o ((q ++ last_lead g ++ last_body g) ++ 0 :: r)) (ps ++ ps2) (seg_args g)) as Hall.
  { rewrite <-!app_assoc. apply Forall2_app; [|exact Hps2].
    eapply Forall2_impl; [exact Hps|]. intros. by apply arg_in_app. }
  exists (ps ++ ps2), (q ++ last_lead g ++ last_body g). split; [done|]. split.
  { unfold q. rewrite !length_app. pose proof (items_done_length g). lia. }
  rewrite Hroom, (bind_Ret _ _ _ _ _ (eq_trans Hrun Hrun2)). cbn [fst snd].
  rewrite <-Hroom, (argc_ok g _ _ Hall Hargs). unfold s1. do 3 f_equal. unfold q. by rewrite <-!app_assoc.
Qed.

(** The same on a command that another one follows. *)
Lemma parse_semi s o pre g r : seg_ok g → last_body g ≠ [] → (length (seg_args g) < CMD_MAX_ARGV)%nat →
  heap s !! o = Some (pre ++ seg_text g ++ SEMI :: r) → ∃ ps pre',
  Forall2 (arg_in o (pre' ++ r)) ps (seg_args g) ∧ (length pre' = length pre + S (length (seg_text g)))%nat ∧
  cli_parse_line (o, Z.of_nat (length pre)) s = Ret (((o, Z.of_nat (length pre')), ps), set_obj o (pre' ++ r) s).
Proof.
  intros (Hits&Hl&Hb) Hne Hargs Hs. destruct Hb as [?|Hb]; [done|].
  destruct (room_for g Hargs) as (room&Hroom). pose proof (seg_text_length g) as Hlen.
  unfold cli_parse_line. rewrite (bind_Ret _ _ _ _ _ (object_run s o _ Hs)).
  set (fuel := S (length (pre ++ seg_text g ++ SEMI :: r))).
  assert (length (seg_text g) < fuel)%nat by (unfold fuel; rewrite !length_app; simpl; lia).
  unfold seg_text in Hs. rewrite <-!app_assoc in Hs.
  destruct (items_run o (items g) s fuel (S room) pre _ [] Hits Hs ltac:(lia)) as (ps&Hps&Hrun).
  set (q := pre ++ (items g ≫= item_done)) in *. set (s1 := set_obj o _ s) in Hrun.
  assert (heap s1 !! o = Some (q ++ last_lead g ++ last_body g ++ SEMI :: r)) as Hs1.
  { unfold s1. rewrite heap_set_obj. unfold q. by rewrite <-app_assoc. }
  pose proof (last_semi_run o s1 fuel room q _ _ _ ps Hs1 Hl Hb ltac:(lia)) as Hrun2.
  set (p := (o, Z.of_nat (length (q ++ last_lead g)))) in *.
  set (pre' := q ++ last_lead g ++ last_body g ++ [0]) in *.
  assert (Forall2 (arg_in o (pre' ++ r)) (ps ++ [p]) (seg_args g)) as Hall.
  { unfold seg_args, pre'. unfold last_args. rewrite bool_decide_false by done.
    apply Forall2_app.
    - eapply Forall2_impl; [exact Hps|]. intros. rewrite <-app_assoc. by apply arg_in_app.
    - constructor; [|constructor]. split; [by eapply word_char_nozero, Hb|].
      exists (q ++ last_lead g), r. by rewrite <-!app_assoc. }
  exists (ps ++ [p]), pre'. split_and!; [done| |].
  - unfold pre', q. rewrite !length_app. simpl. pose proof (items_done_length g). lia.
  - rewrite Hroom, (bind_Ret _ _ _ _ _ (eq_trans Hrun Hrun2)). cbn [fst snd].
    rewrite <-Hroom, (argc_ok g _ _ Hall Hargs). unfold s1. rewrite set_obj_obj. unfold pre'. by rewrite <-!app_assoc.
Qed.

(** ** Running commands *)

(** What a command line does to the rest of the system. *)
Definition note (cs : list (Z * list (list Z))) (t : list Z) (s : cli) : cli :=
  Cli (heap s) (next_id s) (cmd_history s) (cmd_hindex s) (cmd_cursor s) (cmd_locked s) (stdin s)
    (output s ++ t) (calls s ++ cs).

Lemma note_note cs t cs' t' s : note cs' t' (note cs t s) = note (cs ++ cs') (t ++ t') s.
Proof. unfold note; simpl. by rewrite <-!app_assoc. Qed.
Lemma note_nil s : note [] [] s = s.
Proof. unfold note. rewrite !app_nil_r. by destruct s. Qed.
Lemma note_set_obj cs t o b s : set_obj o b (note cs t s) = note cs t (set_obj o b s).
Proof. done. Qed.
Lemma puts_note t s : puts t s = Ret ((), note [] t s).
Proof. unfold puts, modify, add_output, note. by rewrite app_nil_r. Qed.

Definition args_help (c : cli_cmd) : list (list Z) := [name c; str "help"].

Section Spec.
Context `{CliConfig, Handlers}.

(** One command: the result, the calls of handlers, and what is printed. *)
Definition one_cmd (cmds : list cli_cmd) (args : list (list Z)) : Z * list (Z * list (list Z)) * list Z :=
  let a0 := default [] (head args) in
  match cli_find_cmd a0 cmds with
  | None => (-1, [], str "Unknown command: " ++ a0 ++ [10])
  | Some c =>
      match handler c with
      | Ext id =>
          let r := ext_run id args in
          if r.1 =? CMD_RET_USAGE then
            match usage c with
            | Some u => (r.1, [(id, args)], r.2 ++ str "Usage: " ++ u ++ [10])
            | None => (0, [(id, args); (id, args_help c)], r.2 ++ (ext_run id (args_help c)).2)
            end
          else if r.1 =? CMD_RET_FAILURE then (r.1, [(id, args)], r.2 ++ str "Error: " ++ a0 ++ [10])
          else (r.1, [(id, args)], r.2)
      | _ => (0, [], [])
      end
  end.

(** Commands are run until one does not succeed. *)
Fixpoint run_spec (cmds : list cli_cmd) (ret : Z) (l : list (list (list Z))) : Z * list (Z * list (list Z)) * list Z :=
  match l with
  | [] => (ret, [], [])
  | args :: l =>
      if bool_decide (args = []) then (ret, [], []) else
      let '(rc, cs, t) := one_cmd cmds args in
      if rc =? CMD_RET_SUCCESS then
        let '(r, cs', t') := run_spec cmds rc l in (r, cs ++ cs', t ++ t')
      else (rc, cs, t)
  end.

(** The command is not one of [history] and [help]. *)
Definition external (cmds : list cli_cmd) (args : list (list Z)) : Prop :=
  ∀ c, cli_find_cmd (default [] (head args)) cmds = Some c → ∃ id, handler c = Ext id.

Lemma exec_ext depth id argv args s : arg_strs argv s = Ret (args, s) →
  exec (S depth) (Ext id) argv s = Ret ((ext_run id args).1, note [(id, args)] (ext_run id args).2 s).
Proof.
  intros Ha. cbn [exec]. rewrite (bind_Ret _ _ _ _ _ Ha), (bind_Ret (modify _) _ _ _ _ eq_refl).
  rewrite (bind_Ret _ _ _ _ _ (puts_note _ _)). unfold mret, M_ret, note, add_call; simpl.
  by rewrite app_nil_r.
Qed.

Lemma process_run depth o pre s ps args : Forall2 (arg_in o pre) ps args → heap s !! o = Some pre → args ≠ [] →
  external (cli_cmds s) args →
  cli_process_cmd (exec (S depth)) (APtr <$> ps) s =
  let '(rc, cs, t) := one_cmd (cli_cmds s) args in Ret (rc, note cs t s).
Proof.
  intros Hps Hs Hne Hext. pose proof (args_in_run _ _ _ _ _ Hps Hs) as Hargs.
  destruct args as [|a0 args]; [done|]. inversion Hps as [|p ? ps' ? Hp Hps']; subst. clear Hne.
  unfold cli_process_cmd. rewrite (bind_Ret get _ _ _ _ eq_refl).
  assert (@lift_opt cli _ (head (APtr <$> p :: ps')) s = Ret (APtr p, s)) as Hh by reflexivity.
  rewrite (bind_Ret _ _ _ _ _ Hh).
  rewrite (bind_Ret (arg_str (APtr p)) _ s a0 s (arg_in_run _ _ _ _ _ Hp Hs)).
  unfold one_cmd, external in *. simpl default in *.
  destruct (cli_find_cmd a0 (cli_cmds s)) as [c|] eqn:Ec.
  - destruct (Hext c eq_refl) as (id&Hid). rewrite Hid.
    rewrite (bind_Ret _ _ _ _ _ (exec_ext depth id _ _ _ Hargs)).
    destruct (_ =? CMD_RET_USAGE).
    + destruct (usage c) as [u|].
      * rewrite (bind_Ret _ _ _ _ _ (puts_note _ _)), note_note, app_nil_r. done.
      * rewrite (bind_Ret _ _ _ _ _ (exec_ext depth id [AStr (name c); AStr (str "help")] (args_help c) _ eq_refl)).
        by rewrite note_note.
    + destruct (_ =? CMD_RET_FAILURE); [|done].
      rewrite (bind_Ret (arg_str (APtr p)) _ _ a0 _ (arg_in_run _ _ _ _ (note _ _ s) Hp Hs)).
      rewrite (bind_Ret _ _ _ _ _ (puts_note _ _)), note_note, app_nil_r. done.
  - rewrite (bind_Ret _ _ _ _ _ (puts_note _ _)). done.
Qed.

(** A whole line: the commands in their order, up to one that fails. *)
Lemma run_loop_run depth o e : ∀ l s pre r fuel ret, line_ok l e →
  Forall (external (cli_cmds s)) ((seg_args <$> l) ++ [seg_args e]) →
  heap s !! o = Some (pre ++ line_text l e ++ 0 :: r) → (S (length (line_text l e)) < fuel)%nat →
  let '(rc, cs, t) := run_spec (cli_cmds s) ret ((seg_args <$> l) ++ [seg_args e]) in
  ∃ b, length b = length (pre ++ line_text l e ++ 0 :: r) ∧
  run_loop (exec (S depth)) fuel (o, Z.of_nat (length pre)) ret s = Ret (rc, note cs t (set_obj o b s)).
Proof.
  induction l as [|g l IH]; intros s pre r fuel ret (Hl&He&Hn) Hext Hs Hf;
    (destruct fuel as [|fuel]; [lia|]); cbn [line_text run_loop fmap list_fmap app run_spec] in *.
  - destruct (cli_parse_end s o pre e r He Hn Hs) as (ps&pre'&Hps&Hlen&Hrun). rewrite (bind_Ret _ _ _ _ _ Hrun).
    cbn [fst snd]. set (s1 := set_obj o _ s) in *.
    assert (length (pre' ++ 0 :: r) = length (pre ++ seg_text e ++ 0 :: r)) as Hkeep
      by (rewrite !length_app, Hlen; simpl; lia).
    assert (heap s1 !! o = Some (pre' ++ 0 :: r)) as Hs1 by apply heap_set_obj.
    destruct (bool_decide_reflect (seg_args e = [])) as [Ee|Ee].
    + rewrite Ee in Hps. apply Forall2_nil_inv_r in Hps as ->. rewrite bool_decide_true by done.
      exists (pre' ++ 0 :: r). split; [done|]. by rewrite note_nil.
    + rewrite bool_decide_false by (intros ->; by inversion Hps).
      apply Forall_cons in Hext as [Hext _].
      pose proof (process_run depth o _ s1 ps (seg_args e) Hps Hs1 Ee Hext) as Hp.
      change (cli_cmds s1) with (cli_cmds s) in Hp.
      destruct (one_cmd (cli_cmds s) (seg_args e)) as [[rc cs] t]. rewrite (bind_Ret _ _ _ _ _ Hp).
      destruct (Z.eqb_spec rc CMD_RET_SUCCESS) as [->|]; [|by exists (pre' ++ 0 :: r)].
      (* nothing is left of the line *)
      destruct fuel as [|fuel]; [lia|]. cbn [run_loop].
      destruct (cli_parse_end (note cs t s1) o pre' (Seg [] [] []) r) as (ps2&pre2&Hps2&Hlen2&Hrun2);
        [by repeat constructor|simpl; unfold CMD_MAX_ARGV; lia|done|].
      rewrite (bind_Ret _ _ _ _ _ Hrun2). apply Forall2_nil_inv_r in Hps2 as ->. cbn [snd].
      rewrite bool_decide_true by done. exists (pre2 ++ 0 :: r). split.
      { rewrite <-Hkeep, !length_app, Hlen2. simpl. lia. }
      rewrite !app_nil_r.
      unfold s1. by rewrite note_set_obj, set_obj_obj.
  - apply Forall_cons in Hl as [(Hg&Hb&Hgn) Hl]. apply Forall_cons in Hext as [Hx Hext].
    rewrite <-app_assoc in Hs. simpl in Hs. rewrite length_app in Hf. simpl in Hf.
    destruct (parse_semi s o pre g _ Hg Hb Hgn Hs) as (ps&pre'&Hps&Hlen&Hrun). rewrite (bind_Ret _ _ _ _ _ Hrun).
    cbn [fst snd]. set (s1 := set_obj o _ s) in *.
    assert (heap s1 !! o = Some (pre' ++ line_text l e ++ 0 :: r)) as Hs1 by apply heap_set_obj.
    assert (seg_args g ≠ []) as Hne.
    { unfold seg_args, last_args. rewrite bool_decide_false by done. by destruct (body <$> items g). }
    rewrite (bool_decide_false (seg_args g = [])) by done.
    rewrite (bool_decide_false (ps = [])) by (intros ->; apply Forall2_nil_inv_l in Hps; done).
    pose proof (process_run depth o _ s1 ps (seg_args g) Hps Hs1 Hne Hx) as Hp.
    change (cli_cmds s1) with (cli_cmds s) in Hp.
    destruct (one_cmd (cli_cmds s) (seg_args g)) as [[rc cs] t]. rewrite (bind_Ret _ _ _ _ _ Hp).
    assert (length (pre' ++ line_text l e ++ 0 :: r) = length (pre ++ (seg_text g ++ SEMI :: line_text l e) ++ 0 :: r)) as Hkeep
      by (rewrite !length_app, Hlen; simpl; lia).
    destruct (Z.eqb_spec rc CMD_RET_SUCCESS) as [->|]; [|by eexists].
    specialize (IH (note cs t s1) pre' r fuel 0 (conj Hl (conj He Hn)) Hext Hs1 ltac:(lia)).
    change (cli_cmds (note cs t s1)) with (cli_cmds s) in IH.
    destruct (run_spec _ _ _) as [[r' cs'] t']. destruct IH as (b&Hlb&Hb2). exists b.
    split; [congruence|]. etrans; [exact Hb2|]. rewrite note_set_obj, note_note. unfold s1. by rewrite set_obj_obj.
Qed.
End Spec.
