(* ===== verification/CliHistory.v ===== *)
(** * The history of the command line

    [cmd_history] is a ring of pointers to copies of the lines.  It refines the
    list of all lines so far, with a cursor: the last N - 1 of them can be
    recalled, and exactly their copies are allocated. *)

From stdpp Require Import base tactics numbers list gmap.
From S2P Require Import Prelude Cli CliTheorems.

(** ** The reference *)

(** The lines, oldest first, and the place of the cursor. *)
Record hist := Hist { all : list (list Z); at_ : Z }.

Definition len (h : hist) : Z := Z.of_nat (length (all h)).

Section Spec.
Context `{CliConfig, Handlers}.

Abbreviation N := CONFIG_CLI_MAX_HISTORY.

Definition oldest (h : hist) : Z := Z.max 0 (len h - (N - 1)).

(** A line that repeats the last one is not recorded again. *)
Definition spec_add (t : list Z) (h : hist) : hist :=
  if bool_decide (last (all h) = Some t) then Hist (all h) (len h)
  else if malloc_ok (Z.of_nat (length t) + 1) then Hist (all h ++ [t]) (len h + 1)
  else h.

Definition spec_back (h : hist) : option (list Z) * hist :=
  (if oldest h <=? at_ h - 1 then all h !! Z.to_nat (at_ h - 1) else None, Hist (all h) (Z.max (at_ h - 1) (oldest h))).

Definition spec_forward (h : hist) : option (list Z) * hist :=
  if at_ h =? len h then (None, h) else (all h !! Z.to_nat (at_ h + 1), Hist (all h) (at_ h + 1)).
End Spec.

(** ** Representation *)

Section History.
Context `{CliConfig, Handlers}.
Abbreviation N := CONFIG_CLI_MAX_HISTORY.
Context (k : Z) (Hk : 1 ≤ k) (HN : N = 2 ^ k).

(** [F]: the objects that others own; [ob i]: the copy of line [i]. *)
Record hist_rep (F : gset Z) (ob : Z → Z) (h : hist) (s : cli) : Prop := {
  hr_len : Z.of_nat (length (cmd_history s)) = N;
  hr_hindex : cmd_hindex s = len h;
  hr_cursor : cmd_cursor s = at_ h;
  hr_at : oldest h ≤ at_ h ≤ len h;
  hr_slot i : len h - N < i ≤ len h →
    cmd_history s !! Z.to_nat (i mod N) = Some (if (0 <=? i) && (i <? len h) then Some (ob i) else None);
  hr_live i : oldest h ≤ i < len h →
    ∃ t, all h !! Z.to_nat i = Some t ∧ heap s !! ob i = Some (t ++ [0]) ∧ nozero t ∧ ob i ∉ F;
  hr_inj i j : oldest h ≤ i < len h → oldest h ≤ j < len h → ob i = ob j → i = j;
  hr_own o : o ∈ F → is_Some (heap s !! o);
  hr_dom o : is_Some (heap s !! o) → o < next_id s ∧ (o ∈ F ∨ ∃ i, oldest h ≤ i < len h ∧ o = ob i);
}.

Lemma N_ge : 2 ≤ N.
Proof using Hk HN. rewrite HN. change 2 with (2 ^ 1) at 1. apply Z.pow_le_mono_r; lia. Qed.

Lemma hindex_mod i : hindex i = i mod N.
Proof using Hk HN. unfold hindex. rewrite HN. apply land_mask. lia. Qed.

Lemma mod_range i : 0 ≤ i mod N < N.
Proof using Hk HN. pose proof N_ge. apply Z.mod_pos_bound. lia. Qed.

Lemma mod_window i j : i mod N = j mod N → - N < i - j < N → i = j.
Proof using Hk HN.
  pose proof N_ge. intros Hm Hr. assert (N ≠ 0) as Hz by lia.
  pose proof (Z.div_mod i N Hz). pose proof (Z.div_mod j N Hz).
  assert (i / N = j / N) as E by nia. rewrite E in *. lia.
Qed.

Lemma mod_shift i : (i - N) mod N = i mod N.
Proof using Hk HN. pose proof N_ge. rewrite <-(Z_mod_plus_full (i - N) 1 N). f_equal. lia. Qed.

Section Rep.
Context (F : gset Z) (ob : Z → Z) (h : hist) (s : cli) (R : hist_rep F ob h s).

Definition entry (i : Z) : option Z := if (oldest h <=? i) && (i <? len h) then Some (ob i) else None.

Lemma slot_run i : len h - N ≤ i ≤ len h → slot (hindex i) s = Ret (entry i, s).
Proof using All.
  intros Hi. unfold slot, entry, oldest. rewrite (bind_Ret get _ _ _ _ eq_refl), hindex_mod. pose proof (mod_range i).
  pose proof N_ge. rewrite (proj2 (Z.ltb_ge _ _)) by lia. unfold lift_opt.
  destruct (Z.eq_dec i (len h - N)) as [->|].
  - rewrite mod_shift, (hr_slot _ _ _ _ R (len h)), Z.ltb_irrefl, andb_false_r by lia.
    rewrite (proj2 (Z.leb_gt _ _)) by lia. done.
  - rewrite (hr_slot _ _ _ _ R i) by lia. do 3 f_equal. destruct (Z.leb_spec 0 i); simpl.
    + by rewrite (proj2 (Z.leb_le (Z.max _ _) i)) by lia.
    + by rewrite (proj2 (Z.leb_gt (Z.max _ _) i)) by lia.
Qed.

Lemma live_string i : oldest h ≤ i < len h → ∃ t, all h !! Z.to_nat i = Some t ∧ nozero t ∧
  string_at (ob i, 0) s = Ret (t, s).
Proof using All.
  intros Hi. destruct (hr_live _ _ _ _ R i Hi) as (t&Ht&Hh&Hz&_). exists t. split_and!; [done|done|].
  by apply (string_at_0 s (ob i) t []).
Qed.

(** Reading what a search returned. *)
Definition read_hist (o : option Z) : M cli (option (list Z)) :=
  match o with Some o => t ← string_at (o, 0); mret (Some t) | None => mret None end.

Lemma read_entry i : read_hist (entry i) s = Ret (if oldest h <=? i then all h !! Z.to_nat i else None, s).
Proof using All.
  unfold entry. destruct (Z.leb_spec (oldest h) i); simpl; [|done]. destruct (Z.ltb_spec i (len h)).
  - destruct (live_string i) as (t&->&_&Hs); [done|]. unfold read_hist. by rewrite (bind_Ret _ _ _ _ _ Hs).
  - rewrite lookup_ge_None_2; [done|]. unfold len in *. lia.
Qed.

(** Moving the cursor. *)
Lemma rep_cursor c : oldest h ≤ c ≤ len h → hist_rep F ob (Hist (all h) c) (set_cursor c s).
Proof using R. intros Hc. destruct R. by constructor. Qed.

Lemma back_run : ∃ o, cmd_history_search_backward s = Ret (o, set_cursor (at_ (spec_back h).2) s) ∧
  read_hist o s = Ret ((spec_back h).1, s) ∧ hist_rep F ob (spec_back h).2 (set_cursor (at_ (spec_back h).2) s).
Proof using All.
  pose proof (hr_at _ _ _ _ R) as Hat. pose proof N_ge. unfold oldest in Hat.
  assert (cmd_oldest_index s = oldest h) as Ho.
  { unfold cmd_oldest_index, oldest. rewrite (hr_hindex _ _ _ _ R). destruct (Z.gtb_spec 0 (len h - (N - 1))); lia. }
  assert (len h - N ≤ at_ h - 1 ≤ len h) as Hw by lia. exists (entry (at_ h - 1)). split_and!.
  - unfold cmd_history_search_backward. rewrite (bind_Ret get _ _ _ _ eq_refl), Ho, (hr_cursor _ _ _ _ R).
    rewrite (bind_Ret _ _ _ _ _ (slot_run (at_ h - 1) Hw)), (bind_Ret (modify _) _ _ _ _ eq_refl).
    unfold mret, M_ret. simpl. do 3 f_equal. destruct (Z.gtb_spec (at_ h - 1) (oldest h)); lia.
  - apply read_entry.
  - apply rep_cursor. simpl. unfold oldest. lia.
Qed.

Lemma hist_forward_run : ∃ o, cmd_history_search_forward s = Ret (o, set_cursor (at_ (spec_forward h).2) s) ∧
  read_hist o s = Ret ((spec_forward h).1, s) ∧
  hist_rep F ob (spec_forward h).2 (set_cursor (at_ (spec_forward h).2) s).
Proof using All.
  pose proof (hr_at _ _ _ _ R) as Hat. pose proof N_ge. unfold oldest in Hat.
  unfold cmd_history_search_forward, spec_forward.
  rewrite (bind_Ret get _ _ _ _ eq_refl), (hr_cursor _ _ _ _ R), (hr_hindex _ _ _ _ R).
  destruct (Z.eqb_spec (at_ h) (len h)) as [E|E]; simpl.
  - exists None. split_and!; [|done|].
    + unfold mret, M_ret. do 2 f_equal. rewrite <-(hr_cursor _ _ _ _ R). by destruct s.
    + rewrite <-(hr_cursor _ _ _ _ R). replace (set_cursor (cmd_cursor s) s) with s by (by destruct s). exact R.
  - rewrite (bind_Ret (modify _) _ _ _ _ eq_refl). exists (entry (at_ h + 1)). split_and!.
    + assert (len h - N ≤ at_ h + 1 ≤ len h) as Hw by lia. pose proof (slot_run (at_ h + 1) Hw) as Hs. unfold slot in *.
      rewrite (bind_Ret get _ _ _ _ eq_refl) in Hs. rewrite (bind_Ret get _ _ _ _ eq_refl).
      change (cmd_history (set_cursor (at_ h + 1) s)) with (cmd_history s).
      destruct (_ <? 0); [done|]. unfold lift_opt in *. destruct (cmd_history s !! _); [|done].
      injection Hs as ->. reflexivity.
    + rewrite read_entry. unfold oldest. by rewrite (proj2 (Z.leb_le _ _)) by lia.
    + apply rep_cursor. unfold oldest. lia.
Qed.
End Rep.

(** ** Recording a line *)

(** What others can see does not change. *)
Definition framed (F : gset Z) (s s' : cli) : Prop :=
  (∀ o, o ∈ F → heap s' !! o = heap s !! o) ∧ stdin s' = stdin s ∧ output s' = output s ∧ calls s' = calls s ∧
  cmd_locked s' = cmd_locked s.

Lemma framed_refl F s : framed F s s.
Proof. by repeat split. Qed.
Lemma framed_trans F s1 s2 s3 : framed F s1 s2 → framed F s2 s3 → framed F s1 s3.
Proof.
  intros (Ha&?&?&?&?) (Hb&?&?&?&?). split_and!; [|congruence..].
  intros o Ho. by rewrite Hb, Ha.
Qed.

Lemma string_at_nozero p s t s' : string_at p s = Ret (t, s') → nozero t.
Proof.
  unfold string_at. intros (b&s1&_&Hs)%bind_Ret_inv. destruct (_ <? 0); [done|].
  unfold lift_opt in Hs. destruct (cstr _) eqn:E; [|done]. injection Hs as -> ->. by eapply cstr_nozero.
Qed.

Lemma string_at_framed F p s s' t : framed F s s' → p.1 ∈ F → string_at p s = Ret (t, s) → string_at p s' = Ret (t, s').
Proof.
  intros (Hf&_) Hp. unfold string_at, object, mbind, M_bind, get, lift_opt. rewrite (Hf _ Hp).
  destruct (heap s !! p.1); [|done]. destruct (_ <? 0); [done|]. destruct (cstr _); [|done]. by intros [= ->].
Qed.

Lemma slot_ne i j : - N < i - j < N → i ≠ j → Z.to_nat (i mod N) ≠ Z.to_nat (j mod N).
Proof using Hk HN.
  intros Hr Hne E. pose proof (mod_range i). pose proof (mod_range j). apply Hne.
  apply mod_window; [lia|done].
Qed.

Lemma evicted_live h : 0 ≤ len h + 1 - N → oldest h ≤ len h + 1 - N < len h.
Proof using Hk HN. pose proof N_ge. unfold oldest, len. lia. Qed.

Section Add.
Context (F : gset Z) (ob : Z → Z) (h : hist) (s : cli) (R : hist_rep F ob h s) (t : list Z).

Let id := next_id s.
(** The line that has to go. *)
Let e := len h + 1 - N.
Let ob' (i : Z) := if i =? len h then id else ob i.

Definition evicted (m : gmap Z (list Z)) : gmap Z (list Z) := if 0 <=? e then delete (ob e) m else m.

Definition appended : cli :=
  Cli (evicted (<[id := t ++ [0]]> (heap s))) (id + 1)
    (<[Z.to_nat ((len h + 1) mod N) := None]> (<[Z.to_nat (len h mod N) := Some id]> (cmd_history s)))
    (len h + 1) (len h + 1) (cmd_locked s) (stdin s) (output s) (calls s).

Lemma ob_old i : oldest h ≤ i < len h → ob i < id.
Proof using All. intros Hi. destruct (hr_live _ _ _ _ R i Hi) as (u&_&Hh&_). by apply (hr_dom _ _ _ _ R). Qed.

(** Objects that stay. *)
Lemma evicted_keep o v : evicted (<[id := v]> (heap s)) !! o = if decide (0 ≤ e ∧ o = ob e) then None
  else if decide (o = id) then Some v else heap s !! o.
Proof using k.
  unfold evicted. destruct (Z.leb_spec 0 e) as [He|He].
  - destruct (decide (o = ob e)) as [->|Hne].
    + rewrite decide_True by done. by rewrite lookup_delete_eq.
    + rewrite decide_False by naive_solver. rewrite lookup_delete_ne by done.
      destruct (decide (o = id)) as [->|]; [by rewrite lookup_insert_eq|by rewrite lookup_insert_ne].
  - rewrite decide_False by lia.
    destruct (decide (o = id)) as [->|]; [by rewrite lookup_insert_eq|by rewrite lookup_insert_ne].
Qed.

Lemma appended_slot i : e < i ≤ len h + 1 →
  cmd_history appended !! Z.to_nat (i mod N) = Some (if (0 <=? i) && (i <? len h + 1) then Some (ob' i) else None).
Proof using All.
  intros Hi. pose proof N_ge. pose proof (hr_len _ _ _ _ R) as Hl. pose proof (mod_range i). unfold e, ob' in *. simpl.
  assert (0 ≤ len h) by (unfold len; lia).
  destruct (Z.eq_dec i (len h + 1)) as [->|Hn1].
  { rewrite list_lookup_insert_eq by (rewrite length_insert; lia). by rewrite Z.ltb_irrefl, andb_false_r. }
  rewrite list_lookup_insert_ne by (apply slot_ne; lia).
  rewrite (proj2 (Z.ltb_lt i (len h + 1))), andb_true_r by lia. destruct (Z.eqb_spec i (len h)) as [->|Hn2].
  { rewrite list_lookup_insert_eq by lia. by rewrite (proj2 (Z.leb_le 0 _)). }
  rewrite list_lookup_insert_ne by (apply slot_ne; lia). rewrite (hr_slot _ _ _ _ R i) by lia.
  by rewrite (proj2 (Z.ltb_lt i (len h))), andb_true_r by lia.
Qed.

Lemma appended_live (Ht : nozero t) i : Z.max 0 (e + 1) ≤ i < len h + 1 →
  ∃ u, (all h ++ [t]) !! Z.to_nat i = Some u ∧ heap appended !! ob' i = Some (u ++ [0]) ∧ nozero u ∧ ob' i ∉ F.
Proof using All.
  intros Hi. pose proof N_ge. unfold ob'. simpl. rewrite evicted_keep. destruct (Z.eqb_spec i (len h)) as [->|Hn].
  - exists t. unfold len at 1. rewrite Nat2Z.id, list_lookup_middle by done. split_and!; [done| |done|].
    + rewrite decide_False; [by rewrite decide_True|]. intros [He E]. pose proof (ob_old e (evicted_live h He)). lia.
    + intros Hid%(hr_own _ _ _ _ R)%(hr_dom _ _ _ _ R). unfold id in Hid. lia.
  - assert (oldest h ≤ i < len h) as Hi' by (unfold oldest, e in *; lia).
    destruct (hr_live _ _ _ _ R i Hi') as (u&Hu&Hh&Hz&HF). exists u. split_and!; [|..|done|done].
    + apply lookup_app_l_Some. done.
    + pose proof (ob_old i Hi'). rewrite decide_False; [by rewrite decide_False by lia|].
      intros [He E]. apply (hr_inj _ _ _ _ R) in E; [lia|done|by apply evicted_live].
Qed.

Lemma appended_rep (Ht : nozero t) : hist_rep F ob' (Hist (all h ++ [t]) (len h + 1)) appended.
Proof using All.
  pose proof N_ge. assert (len (Hist (all h ++ [t]) (len h + 1)) = len h + 1) as El.
  { unfold len. simpl. rewrite length_app. simpl. lia. }
  assert (oldest (Hist (all h ++ [t]) (len h + 1)) = Z.max 0 (e + 1)) as Eo by (unfold oldest, e; rewrite El; f_equal; lia).
  assert (0 ≤ len h) by (unfold len; lia).
  constructor; rewrite ?El, ?Eo; cbn [all at_].
  - cbn [appended cmd_history]. rewrite !length_insert. apply R.
  - done.
  - done.
  - unfold e. lia.
  - intros i Hi. apply appended_slot. unfold e. lia.
  - apply (appended_live Ht).
  - intros i j Hi Hj. unfold ob'.
    assert (∀ x, Z.max 0 (e + 1) ≤ x < len h + 1 → x ≠ len h → oldest h ≤ x < len h) as Hx by (unfold oldest, e; lia).
    destruct (Z.eqb_spec i (len h)), (Z.eqb_spec j (len h)); [lia|..].
    + intros E. pose proof (ob_old j ltac:(by apply Hx)). lia.
    + intros E. pose proof (ob_old i ltac:(by apply Hx)). lia.
    + apply (hr_inj _ _ _ _ R); by apply Hx.
  - intros o Ho. cbn [appended heap]. rewrite evicted_keep. pose proof (hr_own _ _ _ _ R o Ho) as Hs.
    rewrite decide_False; [by destruct (decide (o = id))|]. intros [He ->].
    by destruct (hr_live _ _ _ _ R e (evicted_live h He)) as (?&_&_&_&?).
  - intros o. cbn [appended heap next_id]. rewrite evicted_keep. case_decide as Hd; [by intros []|].
    case_decide as Hid.
    + intros _. split; [lia|]. right. exists (len h). unfold ob'. rewrite Z.eqb_refl. unfold e. split; [lia|done].
    + intros Hs. destruct (hr_dom _ _ _ _ R o Hs) as [Hlt [HF|(i&Hi&->)]]; (split; [fold id in Hlt; lia|]); [by left|].
      right. exists i. unfold ob'. rewrite (proj2 (Z.eqb_neq i (len h))) by lia. split; [|done].
      assert (i ≠ e) by (intros ->; apply Hd; split; [|done]; unfold oldest in Hi; lia). unfold oldest, e in *. lia.
Qed.
End Add.

(** The last line, compared with a new one. *)
Lemma same_last F ob h s t : hist_rep F ob h s →
  same_string (entry ob h (len h - 1)) t s = Ret (bool_decide (last (all h) = Some t), s).
Proof using All.
  intros R. pose proof N_ge. unfold entry, oldest. assert (last (all h) = all h !! Z.to_nat (len h - 1)) as ->.
  { rewrite last_lookup. f_equal. unfold len. lia. }
  rewrite (proj2 (Z.ltb_lt _ _)), andb_true_r by lia. destruct (Z.leb_spec (Z.max 0 (len h - (N - 1))) (len h - 1)).
  - destruct (live_string F ob h s R (len h - 1)) as (u&->&_&Hs); [unfold oldest; lia|].
    simpl. rewrite (bind_Ret _ _ _ _ _ Hs). unfold mret, M_ret. do 2 f_equal. apply bool_decide_ext. naive_solver.
  - rewrite (lookup_ge_None_2 (all h)); [done|]. unfold len in *. lia.
Qed.

Lemma set_slot_run i v s : 0 ≤ i < Z.of_nat (length (cmd_history s)) →
  set_slot i v s = Ret ((), set_history (<[Z.to_nat i := v]> (cmd_history s)) s).
Proof.
  intros Hi. unfold set_slot. rewrite (bind_Ret get _ _ _ _ eq_refl).
  rewrite (proj2 (Z.ltb_ge i 0)), (proj2 (Z.leb_gt _ i)) by lia. done.
Qed.

(** [cmd_history_add] is [spec_add]. *)
Lemma hist_add_run F ob h s p t : hist_rep F ob h s → string_at p s = Ret (t, s) → len h < 2 ^ 31 - 1 →
  ∃ ob' s', cmd_history_add p s = Ret ((), s') ∧ hist_rep F ob' (spec_add t h) s' ∧ framed F s s'.
Proof using All.
  intros R Hp Hlen. pose proof N_ge as HN2. unfold cmd_history_add, spec_add. pose proof (hr_at _ _ _ _ R) as Hat.
  assert (0 ≤ len h) as Hl0 by (unfold len; lia).
  assert (len h - N ≤ len h - 1 ≤ len h) as Hw by lia.
  rewrite (bind_Ret get _ _ _ _ eq_refl), (hr_hindex _ _ _ _ R).
  rewrite (bind_Ret _ _ _ _ _ (slot_run F ob h s R (len h - 1) Hw)), (bind_Ret _ _ _ _ _ Hp).
  rewrite (bind_Ret _ _ _ _ _ (same_last F ob h s t R)). destruct (bool_decide_reflect (last (all h) = Some t)).
  { exists ob, (set_cursor (len h) s). split_and!; [done| |done]. apply rep_cursor; [done|lia]. }
  unfold strdup. destruct (malloc_ok _); redb.
  2: { exists ob, s. split_and!; [done|done|apply framed_refl]. }
  rewrite (bind_Ret _ _ s (Some (next_id s)) (new_object (next_id s) (t ++ [0]) s) eq_refl).
  rewrite (proj2 (geb_false _ _)) by lia. set (s1 := new_object _ _ s).
  pose proof (mod_range (len h)). pose proof (mod_range (len h + 1)). pose proof (hr_len _ _ _ _ R) as Hcap.
  assert (0 ≤ len h mod N < Z.of_nat (length (cmd_history s1))) as Hr1 by (simpl; lia).
  rewrite !hindex_mod. rewrite (bind_Ret _ _ _ _ _ (set_slot_run (len h mod N) (Some (next_id s)) s1 Hr1)).
  rewrite !(bind_Ret (modify _) _ _ _ _ eq_refl). set (s2 := set_cursor _ _).
  set (e := len h + 1 - N).
  assert (slot ((len h + 1) mod N) s2 = Ret (if 0 <=? e then Some (ob e) else None, s2)) as Hold.
  { unfold slot. rewrite (bind_Ret get _ _ _ _ eq_refl). rewrite (proj2 (Z.ltb_ge _ _)) by lia.
    cbn [s2 set_cursor set_hindex set_history s1 new_object cmd_history].
    rewrite list_lookup_insert_ne by (apply slot_ne; lia). rewrite <-(mod_shift (len h + 1)). fold e.
    rewrite (hr_slot _ _ _ _ R e) by (unfold e; lia). rewrite (proj2 (Z.ltb_lt e _)), andb_true_r by (unfold e; lia). done. }
  rewrite (bind_Ret _ _ _ _ _ Hold).
  assert (∃ s', (match (if 0 <=? e then Some (ob e) else None) with
            | Some old => free old;; set_slot ((len h + 1) mod N) None | None => mret () end) s2 = Ret ((), s') ∧
           s' = appended ob h s t) as (s'&Hrun&->).
  { unfold appended, evicted. fold e. destruct (Z.leb_spec 0 e) as [He|He].
    - destruct (hr_live _ _ _ _ R e (evicted_live h He)) as (u&_&Hu&_).
      pose proof (ob_old F ob h s R t e (evicted_live h He)) as Hlt.
      assert (heap s2 !! ob e = Some (u ++ [0])) as Hs2 by (simpl; rewrite lookup_insert_ne by lia; done).
      assert (free (ob e) s2 = Ret ((), set_heap (delete (ob e) (heap s2)) s2)) as Hf.
      { unfold free, mbind, M_bind, get, lift_opt. by rewrite Hs2. }
      rewrite (bind_Ret _ _ _ _ _ Hf), set_slot_run by (simpl; rewrite length_insert; lia).
      eexists. split; [reflexivity|]. done.
    - eexists. split; [reflexivity|]. unfold s2, set_cursor, set_hindex, set_history, s1, new_object; simpl.
      f_equal. rewrite (list_insert_id _ _ None); [done|].
      rewrite list_lookup_insert_ne by (apply slot_ne; lia). rewrite <-(mod_shift (len h + 1)). fold e.
      rewrite (hr_slot _ _ _ _ R e) by (unfold e; lia). by rewrite (proj2 (Z.leb_gt 0 e)). }
  eexists _, _. split_and!; [exact Hrun|apply (appended_rep F ob h s R t); by eapply string_at_nozero|].
  split_and!; try done. intros o Ho. cbn [appended heap]. rewrite (evicted_keep ob h s o). fold e.
  destruct (hr_dom _ _ _ _ R o (hr_own _ _ _ _ R o Ho)) as [Hlt _].
  rewrite decide_False; [by rewrite decide_False by lia|]. intros [He ->].
  by destruct (hr_live _ _ _ _ R e (evicted_live h He)) as (?&_&_&_&?).
Qed.

(** ** Sequences of operations *)

(** Recording the line [t] at [p], and the two keys. *)
Inductive hop := HAdd (p : ptr) (t : list Z) | HBack | HForward.

Definition hop_run (op : hop) : M cli (option (list Z)) :=
  match op with
  | HAdd p _ => cmd_history_add p;; mret None
  | HBack => o ← cmd_history_search_backward; read_hist o
  | HForward => o ← cmd_history_search_forward; read_hist o
  end.

Fixpoint hops_run (l : list hop) : M cli (list (option (list Z))) :=
  match l with [] => mret [] | op :: l => r ← hop_run op; rs ← hops_run l; mret (r :: rs) end.

Definition hop_spec (op : hop) (h : hist) : option (list Z) * hist :=
  match op with
  | HAdd _ t => (None, spec_add t h)
  | HBack => spec_back h
  | HForward => spec_forward h
  end.

Fixpoint hops_spec (l : list hop) (h : hist) : list (option (list Z)) * hist :=
  match l with
  | [] => ([], h)
  | op :: l => let r := hop_spec op h in let rs := hops_spec l r.2 in (r.1 :: rs.1, rs.2)
  end.

(** The line that is recorded is somewhere in memory that others own. *)
Definition hop_ok (F : gset Z) (s : cli) (op : hop) : Prop :=
  match op with HAdd p t => p.1 ∈ F ∧ string_at p s = Ret (t, s) | _ => True end.

Lemma read_cursor o s c r : read_hist o s = Ret (r, s) → read_hist o (set_cursor c s) = Ret (r, set_cursor c s).
Proof.
  destruct o as [o|]; [|by intros [= <-]]. unfold read_hist.
  intros Hr. apply bind_Ret_inv in Hr as (t&s1&Hs&Hr). injection Hr as <- ->.
  rewrite (bind_Ret _ _ _ t (set_cursor c s)); [done|].
  eapply (string_at_framed {[o]}); [|by apply elem_of_singleton|exact Hs]. by repeat split.
Qed.

Lemma hop_refines F ob h s op : hist_rep F ob h s → hop_ok F s op → len h < 2 ^ 31 - 1 →
  ∃ ob' s', hop_run op s = Ret ((hop_spec op h).1, s') ∧ hist_rep F ob' (hop_spec op h).2 s' ∧ framed F s s'.
Proof using All.
  intros R Hop Hlen. destruct op as [p t| |]; simpl.
  - destruct Hop as [_ Hp]. destruct (hist_add_run F ob h s p t R Hp Hlen) as (ob'&s'&Hrun&R'&Hf). exists ob', s'.
    by rewrite (bind_Ret _ _ _ _ _ Hrun).
  - destruct (back_run F ob h s R) as (o&Hrun&Hr&R'). exists ob, (set_cursor (at_ (spec_back h).2) s).
    rewrite (bind_Ret _ _ _ _ _ Hrun), (read_cursor _ _ _ _ Hr). by split_and!.
  - destruct (hist_forward_run F ob h s R) as (o&Hrun&Hr&R'). exists ob, (set_cursor (at_ (spec_forward h).2) s).
    rewrite (bind_Ret _ _ _ _ _ Hrun), (read_cursor _ _ _ _ Hr). by split_and!.
Qed.

Lemma hop_len op h : len (hop_spec op h).2 ≤ len h + 1.
Proof.
  destruct op as [p t| |]; simpl.
  - unfold spec_add. destruct (bool_decide _); [unfold len; simpl; lia|]. destruct (malloc_ok _); [|lia].
    unfold len; simpl. rewrite length_app. simpl. lia.
  - unfold len; simpl. lia.
  - unfold spec_forward. destruct (_ =? _); unfold len; simpl; lia.
Qed.

Lemma hops_refine F : ∀ l ob h s, hist_rep F ob h s → Forall (hop_ok F s) l →
  len h + Z.of_nat (length l) ≤ 2 ^ 31 - 1 →
  ∃ ob' s', hops_run l s = Ret ((hops_spec l h).1, s') ∧ hist_rep F ob' (hops_spec l h).2 s' ∧ framed F s s'.
Proof using All.
  induction l as [|op l IH]; intros ob h s R Hl Hlen; cbn [length] in Hlen.
  { exists ob, s. split_and!; [done|done|apply framed_refl]. }
  apply Forall_cons in Hl as [Hop Hl].
  destruct (hop_refines F ob h s op R Hop ltac:(lia)) as (ob1&s1&Hrun1&R1&Hf1). pose proof (hop_len op h).
  destruct (IH ob1 (hop_spec op h).2 s1 R1) as (ob2&s2&Hrun2&R2&Hf2); [|lia|].
  { eapply Forall_impl; [exact Hl|]. intros [p t| |] Hp; try done. destruct Hp as [HF Hp]. split; [done|].
    by eapply string_at_framed. }
  exists ob2, s2. cbn [hops_run hops_spec fst snd].
  rewrite (bind_Ret _ _ _ _ _ Hrun1), (bind_Ret _ _ _ _ _ Hrun2). split_and!; [done|done|by eapply framed_trans].
Qed.

(** The state after start-up, with the objects [F] of others. *)
Definition fresh_history (F : gset Z) (s : cli) : Prop :=
  cmd_history s = replicate (Z.to_nat N) None ∧ cmd_hindex s = 0 ∧ cmd_cursor s = 0 ∧ dom (heap s) = F ∧
  ∀ o, o ∈ F → o < next_id s.

Lemma fresh_rep F s : fresh_history F s → hist_rep F id (Hist [] 0) s.
Proof using All.
  intros (Hh&Hi&Hc&Hd&Hn). pose proof N_ge. subst F. constructor; try done; unfold oldest, len; simpl.
  - rewrite Hh, length_replicate. lia.
  - lia.
  - intros i _. pose proof (mod_range i). rewrite Hh, lookup_replicate_2 by lia.
    change (Z.of_nat 0) with 0. destruct ((0 <=? i) && (i <? 0)) eqn:E; [lia|done].
  - intros i Hx. exfalso. lia.
  - intros o Ho. by apply elem_of_dom.
  - intros o Ho. apply elem_of_dom in Ho. split; [by apply Hn|by left].
Qed.

(** C13: the history is the list of the lines so far.  From start-up on, for
    every sequence of recorded lines and searches, every search returns what
    the list with a cursor says (of the last N - 1 lines, going no further than
    the oldest of them), nothing faults, and at the end exactly one copy of each
    of the last N - 1 lines is allocated, besides the memory of others, which is
    unchanged.  The size of the ring is a power of two, as the masking needs. *)
Theorem cli_history_refines F s l : fresh_history F s → Forall (hop_ok F s) l → Z.of_nat (length l) < 2 ^ 31 →
  ∃ ob s', hops_run l s = Ret ((hops_spec l (Hist [] 0)).1, s') ∧
  hist_rep F ob (hops_spec l (Hist [] 0)).2 s' ∧ framed F s s'.
Proof using Hk HN.
  intros Hf Hl Hlen. apply (hops_refine F l id (Hist [] 0) s (fresh_rep F s Hf) Hl). unfold len; simpl. lia.
Qed.

End History.

Module Demo.
#[local] Instance demo_cfg : CliConfig := {| CMD_MAX_CMDLINE_SIZE := 32; CONFIG_CLI_MAX_HISTORY := 4 |}.
#[local] Instance demo_handlers : Handlers := {| ext_run _ _ := (0, []); table := []; malloc_ok _ := true |}.

(** Lines [a] to [e] in one object. *)
Definition lines : list Z := [97; 0; 98; 0; 99; 0; 100; 0; 101; 0].
Definition start : cli := Cli {[0 := lines]} 1 (replicate 4 None) 0 0 None [] [] [].
Definition add (i : Z) : hop := HAdd (0, 2 * i) [97 + i].

(** Five lines are recorded, one of them twice; going back stops at the third. *)
Definition ops : list hop := [add 0; HBack; HBack; add 1; add 2; add 2; add 3; HBack; HForward; add 4; HBack; HBack; HBack; HBack].

Lemma cli_history_refines_witness : ∃ ob s',
  hops_run ops start = Ret ([None; Some [97]; None; None; None; None; None; Some [100]; None; None;
    Some [101]; Some [100]; Some [99]; None], s') ∧
  hist_rep {[0]} ob (hops_spec ops (Hist [] 0)).2 s' ∧ framed {[0]} start s'.
Proof.
  refine (cli_history_refines 2 _ _ {[0]} start ops _ _ _).
  - lia.
  - reflexivity.
  - split_and!; try reflexivity. intros o Ho%elem_of_singleton. simpl. lia.
  - repeat (constructor; [first [exact I | split; [by apply elem_of_singleton | reflexivity]]|]). constructor.
  - simpl. lia.
Defined.
End Demo.
