(* ===== verification/CliReadline.v ===== *)
(** * The line editor of the command line

    [cli_readline] computes what the keys mean: characters are appended while
    there is room, keys erase a character, a word or the line, and the arrows
    recall lines of the history.  Together with the parser and the history this
    gives the whole of a round of the console task. *)

From Stdlib Require Import String.
From stdpp Require Import base tactics numbers list gmap.
From S2P Require Import Prelude Cli CliTheorems CliHistory.

(** ** The reference *)

(** Keys; [KOther] are the escape sequences that have no meaning here. *)
Inductive key := KChar (c : Z) | KBackspace | KDelete | KKill | KWord | KUp | KDown | KOther (c : Z) | KNul.

Definition key_bytes (x : key) : list Z :=
  match x with
  | KChar c => [c]
  | KBackspace => [0x08]
  | KDelete => [0x7F]
  | KKill => [0x15]
  | KWord => [0x17]
  | KUp => [ESC; 91; 65]
  | KDown => [ESC; 91; 66]
  | KOther c => [ESC; 91; c]
  | KNul => [0]
  end.

Definition key_ok (x : key) : Prop :=
  match x with
  | KChar c => 0 < c < 256 ∧ c ∉ [13; 10; 0x03; 0x15; 0x17; 0x08; 0x7F; ESC; TAB]
  | KOther c => 67 ≤ c < 0x7f
  | _ => True
  end.

(** ^W on the reversed line: up to and including the last blank. *)
Fixpoint erase_word (l : list Z) : list Z :=
  match l with [] => [] | c :: l => if c =? BLANK then l else erase_word l end.

Section Spec.
Context `{CliConfig, Handlers}.

(** The line and the history after a key, in a buffer of [blen] bytes. *)
Definition press (blen : Z) (x : key) (st : list Z * hist) : list Z * hist :=
  let '(line, h) := st in
  match x with
  | KChar c => (if Z.of_nat (length line) <? blen - 2 then line ++ [c] else line, h)
  | KBackspace | KDelete => (removelast line, h)
  | KKill => ([], h)
  | KWord => (rev (erase_word (rev line)), h)
  | KUp => (default [] (spec_back h).1, (spec_back h).2)
  | KDown => (default [] (spec_forward h).1, (spec_forward h).2)
  | KOther _ | KNul => (line, h)
  end.

Definition typed (blen : Z) (ks : list key) (st : list Z * hist) : list Z * hist :=
  fold_left (λ st x, press blen x st) ks st.
End Spec.

(** ** Input *)

(** The characters that arrive, without the polls that found none. *)
Definition arriving (l : list Z) : list Z := filter (λ c, 0 ≤ c) l.

Lemma wait_run s c bs : arriving (stdin s) = c :: bs → ∃ l,
  wait_char s = Ret (c, set_stdin l s) ∧ arriving l = bs ∧ (length l < length (stdin s))%nat.
Proof.
  intros Hb. unfold wait_char. rewrite (bind_Ret get _ _ _ _ eq_refl).
  assert (∀ l fuel s, stdin s = l → (length l < fuel)%nat → arriving l = c :: bs →
    ∃ l', wait_loop fuel s = Ret (c, set_stdin l' s) ∧ arriving l' = bs ∧ (length l' < length l)%nat) as Hloop; [|by eapply Hloop; [|lia|]].
  clear s Hb. induction l as [|x l IH]; intros [|fuel] s Hs Hf Hb; simpl in Hf; try lia; [done|].
  cbn [wait_loop]. assert (getchar s = Ret (x, set_stdin l s)) as Hg.
  { unfold getchar, mbind, M_bind, get, put. by rewrite Hs. }
  rewrite (bind_Ret _ _ _ _ _ Hg). destruct (Z.ltb_spec x 0).
  - unfold arriving in Hb. rewrite filter_cons_False in Hb by lia.
    destruct (IH fuel (set_stdin l s) eq_refl ltac:(lia) Hb) as (l'&Hrun&Hb'&Hl'). exists l'. split_and!; [done|done|simpl; lia].
  - unfold arriving in Hb. rewrite filter_cons_True in Hb by lia. injection Hb as -> Hb. exists l. split_and!; [done|done|simpl; lia].
Qed.

(** ** Editing *)

Section Editing.
Context `{CliConfig, Handlers}.
Context (k : Z) (Hk : 1 ≤ k) (HN : CONFIG_CLI_MAX_HISTORY = 2 ^ k).
Context (F : gset Z) (ob : Z → Z) (buffer blen plen : Z) (HbF : buffer ∈ F).

(** What editing does not touch. *)
Definition kept (s0 s : cli) : Prop :=
  calls s = calls s0 ∧ cmd_locked s = cmd_locked s0 ∧ ∀ o, o ∈ F → o ≠ buffer → heap s !! o = heap s0 !! o.

(** The line is in the buffer, with room for its end, the history stands, and
    [bs] is still to arrive. *)
Record editing (s0 : cli) (line : list Z) (h : hist) (bs : list Z) (c : cur) (s : cli) : Prop := {
  ed_rep : hist_rep F ob h s;
  ed_buf : ∃ x r, heap s !! buffer = Some (line ++ x :: r) ∧ Z.of_nat (length (line ++ x :: r)) = blen;
  ed_line : nozero line;
  ed_fit : Forall (λ t, Z.of_nat (length t) < blen) (all h);
  ed_in : arriving (stdin s) = bs;
  ed_p : cp c = Z.of_nat (length line);
  ed_n : cn c = Z.of_nat (length line);
  ed_kept : kept s0 s;
}.

Lemma rep_note h t s : hist_rep F ob h s → hist_rep F ob h (note [] t s).
Proof. intros []. by constructor. Qed.
Lemma rep_stdin h l s : hist_rep F ob h s → hist_rep F ob h (set_stdin l s).
Proof. intros []. by constructor. Qed.

Lemma rep_obj h b s : hist_rep F ob h s → hist_rep F ob h (set_obj buffer b s).
Proof using HbF.
  intros R. pose proof (hr_own _ _ _ _ R buffer HbF) as Hsome. destruct R as [R1 R2 R3 R4 R5 R6 R7 R8 R9]. constructor; try assumption; simpl.
  - intros i Hi. destruct (R6 i Hi) as (t&Ht&Hh&Hz&HF). exists t. split_and!; try done.
    rewrite lookup_insert_ne; [done|]. intros ->. done.
  - intros o Ho. destruct (decide (o = buffer)) as [->|]; [rewrite lookup_insert_eq; eauto|].
    rewrite lookup_insert_ne by done. by apply R8.
  - intros o Ho. apply R9. destruct (decide (o = buffer)) as [->|]; [done|].
    by rewrite lookup_insert_ne in Ho.
Qed.

Section Step.
Context (s0 : cli) (line : list Z) (h : hist) (bs : list Z) (c : cur) (s : cli).
Context (E : editing s0 line h bs c s).

Lemma ed_note t : editing s0 line h bs c (note [] t s).
Proof using E.
  destruct E as [R ?????? Hkept]. constructor; first [by apply rep_note | assumption | idtac].
  unfold kept in *. simpl. by rewrite app_nil_r.
Qed.

Lemma ed_stdin l bs' : arriving l = bs' → editing s0 line h bs' c (set_stdin l s).
Proof using E. intros Hl. destruct E. constructor; first [by apply rep_stdin | assumption]. Qed.

Lemma ed_set line' b c' : nozero line' → (∃ x r, b = line' ++ x :: r ∧ Z.of_nat (length (line' ++ x :: r)) = blen) →
  cp c' = Z.of_nat (length line') → cn c' = Z.of_nat (length line') →
  editing s0 line' h bs c' (set_obj buffer b s).
Proof using All.
  intros Hz (x&r&->&Hlen) Hp Hn. destruct E as [R _ _ Hfit Hin _ _ Hkept]. constructor; try assumption.
  - by apply rep_obj.
  - exists x, r. split; [apply heap_set_obj|done].
  - destruct Hkept as (?&?&Hh). split_and!; try done. intros o Ho Hne. simpl. rewrite lookup_insert_ne by done. auto.
Qed.

(** A shorter line in the same buffer. *)
Lemma ed_prefix line' rest col : line = line' ++ rest →
  editing s0 line' h bs (Cur (Z.of_nat (length line')) col (Z.of_nat (length line'))) s.
Proof using E.
  intros ->. destruct E as [R (x&r&Hb&Hl) Hz Hfit Hin _ _ Hkept]. constructor; try done.
  - destruct rest as [|y rest]; [by exists x, r; rewrite app_nil_r in *|].
    exists y, (rest ++ x :: r). simpl in *. rewrite <-app_assoc in Hb, Hl. done.
  - by apply Forall_app in Hz as [].
Qed.
End Step.

Lemma retype_run : ∀ l pre r s col, heap s !! buffer = Some (pre ++ l ++ r) →
  ∃ col' t, retype (length l) (buffer, Z.of_nat (length pre)) col s = Ret (col', note [] t s).
Proof.
  induction l as [|x l IH]; intros pre r s col Hs; cbn [length retype].
  - exists col, []. by rewrite note_nil.
  - simpl in Hs. rewrite (bind_Ret _ _ _ _ _ (load_at s buffer pre x _ Hs)), (bind_Ret _ _ _ _ _ (puts_note _ _)).
    rewrite (adv_at buffer pre x). rewrite (app_mid pre) in Hs.
    destruct (IH (pre ++ [x]) r (note [] (echo col x) s) (next_col col x) Hs) as (col'&t&Hrun).
    exists col', (echo col x ++ t). by rewrite Hrun, note_note.
Qed.

(** [delete_char] takes the last character off. *)
Lemma delete_char_run line x r s col : heap s !! buffer = Some (line ++ x :: r) → ∃ col' t,
  delete_char buffer plen (Cur (Z.of_nat (length (line ++ [x]))) col (Z.of_nat (length (line ++ [x])))) s =
  Ret (Cur (Z.of_nat (length line)) col' (Z.of_nat (length line)), note [] t s).
Proof.
  intros Hs. unfold delete_char. cbn [cn cp ccol]. rewrite length_app. cbn [length].
  rewrite (proj2 (Z.eqb_neq _ 0)) by lia. replace (Z.of_nat (length line + 1) - 1) with (Z.of_nat (length line)) by lia.
  rewrite (bind_Ret _ _ _ _ _ (load_at s buffer line x r Hs)). destruct (x =? TAB).
  - unfold erase_to. rewrite (bind_Ret _ _ _ _ _ (puts_note _ _)), Nat2Z.id.
    destruct (retype_run line [] (x :: r) (note [] (mjoin (replicate (Z.to_nat (col - plen)) erase_seq)) s) (Z.min plen col) Hs) as (col'&t&Hrun).
    simpl length in Hrun. change (Z.of_nat 0) with 0 in Hrun. rewrite (bind_Ret _ _ _ _ _ Hrun), note_note. by eexists _, _.
  - rewrite (bind_Ret _ _ _ _ _ (puts_note _ _)). by eexists _, _.
Qed.

(** The loop of ^W, after [x] has been deleted. *)
Lemma erase_loop_run : ∀ l x r s col fuel, heap s !! buffer = Some (rev l ++ x :: r) → (length l < fuel)%nat →
  ∃ col' t, erase_word_loop fuel buffer plen (Cur (Z.of_nat (length l)) col (Z.of_nat (length l))) s =
  Ret (Cur (Z.of_nat (length (erase_word (x :: l)))) col' (Z.of_nat (length (erase_word (x :: l)))), note [] t s).
Proof.
  induction l as [|y l IH]; intros x r s col [|fuel] Hs Hf; simpl in Hf; try lia; cbn [erase_word_loop cn cp erase_word].
  - exists col, []. rewrite note_nil. by destruct (x =? BLANK).
  - cbn [length]. rewrite (proj2 (Z.gtb_lt _ 0)) by lia. cbn [negb].
    replace (Z.of_nat (S (length l))) with (Z.of_nat (length (rev (y :: l)))) by (by rewrite length_rev).
    rewrite (bind_Ret _ _ _ _ _ (load_at s buffer _ x r Hs)).
    destruct (x =? BLANK); [exists col, []; rewrite note_nil, length_rev; done|].
    simpl rev in Hs |- *. rewrite <-app_assoc in Hs. simpl in Hs.
    destruct (delete_char_run (rev l) y (x :: r) s col Hs) as (col1&t1&Hdel). rewrite (bind_Ret _ _ _ _ _ Hdel), length_rev.
    destruct (IH y (x :: r) (note [] t1 s) col1 fuel Hs ltac:(lia)) as (col2&t2&Hrun).
    exists col2, (t1 ++ t2). rewrite Hrun, note_note. done.
Qed.

(** What [readline_loop] does with a character. *)
Definition dispatch (fuel : nat) (cu : cur) (c : Z) : M cli Z :=
  if (c =? 13) || (c =? 10) then store (buffer, cp cu) 0;; puts [13; 10];; mret (cp cu)
  else if c =? 0 then readline_loop fuel buffer blen plen cu
  else if c =? 0x03 then store (buffer, 0) 0;; mret (-1)
  else if c =? 0x15 then
    erase_to plen (ccol cu);; readline_loop fuel buffer blen plen (Cur 0 (Z.min plen (ccol cu)) 0)
  else if c =? 0x17 then
    cu ← delete_char buffer plen cu;
    cu ← erase_word_loop (S (Z.to_nat (cn cu))) buffer plen cu;
    readline_loop fuel buffer blen plen cu
  else if (c =? 0x08) || (c =? 0x7F) then
    cu ← delete_char buffer plen cu; readline_loop fuel buffer blen plen cu
  else if c =? ESC then
    cu ← handle_escape_sequence buffer plen cu; readline_loop fuel buffer blen plen cu
  else if c =? TAB then
    cu ← cmd_autocomplete buffer plen cu; readline_loop fuel buffer blen plen cu
  else if cn cu <? blen - 2 then
    puts (echo (ccol cu) c);; store (buffer, cp cu) (u8 c);;
    readline_loop fuel buffer blen plen (Cur (cp cu + 1) (next_col (ccol cu) c) (cn cu + 1))
  else puts [7];; readline_loop fuel buffer blen plen cu.

Lemma loop_read s0 line h x bs cu s fuel : editing s0 line h (x :: bs) cu s → ∃ l,
  readline_loop (S fuel) buffer blen plen cu s = dispatch fuel cu x (set_stdin l s) ∧
  editing s0 line h bs cu (set_stdin l s) ∧ (length l < length (stdin s))%nat.
Proof.
  intros E. destruct (wait_run s x bs (ed_in _ _ _ _ _ _ E)) as (l&Hrun&Hl&Hlen). exists l. split_and!; [|by eapply ed_stdin|done].
  cbn [readline_loop]. destruct (ed_buf _ _ _ _ _ _ E) as (y&r&_&Hb). rewrite length_app in Hb. simpl in Hb.
  rewrite (proj2 (Z.ltb_lt _ _)) by (rewrite (ed_p _ _ _ _ _ _ E); lia). cbn [negb].
  by rewrite (bind_Ret _ _ _ _ _ Hrun).
Qed.

(** A key takes a turn of the loop to the next. *)
Definition steps (s0 : cli) (st : list Z * hist) (bs : list Z) (fuel : nat) (cu : cur) (x : Z) (s : cli) : Prop :=
  ∃ cu' s', dispatch fuel cu x s = readline_loop fuel buffer blen plen cu' s' ∧
  editing s0 st.1 st.2 bs cu' s' ∧ (length (stdin s') ≤ length (stdin s))%nat.

Lemma char_steps s0 line h bs cu s fuel c : editing s0 line h bs cu s → key_ok (KChar c) →
  steps s0 (press blen (KChar c) (line, h)) bs fuel cu c s.
Proof using All.
  intros E [Hc Hn]. unfold steps, dispatch, press.
  repeat (apply not_elem_of_cons in Hn as [? Hn]). unfold ESC, TAB in *.
  repeat rewrite (proj2 (Z.eqb_neq c _)) by lia. cbn [orb].
  destruct (ed_buf _ _ _ _ _ _ E) as (y&r&Hb&Hlen). rewrite (ed_n _ _ _ _ _ _ E), (ed_p _ _ _ _ _ _ E).
  destruct (Z.ltb_spec (Z.of_nat (length line)) (blen - 2)).
  - rewrite (bind_Ret _ _ _ _ _ (puts_note _ _)). set (s1 := note _ _ s).
    rewrite (bind_Ret _ _ _ _ _ (store_at s1 buffer line y (u8 c) r Hb)), u8_id by lia.
    eexists _, _. split; [reflexivity|]. split; [|done].
    eapply ed_set; [apply ed_note, E|..]; cbn [fst cp cn].
    + apply Forall_app. split; [apply E|]. constructor; [lia|constructor].
    + rewrite length_app in Hlen. simpl in Hlen. destruct r as [|y2 r]; [simpl in Hlen; lia|].
      exists y2, r. rewrite <-app_assoc. split; [done|]. rewrite length_app. simpl in *. lia.
    + rewrite length_app. simpl. lia.
    + rewrite length_app. simpl. lia.
  - rewrite (bind_Ret _ _ _ _ _ (puts_note _ _)). eexists _, _. split; [reflexivity|]. split; [|done]. by apply ed_note.
Qed.

(** The cursor of an editing state, spelled out. *)
Lemma ed_cur s0 line h bs cu s : editing s0 line h bs cu s →
  cu = Cur (Z.of_nat (length line)) (ccol cu) (Z.of_nat (length line)).
Proof. intros E. rewrite <-(ed_p _ _ _ _ _ _ E) at 1. rewrite <-(ed_n _ _ _ _ _ _ E). by destruct cu. Qed.

(** [delete_char], also on an empty line. *)
Lemma ed_delete s0 line h bs cu s : editing s0 line h bs cu s → ∃ cu' t,
  delete_char buffer plen cu s = Ret (cu', note [] t s) ∧ editing s0 (removelast line) h bs cu' (note [] t s).
Proof.
  intros E. rewrite (ed_cur _ _ _ _ _ _ E). destruct line as [|x line] using rev_ind.
  - eexists _, []. rewrite note_nil. split; [reflexivity|]. simpl. eapply (ed_prefix _ [] _ _ _ _ E [] []). done.
  - clear IHline. destruct (ed_buf _ _ _ _ _ _ E) as (y&r&Hb&_). rewrite <-app_assoc in Hb. simpl in Hb.
    destruct (delete_char_run line x (y :: r) s (ccol cu) Hb) as (col&t&Hrun). eexists _, t. split; [exact Hrun|].
    rewrite removelast_last. eapply ed_prefix; [by apply ed_note|done].
Qed.

Lemma backspace_steps s0 line h bs cu s fuel x : editing s0 line h bs cu s → x = 0x08 ∨ x = 0x7F →
  steps s0 (removelast line, h) bs fuel cu x s.
Proof.
  intros E Hx. destruct (ed_delete _ _ _ _ _ _ E) as (cu'&t&Hrun&E'). unfold steps, dispatch. exists cu', (note [] t s).
  split; [|done]. destruct Hx as [->| ->]; apply (bind_Ret _ _ _ _ _ Hrun).
Qed.

Lemma kill_steps s0 line h bs cu s fuel : editing s0 line h bs cu s → steps s0 ([], h) bs fuel cu 0x15 s.
Proof.
  intros E. unfold steps.
  change (dispatch fuel cu 0x15) with
    (erase_to plen (ccol cu);; readline_loop fuel buffer blen plen (Cur 0 (Z.min plen (ccol cu)) 0)).
  unfold erase_to. rewrite (bind_Ret _ _ _ _ _ (puts_note _ _)). eexists _, _. split; [reflexivity|]. split; [|done].
  eapply (ed_prefix _ _ _ _ _ _ (ed_note _ _ _ _ _ _ E _) [] line). done.
Qed.

Lemma erase_word_prefix l : ∃ rest, rev l = rev (erase_word l) ++ rest.
Proof.
  induction l as [|c l [rest IH]]; [by exists []|]. simpl. destruct (c =? BLANK); [by exists [c]|].
  exists (rest ++ [c]). by rewrite IH, <-app_assoc.
Qed.

Lemma word_steps s0 line h bs cu s fuel : editing s0 line h bs cu s →
  steps s0 (rev (erase_word (rev line)), h) bs fuel cu 0x17 s.
Proof.
  intros E. rewrite (ed_cur _ _ _ _ _ _ E). set (cu' := Cur _ _ _). unfold steps.
  change (dispatch fuel cu' 0x17) with
    (cu ← delete_char buffer plen cu'; cu ← erase_word_loop (S (Z.to_nat (cn cu))) buffer plen cu;
     readline_loop fuel buffer blen plen cu).
  destruct (erase_word_prefix (rev line)) as (rest&Hrest). rewrite rev_involutive in Hrest.
  destruct line as [|x line] using rev_ind.
  - eexists (Cur 0 (ccol cu) 0), s. split; [reflexivity|]. split; [|done]. eapply (ed_prefix _ [] _ _ _ _ E [] []). done.
  - clear IHline. destruct (ed_buf _ _ _ _ _ _ E) as (y&r&Hb&_). rewrite <-app_assoc in Hb. simpl in Hb.
    destruct (delete_char_run line x (y :: r) s (ccol cu) Hb) as (col&t&Hrun). rewrite (bind_Ret _ _ _ _ _ Hrun).
    cbn [cn]. rewrite Nat2Z.id. rewrite <-(length_rev line) in Hrun |- *.
    assert (heap (note [] t s) !! buffer = Some (rev (rev line) ++ x :: y :: r)) as Hb2 by (by rewrite rev_involutive).
    destruct (erase_loop_run (rev line) x (y :: r) (note [] t s) col (S (length (rev line))) Hb2 ltac:(lia)) as (col2&t2&Hrun2).
    rewrite (bind_Ret _ _ _ _ _ Hrun2), note_note. eexists _, _. split; [reflexivity|]. split; [|done].
    rewrite rev_app_distr in Hrest |- *. simpl rev in Hrest |- *. rewrite <-(length_rev (erase_word (x :: rev line))).
    eapply ed_prefix; [by apply ed_note|]. exact Hrest.
Qed.

(** ** The arrows *)

Lemma ed_cursor s0 line h h' bs cu s c : editing s0 line h bs cu s → hist_rep F ob h' (set_cursor c s) →
  all h' = all h → editing s0 line h' bs cu (set_cursor c s).
Proof. intros [] R Ha. constructor; try assumption. by rewrite Ha. Qed.

(** What an arrow does with the result of a search. *)
Definition recall (cu : cur) (search : M cli (option Z)) : M cli cur :=
  erase_to plen (ccol cu);;
  o ← search;
  match o with
  | Some o =>
      t ← string_at (o, 0);
      puts t;; strcpy (buffer, 0) t;;
      let n := Z.of_nat (length t) in mret (Cur n (n + plen) n)
  | None => mret (Cur 0 plen 0)
  end.

(** A search that finds [r] and moves the cursor of the history. *)
Definition finds (search : M cli (option Z)) (s : cli) (r : option (list Z)) (h h' : hist) : Prop :=
  (∃ o, search s = Ret (o, set_cursor (at_ h') s) ∧ read_hist o s = Ret (r, s) ∧
    hist_rep F ob h' (set_cursor (at_ h') s)) ∧ all h' = all h ∧ ∀ t, r = Some t → t ∈ all h.

Lemma back_finds h s : hist_rep F ob h s → finds cmd_history_search_backward s (spec_back h).1 h (spec_back h).2.
Proof using H0 Hk HN.
  intros R. split; [by eapply back_run|]. split; [done|]. intros t. simpl. destruct (_ <=? _); [|done].
  apply list_elem_of_lookup_2.
Qed.

Lemma forward_finds h s : hist_rep F ob h s →
  finds cmd_history_search_forward s (spec_forward h).1 h (spec_forward h).2.
Proof using H0 Hk HN.
  intros R. split; [by eapply hist_forward_run|]. unfold spec_forward. destruct (_ =? _); [done|]. split; [done|].
  intros t. apply list_elem_of_lookup_2.
Qed.

Lemma strcpy_run s b t : heap s !! buffer = Some b → (length t < length b)%nat →
  strcpy (buffer, 0) t s = Ret ((), set_obj buffer (t ++ 0 :: drop (S (length t)) b) s).
Proof.
  intros Hb Hl. unfold strcpy.
  assert (heap s !! buffer = Some ([] ++ take (S (length t)) b ++ drop (S (length t)) b)) as Hb' by (by rewrite app_nil_l, take_drop).
  pose proof (write_at s buffer [] _ (t ++ [0]) _ Hb') as Hw.
  change (Z.of_nat (length [])) with 0 in Hw. rewrite Hw; [by rewrite app_nil_l, <-app_assoc|].
  rewrite length_take, length_app. cbn [length]. lia.
Qed.

Lemma recall_run s0 line h h' bs cu s search r : editing s0 line h bs cu s →
  (∀ t, finds search (note [] t s) r h h') → ∃ cu' s', recall cu search s = Ret (cu', s') ∧
  editing s0 (default [] r) h' bs cu' s' ∧ stdin s' = stdin s.
Proof using All.
  intros E Hfind. unfold recall, erase_to. rewrite (bind_Ret _ _ _ _ _ (puts_note _ _)).
  set (s1 := note _ _ s). assert (editing s0 line h bs cu s1) as E1 by (by apply ed_note).
  destruct (Hfind (mjoin (replicate (Z.to_nat (ccol cu - plen)) erase_seq))) as [(o&Hrun&Hread&R) [Ha Hin]].
  fold s1 in Hrun, Hread, R. rewrite (bind_Ret _ _ _ _ _ Hrun).
  assert (editing s0 line h' bs cu (set_cursor (at_ h') s1)) as E2 by (by eapply ed_cursor).
  set (s2 := set_cursor (at_ h') s1) in *. destruct o as [o|].
  - unfold read_hist in Hread. apply bind_Ret_inv in Hread as (t&s3&Hs&Hret). injection Hret as <- ->.
    assert (string_at (o, 0) s2 = Ret (t, s2)) as Hs2.
    { eapply (string_at_framed {[o]}); [|by apply elem_of_singleton|exact Hs]. by repeat split. }
    pose proof (Hin t eq_refl) as Ht. pose proof (proj1 (Forall_forall _ _) (ed_fit _ _ _ _ _ _ E1) t Ht) as Hfit.
    simpl in Hfit.
    rewrite (bind_Ret _ _ _ _ _ Hs2), (bind_Ret _ _ _ _ _ (puts_note _ _)).
    pose proof (ed_note _ _ _ _ _ _ E2 t) as E3. destruct (ed_buf _ _ _ _ _ _ E3) as (x&r&Hb&Hlen).
    rewrite (bind_Ret _ _ _ _ _ (strcpy_run _ _ t Hb ltac:(lia))). eexists _, _. split; [reflexivity|]. split; [|done].
    eapply ed_set; [exact E3|by eapply string_at_nozero| |done|done].
    exists 0, (drop (S (length t)) (line ++ x :: r)). split; [done|]. rewrite length_app. simpl. rewrite length_drop. lia.
  - injection Hread as <-. eexists _, _. split; [reflexivity|]. split; [|done]. simpl.
    eapply (ed_prefix _ _ _ _ _ _ E2 [] line). done.
Qed.

(** An escape sequence of one final character. *)
Lemma escape_run s0 line h bs cu s x : editing s0 line h (91 :: x :: bs) cu s → 64 ≤ x < 0x7f → ∃ l,
  handle_escape_sequence buffer plen cu s =
  (if (x =? 65) || (x =? 66)
   then recall cu (if x =? 65 then cmd_history_search_backward else cmd_history_search_forward)
   else mret cu) (set_stdin l s) ∧
  editing s0 line h bs cu (set_stdin l s) ∧ (length l < length (stdin s))%nat.
Proof.
  intros E Hx. destruct (wait_run s 91 (x :: bs) (ed_in _ _ _ _ _ _ E)) as (l1&Hrun1&Hl1&Hlen1).
  assert (editing s0 line h (x :: bs) cu (set_stdin l1 s)) as E1 by (by eapply ed_stdin).
  destruct (wait_run (set_stdin l1 s) x bs Hl1) as (l2&Hrun2&Hl2&Hlen2). exists l2. split_and!.
  - unfold handle_escape_sequence. rewrite (bind_Ret _ _ _ _ _ Hrun1). cbn match.
    assert (csi_loop 6 1 (set_stdin l1 s) = Ret (Some x, set_stdin l2 s)) as Hcsi.
    { cbn [csi_loop]. rewrite (bind_Ret _ _ _ _ _ Hrun2).
      rewrite (proj2 (Z.ltb_ge x 0x30)), (proj2 (Z.ltb_ge x 0x40)), !andb_false_r by lia.
      rewrite (proj2 (Z.ltb_lt x 0x7f)), andb_true_r, Z.geb_leb, (proj2 (Z.leb_le 0x40 x)) by lia. done. }
    change (negb (91 =? 91)) with false. cbn match. by rewrite (bind_Ret _ _ _ _ _ Hcsi).
  - by apply (ed_stdin _ _ _ _ _ _ E).
  - simpl in *. lia.
Qed.

Lemma dispatch_escape fuel cu s cu' s' : handle_escape_sequence buffer plen cu s = Ret (cu', s') →
  dispatch fuel cu ESC s = readline_loop fuel buffer blen plen cu' s'.
Proof. intros Hr. exact (bind_Ret _ _ _ _ _ Hr). Qed.

Lemma arrow_steps s0 line h h' bs cu s fuel x r : editing s0 line h (91 :: x :: bs) cu s → x = 65 ∨ x = 66 →
  (∀ s, hist_rep F ob h s → finds (if x =? 65 then cmd_history_search_backward else cmd_history_search_forward) s r h h') →
  steps s0 (default [] r, h') bs fuel cu ESC s.
Proof using All.
  intros E Hx Hfind. destruct (escape_run _ _ _ _ _ _ x E) as (l&Hrun&E1&Hl); [lia|].
  destruct (recall_run _ _ _ h' _ _ _ _ r E1 (λ t, Hfind _ (rep_note _ t _ (ed_rep _ _ _ _ _ _ E1)))) as (cu'&s'&Hrec&E2&Hin).
  exists cu', s'. split; [|split; [exact E2|rewrite Hin; simpl; lia]]. apply dispatch_escape.
  rewrite Hrun. destruct Hx as [->| ->]; exact Hrec.
Qed.

Lemma other_steps s0 line h bs cu s fuel x : editing s0 line h (91 :: x :: bs) cu s → key_ok (KOther x) →
  steps s0 (line, h) bs fuel cu ESC s.
Proof.
  intros E Hx. simpl in Hx. destruct (escape_run _ _ _ _ _ _ x E) as (l&Hrun&E1&Hl); [lia|].
  exists cu, (set_stdin l s). split; [|split; [exact E1|simpl; lia]]. apply dispatch_escape. rewrite Hrun.
  by rewrite (proj2 (Z.eqb_neq x 65)), (proj2 (Z.eqb_neq x 66)) by lia.
Qed.

(** ** Lines of keys *)

Lemma key_steps s0 line h bs cu s fuel x : editing s0 line h (key_bytes x ++ bs) cu s → key_ok x →
  ∃ cu' s', readline_loop (S fuel) buffer blen plen cu s = readline_loop fuel buffer blen plen cu' s' ∧
  editing s0 (press blen x (line, h)).1 (press blen x (line, h)).2 bs cu' s' ∧ (length (stdin s') < length (stdin s))%nat.
Proof using All.
  intros E Hx.
  assert (∃ c bs', key_bytes x ++ bs = c :: bs' ∧ ∀ cu s, editing s0 line h bs' cu s →
    steps s0 (press blen x (line, h)) bs fuel cu c s) as (c&bs'&Eb&Hsteps).
  { destruct x as [c| | | | | | |c|]; cbn [key_bytes app]; eexists _, _; (split; [reflexivity|]); intros cu1 s1 E1.
    - by apply char_steps.
    - eapply backspace_steps; [done|by left].
    - eapply backspace_steps; [done|by right].
    - by eapply kill_steps.
    - by eapply word_steps.
    - eapply arrow_steps; [exact E1|by left|]. intros s2. apply back_finds.
    - eapply arrow_steps; [exact E1|by right|]. intros s2. apply forward_finds.
    - by eapply other_steps.
    - exists cu1, s1. by split. }
  rewrite Eb in E. destruct (loop_read _ _ _ _ _ _ _ fuel E) as (l&Hrun&E1&Hl).
  destruct (Hsteps _ _ E1) as (cu'&s'&Hstep&E2&Hin). exists cu', s'. rewrite Hrun, Hstep. split_and!; [done|done|].
  simpl in Hin. lia.
Qed.

Lemma keys_run s0 rest e : ∀ ks line h cu s fuel, Forall key_ok ks → e = 13 ∨ e = 10 →
  editing s0 line h (mjoin (key_bytes <$> ks) ++ e :: rest) cu s → (length (stdin s) < fuel)%nat →
  ∃ s' cu', editing s0 (typed blen ks (line, h)).1 (typed blen ks (line, h)).2 rest cu' s' ∧
  (∃ r, heap s' !! buffer = Some ((typed blen ks (line, h)).1 ++ 0 :: r)) ∧
  readline_loop fuel buffer blen plen cu s = Ret (Z.of_nat (length (typed blen ks (line, h)).1), s').
Proof using All.
  induction ks as [|x ks IH]; intros line h cu s fuel Hks He E Hf; (destruct fuel as [|fuel]; [lia|]).
  - simpl in E. destruct (loop_read _ _ _ _ _ _ _ fuel E) as (l&Hrun&E1&Hl). set (s1 := set_stdin l s) in *.
    destruct (ed_buf _ _ _ _ _ _ E1) as (x&r&Hb&Hlen).
    pose proof (store_at s1 buffer line x 0 r Hb) as Hst. rewrite <-(ed_p _ _ _ _ _ _ E1) in Hst.
    exists (note [] [13; 10] (set_obj buffer (line ++ 0 :: r) s1)), cu. cbn [typed fold_left fst snd]. split_and!.
    + apply ed_note. eapply ed_set;
        [exact E1|exact (ed_line _ _ _ _ _ _ E1)| |exact (ed_p _ _ _ _ _ _ E1)|exact (ed_n _ _ _ _ _ _ E1)].
      exists 0, r. split; [done|]. rewrite length_app in *. done.
    + exists r. apply heap_set_obj.
    + rewrite Hrun. rewrite <-(ed_p _ _ _ _ _ _ E1).
      assert (dispatch fuel cu e = (store (buffer, cp cu) 0;; puts [13; 10];; mret (cp cu))) as ->
        by (destruct He as [->| ->]; reflexivity).
      rewrite (bind_Ret _ _ _ _ _ Hst), (bind_Ret _ _ _ _ _ (puts_note _ _)). done.
  - apply Forall_cons in Hks as [Hx Hks]. rewrite fmap_cons in E. simpl in E. rewrite <-app_assoc in E.
    destruct (key_steps _ _ _ _ _ _ fuel x E Hx) as (cu1&s1&Hrun&E1&Hl).
    destruct (IH _ _ cu1 s1 fuel Hks He E1 ltac:(lia)) as (s'&cu'&E2&Hb&Hrun2).
    rewrite <-surjective_pairing in E2, Hb, Hrun2. exists s', cu'. rewrite Hrun. split_and!; done.
Qed.
End Editing.

(** ** The console *)

Section Console.
Context `{CliConfig, Handlers}.
Context (k : Z) (Hk : 1 ≤ k) (HN : CONFIG_CLI_MAX_HISTORY = 2 ^ k).

(** A buffer of [blen] bytes that every line of the history fits into. *)
Record ready (F : gset Z) (ob : Z → Z) (buffer blen : Z) (h : hist) (s : cli) : Prop := {
  rd_rep : hist_rep F ob h s;
  rd_own : buffer ∈ F;
  rd_pos : 0 < blen;
  rd_buf : ∃ b, heap s !! buffer = Some b ∧ Z.of_nat (length b) = blen;
  rd_fit : Forall (λ t, Z.of_nat (length t) < blen) (all h);
}.

Lemma readline_run F ob buffer blen h s prompt ks e rest : ready F ob buffer blen h s → Forall key_ok ks →
  e = 13 ∨ e = 10 → arriving (stdin s) = mjoin (key_bytes <$> ks) ++ e :: rest →
  let st := typed blen ks ([], h) in
  ∃ s' r, cli_readline prompt buffer blen s = Ret (Z.of_nat (length st.1), s') ∧ nozero st.1 ∧
  heap s' !! buffer = Some (st.1 ++ 0 :: r) ∧ ready F ob buffer blen st.2 s' ∧ arriving (stdin s') = rest ∧
  kept F buffer s s'.
Proof using All.
  intros [R HF Hpos (b&Hb&Hlen) Hfit] Hks He Hin st. unfold cli_readline.
  rewrite (bind_Ret _ _ _ _ _ (puts_note _ _)). set (s1 := note _ _ s).
  destruct b as [|x b]; [simpl in Hlen; lia|].
  rewrite (bind_Ret _ _ _ _ _ (store_at s1 buffer [] x 0 b Hb)), (bind_Ret get _ _ _ _ eq_refl). set (s2 := set_obj _ _ s1).
  set (plen := Z.of_nat _).
  assert (editing F ob buffer blen s [] h (mjoin (key_bytes <$> ks) ++ e :: rest) (Cur 0 plen 0) s2) as E.
  { constructor; try done.
    - apply rep_obj; [done|]. by apply rep_note.
    - exists 0, b. split; [apply heap_set_obj|done].
    - constructor.
    - split_and!; [by simpl; rewrite app_nil_r|done|]. intros o Ho Hne. simpl. by rewrite lookup_insert_ne. }
  destruct (keys_run k Hk HN F ob buffer blen plen HF s rest e ks [] h _ s2 (S (length (stdin s2))) Hks He E ltac:(lia))
    as (s'&cu'&E'&(r&Hr)&Hrun).
  exists s', r. split_and!; [exact Hrun|exact (ed_line _ _ _ _ _ _ _ _ _ _ E')|exact Hr| |exact (ed_in _ _ _ _ _ _ _ _ _ _ E')|exact (ed_kept _ _ _ _ _ _ _ _ _ _ E')].
  destruct E' as [R' (x'&r'&Hb'&Hl') _ Hfit' _ _ _ _]. constructor; try done. eexists. split; [exact Hb'|exact Hl'].
Qed.

(** C11: the line editor computes the line that the keys mean.  For any list of
    characters, backspaces, ^U, ^W, arrows, other escape sequences without
    parameters and NULs, arriving at any pace and ended by Enter, in a buffer that the recalled lines
    fit into: [cli_readline] returns the length of the line that [typed]
    computes key by key, the buffer holds that line with its terminator, the
    history is only moved along, input behind Enter is left, and nothing else is
    touched. *)
Theorem cli_readline_exact F ob buffer blen h s prompt ks e rest : ready F ob buffer blen h s → Forall key_ok ks →
  e = 13 ∨ e = 10 → arriving (stdin s) = mjoin (key_bytes <$> ks) ++ e :: rest →
  let st := typed blen ks ([], h) in
  ∃ s', cli_readline prompt buffer blen s = Ret (Z.of_nat (length st.1), s') ∧
  string_at (buffer, 0) s' = Ret (st.1, s') ∧ ready F ob buffer blen st.2 s' ∧ arriving (stdin s') = rest ∧
  kept F buffer s s'.
Proof using Hk HN.
  intros Hr Hks He Hin st.
  destruct (readline_run F ob buffer blen h s prompt ks e rest Hr Hks He Hin) as (s'&r&Hrun&Hz&Hb&Hrest).
  exists s'. split; [exact Hrun|]. split; [by apply (string_at_0 s' buffer st.1 r)|exact Hrest].
Qed.

(** One round of the console: the keys, Enter, and the commands of the line. *)
Record round := Round { r_keys : list key; r_enter : Z; r_segs : list seg; r_last : seg }.

Definition r_line (r : round) : list Z := line_text (r_segs r) (r_last r).
Definition r_args (r : round) : list (list (list Z)) := (seg_args <$> r_segs r) ++ [seg_args (r_last r)].
Definition r_bytes (r : round) : list Z := mjoin (key_bytes <$> r_keys r) ++ [r_enter r].

Definition round_ok (cmds : list cli_cmd) (h : hist) (r : round) : Prop :=
  Forall key_ok (r_keys r) ∧ (r_enter r = 13 ∨ r_enter r = 10) ∧ line_ok (r_segs r) (r_last r) ∧
  Forall (external cmds) (r_args r) ∧ (typed CMD_MAX_CMDLINE_SIZE (r_keys r) ([], h)).1 = r_line r ∧ r_line r ≠ [].

Definition round_hist (h : hist) (r : round) : hist :=
  spec_add (r_line r) (typed CMD_MAX_CMDLINE_SIZE (r_keys r) ([], h)).2.

Definition round_calls (cmds : list cli_cmd) (r : round) : list (Z * list (list Z)) :=
  (run_spec cmds CMD_RET_SUCCESS (r_args r)).1.2.

Lemma rep_any F ob h cs t s : hist_rep F ob h s → hist_rep F ob h (note cs t s).
Proof. intros []. by constructor. Qed.

Lemma press_all blen ks : ∀ line h, all (typed blen ks (line, h)).2 = all h.
Proof.
  induction ks as [|x ks IH]; intros line h; [done|]. cbn [typed fold_left].
  change (fold_left (λ st x, press blen x st) ks (press blen x (line, h))) with (typed blen ks (press blen x (line, h))).
  rewrite (surjective_pairing (press blen x (line, h))), IH. destruct x; try done. simpl.
  unfold spec_forward. by destruct (_ =? _).
Qed.

Lemma fit_add (P : list Z → Prop) t h : P t → Forall P (all h) → Forall P (all (spec_add t h)).
Proof.
  intros Ht Hh. unfold spec_add. destruct (bool_decide _); [done|]. destruct (malloc_ok _); [|done].
  apply Forall_app. split; [done|]. by constructor.
Qed.

(** Running a line that is in a buffer. *)
Lemma line_run F ob h s o depth l e x : hist_rep F ob h s → o ∈ F → heap s !! o = Some (line_text l e ++ 0 :: x) →
  nozero (line_text l e) → line_text l e ≠ [] → Z.of_nat (length (line_text l e)) < CMD_MAX_CMDLINE_SIZE →
  line_ok l e → Forall (external (cli_cmds s)) ((seg_args <$> l) ++ [seg_args e]) → len h < 2 ^ 31 - 1 →
  let res := run_spec (cli_cmds s) CMD_RET_SUCCESS ((seg_args <$> l) ++ [seg_args e]) in ∃ ob' s',
  cli_run_command (S depth) (Some (o, 0)) s = Ret (res.1.1, s') ∧ hist_rep F ob' (spec_add (line_text l e) h) s' ∧
  calls s' = calls s ++ res.1.2 ∧ stdin s' = stdin s ∧ cli_cmds s' = cli_cmds s ∧
  ∃ b, heap s' !! o = Some b ∧ length b = length (line_text l e ++ 0 :: x).
Proof using All.
  intros R HF Hb Hz Hne Hmax Hline Hext Hlen. pose proof (string_at_0 s o _ _ Hb Hz) as Hs.
  destruct (hist_add_run k Hk HN F ob _ s (o, 0) _ R Hs Hlen) as (ob'&s2&Hadd&R2&(Hh2&Hin2&_&Hcalls2&Hlock2)).
  assert (cli_cmds s2 = cli_cmds s) as Hcmds by (unfold cli_cmds; by rewrite Hlock2).
  assert (heap s2 !! o = Some ([] ++ line_text l e ++ 0 :: x)) as Hb2 by (by rewrite (Hh2 o HF)).
  pose proof (run_loop_run depth o e l s2 [] x (S (S (length (line_text l e)))) CMD_RET_SUCCESS Hline) as Hloop.
  rewrite Hcmds in Hloop. specialize (Hloop Hext Hb2 ltac:(lia)).
  destruct (run_spec _ _ _) as [[rc cs] t]. destruct Hloop as (b&Hlb&Hloop).
  exists ob', (note cs t (set_obj o b s2)). cbn [fst snd]. split_and!.
  - unfold cli_run_command, run_command. rewrite (bind_Ret _ _ _ _ _ Hs), bool_decide_false by done.
    rewrite (proj2 (geb_false _ _)) by lia. rewrite (bind_Ret _ _ _ _ _ Hadd). exact Hloop.
  - apply rep_any. by apply rep_obj.
  - simpl. by rewrite Hcalls2.
  - simpl. done.
  - exact Hcmds.
  - exists b. split; [apply heap_set_obj|exact Hlb].
Qed.

Lemma round_run F ob input h s depth prompt r rest : ready F ob input CMD_MAX_CMDLINE_SIZE h s →
  round_ok (cli_cmds s) h r → arriving (stdin s) = r_bytes r ++ rest → len h < 2 ^ 31 - 1 → ∃ ob' s',
  cli_task (S depth) prompt input s = Ret ((), s') ∧ ready F ob' input CMD_MAX_CMDLINE_SIZE (round_hist h r) s' ∧
  calls s' = calls s ++ round_calls (cli_cmds s) r ∧ arriving (stdin s') = rest ∧ cli_cmds s' = cli_cmds s.
Proof using All.
  intros Hready (Hks&He&Hline&Hext&Htyped&Hne) Hin Hlen. unfold r_bytes in Hin. rewrite <-app_assoc in Hin. simpl in Hin.
  destruct (readline_run F ob input _ h s (Some prompt) _ _ rest Hready Hks He Hin)
    as (s1&x&Hrun&Hz&Hb&[R1 HF Hpos (b&Hb'&Hl') Hfit]&Hin1&(Hcalls&Hlock&_)).
  rewrite Htyped in Hrun, Hz, Hb. rewrite Hb in Hb'. injection Hb' as <-.
  assert (cli_cmds s1 = cli_cmds s) as Hcmds by (unfold cli_cmds; by rewrite Hlock).
  unfold cli_task. rewrite (bind_Ret _ _ _ _ _ Hrun).
  assert (0 < length (r_line r))%nat as Hpl by (destruct (r_line r); [done|simpl; lia]).
  rewrite (proj2 (Z.leb_gt _ 0)) by lia. pose proof Hl' as Hmax. rewrite length_app in Hmax. simpl in Hmax.
  assert (len (typed CMD_MAX_CMDLINE_SIZE (r_keys r) ([], h)).2 = len h) as El by (unfold len; by rewrite press_all).
  unfold round_calls, r_args in *. rewrite <-Hcmds in Hext |- *.
  destruct (line_run F ob _ s1 input depth _ _ _ R1 HF Hb Hz Hne ltac:(unfold r_line in *; lia) Hline Hext ltac:(lia))
    as (ob'&s'&Hcmd&R'&Hc'&Hin'&Hcm'&(b'&Hb'&Hlb')).
  rewrite (bind_Ret _ _ _ _ _ Hcmd). exists ob', s'. split_and!; [done| |by rewrite Hc', Hcalls|by rewrite Hin'|done].
  constructor; [exact R'|done|done| |].
  - exists b'. split; [done|]. rewrite Hlb'. exact Hl'.
  - apply fit_add; [unfold r_line in *; lia|done].
Qed.

(** Any number of rounds. *)
Fixpoint cli_tasks (n depth : nat) (prompt : list Z) (input : Z) : M cli unit :=
  match n with O => mret () | S n => cli_task depth prompt input;; cli_tasks n depth prompt input end.

Fixpoint rounds_ok (cmds : list cli_cmd) (h : hist) (rs : list round) : Prop :=
  match rs with [] => True | r :: rs => round_ok cmds h r ∧ rounds_ok cmds (round_hist h r) rs end.

Lemma round_len h r : len (round_hist h r) ≤ len h + 1.
Proof.
  unfold round_hist. transitivity (len (typed CMD_MAX_CMDLINE_SIZE (r_keys r) ([], h)).2 + 1).
  - apply (hop_len k (HAdd (0, 0) (r_line r))).
  - unfold len. by rewrite press_all.
Qed.

(** C38: the console does what is typed.  Over any number of rounds, each of
    them a list of keys that makes a line of commands as described next: the
    handlers are called exactly with the arguments of the commands, in their
    order and up to the first command of a line that fails, with the request for
    help where a command wants it; the history has the lines, which later rounds
    can recall with the arrows; and the console is ready for the next line.  The
    lines ([round_ok], [line_ok]) are not empty and shorter than
    CMD_MAX_CMDLINE_SIZE, and consist of commands with fewer than CMD_MAX_ARGV
    words each, separated by semicolons.  A word is plain (no blank, semicolon
    or backslash, no quote in front) or in double quotes (no blank, quote or
    backslash inside; a blank ends a quoted word in this parser); only the last
    command may be empty or end with blanks.  In front of a semicolon stands a
    plain word without a blank between them: a blank or a quoted word there gives
    the handler an additional empty argument (blank_before_semicolon).  The
    commands are not the built-in history and help, the keys are those of C11
    (no completion with Tab), the size of the history is a power of two, and
    handlers neither read input nor change the state of the console. *)
Theorem cli_console_exact F ob input depth prompt rest : ∀ rs h s, ready F ob input CMD_MAX_CMDLINE_SIZE h s →
  rounds_ok (cli_cmds s) h rs → arriving (stdin s) = mjoin (r_bytes <$> rs) ++ rest →
  len h + Z.of_nat (length rs) < 2 ^ 31 → ∃ ob' s',
  cli_tasks (length rs) (S depth) prompt input s = Ret ((), s') ∧
  calls s' = calls s ++ mjoin (round_calls (cli_cmds s) <$> rs) ∧
  ready F ob' input CMD_MAX_CMDLINE_SIZE (fold_left round_hist rs h) s' ∧ arriving (stdin s') = rest.
Proof using Hk HN.
  intros rs. revert ob. induction rs as [|r rs IH]; intros ob h s Hready Hok Hin Hlen.
  - exists ob, s. simpl. by rewrite app_nil_r.
  - destruct Hok as [Hr Hok]. rewrite fmap_cons in Hin. simpl in Hin, Hlen. rewrite <-app_assoc in Hin.
    destruct (round_run F ob input h s depth prompt r _ Hready Hr Hin ltac:(lia)) as (ob1&s1&Hrun&Hr1&Hc1&Hin1&Hcm).
    pose proof (round_len h r). rewrite <-Hcm in Hok.
    destruct (IH ob1 (round_hist h r) s1 Hr1 Hok Hin1 ltac:(lia)) as (ob2&s2&Hrun2&Hc2&Hr2&Hin2).
    exists ob2, s2. cbn [length cli_tasks]. rewrite (bind_Ret _ _ _ _ _ Hrun). split_and!; [done| |done|done].
    rewrite Hc2, Hc1, Hcm, fmap_cons. simpl. by rewrite app_assoc.
Qed.
End Console.

(** ** Examples *)

Module Demo.
#[local] Instance demo_cfg : CliConfig := {| CMD_MAX_CMDLINE_SIZE := 128; CONFIG_CLI_MAX_HISTORY := 4 |}.
#[local] Instance demo_handlers : Handlers := {|
  ext_run id args := if id =? 2 then (CMD_RET_USAGE, []) else (0, []);
  table := [CliCmd (str "echo") (Ext 1) [] None; CliCmd (str "history") History [] (Some []);
            CliCmd (str "ls") (Ext 2) [] None];
  malloc_ok _ := true |}.

(** Objects 0 and 1 are buffers; the history is empty. *)
Definition start (input : list Z) : cli :=
  Cli {[0 := replicate 128 0; 1 := replicate 10 0]} 2 (replicate 4 None) 0 0 None input [] [].
Definition own : gset Z := {[0; 1]}.

Lemma ready_start input : ready own id 0 128 (Hist [] 0) (start input).
Proof.
  constructor; [|set_solver|done|by exists (replicate 128 0)|done].
  apply (fresh_rep 2); [lia|done|]. split_and!; try reflexivity.
  intros o. unfold own. rewrite elem_of_union, !elem_of_singleton. simpl. lia.
Qed.

(** "ab cd", ^W, an arrow to the right, "xy", backspace: "abx". *)
Definition some_keys : list key :=
  [KChar 97; KChar 98; KChar 32; KChar 99; KChar 100; KWord; KOther 67; KChar 120; KChar 121; KBackspace].

Ltac char_ok := split; [lia|]; intros Hin; repeat (apply elem_of_cons in Hin as [Hin|Hin]; [done|]); by apply not_elem_of_nil in Hin.

Definition slow_input : list Z := [97; -1; 98; 32; -1; -1; 99; 100; 0x17; 27; -1; 91; 67; 120; 121; 8; 13; 65].

Lemma cli_readline_exact_witness : ∃ s', cli_readline (Some (str "$ ")) 0 128 (start slow_input) = Ret (3, s') ∧
  string_at (0, 0) s' = Ret ([97; 98; 120], s') ∧ ready own id 0 128 (Hist [] 0) s' ∧ arriving (stdin s') = [65] ∧
  kept own 0 (start slow_input) s'.
Proof.
  refine (cli_readline_exact 2 _ _ own id 0 128 (Hist [] 0) (start slow_input) (Some (str "$ ")) some_keys 13 [65] _ _ _ _).
  - lia.
  - reflexivity.
  - apply ready_start.
  - repeat (constructor; [first [exact I | simpl; lia | char_ok]|]). constructor.
  - by left.
  - reflexivity.
Defined.

(** "echo a;ls" is typed, and recalled with the arrow in the next round. *)
Definition seg_echo : seg := Seg [Item [] false (str "echo") 32] [] (str "a").
Definition seg_ls : seg := Seg [] [] (str "ls").
Definition round1 : round := Round (KChar <$> str "echo a;ls") 13 [seg_echo] seg_ls.
Definition round2 : round := Round [KUp] 10 [seg_echo] seg_ls.
Definition two_rounds : list Z := str "echo a;ls" ++ [13; 27; 91; 65; 10].

Definition calls1 : list (Z * list (list Z)) :=
  [(1, [str "echo"; str "a"]); (2, [str "ls"]); (2, [str "ls"; str "help"])].

Ltac plain_ok := split; [done|]; repeat (constructor; [split_and!; done|]); constructor.

Lemma line_demo : line_ok [seg_echo] seg_ls.
Proof.
  unfold line_ok. split_and!.
  - constructor; [|constructor]. split_and!; [|done|simpl; unfold CMD_MAX_ARGV; lia]. split_and!; [|constructor|right; plain_ok].
    constructor; [|constructor]. split; [constructor|]. split; [plain_ok|done].
  - split_and!; [constructor|constructor|right; plain_ok].
  - simpl. unfold CMD_MAX_ARGV. lia.
Qed.

Lemma external_demo : Forall (external (table)) [[str "echo"; str "a"]; [str "ls"]].
Proof. repeat constructor; intros c Hc; vm_compute in Hc; injection Hc as <-; by eexists. Qed.

Lemma round_demo : rounds_ok table (Hist [] 0) [round1; round2].
Proof.
  split; [|split; [|done]].
  - split_and!; [|by left|apply line_demo|apply external_demo|reflexivity|discriminate].
    unfold round1. simpl r_keys. repeat (constructor; [char_ok|]). constructor.
  - split_and!; [by repeat constructor|by right|apply line_demo|apply external_demo|reflexivity|discriminate].
Qed.

Lemma cli_console_exact_witness : ∃ ob' s', cli_tasks 2 2 (str "$ ") 0 (start two_rounds) = Ret ((), s') ∧
  calls s' = calls1 ++ calls1 ∧ ready own ob' 0 128 (Hist [str "echo a;ls"] 1) s' ∧ arriving (stdin s') = [].
Proof.
  refine (cli_console_exact 2 _ _ own id 0 1 (str "$ ") [] [round1; round2] (Hist [] 0) (start two_rounds) _ _ _ _).
  - lia.
  - reflexivity.
  - apply ready_start.
  - apply round_demo.
  - reflexivity.
  - unfold len. simpl. lia.
Defined.

(** ** Behaviour that the theorems exclude *)

Definition args_of (r : outcome (Z * cli)) : option (list (Z * list (list Z))) :=
  match r with Ret (_, s) => Some (calls s) | _ => None end.

(** Running the oldest line of the history frees it while it is being run: the
    copy that is recorded takes its place in the ring. *)
Lemma history_oldest_dangles :
  (os_system 3 (str "echo");; os_system 3 (str "ls");; os_system 3 (str "history 0")) (start []) = Fault.
Proof. vm_compute. reflexivity. Qed.

(** A command with CMD_MAX_ARGV words: the end mark is written behind [argv]. *)
Lemma many_arguments_overrun : os_system 1 (mjoin (replicate 32 (str "a "))) (start []) = Fault.
Proof. vm_compute. reflexivity. Qed.

(** An escaped character: what follows is moved down without its terminator, so
    the last character of the line appears twice. *)
Lemma escape_repeats_last :
  args_of (os_system 1 (str "echo a\;b c") (start [])) = Some [(1, [str "echo"; str "a;b"; str "cc"])].
Proof. vm_compute. reflexivity. Qed.

(** A blank before [;] makes an empty argument; quotes do not keep blanks. *)
Lemma blank_before_semicolon :
  args_of (os_system 1 (str "echo a ; echo") (start [])) =
  Some [(1, [str "echo"; str "a"; []]); (1, [str "echo"])].
Proof. vm_compute. reflexivity. Qed.

(** A blank inside quotes ends the word; the closing quote stays in the next. *)
Lemma quoted_blank :
  args_of (os_system 1 (str "echo " ++ [QUOTE] ++ str "a b" ++ [QUOTE]) (start [])) =
  Some [(1, [str "echo"; str "a"; str "b" ++ [QUOTE]])].
Proof. vm_compute. reflexivity. Qed.

(** The arrow in a prompt with a buffer of 10 bytes, as the download command
    has it: the recalled line is copied beyond the buffer. *)
Lemma recall_overruns_small_buffer :
  (os_system 1 (str "echo abcdefgh");; cli_readline None 1 10) (start [27; 91; 65; 13]) = Fault.
Proof. vm_compute. reflexivity. Qed.

(** Completing the last command of the table a second time leaves the table. *)
Lemma completion_leaves_table : cli_readline None 0 128 (start (str "l" ++ [9; 9; 13])) = Fault.
Proof. vm_compute. reflexivity. Qed.

(** A completion that finds nothing cuts the line behind its first word. *)
Lemma completion_cuts_line :
  (λ r : outcome (list Z * cli), match r with Ret (t, _) => Some t | _ => None end)
    ((cli_readline None 0 128;; string_at (0, 0)) (start (str "foo bar" ++ [9; 13]))) = Some (str "foo").
Proof. vm_compute. reflexivity. Qed.
End Demo.
