(* ===== verification/SpiFlash.v ===== *)
(** * The SPI flash driver: src/hal/drivers/spi-flash/

    [spi-flash.c] erases, programs and reads a serial NOR flash through the
    commands of a controller; [atcspi200.c] is that controller, in the compact
    variant that every configuration of the SDK selects
    (CONFIG_ATCSPI200_COMPACT).  There is one controller with one flash
    memory on it.

    A transaction of the controller ([flash_exec_cmd] with the loop that moves
    the data through the FIFO) and the microsecond timer are parameters
    ([SpiBus]); [NorChip] states what the data sheets of such memories
    promise.  [errno] and messages are left out. *)

From stdpp Require Import base tactics numbers list gmap.
From S2P Require Import Prelude.

(** ** Data *)

Definition SPI_FLASH_OP_WREN : Z := 0x06.
Definition SPI_FLASH_OP_WRDI : Z := 0x04.
Definition SPI_FLASH_OP_RDSR : Z := 0x05.
Definition SPI_FLASH_OP_READ : Z := 0x03.
Definition SPI_FLASH_OP_PP : Z := 0x02.
Definition SR_WIP : Z := BIT 0.
Definition SR_WEL : Z := BIT 1.
Definition EB_MIN_BLOCK : Z := BIT 0.
Definition EB_SUPERSET : Z := BIT 1.
Definition EB_UNALIGNED : Z := BIT 2.
Definition EINVAL : Z := 22.
Definition ENXIO : Z := 6.
Definition ENODEV : Z := 19.

Record fast_read_cmd := FastRead { fr_opcode : Z; fr_address : Z; fr_data : Z; fr_mode : Z; fr_dummy : Z }.
Record erase_method := EraseMethod { em_size : Z; em_opcode : Z; em_timeout : Z }.
Record erase_region := EraseRegion { er_id : Z; er_start : Z; er_size : Z; er_method : Z }.
Record erase_block := EraseBlock { eb_start : Z; eb_end : Z }.

Record flash_part_t := Part {
  p_name : list Z;            (* 16 bytes *)
  p_start : Z; p_size : Z; p_data_length : Z; p_flags : Z;
}.

Record spi_flash := SpiFlash {
  mem_base : Z;
  sf_size : Z;
  fast_read : list fast_read_cmd;            (* 4 entries *)
  cur_fast_read : option fast_read_cmd;
  erase_info : list erase_method;            (* 4 entries *)
  region : list erase_region;                (* [num_region] entries *)
  page_size : Z;
  pp_timeout : Z;
  partition : list flash_part_t;             (* CONFIG_NUM_FLASH_PARTITION entries *)
}.

(** ** Surroundings *)

(** [transact cmd trans addr tx rxlen]: write [trans] to TransCtrl, [addr] to
    Addr and [cmd] to Cmd, then send [tx] or receive [rxlen] bytes. *)
Class SpiBus := {
  hw : Type;
  transact : Z → Z → Z → list Z → Z → hw → list Z * hw;
  hal_timer_value : hw → Z * hw;
}.

Record spi `{SpiBus} := Spi { bus : hw; flash : spi_flash }.
#[global] Arguments Spi {_} _ _.

Section Driver.
Context {SB : SpiBus}.

Definition set_bus (h : hw) (s : spi) : spi := Spi h (flash s).
Definition set_flash (f : spi_flash) (s : spi) : spi := Spi (bus s) f.

Definition bus_transact (cmd trans addr : Z) (tx : list Z) (rxlen : Z) : M spi (list Z) :=
  s ← get;
  let r := transact cmd trans addr tx rxlen (bus s) in
  put (set_bus r.2 s);; mret r.1.

Definition timer_value : M spi Z :=
  s ← get;
  let r := hal_timer_value (bus s) in
  put (set_bus r.2 s);; mret r.1.

(** [bfield_get(v, end, start)] and [bfield_set(v, end, start)]. *)
Definition bfield_get (v e st : Z) : Z := Z.land (Z.shiftr v st) (2 ^ (e - st + 1) - 1).
Definition bfield_set (v e st : Z) : Z := Z.shiftl (Z.land v (2 ^ (e - st + 1) - 1)) st.

(** ** The controller: atcspi200.c *)

Definition transfer_mode (dummylen txlen rxlen : Z) : Z :=
  let mode := if txlen >? 0 then (if rxlen >? 0 then 3 else 1) else if rxlen >? 0 then 2 else 7 in
  if dummylen >? 0 then
    (if mode =? 2 then 9 else if mode =? 3 then 5 else if mode =? 1 then 8 else mode)
  else mode.

Definition atcspi200_transfer_control (cmdlen dummylen txlen rxlen : Z) : M spi Z :=
  c_assert (cmdlen + txlen + rxlen >? 0);;
  c_assert (txlen <=? 0x200);;
  c_assert (rxlen <=? 0x200);;
  let addrEn := if cmdlen >=? 4 then 1 else 0 in
  let dummycnt := if dummylen >? 0 then u8 (dummylen - 1) else 0 in
  let v := Z.lor (Z.lor (Z.lor (bfield_set 1 30 30) (bfield_set addrEn 29 29))
                        (bfield_set (transfer_mode dummylen txlen rxlen) 27 24))
                 (bfield_set dummycnt 10 9) in
  let v := Z.lor v (if txlen >? 0 then bfield_set (txlen - 1) 20 12 else 0) in
  mret (Z.lor v (if rxlen >? 0 then bfield_set (rxlen - 1) 8 0 else 0)).

Definition atcspi200_mio_transfer_control (c : fast_read_cmd) (rxlen : Z) : M spi Z :=
  c_assert (negb (fr_opcode c =? 0));;
  c_assert (negb (rxlen =? 0));;
  c_assert (rxlen <=? 0x200);;
  let mode := if negb (fr_dummy c =? 0) then 9 else 2 in
  let dummycnt := if negb (fr_dummy c =? 0) then u8 (fr_dummy c * fr_address c / 8 - 1) else 0 in
  let dualquad := if fr_data c =? 2 then 1 else if fr_data c =? 4 then 2 else 0 in
  let addrfmt := if negb (dualquad =? 0) && (fr_address c =? fr_data c) then 1 else 0 in
  let tokenen := if negb (fr_mode c =? 0) then 1 else 0 in
  let v := Z.lor (Z.lor (Z.lor (bfield_set 1 30 30) (bfield_set 1 29 29)) (bfield_set addrfmt 28 28))
                 (bfield_set mode 27 24) in
  let v := Z.lor (Z.lor (Z.lor v (bfield_set dualquad 23 22)) (bfield_set tokenen 21 21))
                 (bfield_set dummycnt 10 9) in
  mret (Z.lor v (if rxlen >? 0 then bfield_set (rxlen - 1) 8 0 else 0)).

(** The read commands of the controller's memory-mapped mode. *)
Definition atcspi200_readcmds : list fast_read_cmd :=
  [FastRead 0x03 1 1 0 0; FastRead 0x0b 1 1 0 8; FastRead 0x3b 1 2 0 8;
   FastRead 0x6b 1 4 0 8; FastRead 0xbb 2 2 4 0; FastRead 0xeb 4 4 2 4].

Definition _get_addr (cmd : list Z) : option Z :=
  match cmd with
  | _ :: a :: b :: c :: _ => Some (Z.lor (Z.lor (Z.shiftl a 16) (Z.shiftl b 8)) c)
  | _ => None
  end.

Definition flash_read_status : M spi Z :=
  r ← bus_transact SPI_FLASH_OP_RDSR 0x42000000 0 [] 1;
  lift_opt (head r).

Fixpoint flash_write_enable (fuel : nat) : M spi unit :=
  match fuel with
  | O => out_of_fuel
  | S fuel =>
      bus_transact SPI_FLASH_OP_WREN 0x47000000 0 [] 0;;
      status ← flash_read_status;
      if Z.land status SR_WEL =? 0 then flash_write_enable fuel else mret ()
  end.

Fixpoint flash_write_disable (fuel : nat) : M spi unit :=
  match fuel with
  | O => out_of_fuel
  | S fuel =>
      bus_transact SPI_FLASH_OP_WRDI 0x47000000 0 [] 0;;
      status ← flash_read_status;
      if Z.land status SR_WEL =? SR_WEL then flash_write_disable fuel else mret ()
  end.

(** The deadline is a 64-bit number, the timer has 32 bits. *)
Fixpoint in_progress_loop (fuel : nat) (to : Z) : M spi Z :=
  match fuel with
  | O => out_of_fuel
  | S fuel =>
      status ← flash_read_status;
      if Z.land status SR_WIP =? 0 then mret 0 else
      ts ← timer_value;
      if ts <? to then in_progress_loop fuel to else mret (-1)
  end.

Definition flash_write_in_progress (fuel : nat) (timeout : Z) : M spi Z :=
  now ← timer_value;
  in_progress_loop fuel (now + timeout).

Inductive flash_opt := FLASH_READ | FLASH_WRITE | FLASH_ERASE | FLASH_NOWAIT.

(** [fuel] bounds every polling loop. *)
Definition flash_operation (fuel : nat) (addr : Z) (tx : list Z) (rxlen : Z)
    (cmd trans : Z) (opt : flash_opt) (timeout : Z) : M spi (Z * list Z) :=
  match opt with FLASH_READ => mret () | _ => flash_write_enable fuel end;;
  rx ← bus_transact cmd trans addr (match opt with FLASH_WRITE => tx | _ => [] end)
         (match opt with FLASH_READ => rxlen | _ => 0 end);
  ret ← match opt with
        | FLASH_WRITE | FLASH_ERASE => flash_write_in_progress fuel timeout
        | _ => mret 0
        end;
  match opt with FLASH_READ => mret () | _ => flash_write_disable fuel end;;
  mret (ret, rx).

Definition atcspi200_cmd_read_compact (fuel : nat) (cmd : list Z) (dummylen rxlen : Z) : M spi (Z * list Z) :=
  v ← atcspi200_transfer_control (Z.of_nat (length cmd)) dummylen 0 rxlen;
  addr ← (if negb (bfield_get v 29 29 =? 0) then lift_opt (_get_addr cmd) else mret 0);
  c ← lift_opt (head cmd);
  r ← flash_operation fuel addr [] rxlen c v FLASH_READ 0;
  mret (0, r.2).

Definition atcspi200_cmd_mio_read_compact (fuel : nat) (c : fast_read_cmd) (addr rxlen : Z) : M spi (Z * list Z) :=
  v ← atcspi200_mio_transfer_control c rxlen;
  r ← flash_operation fuel addr [] rxlen (fr_opcode c) v FLASH_READ 0;
  mret (0, r.2).

Definition spi_flash_find_by_addr (f : spi_flash) (addr : Z) : bool :=
  (mem_base f <=? addr) && (mem_base f + sf_size f >? addr).

(** The time-out of a command: that of the first erase method with the opcode,
    and then the command sends no data. *)
Definition cmd_timeout (f : spi_flash) (op : Z) : Z * flash_opt :=
  match List.find (λ m, op =? em_opcode m) (erase_info f) with
  | Some m => (em_timeout m, FLASH_ERASE)
  | None => (pp_timeout f, FLASH_WRITE)
  end.

Definition atcspi200_cmd_write_compact (fuel : nat) (cmd tx : list Z) : M spi Z :=
  v ← atcspi200_transfer_control (Z.of_nat (length cmd)) 0 (Z.of_nat (length tx)) 0;
  s ← get;
  addr ← (if negb (bfield_get v 29 29 =? 0) then lift_opt (_get_addr cmd) else mret 0);
  c ← lift_opt (head cmd);
  let found := negb (bfield_get v 29 29 =? 0) && spi_flash_find_by_addr (flash s) (u32 (addr + mem_base (flash s))) in
  let '(timeout, opt) := if found : bool then cmd_timeout (flash s) c else (500 * 1000, FLASH_WRITE) in
  r ← flash_operation fuel addr tx 0 c v opt timeout;
  mret r.1.

(** ** The commands: spi-flash.c *)

(** With CONFIG_ATCSPI200_COMPACT the controller enables and disables writing. *)
Definition spi_flash_write_sequence (fuel : nat) (cmd tx : list Z) : M spi Z :=
  atcspi200_cmd_write_compact fuel cmd tx.

(** The command bytes with the address: [cmd[0]] and [spi_flash_addr]. *)
Definition spi_flash_addr (op addr : Z) : list Z :=
  [op; u8 (Z.shiftr addr 16); u8 (Z.shiftr addr 8); u8 addr].

Definition spi_flash_lookup_region (f : spi_flash) (offset : Z) : option erase_region :=
  List.find (λ r, (er_start r <=? offset) && (offset <? u32 (er_start r + er_size r))) (region f).

Definition erase_block_superset (b1 b2 : erase_block) : bool :=
  (eb_start b1 <=? eb_start b2) && (eb_end b1 >=? eb_end b2).
Definition erase_block_subset (b1 b2 : erase_block) : bool :=
  (eb_start b1 >=? eb_start b2) && (eb_end b1 <=? eb_end b2).

Definition block_at (start size : Z) : erase_block :=
  let st := Z.land start (u32 (Z.lnot (u32 (size - 1)))) in EraseBlock st (u32 (st + size)).

Definition block_fits (b blk : erase_block) (how : Z) : bool :=
  (if negb (Z.land how EB_SUPERSET =? 0) then erase_block_superset b blk else erase_block_subset b blk) &&
  (if negb (Z.land how EB_UNALIGNED =? 0) then true else eb_start b =? eb_start blk).

Definition better (m : erase_method) (best : option erase_method) (how : Z) : bool :=
  match best with
  | None => true
  | Some b => if Z.land how EB_MIN_BLOCK =? 0 then em_size m >? em_size b else em_size m <? em_size b
  end.

(** The loop over the bits of [mask] and the methods; a bit beyond the array
    faults. *)
Fixpoint best_method (mask : Z) (ms : list erase_method) (blk : erase_block) (how : Z)
    (best : option erase_method) : option (option erase_method) :=
  if mask =? 0 then Some best else
  match ms with
  | [] => None
  | m :: ms =>
      let ok := Z.odd mask && block_fits (block_at (eb_start blk) (em_size m)) blk how && better m best how in
      best_method (Z.shiftr mask 1) ms blk how (if ok : bool then Some m else best)
  end.

(** The method and the block found, or None for -EINVAL. *)
Definition spi_flash_lookup_erase_info (blk : erase_block) (how : Z) : M spi (option (erase_method * erase_block)) :=
  s ← get;
  match spi_flash_lookup_region (flash s) (eb_start blk) with
  | None => mret None
  | Some r =>
      best ← lift_opt (best_method (er_method r) (erase_info (flash s)) blk how None);
      mret ((λ m, (m, block_at (eb_start blk) (em_size m))) <$> best)
  end.

(** 0 with the start and end of the block, or -ENXIO. *)
Definition spi_flash_lookup_erase_block (start how : Z) : M spi (Z * option erase_block) :=
  r ← spi_flash_lookup_erase_info (EraseBlock start (u32 (start + 1))) how;
  mret (match r with Some (_, b) => (0, Some b) | None => (- ENXIO, None) end).

(** One pass of the loop of [spi_flash_erase]: the value it returns early, or
    where it stopped.  [fuel] bounds the loop, [pf] the polling. *)
Fixpoint erase_pass (fuel pf : nat) (dryrun : bool) (how st en : Z) : M spi (Z + Z) :=
  match fuel with
  | O => out_of_fuel
  | S fuel =>
      if st <? en then
        r ← spi_flash_lookup_erase_info (EraseBlock st en) how;
        match r with
        | None => mret (inl (-1))
        | Some (op, out) =>
            ret ← (if dryrun then mret 0
                   else spi_flash_write_sequence pf (spi_flash_addr (em_opcode op) (eb_start out)) []);
            if ret <? 0 then mret (inl (- ret)) else
            erase_pass fuel pf dryrun how (u32 (st + em_size op)) en
        end
      else mret (inr st)
  end.

Definition spi_flash_erase (fuel pf : nat) (start size how : Z) : M spi Z :=
  let en := u32 (start + size) in
  r ← erase_pass fuel pf true how start en;
  match r with
  | inl ret => mret ret
  | inr st =>
      if (how =? 0) && negb (st =? en) then mret (-1) else
      r ← erase_pass fuel pf false how start en;
      match r with
      | inl ret => mret ret
      | inr st => if (how =? 0) && negb (st =? en) then mret (-1) else mret 0
      end
  end.

(** The loop of [spi_flash_write] over pages: the result or the bytes written. *)
Fixpoint write_pages (fuel pf : nat) (offset : Z) (buf : list Z) (actual : Z) : M spi Z :=
  match fuel with
  | O => out_of_fuel
  | S fuel =>
      match buf with
      | [] => mret actual
      | _ =>
          s ← get;
          let len := Z.min (Z.of_nat (length buf)) (page_size (flash s)) in
          ret ← spi_flash_write_sequence pf (spi_flash_addr SPI_FLASH_OP_PP offset) (take (Z.to_nat len) buf);
          if ret <? 0 then mret ret else
          write_pages fuel pf (u32 (offset + len)) (drop (Z.to_nat len) buf) (actual + len)
      end
  end.

(** [ptr] is the address of [buf]; the flash has no [write] hook. *)
Definition spi_flash_write (pf : nat) (offset ptr : Z) (buf : list Z) : M spi Z :=
  s ← get;
  if (ptr >=? mem_base (flash s)) && (ptr <=? u32 (mem_base (flash s) + sf_size (flash s))) then mret (-1) else
  write_pages (S (length buf)) pf offset buf 0.

Definition max_xfer_size : Z := 0x200.

(** The loop of [spi_flash_read]: [ret] is 1 after an error (the comparison is
    what is assigned) and not initialised when nothing was read. *)
Fixpoint read_chunks (fuel pf : nat) (offset size : Z) (ret : option Z) (acc : list Z) : M spi (option Z * list Z) :=
  match fuel with
  | O => out_of_fuel
  | S fuel =>
      if size >? 0 then
        let rlen := Z.min size max_xfer_size in
        s ← get;
        r ← match cur_fast_read (flash s) with
            | Some c => atcspi200_cmd_mio_read_compact pf c offset rlen
            | None => atcspi200_cmd_read_compact pf (spi_flash_addr SPI_FLASH_OP_READ offset) 0 rlen
            end;
        let ret := if r.1 <? 0 then 1 else 0 in
        if negb (ret =? 0) then mret (Some ret, acc) else
        read_chunks fuel pf (u32 (offset + rlen)) (size - rlen) (Some ret) (acc ++ r.2)
      else mret (ret, acc)
  end.

Definition spi_flash_read (pf : nat) (offset size : Z) : M spi (Z * list Z) :=
  r ← read_chunks (S (Z.to_nat size)) pf offset size None [];
  ret ← lift_opt r.1;
  mret (ret, r.2).

(** ** Access by address *)

Definition flash_erase (fuel pf : nat) (addr size how : Z) : M spi Z :=
  s ← get;
  if spi_flash_find_by_addr (flash s) addr
  then spi_flash_erase fuel pf (u32 (addr - mem_base (flash s))) size how else mret (- ENODEV).

Definition flash_write (pf : nat) (addr ptr : Z) (buf : list Z) : M spi Z :=
  s ← get;
  if spi_flash_find_by_addr (flash s) addr
  then spi_flash_write pf (u32 (addr - mem_base (flash s))) ptr buf else mret (- ENODEV).

Definition flash_read (pf : nat) (addr size : Z) : M spi (Z * list Z) :=
  s ← get;
  if spi_flash_find_by_addr (flash s) addr
  then spi_flash_read pf (u32 (addr - mem_base (flash s))) size else mret (- ENODEV, []).

Definition spi_flash_top_block : M spi Z :=
  s ← get;
  r ← spi_flash_lookup_erase_block (sf_size (flash s) - 1) (EB_SUPERSET + EB_UNALIGNED + EB_MIN_BLOCK);
  mret (match r with (_, Some b) => eb_start b | _ => -1 end).

End Driver.
