(* ===== verification/SpiFlashTheorems.v ===== *)
(** * The SPI flash driver: theorems

    Erasing and programming a range of the flash changes exactly that range;
    every polling loop ends, whatever the 32-bit timer does. *)

From stdpp Require Import base tactics numbers list gmap.
From S2P Require Import Prelude SpiFlash.

(** ** What the memory chip promises *)

(** Page programming: the data goes to one page, wraps around inside it, and
    can only clear bits. *)
Definition programmed (page : Z) (f : Z → Z) (a : Z) (tx : list Z) : Z → Z := λ x,
  if (a - a mod page <=? x) && (x <? a - a mod page + page) && ((x - a) mod page <? Z.of_nat (length tx))
  then Z.land (f x) (tx !!! Z.to_nat ((x - a) mod page)) else f x.

Definition wiped (f : Z → Z) (a n : Z) : Z → Z := λ x, if (a <=? x) && (x <? a + n) then 0xff else f x.

(** The transfer word for reading [n] bytes with command [c]: an address, the
    mode with or without dummy cycles, the lines of data and address, and the
    count. *)
Definition read_word_ok (c : fast_read_cmd) (n v : Z) : bool :=
  (bfield_get v 29 29 =? 1) && (bfield_get v 8 0 =? n - 1) &&
  (bfield_get v 27 24 =? if fr_dummy c =? 0 then 2 else 9) &&
  ((fr_dummy c =? 0) || (bfield_get v 10 9 =? fr_dummy c * fr_address c / 8 - 1)) &&
  (bfield_get v 23 22 =? if fr_data c =? 2 then 1 else if fr_data c =? 4 then 2 else 0) &&
  (bfield_get v 28 28 =? if (1 <? fr_data c) && (fr_address c =? fr_data c) then 1 else 0) &&
  (bfield_get v 21 21 =? if fr_mode c =? 0 then 0 else 1).

(** The chip's contents, its write-enable latch, the time, and when the
    operation in progress ends; commands that change the contents need the
    latch and take effect within their documented time. *)
Class NorChip `{SpiBus} := {
  cells : hw → Z → Z;
  wel : hw → bool;
  clock : hw → Z;
  done_at : hw → Z;
  chip_page : Z;
  latency : Z;
  pp_time : Z;
  erase_time : Z → Z;
  block_of : Z → Z → option Z;    (* the block that an opcode erases at an address *)

  chip_status h :
    let r := transact SPI_FLASH_OP_RDSR 0x42000000 0 [] 1 h in
    (∃ st, r.1 = [st] ∧ Z.testbit st 0 = (clock h <? done_at h) ∧ Z.testbit st 1 = wel h) ∧
    cells r.2 = cells h ∧ wel r.2 = wel h ∧ done_at r.2 = done_at h ∧ clock r.2 = clock h;
  chip_latch (b : bool) h : done_at h ≤ clock h →
    let r := transact (if b then SPI_FLASH_OP_WREN else SPI_FLASH_OP_WRDI) 0x47000000 0 [] 0 h in
    cells r.2 = cells h ∧ wel r.2 = b ∧ done_at r.2 = done_at h ∧ clock h ≤ clock r.2;
  chip_timer h :
    let r := hal_timer_value h in
    r.1 = u32 (clock r.2) ∧ clock h < clock r.2 ≤ clock h + latency ∧
    cells r.2 = cells h ∧ wel r.2 = wel h ∧ done_at r.2 = done_at h;
  chip_program h a tx trans : done_at h ≤ clock h → wel h = true → 0 ≤ a < 2 ^ 24 →
    0 < Z.of_nat (length tx) ≤ chip_page → bfield_get trans 29 29 = 1 → bfield_get trans 27 24 = 1 →
    bfield_get trans 20 12 = Z.of_nat (length tx) - 1 →
    let r := transact SPI_FLASH_OP_PP trans a tx 0 h in
    (∀ x, cells r.2 x = programmed chip_page (cells h) a tx x) ∧ clock h ≤ clock r.2 ∧
    done_at r.2 + latency ≤ clock r.2 + pp_time;
  chip_erase h op a size trans : done_at h ≤ clock h → wel h = true → 0 ≤ a < 2 ^ 24 →
    block_of op a = Some size → a mod size = 0 → bfield_get trans 29 29 = 1 → bfield_get trans 27 24 = 7 →
    let r := transact op trans a [] 0 h in
    (∀ x, cells r.2 x = wiped (cells h) a size x) ∧ clock h ≤ clock r.2 ∧
    done_at r.2 + latency ≤ clock r.2 + erase_time op;
  chip_read h c a n trans : done_at h ≤ clock h → 0 ≤ a < 2 ^ 24 → 0 < n ≤ 512 →
    c ∈ atcspi200_readcmds → read_word_ok c n trans = true →
    let r := transact (fr_opcode c) trans a [] n h in
    r.1 = cells h <$> seqZ a n ∧ cells r.2 = cells h ∧ done_at r.2 = done_at h ∧ clock h ≤ clock r.2;
}.

Section Theorems.
Context {SB : SpiBus} {NC : NorChip}.

Definition ready (h : hw) : Prop := done_at h ≤ clock h.

(** ** The controller *)

Lemma read_status_run h F : ∃ st h', flash_read_status (Spi h F) = Ret (st, Spi h' F) ∧
  Z.testbit st 0 = (clock h <? done_at h) ∧ Z.testbit st 1 = wel h ∧
  cells h' = cells h ∧ wel h' = wel h ∧ done_at h' = done_at h ∧ clock h' = clock h.
Proof.
  destruct (chip_status h) as [(st&Hr&H0&H1) (?&?&?&?)].
  exists st, (transact SPI_FLASH_OP_RDSR 0x42000000 0 [] 1 h).2.
  split; [|done]. unfold flash_read_status, bus_transact, mbind, M_bind. simpl. by rewrite Hr.
Qed.

Lemma land_BIT_set st n : 0 ≤ n → (Z.land st (BIT n) =? BIT n) = Z.testbit st n.
Proof.
  intros Hn. rewrite land_BIT by done. destruct (Z.testbit st n); [apply Z.eqb_refl|].
  apply Z.eqb_neq. pose proof (BIT_pos n Hn). lia.
Qed.

Lemma write_enable_run fuel h F : ready h → (0 < fuel)%nat →
  ∃ h', flash_write_enable fuel (Spi h F) = Ret ((), Spi h' F) ∧ cells h' = cells h ∧ wel h' = true ∧ ready h'.
Proof.
  intros Hr Hf. destruct fuel as [|fuel]; [lia|]. cbn [flash_write_enable].
  destruct (chip_latch true h Hr) as (Hc&Hw&Hd&Ht).
  set (h1 := (transact _ _ _ _ _ h).2) in *.
  assert (bus_transact SPI_FLASH_OP_WREN 0x47000000 0 [] 0 (Spi h F) =
    Ret ((transact SPI_FLASH_OP_WREN 0x47000000 0 [] 0 h).1, Spi h1 F)) as Hrun by done.
  erewrite bind_Ret by exact Hrun.
  destruct (read_status_run h1 F) as (st&h2&Hrun2&_&H1&Hc2&Hw2&Hd2&Ht2).
  erewrite bind_Ret by exact Hrun2. unfold SR_WEL. rewrite land_BIT_zero, H1, Hw by lia. simpl.
  exists h2. split; [done|]. split; [congruence|]. split; [congruence|]. unfold ready in *. lia.
Qed.

Lemma write_disable_run fuel h F : ready h → (0 < fuel)%nat →
  ∃ h', flash_write_disable fuel (Spi h F) = Ret ((), Spi h' F) ∧ cells h' = cells h ∧ ready h'.
Proof.
  intros Hr Hf. destruct fuel as [|fuel]; [lia|]. cbn [flash_write_disable].
  destruct (chip_latch false h Hr) as (Hc&Hw&Hd&Ht).
  set (h1 := (transact _ _ _ _ _ h).2) in *.
  assert (bus_transact SPI_FLASH_OP_WRDI 0x47000000 0 [] 0 (Spi h F) =
    Ret ((transact SPI_FLASH_OP_WRDI 0x47000000 0 [] 0 h).1, Spi h1 F)) as Hrun by done.
  erewrite bind_Ret by exact Hrun.
  destruct (read_status_run h1 F) as (st&h2&Hrun2&_&H1&Hc2&Hw2&Hd2&Ht2).
  erewrite bind_Ret by exact Hrun2. unfold SR_WEL. rewrite land_BIT_set, H1, Hw by lia. simpl.
  exists h2. split; [done|]. split; [congruence|]. unfold ready in *. lia.
Qed.

Lemma timer_value_run h F : ∃ h', timer_value (Spi h F) = Ret (u32 (clock h'), Spi h' F) ∧
  clock h < clock h' ≤ clock h + latency ∧ cells h' = cells h ∧ done_at h' = done_at h.
Proof.
  destruct (chip_timer h) as (Hv&Ht&Hc&Hw&Hd). exists (hal_timer_value h).2.
  split; [|done]. unfold timer_value, mbind, M_bind. simpl. by rewrite <-Hv.
Qed.

(** The difference of two readings of the timer never exceeds the time that
    passed, wrap-around or not. *)
Lemma u32_diff a b : a ≤ b → u32 b - u32 a ≤ b - a.
Proof.
  intros H. unfold u32.
  pose proof (Z.div_mod a (2 ^ 32)). pose proof (Z.div_mod b (2 ^ 32)).
  pose proof (Z.div_le_mono a b (2 ^ 32)). lia.
Qed.

Lemma in_progress_run fuel h F t0 timeout : t0 ≤ clock h → done_at h + latency ≤ t0 + timeout →
  done_at h - clock h < Z.of_nat fuel → (0 < fuel)%nat →
  ∃ h', in_progress_loop fuel (u32 t0 + timeout) (Spi h F) = Ret (0, Spi h' F) ∧
    cells h' = cells h ∧ ready h'.
Proof.
  revert h. induction fuel as [|fuel IH]; intros h Ht0 Hdone Hfuel Hpos; [lia|]. cbn [in_progress_loop].
  destruct (read_status_run h F) as (st&h1&Hrun&H0&_&Hc&_&Hd&Ht).
  erewrite bind_Ret by exact Hrun. unfold SR_WIP. rewrite land_BIT_zero, H0 by lia.
  destruct (Z.ltb_spec (clock h) (done_at h)) as [Hlt|Hge]; simpl.
  2: { exists h1. split; [done|]. split; [done|]. unfold ready. lia. }
  destruct (timer_value_run h1 F) as (h2&Hrun2&Ht2&Hc2&Hd2). erewrite bind_Ret by exact Hrun2.
  pose proof (u32_diff t0 (clock h2)). rewrite (proj2 (Z.ltb_lt _ _)) by lia.
  destruct (IH h2) as (h3&Hrun3&Hc3&Hr3); [lia..|].
  exists h3. split; [done|]. split; [congruence|done].
Qed.

Lemma in_progress_total fuel h F timeout : done_at h + latency ≤ clock h + timeout →
  0 ≤ timeout < Z.of_nat fuel →
  ∃ h', flash_write_in_progress fuel timeout (Spi h F) = Ret (0, Spi h' F) ∧ cells h' = cells h ∧ ready h'.
Proof.
  intros Hdone Hfuel. unfold flash_write_in_progress.
  destruct (timer_value_run h F) as (h1&Hrun&Ht&Hc&Hd). erewrite bind_Ret by exact Hrun.
  destruct (chip_timer h) as (_&Hl&_).
  destruct (in_progress_run fuel h1 F (clock h1) timeout) as (h2&Hrun2&Hc2&Hr2); [lia..|].
  exists h2. split; [done|]. split; [congruence|done].
Qed.

(** The transfer word of a write command with an address. *)
Definition write_word_ok (n v : Z) : bool :=
  (bfield_get v 29 29 =? 1) && (bfield_get v 27 24 =? if n =? 0 then 7 else 1) &&
  ((n =? 0) || (bfield_get v 20 12 =? n - 1)).

Lemma transfer_control_write n (s : spi) : 0 ≤ n ≤ 512 →
  ∃ v, atcspi200_transfer_control 4 0 n 0 s = Ret (v, s) ∧ bfield_get v 29 29 = 1 ∧
    bfield_get v 27 24 = (if n =? 0 then 7 else 1) ∧ (0 < n → bfield_get v 20 12 = n - 1).
Proof.
  intros Hn. unfold atcspi200_transfer_control, mbind, M_bind, c_assert.
  rewrite (Z.gtb_ltb (4 + n + 0)), (proj2 (Z.ltb_lt _ _)), (proj2 (Z.leb_le n _)) by lia. simpl.
  eexists. split; [reflexivity|].
  match goal with |- bfield_get ?v _ _ = _ ∧ _ =>
    set (w := v); assert (write_word_ok n w = true) as Hw end.
  { subst w.
    assert (forallb (λ n, write_word_ok n (Z.lor (Z.lor (Z.lor (Z.lor (Z.lor (bfield_set 1 30 30) (bfield_set 1 29 29))
      (bfield_set (transfer_mode 0 n 0) 27 24)) (bfield_set 0 10 9))
      (if n >? 0 then bfield_set (n - 1) 20 12 else 0)) 0)) (seqZ 0 513) = true) as Hall by (vm_compute; reflexivity).
    rewrite forallb_forall in Hall. apply Hall. apply list_elem_of_In, elem_of_seqZ. lia. }
  unfold write_word_ok in Hw. destruct (Z.eqb_spec n 0); split_and!; lia.
Qed.

Lemma get_addr_run op a : 0 ≤ a < 2 ^ 24 → _get_addr (spi_flash_addr op a) = Some a.
Proof.
  intros Ha. simpl. f_equal. apply Z.bits_inj'. intros i Hi.
  rewrite !Z.lor_spec, !Z.shiftl_spec by done. unfold u8.
  destruct (decide (i < 24)) as [H24|H24].
  - destruct (decide (i < 8)); [|destruct (decide (i < 16))];
      rewrite ?(Z.testbit_neg_r _ (i - 16)), ?(Z.testbit_neg_r _ (i - 8)) by lia;
      repeat first [rewrite Z.mod_pow2_bits_low by lia | rewrite Z.mod_pow2_bits_high by lia];
      rewrite ?Z.shiftr_spec by lia; rewrite ?orb_false_l, ?orb_false_r; f_equal; lia.
  - rewrite !Z.mod_pow2_bits_high by lia. simpl. symmetry. apply (Z.testbit_false _ _ Hi).
    rewrite Z.div_small; [done|]. split; [lia|]. apply Z.lt_le_trans with (2 ^ 24); [lia|].
    apply Z.pow_le_mono_r; lia.
Qed.

(** An operation that changes the contents, whatever the command is. *)
Lemma operation_run fuel addr tx cmd trans opt timeout h F (P : Z → Z) :
  opt = FLASH_WRITE ∨ opt = FLASH_ERASE → ready h → 0 ≤ timeout < Z.of_nat fuel →
  (∀ h1, ready h1 → wel h1 = true → cells h1 = cells h →
    let r := transact cmd trans addr (match opt with FLASH_WRITE => tx | _ => [] end) 0 h1 in
    (∀ x, cells r.2 x = P x) ∧ done_at r.2 + latency ≤ clock r.2 + timeout) →
  ∃ rx h', flash_operation fuel addr tx 0 cmd trans opt timeout (Spi h F) = Ret ((0, rx), Spi h' F) ∧
    (∀ x, cells h' x = P x) ∧ ready h'.
Proof.
  intros Hopt Hr Ht HP. unfold flash_operation.
  destruct (write_enable_run fuel h F Hr ltac:(lia)) as (h1&Hrun1&Hc1&Hw1&Hr1).
  destruct (HP h1 Hr1 Hw1 Hc1) as [Hc Hdone].
  set (r := transact _ _ _ _ _ h1) in *.
  destruct (in_progress_total fuel r.2 F timeout Hdone Ht) as (h3&Hrun3&Hc3&Hr3).
  destruct (write_disable_run fuel h3 F Hr3 ltac:(lia)) as (h4&Hrun4&Hc4&Hr4).
  exists r.1, h4. split; [|split; [intros x; by rewrite Hc4, Hc3|done]].
  destruct Hopt as [-> | ->]; erewrite bind_Ret by exact Hrun1;
    (erewrite bind_Ret by (unfold bus_transact, mbind, M_bind; simpl; reflexivity));
    fold r; erewrite bind_Ret by exact Hrun3; erewrite bind_Ret by exact Hrun4; done.
Qed.

(** ** The memory behind the driver *)

(** The methods that a region lists. *)
Definition has_method (F : spi_flash) (r : erase_region) (m : erase_method) : Prop :=
  ∃ i, Z.testbit (er_method r) (Z.of_nat i) = true ∧ erase_info F !! i = Some m.

(** What the driver knows of the chip agrees with the chip: sizes are powers of
    two that divide the regions, and no time-out is too short. *)
Record geometry (F : spi_flash) : Prop := {
  g_size : 0 < sf_size F ≤ 2 ^ 24;
  g_base : 0 ≤ mem_base F ∧ mem_base F + sf_size F ≤ 2 ^ 32;
  g_page : page_size F = chip_page ∧ ∃ k, 0 ≤ k ≤ 9 ∧ chip_page = 2 ^ k;
  g_pp : pp_time ≤ pp_timeout F;
  g_pp_op : Forall (λ m, em_opcode m ≠ SPI_FLASH_OP_PP) (erase_info F);
  g_methods : length (erase_info F) = 4%nat;
  g_read c : cur_fast_read F = Some c → c ∈ atcspi200_readcmds;
  g_region r : r ∈ region F →
    0 ≤ er_start r ∧ 0 < er_size r ∧ er_start r + er_size r ≤ sf_size F ∧ 0 ≤ er_method r < 16;
  g_method r m : r ∈ region F → has_method F r m →
    (∃ k, 0 ≤ k ≤ 24 ∧ em_size m = 2 ^ k) ∧
    er_start r mod em_size m = 0 ∧ er_size r mod em_size m = 0 ∧
    0 ≤ erase_time (em_opcode m) ≤ (cmd_timeout F (em_opcode m)).1 ∧
    ∀ a, er_start r ≤ a < er_start r + er_size r → a mod em_size m = 0 →
      block_of (em_opcode m) a = Some (em_size m);
}.

(** Polls that are enough for every operation. *)
Definition polls (F : spi_flash) (pf : nat) : Prop :=
  0 ≤ pp_timeout F < Z.of_nat pf ∧ Forall (λ m, 0 ≤ em_timeout m < Z.of_nat pf) (erase_info F).

Lemma found_addr F a : geometry F → 0 ≤ a < sf_size F → spi_flash_find_by_addr F (u32 (a + mem_base F)) = true.
Proof.
  intros [[? ?] [? ?] _ _ _ _ _ _ _] Ha. rewrite u32_id by lia. unfold spi_flash_find_by_addr.
  rewrite Z.gtb_ltb. apply andb_true_iff. split; [apply Z.leb_le|apply Z.ltb_lt]; lia.
Qed.

(** A write command with an address. *)
Lemma cmd_write_run pf op a tx timeout opt h F (P : Z → Z) : geometry F → 0 ≤ a < sf_size F →
  Z.of_nat (length tx) ≤ 512 → cmd_timeout F op = (timeout, opt) → ready h → 0 ≤ timeout < Z.of_nat pf →
  (∀ h1 trans, ready h1 → wel h1 = true → cells h1 = cells h → bfield_get trans 29 29 = 1 →
    bfield_get trans 27 24 = (if Z.of_nat (length tx) =? 0 then 7 else 1) →
    (0 < Z.of_nat (length tx) → bfield_get trans 20 12 = Z.of_nat (length tx) - 1) →
    let r := transact op trans a (match opt with FLASH_WRITE => tx | _ => [] end) 0 h1 in
    (∀ x, cells r.2 x = P x) ∧ done_at r.2 + latency ≤ clock r.2 + timeout) →
  ∃ h', spi_flash_write_sequence pf (spi_flash_addr op a) tx (Spi h F) = Ret (0, Spi h' F) ∧
    (∀ x, cells h' x = P x) ∧ ready h'.
Proof.
  intros Hg Ha Htx Hto Hr Hpf HP. pose proof (g_size F Hg).
  unfold spi_flash_write_sequence, atcspi200_cmd_write_compact.
  destruct (transfer_control_write (Z.of_nat (length tx)) (Spi h F)) as (v&Hv&H29&Hmode&Hcnt); [lia|].
  change (Z.of_nat (length (spi_flash_addr op a))) with 4. erewrite bind_Ret by exact Hv. mstep.
  rewrite H29. change (negb (1 =? 0)) with true. cbv iota.
  rewrite get_addr_run by lia. mstep. simpl head. mstep. cbn [flash].
  rewrite (found_addr F a Hg Ha), Hto. cbn [andb]. cbv beta iota zeta.
  assert (opt = FLASH_WRITE ∨ opt = FLASH_ERASE) as Hopt.
  { unfold cmd_timeout in Hto. destruct (List.find _ _); simplify_eq; tauto. }
  destruct (operation_run pf a tx op v opt timeout h F P Hopt Hr Hpf) as (rx&h'&Hrun&Hc&Hr').
  { intros h1 ???. by apply HP. }
  erewrite bind_Ret by exact Hrun. exists h'. done.
Qed.

Lemma pp_timeout_of F : geometry F → cmd_timeout F SPI_FLASH_OP_PP = (pp_timeout F, FLASH_WRITE).
Proof.
  intros [_ _ _ _ Hop _ _ _ _]. unfold cmd_timeout.
  destruct (List.find _ (erase_info F)) as [m|] eqn:E; [|done].
  apply find_some in E as [Hin Heq]. rewrite Forall_forall in Hop.
  exfalso. apply (Hop m); [by apply list_elem_of_In|]. lia.
Qed.

Lemma program_page_run pf a tx h F : geometry F → polls F pf → 0 ≤ a < sf_size F →
  0 < Z.of_nat (length tx) ≤ page_size F → ready h →
  ∃ h', spi_flash_write_sequence pf (spi_flash_addr SPI_FLASH_OP_PP a) tx (Spi h F) = Ret (0, Spi h' F) ∧
    (∀ x, cells h' x = programmed (page_size F) (cells h) a tx x) ∧ ready h'.
Proof.
  intros Hg [Hp _] Ha Hlen Hr. destruct (g_page F Hg) as (Hpage&k&Hk&Hpow). pose proof (g_size F Hg).
  pose proof (g_pp F Hg).
  assert (page_size F ≤ 512).
  { rewrite Hpage, Hpow. change 512 with (2 ^ 9). apply Z.pow_le_mono_r; lia. }
  apply (cmd_write_run pf _ a tx (pp_timeout F) FLASH_WRITE); [done|done|lia|by apply pp_timeout_of|done|done|].
  intros h1 trans Hr1 Hw1 Hc1 H29 Hmode Hcnt. rewrite (proj2 (Z.eqb_neq _ 0)) in Hmode by lia.
  destruct (chip_program h1 a tx trans) as (Hx&_&Hd); try done; [lia|lia|by apply Hcnt; lia|].
  split; [|lia]. intros x. by rewrite Hx, Hc1, Hpage.
Qed.

(** ** Programming *)

Definition within (a n x : Z) : bool := (a <=? x) && (x <? a + n).

Lemma within_spec a n x : within a n x = true ↔ a ≤ x < a + n.
Proof. unfold within. rewrite andb_true_iff, Z.leb_le, Z.ltb_lt. done. Qed.

(** [data] programmed at [a], without any wrap-around. *)
Definition burned (f : Z → Z) (a : Z) (data : list Z) : Z → Z := λ x,
  if within a (Z.of_nat (length data)) x then Z.land (f x) (data !!! Z.to_nat (x - a)) else f x.

Lemma burned_ext f g a data x : f x = g x → burned f a data x = burned g a data x.
Proof. unfold burned. by intros ->. Qed.

Lemma burned_nil f a x : burned f a [] x = f x.
Proof. unfold burned. destruct (within a (Z.of_nat (length (@nil Z))) x) eqn:E; [|done]. apply within_spec in E. simpl in E. lia. Qed.

Lemma burned_app f a d1 d2 x :
  burned (burned f a d1) (a + Z.of_nat (length d1)) d2 x = burned f a (d1 ++ d2) x.
Proof.
  unfold burned. rewrite length_app.
  destruct (decide (a ≤ x < a + Z.of_nat (length d1 + length d2))) as [Hin|Hout].
  2: { rewrite !(proj1 (not_true_iff_false (within _ _ x))) by (rewrite within_spec; lia). done. }
  rewrite (proj2 (within_spec a (Z.of_nat (length d1 + length d2)) x)) by done.
  destruct (decide (x < a + Z.of_nat (length d1))).
  - rewrite (proj1 (not_true_iff_false (within (a + _) _ x))) by (rewrite within_spec; lia).
    rewrite (proj2 (within_spec a _ x)) by lia. by rewrite lookup_total_app_l by lia.
  - rewrite (proj2 (within_spec (a + _) _ x)) by lia.
    rewrite (proj1 (not_true_iff_false (within a _ x))) by (rewrite within_spec; lia).
    rewrite lookup_total_app_r by lia. do 2 f_equal. lia.
Qed.

Lemma programmed_aligned page f a tx x : 0 < page → a mod page = 0 → Z.of_nat (length tx) ≤ page →
  programmed page f a tx x = burned f a tx x.
Proof.
  intros Hp Ha Hlen. unfold programmed, burned. rewrite Ha, Z.sub_0_r.
  change ((a <=? x) && (x <? a + page)) with (within a page x).
  destruct (within a page x) eqn:E; simpl.
  - apply within_spec in E. rewrite Z.mod_small by lia.
    destruct (Z.ltb_spec (x - a) (Z.of_nat (length tx))).
    + by rewrite (proj2 (within_spec a _ x)) by lia.
    + destruct (within a (Z.of_nat (length tx)) x) eqn:E2; [apply within_spec in E2; lia|done].
  - destruct (within a (Z.of_nat (length tx)) x) eqn:E2; [|done].
    apply within_spec in E2. rewrite (proj2 (within_spec a page x)) in E by lia. done.
Qed.

Lemma write_pages_run fuel pf offset buf actual h F : geometry F → polls F pf → (length buf < fuel)%nat →
  buf = [] ∨ offset mod page_size F = 0 → 0 ≤ offset → offset + Z.of_nat (length buf) ≤ sf_size F → ready h →
  ∃ h', write_pages fuel pf offset buf actual (Spi h F) = Ret (actual + Z.of_nat (length buf), Spi h' F) ∧
    (∀ x, cells h' x = burned (cells h) offset buf x) ∧ ready h'.
Proof.
  intros Hg Hpf. revert offset buf actual h.
  induction fuel as [|fuel IH]; intros offset buf actual h Hfuel Hal Hoff Hend Hr; [lia|].
  destruct (g_page F Hg) as (Hpage&k&Hk&Hpow). pose proof (g_size F Hg).
  assert (0 < page_size F) by (rewrite Hpage, Hpow; apply Z.pow_pos_nonneg; lia).
  destruct buf as [|b buf].
  { exists h. split; [simpl; by rewrite Z.add_0_r|]. split; [|done]. intros x. by rewrite burned_nil. }
  destruct Hal as [|Hal]; [done|]. cbn [write_pages]. mstep. cbn [flash].
  set (data := b :: buf) in *. assert (0 < Z.of_nat (length data)) as Hpos by (simpl; lia).
  set (len := Z.min (Z.of_nat (length data)) (page_size F)).
  assert (0 < len ≤ Z.of_nat (length data)) as Hlen by lia.
  assert (Z.of_nat (length (take (Z.to_nat len) data)) = len) as Htake by (rewrite length_take; lia).
  destruct (program_page_run pf offset (take (Z.to_nat len) data) h F) as (h1&Hrun&Hx&Hr1);
    [done|done|lia|lia|done|].
  erewrite bind_Ret by exact Hrun. change (0 <? 0) with false. cbv iota. rewrite u32_id by lia.
  destruct (IH (offset + len) (drop (Z.to_nat len) data) (actual + len) h1) as (h2&Hrun2&Hx2&Hr2).
  { rewrite length_drop. lia. }
  { destruct (decide (Z.of_nat (length data) ≤ page_size F)) as [Hs|Hs].
    - left. apply drop_ge. lia.
    - right. unfold len. rewrite Z.min_r by lia. rewrite <-Z.add_mod_idemp_l, Hal by lia. simpl. apply Z.mod_same. lia. }
  { lia. } { rewrite length_drop. lia. } { done. }
  exists h2. rewrite length_drop in Hrun2.
  split; [rewrite Hrun2; do 2 f_equal; lia|]. split; [|done].
  intros x. rewrite Hx2. rewrite (burned_ext _ (burned (cells h) offset (take (Z.to_nat len) data))).
  - rewrite <-Htake at 2. by rewrite burned_app, take_drop.
  - rewrite Hx. apply programmed_aligned; lia.
Qed.

(** A buffer outside the flash's own address range. *)
Definition buf_ok (F : spi_flash) (ptr : Z) : Prop :=
  ptr < mem_base F ∨ u32 (mem_base F + sf_size F) < ptr.

Lemma spi_write_run pf offset ptr buf h F : geometry F → polls F pf → buf_ok F ptr →
  offset mod page_size F = 0 → 0 ≤ offset → offset + Z.of_nat (length buf) ≤ sf_size F → ready h →
  ∃ h', spi_flash_write pf offset ptr buf (Spi h F) = Ret (Z.of_nat (length buf), Spi h' F) ∧
    (∀ x, cells h' x = burned (cells h) offset buf x) ∧ ready h'.
Proof.
  intros Hg Hpf Hptr Hal Hoff Hend Hr. unfold spi_flash_write. mstep. cbn [flash].
  replace ((ptr >=? mem_base F) && (ptr <=? u32 (mem_base F + sf_size F))) with false.
  2: { symmetry. apply andb_false_iff. rewrite geb_false, Z.leb_gt. exact Hptr. }
  destruct (write_pages_run (S (length buf)) pf offset buf 0 h F) as (h'&Hrun&Hx); [done|done|lia|by right|done..|].
  exists h'. by rewrite Hrun.
Qed.

(** ** Erasing *)

Lemma block_start st k : 0 ≤ st < 2 ^ 32 → 0 ≤ k ≤ 24 →
  Z.land st (u32 (Z.lnot (u32 (2 ^ k - 1)))) = st - st mod 2 ^ k.
Proof.
  intros Hst Hk. assert (0 < 2 ^ k ≤ 2 ^ 24) as Hp.
  { split; [apply Z.pow_pos_nonneg; lia|apply Z.pow_le_mono_r; lia]. }
  rewrite (u32_id (2 ^ k - 1)) by lia.
  replace (st - st mod 2 ^ k) with (Z.shiftl (Z.shiftr st k) k).
  2: { rewrite Z.shiftl_mul_pow2, Z.shiftr_div_pow2 by lia. pose proof (Z.div_mod st (2 ^ k)). lia. }
  apply Z.bits_inj'. intros i Hi. rewrite Z.land_spec, Z.shiftl_spec by done. unfold u32.
  destruct (decide (i < 32)) as [H32|H32].
  - rewrite Z.mod_pow2_bits_low by lia. rewrite Z.lnot_spec by done.
    rewrite Z.sub_1_r, <-Z.ones_equiv.
    destruct (decide (i < k)) as [Hik|Hik].
    + rewrite Z.ones_spec_low, (Z.testbit_neg_r _ (i - k)) by lia. apply andb_false_r.
    + rewrite Z.ones_spec_high, Z.shiftr_spec by lia. rewrite andb_true_r. f_equal. lia.
  - rewrite Z.mod_pow2_bits_high by lia. rewrite andb_false_r, Z.shiftr_spec by lia. symmetry.
    apply Z.testbit_false; [lia|]. rewrite Z.div_small; [done|]. split; [lia|].
    apply Z.lt_le_trans with (2 ^ 32); [lia|]. apply Z.pow_le_mono_r; lia.
Qed.

(** Blocks that [how] = 0 accepts: they start where the range starts and end in it. *)
Lemma block_fits_exact st en k : 0 ≤ st < 2 ^ 24 → 0 ≤ k ≤ 24 →
  block_fits (block_at st (2 ^ k)) (EraseBlock st en) 0 = true ↔ st mod 2 ^ k = 0 ∧ st + 2 ^ k ≤ en.
Proof.
  intros Hst Hk. assert (0 < 2 ^ k ≤ 2 ^ 24) as Hp.
  { split; [apply Z.pow_pos_nonneg; lia|apply Z.pow_le_mono_r; lia]. }
  pose proof (Z.mod_pos_bound st (2 ^ k)).
  unfold block_fits, block_at. cbv zeta. rewrite block_start by lia.
  change (negb (Z.land 0 EB_SUPERSET =? 0)) with false. change (negb (Z.land 0 EB_UNALIGNED =? 0)) with false. cbv iota.
  unfold erase_block_subset. cbn. rewrite u32_id by lia.
  rewrite !andb_true_iff, Z.eqb_eq, Z.geb_leb, !Z.leb_le. lia.
Qed.

Lemma block_at_aligned st k : 0 ≤ st < 2 ^ 24 → 0 ≤ k ≤ 24 → st mod 2 ^ k = 0 →
  eb_start (block_at st (2 ^ k)) = st.
Proof. intros. unfold block_at. simpl. rewrite block_start; lia. Qed.

Lemma best_method_sound mask ms blk how best m : 0 ≤ mask →
  best_method mask ms blk how best = Some (Some m) → best = Some m ∨
  ∃ i, Z.testbit mask (Z.of_nat i) = true ∧ ms !! i = Some m ∧
    block_fits (block_at (eb_start blk) (em_size m)) blk how = true.
Proof.
  revert mask best. induction ms as [|m0 ms IH]; intros mask best Hm; simpl.
  { destruct (mask =? 0); [|done]. intros [= ->]. by left. }
  destruct (mask =? 0); [intros [= ->]; by left|].
  destruct (Z.odd mask && _ && _) eqn:Eok; intros Hrun; apply IH in Hrun; try (by apply Z.shiftr_nonneg).
  - destruct Hrun as [[= ->]|(i&Ht&Hi&Hf)]; right.
    + exists 0%nat. apply andb_true_iff in Eok as [Eok _]. apply andb_true_iff in Eok as [Ho Hf].
      split; [by rewrite Z.bit0_odd|]. done.
    + exists (S i). split; [|done]. rewrite Z.shiftr_spec in Ht by lia. rewrite <-Ht. f_equal. lia.
  - destruct Hrun as [->|(i&Ht&Hi&Hf)]; [by left|]. right. exists (S i). split; [|done].
    rewrite Z.shiftr_spec in Ht by lia. rewrite <-Ht. f_equal. lia.
Qed.

Lemma best_method_complete mask ms blk how best : 0 ≤ mask →
  best_method mask ms blk how best = Some None → best = None ∧
  ∀ i m, Z.testbit mask (Z.of_nat i) = true → ms !! i = Some m →
    block_fits (block_at (eb_start blk) (em_size m)) blk how = false.
Proof.
  revert mask best. induction ms as [|m0 ms IH]; intros mask best Hm; simpl.
  { destruct (Z.eqb_spec mask 0) as [->|]; [|done]. intros [= ->]. split; [done|]. intros i m Ht. by rewrite Z.bits_0 in Ht. }
  destruct (Z.eqb_spec mask 0) as [->|].
  { intros [= ->]. split; [done|]. intros i m Ht. by rewrite Z.bits_0 in Ht. }
  intros Hrun. apply IH in Hrun as [Hbest Hall]; [|by apply Z.shiftr_nonneg].
  destruct (Z.odd mask && _ && _) eqn:Eok; [done|]. split; [done|].
  intros [|i] m Ht Hi; simpl in Hi.
  - injection Hi as ->. rewrite Z.bit0_odd in Ht. rewrite Ht, Hbest in Eok. simpl in Eok.
    by rewrite andb_true_r in Eok.
  - apply (Hall i m); [|done]. rewrite Z.shiftr_spec by lia. rewrite <-Ht. f_equal. lia.
Qed.

Lemma best_method_total mask ms blk how best : 0 ≤ mask < 2 ^ Z.of_nat (length ms) →
  is_Some (best_method mask ms blk how best).
Proof.
  revert mask best. induction ms as [|m0 ms IH]; intros mask best Hm; simpl.
  { simpl in Hm. rewrite (proj2 (Z.eqb_eq mask 0)) by lia. done. }
  destruct (mask =? 0); [done|]. apply IH. rewrite Z.shiftr_div_pow2 by lia.
  simpl length in Hm. rewrite Nat2Z.inj_succ, Z.pow_succ_r in Hm by lia. change (2 ^ 1) with 2.
  split; [apply Z.div_pos; lia|apply Z.div_lt_upper_bound; lia].
Qed.

Lemma lookup_region_spec F st r : geometry F → spi_flash_lookup_region F st = Some r →
  r ∈ region F ∧ er_start r ≤ st < er_start r + er_size r.
Proof.
  intros Hg Hr. apply find_some in Hr as [Hin Ht]. apply list_elem_of_In in Hin. split; [done|].
  destruct (g_region F Hg r Hin) as (?&?&?&_). pose proof (g_size F Hg).
  rewrite u32_id in Ht by lia. lia.
Qed.

(** The sizes that divide every range that can be erased: each region has a
    method of this size. *)
Definition unit_size (F : spi_flash) (g : Z) : Prop :=
  0 < g ∧ (∀ x, 0 ≤ x < sf_size F → is_Some (spi_flash_lookup_region F x)) ∧
  ∀ r, r ∈ region F → (∃ m, has_method F r m ∧ em_size m = g) ∧
    ∀ m, has_method F r m → em_size m mod g = 0.

(** The block chosen at [st]: None only if the range is not made of units. *)
Lemma lookup_erase_run st en F : geometry F → 0 ≤ st < en → en ≤ sf_size F →
  ((∀ h, spi_flash_lookup_erase_info (EraseBlock st en) 0 (Spi h F) = Ret (None, Spi h F)) ∧
     ∀ g, unit_size F g → ¬ (st mod g = 0 ∧ en mod g = 0)) ∨
  ∃ r m, (∀ h, spi_flash_lookup_erase_info (EraseBlock st en) 0 (Spi h F) =
      Ret (Some (m, block_at st (em_size m)), Spi h F)) ∧
    r ∈ region F ∧ er_start r ≤ st < er_start r + er_size r ∧ has_method F r m ∧
    st mod em_size m = 0 ∧ st + em_size m ≤ en.
Proof.
  intros Hg Hst Hen. pose proof (g_size F Hg).
  assert (∀ h, spi_flash_lookup_erase_info (EraseBlock st en) 0 (Spi h F) =
    match spi_flash_lookup_region F st with
    | None => Ret (None, Spi h F)
    | Some r => match best_method (er_method r) (erase_info F) (EraseBlock st en) 0 None with
                | Some (Some m) => Ret (Some (m, block_at st (em_size m)), Spi h F)
                | Some None => Ret (None, Spi h F)
                | None => Fault
                end
    end) as Hrun.
  { intros h. unfold spi_flash_lookup_erase_info. mstep. cbn [flash eb_start].
    destruct (spi_flash_lookup_region F st) as [r|]; [|done]. unfold mbind, M_bind, lift_opt.
    by destruct (best_method _ _ _ _ _) as [[]|]. }
  destruct (spi_flash_lookup_region F st) as [r|] eqn:Er.
  2: { left. split; [done|]. intros g (_&Hcov&_). destruct (Hcov st) as [? E]; [lia|]. congruence. }
  destruct (lookup_region_spec F st r Hg Er) as [Hin Hrange].
  destruct (g_region F Hg r Hin) as (_&_&_&Hmask).
  destruct (best_method_total (er_method r) (erase_info F) (EraseBlock st en) 0 None) as [best Hbest].
  { by rewrite (g_methods F Hg). }
  rewrite Hbest in Hrun. destruct best as [m|]; simpl in Hrun.
  - right. exists r, m. split; [done|]. split; [done|]. split; [done|].
    apply best_method_sound in Hbest as [|(i&Ht&Hi&Hf)]; [done| |lia].
    assert (has_method F r m) as Hm by by exists i. split; [done|].
    destruct (g_method F Hg r m Hin Hm) as [(k&Hk&Hsize) _]. rewrite Hsize in *. cbn [eb_start] in Hf.
    by apply block_fits_exact in Hf; [|lia..].
  - left. split; [done|]. intros g (Hgp&_&Hun) [Hs He].
    destruct (Hun r Hin) as [(m&Hm&Hsz) _]. pose proof Hm as (i&Ht&Hi).
    apply best_method_complete in Hbest as [_ Hno]; [|lia]. specialize (Hno i m Ht Hi).
    destruct (g_method F Hg r m Hin Hm) as [(k&Hk&Hsize) _].
    cbn [eb_start] in Hno. rewrite Hsize, <-not_true_iff_false, block_fits_exact in Hno by lia.
    apply Hno. rewrite <-Hsize, Hsz. split; [done|].
    apply Z.mod_divide in Hs, He; [|lia..]. destruct Hs as [a ->], He as [b ->].
    assert (a + 1 ≤ b) by nia. nia.
Qed.

Lemma erase_timeout_of F r m pf : has_method F r m → polls F pf →
  ∃ t, cmd_timeout F (em_opcode m) = (t, FLASH_ERASE) ∧ 0 ≤ t < Z.of_nat pf.
Proof.
  intros (i&_&Hi) [_ Hp]. unfold cmd_timeout.
  destruct (List.find _ (erase_info F)) as [m'|] eqn:E.
  - apply find_some in E as [Hin _]. rewrite Forall_forall in Hp.
    exists (em_timeout m'). split; [done|]. by apply Hp, list_elem_of_In.
  - exfalso. apply find_none with (x := m) in E; [lia|]. by apply list_elem_of_In, list_elem_of_lookup_2 with i.
Qed.

Lemma erase_block_run pf st r m h F : geometry F → polls F pf → r ∈ region F → has_method F r m →
  er_start r ≤ st < er_start r + er_size r → st mod em_size m = 0 → ready h →
  ∃ h', spi_flash_write_sequence pf (spi_flash_addr (em_opcode m) st) [] (Spi h F) = Ret (0, Spi h' F) ∧
    (∀ x, cells h' x = wiped (cells h) st (em_size m) x) ∧ ready h'.
Proof.
  intros Hg Hpf Hin Hm Hst Hal Hr. destruct (g_region F Hg r Hin) as (?&?&?&_). pose proof (g_size F Hg).
  destruct (g_method F Hg r m Hin Hm) as (_&_&_&Htime&Hblock).
  destruct (erase_timeout_of F r m pf Hm Hpf) as (t&Hto&Ht). rewrite Hto in Htime. simpl in Htime.
  apply (cmd_write_run pf _ st [] t FLASH_ERASE); [done|lia|simpl; lia|done|done|done|].
  intros h1 trans Hr1 Hw1 Hc1 H29 Hmode _.
  destruct (chip_erase h1 (em_opcode m) st (em_size m) trans) as (Hx&_&Hd); try done; [lia|by apply Hblock|].
  split; [|lia]. intros x. by rewrite Hx, Hc1.
Qed.

Lemma wiped_app f a n k x : 0 ≤ n → 0 ≤ k → wiped (wiped f a n) (a + n) k x = wiped f a (n + k) x.
Proof.
  intros. unfold wiped.
  destruct (Z.leb_spec a x), (Z.ltb_spec x (a + n)), (Z.leb_spec (a + n) x), (Z.ltb_spec x (a + n + k)),
    (Z.ltb_spec x (a + (n + k))); simpl; try done; lia.
Qed.

(** Both passes take the same decisions: either the dry run finds that the range
    cannot be erased, or the second pass erases all of it. *)
Lemma erase_pass_run fuel pf st en F : geometry F → polls F pf → 0 ≤ st ≤ en → en ≤ sf_size F →
  en - st < Z.of_nat fuel →
  ((∀ h, erase_pass fuel pf true 0 st en (Spi h F) = Ret (inl (-1), Spi h F)) ∧
     ∀ g, unit_size F g → ¬ (st mod g = 0 ∧ en mod g = 0)) ∨
  (∀ h, erase_pass fuel pf true 0 st en (Spi h F) = Ret (inr en, Spi h F)) ∧
  ∀ h, ready h → ∃ h', erase_pass fuel pf false 0 st en (Spi h F) = Ret (inr en, Spi h' F) ∧
    (∀ x, cells h' x = wiped (cells h) st (en - st) x) ∧ ready h'.
Proof.
  intros Hg Hpf. revert st. induction fuel as [|fuel IH]; intros st Hst Hen Hfuel; [lia|]. cbn [erase_pass].
  pose proof (g_size F Hg). destruct (Z.ltb_spec st en) as [Hlt|Hge].
  2: { assert (st = en) as -> by lia. right. split; [done|]. intros h Hr. exists h. split; [done|]. split; [|done].
       intros x. unfold wiped. rewrite Z.sub_diag. destruct (Z.leb_spec en x), (Z.ltb_spec x (en + 0)); simpl; (done || lia). }
  destruct (lookup_erase_run st en F Hg) as [[Hno Hun]|(r&m&Hlook&Hin&Hrange&Hm&Hal&Hfit)]; [lia|done| |].
  { left. split; [|done]. intros h. by erewrite bind_Ret by apply Hno. }
  destruct (g_method F Hg r m Hin Hm) as [(k&Hk&Hsize) _].
  assert (0 < em_size m) as Hpos by (rewrite Hsize; apply Z.pow_pos_nonneg; lia).
  destruct (IH (st + em_size m)) as [[Hno Hun]|[Hdry Hreal]]; [lia|done|lia| |].
  - left. split.
    + intros h. erewrite bind_Ret by apply Hlook. cbv beta iota. rewrite bind_ret_l.
      change (0 <? 0) with false. cbv iota. rewrite u32_id by lia. apply Hno.
    + intros g Hgu [Hs He]. apply (Hun g Hgu). split; [|done]. destruct Hgu as (?&_&Hall).
      destruct (Hall r Hin) as [_ Hdiv]. specialize (Hdiv m Hm).
      by rewrite <-Z.add_mod_idemp_l, <-Z.add_mod_idemp_r, Hs, Hdiv by lia.
  - right. split.
    + intros h. erewrite bind_Ret by apply Hlook. cbv beta iota. rewrite bind_ret_l.
      change (0 <? 0) with false. cbv iota. rewrite u32_id by lia. apply Hdry.
    + intros h Hr. erewrite bind_Ret by apply Hlook. cbv beta iota.
      rewrite Hsize, block_at_aligned, <-Hsize by (rewrite ?Hsize in *; lia).
      destruct (erase_block_run pf st r m h F) as (h1&Hrun&Hx&Hr1); [done..|].
      erewrite bind_Ret by exact Hrun. change (0 <? 0) with false. cbv iota. rewrite u32_id by lia.
      destruct (Hreal h1 Hr1) as (h2&Hrun2&Hx2&Hr2). exists h2. split; [done|]. split; [|done].
      intros x. rewrite Hx2. replace (en - st) with (em_size m + (en - (st + em_size m))) by lia.
      rewrite <-wiped_app by lia. unfold wiped at 1 2. by rewrite Hx.
Qed.

Lemma spi_erase_run fuel pf start size h F : geometry F → polls F pf → 0 ≤ start → 0 ≤ size →
  start + size ≤ sf_size F → size < Z.of_nat fuel → ready h →
  ∃ r h', spi_flash_erase fuel pf start size 0 (Spi h F) = Ret (r, Spi h' F) ∧ ready h' ∧
    (r = 0 ∧ (∀ x, cells h' x = wiped (cells h) start size x) ∨ r = -1 ∧ h' = h) ∧
    (∀ g, unit_size F g → start mod g = 0 → size mod g = 0 → r = 0).
Proof.
  intros Hg Hpf Hst Hsz Hend Hfuel Hr. pose proof (g_size F Hg). unfold spi_flash_erase. cbv zeta.
  rewrite u32_id by lia.
  destruct (erase_pass_run fuel pf start (start + size) F) as [[Hno Hun]|[Hdry Hreal]]; [done|done|lia|done|lia| |].
  - exists (-1), h. split; [by erewrite bind_Ret by apply Hno|]. split; [done|]. split; [by right|].
    intros g Hgu Hs He. exfalso. apply (Hun g Hgu). split; [done|].
    destruct Hgu as [? _]. by rewrite <-Z.add_mod_idemp_l, <-Z.add_mod_idemp_r, Hs, He by lia.
  - destruct (Hreal h Hr) as (h'&Hrun&Hx&Hr'). exists 0, h'.
    split; [|split; [done|split; [left; split; [done|]|done]]].
    + erewrite bind_Ret by apply Hdry. cbv beta iota. rewrite (Z.eqb_refl (start + size)).
      change ((0 =? 0) && negb true) with false. cbv iota.
      erewrite bind_Ret by exact Hrun. cbv beta iota. by rewrite (Z.eqb_refl (start + size)).
    + intros x. rewrite Hx. do 2 f_equal. lia.
Qed.

(** ** Reading *)

Lemma mio_word c n (s : spi) : c ∈ atcspi200_readcmds → 0 < n ≤ 512 →
  ∃ v, atcspi200_mio_transfer_control c n s = Ret (v, s) ∧ read_word_ok c n v = true.
Proof.
  intros Hc Hn.
  assert (forallb (λ c, forallb (λ n, match atcspi200_mio_transfer_control c n s with
    | Ret (v, _) => read_word_ok c n v | _ => false end) (seqZ 1 512)) atcspi200_readcmds = true) as Hall
    by (vm_compute; reflexivity).
  rewrite forallb_forall in Hall. apply list_elem_of_In in Hc. specialize (Hall c Hc).
  rewrite forallb_forall in Hall. specialize (Hall n).
  rewrite <-list_elem_of_In, elem_of_seqZ in Hall. specialize (Hall ltac:(lia)).
  unfold atcspi200_mio_transfer_control, mbind, M_bind, c_assert in *.
  destruct (negb (fr_opcode c =? 0)), (negb (n =? 0)), (n <=? 0x200); try done. eexists. split; [reflexivity|]. exact Hall.
Qed.

Lemma read_word n (s : spi) : 0 < n ≤ 512 →
  ∃ v, atcspi200_transfer_control 4 0 0 n s = Ret (v, s) ∧
    read_word_ok (FastRead SPI_FLASH_OP_READ 1 1 0 0) n v = true.
Proof.
  intros Hn.
  assert (forallb (λ n, match atcspi200_transfer_control 4 0 0 n s with
    | Ret (v, _) => read_word_ok (FastRead SPI_FLASH_OP_READ 1 1 0 0) n v | _ => false end) (seqZ 1 512) = true) as Hall
    by (vm_compute; reflexivity).
  rewrite forallb_forall in Hall. specialize (Hall n).
  rewrite <-list_elem_of_In, elem_of_seqZ in Hall. specialize (Hall ltac:(lia)).
  unfold atcspi200_transfer_control, mbind, M_bind, c_assert in *.
  destruct (4 + 0 + n >? 0), (0 <=? 512), (n <=? 0x200); try done. eexists. split; [reflexivity|]. exact Hall.
Qed.

(** A read transaction, whatever the command. *)
Lemma read_operation pf c a n v h F : c ∈ atcspi200_readcmds → 0 ≤ a < 2 ^ 24 → 0 < n ≤ 512 →
  read_word_ok c n v = true → ready h →
  ∃ h', flash_operation pf a [] n (fr_opcode c) v FLASH_READ 0 (Spi h F) = Ret ((0, cells h <$> seqZ a n), Spi h' F) ∧
    cells h' = cells h ∧ ready h'.
Proof.
  intros Hc Ha Hn Hv Hr. destruct (chip_read h c a n v Hr Ha Hn Hc Hv) as (Hd&Hx&Hdn&Hck).
  eexists. split; [unfold flash_operation, bus_transact, mbind, M_bind; simpl; by rewrite Hd|].
  split; [done|]. unfold ready in *. simpl. lia.
Qed.

Lemma read_chunks_run fuel pf off size ret acc h F : geometry F → size < Z.of_nat fuel → 0 ≤ off → 0 ≤ size →
  off + size ≤ sf_size F → ready h →
  ∃ h', read_chunks fuel pf off size ret acc (Spi h F) =
      Ret ((if size =? 0 then ret else Some 0, acc ++ (cells h <$> seqZ off size)), Spi h' F) ∧
    cells h' = cells h ∧ ready h'.
Proof.
  intros Hg. revert off size ret acc h.
  induction fuel as [|fuel IH]; intros off size ret acc h Hfuel Hoff Hsz Hend Hr; [lia|]. cbn [read_chunks].
  pose proof (g_size F Hg). destruct (Z.eqb_spec size 0) as [->|Hne].
  { exists h. split; [|done]. rewrite app_nil_r. done. }
  rewrite Z.gtb_ltb, (proj2 (Z.ltb_lt 0 size)) by lia. mstep. cbn [flash].
  set (n := Z.min size max_xfer_size). assert (0 < n ≤ 512 ∧ n ≤ size) as [Hn Hns] by (unfold n, max_xfer_size; lia).
  assert (∃ h1, match cur_fast_read F with
    | Some c => atcspi200_cmd_mio_read_compact pf c off n
    | None => atcspi200_cmd_read_compact pf (spi_flash_addr SPI_FLASH_OP_READ off) 0 n
    end (Spi h F) = Ret ((0, cells h <$> seqZ off n), Spi h1 F) ∧ cells h1 = cells h ∧ ready h1) as (h1&Hrun&Hx&Hr1).
  { destruct (cur_fast_read F) as [c|] eqn:Ec.
    - unfold atcspi200_cmd_mio_read_compact.
      destruct (mio_word c n (Spi h F)) as (v&Hv&Hok); [by apply (g_read F Hg)|done|].
      erewrite bind_Ret by exact Hv.
      destruct (read_operation pf c off n v h F) as (h1&Hrun&?); [by apply (g_read F Hg)|lia|done..|].
      erewrite bind_Ret by exact Hrun. by exists h1.
    - unfold atcspi200_cmd_read_compact. change (Z.of_nat (length (spi_flash_addr SPI_FLASH_OP_READ off))) with 4.
      destruct (read_word n (Spi h F)) as (v&Hv&Hok); [done|]. erewrite bind_Ret by exact Hv.
      assert (bfield_get v 29 29 = 1) as -> by (unfold read_word_ok in Hok; lia).
      change (negb (1 =? 0)) with true. cbv iota. rewrite get_addr_run by lia. mstep. simpl head. mstep.
      destruct (read_operation pf (FastRead SPI_FLASH_OP_READ 1 1 0 0) off n v h F) as (h1&Hrun&?);
        [left|lia|done..|].
      erewrite bind_Ret by exact Hrun. by exists h1. }
  erewrite bind_Ret by exact Hrun. cbn [fst snd]. change (0 <? 0) with false. cbv iota zeta.
  change (negb (0 =? 0)) with false. cbv iota. rewrite u32_id by lia.
  destruct (IH (off + n) (size - n) (Some 0) (acc ++ (cells h <$> seqZ off n)) h1) as (h2&Hrun2&Hx2&Hr2); [lia..|done|].
  exists h2. split; [|split; [congruence|done]]. rewrite Hrun2. do 2 f_equal.
  rewrite <-app_assoc, Hx, <-fmap_app. f_equal; [by case_match|]. do 2 f_equal.
  replace (seqZ off size) with (seqZ off (n + (size - n))) by (f_equal; lia). by rewrite seqZ_app by lia.
Qed.

Lemma spi_read_run pf off size h F : geometry F → 0 ≤ off → 0 < size → off + size ≤ sf_size F → ready h →
  ∃ h', spi_flash_read pf off size (Spi h F) = Ret ((0, cells h <$> seqZ off size), Spi h' F) ∧
    cells h' = cells h ∧ ready h'.
Proof.
  intros Hg Hoff Hsz Hend Hr. unfold spi_flash_read.
  destruct (read_chunks_run (S (Z.to_nat size)) pf off size None [] h F) as (h'&Hrun&Hx&Hr'); [done|lia|done|lia|done|done|].
  erewrite bind_Ret by exact Hrun. rewrite (proj2 (Z.eqb_neq size 0)) by lia. by exists h'.
Qed.

(** ** Properties *)

(** C35: [spi_flash_erase] with [how] = 0 erases exactly the range it is given, or
    refuses it before it touches the flash.  For any table of regions and erase
    methods that describes the chip, mixing block sizes as the code does, and
    any range inside the memory: the call terminates and returns 0 with every
    byte of the range erased and no other byte changed, or -1 with the chip as
    it was (the comment of the function documents -EINVAL for this); and a range
    made of units that every region can erase is never refused.  [how] = 0 is
    what the update backend, the partition table and the commands that erase a
    partition pass; the write-back of the eFuse buffer and the shell command for
    a range of addresses pass EB_MIN_BLOCK, EB_SUPERSET and EB_UNALIGNED, which
    accept a block that is larger than the range, and are not covered. *)
Theorem spi_erase_exact fuel pf start size h F : geometry F → polls F pf → 0 ≤ start → 0 ≤ size →
  start + size ≤ sf_size F → size < Z.of_nat fuel → ready h →
  ∃ r h', spi_flash_erase fuel pf start size 0 (Spi h F) = Ret (r, Spi h' F) ∧ ready h' ∧
    (r = 0 ∧ (∀ x, cells h' x = wiped (cells h) start size x) ∨ r = -1 ∧ h' = h) ∧
    (∀ g, unit_size F g → start mod g = 0 → size mod g = 0 → r = 0).
Proof. apply spi_erase_run. Qed.

Lemma find_on_flash F off : geometry F → 0 ≤ off < sf_size F →
  spi_flash_find_by_addr F (mem_base F + off) = true ∧ u32 (mem_base F + off - mem_base F) = off.
Proof.
  intros Hg Hoff. pose proof (found_addr F off Hg Hoff) as Hf. pose proof (g_size F Hg). pose proof (g_base F Hg).
  rewrite u32_id, Z.add_comm in Hf by lia. split; [done|]. rewrite u32_id; lia.
Qed.

Lemma burned_erased f a n data x : Forall (λ b, 0 ≤ b < 256) data → Z.of_nat (length data) ≤ n →
  a ≤ x < a + Z.of_nat (length data) → burned (wiped f a n) a data x = data !!! Z.to_nat (x - a).
Proof.
  intros Hb Hn Hx. unfold burned. rewrite (proj2 (within_spec _ _ _)) by done. unfold wiped.
  rewrite (proj2 (Z.leb_le a x)), (proj2 (Z.ltb_lt x (a + n))) by lia. simpl.
  rewrite Z.land_comm. change 0xff with (2 ^ 8 - 1). rewrite land_mask by lia. apply Z.mod_small.
  rewrite Forall_forall in Hb. apply Hb, list_elem_of_lookup_2 with (Z.to_nat (x - a)).
  apply list_lookup_lookup_total_lt. lia.
Qed.

Lemma burned_out f a data x : ¬ (a ≤ x < a + Z.of_nat (length data)) → burned f a data x = f x.
Proof. intros Hx. unfold burned. by rewrite (proj1 (not_true_iff_false (within _ _ _))) by (by rewrite within_spec). Qed.

Lemma wiped_out f a n x : ¬ (a ≤ x < a + n) → wiped f a n x = f x.
Proof. intros Hx. unfold wiped. destruct (Z.leb_spec a x), (Z.ltb_spec x (a + n)); simpl; (done || lia). Qed.

Lemma fmap_seqZ_lookup (f : Z → Z) a (data : list Z) :
  (∀ x, a ≤ x < a + Z.of_nat (length data) → f x = data !!! Z.to_nat (x - a)) →
  f <$> seqZ a (Z.of_nat (length data)) = data.
Proof.
  intros Hf. apply list_eq_same_length with (n := length data); [done|by rewrite length_fmap, length_seqZ; lia|].
  intros i x y Hi Hx Hy. rewrite list_lookup_fmap, lookup_seqZ_lt in Hx by lia. simpl in Hx.
  injection Hx as <-. rewrite Hf by lia. apply list_lookup_total_correct. rewrite <-Hy. f_equal. lia.
Qed.

(** C36: what is written can be read.  Erasing a range of whole erase units by
    address, programming any bytes that fit at its start and reading them back, through the mapped addresses,
    pages of the chip, chunks of the controller and either read command, gives
    the same bytes, and nothing outside the erased range has changed. *)
Theorem spi_erase_write_read_roundtrip fuel pf off size ptr data g h F :
  geometry F → polls F pf → unit_size F g → g mod page_size F = 0 → buf_ok F ptr → ready h →
  0 ≤ off → off + size ≤ sf_size F → off mod g = 0 → size mod g = 0 → size < Z.of_nat fuel →
  0 < Z.of_nat (length data) ≤ size → Forall (λ b, 0 ≤ b < 256) data →
  ∃ h', (flash_erase fuel pf (mem_base F + off) size 0;; flash_write pf (mem_base F + off) ptr data;;
         flash_read pf (mem_base F + off) (Z.of_nat (length data))) (Spi h F) = Ret ((0, data), Spi h' F) ∧
    ready h' ∧ ∀ x, ¬ (off ≤ x < off + size) → cells h' x = cells h x.
Proof.
  intros Hg Hpf Hun Hgp Hptr Hr Hoff Hend Hog Hsg Hfuel Hlen Hb.
  destruct (find_on_flash F off Hg ltac:(lia)) as [Hfind Hsub].
  destruct (g_page F Hg) as (Hpage&k&Hk&Hpow).
  assert (0 < page_size F) by (rewrite Hpage, Hpow; apply Z.pow_pos_nonneg; lia).
  destruct (spi_erase_run fuel pf off size h F) as (r&h1&Hrun1&Hr1&Hres&Hok); [done|done|lia|lia|done|done|done|].
  specialize (Hok g Hun Hog Hsg) as ->. destruct Hres as [[_ Hx1]|[? _]]; [|done].
  destruct (spi_write_run pf off ptr data h1 F) as (h2&Hrun2&Hx2&Hr2); [done|done|done| |lia|lia|done|].
  { destruct Hun as (?&_). apply Z.mod_divide in Hog, Hgp; [|lia..]. apply Z.mod_divide; [lia|]. by etransitivity. }
  destruct (spi_read_run pf off (Z.of_nat (length data)) h2 F) as (h3&Hrun3&Hx3&Hr3); [done|lia|lia|lia|done|].
  exists h3. split; [|split; [done|]].
  - unfold flash_erase, flash_write, flash_read, mbind, M_bind. simpl. rewrite Hfind, Hsub, Hrun1. simpl.
    rewrite Hfind, Hsub, Hrun2. simpl. rewrite Hfind, Hsub, Hrun3. do 3 f_equal. apply fmap_seqZ_lookup.
    intros x Hx. rewrite Hx2, (burned_ext _ (wiped (cells h) off size)) by apply Hx1. apply burned_erased; [done|lia|done].
  - intros x Hx. rewrite Hx3, Hx2, burned_out, Hx1, wiped_out by lia. done.
Qed.

(** A write that does not start on a page boundary is corrupted and
    reported as a success.  [spi_flash_write] cuts the data into pieces of the
    page size from wherever it starts; the chip wraps the first piece around
    inside its page, so bytes meant for the next page land at the start of
    this one, and the next page keeps its old contents. *)
Theorem spi_write_unaligned_wraps pf off ptr data h F :
  geometry F → polls F pf → buf_ok F ptr → ready h →
  let o := off mod page_size F in
  o ≠ 0 → 0 ≤ off → off + Z.of_nat (length data) ≤ sf_size F →
  page_size F - o < Z.of_nat (length data) ≤ page_size F →
  ∃ h', spi_flash_write pf off ptr data (Spi h F) = Ret (Z.of_nat (length data), Spi h' F) ∧
    cells h' (off - o) = Z.land (cells h (off - o)) (data !!! Z.to_nat (page_size F - o)) ∧
    cells h' (off - o + page_size F) = cells h (off - o + page_size F).
Proof.
  intros Hg Hpf Hptr Hr o Ho Hoff Hend Hlen.
  destruct (g_page F Hg) as (Hpage&k&Hk&Hpow). pose proof (g_size F Hg).
  assert (0 < page_size F) as Hp by (rewrite Hpage, Hpow; apply Z.pow_pos_nonneg; lia).
  pose proof (Z.mod_pos_bound off (page_size F) Hp) as Hob. fold o in Hob.
  destruct (program_page_run pf off data h F) as (h1&Hrun&Hx&Hr1); [done|done|lia|lia|done|].
  exists h1. split_and!.
  - unfold spi_flash_write. mstep. cbn [flash].
    replace ((ptr >=? mem_base F) && (ptr <=? u32 (mem_base F + sf_size F))) with false.
    2: { symmetry. apply andb_false_iff. rewrite geb_false, Z.leb_gt. exact Hptr. }
    destruct data as [|b data]; [simpl in *; lia|]. cbn [write_pages]. mstep. cbn [flash].
    rewrite Z.min_l by lia. rewrite Nat2Z.id, firstn_all. erewrite bind_Ret by exact Hrun.
    change (0 <? 0) with false. cbv iota. by rewrite skipn_all.
  - rewrite Hx. unfold programmed. fold o.
    rewrite (proj2 (Z.leb_le _ _)), (proj2 (Z.ltb_lt _ (off - o + _))) by lia.
    replace (off - o - off) with (- o) by lia.
    assert ((- o) mod page_size F = page_size F - o) as Hmod.
    { rewrite Z.mod_opp_l_nz; rewrite ?(Z.mod_small o) by lia; lia. }
    rewrite Hmod. rewrite (proj2 (Z.ltb_lt _ _)) by lia. done.
  - rewrite Hx. unfold programmed. fold o. rewrite (proj2 (Z.ltb_ge _ (off - o + page_size F))) by lia.
    by rewrite andb_false_r.
Qed.

(** An erasure that times out is reported as a positive number.  The
    result of a failed command is negated before it is returned, so callers
    that test for a negative value, as the flash map of the boot loader does,
    take the failure for a success. *)
Theorem spi_erase_timeout_positive fuel pf start size g h F :
  geometry F → polls F pf → unit_size F g → 0 ≤ start → 0 < size → start + size ≤ sf_size F →
  start mod g = 0 → size mod g = 0 → size < Z.of_nat fuel →
  (∀ m, m ∈ erase_info F → ∃ s, spi_flash_write_sequence pf (spi_flash_addr (em_opcode m) start) [] (Spi h F) = Ret (-1, s)) →
  ∃ s, spi_flash_erase fuel pf start size 0 (Spi h F) = Ret (1, s).
Proof.
  intros Hg Hpf Hun Hst Hsz Hend Hsg Hzg Hfuel Hseq. pose proof (g_size F Hg). pose proof Hun as (Hgpos&_).
  unfold spi_flash_erase. cbv zeta. rewrite u32_id by lia.
  assert ((start + size) mod g = 0) as Heg by (by rewrite <-Z.add_mod_idemp_l, <-Z.add_mod_idemp_r, Hsg, Hzg by lia).
  destruct (erase_pass_run fuel pf start (start + size) F) as [[_ Hno]|[Hdry _]]; [done|done|lia|done|lia| |].
  { exfalso. by apply (Hno g Hun). }
  erewrite bind_Ret by apply Hdry. cbv beta iota. rewrite (Z.eqb_refl (start + size)).
  change ((0 =? 0) && negb true) with false. cbv iota. destruct fuel as [|fuel]; [lia|]. cbn [erase_pass].
  rewrite (proj2 (Z.ltb_lt start _)) by lia.
  destruct (lookup_erase_run start (start + size) F Hg) as [[_ Hno]|(r&m&Hlook&Hin&_&Hm&Hal&_)]; [lia|done| |].
  { exfalso. by apply (Hno g Hun). }
  destruct (g_method F Hg r m Hin Hm) as [(k&Hk&Hsize) _].
  assert (eb_start (block_at start (em_size m)) = start) as Hblk.
  { rewrite Hsize. apply block_at_aligned; [lia|done|by rewrite <-Hsize]. }
  destruct Hm as (i&_&Hi). destruct (Hseq m) as [s Hs]; [by apply list_elem_of_lookup_2 with i|]. exists s.
  unfold mbind, M_bind. rewrite Hlook. cbv beta iota. by rewrite Hblk, Hs.
Qed.

End Theorems.

(** ** Witnesses *)

Module Demo.

(** A chip that is simulated: programming takes 10 ticks, an erasure 50, and
    commands other than RDSR, WREN and WRDI are ignored while it is busy. *)
Record sim := Sim { s_cells : Z → Z; s_wel : bool; s_clock : Z; s_done : Z }.

Definition sim_block (op a : Z) : option Z :=
  if op =? 0x20 then Some 0x1000 else if op =? 0x52 then Some 0x8000 else if op =? 0xd8 then Some 0x10000 else None.

(** The SFDP area: a header, the header of the basic table, and at 0x30 its
    sixteen words. *)
Definition sim_sfdp : list Z :=
  [0x53; 0x46; 0x44; 0x50; 6; 1; 0; 0xff; 0x00; 6; 1; 16; 0x30; 0; 0; 0xff] ++ replicate 32 0xff ++
  [0xe5; 0x20; 0xf1; 0xff; 0xff; 0xff; 0xff; 0x01; 0x44; 0xeb; 0x08; 0x6b; 0x08; 0x3b; 0x80; 0xbb] ++ replicate 12 0xff ++
  [0x0c; 0x20; 0x0f; 0x52; 0x10; 0xd8; 0x00; 0x00; 0; 0; 0; 0; 0x80; 0x01; 0; 0] ++ replicate 20 0.

Definition sim_sfdp_byte (a : Z) : Z := default 0xff (sim_sfdp !! Z.to_nat a).

Definition is_read (op : Z) : bool := existsb (λ c, op =? fr_opcode c) atcspi200_readcmds.

Definition sim_transact (cmd trans a : Z) (tx : list Z) (n : Z) (h : sim) : list Z * sim :=
  let busy := s_clock h <? s_done h in
  if cmd =? SPI_FLASH_OP_RDSR then ([(if busy then 1 else 0) + (if s_wel h then 2 else 0)], h) else
  if cmd =? SPI_FLASH_OP_WREN then ([], Sim (s_cells h) true (s_clock h) (s_done h)) else
  if cmd =? SPI_FLASH_OP_WRDI then ([], Sim (s_cells h) false (s_clock h) (s_done h)) else
  if busy then ([], h) else
  if is_read cmd then (s_cells h <$> seqZ a n, h) else
  if cmd =? 0x5a then (sim_sfdp_byte <$> seqZ a n, h) else
  if cmd =? 0x9f then ([0xc8; 0x40; 0x16; 0; 0; 0], h) else
  if cmd =? 0x35 then ([0], h) else
  if negb (s_wel h) then ([], h) else
  if cmd =? SPI_FLASH_OP_PP then ([], Sim (programmed 256 (s_cells h) a tx) true (s_clock h) (s_clock h + 10)) else
  match sim_block cmd a with
  | Some size => ([], Sim (wiped (s_cells h) a size) true (s_clock h) (s_clock h + 50))
  | None => ([], h)
  end.

#[export] Instance sim_bus : SpiBus := {|
  hw := sim;
  transact := sim_transact;
  hal_timer_value h := (u32 (s_clock h + 1), Sim (s_cells h) (s_wel h) (s_clock h + 1) (s_done h));
|}.

#[export] Program Instance sim_chip : NorChip := {|
  cells := s_cells; wel := s_wel; clock := s_clock; done_at := s_done;
  chip_page := 256; latency := 1; pp_time := 20; erase_time _ := 60; block_of := sim_block;
|}.
Next Obligation.
  intros h. simpl. split; [|done]. eexists. split; [reflexivity|].
  destruct (s_clock h <? s_done h), (s_wel h); done.
Qed.
Next Obligation. intros [] h Hr; simpl; split_and!; (done || lia). Qed.
Next Obligation. intros h. simpl. split_and!; (done || lia). Qed.
Next Obligation.
  intros h a tx trans Hr Hw Ha Hlen _ _ _. simpl in *. unfold sim_transact.
  rewrite (proj2 (Z.ltb_ge _ _)) by done. simpl. rewrite Hw. simpl. split_and!; (done || lia).
Qed.
Next Obligation.
  intros h op a size trans Hr Hw Ha Hb Hal _ _. simpl in *. unfold sim_transact.
  rewrite (proj2 (Z.ltb_ge _ _)) by done.
  assert (op = 0x20 ∨ op = 0x52 ∨ op = 0xd8) as Hop.
  { unfold sim_block in Hb. destruct (Z.eqb_spec op 0x20), (Z.eqb_spec op 0x52), (Z.eqb_spec op 0xd8); (done || lia). }
  destruct Hop as [->|[->| ->]]; injection Hb as <-; simpl; rewrite Hw; simpl; split_and!; (done || lia).
Qed.
Next Obligation.
  intros h c a n trans Hr Ha Hn Hc _. simpl in *. unfold sim_transact.
  rewrite (proj2 (Z.ltb_ge _ _)) by done.
  repeat (apply elem_of_cons in Hc as [->|Hc]; [simpl; split_and!; (done || lia)|]). by apply not_elem_of_nil in Hc.
Qed.

(** 4 MB at 0x80000000, with 4, 32 and 64 KB erasures, read with the fast quad command. *)
Definition dev : spi_flash :=
  SpiFlash 0x80000000 0x400000 [] (Some (FastRead 0xeb 4 4 2 4))
    [EraseMethod 0x1000 0x20 60; EraseMethod 0x8000 0x52 70; EraseMethod 0x10000 0xd8 80; EraseMethod 0 0 0]
    [EraseRegion 0 0 0x400000 7] 256 20 [].

Lemma dev_methods r m : r ∈ region dev → has_method dev r m →
  r = EraseRegion 0 0 0x400000 7 ∧
  (m = EraseMethod 0x1000 0x20 60 ∨ m = EraseMethod 0x8000 0x52 70 ∨ m = EraseMethod 0x10000 0xd8 80).
Proof.
  intros ->%list_elem_of_singleton (i&Ht&Hi). split; [done|]. do 4 (destruct i as [|i]; simpl in *; [simplify_eq; tauto|]).
  done.
Qed.

Lemma dev_geometry : geometry dev.
Proof.
  split.
  - simpl. lia.
  - simpl. lia.
  - split; [done|]. exists 8. split; [lia|done].
  - simpl. lia.
  - by repeat constructor.
  - done.
  - intros c [= <-]. unfold atcspi200_readcmds. set_solver.
  - intros r ->%list_elem_of_singleton. simpl. lia.
  - intros r m Hr Hm. destruct (dev_methods r m Hr Hm) as (->&[->|[->| ->]]); simpl.
    + split; [by exists 12|]. split_and!; (done || lia).
    + split; [by exists 15|]. split_and!; (done || lia).
    + split; [by exists 16|]. split_and!; (done || lia).
Qed.

Lemma dev_polls : polls dev 200.
Proof. split; [simpl; lia|]. repeat constructor; simpl; lia. Qed.

Lemma dev_unit : unit_size dev 0x1000.
Proof.
  split; [lia|]. split.
  - intros x Hx. simpl in *. unfold spi_flash_lookup_region. simpl.
    rewrite (proj2 (Z.leb_le _ _)), (proj2 (Z.ltb_lt _ _)) by (rewrite ?u32_id; lia). done.
  - intros r Hr. split.
    + exists (EraseMethod 0x1000 0x20 60). split; [|done]. apply list_elem_of_singleton in Hr as ->. by exists 0%nat.
    + intros m Hm. destruct (dev_methods r m Hr Hm) as (->&[->|[->| ->]]); done.
Qed.

(** The timer is about to wrap around. *)
Definition idle : @hw sim_bus := Sim (λ x, x mod 256) false 0xfffffff0 0.
(** All ones. *)
Definition blank : @hw sim_bus := Sim (λ _, 0xff) false 0 0.
(** An operation that takes forever. *)
Definition stuck : @hw sim_bus := Sim (λ x, x mod 256) false 0 0x200000000.

Lemma spi_erase_exact_witness :
  ∃ h', spi_flash_erase (N.to_nat 100000) 200 0x7000 0x12000 0 (Spi idle dev) = Ret (0, Spi h' dev) ∧
    (∀ x, cells h' x = wiped (cells idle) 0x7000 0x12000 x).
Proof.
  destruct (spi_erase_exact (N.to_nat 100000) 200 0x7000 0x12000 idle dev) as (r&h'&Hrun&_&Hres&Hok).
  - exact dev_geometry.
  - exact dev_polls.
  - lia.
  - lia.
  - simpl. lia.
  - rewrite N_nat_Z. lia.
  - unfold ready. simpl. lia.
  - specialize (Hok 0x1000 dev_unit eq_refl eq_refl) as ->. destruct Hres as [[_ Hx]|[Hbad _]]; [|discriminate Hbad].
    exists h'. split; [exact Hrun|exact Hx].
Defined.

Lemma bytes_range (l : list Z) : forallb (λ b, (0 <=? b) && (b <? 256)) l = true → Forall (λ b, 0 ≤ b < 256) l.
Proof. intros H. apply Forall_forall. intros x Hx%list_elem_of_In. rewrite forallb_forall in H. specialize (H x Hx). lia. Qed.

(** 600 bytes on three pages, read back in two transactions. *)
Lemma spi_erase_write_read_roundtrip_witness :
  let data := (λ x, x mod 251) <$> seqZ 0 600 in
  ∃ h', (flash_erase 5000 200 0x80001000 0x1000 0;; flash_write 200 0x80001000 0x10000000 data;;
         flash_read 200 0x80001000 600) (Spi idle dev) = Ret ((0, data), Spi h' dev).
Proof.
  intros data.
  destruct (spi_erase_write_read_roundtrip 5000 200 0x1000 0x1000 0x10000000 data 0x1000 idle dev) as (h'&Hrun&_).
  - exact dev_geometry.
  - exact dev_polls.
  - exact dev_unit.
  - reflexivity.
  - left. reflexivity.
  - unfold ready. simpl. lia.
  - lia.
  - simpl. lia.
  - reflexivity.
  - reflexivity.
  - lia.
  - vm_compute. split; [reflexivity|discriminate].
  - apply bytes_range. vm_compute. reflexivity.
  - exists h'. exact Hrun.
Defined.

(** A whole page of 5s written 16 bytes into an erased page. *)
Lemma spi_write_unaligned_wraps_witness :
  let data := replicate 256 5 in
  ∃ h', spi_flash_write 200 0x1010 0x10000000 data (Spi blank dev) = Ret (256, Spi h' dev) ∧
    cells h' 0x1000 = 5 ∧ cells h' 0x1100 = 0xff.
Proof.
  intros data.
  destruct (spi_write_unaligned_wraps 200 0x1010 0x10000000 data blank dev) as (h'&Hrun&Hlo&Hhi).
  - exact dev_geometry.
  - exact dev_polls.
  - left. reflexivity.
  - unfold ready. simpl. lia.
  - discriminate.
  - lia.
  - simpl. lia.
  - vm_compute. split; [reflexivity|discriminate].
  - exists h'. split; [exact Hrun|]. split; [exact Hlo|exact Hhi].
Defined.

Definition result (o : outcome (Z * spi)) : option Z := match o with Ret (r, _) => Some r | _ => None end.

Lemma result_Ret (o : outcome (Z * spi)) r : result o = Some r → ∃ s, o = Ret (r, s).
Proof. destruct o as [[r' s]| | |]; simpl; intros [= ->]. by exists s. Qed.

Lemma spi_erase_timeout_positive_witness :
  ∃ s, spi_flash_erase 5000 200 0x1000 0x1000 0 (Spi stuck dev) = Ret (1, s).
Proof.
  apply (spi_erase_timeout_positive 5000 200 0x1000 0x1000 0x1000 stuck dev).
  - exact dev_geometry.
  - exact dev_polls.
  - exact dev_unit.
  - lia.
  - lia.
  - simpl. lia.
  - reflexivity.
  - reflexivity.
  - lia.
  - intros m Hm. repeat (apply elem_of_cons in Hm as [->|Hm]; [apply result_Ret; vm_compute; reflexivity|]).
    by apply not_elem_of_nil in Hm.
Defined.

End Demo.
