(* ===== verification/FlashMap.v ===== *)
(** * The flash map: src/lib/scm_mcuboot/mcuboot/boot/wise/src/flash_map_backend/

    [flash_map_backend.c] gives the boot loader and the update agent areas of
    the flash that can be written at any offset: a write is turned into
    erasures and programming of whole 4096-byte blocks.  [flash_backend.c] is
    below it; here without flash encryption ([g_crypto.enable] is 0), so that
    data goes to the flash driver as it is ([FlashCrypto] has the other case).

    The flash driver is a parameter ([NorFlash]) with the laws of NOR flash:
    programming can only clear bits, and an erasure sets all bits of a block.
    [SpiFlashMap] shows that the SDK's SPI flash driver is such a device. *)

From stdpp Require Import base tactics numbers list gmap.
From S2P Require Import Prelude.

Definition ESIZE : Z := 4096.

(** Contents of the flash, by address. *)
Definition flash := Z → Z.

(** The driver and the chip behind it: the addresses it occupies, their state,
    the contents, and what the calls [flash_write] and [flash_erase] return and
    leave behind. *)
Class NorFlash := {
  nor_base : Z;
  nor_end : Z;
  device : Type;
  cells : device → flash;
  nor_write : Z → list Z → device → Z * device;
  nor_erase : Z → Z → device → Z * device;
}.

(** Whole blocks are programmed and erased. *)
Class NorFlashLaws (NF : NorFlash) : Prop := {
  nor_aligned : nor_base mod ESIZE = 0 ∧ nor_end mod ESIZE = 0;
  nor_write_ok a data f : a mod ESIZE = 0 → Z.of_nat (length data) = ESIZE →
    0 ≤ (nor_write a data f).1 → ∀ x,
    cells (nor_write a data f).2 x =
      if (a <=? x) && (x <? a + ESIZE)
      then Z.land (cells f x) (data !!! Z.to_nat (x - a)) else cells f x;
  nor_erase_ok a f : a mod ESIZE = 0 → 0 ≤ (nor_erase a ESIZE f).1 → ∀ x,
    cells (nor_erase a ESIZE f).2 x = if (a <=? x) && (x <? a + ESIZE) then 0xff else cells f x;
}.

(** The slots (Kconfig). *)
Class FlashLayout := {
  PRIMARY_SLOT_OFFSET : Z;
  SECONDARY_SLOT_OFFSET : Z;
  SLOT_SIZE : Z;
  SCRATCH_OFFSET : Z;
  SCRATCH_SIZE : Z;
}.

Definition FLASH_AREA_IMAGE_PRIMARY : Z := 0.
Definition FLASH_AREA_IMAGE_SECONDARY : Z := 1.
Definition FLASH_AREA_IMAGE_SCRATCH : Z := 2.

Record flash_area := FlashArea { fa_id : Z; fa_off : Z; fa_size : Z }.

(** The flash device, and the number of heap blocks held. *)
Record dev `{NorFlash} := Dev { chip : device; held : Z }.
#[global] Arguments Dev {_} _ _.

Definition fl `{NorFlash} (s : dev) : flash := cells (chip s).
Definition set_chip `{NorFlash} (f : device) (s : dev) : dev := Dev f (held s).

Definition ENOMEM : Z := 12.
Definition FOK : Z := 0.
Definition ERROR : Z := -1.

Section FlashMap.
Context {NF : NorFlash} {FL : FlashLayout}.

(** ** flash_backend.c *)

Definition flash_backend_write (addr : Z) (buf : list Z) : M dev Z :=
  s ← get; put (set_chip (nor_write addr buf (chip s)).2 s);; mret (nor_write addr buf (chip s)).1.

Definition flash_backend_erase (addr size : Z) : M dev Z :=
  s ← get; put (set_chip (nor_erase addr size (chip s)).2 s);; mret (nor_erase addr size (chip s)).1.

Definition read_range (f : flash) (addr size : Z) : list Z := f <$> seqZ addr size.

Definition flash_backend_read (addr size : Z) : M dev (list Z) :=
  s ← get; mret (read_range (fl s) addr size).

(** ** Block-wise writing *)

(** [memcpy(eblock + off, buf, n)]. *)
Definition overlay (block : list Z) (off : Z) (data : list Z) : list Z :=
  take (Z.to_nat off) block ++ data ++ drop (Z.to_nat off + length data) block.

(** Erase a block and write it; -1 on failure. *)
Definition program_block (addr : Z) (block : list Z) : M dev Z :=
  r ← flash_backend_erase addr ESIZE;
  if r <? 0 then mret (-1) else
  r ← flash_backend_write addr block;
  if r <? 0 then mret (-1) else mret 0.

(** Read a block and program it again with [data] at [off]. *)
Definition rewrite_block (addr off : Z) (data : list Z) : M dev Z :=
  eblock ← flash_backend_read addr ESIZE;
  program_block addr (overlay eblock off data).

(** The [while (remain >= esize)] loop: what is left of the data, or -1. *)
Fixpoint full_blocks (fuel : nat) (offset : Z) (buf : list Z) : M dev (Z * Z * list Z) :=
  match fuel with
  | O => out_of_fuel
  | S fuel =>
      if Z.of_nat (length buf) >=? ESIZE then
        r ← program_block offset (take (Z.to_nat ESIZE) buf);
        if r <? 0 then mret (-1, offset, buf) else
        full_blocks fuel (u32 (offset + ESIZE)) (drop (Z.to_nat ESIZE) buf)
      else mret (0, offset, buf)
  end.

Definition malloc : M dev unit := modify (λ s, Dev (chip s) (held s + 1)).
Definition free : M dev unit := modify (λ s, Dev (chip s) (held s - 1)).

(** The unaligned start: the new offset and data, or an error. *)
Definition write_head (mem_ok : bool) (offset : Z) (buf : list Z) : M dev (Z * Z * list Z) :=
  if negb mem_ok then mret (- ENOMEM, offset, buf) else
  malloc;;
  let rw_addr := Z.land offset (Z.lnot (ESIZE - 1)) in
  let unaligned_offset := Z.land offset (ESIZE - 1) in
  let unaligned_size := Z.min (Z.of_nat (length buf)) (ESIZE - unaligned_offset) in
  r ← rewrite_block rw_addr unaligned_offset (take (Z.to_nat unaligned_size) buf);
  mret (r, u32 (offset + unaligned_size), drop (Z.to_nat unaligned_size) buf).

(** The rest shorter than a block; [eblock]: whether the buffer is there. *)
Definition write_tail (mem_ok eblock : bool) (offset : Z) (buf : list Z) : M dev (Z * bool) :=
  if bool_decide (buf = []) then mret (0, eblock) else
  if negb eblock && negb mem_ok then mret (- ENOMEM, false) else
  (if (eblock : bool) then mret () else malloc);;
  r ← rewrite_block offset 0 buf;
  mret (r, true).

(** What follows the unaligned start, up to the return. *)
Definition write_rest (mem_ok eblock : bool) (offset : Z) (buf : list Z) (len : Z) : M dev Z :=
  b ← full_blocks (S (length buf)) offset buf;
  let '(r, offset, buf) := b in
  if r <? 0 then (if (eblock : bool) then free else mret ());; mret r else
  t ← write_tail mem_ok eblock offset buf;
  let '(r, eblock) := t in
  (if (eblock : bool) then free else mret ());;
  mret (if r <? 0 then r else len).

(** [buf] is [len] bytes. *)
Definition aligned_write (mem_ok : bool) (buf : list Z) (start_addr : Z) : M dev Z :=
  let len := Z.of_nat (length buf) in
  let mask := ESIZE - 1 in
  let aligned_addr := Z.land (u32 (start_addr + mask)) (Z.lnot mask) in
  let unaligned := aligned_addr >? start_addr in
  h ← (if unaligned : bool then write_head mem_ok start_addr buf else mret (0, start_addr, buf));
  let '(r, offset, buf) := h in
  let eblock := unaligned && mem_ok in
  if r <? 0 then (if (eblock : bool) then free else mret ());; mret r
  else write_rest mem_ok eblock offset buf len.

(** ** Areas *)

Definition g_flash_devices : list flash_area :=
  [FlashArea FLASH_AREA_IMAGE_PRIMARY PRIMARY_SLOT_OFFSET SLOT_SIZE;
   FlashArea FLASH_AREA_IMAGE_SECONDARY SECONDARY_SLOT_OFFSET SLOT_SIZE;
   FlashArea FLASH_AREA_IMAGE_SCRATCH SCRATCH_OFFSET SCRATCH_SIZE].

Definition lookup_flash_device_by_id (id : Z) : option flash_area :=
  List.find (λ d, id =? fa_id d) g_flash_devices.

Definition lookup_flash_device_by_offset (offset : Z) : option flash_area :=
  List.find (λ d, offset =? fa_off d) g_flash_devices.

(** The result, and what is stored through [fa]. *)
Definition flash_area_open (id : Z) : Z * option flash_area :=
  match lookup_flash_device_by_id id with
  | None => (ERROR, None)
  | Some d => (FOK, Some d)
  end.

Definition flash_area_read (fa : flash_area) (off len : Z) : M dev (Z * list Z) :=
  let addr := u32 (fa_off fa + off) in
  if u32 (off + len) >? fa_size fa then mret (ERROR, []) else
  d ← flash_backend_read addr len; mret (FOK, d).

Definition flash_area_write (mem_ok : bool) (fa : flash_area) (off : Z) (src : list Z) : M dev Z :=
  let addr := u32 (fa_off fa + off) in
  if u32 (off + Z.of_nat (length src)) >? fa_size fa then mret ERROR else
  ret ← aligned_write mem_ok src addr;
  if ret <? 0 then mret ERROR else mret FOK.

(** The [do] loop and what follows it. *)
Fixpoint erase_sectors (mem_ok : bool) (fuel : nat) (fa : flash_area) (off i len : Z) : M dev (Z * Z) :=
  match fuel with
  | O => out_of_fuel
  | S fuel =>
      ret ← flash_area_write mem_ok fa (u32 (off + i)) (replicate (Z.to_nat ESIZE) 0xff);
      let i := i + ESIZE in
      if (ret =? FOK) && (i <? len - ESIZE) then erase_sectors mem_ok fuel fa off i len else mret (ret, i)
  end.

(** The buffer for an erasure shorter than a sector is not freed. *)
Definition flash_area_erase (mem_ok : bool) (fa : flash_area) (off len : Z) : M dev Z :=
  if negb mem_ok then mret ERROR else
  malloc;;
  if len <? ESIZE then flash_area_write mem_ok fa off (replicate (Z.to_nat len) 0xff) else
  r ← erase_sectors mem_ok (Z.to_nat len) fa off 0 len;
  let '(ret, i) := r in
  ret ← (if (ret =? FOK) && negb (len - i =? 0)
         then flash_area_write mem_ok fa (u32 (off + i)) (replicate (Z.to_nat (len - i)) 0xff)
         else mret ret);
  free;;
  mret ret.

Definition flash_area_align (fa : flash_area) : Z := 1.
Definition flash_area_erased_val (fa : flash_area) : Z := 0xff.

(** The sectors stored, as offset and size; an unknown id faults. *)
Fixpoint sectors_loop (fuel : nat) (off size : Z) : list (Z * Z) :=
  match fuel with
  | O => []
  | S fuel => if off <? size then (off, 4096) :: sectors_loop fuel (off + 4096) size else []
  end.

Definition flash_area_get_sectors (id : Z) : M dev (Z * list (Z * Z)) :=
  fa ← lift_opt (lookup_flash_device_by_id id);
  mret (FOK, sectors_loop (Z.to_nat (fa_size fa)) 0 (fa_size fa)).

Definition flash_area_id_from_multi_image_slot (image_index slot : Z) : Z :=
  if slot =? 0 then FLASH_AREA_IMAGE_PRIMARY
  else if slot =? 1 then FLASH_AREA_IMAGE_SECONDARY else ERROR.

Definition flash_area_id_from_image_slot (slot : Z) : Z := flash_area_id_from_multi_image_slot 0 slot.

Definition flash_area_id_to_multi_image_slot (image_index area_id : Z) : Z :=
  if area_id =? FLASH_AREA_IMAGE_PRIMARY then 0
  else if area_id =? FLASH_AREA_IMAGE_SECONDARY then 1 else ERROR.

Definition flash_area_id_from_image_offset (offset : Z) : Z :=
  match lookup_flash_device_by_offset offset with
  | Some d => fa_id d
  | None => ERROR
  end.

End FlashMap.
