(* ===== verification/FlashMapTheorems.v ===== *)
(** * The flash map: theorems

    Writing and erasing ranges of an area changes exactly those ranges, for
    every offset and length, although the device works in blocks. *)

From stdpp Require Import base tactics numbers list gmap.
From S2P Require Import Prelude FlashMap.

(** ** Contents *)

(** The flash with [data] at [a]. *)
Definition put_data (f : flash) (a : Z) (data : list Z) : flash := λ x,
  if (a <=? x) && (x <? a + Z.of_nat (length data)) then data !!! Z.to_nat (x - a) else f x.

Definition within (a n x : Z) : bool := (a <=? x) && (x <? a + n).

Lemma within_true a n x : within a n x = true ↔ a ≤ x < a + n.
Proof. unfold within. rewrite andb_true_iff, Z.leb_le, Z.ltb_lt. done. Qed.

Lemma within_false a n x : within a n x = false ↔ ¬ (a ≤ x < a + n).
Proof. rewrite <-within_true. by destruct (within a n x). Qed.

Lemma put_data_in f a data x : a ≤ x < a + Z.of_nat (length data) → put_data f a data x = data !!! Z.to_nat (x - a).
Proof. intros H. unfold put_data. by rewrite (proj2 (within_true _ _ _) H : _ && _ = true). Qed.

Lemma put_data_out f a data x : ¬ (a ≤ x < a + Z.of_nat (length data)) → put_data f a data x = f x.
Proof. intros H. unfold put_data. by rewrite (proj2 (within_false _ _ _) H : _ && _ = false). Qed.

Lemma put_data_ext f g a data x : (∀ y, f y = g y) → put_data f a data x = put_data g a data x.
Proof. intros H. unfold put_data. by rewrite H. Qed.

Lemma put_data_nil f a x : put_data f a [] x = f x.
Proof. apply put_data_out. simpl. lia. Qed.

(** Consecutive pieces make the whole. *)
Lemma put_data_app f a d1 d2 x :
  put_data (put_data f a d1) (a + Z.of_nat (length d1)) d2 x = put_data f a (d1 ++ d2) x.
Proof.
  destruct (decide (a ≤ x < a + Z.of_nat (length (d1 ++ d2)))) as [Hin|Hout]; rewrite length_app in *.
  - rewrite (put_data_in f) by (rewrite length_app; lia).
    destruct (decide (x < a + Z.of_nat (length d1))) as [H1|H1].
    + rewrite put_data_out, put_data_in by lia. rewrite lookup_total_app_l; [done|lia].
    + rewrite put_data_in by lia. rewrite lookup_total_app_r by lia. f_equal. lia.
  - rewrite !put_data_out; rewrite ?length_app; (done || lia).
Qed.

Definition byte (x : Z) : Prop := 0 ≤ x < 256.
Definition bytes (f : flash) : Prop := ∀ x, byte (f x).

Lemma put_data_bytes f a data : bytes f → Forall byte data → bytes (put_data f a data).
Proof.
  intros Hf Hd x. unfold put_data. case_match eqn:E; [|apply Hf].
  apply (within_true a) in E. rewrite Forall_forall in Hd. apply Hd.
  apply list_elem_of_lookup_2 with (Z.to_nat (x - a)). apply list_lookup_lookup_total_lt. lia.
Qed.

Lemma land_ff x : byte x → Z.land 0xff x = x.
Proof. intros Hx. rewrite Z.land_comm. change 0xff with (2 ^ 8 - 1). rewrite land_mask by lia. by apply Z.mod_small. Qed.

(** ** What the flash map needs of the device

    Only that a block that has been erased and written holds the data: NOR
    flash does that, and so does the encrypting backend ([FlashCryptoTheorems]),
    whose contents are what the decrypting mapping shows. *)

Class BlockDevice (NF : NorFlash) : Prop := {
  blk_aligned : nor_base mod ESIZE = 0 ∧ nor_end mod ESIZE = 0;
  blk_program a data d : 0 ≤ a → a + ESIZE ≤ 2 ^ 32 → a mod ESIZE = 0 → Z.of_nat (length data) = ESIZE → Forall byte data →
    0 ≤ (nor_erase a ESIZE d).1 → 0 ≤ (nor_write a data (nor_erase a ESIZE d).2).1 → ∀ x,
    cells (nor_write a data (nor_erase a ESIZE d).2).2 x = put_data (cells d) a data x;
}.

#[global] Instance nor_block_device {NF : NorFlash} {NFL : NorFlashLaws NF} : BlockDevice NF.
Proof.
  split; [exact nor_aligned|]. intros a block d _ _ Ha Hlen Hb He Hw x.
  rewrite nor_write_ok, nor_erase_ok by done.
  unfold put_data. rewrite Hlen. destruct ((a <=? x) && (x <? a + ESIZE)) eqn:E; [|done].
  apply (within_true a ESIZE x) in E. apply land_ff. rewrite Forall_forall in Hb. apply Hb.
  apply list_elem_of_lookup_2 with (Z.to_nat (x - a)). apply list_lookup_lookup_total_lt. lia.
Qed.

(** ** Running *)

Section Theorems.
Context {NF : NorFlash} {BD : BlockDevice NF} {FL : FlashLayout}.

(** [n] bytes at [a] are on the device. *)
Definition inside (a n : Z) : Prop := nor_base ≤ a ∧ a + n ≤ nor_end.

(** The device reports no failure for a block that is on it. *)
Definition never_fails : Prop :=
  (∀ a d f, a mod ESIZE = 0 → inside a ESIZE → Z.of_nat (length d) = ESIZE → Forall byte d → 0 ≤ (nor_write a d f).1) ∧
  (∀ a f, a mod ESIZE = 0 → inside a ESIZE → 0 ≤ (nor_erase a ESIZE f).1).

(** A step that puts [data] at [a], or reports a failure: the return value [r]
    and the state after it. *)
Record puts (s : dev) (a : Z) (data : list Z) (r : Z) (s' : dev) : Prop := {
  pt_ok : 0 ≤ r → ∀ x, fl s' x = put_data (fl s) a data x;
  pt_total : never_fails → inside a (Z.of_nat (length data)) → 0 ≤ r;
}.

Lemma program_block_spec a block s : 0 ≤ a → a + ESIZE ≤ 2 ^ 32 → a mod ESIZE = 0 → Z.of_nat (length block) = ESIZE → Forall byte block →
  ∃ r s', program_block a block s = Ret (r, s') ∧ (r = 0 ∨ r = -1) ∧ held s' = held s ∧ puts s a block r s'.
Proof.
  intros Ha0 Ha1 Ha Hlen Hb. unfold program_block, flash_backend_erase, flash_backend_write. unfold mbind, M_bind. simpl.
  destruct (Z.ltb_spec (nor_erase a ESIZE (chip s)).1 0) as [Hf|He].
  { eexists _, _. split; [reflexivity|]. split; [by right|]. split; [done|]. split; [lia|].
    rewrite Hlen. intros [_ Hn] Hin. specialize (Hn a (chip s) Ha Hin). lia. }
  set (f1 := (nor_erase a ESIZE (chip s)).2). change (chip (set_chip f1 s)) with f1.
  destruct (Z.ltb_spec (nor_write a block f1).1 0) as [Hf|Hw].
  { eexists _, _. split; [reflexivity|]. split; [by right|]. split; [done|]. split; [lia|].
    rewrite Hlen. intros [Hn _] Hin. specialize (Hn a block f1 Ha Hin Hlen Hb). lia. }
  eexists _, _. split; [reflexivity|]. split; [by left|]. split; [done|]. split; [|lia].
  intros _ x. unfold fl. simpl. by apply blk_program.
Qed.

Lemma read_range_length f a n : length (read_range f a n) = Z.to_nat n.
Proof. unfold read_range. rewrite length_fmap. apply length_seqZ. Qed.

Lemma read_range_lookup f a n i : 0 ≤ i < n → read_range f a n !!! Z.to_nat i = f (a + i).
Proof.
  intros Hi. unfold read_range. apply list_lookup_total_correct. rewrite list_lookup_fmap.
  rewrite lookup_seqZ_lt by lia. simpl. do 2 f_equal. lia.
Qed.

Lemma overlay_length block off data : 0 ≤ off → off + Z.of_nat (length data) ≤ Z.of_nat (length block) →
  length (overlay block off data) = length block.
Proof. intros. unfold overlay. rewrite !length_app, length_take, length_drop. lia. Qed.

(** A block read back with new data in the middle is the flash with that data. *)
Lemma overlay_put f a off data x : 0 ≤ off → off + Z.of_nat (length data) ≤ ESIZE →
  put_data f a (overlay (read_range f a ESIZE) off data) x = put_data f (a + off) data x.
Proof.
  intros Hoff Hlen.
  assert (length (overlay (read_range f a ESIZE) off data) = Z.to_nat ESIZE) as Hl.
  { rewrite overlay_length; rewrite ?read_range_length; unfold ESIZE in *; lia. }
  destruct (decide (a ≤ x < a + ESIZE)) as [Hin|Hout].
  2: { rewrite !put_data_out; [done|lia|]. rewrite Hl. unfold ESIZE in *. lia. }
  rewrite put_data_in by (rewrite Hl; unfold ESIZE in *; lia). unfold overlay.
  destruct (decide (x < a + off)) as [H1|H1].
  { rewrite lookup_total_app_l by (rewrite length_take, read_range_length; unfold ESIZE in *; lia).
    rewrite lookup_total_take_lt by lia. rewrite read_range_lookup by lia.
    rewrite put_data_out by lia. f_equal. lia. }
  rewrite lookup_total_app_r by (rewrite length_take, read_range_length; unfold ESIZE in *; lia).
  rewrite length_take, read_range_length, Nat.min_l by (unfold ESIZE in *; lia).
  destruct (decide (x < a + off + Z.of_nat (length data))) as [H2|H2].
  { rewrite lookup_total_app_l by lia. rewrite put_data_in by lia. f_equal. lia. }
  rewrite lookup_total_app_r by lia. rewrite lookup_total_drop. rewrite put_data_out by lia.
  replace (Z.to_nat off + length data + (Z.to_nat (x - a) - Z.to_nat off - length data))%nat
    with (Z.to_nat (x - a)) by lia.
  rewrite read_range_lookup by lia. f_equal. lia.
Qed.

Lemma overlay_bytes f a off data : bytes f → Forall byte data → Forall byte (overlay (read_range f a ESIZE) off data).
Proof.
  intros Hf Hd. assert (Forall byte (read_range f a ESIZE)) as Hr.
  { unfold read_range. apply Forall_fmap, Forall_forall. intros x _. apply Hf. }
  unfold overlay. rewrite !Forall_app. split_and!; [by apply Forall_take|done|by apply Forall_drop].
Qed.

(** A block of which some byte is on the device is on it as a whole. *)
Lemma inside_block a off (data : list Z) : a mod ESIZE = 0 → 0 ≤ off < ESIZE → off + Z.of_nat (length data) ≤ ESIZE →
  (data ≠ [] ∨ off ≠ 0) → inside (a + off) (Z.of_nat (length data)) → inside a ESIZE.
Proof.
  intros Ha Hoff Hlen Hne [H1 H2]. destruct blk_aligned as [Hb He].
  assert (0 < off + Z.of_nat (length data)) by (destruct data; [destruct Hne; [done|lia]|simpl; lia]).
  apply Z.mod_divide in Ha as [ka Ha], Hb as [kb Hb], He as [ke He]; [|done..].
  unfold inside, ESIZE in *. lia.
Qed.

Lemma rewrite_block_spec a off data s : 0 ≤ a → a + ESIZE ≤ 2 ^ 32 → a mod ESIZE = 0 → 0 ≤ off < ESIZE → off + Z.of_nat (length data) ≤ ESIZE →
  (data ≠ [] ∨ off ≠ 0) → bytes (fl s) → Forall byte data →
  ∃ r s', rewrite_block a off data s = Ret (r, s') ∧ (r = 0 ∨ r = -1) ∧ held s' = held s ∧
    puts s (a + off) data r s'.
Proof.
  intros Ha0 Ha1 Ha Hoff Hlen Hne Hf Hd. unfold rewrite_block, flash_backend_read. mstep.
  destruct (program_block_spec a (overlay (read_range (fl s) a ESIZE) off data) s) as (r&s'&Hrun&?&?&[Hp1 Hp2]).
  { done. } { done. } { done. }
  { rewrite overlay_length; rewrite ?read_range_length; unfold ESIZE in *; lia. }
  { by apply overlay_bytes. }
  exists r, s'. split; [exact Hrun|]. split; [done|]. split; [done|]. split.
  - intros Hr x. rewrite Hp1 by done. apply overlay_put; lia.
  - intros Hn Hin. apply Hp2; [done|].
    rewrite overlay_length, read_range_length by (rewrite ?read_range_length; unfold ESIZE in *; lia).
    rewrite Z2Nat.id by (unfold ESIZE; lia). by apply (inside_block a off data).
Qed.

Lemma puts_bytes s a data r s' : puts s a data r s' → 0 ≤ r → bytes (fl s) → Forall byte data → bytes (fl s').
Proof. intros [Hp _] Hr Hf Hd x. rewrite Hp by done. by apply put_data_bytes. Qed.

Lemma puts_app s a d1 r1 s1 d2 r2 s2 : puts s a d1 r1 s1 → 0 ≤ r1 →
  puts s1 (a + Z.of_nat (length d1)) d2 r2 s2 → puts s a (d1 ++ d2) r2 s2.
Proof.
  intros [H1 _] Hr1 [H2 T2]. split.
  2: { intros Hn [? Hin]. rewrite length_app in Hin. apply T2; [done|]. split; lia. }
  intros Hr2 x. rewrite H2 by done.
  rewrite (put_data_ext _ (put_data (fl s) a d1)) by (by apply H1). apply put_data_app.
Qed.

Lemma full_blocks_spec fuel offset buf s : (length buf < fuel)%nat → 0 ≤ offset → offset mod ESIZE = 0 →
  offset + Z.of_nat (length buf) < 2 ^ 32 → bytes (fl s) → Forall byte buf →
  ∃ r off' d1 d2 s', full_blocks fuel offset buf s = Ret ((r, off', d2), s') ∧ held s' = held s ∧
    (r = 0 ∨ r = -1) ∧ puts s offset d1 r s' ∧ (length d1 ≤ length buf)%nat ∧
    (0 ≤ r → buf = d1 ++ d2 ∧ off' = offset + Z.of_nat (length d1) ∧ off' mod ESIZE = 0 ∧
             Z.of_nat (length d2) < ESIZE).
Proof.
  revert offset buf s. induction fuel as [|fuel IH]; intros offset buf s Hfuel Hoff Hal Hend Hf Hb; [lia|].
  cbn [full_blocks]. rewrite Z.geb_leb. destruct (Z.leb_spec ESIZE (Z.of_nat (length buf))) as [Hle|Hlt].
  2: { exists 0, offset, [], buf, s. split; [done|]. split; [done|]. split; [by left|].
       split; [split; [intros _ x; by rewrite put_data_nil|done]|]. simpl. rewrite Z.add_0_r. split; [lia|done]. }
  assert (length (take (Z.to_nat ESIZE) buf) = Z.to_nat ESIZE) as Hlen.
  { rewrite length_take. unfold ESIZE in *. lia. }
  destruct (program_block_spec offset (take (Z.to_nat ESIZE) buf) s) as (r&s1&Hrun&Hr&Hh&Hp);
    [done|lia|done|rewrite Hlen; done|by apply Forall_take|].
  erewrite bind_Ret by exact Hrun. destruct (Z.ltb_spec r 0) as [Hneg|Hpos].
  { exists (-1), offset, (take (Z.to_nat ESIZE) buf), buf, s1. split; [done|]. split; [done|].
    split; [by right|]. split; [|rewrite length_take; lia]. split; [lia|]. intros Hn Hin. destruct Hp as [_ Ht]. specialize (Ht Hn Hin). lia. }
  rewrite u32_id by (unfold ESIZE in *; lia).
  destruct (IH (offset + ESIZE) (drop (Z.to_nat ESIZE) buf) s1) as (r2&off'&d1&d2&s2&Hrun2&Hh2&Hr2&Hp2&Hl2&Hok).
  - rewrite length_drop. unfold ESIZE in *. lia.
  - unfold ESIZE in *. lia.
  - rewrite Z.add_mod, Hal by done. done.
  - rewrite length_drop. unfold ESIZE in *. lia.
  - by eapply puts_bytes; [| |exact Hf|apply Forall_take].
  - by apply Forall_drop.
  - exists r2, off', (take (Z.to_nat ESIZE) buf ++ d1), d2, s2. split; [exact Hrun2|].
    split; [congruence|]. split; [done|]. split.
    + eapply puts_app; [exact Hp|done|]. rewrite Hlen. exact Hp2.
    + split; [rewrite length_app, Hlen; rewrite length_drop in Hl2; unfold ESIZE in *; lia|]. intros Hr2'. destruct (Hok Hr2') as (E&->&?&?). rewrite <-app_assoc, <-E, take_drop.
      split; [done|]. rewrite length_app, Hlen. split; [unfold ESIZE; lia|done].
Qed.

Lemma low_bits x : Z.land x (ESIZE - 1) = x mod ESIZE.
Proof. apply (land_mask x 12). lia. Qed.

Lemma block_base x : Z.land x (Z.lnot (ESIZE - 1)) = x - x mod ESIZE.
Proof. apply (land_lnot_mask x 12). lia. Qed.

Lemma unaligned_test a : 0 ≤ a → a + ESIZE ≤ 2 ^ 32 →
  (Z.land (u32 (a + (ESIZE - 1))) (Z.lnot (ESIZE - 1)) >? a) = negb (a mod ESIZE =? 0).
Proof.
  intros Ha Hend. rewrite block_base, u32_id by (unfold ESIZE in *; lia). unfold ESIZE.
  apply eq_true_iff_eq. rewrite negb_true_iff, Z.eqb_neq, Z.gtb_lt. split; zlia.
Qed.

Lemma write_head_spec (mem_ok : bool) a buf s : 0 ≤ a → a + Z.of_nat (length buf) + ESIZE ≤ 2 ^ 32 → a mod ESIZE ≠ 0 →
  bytes (fl s) → Forall byte buf →
  ∃ r off' d1 d2 s', write_head mem_ok a buf s = Ret ((r, off', d2), s') ∧
    held s' = held s + (if mem_ok then 1 else 0) ∧ puts s a d1 (if mem_ok then r else 0) s' ∧
    (r < 0 ∨ r = 0) ∧ (r = 0 → mem_ok = true) ∧
    (mem_ok = true → never_fails → inside a (Z.of_nat (length buf)) → r = 0) ∧
    (r = 0 → buf = d1 ++ d2 ∧ off' = a + Z.of_nat (length d1) ∧ (d2 = [] ∨ off' mod ESIZE = 0)).
Proof.
  intros Ha Hend Hal Hf Hb. unfold write_head. destruct mem_ok; simpl.
  2: { exists (-12), a, [], buf, s. split; [done|]. split; [lia|]. split.
       { split; [intros _ x; by rewrite put_data_nil|done]. }
       split_and!; [left; lia|done|done|done]. }
  mstep. rewrite low_bits, block_base. pose proof (Z.mod_pos_bound a ESIZE ltac:(done)).
  set (u := Z.min _ _). assert (0 ≤ u ≤ Z.of_nat (length buf) ∧ u ≤ ESIZE - a mod ESIZE) as [Hu1 Hu2] by lia.
  assert (length (take (Z.to_nat u) buf) = Z.to_nat u) as Hlen by (rewrite length_take; lia).
  set (s0 := Dev (chip s) (held s + 1)).
  destruct (rewrite_block_spec (a - a mod ESIZE) (a mod ESIZE) (take (Z.to_nat u) buf) s0)
    as (r&s1&Hrun&Hr&Hh&Hp).
  { unfold ESIZE. zlia. } { lia. } { unfold ESIZE. zlia. } { lia. } { rewrite Hlen. lia. } { by right. } { done. } { by apply Forall_take. }
  erewrite bind_Ret by exact Hrun. exists r, (u32 (a + u)), (take (Z.to_nat u) buf), (drop (Z.to_nat u) buf), s1.
  split; [done|]. split; [done|]. replace (a - a mod ESIZE + a mod ESIZE) with a in Hp by lia.
  split; [by destruct Hp; split|]. split; [lia|]. split; [done|]. split.
  { intros _ Hn [? ?]. destruct Hp as [_ Ht]. rewrite Hlen in Ht.
    assert (0 ≤ r); [|lia]. apply Ht; [done|]. split; lia. }
  intros _. rewrite take_drop, Hlen. split; [done|]. rewrite u32_id by (unfold ESIZE in *; lia).
  split; [lia|]. destruct (decide (u = ESIZE - a mod ESIZE)) as [E|E].
  - right. rewrite E. unfold ESIZE. zlia.
  - left. apply drop_ge. lia.
Qed.

Lemma write_tail_spec (mem_ok eblock : bool) a buf s : 0 ≤ a → a + ESIZE ≤ 2 ^ 32 → (buf = [] ∨ a mod ESIZE = 0) → Z.of_nat (length buf) < ESIZE →
  bytes (fl s) → Forall byte buf →
  ∃ r eblock' s', write_tail mem_ok eblock a buf s = Ret ((r, eblock'), s') ∧
    (if eblock' : bool then held s' = held s + (if eblock then 0 else 1) else eblock = false ∧ held s' = held s) ∧
    (0 ≤ r → ∀ x, fl s' x = put_data (fl s) a buf x) ∧
    (mem_ok = true → never_fails → inside a (Z.of_nat (length buf)) → 0 ≤ r).
Proof.
  intros Ha Ha1 Hal Hlen Hf Hb. unfold write_tail. case_bool_decide as Hnil.
  { subst buf. exists 0, eblock, s. split; [done|]. split; [destruct eblock; [lia|done]|].
    split; [intros _ x; by rewrite put_data_nil|done]. }
  destruct Hal as [|Hal]; [done|].
  assert (∀ s0 : dev, fl s0 = fl s → ∃ r s', rewrite_block a 0 buf s0 = Ret (r, s') ∧ held s' = held s0 ∧
    (0 ≤ r → ∀ x, fl s' x = put_data (fl s) a buf x) ∧
    (never_fails → inside a (Z.of_nat (length buf)) → 0 ≤ r)) as Hrw.
  { intros s0 E. destruct (rewrite_block_spec a 0 buf s0) as (r&s1&Hrun&Hr&Hh&[Hp Ht]); try done.
    { lia. } { by left. } { by rewrite E. }
    rewrite E, Z.add_0_r in Hp. rewrite Z.add_0_r in Ht. exists r, s1. done. }
  destruct eblock; simpl.
  - destruct (Hrw s eq_refl) as (r&s1&Hrun&Hh&Hp&Ht). mstep. erewrite bind_Ret by exact Hrun.
    exists r, true, s1. split; [done|]. split; [lia|]. done.
  - destruct mem_ok; simpl; [|exists (-12), false, s; split; [done|]; split; [done|]; split; [lia|done]].
    mstep. destruct (Hrw (Dev (chip s) (held s + 1)) eq_refl) as (r&s1&Hrun&Hh&Hp&Ht).
    erewrite bind_Ret by exact Hrun. exists r, true, s1. done.
Qed.

Lemma write_rest_spec (mem_ok eblock : bool) a buf len s : 0 ≤ a → a + Z.of_nat (length buf) < 2 ^ 32 → 0 ≤ len →
  (buf = [] ∨ a mod ESIZE = 0) → bytes (fl s) → Forall byte buf →
  ∃ r s', write_rest mem_ok eblock a buf len s = Ret (r, s') ∧ held s' = held s - (if eblock then 1 else 0) ∧
    (0 ≤ r → r = len ∧ ∀ x, fl s' x = put_data (fl s) a buf x) ∧
    (mem_ok = true → never_fails → inside a (Z.of_nat (length buf)) → 0 ≤ r).
Proof.
  intros Ha Hend Hlen Hal Hf Hb. unfold write_rest. destruct Hal as [->|Hal].
  { unfold mbind, M_bind. simpl. destruct eblock; simpl; eexists _, _; (split; [reflexivity|]); simpl;
      (split; [lia|split; [|lia]]); intros _; (split; [done|]); intros x; by rewrite put_data_nil. }
  destruct (full_blocks_spec (S (length buf)) a buf s) as (r&off'&d1&d2&s1&Hrun&Hh&Hr&Hp&Hl1&Hok); try done; [lia|].
  erewrite bind_Ret by exact Hrun. cbv beta iota zeta. destruct (Z.ltb_spec r 0) as [Hneg|Hpos].
  { exists r, (if eblock then Dev (chip s1) (held s1 - 1) else s1).
    split; [by destruct eblock|]. split; [destruct eblock; simpl; lia|].
    split; [lia|]. intros _ Hn [? ?]. destruct Hp as [_ Ht]. assert (0 ≤ r); [|lia].
    apply Ht; [done|]. split; lia. }
  destruct (Hok Hpos) as (->&->&Hal'&Hshort). rewrite length_app in Hend. apply Forall_app in Hb as [Hb1 Hb2].
  destruct (write_tail_spec mem_ok eblock (a + Z.of_nat (length d1)) d2 s1)
    as (r2&eb&s2&Hrun2&Hh2&Hp2&Ht2); [lia|unfold ESIZE in *; zlia|by right|done|by eapply puts_bytes|done|].
  erewrite bind_Ret by exact Hrun2. cbv beta iota zeta.
  eexists _, (if eb then Dev (chip s2) (held s2 - 1) else s2). split; [destruct eb; reflexivity|].
  split; [destruct eb; [simpl; destruct eblock; lia|destruct Hh2 as [-> ?]; lia]|]. split.
  - intros Hr2. destruct (Z.ltb_spec r2 0); [lia|]. split; [done|]. intros x.
    replace (fl (if eb then _ else _)) with (fl s2) by (by destruct eb).
    rewrite Hp2 by lia. destruct Hp as [Hp _]. rewrite (put_data_ext _ (put_data (fl s) a d1)) by (by apply Hp).
    apply put_data_app.
  - intros Hm Hn [? Hin]. rewrite length_app in Hin. assert (0 ≤ r2) by (apply Ht2; [done|done|split; lia]).
    destruct (Z.ltb_spec r2 0); lia.
Qed.

Lemma aligned_write_spec (mem_ok : bool) buf a s : 0 ≤ a → a + Z.of_nat (length buf) + ESIZE ≤ 2 ^ 32 →
  bytes (fl s) → Forall byte buf →
  ∃ r s', aligned_write mem_ok buf a s = Ret (r, s') ∧ held s' = held s ∧
    (0 ≤ r → ∀ x, fl s' x = put_data (fl s) a buf x) ∧
    (mem_ok = true → never_fails → inside a (Z.of_nat (length buf)) → 0 ≤ r).
Proof.
  intros Ha Hend Hf Hb. unfold aligned_write. cbv zeta. rewrite unaligned_test by lia.
  destruct (Z.eqb_spec (a mod ESIZE) 0) as [Hal|Hal]; simpl.
  - mstep. destruct (write_rest_spec mem_ok false a buf (Z.of_nat (length buf)) s)
      as (r&s'&Hrun&Hh&Hp&Ht); [done|unfold ESIZE in *; lia|lia|by right|done|done|].
    exists r, s'. split; [exact Hrun|]. split; [lia|]. split; [|done]. intros Hr. by apply Hp.
  - destruct (write_head_spec mem_ok a buf s) as (r&off'&d1&d2&s1&Hrun&Hh&Hp&Hr&Hm&Ht&Hok); [done..|].
    erewrite bind_Ret by exact Hrun. cbv beta iota zeta. destruct (Z.ltb_spec r 0) as [Hneg|Hpos].
    { exists r, (if mem_ok then Dev (chip s1) (held s1 - 1) else s1).
      split; [by destruct mem_ok|]. split; [destruct mem_ok; simpl; lia|].
      split; [lia|]. intros Hm' Hn Hin. specialize (Ht Hm' Hn Hin). lia. }
    assert (r = 0) as -> by lia. specialize (Hm eq_refl). subst mem_ok. simpl in Hp, Hh.
    destruct (Hok eq_refl) as (Hbuf&->&Hal2). rewrite Hbuf in Hend, Hb. rewrite length_app in Hend.
    apply Forall_app in Hb as [Hb1 Hb2].
    destruct (write_rest_spec true true (a + Z.of_nat (length d1)) d2 (Z.of_nat (length buf)) s1)
      as (r2&s2&Hrun2&Hh2&Hp2&Ht2); [lia|unfold ESIZE in *; lia|lia|done|by eapply puts_bytes|done|].
    exists r2, s2. split; [exact Hrun2|]. split; [lia|]. split.
    2: { intros Hm Hn [? Hin]. rewrite Hbuf, length_app in Hin. apply Ht2; [done|done|split; lia]. }
    intros Hr2 x. destruct (Hp2 Hr2) as [_ ->]. destruct Hp as [Hp _].
    rewrite (put_data_ext _ (put_data (fl s) a d1)) by (by apply Hp). rewrite put_data_app. by rewrite <-Hbuf.
Qed.

(** ** Areas *)

(** An area that lies on the device. *)
Definition area_ok (fa : flash_area) : Prop :=
  0 ≤ fa_off fa ∧ 0 ≤ fa_size fa ∧ fa_off fa + fa_size fa + ESIZE ≤ 2 ^ 32 ∧ inside (fa_off fa) (fa_size fa).

Lemma area_write_spec (mem_ok : bool) fa off src s : area_ok fa → 0 ≤ off →
  off + Z.of_nat (length src) ≤ fa_size fa → bytes (fl s) → Forall byte src →
  ∃ r s', flash_area_write mem_ok fa off src s = Ret (r, s') ∧ (r = FOK ∨ r = ERROR) ∧ held s' = held s ∧
    (r = FOK → ∀ x, fl s' x = put_data (fl s) (fa_off fa + off) src x) ∧
    (mem_ok = true → never_fails → r = FOK).
Proof.
  intros (?&?&?&?&?) Hoff Hlen Hf Hb. unfold flash_area_write.
  rewrite !u32_id by (unfold ESIZE in *; lia). rewrite (proj2 (gtb_false _ _)) by done.
  destruct (aligned_write_spec mem_ok src (fa_off fa + off) s) as (r&s'&Hrun&Hh&Hp&Ht); [lia|lia|done|done|].
  erewrite bind_Ret by exact Hrun. cbv beta iota zeta. destruct (Z.ltb_spec r 0) as [Hneg|Hpos].
  - exists ERROR, s'. split; [done|]. split; [by right|]. split; [done|]. split; [done|].
    intros Hm Hn. assert (0 ≤ r) by (apply Ht; [done|done|split; lia]). lia.
  - exists FOK, s'. split; [done|]. split; [by left|]. split; [done|]. split; [|done]. intros _. by apply Hp.
Qed.

(** A write to an area is exact.  For every offset and length inside the
    area, aligned or not: on success the flash holds the data there and is
    unchanged everywhere else, in the same blocks too; no heap memory is left
    allocated; the call succeeds when memory and device do; and a write that
    does not fit is refused and changes nothing. *)
Theorem flash_area_write_exact (mem_ok : bool) fa off src s :
  area_ok fa → 0 ≤ off → off + Z.of_nat (length src) < 2 ^ 32 → bytes (fl s) → Forall byte src →
  ∃ r s', flash_area_write mem_ok fa off src s = Ret (r, s') ∧ (r = FOK ∨ r = ERROR) ∧ held s' = held s ∧
    (r = FOK → ∀ x, fl s' x = put_data (fl s) (fa_off fa + off) src x) ∧
    (fa_size fa < off + Z.of_nat (length src) → r = ERROR ∧ s' = s) ∧
    (off + Z.of_nat (length src) ≤ fa_size fa → mem_ok = true → never_fails → r = FOK).
Proof.
  intros Hfa Hoff Hwrap Hf Hb.
  destruct (decide (off + Z.of_nat (length src) ≤ fa_size fa)) as [Hin|Hout].
  - destruct (area_write_spec mem_ok fa off src s) as (r&s'&?&?&?&?&?); [done..|].
    exists r, s'. split_and!; try done. lia.
  - exists ERROR, s. split; [|split_and!; try done; by right].
    unfold flash_area_write. rewrite (u32_id (off + _)) by lia. by rewrite (proj2 (Z.gtb_lt _ _)) by lia.
Qed.

Definition erased (n : Z) : list Z := replicate (Z.to_nat n) 0xff.

Lemma erased_length n : 0 ≤ n → Z.of_nat (length (erased n)) = n.
Proof. intros. unfold erased. rewrite length_replicate. lia. Qed.

Lemma erased_app n k : 0 ≤ n → 0 ≤ k → erased n ++ erased k = erased (n + k).
Proof. intros. unfold erased. rewrite <-replicate_add. f_equal. lia. Qed.

Lemma erased_bytes n : Forall byte (erased n).
Proof. apply Forall_replicate. done. Qed.

Lemma erase_sectors_spec (mem_ok : bool) fuel fa off i len s : area_ok fa → 0 ≤ off → off + len ≤ fa_size fa →
  0 ≤ i → ESIZE ≤ len - i → len - i ≤ Z.of_nat fuel → bytes (fl s) →
  ∃ r i' s', erase_sectors mem_ok fuel fa off i len s = Ret ((r, i'), s') ∧ (r = FOK ∨ r = ERROR) ∧
    held s' = held s ∧ (mem_ok = true → never_fails → r = FOK) ∧
    (r = FOK → i < i' ∧ 0 ≤ len - i' ≤ ESIZE ∧
      ∀ x, fl s' x = put_data (fl s) (fa_off fa + off + i) (erased (i' - i)) x).
Proof.
  intros Hfa Hoff Hend. revert i s. induction fuel as [|fuel IH]; intros i s Hi Hlen Hfuel Hf.
  { unfold ESIZE in *. lia. }
  destruct Hfa as (Hfa1&Hfa2&Hfa3&Hfa4).
  cbn [erase_sectors]. rewrite u32_id by (unfold ESIZE in *; lia).
  destruct (area_write_spec mem_ok fa (off + i) (erased ESIZE) s) as (r&s1&Hrun&Hr&Hh&Hp&Ht).
  { done. } { lia. } { rewrite erased_length; unfold ESIZE in *; lia. } { done. } { apply erased_bytes. }
  fold (erased ESIZE). erewrite bind_Ret by exact Hrun. cbv beta iota zeta.
  destruct Hr as [->| ->]; simpl.
  2: { exists ERROR, (i + ESIZE), s1. split; [done|]. split; [by right|]. split; [done|]. split; [done|]. done. }
  specialize (Hp eq_refl). rewrite Z.add_assoc in Hp.
  destruct (Z.ltb_spec (i + ESIZE) (len - ESIZE)) as [Hlt|Hge].
  - destruct (IH (i + ESIZE) s1) as (r2&i'&s2&Hrun2&Hr2&Hh2&Ht2&Hp2).
    { unfold ESIZE in *. lia. } { unfold ESIZE in *. lia. } { unfold ESIZE in *. lia. }
    { intros x. rewrite Hp. apply put_data_bytes; [done|apply erased_bytes]. }
    exists r2, i', s2. split; [done|]. split; [done|]. split; [congruence|]. split; [done|].
    intros Hr2'. destruct (Hp2 Hr2') as (?&?&Hx). split; [unfold ESIZE in *; lia|]. split; [done|].
    intros x. rewrite Hx, (put_data_ext _ (put_data (fl s) (fa_off fa + off + i) (erased ESIZE))) by done.
    replace (fa_off fa + off + (i + ESIZE)) with (fa_off fa + off + i + Z.of_nat (length (erased ESIZE)))
      by (rewrite erased_length; unfold ESIZE; lia).
    rewrite put_data_app, erased_app by (unfold ESIZE in *; lia). do 2 f_equal. lia.
  - exists FOK, (i + ESIZE), s1. split; [done|]. split; [by left|]. split; [done|]. split; [done|].
    intros _. split; [unfold ESIZE; lia|]. split; [unfold ESIZE in *; lia|]. intros x. rewrite Hp.
    do 2 f_equal. lia.
Qed.

Lemma area_erase_spec (mem_ok : bool) fa off len s :
  area_ok fa → 0 ≤ off → 0 ≤ len → off + len ≤ fa_size fa → bytes (fl s) →
  ∃ r s', flash_area_erase mem_ok fa off len s = Ret (r, s') ∧ (r = FOK ∨ r = ERROR) ∧
    held s' = held s + (if mem_ok && (len <? ESIZE) then 1 else 0) ∧
    (r = FOK → ∀ x, fl s' x = put_data (fl s) (fa_off fa + off) (erased len) x) ∧
    (mem_ok = true → never_fails → r = FOK).
Proof.
  intros Hfa Hoff Hlen Hend Hf. unfold flash_area_erase. destruct mem_ok; simpl.
  2: { exists ERROR, s. split; [done|]. split; [by right|]. split; [lia|]. done. }
  mstep. set (s0 := Dev (chip s) (held s + 1)). fold (erased len).
  destruct (Z.ltb_spec len ESIZE) as [Hshort|Hlong].
  - destruct (area_write_spec true fa off (erased len) s0) as (r&s1&Hrun&Hr&Hh&Hp&Ht);
      [done|done|rewrite erased_length; lia|done|apply erased_bytes|]. by exists r, s1.
  - destruct (erase_sectors_spec true (Z.to_nat len) fa off 0 len s0) as (r&i&s1&Hrun&Hr&Hh&Ht&Hp);
      [done|done|done|lia|lia|lia|done|].
    erewrite bind_Ret by exact Hrun. cbv beta iota zeta. destruct Hr as [->| ->]; simpl.
    2: { mstep. eexists _, _. split; [reflexivity|]. split; [by right|]. split; [simpl; simpl in Hh; lia|]. done. }
    destruct (Hp eq_refl) as (Hi&Hrest&Hx). rewrite Z.sub_0_r, Z.add_0_r in Hx.
    destruct (Z.eqb_spec (len - i) 0) as [E|E]; simpl.
    + mstep. eexists _, _. split; [reflexivity|]. split; [by left|]. split; [simpl; simpl in Hh; lia|].
      split; [|done]. intros _ x. refine (eq_trans (Hx x) _). do 2 f_equal. lia.
    + destruct Hfa as (?&?&?&?). rewrite u32_id by (unfold ESIZE in *; lia). fold (erased (len - i)).
      destruct (area_write_spec true fa (off + i) (erased (len - i)) s1) as (r2&s2&Hrun2&Hr2&Hh2&Hp2&Ht2).
      { done. } { lia. } { rewrite erased_length; lia. }
      { intros x. rewrite Hx. apply put_data_bytes; [done|apply erased_bytes]. } { apply erased_bytes. }
      erewrite bind_Ret by exact Hrun2. mstep. eexists _, _. split; [reflexivity|]. split; [done|].
      split; [simpl; simpl in Hh; lia|]. split; [|done]. intros Hr2' x. refine (eq_trans (Hp2 Hr2' x) _).
      rewrite (put_data_ext _ _ _ _ _ Hx).
      replace (fa_off fa + (off + i)) with (fa_off fa + off + Z.of_nat (length (erased i)))
        by (rewrite erased_length; lia).
      rewrite put_data_app, erased_app by lia. do 2 f_equal. lia.
Qed.

(** An erasure of part of an area is exact: on success the range reads as
    erased and nothing else has changed, and it succeeds when memory and
    device do.  The heap, however, is left with one buffer more after every
    erasure shorter than a sector: that path returns without [free]. *)
Theorem flash_area_erase_exact (mem_ok : bool) fa off len s :
  area_ok fa → 0 ≤ off → 0 ≤ len → off + len ≤ fa_size fa → bytes (fl s) →
  ∃ r s', flash_area_erase mem_ok fa off len s = Ret (r, s') ∧ (r = FOK ∨ r = ERROR) ∧
    held s' = held s + (if mem_ok && (len <? ESIZE) then 1 else 0) ∧
    (r = FOK → ∀ x, fl s' x = put_data (fl s) (fa_off fa + off) (erased len) x) ∧
    (mem_ok = true → never_fails → r = FOK).
Proof. apply area_erase_spec. Qed.

End Theorems.

(** ** Witnesses *)

Module Demo.

(** A device that never fails. *)
#[local] Instance nor : NorFlash := {|
  nor_base := 0x80000000;
  nor_end := 0x80400000;
  device := flash;
  cells f := f;
  nor_write a data f := (0, λ x, if (a <=? x) && (x <? a + Z.of_nat (length data))
                                 then Z.land (f x) (data !!! Z.to_nat (x - a)) else f x);
  nor_erase a n f := (0, λ x, if (a <=? x) && (x <? a + n) then 0xff else f x) |}.

#[local] Instance nor_laws : NorFlashLaws nor.
Proof. split; [done| |done]. intros a data f _ Hlen _ x. simpl. by rewrite Hlen. Qed.

Lemma nor_never_fails : never_fails.
Proof. split; done. Qed.

Definition area : flash_area := FlashArea 1 0x80220000 0x1a0000.
Definition s_old : dev := Dev (λ x, x mod 256) 0.

Lemma s_old_bytes : bytes (fl s_old).
Proof. intros x. apply Z.mod_pos_bound. lia. Qed.

(** 5000 bytes at offset 100: parts of two blocks. *)
Lemma flash_area_write_exact_witness :
  ∃ s', flash_area_write true area 100 (replicate 5000 7) s_old = Ret (FOK, s') ∧ held s' = 0 ∧
    ∀ x, fl s' x = put_data (fl s_old) 0x80220064 (replicate 5000 7) x.
Proof.
  destruct (flash_area_write_exact true area 100 (replicate 5000 7) s_old) as (r&s'&Hrun&_&Hh&Hp&_&Ht).
  - unfold area_ok, inside, ESIZE. simpl. lia.
  - lia.
  - rewrite length_replicate. lia.
  - apply s_old_bytes.
  - apply Forall_replicate. unfold byte. lia.
  - assert (r = FOK) as ->.
    { apply Ht; [rewrite length_replicate; simpl; lia|done|apply nor_never_fails]. }
    exists s'. split; [done|]. split; [done|]. by apply Hp.
Defined.

(** Erasing a 40-byte trailer. *)
Lemma flash_area_erase_exact_witness :
  ∃ s', flash_area_erase true area 0x19ffd8 40 s_old = Ret (FOK, s') ∧ held s' = 1 ∧
    ∀ x, fl s' x = put_data (fl s_old) 0x803bffd8 (erased 40) x.
Proof.
  destruct (flash_area_erase_exact true area 0x19ffd8 40 s_old) as (r&s'&Hrun&_&Hh&Hp&Ht).
  - unfold area_ok, inside, ESIZE. simpl. lia.
  - lia.
  - lia.
  - simpl. lia.
  - apply s_old_bytes.
  - assert (r = FOK) as -> by (apply Ht; [done|apply nor_never_fails]).
    exists s'. split; [done|]. split; [done|]. by apply Hp.
Defined.

End Demo.
