(* ===== verification/FlashCrypto.v ===== *)
(** * Flash encryption: flash_crypto.c and flash_backend.c of the boot loader

    What is written to the flash goes through the symmetric-key engine (SKE)
    in AES-128 counter mode, with the address in the counter, and the memory
    mapping of the flash decrypts with the same key.  The engine is a
    parameter: its registers ([Ske]) and what they do ([SkeLaws]).  The block
    cipher is a function of the key and the counter block, both four words,
    the most significant first. *)

From stdpp Require Import base tactics numbers list.
From S2P Require Import Prelude FlashMap.

(** ** Words and bytes *)

(** The bytes of a word in memory, and back. *)
Definition word_bytes (w : Z) : list Z :=
  [Z.land w 0xff; Z.land (Z.shiftr w 8) 0xff; Z.land (Z.shiftr w 16) 0xff; Z.land (Z.shiftr w 24) 0xff].

Definition bytes_word (b0 b1 b2 b3 : Z) : Z :=
  Z.lor b0 (Z.lor (Z.shiftl b1 8) (Z.lor (Z.shiftl b2 16) (Z.shiftl b3 24))).

(** [uint32_t tmp[4]] as bytes and as words. *)
Definition tmp_bytes (ws : list Z) : list Z := ws ≫= word_bytes.

Fixpoint tmp_words (bs : list Z) : list Z :=
  match bs with
  | b0 :: b1 :: b2 :: b3 :: bs => bytes_word b0 b1 b2 b3 :: tmp_words bs
  | _ => []
  end.

(** ** Hardware *)

Definition SKE_CTRL_OFFSET : Z := 0x00.
Definition SKE_CFG_OFFSET : Z := 0x04.
Definition SKE_SR1_OFFSET : Z := 0x08.
Definition SKE_SR2_OFFSET : Z := 0x0C.
Definition SKE_KEY_OFFSET : Z := 0x10.
Definition SKE_IV_OFFSET : Z := 0x70.
Definition SKE_DIN_OFFSET : Z := 0x90.
Definition SKE_DOUT_OFFSET : Z := 0xB0.

(** The engine as the processor sees it; reading a status register takes time. *)
Class Ske := {
  ske : Type;
  ske_readl : Z → ske → Z * ske;
  ske_writel : Z → Z → ske → ske;   (* value, offset *)
}.

(** The system registers that hold the key, the initial vector and the switch. *)
Class SysRegs := {
  CRYPTO_CFG : Z;
  KEY_CFG : Z → Z;
  IV_CFG : Z → Z;
}.

Definition CRYPTO_CIPHER_EN : Z := BIT 31.

(** ** State *)

Record flash_crypto := FlashCrypto {
  enable : Z;
  user_disable : Z;
  key : list Z;
  iv : list Z;
}.

(** The flash behind the driver, [g_crypto], the engine, and the number of
    blocks taken from the heap. *)
Record cdev `{NorFlash, Ske} := CDev {
  raw : device;
  g_crypto : flash_crypto;
  engine : ske;
  blocks : Z;
}.
#[global] Arguments CDev {_ _} _ _ _ _.

Section FlashCrypto.
Context {NF : NorFlash} {SK : Ske} {SY : SysRegs}.

Definition set_raw (d : device) (s : cdev) : cdev := CDev d (g_crypto s) (engine s) (blocks s).
Definition set_crypto (c : flash_crypto) (s : cdev) : cdev := CDev (raw s) c (engine s) (blocks s).
Definition set_engine (e : ske) (s : cdev) : cdev := CDev (raw s) (g_crypto s) e (blocks s).
Definition add_blocks (n : Z) (s : cdev) : cdev := CDev (raw s) (g_crypto s) (engine s) (blocks s + n).

Definition set_iv (v : list Z) (c : flash_crypto) : flash_crypto := FlashCrypto (enable c) (user_disable c) (key c) v.
Definition set_user_disable (v : Z) (c : flash_crypto) : flash_crypto := FlashCrypto (enable c) v (key c) (iv c).

Definition readl (off : Z) : M cdev Z :=
  s ← get; put (set_engine (ske_readl off (engine s)).2 s);; mret (ske_readl off (engine s)).1.
Definition writel (v off : Z) : M cdev unit := modify (λ s, set_engine (ske_writel v off (engine s)) s).

(** ** flash_crypto.c *)

Definition ske_config : M cdev unit :=
  writel (Z.lor (Z.shiftl 6 28) (Z.shiftl 1 0)) SKE_CFG_OFFSET.

Definition ske_set_cfg (en : bool) : M cdev unit :=
  if en then
    cfg ← readl SKE_CFG_OFFSET;
    writel (Z.lor cfg (Z.shiftl 1 12)) SKE_CFG_OFFSET
  else
    cfg ← readl SKE_CFG_OFFSET;
    writel (Z.land cfg (Z.lnot (Z.shiftl 1 12))) SKE_CFG_OFFSET.

(** [while ((readl(off) & 1) != v);] *)
Fixpoint poll (fuel : nat) (off v : Z) : M cdev unit :=
  match fuel with
  | O => out_of_fuel
  | S fuel => r ← readl off; if negb (Z.land r 1 =? v) then poll fuel off v else mret ()
  end.

Definition ske_start_and_wait (fuel : nat) : M cdev unit :=
  poll fuel SKE_SR1_OFFSET 0;;
  ctr ← readl SKE_CTRL_OFFSET;
  writel (Z.lor ctr 1) SKE_CTRL_OFFSET;;
  poll fuel SKE_SR2_OFFSET 1;;
  writel 0 SKE_SR2_OFFSET.

Definition ske_set_data (data : list Z) (offset : Z) : M cdev unit :=
  writel (data !!! 3%nat) (offset + 3 * 4);;
  writel (data !!! 2%nat) (offset + 2 * 4);;
  writel (data !!! 1%nat) (offset + 1 * 4);;
  writel (data !!! 0%nat) (offset + 0 * 4).

Definition ske_get_data (offset : Z) : M cdev (list Z) :=
  d3 ← readl (offset + 3 * 4);
  d2 ← readl (offset + 2 * 4);
  d1 ← readl (offset + 1 * 4);
  d0 ← readl (offset + 0 * 4);
  mret [d0; d1; d2; d3].

Definition flash_cyprot_init : M cdev unit :=
  if negb (Z.land CRYPTO_CFG CRYPTO_CIPHER_EN =? 0) then
    let w hi lo := Z.lor (u32 (Z.shiftl (Z.land hi 0x0f) 28)) (Z.shiftr lo 4) in
    modify (set_crypto (FlashCrypto 1 0
      [KEY_CFG 3; KEY_CFG 2; KEY_CFG 1; KEY_CFG 0]
      [w (IV_CFG 3) (IV_CFG 2); w (IV_CFG 2) (IV_CFG 1); w (IV_CFG 1) (IV_CFG 0);
       u32 (Z.shiftl (Z.land (IV_CFG 0) 0x0f) 28)]))
  else
    modify (λ s, set_crypto (FlashCrypto 0 (user_disable (g_crypto s)) (key (g_crypto s)) (iv (g_crypto s))) s).

(** One piece: the counter for [offset], the initial vector, and the first
    [enc_size] bytes of [data] through the engine.  [tmp] is the local buffer,
    16 bytes; its new contents and the output are returned. *)
Definition encrypt_piece (fuel : nat) (offset enc_size : Z) (data tmp : list Z) : M cdev (list Z * list Z) :=
  modify (λ s,
    let c := g_crypto s in
    let counter := Z.lor (Z.land (iv c !!! 3%nat) 0xf0000000) (Z.shiftr offset 4) in
    set_crypto (set_iv (<[3%nat := counter]> (iv c)) c) s);;
  ske_set_cfg true;;
  s ← get;
  ske_set_data (iv (g_crypto s)) SKE_IV_OFFSET;;
  ske_start_and_wait fuel;;
  ske_set_cfg false;;
  let n := Z.to_nat enc_size in
  let tmp := take n data ++ drop n tmp in
  ske_set_data (tmp_words tmp) SKE_DIN_OFFSET;;
  ske_start_and_wait fuel;;
  ws ← ske_get_data SKE_DOUT_OFFSET;
  mret (tmp_bytes ws, take n (tmp_bytes ws)).

(** [while (size > 0)]: the rest of the input, the output so far. *)
Fixpoint encrypt_loop (pieces fuel : nat) (offset : Z) (data tmp out : list Z) : M cdev (list Z) :=
  match pieces with
  | O => out_of_fuel
  | S pieces =>
      let size := Z.of_nat (length data) in
      if size >? 0 then
        let enc_size := Z.min size 16 in
        r ← encrypt_piece fuel offset enc_size data tmp;
        encrypt_loop pieces fuel (u32 (offset + enc_size)) (drop (Z.to_nat enc_size) data) r.1 (out ++ r.2)
      else mret out
  end.

(** [in] is [size] bytes; [tmp] holds whatever is on the stack. *)
Definition flash_crypto_data_encrypt (fuel : nat) (offset : Z) (data tmp : list Z) : M cdev (list Z) :=
  ske_config;;
  ske_set_cfg true;;
  s ← get;
  ske_set_data (key (g_crypto s)) SKE_KEY_OFFSET;;
  ske_start_and_wait fuel;;
  ske_set_cfg false;;
  let pieces := S (length data) in
  if negb (offset mod 16 =? 0) then
    let enc_size := Z.min (offset mod 16) (Z.of_nat (length data)) in
    r ← encrypt_piece fuel offset enc_size data tmp;
    encrypt_loop pieces fuel (u32 (offset + enc_size)) (drop (Z.to_nat enc_size) data) r.1 r.2
  else encrypt_loop pieces fuel offset data tmp [].

(** ** flash_backend.c

    [mapped] is the memory mapping of the flash, [malloc_ok] whether the heap
    has the memory. *)

Context (mapped : device → Z → Z) (malloc_ok : Z → bool).

Definition drv_write (addr : Z) (buf : list Z) : M cdev Z :=
  s ← get; put (set_raw (nor_write addr buf (raw s)).2 s);; mret (nor_write addr buf (raw s)).1.

Definition crypt_backend_write (fuel : nat) (tmp : list Z) (addr : Z) (buf : list Z) : M cdev Z :=
  s ← get;
  if negb (enable (g_crypto s) =? 0) && (user_disable (g_crypto s) =? 0) then
    if negb (malloc_ok (Z.of_nat (length buf))) then mret (- ENOMEM) else
    modify (add_blocks 1);;
    enc_buf ← flash_crypto_data_encrypt fuel addr buf tmp;
    ret ← drv_write addr enc_buf;
    modify (add_blocks (-1));;
    mret ret
  else drv_write addr buf.

Definition crypt_backend_erase (addr size : Z) : M cdev Z :=
  s ← get; put (set_raw (nor_erase addr size (raw s)).2 s);; mret (nor_erase addr size (raw s)).1.

(** [flash_read] of the driver reads the cells, [memcpy] the mapping. *)
Definition crypt_backend_read (addr size : Z) : M cdev (list Z) :=
  s ← get;
  if negb (enable (g_crypto s) =? 0) && negb (user_disable (g_crypto s) =? 0)
  then mret (read_range (cells (raw s)) addr size)
  else mret (read_range (mapped (raw s)) addr size).

Definition flash_crypto_enable (en : Z) : M cdev Z :=
  s ← get;
  if negb (enable (g_crypto s) =? 0) then
    put (set_crypto (set_user_disable (if negb (en =? 0) then 0 else 1) (g_crypto s)) s);; mret 0
  else mret (-1).

Definition flash_init : M cdev Z := flash_cyprot_init;; mret 0.

End FlashCrypto.

(** ** Laws of the engine *)

(** Four registers from [off] on. *)
Definition regs4 (r : Z → Z) (off : Z) : list Z := [r (off + 0 * 4); r (off + 1 * 4); r (off + 2 * 4); r (off + 3 * 4)].

(** AES-128 in counter mode, and the bit that makes a start load key and
    initial vector. *)
Definition CTR_CFG : Z := 0x60000001.

(** The engine between operations ([settled]) has registers, a key and a
    vector; an operation started in a settled state [s0] has finished after at
    most [latency] polls.  With bit 12 of the configuration the operation loads
    the key and the vector; without it, it processes a block. *)
Class SkeLaws {SK : Ske} (cipher : list Z → list Z → list Z) := {
  settled : ske → bool;
  sreg : ske → Z → Z;
  loaded_key : ske → list Z;
  loaded_iv : ske → list Z;
  latency : nat;
  running : ske → nat → ske → Prop;
  done_from : ske → ske → Prop;
  ske_write_ok v off e : settled e = true → off ≠ SKE_CTRL_OFFSET → off ≠ SKE_SR1_OFFSET → off ≠ SKE_SR2_OFFSET →
    settled (ske_writel v off e) = true ∧
    (∀ o, sreg (ske_writel v off e) o = if o =? off then v else sreg e o) ∧
    loaded_key (ske_writel v off e) = loaded_key e ∧ loaded_iv (ske_writel v off e) = loaded_iv e;
  ske_read_ok off e : settled e = true →
    settled (ske_readl off e).2 = true ∧
    (∀ o, sreg (ske_readl off e).2 o = sreg e o) ∧
    loaded_key (ske_readl off e).2 = loaded_key e ∧ loaded_iv (ske_readl off e).2 = loaded_iv e ∧
    (off = SKE_SR1_OFFSET → Z.land (ske_readl off e).1 1 = 0) ∧
    (off ≠ SKE_SR1_OFFSET → off ≠ SKE_SR2_OFFSET → (ske_readl off e).1 = sreg e off);
  ske_start_ok v e : settled e = true → running e latency (ske_writel (Z.lor v 1) SKE_CTRL_OFFSET e);
  ske_poll_ok e0 n e : running e0 n e →
    (Z.land (ske_readl SKE_SR2_OFFSET e).1 1 = 1 ∧ done_from e0 (ske_readl SKE_SR2_OFFSET e).2) ∨
    (Z.land (ske_readl SKE_SR2_OFFSET e).1 1 = 0 ∧
     ∃ m, (m < n)%nat ∧ running e0 m (ske_readl SKE_SR2_OFFSET e).2);
  ske_done_ok e0 e : done_from e0 e →
    let e' := ske_writel 0 SKE_SR2_OFFSET e in
    settled e' = true ∧ sreg e' SKE_CFG_OFFSET = sreg e0 SKE_CFG_OFFSET ∧
    regs4 (sreg e') SKE_KEY_OFFSET = regs4 (sreg e0) SKE_KEY_OFFSET ∧
    (Z.testbit (sreg e0 SKE_CFG_OFFSET) 12 = true →
       loaded_key e' = regs4 (sreg e0) SKE_KEY_OFFSET ∧ loaded_iv e' = regs4 (sreg e0) SKE_IV_OFFSET) ∧
    (sreg e0 SKE_CFG_OFFSET = CTR_CFG →
       loaded_key e' = loaded_key e0 ∧
       regs4 (sreg e') SKE_DOUT_OFFSET =
         zip_with Z.lxor (regs4 (sreg e0) SKE_DIN_OFFSET) (cipher (loaded_key e0) (loaded_iv e0)));
}.
