(* ===== verification/FlashCryptoTheorems.v ===== *)
(** * Flash encryption: theorems

    The encryption is counter mode by address, and what is written through it
    reads back through the decrypting mapping, for the backend and for the
    flash map on top of it. *)

From stdpp Require Import base tactics numbers list.
From S2P Require Import Prelude FlashMap FlashMapTheorems FlashCrypto.

(** ** Words and bytes *)

Lemma land_lxor_distr a b m : Z.land (Z.lxor a b) m = Z.lxor (Z.land a m) (Z.land b m).
Proof.
  apply Z.bits_inj'. intros i _. rewrite !Z.land_spec, !Z.lxor_spec, !Z.land_spec.
  by destruct (Z.testbit a i), (Z.testbit b i), (Z.testbit m i).
Qed.

Lemma land_ff_mod a : Z.land a 0xff = a mod 256.
Proof. apply (land_mask a 8). lia. Qed.

Lemma bytes_word_add b0 b1 b2 b3 : byte b0 → byte b1 → byte b2 → byte b3 →
  bytes_word b0 b1 b2 b3 = b0 + b1 * 2 ^ 8 + b2 * 2 ^ 16 + b3 * 2 ^ 24.
Proof.
  unfold byte. intros H0 H1 H2 H3. unfold bytes_word.
  rewrite (Z.lor_comm (Z.shiftl b2 16)), (lor_shiftl_add b3 (Z.shiftl b2 16) 24) by (rewrite ?Z.shiftl_mul_pow2; lia).
  rewrite (Z.shiftl_mul_pow2 b2) by lia.
  replace (b3 * 2 ^ 24 + b2 * 2 ^ 16) with (Z.shiftl (b3 * 2 ^ 8 + b2) 16) by (rewrite Z.shiftl_mul_pow2; lia).
  rewrite (Z.lor_comm (Z.shiftl b1 8)), (lor_shiftl_add _ (Z.shiftl b1 8) 16) by (rewrite ?Z.shiftl_mul_pow2; lia).
  rewrite Z.shiftl_mul_pow2 by lia.
  replace ((b3 * 2 ^ 8 + b2) * 2 ^ 16 + b1 * 2 ^ 8) with (Z.shiftl ((b3 * 2 ^ 8 + b2) * 2 ^ 8 + b1) 8)
    by (rewrite Z.shiftl_mul_pow2; lia).
  rewrite Z.lor_comm, lor_shiftl_add by lia. lia.
Qed.

(** The bytes of a word made of bytes are those bytes. *)
Lemma word_bytes_word b0 b1 b2 b3 : byte b0 → byte b1 → byte b2 → byte b3 →
  word_bytes (bytes_word b0 b1 b2 b3) = [b0; b1; b2; b3].
Proof.
  intros H0 H1 H2 H3. rewrite bytes_word_add by done. unfold byte, word_bytes in *.
  rewrite !land_ff_mod, !Z.shiftr_div_pow2 by lia. repeat f_equal; zlia.
Qed.

Lemma word_bytes_lxor a b : word_bytes (Z.lxor a b) = zip_with Z.lxor (word_bytes a) (word_bytes b).
Proof. unfold word_bytes. by rewrite !Z.shiftr_lxor, !land_lxor_distr. Qed.

Lemma word_bytes_range w : Forall byte (word_bytes w).
Proof. unfold word_bytes, byte. rewrite !land_ff_mod. repeat constructor; apply Z.mod_pos_bound; lia. Qed.

Lemma tmp_bytes_cons w ws : tmp_bytes (w :: ws) = word_bytes w ++ tmp_bytes ws.
Proof. reflexivity. Qed.

Lemma tmp_bytes_length ws : length (tmp_bytes ws) = (4 * length ws)%nat.
Proof. induction ws as [|w ws IH]; [done|]. rewrite ?tmp_bytes_cons. rewrite length_app, IH. simpl. lia. Qed.

Lemma tmp_bytes_range ws : Forall byte (tmp_bytes ws).
Proof.
  induction ws as [|w ws IH]; [constructor|]. rewrite ?tmp_bytes_cons.
  apply Forall_app. split; [apply word_bytes_range|done].
Qed.

(** What comes out of the engine is the input with the key stream, byte by byte. *)
Lemma engine_bytes bs ks : length bs = (4 * length ks)%nat → Forall byte bs →
  tmp_bytes (zip_with Z.lxor (tmp_words bs) ks) = zip_with Z.lxor bs (tmp_bytes ks).
Proof.
  revert bs. induction ks as [|k ks IH]; intros bs Hlen Hb.
  { destruct bs; [done|simpl in Hlen; lia]. }
  destruct bs as [|b0 [|b1 [|b2 [|b3 bs]]]]; simpl in Hlen; try lia.
  inversion Hb as [|?? H0 Hb1]; subst. inversion Hb1 as [|?? H1 Hb2]; subst.
  inversion Hb2 as [|?? H2 Hb3]; subst. inversion Hb3 as [|?? H3 Hb4]; subst.
  cbn [tmp_words zip_with]. rewrite ?tmp_bytes_cons.
  rewrite word_bytes_lxor, word_bytes_word by done. rewrite IH by (done || lia). reflexivity.
Qed.

Lemma tmp_words_length n bs : length bs = (4 * n)%nat → length (tmp_words bs) = n.
Proof.
  revert bs. induction n as [|n IH]; intros bs Hlen.
  { destruct bs; [done|simpl in Hlen; lia]. }
  destruct bs as [|b0 [|b1 [|b2 [|b3 bs]]]]; simpl in Hlen; try lia. simpl. f_equal. apply IH. lia.
Qed.

Lemma lxor_byte x y : byte x → byte y → byte (Z.lxor x y).
Proof.
  unfold byte. intros Hx Hy. split; [apply Z.lxor_nonneg; lia|].
  apply (bits_range _ 8); [lia|apply Z.lxor_nonneg; lia|]. intros j Hj.
  rewrite Z.lxor_spec, !(testbit_above _ 8) by lia. done.
Qed.

Lemma zip_lxor_bytes l k : Forall byte l → Forall byte k → Forall byte (zip_with Z.lxor l k).
Proof.
  intros Hl. revert k. induction Hl as [|x l Hx Hl IH]; intros k Hk; [constructor|].
  destruct Hk as [|y k Hy Hk]; constructor; [by apply lxor_byte|by apply IH].
Qed.

(** ** Counter mode *)

(** A 128-bit number as four words, the most significant first. *)
Definition words4 (n : Z) : list Z := [u32 (n / 2 ^ 96); u32 (n / 2 ^ 64); u32 (n / 2 ^ 32); u32 n].

(** The vector registers as a number: 100 bits of it are used. *)
Definition vector `{SysRegs} : Z :=
  IV_CFG 3 * 2 ^ 96 + IV_CFG 2 * 2 ^ 64 + IV_CFG 1 * 2 ^ 32 + IV_CFG 0.

(** The counter block for the 16 bytes around address [x]. *)
Definition ctr_block `{SysRegs} (x : Z) : Z := (vector mod 2 ^ 100) * 2 ^ 28 + x / 16.

Definition aes_key `{SysRegs} : list Z := [KEY_CFG 3; KEY_CFG 2; KEY_CFG 1; KEY_CFG 0].

Definition key_block `{SysRegs} (cipher : list Z → list Z → list Z) (x : Z) : list Z :=
  tmp_bytes (cipher aes_key (words4 (ctr_block x))).

(** The byte of the key stream at address [x]. *)
Definition keystream `{SysRegs} (cipher : list Z → list Z → list Z) (x : Z) : Z :=
  key_block cipher x !!! Z.to_nat (x mod 16).

(** [data] at address [a], encrypted or decrypted. *)
Definition ctr_mode `{SysRegs} (cipher : list Z → list Z → list Z) (a : Z) (data : list Z) : list Z :=
  zip_with Z.lxor data (keystream cipher <$> seqZ a (Z.of_nat (length data))).

Definition words32 (f : Z → Z) : Prop := ∀ i, 0 ≤ f i < 2 ^ 32.

Section Crypto.
Context {NF : NorFlash} {SK : Ske} {SY : SysRegs}.
Context (cipher : list Z → list Z → list Z) {SL : SkeLaws cipher}.
Context (cipher_length : ∀ k i, length (cipher k i) = 4%nat).
Context (iv_regs : words32 IV_CFG).

(** *** Running the engine *)

Record eng_is (e : ske) (rg : Z → Z) (k i : list Z) : Prop := {
  ei_settled : settled e = true;
  ei_reg o : sreg e o = rg o;
  ei_key : loaded_key e = k;
  ei_iv : loaded_iv e = i;
}.

Definition upd (off v : Z) (rg : Z → Z) : Z → Z := λ o, if o =? off then v else rg o.

Definition plain_reg (off : Z) : Prop := off ≠ SKE_CTRL_OFFSET ∧ off ≠ SKE_SR1_OFFSET ∧ off ≠ SKE_SR2_OFFSET.

Lemma writel_run v off s rg k i : eng_is (engine s) rg k i → plain_reg off →
  ∃ e, writel v off s = Ret ((), set_engine e s) ∧ eng_is e (upd off v rg) k i.
Proof.
  intros [Hs Hr Hk Hi] (?&?&?). eexists. split; [reflexivity|].
  destruct (ske_write_ok v off (engine s) Hs) as (?&Hr'&?&?); [done..|].
  split; [done| |congruence..]. intros o. rewrite Hr'. unfold upd. by rewrite Hr.
Qed.

Lemma readl_run off s rg k i : eng_is (engine s) rg k i → off ≠ SKE_SR1_OFFSET → off ≠ SKE_SR2_OFFSET →
  ∃ e, readl off s = Ret (rg off, set_engine e s) ∧ eng_is e rg k i.
Proof.
  intros [Hs Hr Hk Hi] H1 H2. destruct (ske_read_ok off (engine s) Hs) as (?&Hr'&?&?&_&Hv).
  eexists. split.
  { unfold readl, mbind, M_bind. cbn. rewrite Hv, Hr by done. reflexivity. }
  split; [done| |congruence..]. intros o. by rewrite Hr'.
Qed.

Lemma poll_sr2_run e0 n fuel s : running e0 n (engine s) → (n < fuel)%nat →
  ∃ e, poll fuel SKE_SR2_OFFSET 1 s = Ret ((), set_engine e s) ∧ done_from e0 e.
Proof.
  revert fuel s. induction n as [n IH] using lt_wf_ind. intros fuel s Hr Hf.
  destruct fuel as [|fuel]; [lia|]. cbn [poll]. unfold readl, mbind, M_bind. cbn.
  destruct (ske_poll_ok e0 n (engine s) Hr) as [[Hv Hd]|[Hv (m&Hm&Hr')]]; rewrite Hv; cbn.
  - eexists. split; [reflexivity|done].
  - destruct (IH m Hm fuel (set_engine (ske_readl SKE_SR2_OFFSET (engine s)).2 s)) as (e&Hrun&Hd); [done|lia|].
    exists e. split; [|done]. exact Hrun.
Qed.

Definition enough (fuel : nat) : Prop := (latency < fuel)%nat.

(** A start from a settled state: what [ske_done_ok] says of the state before. *)
Lemma ske_start_run fuel s rg k i : eng_is (engine s) rg k i → enough fuel →
  ∃ e rg' k' i', ske_start_and_wait fuel s = Ret ((), set_engine e s) ∧ eng_is e rg' k' i' ∧
    rg' SKE_CFG_OFFSET = rg SKE_CFG_OFFSET ∧ regs4 rg' SKE_KEY_OFFSET = regs4 rg SKE_KEY_OFFSET ∧
    (Z.testbit (rg SKE_CFG_OFFSET) 12 = true → k' = regs4 rg SKE_KEY_OFFSET ∧ i' = regs4 rg SKE_IV_OFFSET) ∧
    (rg SKE_CFG_OFFSET = CTR_CFG → k' = k ∧
       regs4 rg' SKE_DOUT_OFFSET = zip_with Z.lxor (regs4 rg SKE_DIN_OFFSET) (cipher k i)).
Proof.
  intros He Hf. unfold enough in Hf. destruct fuel as [|fuel]; [lia|].
  unfold ske_start_and_wait.
  destruct (ske_read_ok SKE_SR1_OFFSET (engine s) (ei_settled _ _ _ _ He)) as (Hs1&Hr1&Hk1&Hi1&Hv&_).
  set (s1 := set_engine (ske_readl SKE_SR1_OFFSET (engine s)).2 s).
  assert (poll (S fuel) SKE_SR1_OFFSET 0 s = Ret ((), s1)) as Hrun1.
  { cbn [poll]. unfold readl, mbind, M_bind. cbn. by rewrite Hv. }
  rewrite (bind_Ret _ _ _ _ _ Hrun1). clear Hrun1.
  assert (eng_is (engine s1) rg k i) as He1.
  { split; [done|intros; simpl; by rewrite Hr1, (ei_reg _ _ _ _ He)| |]; simpl; rewrite ?Hk1, ?Hi1; apply He. }
  destruct (readl_run SKE_CTRL_OFFSET s1 rg k i He1) as (e2&Hrun2&He2); [done..|]. rewrite (bind_Ret _ _ _ _ _ Hrun2).
  pose proof (ske_start_ok (rg SKE_CTRL_OFFSET) e2 (ei_settled _ _ _ _ He2)) as Hst.
  rewrite (bind_Ret (writel _ _) _ _ _ _ eq_refl).
  destruct (poll_sr2_run e2 latency (S fuel) (set_engine (ske_writel (Z.lor (rg SKE_CTRL_OFFSET) 1) SKE_CTRL_OFFSET e2) s1) Hst Hf)
    as (e3&Hrun3&Hd). rewrite (bind_Ret _ _ _ _ _ Hrun3).
  destruct (ske_done_ok e2 e3 Hd) as (Hs4&Hc4&Hk4&Hload&Hcr). destruct He2 as [_ Hr2 Hk2 Hi2].
  exists (ske_writel 0 SKE_SR2_OFFSET e3), (sreg (ske_writel 0 SKE_SR2_OFFSET e3)),
    (loaded_key (ske_writel 0 SKE_SR2_OFFSET e3)), (loaded_iv (ske_writel 0 SKE_SR2_OFFSET e3)).
  split; [reflexivity|]. split; [by split|]. unfold regs4 in *. rewrite !Hr2, Hk2, Hi2 in *. done.
Qed.

Lemma set_cfg_run en s rg k i : eng_is (engine s) rg k i →
  ∃ e, ske_set_cfg en s = Ret ((), set_engine e s) ∧
    eng_is e (upd SKE_CFG_OFFSET (if en : bool then Z.lor (rg SKE_CFG_OFFSET) 0x1000
                                  else Z.land (rg SKE_CFG_OFFSET) (Z.lnot 0x1000)) rg) k i.
Proof.
  intros He. unfold ske_set_cfg. destruct en;
    (destruct (readl_run SKE_CFG_OFFSET s rg k i He) as (e1&Hrun&He1); [done..|];
     rewrite (bind_Ret _ _ _ _ _ Hrun);
     match goal with |- ∃ e, writel ?v ?o ?s1 = _ ∧ _ => destruct (writel_run v o s1 rg k i He1) as (e2&Hrun2&He2); [done|] end;
     exists e2; by split).
Qed.

Definition put4 (off : Z) (data : list Z) (rg : Z → Z) : Z → Z :=
  upd (off + 0 * 4) (data !!! 0%nat) (upd (off + 1 * 4) (data !!! 1%nat)
    (upd (off + 2 * 4) (data !!! 2%nat) (upd (off + 3 * 4) (data !!! 3%nat) rg))).

Definition data_reg (off : Z) : Prop := off = SKE_KEY_OFFSET ∨ off = SKE_IV_OFFSET ∨ off = SKE_DIN_OFFSET ∨ off = SKE_DOUT_OFFSET.

Lemma data_reg_plain off j : data_reg off → 0 ≤ j < 4 → plain_reg (off + j * 4).
Proof. unfold data_reg, plain_reg. intros [->|[->|[->| ->]]] Hj; unfold SKE_CTRL_OFFSET, SKE_SR1_OFFSET, SKE_SR2_OFFSET, SKE_KEY_OFFSET, SKE_IV_OFFSET, SKE_DIN_OFFSET, SKE_DOUT_OFFSET; lia. Qed.

Lemma set_data_run data off s rg k i : eng_is (engine s) rg k i → data_reg off →
  ∃ e, ske_set_data data off s = Ret ((), set_engine e s) ∧ eng_is e (put4 off data rg) k i.
Proof.
  intros He Hoff. unfold ske_set_data, put4.
  destruct (writel_run (data !!! 3%nat) (off + 3 * 4) s rg k i He) as (e3&Hr3&He3); [by apply data_reg_plain|].
  rewrite (bind_Ret _ _ _ _ _ Hr3).
  destruct (writel_run (data !!! 2%nat) (off + 2 * 4) (set_engine e3 s) _ k i He3) as (e2&Hr2&He2); [by apply data_reg_plain|].
  rewrite (bind_Ret _ _ _ _ _ Hr2).
  destruct (writel_run (data !!! 1%nat) (off + 1 * 4) (set_engine e2 s) _ k i He2) as (e1&Hr1&He1); [by apply data_reg_plain|].
  change (set_engine e2 (set_engine e3 s)) with (set_engine e2 s). rewrite (bind_Ret _ _ _ _ _ Hr1).
  destruct (writel_run (data !!! 0%nat) (off + 0 * 4) (set_engine e1 s) _ k i He1) as (e0&Hr0&He0); [by apply data_reg_plain|].
  exists e0. by split.
Qed.

Lemma get_data_run off s rg k i : eng_is (engine s) rg k i → data_reg off →
  ∃ e, ske_get_data off s = Ret (regs4 rg off, set_engine e s) ∧ eng_is e rg k i.
Proof.
  intros He Hoff. unfold ske_get_data.
  destruct (readl_run (off + 3 * 4) s rg k i He) as (e3&Hr3&He3); [by apply data_reg_plain..|].
  rewrite (bind_Ret _ _ _ _ _ Hr3).
  destruct (readl_run (off + 2 * 4) (set_engine e3 s) rg k i He3) as (e2&Hr2&He2); [by apply data_reg_plain..|].
  rewrite (bind_Ret _ _ _ _ _ Hr2).
  destruct (readl_run (off + 1 * 4) (set_engine e2 s) rg k i He2) as (e1&Hr1&He1); [by apply data_reg_plain..|].
  change (set_engine e2 (set_engine e3 s)) with (set_engine e2 s). rewrite (bind_Ret _ _ _ _ _ Hr1).
  destruct (readl_run (off + 0 * 4) (set_engine e1 s) rg k i He1) as (e0&Hr0&He0); [by apply data_reg_plain..|].
  change (set_engine e1 (set_engine e2 s)) with (set_engine e1 s). rewrite (bind_Ret _ _ _ _ _ Hr0).
  exists e0. by split.
Qed.

(** *** Encryption *)

(** The engine has its key and its mode. *)
Definition keyed (K : list Z) (e : ske) : Prop :=
  ∃ rg i, eng_is e rg K i ∧ rg SKE_CFG_OFFSET = CTR_CFG ∧ regs4 rg SKE_KEY_OFFSET = K.

Lemma four (l : list Z) : length l = 4%nat → [l !!! 0%nat; l !!! 1%nat; l !!! 2%nat; l !!! 3%nat] = l.
Proof. destruct l as [|? [|? [|? [|? [|]]]]]; done. Qed.

(** Loading: configuration bit 12, four registers, start. *)
Lemma load_run fuel data off s rg k i : eng_is (engine s) rg k i → rg SKE_CFG_OFFSET = CTR_CFG →
  off = SKE_KEY_OFFSET ∨ off = SKE_IV_OFFSET → enough fuel →
  ∃ e rg', (ske_set_cfg true;; ske_set_data data off;; ske_start_and_wait fuel;; ske_set_cfg false) s =
      Ret ((), set_engine e s) ∧
    eng_is e rg' (regs4 (put4 off data rg) SKE_KEY_OFFSET) (regs4 (put4 off data rg) SKE_IV_OFFSET) ∧
    rg' SKE_CFG_OFFSET = CTR_CFG ∧
    regs4 rg' SKE_KEY_OFFSET = regs4 (put4 off data rg) SKE_KEY_OFFSET.
Proof.
  intros He Hc Hoff Hf. assert (data_reg off) as Hd by (unfold data_reg; tauto).
  destruct (set_cfg_run true s rg k i He) as (e1&Hr1&He1). rewrite (bind_Ret _ _ _ _ _ Hr1).
  destruct (set_data_run data off (set_engine e1 s) _ k i He1 Hd) as (e2&Hr2&He2). rewrite (bind_Ret _ _ _ _ _ Hr2).
  destruct (ske_start_run fuel (set_engine e2 s) _ k i He2 Hf) as (e3&rg3&k3&i3&Hr3&He3&Hc3&Hk3&Hl3&_).
  change (set_engine e2 (set_engine e1 s)) with (set_engine e2 s). rewrite (bind_Ret _ _ _ _ _ Hr3).
  destruct (set_cfg_run false (set_engine e3 s) _ k3 i3 He3) as (e4&Hr4&He4).
  change (set_engine e3 (set_engine e2 s)) with (set_engine e3 s).
  exists e4, (upd SKE_CFG_OFFSET (Z.land (rg3 SKE_CFG_OFFSET) (Z.lnot 0x1000)) rg3).
  assert (rg3 SKE_CFG_OFFSET = Z.lor CTR_CFG 0x1000) as Hc3'.
  { rewrite Hc3, <-Hc. by destruct Hoff as [-> | ->]. }
  rewrite Hc3 in Hc3'. rewrite Hc3' in Hl3. destruct (Hl3 eq_refl) as [-> ->].
  split; [rewrite Hr4; reflexivity|]. split.
  - replace (regs4 (put4 off data rg) SKE_KEY_OFFSET) with
      (regs4 (put4 off data (upd SKE_CFG_OFFSET (Z.lor (rg SKE_CFG_OFFSET) 4096) rg)) SKE_KEY_OFFSET)
      by (by destruct Hoff as [-> | ->]).
    replace (regs4 (put4 off data rg) SKE_IV_OFFSET) with
      (regs4 (put4 off data (upd SKE_CFG_OFFSET (Z.lor (rg SKE_CFG_OFFSET) 4096) rg)) SKE_IV_OFFSET)
      by (by destruct Hoff as [-> | ->]). exact He4.
  - split; [unfold upd; simpl; by rewrite Hc3, Hc3'|].
    change (regs4 rg3 SKE_KEY_OFFSET = regs4 (put4 off data rg) SKE_KEY_OFFSET). rewrite Hk3.
    by destruct Hoff as [-> | ->].
Qed.

(** The vector with the counter for [offset]. *)
Definition iv_at (c : flash_crypto) (offset : Z) : list Z :=
  <[3%nat := Z.lor (Z.land (iv c !!! 3%nat) 0xf0000000) (Z.shiftr offset 4)]> (iv c).

Lemma piece_run K fuel offset n data tmp s : keyed K (engine s) → length (iv (g_crypto s)) = 4%nat →
  0 ≤ n ≤ 16 → n ≤ Z.of_nat (length data) → length tmp = 16%nat → Forall byte data → Forall byte tmp → enough fuel →
  ∃ e tmp', encrypt_piece fuel offset n data tmp s =
      Ret ((tmp', zip_with Z.lxor (take (Z.to_nat n) data)
                    (take (Z.to_nat n) (tmp_bytes (cipher K (iv_at (g_crypto s) offset))))),
           set_engine e (set_crypto (set_iv (iv_at (g_crypto s) offset) (g_crypto s)) s)) ∧
    keyed K e ∧ length tmp' = 16%nat ∧ Forall byte tmp'.
Proof.
  intros (rg&i&He&Hc&HK) Hiv Hn Hnd Htmp Hbd Hbt Hf. unfold encrypt_piece.
  rewrite (bind_Ret (modify _) _ _ _ _ eq_refl).
  set (v := iv_at (g_crypto s) offset). set (s0 := set_crypto (set_iv v (g_crypto s)) s).
  change (set_crypto _ s) with s0. assert (length v = 4%nat) as Hv by (unfold v, iv_at; by rewrite length_insert).
  destruct (load_run fuel v SKE_IV_OFFSET s0 rg K i He Hc (or_intror eq_refl) Hf) as (e1&rg1&Hr1&He1&Hc1&Hk1).
  change (regs4 (put4 SKE_IV_OFFSET v rg) SKE_KEY_OFFSET) with (regs4 rg SKE_KEY_OFFSET) in *.
  change (regs4 (put4 SKE_IV_OFFSET v rg) SKE_IV_OFFSET) with [v !!! 0%nat; v !!! 1%nat; v !!! 2%nat; v !!! 3%nat] in *.
  rewrite four, HK in * by done.
  set (tail := λ _ : unit, let n0 := Z.to_nat n in let tmp := take n0 data ++ drop n0 tmp in
    ske_set_data (tmp_words tmp) SKE_DIN_OFFSET;; ske_start_and_wait fuel;;
    ws ← ske_get_data SKE_DOUT_OFFSET; mret (tmp_bytes ws, take n0 (tmp_bytes ws))).
  match goal with |- ∃ e t, ?lhs = _ ∧ _ =>
    assert (lhs = ((ske_set_cfg true;; ske_set_data v SKE_IV_OFFSET;; ske_start_and_wait fuel;; ske_set_cfg false) ≫= tail) s0) as -> end.
  { rewrite bind_assoc. destruct (set_cfg_run true s0 rg K i He) as (e&Hr&_). rewrite !(bind_Ret _ _ _ _ _ Hr).
    rewrite (bind_Ret get _ _ _ _ eq_refl). rewrite bind_assoc.
    change (iv (g_crypto (set_engine e s0))) with v. apply bind_ext. intros [] s1. by rewrite bind_assoc. }
  rewrite (bind_Ret _ _ _ _ _ Hr1). unfold tail. clear tail. cbv zeta.
  set (t := take (Z.to_nat n) data ++ drop (Z.to_nat n) tmp).
  assert (length t = 16%nat) as Ht by (unfold t; rewrite length_app, length_take, length_drop; lia).
  assert (Forall byte t) as Hbt' by (unfold t; apply Forall_app; split; [by apply Forall_take|by apply Forall_drop]).
  assert (length (tmp_words t) = 4%nat) as Hwl by (by apply tmp_words_length).
  destruct (set_data_run (tmp_words t) SKE_DIN_OFFSET (set_engine e1 s0) _ _ _ He1) as (e2&Hr2&He2); [unfold data_reg; tauto|].
  rewrite (bind_Ret _ _ _ _ _ Hr2).
  destruct (ske_start_run fuel (set_engine e2 s0) _ _ _ He2 Hf) as (e3&rg3&k3&i3&Hr3&He3&Hc3&Hk3&_&Hout).
  change (set_engine e2 (set_engine e1 s0)) with (set_engine e2 s0). rewrite (bind_Ret _ _ _ _ _ Hr3).
  destruct (Hout Hc1) as [-> Hout']. clear Hout.
  destruct (get_data_run SKE_DOUT_OFFSET (set_engine e3 s0) rg3 _ _ He3) as (e4&Hr4&He4); [unfold data_reg; tauto|].
  change (set_engine e3 (set_engine e2 s0)) with (set_engine e3 s0). rewrite (bind_Ret _ _ _ _ _ Hr4).
  rewrite Hout'.
  change (regs4 (put4 SKE_DIN_OFFSET (tmp_words t) rg1) SKE_DIN_OFFSET) with
    [tmp_words t !!! 0%nat; tmp_words t !!! 1%nat; tmp_words t !!! 2%nat; tmp_words t !!! 3%nat].
  rewrite four by done. rewrite engine_bytes by (rewrite ?cipher_length; done).
  exists e4. eexists. split.
  - unfold mret, M_ret. do 2 f_equal. rewrite zip_with_take. f_equal. unfold t.
    rewrite take_app_le by (rewrite length_take; lia). by rewrite take_take, Nat.min_id.
  - split; [|split].
    + exists rg3, i3. split; [done|]. split; [by rewrite Hc3|]. rewrite Hk3. exact Hk1.
    + rewrite length_zip_with, tmp_bytes_length, cipher_length. lia.
    + apply zip_lxor_bytes; [done|apply tmp_bytes_range].
Qed.

(** *** Counter blocks *)

Lemma ctr_words x : 0 ≤ x < 2 ^ 32 →
  words4 (ctr_block x) =
    [(IV_CFG 3 mod 16) * 2 ^ 28 + IV_CFG 2 / 16; (IV_CFG 2 mod 16) * 2 ^ 28 + IV_CFG 1 / 16;
     (IV_CFG 1 mod 16) * 2 ^ 28 + IV_CFG 0 / 16; (IV_CFG 0 mod 16) * 2 ^ 28 + x / 16].
Proof.
  intros Hx. pose proof (iv_regs 0). pose proof (iv_regs 1). pose proof (iv_regs 2). pose proof (iv_regs 3).
  assert (vector mod 2 ^ 100 = (IV_CFG 3 mod 16) * 2 ^ 96 + IV_CFG 2 * 2 ^ 64 + IV_CFG 1 * 2 ^ 32 + IV_CFG 0) as Hv.
  { unfold vector. zlia. }
  unfold words4, ctr_block, u32. rewrite Hv. clear Hv. repeat f_equal; zlia.
Qed.

Definition iv_ok (c : flash_crypto) : Prop := iv c = words4 (ctr_block (16 * (iv c !!! 3%nat mod 2 ^ 28))).

Lemma counter_bits w x : 0 ≤ w < 2 ^ 32 → 0 ≤ x < 2 ^ 32 →
  Z.lor (Z.land w 0xf0000000) (Z.shiftr x 4) = (w / 2 ^ 28) * 2 ^ 28 + x / 16.
Proof.
  intros Hw Hx. rewrite Z.shiftr_div_pow2 by lia. change (2 ^ 4) with 16.
  assert (Z.land w 0xf0000000 = Z.shiftl (w / 2 ^ 28) 28) as ->.
  { apply (word_eq _ _ 32); [lia|by apply land_range_l|rewrite Z.shiftl_mul_pow2 by lia; zlia|].
    intros i Hi. rewrite Z.land_spec. rewrite <-Z.shiftr_div_pow2 by lia.
    change 0xf0000000 with (Z.shiftl 15 28). destruct (Z.lt_ge_cases i 28).
    - rewrite !Z.shiftl_spec_low by lia. apply andb_false_r.
    - rewrite !Z.shiftl_spec, Z.shiftr_spec by lia. replace (i - 28 + 28) with i by lia.
      change 15 with (Z.ones 4). rewrite Z.ones_spec_low by lia. by rewrite andb_true_r. }
  apply lor_shiftl_add; [lia|zlia].
Qed.

Lemma iv_at_block c x : iv_ok c → 0 ≤ x < 2 ^ 32 → iv_at c x = words4 (ctr_block x).
Proof.
  intros Hc Hx. unfold iv_at. pose proof (Z.mod_pos_bound (iv c !!! 3%nat) (2 ^ 28) ltac:(lia)).
  set (y := 16 * (iv c !!! 3%nat mod 2 ^ 28)) in *.
  assert (iv c = words4 (ctr_block y)) as -> by exact Hc. rewrite !ctr_words by (unfold y; lia).
  cbn [insert list_insert]. do 4 f_equal. pose proof (iv_regs 0).
  change (?l !!! 3%nat) with ((IV_CFG 0 mod 16) * 2 ^ 28 + y / 16).
  rewrite counter_bits by (unfold y; zlia). unfold y. zlia.
Qed.

Lemma iv_ok_at c x : 0 ≤ x < 2 ^ 32 → iv c = words4 (ctr_block x) → iv_ok c.
Proof.
  intros Hx Hc. unfold iv_ok. rewrite Hc. rewrite (ctr_words x) by done.
  change (?l !!! 3%nat) with ((IV_CFG 0 mod 16) * 2 ^ 28 + x / 16).
  pose proof (Z.mod_pos_bound (IV_CFG 0) 16 ltac:(lia)).
  replace (((IV_CFG 0 mod 16) * 2 ^ 28 + x / 16) mod 2 ^ 28) with (x / 16) by zlia.
  rewrite ctr_words by zlia. do 4 f_equal. zlia.
Qed.

Lemma iv_ok_set c x : iv_ok c → 0 ≤ x < 2 ^ 32 → iv_ok (set_iv (iv_at c x) c).
Proof. intros Hc Hx. apply (iv_ok_at _ x Hx). simpl. by apply iv_at_block. Qed.

(** *** Pieces of the key stream *)

Lemma ctr_mode_app a d1 d2 :
  ctr_mode cipher a (d1 ++ d2) = ctr_mode cipher a d1 ++ ctr_mode cipher (a + Z.of_nat (length d1)) d2.
Proof.
  unfold ctr_mode. rewrite length_app, Nat2Z.inj_add, seqZ_app, fmap_app by lia.
  apply zip_with_app. by rewrite length_fmap, length_seqZ, Nat2Z.id.
Qed.

Lemma ctr_mode_length a d : length (ctr_mode cipher a d) = length d.
Proof. unfold ctr_mode. rewrite length_zip_with, length_fmap, length_seqZ. lia. Qed.

Lemma key_block_length x : length (key_block cipher x) = 16%nat.
Proof. unfold key_block. by rewrite tmp_bytes_length, cipher_length. Qed.

(** Sixteen bytes at an aligned address have one counter block. *)
Lemma ctr_mode_block a d : a mod 16 = 0 → (length d ≤ 16)%nat →
  ctr_mode cipher a d = zip_with Z.lxor d (take (length d) (key_block cipher a)).
Proof.
  intros Ha Hd. unfold ctr_mode. f_equal. apply list_eq. intros i.
  rewrite list_lookup_fmap. destruct (decide (i < length d)%nat) as [Hi|Hi].
  - rewrite lookup_seqZ_lt by lia. rewrite lookup_take_lt by done. simpl. unfold keystream.
    replace (key_block cipher (a + Z.of_nat i)) with (key_block cipher a).
    2: { unfold key_block, ctr_block. do 3 f_equal. f_equal. zlia. }
    replace ((a + Z.of_nat i) mod 16) with (Z.of_nat i) by zlia. rewrite Nat2Z.id.
    symmetry. apply list_lookup_lookup_total_lt. rewrite key_block_length. lia.
  - rewrite lookup_seqZ_ge by lia. simpl. symmetry. apply lookup_ge_None_2. rewrite length_take. lia.
Qed.

(** Counter mode twice is the identity. *)
Lemma ctr_mode_twice a d : ctr_mode cipher a (ctr_mode cipher a d) = d.
Proof.
  unfold ctr_mode at 1. rewrite ctr_mode_length. unfold ctr_mode.
  set (k := keystream cipher <$> seqZ a (Z.of_nat (length d))).
  assert (length k = length d) as Hk by (unfold k; rewrite length_fmap, length_seqZ; lia).
  clearbody k. revert k Hk. induction d as [|x d IH]; intros [|y k] Hk; simpl in *; try lia; [done|].
  rewrite IH by lia. f_equal. by rewrite Z.lxor_assoc, Z.lxor_nilpotent, Z.lxor_0_r.
Qed.

Lemma keystream_byte x : byte (keystream cipher x).
Proof.
  unfold keystream. pose proof (tmp_bytes_range (cipher aes_key (words4 (ctr_block x)))) as Hr.
  rewrite Forall_forall in Hr. apply Hr. apply list_elem_of_lookup_2 with (Z.to_nat (x mod 16)).
  apply list_lookup_lookup_total_lt. rewrite key_block_length.
  pose proof (Z.mod_pos_bound x 16 ltac:(lia)). lia.
Qed.

Lemma ctr_mode_bytes a d : Forall byte d → Forall byte (ctr_mode cipher a d).
Proof.
  intros Hd. apply zip_lxor_bytes; [done|]. apply Forall_fmap, Forall_forall. intros x _. apply keystream_byte.
Qed.

(** *** Whole buffers *)

(** The driver's state when encryption is on. *)
Record enc_ok (s : cdev) : Prop := {
  eo_settled : settled (engine s) = true;
  eo_enable : enable (g_crypto s) = 1;
  eo_user : user_disable (g_crypto s) = 0;
  eo_key : key (g_crypto s) = aes_key;
  eo_iv : iv_ok (g_crypto s);
}.

Lemma words4_length n : length (words4 n) = 4%nat.
Proof. done. Qed.

Lemma iv_ok_length c : iv_ok c → length (iv c) = 4%nat.
Proof. intros ->. done. Qed.

(** [s'] is [s] with another counter, and the engine keyed. *)
Definition counted (s s' : cdev) : Prop :=
  ∃ e v, s' = set_engine e (set_crypto (set_iv v (g_crypto s)) s) ∧ keyed aes_key e ∧ iv_ok (set_iv v (g_crypto s)).

Lemma counted_trans s1 s2 s3 : counted s1 s2 → counted s2 s3 → counted s1 s3.
Proof. intros (e&v&->&_&_) (e'&v'&->&Hk&Hv). exists e', v'. by split. Qed.

Lemma piece_ctr fuel offset n data tmp s : keyed aes_key (engine s) → iv_ok (g_crypto s) → offset mod 16 = 0 →
  0 ≤ offset < 2 ^ 32 → 0 ≤ n ≤ 16 → n ≤ Z.of_nat (length data) → length tmp = 16%nat →
  Forall byte data → Forall byte tmp → enough fuel →
  ∃ s' tmp', encrypt_piece fuel offset n data tmp s =
      Ret ((tmp', ctr_mode cipher offset (take (Z.to_nat n) data)), s') ∧
    counted s s' ∧ length tmp' = 16%nat ∧ Forall byte tmp'.
Proof.
  intros Hk Hv Ha Ho Hn Hnd Ht Hbd Hbt Hf.
  destruct (piece_run aes_key fuel offset n data tmp s Hk) as (e&tmp'&Hrun&Hk'&Hl&Hb); [by apply iv_ok_length|done..|].
  eexists _, tmp'. split.
  - rewrite Hrun, iv_at_block by done. do 3 f_equal. rewrite ctr_mode_block by (rewrite ?length_take; lia || done).
    f_equal. unfold key_block. f_equal. rewrite length_take. lia.
  - split; [|done]. eexists e, _. split; [reflexivity|]. split; [done|].
    rewrite <-(iv_at_block _ offset) by done. by apply iv_ok_set.
Qed.

Lemma loop_ctr pieces fuel offset data tmp out s : keyed aes_key (engine s) → iv_ok (g_crypto s) → offset mod 16 = 0 →
  0 ≤ offset → offset + Z.of_nat (length data) ≤ 2 ^ 32 → length tmp = 16%nat →
  Forall byte data → Forall byte tmp → enough fuel → (length data < pieces)%nat →
  ∃ s', encrypt_loop pieces fuel offset data tmp out s = Ret (out ++ ctr_mode cipher offset data, s') ∧ counted s s'.
Proof.
  revert offset data tmp out s. induction pieces as [|pieces IH]; intros offset data tmp out s Hk Hv Ha Ho Hend Ht Hbd Hbt Hf Hp; [lia|].
  cbn [encrypt_loop]. rewrite Z.gtb_ltb. destruct (Z.ltb_spec 0 (Z.of_nat (length data))) as [Hpos|Hz].
  2: { destruct data; [|simpl in Hz; lia]. exists s. split; [unfold ctr_mode; simpl; by rewrite app_nil_r|].
       exists (engine s), (iv (g_crypto s)). destruct s as [r [] e b]. by split. }
  set (n := Z.min (Z.of_nat (length data)) 16).
  destruct (piece_ctr fuel offset n data tmp s) as (s1&tmp1&Hrun1&Hc1&Hl1&Hb1);
    try done; try (unfold n; lia).
  rewrite (bind_Ret _ _ _ _ _ Hrun1). cbn [fst snd].
  assert (ctr_mode cipher offset data =
    ctr_mode cipher offset (take (Z.to_nat n) data) ++ ctr_mode cipher (offset + n) (drop (Z.to_nat n) data)) as ->.
  { rewrite <-(take_drop (Z.to_nat n) data) at 1. rewrite ctr_mode_app. do 2 f_equal. rewrite length_take. unfold n. lia. }
  rewrite app_assoc.
  destruct (decide (length data ≤ 16)%nat) as [Hle|Hgt].
  { rewrite (drop_ge data) by (unfold n; lia). destruct pieces as [|pieces]; [lia|]. exists s1. split; [|done].
    unfold ctr_mode at 3. simpl. by rewrite app_nil_r. }
  rewrite u32_id by (unfold n; lia).
  assert (n = 16) as Hn by (unfold n; lia). destruct Hc1 as (e1&v1&->&Hk1&Hv1).
  destruct (IH (offset + n) (drop (Z.to_nat n) data) tmp1 (out ++ ctr_mode cipher offset (take (Z.to_nat n) data))
    (set_engine e1 (set_crypto (set_iv v1 (g_crypto s)) s))) as (s2&Hrun2&Hc2); try done.
  - rewrite Hn. zlia.
  - lia.
  - rewrite length_drop. lia.
  - by apply Forall_drop.
  - rewrite length_drop. lia.
  - exists s2. split; [done|]. eapply counted_trans; [|exact Hc2]. by exists e1, v1.
Qed.

(** The engine gets its configuration and its key. *)
Lemma encrypt_ctr fuel offset data tmp s : enc_ok s → offset mod 16 = 0 →
  0 ≤ offset → offset + Z.of_nat (length data) ≤ 2 ^ 32 → length tmp = 16%nat →
  Forall byte data → Forall byte tmp → enough fuel →
  ∃ s', flash_crypto_data_encrypt fuel offset data tmp s = Ret (ctr_mode cipher offset data, s') ∧ counted s s'.
Proof.
  intros [Hs _ _ HK Hv] Ha Ho Hend Ht Hbd Hbt Hf. unfold flash_crypto_data_encrypt.
  assert (eng_is (engine s) (sreg (engine s)) (loaded_key (engine s)) (loaded_iv (engine s))) as He by done.
  destruct (writel_run (Z.lor (Z.shiftl 6 28) (Z.shiftl 1 0)) SKE_CFG_OFFSET s _ _ _ He) as (e1&Hr1&He1); [done|].
  unfold ske_config. rewrite (bind_Ret _ _ _ _ _ Hr1).
  destruct (load_run fuel aes_key SKE_KEY_OFFSET (set_engine e1 s) _ _ _ He1 eq_refl (or_introl eq_refl) Hf) as (e2&rg2&Hr2&He2&Hc2&Hk2).
  set (tail := λ _ : unit, if negb (offset mod 16 =? 0) then
    let enc_size := Z.min (offset mod 16) (Z.of_nat (length data)) in
    r ← encrypt_piece fuel offset enc_size data tmp;
    encrypt_loop (S (length data)) fuel (u32 (offset + enc_size)) (drop (Z.to_nat enc_size) data) r.1 r.2
    else encrypt_loop (S (length data)) fuel offset data tmp []).
  match goal with |- ∃ s', ?lhs = _ ∧ _ =>
    assert (lhs = ((ske_set_cfg true;; ske_set_data aes_key SKE_KEY_OFFSET;; ske_start_and_wait fuel;; ske_set_cfg false) ≫= tail) (set_engine e1 s)) as -> end.
  { rewrite bind_assoc. destruct (set_cfg_run true (set_engine e1 s) _ _ _ He1) as (e&Hr&_). rewrite !(bind_Ret _ _ _ _ _ Hr).
    rewrite (bind_Ret get _ _ _ _ eq_refl). rewrite bind_assoc.
    change (key (g_crypto (set_engine e (set_engine e1 s)))) with (key (g_crypto s)). rewrite HK.
    apply bind_ext. intros [] s1. by rewrite bind_assoc. }
  rewrite (bind_Ret _ _ _ _ _ Hr2). unfold tail. clear tail. rewrite Ha. cbn [negb Z.eqb].
  destruct (loop_ctr (S (length data)) fuel offset data tmp [] (set_engine e2 (set_engine e1 s))) as (s'&Hrun&Hc); try done; [|lia|].
  { exists rg2. eexists. split; [exact He2|]. by split. }
  exists s'. split; [done|]. destruct Hc as (e&v&->&?&?). exists e, v. by split.
Qed.

End Crypto.

(** ** The backend as a device of the flash map *)

#[global] Instance iv_ok_dec `{SysRegs} c : Decision (iv_ok c).
Proof. unfold iv_ok. apply _. Defined.

Section Backend.
Context {NF : NorFlash} {NFL : NorFlashLaws NF} {SK : Ske} {SY : SysRegs} {FL : FlashLayout}.
Context (cipher : list Z → list Z → list Z) {SL : SkeLaws cipher}.
Context (cipher_length : ∀ k i, length (cipher k i) = 4%nat).
Context (iv_regs : words32 IV_CFG).

(** The mapping decrypts with the same key stream. *)
Context (mapped : device → Z → Z).
Context (mapped_ok : ∀ d x, mapped d x = Z.lxor (cells d x) (keystream cipher x)).

(** The heap, the number of polls allowed, and what is on the stack. *)
Context (malloc_ok : Z → bool) (fuel : nat) (tmp : list Z).
Context (Hfuel : enough cipher fuel) (Htmp : length tmp = 16%nat) (Htmpb : Forall byte tmp).

Lemma counted_enc_ok s s' : enc_ok cipher s → counted cipher s s' →
  enc_ok cipher s' ∧ raw s' = raw s ∧ blocks s' = blocks s.
Proof. intros [] (e&v&->&(rg&i&[]&_)&Hv). split; [|done]. by split. Qed.

Lemma write_no_memory addr buf s : enc_ok cipher s → malloc_ok (Z.of_nat (length buf)) = false →
  crypt_backend_write malloc_ok fuel tmp addr buf s = Ret (- ENOMEM, s).
Proof.
  intros [_ He Hu _ _] Hm. unfold crypt_backend_write. mstep. by rewrite He, Hu, Hm.
Qed.

(** A write passes the ciphertext to the driver. *)
Lemma write_run addr buf s : enc_ok cipher s → addr mod 16 = 0 → 0 ≤ addr → addr + Z.of_nat (length buf) ≤ 2 ^ 32 →
  Forall byte buf → malloc_ok (Z.of_nat (length buf)) = true →
  let w := nor_write addr (ctr_mode cipher addr buf) (raw s) in
  ∃ s', crypt_backend_write malloc_ok fuel tmp addr buf s = Ret (w.1, s') ∧
    raw s' = w.2 ∧ blocks s' = blocks s ∧ enc_ok cipher s'.
Proof.
  intros Hs Ha H0 H1 Hb Hm. unfold crypt_backend_write. mstep.
  rewrite (eo_enable _ _ Hs), (eo_user _ _ Hs), Hm. redb. cbn [Z.eqb negb andb]. rewrite (bind_Ret (modify _) _ _ _ _ eq_refl).
  assert (enc_ok cipher (add_blocks 1 s)) as Hs1 by (by destruct Hs).
  destruct (encrypt_ctr cipher cipher_length iv_regs fuel addr buf tmp (add_blocks 1 s)) as (s2&Hrun&Hc); try done.
  rewrite (bind_Ret _ _ _ _ _ Hrun). destruct (counted_enc_ok _ _ Hs1 Hc) as ([]&Hraw&Hbl).
  unfold drv_write, mbind, M_bind, mret, M_ret. simpl. rewrite Hraw. eexists. split; [reflexivity|].
  simpl. rewrite Hbl. simpl. split_and!; [done|lia|by split].
Qed.

Definition enc_dev : Type := {s : cdev | enc_ok cipher s}.

#[local] Instance enc_ok_dec s : Decision (enc_ok cipher s).
Proof.
  refine (cast_if (decide (settled (engine s) = true ∧ enable (g_crypto s) = 1 ∧ user_disable (g_crypto s) = 0 ∧
    key (g_crypto s) = aes_key ∧ iv_ok (g_crypto s)))).
  - abstract (match goal with H : _ ∧ _ |- _ => destruct H as (?&?&?&?&?); by split end).
  - abstract (intros []; match goal with H : ¬ _ |- _ => apply H end; done).
Defined.

(** A call of the backend; one that does not come back counts as a failure. *)
Definition enc_call (m : M cdev Z) (d : enc_dev) : Z * enc_dev :=
  match m (`d) with
  | Ret (r, s) => match decide (enc_ok cipher s) with left H => (r, exist _ s H) | right _ => (-1, d) end
  | _ => (-1, d)
  end.

Definition enc_nor : NorFlash := {|
  nor_base := nor_base;
  nor_end := nor_end;
  device := enc_dev;
  cells d := mapped (raw (`d));
  nor_write a data := enc_call (crypt_backend_write malloc_ok fuel tmp a data);
  nor_erase a n := enc_call (crypt_backend_erase a n);
|}.

Lemma enc_call_Ret m (d : enc_dev) r s : m (`d) = Ret (r, s) → enc_ok cipher s →
  ∃ d', enc_call m d = (r, d') ∧ `d' = s.
Proof.
  intros Hm Hr. unfold enc_call. rewrite Hm. destruct (decide (enc_ok cipher s)) as [H|]; [|done]. by eexists.
Qed.

Lemma enc_erase a (d : enc_dev) n : ∃ d', enc_call (crypt_backend_erase a n) d = ((nor_erase a n (raw (`d))).1, d') ∧
  raw (`d') = (nor_erase a n (raw (`d))).2.
Proof.
  destruct (enc_call_Ret (crypt_backend_erase a n) d (nor_erase a n (raw (`d))).1 (set_raw (nor_erase a n (raw (`d))).2 (`d)))
    as (d'&Hc&Hd'); [done|by destruct (proj2_sig d)|]. exists d'. by rewrite Hd'.
Qed.

Lemma enc_write a data (d : enc_dev) : 0 ≤ a → a + ESIZE ≤ 2 ^ 32 → a mod ESIZE = 0 → Z.of_nat (length data) = ESIZE →
  Forall byte data → malloc_ok ESIZE = true →
  ∃ d', enc_call (crypt_backend_write malloc_ok fuel tmp a data) d =
      ((nor_write a (ctr_mode cipher a data) (raw (`d))).1, d') ∧
    raw (`d') = (nor_write a (ctr_mode cipher a data) (raw (`d))).2.
Proof.
  intros H0 H1 Ha Hlen Hb Hm.
  destruct (write_run a data (`d) (proj2_sig d)) as (s'&Hrun&Hraw&_&Hs'); [unfold ESIZE in *; zlia|done|lia|done|by rewrite Hlen|].
  destruct (enc_call_Ret _ d _ s' Hrun Hs') as (d'&Hc&<-). by exists d'.
Qed.

(** The key stream cancels: a block written through the cipher shows its data. *)
Lemma mapped_put d f a data : (∀ x, f x = put_data (cells d) a (ctr_mode cipher a data) x) → ∀ x,
  Z.lxor (f x) (keystream cipher x) = put_data (mapped d) a data x.
Proof.
  intros Hf x. rewrite Hf. destruct (decide (a ≤ x < a + Z.of_nat (length data))) as [Hin|Hout].
  - rewrite !put_data_in by (rewrite ?ctr_mode_length; done). unfold ctr_mode.
    destruct (lookup_lt_is_Some_2 data (Z.to_nat (x - a))) as [b Hb]; [lia|].
    rewrite (list_lookup_total_correct _ _ _ Hb).
    erewrite (list_lookup_total_correct (zip_with _ _ _)).
    2: { rewrite lookup_zip_with, Hb. simpl. rewrite list_lookup_fmap, lookup_seqZ_lt by lia. reflexivity. }
    replace (a + Z.of_nat (Z.to_nat (x - a))) with x by lia.
    by rewrite Z.lxor_assoc, Z.lxor_nilpotent, Z.lxor_0_r.
  - rewrite !put_data_out by (rewrite ?ctr_mode_length; done). by rewrite mapped_ok.
Qed.

#[local] Instance enc_block_device : BlockDevice enc_nor.
Proof.
  split; [exact (nor_aligned (NF:=NF))|]. intros a data d H0 H1 Ha Hlen Hb He Hw x.
  change (nor_erase (NorFlash:=enc_nor) a ESIZE d) with (enc_call (crypt_backend_erase a ESIZE) d) in *.
  destruct (enc_erase a d ESIZE) as (d1&Hc1&Hraw1). rewrite Hc1 in *. cbn [fst snd] in *.
  change (nor_write (NorFlash:=enc_nor) a data d1) with (enc_call (crypt_backend_write malloc_ok fuel tmp a data) d1) in *.
  destruct (malloc_ok ESIZE) eqn:Hm.
  2: { exfalso. destruct (enc_call_Ret (crypt_backend_write malloc_ok fuel tmp a data) d1 (- ENOMEM) (`d1)) as (d2&Hc2&_);
       [apply write_no_memory; [exact (proj2_sig d1)|by rewrite Hlen]|exact (proj2_sig d1)|].
       rewrite Hc2 in Hw. by cbn in Hw. }
  destruct (enc_write a data d1) as (d2&Hc2&Hraw2); [done..|]. rewrite Hc2 in *. cbn [fst snd] in *.
  simpl. rewrite mapped_ok. apply mapped_put. intros y. rewrite Hraw2, Hraw1 in *.
  apply (blk_program (NF:=NF)); [done|done|done|by rewrite ctr_mode_length|by apply ctr_mode_bytes|done|done].
Qed.

Lemma enc_never_fails : never_fails (NF:=NF) → 0 ≤ nor_base → nor_end ≤ 2 ^ 32 → malloc_ok ESIZE = true →
  never_fails (NF:=enc_nor).
Proof.
  intros [Hw He] Hb Hend Hm. split.
  - intros a data d Ha [H1 H2] Hlen Hby. simpl in H1, H2.
    change (nor_write (NorFlash:=enc_nor) a data d) with (enc_call (crypt_backend_write malloc_ok fuel tmp a data) d).
    destruct (enc_write a data d) as (d1&->&_); [lia|lia|done..|].
    apply Hw; [done|by split|by rewrite ctr_mode_length|by apply ctr_mode_bytes].
  - intros a d Ha Hin. change (nor_erase (NorFlash:=enc_nor) a ESIZE d) with (enc_call (crypt_backend_erase a ESIZE) d).
    destruct (enc_erase a d ESIZE) as (d1&->&_). by apply He.
Qed.

(** [flash_init] with the cipher switched on: the vector is packed as the
    counter blocks need it. *)
Lemma init_enc_ok s : Z.testbit CRYPTO_CFG 31 = true → settled (engine s) = true →
  ∃ s', flash_init s = Ret (0, s') ∧ enc_ok cipher s' ∧ raw s' = raw s.
Proof.
  clear malloc_ok mapped_ok mapped Hfuel fuel Htmp Htmpb tmp. intros Hen Hs. unfold flash_init, flash_cyprot_init, CRYPTO_CIPHER_EN.
  rewrite land_BIT_zero, Hen by lia. cbn [negb]. unfold mbind, M_bind, modify. eexists. split; [reflexivity|].
  split; [|done]. split; [done..|]. apply (iv_ok_at iv_regs _ 0); [lia|]. cbn [iv g_crypto set_crypto].
  rewrite ctr_words by (done || lia).
  pose proof (iv_regs 0). pose proof (iv_regs 1). pose proof (iv_regs 2). pose proof (iv_regs 3).
  assert (∀ h l, 0 ≤ h < 2 ^ 32 → 0 ≤ l < 2 ^ 32 →
    Z.lor (u32 (Z.shiftl (Z.land h 15) 28)) (Z.shiftr l 4) = (h mod 16) * 2 ^ 28 + l / 16) as Hw.
  { intros h l Hh Hl. rewrite land_15, Z.shiftr_div_pow2 by lia. pose proof (Z.mod_pos_bound h 16 ltac:(lia)).
    rewrite u32_id by (rewrite Z.shiftl_mul_pow2; lia). apply lor_shiftl_add; [lia|zlia]. }
  rewrite !Hw by done. rewrite land_15. pose proof (Z.mod_pos_bound (IV_CFG 0) 16 ltac:(lia)).
  rewrite u32_id by (rewrite Z.shiftl_mul_pow2; lia). rewrite Z.shiftl_mul_pow2 by lia. do 4 f_equal. zlia.
Qed.

(** ** Properties *)

(** C6: with encryption on, what the boot loader encrypts is AES-128 counter
    mode by address.  [flash_init] takes key and vector from the system
    registers; from then on every byte of an aligned buffer is combined with
    the byte of the key stream that belongs to its address, where the counter
    block is the 100 low bits of the vector registers followed by the number of
    the 16-byte line.  The engine's start and polling sequences end, and the
    driver is ready for the next buffer although the counter inside its vector
    has moved on. *)
Theorem flash_encrypt_is_ctr :
  (∀ s, Z.testbit CRYPTO_CFG 31 = true → settled (engine s) = true →
     ∃ s', flash_init s = Ret (0, s') ∧ enc_ok cipher s' ∧ raw s' = raw s) ∧
  (∀ offset data s, enc_ok cipher s → offset mod 16 = 0 →
     0 ≤ offset → offset + Z.of_nat (length data) ≤ 2 ^ 32 → Forall byte data →
     ∃ s', flash_crypto_data_encrypt fuel offset data tmp s = Ret (ctr_mode cipher offset data, s') ∧
       raw s' = raw s ∧ enc_ok cipher s').
Proof.
  clear malloc_ok mapped_ok mapped. split; [exact init_enc_ok|]. intros offset data s Hs Ha H0 H1 Hb.
  destruct (encrypt_ctr cipher cipher_length iv_regs fuel offset data tmp s) as (s'&Hrun&Hc); [done..|].
  exists s'. split; [done|]. by destruct (counted_enc_ok s s' Hs Hc) as (?&?&_).
Qed.

(** What the processor sees of the flash through the mapping, and the cells. *)
Definition view (s : @dev enc_nor) : Z → Z := mapped (raw (proj1_sig (chip s : enc_dev))).
Definition ciphertext (s : @dev enc_nor) : Z → Z := cells (raw (proj1_sig (chip s : enc_dev))).

(** C7: the flash map works on an encrypted flash.  With the encrypting backend
    between the flash map and the driver, a write to an area at any offset and
    of any length changes exactly those bytes of what the decrypting mapping
    shows, through erasures and encrypted rewrites of whole blocks; the flash
    itself then holds the data combined with the key stream; and the call
    succeeds when memory and device do. *)
Theorem encrypted_area_write_exact (mem_ok : bool) fa off src (s : @dev enc_nor) :
  area_ok (NF:=NF) fa → 0 ≤ off → off + Z.of_nat (length src) ≤ fa_size fa →
  bytes (ciphertext s) → Forall byte src →
  ∃ r s', flash_area_write (NF:=enc_nor) mem_ok fa off src s = Ret (r, s') ∧ (r = FOK ∨ r = ERROR) ∧
    (r = FOK → ∀ x, view s' x = put_data (view s) (fa_off fa + off) src x) ∧
    (r = FOK → ∀ i, 0 ≤ i < Z.of_nat (length src) →
       ciphertext s' (fa_off fa + off + i) =
         Z.lxor (src !!! Z.to_nat i) (keystream cipher (fa_off fa + off + i))) ∧
    (mem_ok = true → malloc_ok ESIZE = true → never_fails (NF:=NF) → 0 ≤ nor_base → nor_end ≤ 2 ^ 32 → r = FOK).
Proof.
  intros Hfa Hoff Hlen Hf Hb.
  assert (bytes (@fl enc_nor s)) as Hv.
  { intros x. unfold fl. simpl. rewrite mapped_ok. apply lxor_byte; [apply Hf|by apply keystream_byte]. }
  destruct (area_write_spec (NF:=enc_nor) mem_ok fa off src s) as (r&s'&Hrun&Hr&_&Hp&Ht); [done..|].
  exists r, s'. split; [done|]. split; [done|]. split; [exact Hp|]. split.
  - intros Hok i Hi. specialize (Hp Hok (fa_off fa + off + i)). unfold fl in Hp. simpl in Hp.
    rewrite put_data_in in Hp by lia. replace (fa_off fa + off + i - (fa_off fa + off)) with i in Hp by lia.
    rewrite <-Hp, mapped_ok. unfold ciphertext. by rewrite Z.lxor_assoc, Z.lxor_nilpotent, Z.lxor_0_r.
  - intros Hm Hmal Hn H0 H1. apply Ht; [done|]. by apply enc_never_fails.
Qed.

End Backend.

(** ** Witnesses *)

Module Demo.
Import FlashMapTheorems.Demo.
#[local] Existing Instance FlashMapTheorems.Demo.nor.
#[local] Existing Instance FlashMapTheorems.Demo.nor_laws.

(** An engine whose operations take one poll; [sst] is the number of polls
    left of the operation in progress. *)
Record sim := Sim { sregs : Z → Z; slk : list Z; sli : list Z; sst : option nat }.

Definition toy_cipher (k i : list Z) : list Z :=
  (λ p, u32 (3 * (k !!! p) + 5 * (i !!! p) + 7 * (i !!! 3%nat))) <$> seq 0 4.

Definition sim_put (off v : Z) (e : sim) : sim := Sim (upd off v (sregs e)) (slk e) (sli e) (sst e).

Definition sim_finish (e : sim) : sim :=
  if Z.testbit (sregs e SKE_CFG_OFFSET) 12
  then Sim (sregs e) (regs4 (sregs e) SKE_KEY_OFFSET) (regs4 (sregs e) SKE_IV_OFFSET) None
  else Sim (put4 SKE_DOUT_OFFSET (zip_with Z.lxor (regs4 (sregs e) SKE_DIN_OFFSET) (toy_cipher (slk e) (sli e))) (sregs e))
         (slk e) (sli e) None.

#[local] Instance sim_ske : Ske := {|
  ske := sim;
  ske_readl off e :=
    if off =? SKE_SR2_OFFSET then
      match sst e with
      | Some (S n) => (0, Sim (sregs e) (slk e) (sli e) (Some n))
      | Some O => (1, e)
      | None => (0, e)
      end
    else if off =? SKE_SR1_OFFSET then (0, e) else (sregs e off, e);
  ske_writel v off e :=
    if off =? SKE_CTRL_OFFSET then Sim (sregs e) (slk e) (sli e) (Some 1%nat)
    else if off =? SKE_SR2_OFFSET then sim_finish e
    else sim_put off v e |}.

#[local] Instance sys : SysRegs := {|
  CRYPTO_CFG := 0x80000000;
  KEY_CFG i := 0x01020304 * (i + 1);
  IV_CFG i := u32 (0x89abcde0 + i) |}.

#[local, refine] Instance sim_laws : SkeLaws toy_cipher := {|
  settled e := match sst e with None => true | _ => false end;
  sreg e := sregs e;
  loaded_key := slk;
  loaded_iv := sli;
  latency := 1;
  running e0 n e := sst e0 = None ∧ e = Sim (sregs e0) (slk e0) (sli e0) (Some n);
  done_from e0 e := sst e0 = None ∧ e = Sim (sregs e0) (slk e0) (sli e0) (Some O) |}.
Proof.
  - intros v off [rg k i st] Hs H1 H2 H3. simpl. rewrite (proj2 (Z.eqb_neq _ _) H1), (proj2 (Z.eqb_neq _ _) H3). done.
  - intros off [rg k i [|]] Hs; [done|]. simpl. destruct (Z.eqb_spec off SKE_SR2_OFFSET) as [->|H2]; [done|].
    destruct (Z.eqb_spec off SKE_SR1_OFFSET) as [->|H1]; done.
  - intros v [rg k i [|]] Hs; done.
  - intros e0 n e [H0 ->]. simpl. destruct n as [|n]; [by left|]. right. split; [done|]. exists n. split; [lia|done].
  - intros e0 e [H0 ->]. cbn [ske_writel sim_ske Z.eqb SKE_SR2_OFFSET SKE_CTRL_OFFSET]. unfold sim_finish. cbn [sregs slk sli sst].
    destruct (Z.testbit (sregs e0 SKE_CFG_OFFSET) 12) eqn:E; cbn [sregs slk sli sst]; [|done].
    split_and!; try done. intros Hc. by rewrite Hc in E.
Defined.

Definition stack : list Z := replicate 16 0xa5.
Definition shown (d : flash) (x : Z) : Z := Z.lxor (d x) (keystream toy_cipher x).
Definition plenty (n : Z) : bool := true.

Lemma toy_length k i : length (toy_cipher k i) = 4%nat.
Proof. done. Qed.

Lemma toy_vector : words32 IV_CFG.
Proof. intros i. apply u32_range. Qed.

Lemma stack_bytes : Forall byte stack.
Proof. apply Forall_replicate. unfold byte. lia. Qed.

Lemma two_polls : enough toy_cipher 2.
Proof. unfold enough. simpl. lia. Qed.

Definition s_boot : cdev := CDev (λ _ : Z, 0xff) (FlashCrypto 0 0 [] []) (Sim (λ _, 0) [] [] None) 0.
Definition s_enc : cdev :=
  CDev (λ _ : Z, 0xff) (FlashCrypto 1 0 aes_key (words4 (ctr_block 0))) (Sim (λ _, 0) [] [] None) 0.

Lemma s_enc_ok : enc_ok toy_cipher s_enc.
Proof. split; reflexivity. Qed.

(** The output of an encryption. *)
Definition output (offset : Z) (data : list Z) : option (list Z) :=
  match flash_crypto_data_encrypt 2 offset data stack s_enc with Ret (out, _) => Some out | _ => None end.

Lemma flash_encrypt_is_ctr_witness :
  (∃ s', flash_init s_boot = Ret (0, s') ∧ enc_ok toy_cipher s') ∧
  output 0x80220010 (seqZ 0 40) = Some (ctr_mode toy_cipher 0x80220010 (seqZ 0 40)).
Proof.
  destruct (flash_encrypt_is_ctr toy_cipher toy_length toy_vector 2 stack) as [Hi He].
  - exact two_polls.
  - reflexivity.
  - exact stack_bytes.
  - split.
    + destruct (Hi s_boot) as (s'&?&?&_); [reflexivity|reflexivity|]. by exists s'.
    + unfold output. destruct (He 0x80220010 (seqZ 0 40) s_enc s_enc_ok) as (s'&->&_); [reflexivity|lia|simpl; lia| |reflexivity].
      apply Forall_forall. intros x Hx%elem_of_seqZ. unfold byte. lia.
Defined.

(** A buffer that does not start on a 16-byte line: the first piece is as long
    as the offset into the line, not as what is left of it, and it is combined
    with the start of the key stream of that line, so that the mapping does not
    show the data that was written. *)
Lemma unaligned_not_ctr :
  output 0x80220004 (replicate 4 7) ≠ Some (ctr_mode toy_cipher 0x80220004 (replicate 4 7)).
Proof. by vm_compute. Qed.

Definition enc_start : @dev (enc_nor toy_cipher shown plenty 2 stack) :=
  @Dev (enc_nor toy_cipher shown plenty 2 stack) (exist _ s_enc s_enc_ok) 0.

(** 5000 bytes at offset 100 of the area, encrypted. *)
Lemma encrypted_area_write_exact_witness :
  ∃ s', flash_area_write (NF:=enc_nor toy_cipher shown plenty 2 stack) true area 100 (replicate 5000 7) enc_start = Ret (FOK, s') ∧
    (∀ x, view toy_cipher shown plenty 2 stack s' x =
       put_data (view toy_cipher shown plenty 2 stack enc_start) 0x80220064 (replicate 5000 7) x) ∧
    ciphertext toy_cipher shown plenty 2 stack s' 0x80220064 = Z.lxor 7 (keystream toy_cipher 0x80220064).
Proof.
  destruct (encrypted_area_write_exact (NF:=nor) toy_cipher toy_length toy_vector shown (λ d x, eq_refl) plenty 2 stack
    two_polls eq_refl stack_bytes true area 100 (replicate 5000 7) enc_start) as (r&s'&Hrun&_&Hp&Hc&Ht).
  - unfold area_ok, inside, ESIZE. simpl. lia.
  - lia.
  - rewrite length_replicate. simpl. lia.
  - intros x. unfold byte. simpl. lia.
  - apply Forall_replicate. unfold byte. lia.
  - assert (r = FOK) as ->.
    { apply Ht; [reflexivity|reflexivity|apply nor_never_fails|simpl; lia|simpl; lia]. }
    exists s'. split; [exact Hrun|]. split; [by apply Hp|].
    specialize (Hc eq_refl 0). rewrite length_replicate in Hc. specialize (Hc ltac:(lia)). exact Hc.
Defined.

End Demo.
