(* ===== verification/McubootAgent.v ===== *)
(** * The update agent: src/lib/scm_mcuboot/update_agent/mcuboot_agent.c

    The agent downloads a firmware image over HTTP, writes it to the secondary
    slot in blocks of 4096 bytes, and marks it for the boot loader.  It is a
    client of the flash map ([FlashMap]).

    The network is a queue of what successive [recv] calls return; bytes and
    characters are numbers.  The global buffers and their pointers survive a
    run, as in the code.  The flash is not encrypted, so that
    [flash_crypto_enable] has no effect and the flash reads in the address
    space as it is stored. *)

From Stdlib Require Import String Ascii.
From stdpp Require Import base tactics numbers list gmap.
From S2P Require Import Prelude FlashMap.

Definition MAX_BUF_LEN : Z := 1024 * 2.
Definition MAX_WRITE_BUF_LEN : Z := 1024 * 4.
Definition IMAGE_MAGIC : Z := 0x96f3b83d.
Definition CMD_RET_USAGE : Z := -1.
Definition CMD_RET_FAILURE : Z := 1.

(** A C string literal, without its NUL. *)
Definition str (s : string) : list Z := (λ a, Z.of_N (N_of_ascii a)) <$> list_ascii_of_string s.

(** ** State *)

Inductive ptr := PNull | PLive | PDangling.

Record agent `{NorFlash} := Agent {
  ag_dev : dev;
  fap : option flash_area;
  img_oft : Z;
  fbuf_idx : Z;
  fbuf : list Z;              (* MAX_WRITE_BUF_LEN bytes *)
  hbuf : list Z;              (* MAX_BUF_LEN bytes *)
  fbuf_p : ptr;
  hbuf_p : ptr;
  net : list (list Z);        (* what [recv] will return; empty is an end or error *)
  pending : bool;             (* [boot_set_pending_multi] was called *)
  expired : bool;             (* [wdt_expire_now] was called *)
}.

#[global] Arguments Agent {_} _ _ _ _ _ _ _ _ _ _ _.

Definition set_dev `{NorFlash} v s := Agent v (fap s) (img_oft s) (fbuf_idx s) (fbuf s) (hbuf s) (fbuf_p s) (hbuf_p s) (net s) (pending s) (expired s).
Definition set_fap `{NorFlash} v s := Agent (ag_dev s) v (img_oft s) (fbuf_idx s) (fbuf s) (hbuf s) (fbuf_p s) (hbuf_p s) (net s) (pending s) (expired s).
Definition set_oft `{NorFlash} v s := Agent (ag_dev s) (fap s) v (fbuf_idx s) (fbuf s) (hbuf s) (fbuf_p s) (hbuf_p s) (net s) (pending s) (expired s).
Definition set_idx `{NorFlash} v s := Agent (ag_dev s) (fap s) (img_oft s) v (fbuf s) (hbuf s) (fbuf_p s) (hbuf_p s) (net s) (pending s) (expired s).
Definition set_fbuf `{NorFlash} v s := Agent (ag_dev s) (fap s) (img_oft s) (fbuf_idx s) v (hbuf s) (fbuf_p s) (hbuf_p s) (net s) (pending s) (expired s).
Definition set_hbuf `{NorFlash} v s := Agent (ag_dev s) (fap s) (img_oft s) (fbuf_idx s) (fbuf s) v (fbuf_p s) (hbuf_p s) (net s) (pending s) (expired s).
Definition set_fbuf_p `{NorFlash} v s := Agent (ag_dev s) (fap s) (img_oft s) (fbuf_idx s) (fbuf s) (hbuf s) v (hbuf_p s) (net s) (pending s) (expired s).
Definition set_hbuf_p `{NorFlash} v s := Agent (ag_dev s) (fap s) (img_oft s) (fbuf_idx s) (fbuf s) (hbuf s) (fbuf_p s) v (net s) (pending s) (expired s).
Definition set_net `{NorFlash} v s := Agent (ag_dev s) (fap s) (img_oft s) (fbuf_idx s) (fbuf s) (hbuf s) (fbuf_p s) (hbuf_p s) v (pending s) (expired s).
Definition set_pending `{NorFlash} v s := Agent (ag_dev s) (fap s) (img_oft s) (fbuf_idx s) (fbuf s) (hbuf s) (fbuf_p s) (hbuf_p s) (net s) v (expired s).
Definition set_expired `{NorFlash} v s := Agent (ag_dev s) (fap s) (img_oft s) (fbuf_idx s) (fbuf s) (hbuf s) (fbuf_p s) (hbuf_p s) (net s) (pending s) v.

(** A call of the flash map. *)
Definition on_dev `{NorFlash} {A} (c : M dev A) : M agent A := λ s,
  match c (ag_dev s) with
  | Ret (a, d) => Ret (a, set_dev d s)
  | AssertFailed => AssertFailed
  | Fault => Fault
  | OutOfFuel => OutOfFuel
  end.

(** The size of [struct image_trailer] and the offset of its magic, and the
    text of an address ([inet_ntoa]). *)
Class AgentEnv := {
  TRAILER_SIZE : Z;
  TRAILER_MAGIC_OFF : Z;
  inet_ntoa : list Z → list Z;
}.

(** What the surroundings of a run answer. *)
Record env := Env {
  e_socket : bool;     (* [socket] succeeds *)
  e_hbuf : bool;       (* [malloc] of the HTTP buffer *)
  e_fbuf : bool;       (* [malloc] of the flash buffer *)
  e_mem : bool;        (* [malloc] in the flash map *)
  e_connect : Z;       (* result of [connect] *)
  e_send : Z;          (* result of [send] *)
  e_wdt : bool;        (* the watchdog device exists *)
}.

Section Agent.
Context {NF : NorFlash} {FL : FlashLayout} {AE : AgentEnv}.
Context (v : env).

(** ** Writing the image *)

(** The first word of the image header, at the slot's address. *)
Definition check_magic : M agent Z :=
  s ← get;
  let b i := fl (ag_dev s) (SECONDARY_SLOT_OFFSET + i) in
  mret (if b 0 + b 1 * 2 ^ 8 + b 2 * 2 ^ 16 + b 3 * 2 ^ 24 =? IMAGE_MAGIC then 0 else -1).

Definition file_open : M agent Z :=
  let '(r, fa) := flash_area_open FLASH_AREA_IMAGE_SECONDARY in
  (if fa then modify (set_fap fa) else mret ());; mret r.

Definition fap_write (off : Z) (data : list Z) : M agent Z :=
  s ← get;
  fa ← lift_opt (fap s);
  on_dev (flash_area_write (e_mem v) fa off data).

Definition file_close : M agent Z :=
  s ← get;
  if fbuf_idx s =? 0 then mret 0 else
  bad ← (if img_oft s =? 0 then check_magic else mret 0);
  if negb (bad =? 0) then mret (-1) else
  ret ← fap_write (img_oft s) (take (Z.to_nat (fbuf_idx s)) (fbuf s));
  modify (λ s, set_oft (u32 (img_oft s + fbuf_idx s)) s);;
  mret ret.

(** [memcpy(&fbuf[off], data, ...)]. *)
Definition fbuf_copy (off : Z) (data : list Z) : M agent unit :=
  if off + Z.of_nat (List.length data) <=? MAX_WRITE_BUF_LEN
  then modify (λ s, set_fbuf (overlay (fbuf s) off data) s) else fault.

Definition file_write (buf : list Z) : M agent Z :=
  s ← get;
  let len := Z.of_nat (List.length buf) in
  if u32 (fbuf_idx s + len) >=? MAX_WRITE_BUF_LEN then
    let remain := u32 (fbuf_idx s + len) - MAX_WRITE_BUF_LEN in
    let copy_len := len - remain in
    fbuf_copy (fbuf_idx s) (take (Z.to_nat copy_len) buf);;
    s ← get;
    ret ← fap_write (img_oft s) (fbuf s);
    if ret <? 0 then mret (-1) else
    bad ← (if img_oft s =? 0 then check_magic else mret 0);
    if negb (bad =? 0) then mret (-1) else
    modify (λ s, set_idx 0 (set_oft (u32 (img_oft s + MAX_WRITE_BUF_LEN)) s));;
    (if negb (remain =? 0) then
       fbuf_copy 0 (drop (Z.to_nat copy_len) buf);; modify (set_idx remain)
     else mret ());;
    mret ret
  else
    fbuf_copy (fbuf_idx s) buf;;
    modify (set_idx (u32 (fbuf_idx s + len)));;
    mret 0.

(** ** Parsing the response: [None] is an access outside the buffer *)

Definition CR : Z := 13.
Definition LF : Z := 10.
Definition SP : Z := 32.

(** [strchr(&buf[i], c)]: the index, or no match before the NUL. *)
Fixpoint strchr (l : list Z) (c i : Z) : option (option Z) :=
  match l with
  | [] => None
  | x :: l => if x =? c then Some (Some i) else if x =? 0 then Some None else strchr l c (i + 1)
  end.

(** [strncmp(&buf[i], tag, strlen(tag)) == 0]. *)
Fixpoint starts_with (l tag : list Z) : option bool :=
  match tag, l with
  | [], _ => Some true
  | _, [] => None
  | t :: tag, x :: l => if x =? t then starts_with l tag else Some false
  end.

Definition is_space (c : Z) : bool := (c =? 32) || ((9 <=? c) && (c <=? 13)).
Definition is_digit (c : Z) : bool := (48 <=? c) && (c <=? 57).

Fixpoint digits (l : list Z) (acc : Z) : Z :=
  match l with
  | c :: l => if is_digit c then digits l (acc * 10 + (c - 48)) else acc
  | [] => acc
  end.

Fixpoint skip_spaces (l : list Z) : list Z :=
  match l with
  | c :: l' => if is_space c then skip_spaces l' else l
  | [] => []
  end.

(** [atoi] of the C library, which saturates. *)
Definition atoi (l : list Z) : Z :=
  let clamp x := Z.max (- 2 ^ 31) (Z.min (2 ^ 31 - 1) x) in
  match skip_spaces l with
  | c :: l' => if c =? 45 then clamp (- digits l' 0) else if c =? 43 then clamp (digits l' 0)
               else clamp (digits (c :: l') 0)
  | [] => 0
  end.

(** [buf[i]], inside the buffer. *)
Definition at_ (buf : list Z) (i : Z) : Z := buf !!! Z.to_nat i.

(** The search for the empty line, [n] characters to go. *)
Fixpoint find_header_end (buf : list Z) (n : nat) (i : Z) : Z :=
  match n with
  | O => -1
  | S n =>
      if (4 <=? i) && (at_ buf i =? LF) && (at_ buf (i - 1) =? CR) &&
         (at_ buf (i - 2) =? LF) && (at_ buf (i - 3) =? CR) then i
      else find_header_end buf n (i + 1)
  end.

(** The result and [status]; the status text is copied to an array of 8. *)
Definition http_process_header (buf : list Z) (len : Z) : option (Z * Z) :=
  ok ← starts_with buf (str "HTTP");
  if negb ok then Some (-1, 0) else
  start ← strchr buf SP 0; status_start ← start;
  fin ← strchr (drop (Z.to_nat (status_start + 1)) buf) SP (status_start + 1); status_end ← fin;
  let n := status_end - status_start in
  if n >? 7 then None else
  let status := atoi (take (Z.to_nat n) (drop (Z.to_nat status_start) buf)) in
  Some (find_header_end buf (Z.to_nat len) 0, status).

(** The end of the line that starts before [i]. *)
Fixpoint line_end (buf : list Z) (n : nat) (i len : Z) : Z :=
  match n with
  | O => i
  | S n =>
      let i := i + 1 in
      if i >=? len then i
      else if (at_ buf i =? LF) && (at_ buf (i - 1) =? CR) then i
      else line_end buf n i len
  end.

(** The position and length of the value of a tag; [None] inside is -1.  The
    debug output copies every line to an array of 256. *)
Fixpoint get_tag (fuel : nat) (buf : list Z) (i len : Z) (tag : list Z) : option (option (Z * Z)) :=
  match fuel with
  | O => None
  | S fuel =>
      if negb (i <? len) then Some None else
      match_ ← starts_with (drop (Z.to_nat i) buf) tag;
      let start := i in
      let i := line_end buf (Z.to_nat len) i len in
      if i - start =? 2 then Some None else
      if i - start - 1 >? 255 then None else
      if (match_ : bool) then
        let tl := Z.of_nat (List.length tag) in
        Some (Some (start + tl, i - start - 1 - tl))
      else get_tag fuel buf (i + 1) len tag
  end.

Definition http_get_tag (buf : list Z) (len : Z) (tag : list Z) : option (option (Z * Z)) :=
  get_tag (S (Z.to_nat len)) buf 0 len tag.

(** The value is copied to an array of 16. *)
Definition http_file_size (buf : list Z) (len : Z) : option Z :=
  r ← http_get_tag buf len (str "Content-Length:");
  match r with
  | None => Some (-1)
  | Some (pos, tag_len) =>
      if (tag_len <? 0) || (tag_len >? 15) then None
      else Some (atoi (take (Z.to_nat tag_len) (drop (Z.to_nat pos) buf)))
  end.

(** ** Receiving *)

(** [recv(sockfd, hbuf, MAX_BUF_LEN, 0)]: the length, at most the buffer. *)
Definition recv : M agent Z :=
  s ← get;
  match net s with
  | [] => mret 0
  | chunk :: rest =>
      put (set_net rest (set_hbuf (overlay (hbuf s) 0 (take (Z.to_nat MAX_BUF_LEN) chunk)) s));;
      mret (Z.of_nat (List.length (take (Z.to_nat MAX_BUF_LEN) chunk)))
  end.

(** The loop over the rest of the body: the result of the last write. *)
Fixpoint recv_body (fuel : nat) (offset file_size : Z) : M agent Z :=
  match fuel with
  | O => out_of_fuel
  | S fuel =>
      if offset <? file_size then
        len ← recv;
        if len <=? 0 then mret 0 else
        s ← get;
        ret ← file_write (take (Z.to_nat len) (hbuf s));
        if negb (ret =? 0) then mret ret else recv_body fuel (offset + len) file_size
      else mret 0
  end.

Definition http_recv_rsp (fuel : nat) : M agent Z :=
  len ← recv;
  if len <=? 0 then mret (-1) else
  s ← get;
  h ← lift_opt (http_process_header (hbuf s) len);
  let '(hdr_len, status) := h in
  if hdr_len <? 0 then mret (-1) else
  if negb (status =? 200) then mret (-1) else
  file_size ← lift_opt (http_file_size (hbuf s) hdr_len);
  if file_size =? 0 then mret (-1) else
  if hdr_len >? len then mret (-1) else
  file_open;;
  ret ← file_write (take (Z.to_nat (len - (hdr_len + 1))) (drop (Z.to_nat (hdr_len + 1)) (hbuf s)));
  (if negb (ret =? 0) then mret 0 else recv_body fuel (len - (hdr_len + 1)) file_size);;
  file_close.

(** ** The request *)

Fixpoint dec_digits (fuel : nat) (n : Z) : list Z :=
  match fuel with
  | O => []
  | S fuel => (if n <? 10 then [] else dec_digits fuel (n / 10)) ++ [48 + n mod 10]
  end.

Definition request (addr : list Z) (port : Z) (path : list Z) : list Z :=
  str "GET /" ++ path ++ str " HTTP/1.1" ++ [CR; LF] ++ str "Accept: */*" ++ [CR; LF] ++
  str "User-Agent: wise" ++ [CR; LF] ++
  str "Host: " ++ inet_ntoa addr ++ str ":" ++ dec_digits 5 port ++ [CR; LF] ++ [CR; LF].

(** [sprintf] into [hbuf], with its NUL. *)
Definition http_send_req (addr : list Z) (port : Z) (path : list Z) : M agent Z :=
  let req := request addr port path in
  if Z.of_nat (List.length req) + 1 <=? MAX_BUF_LEN
  then modify (λ s, set_hbuf (overlay (hbuf s) 0 (req ++ [0])) s);; mret (e_send v)
  else fault.

(** The only use of [connect_timeout] is with -1. *)
Definition connect_timeout : M agent Z := mret (e_connect v).

(** ** The command *)

(** [if (p) free(p);] leaves the pointer as it is. *)
Definition free_hbuf : M agent unit :=
  s ← get; match hbuf_p s with PNull => mret () | PLive => put (set_hbuf_p PDangling s) | PDangling => fault end.
Definition free_fbuf : M agent unit :=
  s ← get; match fbuf_p s with PNull => mret () | PLive => put (set_fbuf_p PDangling s) | PDangling => fault end.

Definition firmware_transfer (fuel : nat) (addr : list Z) (port : Z) (path : list Z) : M agent Z :=
  modify (set_hbuf_p (if e_hbuf v then PLive else PNull));;
  if negb (e_hbuf v) then mret (-1) else
  modify (set_fbuf_p (if e_fbuf v then PLive else PNull));;
  if negb (e_fbuf v) then mret (-1) else
  ret ← connect_timeout;
  if negb (ret =? 0) then mret ret else
  ret ← http_send_req addr port path;
  if ret <? 0 then mret ret else
  http_recv_rsp fuel.

Definition get_firmware (fuel : nat) (addr : list Z) (port : Z) (path : list Z) : M agent Z :=
  if negb (e_socket v) then mret (-1) else
  ret ← firmware_transfer fuel addr port path;
  free_hbuf;; free_fbuf;;
  mret ret.

Definition check_slot_trailer : M agent unit :=
  file_open;;
  s ← get;
  fa ← lift_opt (fap s);
  let off := fa_size fa - TRAILER_SIZE in
  r ← on_dev (flash_area_read fa off TRAILER_SIZE);
  let magic := take 16 (drop (Z.to_nat TRAILER_MAGIC_OFF) r.2) in
  if existsb (λ b, negb (b =? flash_area_erased_val fa)) magic
  then on_dev (flash_area_erase (e_mem v) fa off TRAILER_SIZE);; mret ()
  else mret ().

(** Splitting a string at the first occurrence of a character. *)
Fixpoint split_at (c : Z) (l : list Z) : list Z * option (list Z) :=
  match l with
  | [] => ([], None)
  | x :: l => if x =? c then ([], Some l) else let '(a, b) := split_at c l in (x :: a, b)
  end.

Definition do_mcuboot_agent (fuel : nat) (argc : Z) (url : list Z) : M agent Z :=
  if argc <? 2 then mret CMD_RET_USAGE else
  if negb (bool_decide (take 7 url = str "http://")) then mret CMD_RET_USAGE else
  match split_at 47 (drop 7 url) with
  | (_, None) => mret CMD_RET_USAGE
  | (host, Some path) =>
      let '(addr, port) := split_at 58 host in
      let port_num := match port with Some p => u16 (atoi p) | None => 80 end in
      modify (λ s, set_idx 0 (set_oft 0 s));;
      check_slot_trailer;;
      ret ← get_firmware fuel addr port_num path;
      if ret <? 0 then mret CMD_RET_FAILURE else
      modify (set_pending true);;
      (if e_wdt v then modify (set_expired true) else mret ());;
      mret 0
  end.

End Agent.
