(* ===== verification/McubootHttp.v ===== *)
(** * The update agent: reading an HTTP response

    A response as a server writes it, in bytes, and what the parsing functions of
    mcuboot_agent.c find in it: the end of the header, the status and the length
    of the content. *)

From Stdlib Require Import String Ascii.
From stdpp Require Import base tactics numbers list.
From S2P Require Import Prelude McubootAgent.

#[local] Open Scope list_scope.

(** ** Responses *)

Definition CRLF : list Z := [CR; LF].

(** Lines, each of them ended by CR LF. *)
Definition lines (ls : list (list Z)) : list Z := concat ((λ l, l ++ CRLF) <$> ls).

(** The status line is the version, [200] and a text; the line with the length of
    the content stands among others. *)
Record response := Response {
  version : list Z;            (* after HTTP, for example /1.1 *)
  reason : list Z;
  before : list (list Z);
  pad : list Z;                (* blanks in front of the number *)
  number : list Z;
  pad_end : list Z;            (* blanks behind it *)
  after : list (list Z);
}.

Definition status_line (r : response) : list Z := str "HTTP" ++ version r ++ [SP] ++ str "200" ++ [SP] ++ reason r.
Definition length_line (r : response) : list Z := str "Content-Length:" ++ pad r ++ number r ++ pad_end r.
Definition header (r : response) : list Z := lines (status_line r :: before r ++ length_line r :: after r) ++ CRLF.

(** The number that decimal digits mean. *)
Definition decimal (ds : list Z) : Z := foldl (λ n c, 10 * n + (c - 48)) 0 ds.

Definition blank (c : Z) : Prop := c = 32 ∨ c = 9.
Definition digit (c : Z) : Prop := 48 ≤ c ≤ 57.
Definition text (l : list Z) : Prop := Forall (λ c, c ≠ CR ∧ c ≠ LF) l.
Definition line_ok (l : list Z) : Prop := text l ∧ (2 ≤ length l ≤ 255)%nat.

(** Lines of at most 255 characters (two at least: no field is shorter), a number
    that, with its blanks, has at most 15, and nothing before it that starts like
    its line. *)
Record response_ok (r : response) (size : Z) : Prop := {
  ro_version : Forall (λ c, c ≠ SP ∧ c ≠ 0) (version r);
  ro_status : line_ok (status_line r);
  ro_before : Forall (λ l, line_ok l ∧ ¬ str "Content-Length:" `prefix_of` l) (before r);
  ro_after : Forall line_ok (after r);
  ro_pad : Forall blank (pad r);
  ro_pad_end : Forall blank (pad_end r);
  ro_number : Forall digit (number r) ∧ number r ≠ [];
  ro_short : (length (pad r ++ number r ++ pad_end r) ≤ 15)%nat;
  ro_size : decimal (number r) = size ∧ 0 < size < 2 ^ 31;
}.

Lemma bind_some {A B} (a : A) (f : A → option B) : Some a ≫= f = f a.
Proof. done. Qed.

Lemma lines_cons l ls : lines (l :: ls) = l ++ CRLF ++ lines ls.
Proof. unfold lines. cbn [fmap list_fmap concat]. by rewrite <-app_assoc. Qed.

(** ** Places in the text *)

Lemma at_app_r pre l i : Z.of_nat (length pre) ≤ i → at_ (pre ++ l) i = at_ l (i - Z.of_nat (length pre)).
Proof. intros H. unfold at_. rewrite lookup_total_app_r by lia. f_equal. lia. Qed.

Lemma at_app_l pre l i : 0 ≤ i < Z.of_nat (length pre) → at_ (pre ++ l) i = at_ pre i.
Proof. intros H. unfold at_. rewrite lookup_total_app_l by lia. done. Qed.

Lemma text_at l i : text l → 0 ≤ i < Z.of_nat (length l) → at_ l i ≠ CR ∧ at_ l i ≠ LF.
Proof.
  intros Hl Hi. unfold at_. eapply (Forall_lookup_total_1 _ _ _ Hl). lia.
Qed.

(** The characters of one line in the middle of a text. *)
Lemma line_at pre l tl i : text l → Z.of_nat (length pre) ≤ i < Z.of_nat (length pre + length l) →
  at_ (pre ++ l ++ CRLF ++ tl) i ≠ CR ∧ at_ (pre ++ l ++ CRLF ++ tl) i ≠ LF.
Proof. intros Hl Hi. rewrite at_app_r, at_app_l by lia. apply text_at; [done|lia]. Qed.

Lemma cr_at pre l tl : at_ (pre ++ l ++ CRLF ++ tl) (Z.of_nat (length pre + length l)) = CR.
Proof. rewrite !at_app_r by lia. by replace (_ - _ - _) with 0 by lia. Qed.

Lemma lf_at pre l tl : at_ (pre ++ l ++ CRLF ++ tl) (Z.of_nat (length pre + length l) + 1) = LF.
Proof. rewrite !at_app_r by lia. by replace (_ - _ - _) with 1 by lia. Qed.

(** ** The end of the header *)

Definition end_at (buf : list Z) (i : Z) : bool :=
  (4 <=? i) && (at_ buf i =? LF) && (at_ buf (i - 1) =? CR) && (at_ buf (i - 2) =? LF) && (at_ buf (i - 3) =? CR).

Lemma find_skip buf k n i : (∀ j, i ≤ j < i + Z.of_nat k → end_at buf j = false) →
  find_header_end buf (k + n) i = find_header_end buf n (i + Z.of_nat k).
Proof.
  revert i. induction k as [|k IH]; intros i H; [f_equal; lia|]. cbn [Nat.add find_header_end].
  fold (end_at buf i). rewrite H by lia. rewrite IH; [f_equal; lia|]. intros j Hj. apply H. lia.
Qed.

Lemma end_at_line pre l tl j : line_ok l → Z.of_nat (length pre) ≤ j < Z.of_nat (length pre + length l) + 2 →
  end_at (pre ++ l ++ CRLF ++ tl) j = false.
Proof.
  intros [Ht Hlen] Hj. unfold end_at.
  destruct (decide (j < Z.of_nat (length pre + length l))) as [Hlt|Hge].
  { destruct (line_at pre l tl j Ht) as [_ Hn]; [lia|]. rewrite (proj2 (Z.eqb_neq _ LF) Hn). by rewrite andb_false_r. }
  destruct (decide (j = Z.of_nat (length pre + length l))) as [->|Hne].
  { rewrite cr_at. change (CR =? LF) with false. by rewrite andb_false_r. }
  destruct (line_at pre l tl (j - 2) Ht) as [_ Hn]; [lia|]. rewrite (proj2 (Z.eqb_neq _ LF) Hn).
  by rewrite andb_false_r.
Qed.

Lemma find_lines ls : ∀ pre tl n, Forall line_ok ls → (ls = [] → ∃ p, p ≠ [] ∧ pre = p ++ CRLF) →
  find_header_end (pre ++ lines ls ++ CRLF ++ tl) (length (lines ls) + 2 + n) (Z.of_nat (length pre)) =
  Z.of_nat (length pre + length (lines ls)) + 1.
Proof.
  induction ls as [|l ls IH]; intros pre tl n Hls Hpre.
  - destruct (Hpre eq_refl) as (p&Hp&->). cbn [lines fmap list_fmap concat length app].
    assert (0 < length p)%nat by (destruct p; [done|simpl; lia]).
    rewrite <-!app_assoc. change (0 + 2 + n)%nat with (2 + n)%nat. cbn [Nat.add find_header_end].
    rewrite !length_app. cbn [length CRLF].
    rewrite !(at_app_r p) by lia. rewrite Nat.add_0_r.
    replace (Z.of_nat (length p + 2) - Z.of_nat (length p)) with 2 by lia.
    change (at_ _ 2 =? LF) with false. rewrite andb_false_r. cbn [andb].
    rewrite (proj2 (Z.leb_le 4 _)) by lia. rewrite ?(at_app_r p) by lia.
    replace (Z.of_nat (length p + 2) + 1 - Z.of_nat (length p)) with 3 by lia.
    replace (Z.of_nat (length p + 2) + 1 - 1 - Z.of_nat (length p)) with 2 by lia.
    replace (Z.of_nat (length p + 2) + 1 - 2 - Z.of_nat (length p)) with 1 by lia.
    replace (Z.of_nat (length p + 2) + 1 - 3 - Z.of_nat (length p)) with 0 by lia. done.
  - apply Forall_cons in Hls as [Hl Hls]. cbn [lines fmap list_fmap concat]. fold (lines ls).
    rewrite <-!app_assoc, !length_app. cbn [length CRLF].
    replace (length l + (2 + length (lines ls)) + 2 + n)%nat with ((length l + 2) + (length (lines ls) + 2 + n))%nat by lia.
    rewrite find_skip. 2:{ intros j Hj. apply end_at_line; [done|lia]. }
    assert (∀ t, pre ++ l ++ CRLF ++ t = ((pre ++ l) ++ CRLF) ++ t) as E by (intros; by rewrite <-!app_assoc).
    rewrite E. replace (Z.of_nat (length pre) + Z.of_nat (length l + 2)) with (Z.of_nat (length ((pre ++ l) ++ CRLF)))
      by (rewrite !length_app; cbn [length CRLF]; lia).
    rewrite IH; [rewrite !length_app; cbn [length CRLF]; lia|done|].
    intros _. exists (pre ++ l). split; [|done]. destruct Hl as [_ ?]. intros [_ ->]%app_eq_nil. simpl in *. lia.
Qed.

(** ** Fields *)

Lemma line_end_skip buf len k n i : i + Z.of_nat k < len → (∀ j, i < j ≤ i + Z.of_nat k → at_ buf j ≠ LF) →
  line_end buf (k + n) i len = line_end buf n (i + Z.of_nat k) len.
Proof.
  revert i. induction k as [|k IH]; intros i Hlen H; [f_equal; lia|]. cbn [Nat.add line_end].
  rewrite (proj2 (geb_false _ _)) by lia. rewrite (proj2 (Z.eqb_neq _ LF)) by (apply H; lia). cbn [andb].
  rewrite IH; [f_equal; lia|lia|]. intros j Hj. apply H. lia.
Qed.

Lemma line_end_run pre l tl n len : line_ok l → (length l < n)%nat → Z.of_nat (length pre + length l) + 1 < len →
  line_end (pre ++ l ++ CRLF ++ tl) n (Z.of_nat (length pre)) len = Z.of_nat (length pre + length l) + 1.
Proof.
  intros [Ht Hl] Hn Hlen. replace n with (length l + S (n - S (length l)))%nat by lia.
  rewrite line_end_skip by (lia || (intros j Hj; destruct (decide (j < Z.of_nat (length pre + length l)));
    [by apply line_at; [|lia]|]; replace j with (Z.of_nat (length pre + length l)) by lia; by rewrite cr_at)).
  cbn [line_end]. rewrite (proj2 (geb_false _ _)) by lia.
  replace (Z.of_nat (length pre) + Z.of_nat (length l) + 1) with (Z.of_nat (length pre + length l) + 1) by lia.
  rewrite lf_at, Z.add_simpl_r, cr_at. done.
Qed.

(** A line is compared with a tag up to its end at most. *)
Lemma starts_with_line tag l tl : CR ∉ tag → starts_with (l ++ CR :: tl) tag = Some (bool_decide (tag `prefix_of` l)).
Proof.
  revert l. induction tag as [|t tag IH]; intros l Hc.
  - rewrite bool_decide_true by apply prefix_nil. by destruct l.
  - apply not_elem_of_cons in Hc as [Ht Hc]. destruct l as [|x l]; cbn [app starts_with].
    + rewrite (proj2 (Z.eqb_neq CR t)) by done. rewrite bool_decide_false; [done|]. by intros H%prefix_nil_inv.
    + destruct (Z.eqb_spec x t) as [->|Hx].
      * rewrite IH by done. f_equal. apply bool_decide_ext. split; [apply prefix_cons|apply prefix_cons_inv_2].
      * rewrite bool_decide_false; [done|]. by intros H%prefix_cons_inv_1.
Qed.

Lemma starts_with_app tag l : starts_with (tag ++ l) tag = Some true.
Proof. induction tag as [|t tag IH]; [by destruct l|]. cbn [app starts_with]. by rewrite Z.eqb_refl. Qed.

Lemma get_tag_lines tag val tl len : CR ∉ tag → line_ok (tag ++ val) → ∀ ls pre fuel,
  Forall (λ l, line_ok l ∧ ¬ tag `prefix_of` l) ls → (length ls < fuel)%nat →
  Z.of_nat (length pre + length (lines ls) + length (tag ++ val)) + 1 < len →
  get_tag fuel (pre ++ lines ls ++ (tag ++ val) ++ CRLF ++ tl) (Z.of_nat (length pre)) len tag =
  Some (Some (Z.of_nat (length pre + length (lines ls) + length tag), Z.of_nat (length val))).
Proof.
  intros Hc Hval ls. induction ls as [|l ls IH]; intros pre fuel Hls Hfuel Hlen; (destruct fuel as [|fuel]; [simpl in Hfuel; lia|]); cbn [get_tag].
  - cbn [lines fmap list_fmap concat app length]. cbn [lines fmap list_fmap concat length] in Hlen.
    rewrite (proj2 (Z.ltb_lt _ _)) by lia. cbn [negb]. rewrite Nat2Z.id, drop_app_length.
    change (CRLF ++ tl) with (CR :: LF :: tl). rewrite starts_with_line by done. rewrite bind_some.
    rewrite bool_decide_true by apply prefix_app_r, reflexivity. change (CR :: LF :: tl) with (CRLF ++ tl).
    destruct Hval as [Ht Hl]. rewrite line_end_run by (split; [done|done] || lia).
    rewrite (proj2 (Z.eqb_neq _ 2)) by lia. rewrite (proj2 (gtb_false _ 255)) by lia.
    apply f_equal, f_equal, f_equal2; rewrite ?length_app; lia.
  - apply Forall_cons in Hls as [[Hl Hp] Hls]. cbn [lines fmap list_fmap concat] in Hlen |- *. fold (lines ls) in Hlen |- *.
    rewrite <-!app_assoc. rewrite !length_app in Hlen. cbn [length CRLF] in Hlen.
    rewrite (proj2 (Z.ltb_lt _ _)) by lia. cbn [negb]. rewrite Nat2Z.id, drop_app_length.
    match goal with |- context [l ++ CRLF ++ ?t] => set (rest := t) end.
    assert (starts_with (l ++ CRLF ++ rest) tag = Some false) as ->.
    { change (CRLF ++ rest) with (CR :: LF :: rest). rewrite starts_with_line by done. by rewrite bool_decide_false by done. }
    rewrite bind_some. destruct Hl as [Ht Hl]. rewrite line_end_run by (split; [done|done] || lia).
    rewrite (proj2 (Z.eqb_neq _ 2)) by lia. rewrite (proj2 (gtb_false _ 255)) by lia.
    assert (pre ++ l ++ CRLF ++ rest = (pre ++ l ++ CRLF) ++ rest) as -> by (by rewrite <-!app_assoc).
    replace (Z.of_nat (length pre + length l) + 1 + 1) with (Z.of_nat (length (pre ++ l ++ CRLF)))
      by (rewrite !length_app; cbn [length CRLF]; lia).
    unfold rest. rewrite (app_assoc tag). rewrite IH; [|done|simpl in Hfuel; lia|].
    + apply f_equal, f_equal, f_equal2; rewrite ?length_app; cbn [length CRLF]; lia.
    + rewrite !length_app. cbn [length CRLF]. lia.
Qed.

(** ** Numbers *)

Lemma digits_app ds tl n : Forall digit ds → (match tl with c :: _ => ¬ digit c | [] => True end) →
  digits (ds ++ tl) n = foldl (λ n c, 10 * n + (c - 48)) n ds.
Proof.
  intros Hd Ht. revert n. induction Hd as [|c ds Hc Hd IH]; intros n; cbn [app digits foldl].
  - destruct tl as [|c tl]; [done|]. cbn [digits]. unfold is_digit, digit in *.
    destruct (Z.leb_spec 48 c), (Z.leb_spec c 57); done || lia.
  - unfold is_digit, digit in *. rewrite (proj2 (Z.leb_le 48 c)), (proj2 (Z.leb_le c 57)) by lia. cbn [andb].
    rewrite IH. f_equal. lia.
Qed.

Lemma skip_blanks p l : Forall blank p → skip_spaces (p ++ l) = skip_spaces l.
Proof.
  induction 1 as [|c p Hc Hp IH]; [done|]. cbn [app skip_spaces].
  by assert (is_space c = true) as -> by (by destruct Hc as [-> | ->]).
Qed.

Lemma atoi_number p ds q : Forall blank p → Forall digit ds → ds ≠ [] → Forall blank q → 0 ≤ decimal ds < 2 ^ 31 →
  atoi (p ++ ds ++ q) = decimal ds.
Proof.
  intros Hp Hd Hn Hq Hr. unfold atoi. rewrite skip_blanks by done. destruct ds as [|c ds]; [done|].
  pose proof Hd as [Hc _]%Forall_cons. unfold digit in Hc. cbn [app skip_spaces].
  unfold is_space. rewrite (proj2 (Z.eqb_neq c 32)), (proj2 (Z.leb_gt c 13)), andb_false_r by lia. cbn [orb].
  rewrite (proj2 (Z.eqb_neq c 45)), (proj2 (Z.eqb_neq c 43)) by lia.
  change (c :: ds ++ q) with ((c :: ds) ++ q). rewrite digits_app; [fold (decimal (c :: ds)); lia|done|].
  destruct Hq as [|d q [-> | ->] _]; [done|unfold digit; lia..].
Qed.

Lemma strchr_at l c tl i : Forall (λ x, x ≠ c ∧ x ≠ 0) l → strchr (l ++ c :: tl) c i = Some (Some (i + Z.of_nat (length l))).
Proof.
  intros H. revert i. induction H as [|x l [H1 H2] _ IH]; intros i; cbn [app strchr length].
  - rewrite Z.eqb_refl. do 2 f_equal. lia.
  - rewrite (proj2 (Z.eqb_neq x c)), (proj2 (Z.eqb_neq x 0)) by done. rewrite IH. do 2 f_equal. lia.
Qed.

(** ** What is found in a response *)

Lemma all_lines_ok r size : response_ok r size → Forall line_ok (status_line r :: before r ++ length_line r :: after r).
Proof.
  intros [_ Hs Hb Ha Hp Hq [Hn _] Hl _]. apply Forall_cons. split; [done|]. apply Forall_app. split.
  { eapply Forall_impl; [exact Hb|]. by intros l [? _]. }
  apply Forall_cons. split; [|done]. split.
  - unfold length_line, text. apply Forall_app. split; [by repeat (constructor; [done|])|].
    assert (∀ l, Forall blank l → text l) as Hbt by (intros l H; eapply Forall_impl; [exact H|]; by intros c [-> | ->]).
    apply Forall_app. split; [by apply Hbt|]. apply Forall_app. split; [|by apply Hbt].
    eapply Forall_impl; [exact Hn|]. unfold digit, CR, LF. intros c ?. lia.
  - unfold length_line. rewrite length_app. change (length (str _)) with 15%nat. lia.
Qed.

(** The end of the header and the status, whatever stands behind the header. *)
Lemma process_header_ok r size body tl : response_ok r size →
  http_process_header (header r ++ body ++ tl) (Z.of_nat (length (header r ++ body))) = Some (Z.of_nat (length (header r)) - 1, 200).
Proof.
  intros Hr. unfold http_process_header.
  assert (∃ more, header r ++ body ++ tl = (str "HTTP" ++ version r) ++ SP :: str "200" ++ SP :: more) as [more E].
  { eexists. unfold header, status_line. cbn [lines fmap list_fmap concat]. rewrite <-!app_assoc. cbn [app]. reflexivity. }
  assert (starts_with (header r ++ body ++ tl) (str "HTTP") = Some true) as -> by (rewrite E, <-app_assoc; apply starts_with_app).
  rewrite bind_some; cbn [negb].
  assert (strchr (header r ++ body ++ tl) SP 0 = Some (Some (0 + Z.of_nat (length (str "HTTP" ++ version r))))) as ->.
  { rewrite E. apply strchr_at, Forall_app. split; [by repeat (constructor; [done|])|apply (ro_version _ _ Hr)]. }
  rewrite !bind_some. set (st := 0 + _).
  assert (Z.to_nat (st + 1) = length ((str "HTTP" ++ version r) ++ [SP])) as En.
  { unfold st. rewrite (length_app _ [SP]). cbn [length]. lia. }
  assert (header r ++ body ++ tl = ((str "HTTP" ++ version r) ++ [SP]) ++ str "200" ++ SP :: more) as E2
    by (rewrite E, <-!app_assoc; done).
  assert (drop (Z.to_nat (st + 1)) (header r ++ body ++ tl) = str "200" ++ SP :: more) as -> by (rewrite E2, En; apply drop_app_length).
  rewrite strchr_at by (by repeat (constructor; [done|])).
  rewrite !bind_some. change (length (str "200")) with 3%nat.
  replace (st + 1 + Z.of_nat 3 - st) with 4 by lia. change (4 >? 7) with false. cbv iota zeta.
  apply f_equal, f_equal2.
  - pose proof (find_lines _ [] (body ++ tl) (length body) (all_lines_ok _ _ Hr)) as Hf. cbn [app length] in Hf.
    rewrite Nat2Z.id. unfold header at 1 2 3. rewrite <-!app_assoc, !length_app.
    replace (length (lines (status_line r :: before r ++ length_line r :: after r)) + (length CRLF + length body))%nat
      with (length (lines (status_line r :: before r ++ length_line r :: after r)) + 2 + length body)%nat by (cbn [length CRLF]; lia).
    etransitivity; [apply Hf; done|]. cbn [length CRLF]. lia.
  - rewrite E. replace (Z.to_nat st) with (length (str "HTTP" ++ version r)) by (unfold st; lia). by rewrite drop_app_length.
Qed.

(** The length of the content. *)
Lemma file_size_ok r size tl : response_ok r size → http_file_size (header r ++ tl) (Z.of_nat (length (header r)) - 1) = Some size.
Proof.
  intros Hr. pose proof (all_lines_ok _ _ Hr) as Hall. pose proof Hr as [_ Hs Hb Ha Hp Hq [Hn Hne] Hl [Hd Hz]].
  unfold http_file_size, http_get_tag.
  set (val := pad r ++ number r ++ pad_end r). set (tag := str "Content-Length:").
  set (rest := lines (after r) ++ CRLF ++ tl).
  assert (header r ++ tl = lines (status_line r :: before r) ++ (tag ++ val) ++ CRLF ++ rest) as E.
  { unfold header, lines, rest. rewrite app_comm_cons, fmap_app, concat_app. cbn [fmap list_fmap concat].
    unfold lines, length_line, val, tag. by rewrite <-!app_assoc. }
  assert (length (header r) = length (lines (status_line r :: before r)) + length (tag ++ val) + 2 + length (lines (after r)) + 2)%nat as Elen.
  { apply (f_equal length) in E. unfold rest in E. rewrite !length_app in E. cbn [length CRLF] in E. rewrite length_app. lia. }
  assert (length (before r) ≤ length (lines (before r)))%nat as Hcount.
  { clear. induction (before r) as [|l ls IH]; [done|]. cbn [lines fmap list_fmap concat]. fold (lines ls).
    rewrite !length_app. cbn [length CRLF]. lia. }
  assert (length (lines (status_line r :: before r)) = length (status_line r) + 2 + length (lines (before r)))%nat as Es.
  { rewrite lines_cons, !length_app. cbn [length CRLF]. lia. }
  rewrite E. pose proof (get_tag_lines tag val rest (Z.of_nat (length (header r)) - 1)) as Hg.
  specialize (Hg ltac:(vm_compute; repeat (apply not_elem_of_cons; split; [done|]); apply not_elem_of_nil)).
  assert (line_ok (tag ++ val)) as Htv.
  { apply Forall_cons in Hall as [_ Hall]. apply Forall_app in Hall as [_ Hall]. by apply Forall_cons in Hall as [? _]. }
  specialize (Hg Htv (status_line r :: before r) [] (S (Z.to_nat (Z.of_nat (length (header r)) - 1)))). cbn [app length Nat.add] in Hg. change (Z.of_nat 0) with 0 in Hg.
  rewrite Hg; [|apply Forall_cons; split; [split; [done|]|done]|lia|lia].
  2:{ unfold status_line. intros [k Hk]. done. }
  rewrite bind_some. rewrite (proj2 (Z.ltb_ge _ 0)) by lia. unfold val in Hl |- *. rewrite (proj2 (gtb_false _ 15)) by lia. cbn [orb].
  rewrite Nat2Z.id, <-(length_app _ tag), Nat2Z.id, <-!app_assoc.
  rewrite (app_assoc (lines _) tag), drop_app_length.
  replace (pad r ++ number r ++ pad_end r ++ CRLF ++ rest) with ((pad r ++ number r ++ pad_end r) ++ CRLF ++ rest) by (by rewrite <-!app_assoc).
  rewrite take_app_length, <-Hd. f_equal. apply atoi_number; done || lia.
Qed.
