(* ===== verification/McubootAgentTheorems.v ===== *)
(** * The update agent: theorems

    What the secondary slot holds after a download, through the 4096-byte
    buffer and the flash map. *)

From Stdlib Require Import String Ascii.
From stdpp Require Import base tactics numbers list gmap.
From S2P Require Import Prelude FlashMap FlashMapTheorems McubootAgent McubootHttp.

#[local] Open Scope list_scope.

Section Theorems.
Context {NF : NorFlash} {NFL : NorFlashLaws NF} {FL : FlashLayout} {AE : AgentEnv}.

Definition secondary : flash_area := FlashArea FLASH_AREA_IMAGE_SECONDARY SECONDARY_SLOT_OFFSET SLOT_SIZE.

(** The four bytes of the magic number, the lowest first. *)
Definition magic_bytes : list Z := [0x3d; 0xb8; 0xf3; 0x96].

(** What the agent's other state is while it writes. *)
Definition same_rest (s s' : agent) : Prop :=
  hbuf s' = hbuf s ∧ fbuf_p s' = fbuf_p s ∧ hbuf_p s' = hbuf_p s ∧ net s' = net s ∧
  pending s' = pending s ∧ expired s' = expired s.

Lemma same_rest_trans s1 s2 s3 : same_rest s1 s2 → same_rest s2 s3 → same_rest s1 s3.
Proof. unfold same_rest. intros (?&?&?&?&?&?) (?&?&?&?&?&?). split_and!; congruence. Qed.

(** [data] has been handed to [file_write]: whole blocks of it are in the slot,
    the rest in the buffer. *)
Record written (f0 : flash) (h0 : Z) (data : list Z) (s : agent) : Prop := {
  wr_fap : fap s = Some secondary;
  wr_fbuf : Z.of_nat (length (fbuf s)) = MAX_WRITE_BUF_LEN;
  wr_idx : 0 ≤ fbuf_idx s < MAX_WRITE_BUF_LEN;
  wr_oft : 0 ≤ img_oft s ∧ img_oft s + fbuf_idx s = Z.of_nat (length data);
  wr_tail : take (Z.to_nat (fbuf_idx s)) (fbuf s) = drop (Z.to_nat (img_oft s)) data;
  wr_flash : ∀ x, fl (ag_dev s) x = put_data f0 SECONDARY_SLOT_OFFSET (take (Z.to_nat (img_oft s)) data) x;
  wr_held : held (ag_dev s) = h0;
  wr_bytes : Forall byte data;
}.

Lemma on_dev_Ret {A} (c : M dev A) s a d : c (ag_dev s) = Ret (a, d) → on_dev c s = Ret (a, set_dev d s).
Proof. intros H. unfold on_dev. by rewrite H. Qed.

Lemma overlay_take (block : list Z) off data : 0 ≤ off → off ≤ Z.of_nat (length block) →
  take (Z.to_nat off + length data) (overlay block off data) = take (Z.to_nat off) block ++ data.
Proof.
  intros H1 H2. unfold overlay. rewrite app_assoc. apply take_app_length'.
  rewrite length_app, length_take. lia.
Qed.

Context (v : env).
Hypothesis slot_ok : area_ok secondary.
Hypothesis mem_ok : e_mem v = true.
Hypothesis device_ok : never_fails.

Lemma fap_write_run s off data : fap s = Some secondary → 0 ≤ off →
  off + Z.of_nat (length data) ≤ SLOT_SIZE → bytes (fl (ag_dev s)) → Forall byte data →
  ∃ d, fap_write v off data s = Ret (0, set_dev d s) ∧ held d = held (ag_dev s) ∧
    ∀ x, fl d x = put_data (fl (ag_dev s)) (SECONDARY_SLOT_OFFSET + off) data x.
Proof.
  intros Hfap Hoff Hlen Hf Hb. unfold fap_write. mstep. rewrite Hfap. mstep.
  destruct (area_write_spec (e_mem v) secondary off data (ag_dev s)) as (r&d&Hrun&_&Hh&Hp&Ht); [done..|].
  rewrite (Ht mem_ok device_ok) in *. exists d. split; [by apply on_dev_Ret|]. split; [done|]. by apply Hp.
Qed.

Lemma written_bytes f0 h0 data s : bytes f0 → written f0 h0 data s → bytes (fl (ag_dev s)).
Proof.
  intros Hf [_ _ _ _ _ Hx _ Hb] x. rewrite Hx. apply put_data_bytes; [done|by apply Forall_take].
Qed.

Lemma check_magic_run s data f0 : (∀ x, fl (ag_dev s) x = put_data f0 SECONDARY_SLOT_OFFSET data x) →
  take 4 data = magic_bytes → check_magic s = Ret (0, s).
Proof.
  intros Hx Hm. unfold check_magic. mstep.
  assert (∀ i, 0 ≤ i < 4 → fl (ag_dev s) (SECONDARY_SLOT_OFFSET + i) = magic_bytes !!! Z.to_nat i) as Hb.
  { intros i Hi. rewrite Hx, <-Hm. assert (4 ≤ length data)%nat.
    { apply (f_equal length) in Hm. rewrite length_take in Hm. change (length magic_bytes) with 4%nat in Hm. lia. }
    rewrite put_data_in by lia. rewrite lookup_total_take_lt by lia. f_equal. lia. }
  rewrite !Hb by lia. reflexivity.
Qed.

Lemma fbuf_copy_run off data s : off + Z.of_nat (length data) ≤ 4096 →
  fbuf_copy off data s = Ret ((), set_fbuf (overlay (fbuf s) off data) s).
Proof. intros H. unfold fbuf_copy. by rewrite (proj2 (Z.leb_le _ _)) by exact H. Qed.

(** A chunk that fits in the buffer. *)
Lemma file_write_fits f0 h0 data chunk s : written f0 h0 data s →
  fbuf_idx s + Z.of_nat (length chunk) < MAX_WRITE_BUF_LEN → Forall byte chunk →
  ∃ s', file_write v chunk s = Ret (0, s') ∧ written f0 h0 (data ++ chunk) s' ∧ same_rest s s'.
Proof.
  intros [Hfap Hfb Hidx Hoft Htail Hx Hh Hb] Hfit Hc. unfold file_write. mstep.
  unfold MAX_WRITE_BUF_LEN in *. rewrite u32_id by lia. rewrite (proj2 (geb_false _ _)) by lia.
  unfold fbuf_copy, MAX_WRITE_BUF_LEN. rewrite (proj2 (Z.leb_le _ _)) by lia. mstep. mstep.
  eexists. split; [reflexivity|]. split; [|done]. split; simpl; unfold MAX_WRITE_BUF_LEN; try done.
  - rewrite overlay_length; lia.
  - lia.
  - rewrite length_app. lia.
  - rewrite Z2Nat.inj_add, Nat2Z.id by lia. rewrite overlay_take by lia.
    rewrite Htail, drop_app_le by lia. done.
  - intros x. rewrite Hx, take_app_le by lia. done.
  - by apply Forall_app.
Qed.

(** A chunk that fills the buffer. *)
Lemma file_write_fills f0 h0 data chunk s : bytes f0 → written f0 h0 data s →
  MAX_WRITE_BUF_LEN ≤ fbuf_idx s + Z.of_nat (length chunk) → Z.of_nat (length chunk) ≤ MAX_BUF_LEN →
  Z.of_nat (length (data ++ chunk)) ≤ SLOT_SIZE → take 4 (data ++ chunk) = magic_bytes → Forall byte chunk →
  ∃ s', file_write v chunk s = Ret (0, s') ∧ written f0 h0 (data ++ chunk) s' ∧ same_rest s s'.
Proof.
  intros Hf0 Hw Hfill Hlen Hslot Hmagic Hc. pose proof (written_bytes f0 h0 data s Hf0 Hw) as Hfb'.
  destruct Hw as [Hfap Hfb Hidx Hoft Htail Hx Hh Hb]. destruct slot_ok as (Hs1&Hs2&Hs3). simpl in *.
  rewrite length_app in Hslot. unfold MAX_WRITE_BUF_LEN, MAX_BUF_LEN, ESIZE in *.
  unfold file_write. mstep. unfold MAX_WRITE_BUF_LEN. rewrite !u32_id by lia.
  rewrite Z.geb_leb, (proj2 (Z.leb_le _ _)) by lia.
  set (remain := fbuf_idx s + Z.of_nat (length chunk) - 1024 * 4).
  assert (remain = fbuf_idx s + Z.of_nat (length chunk) - 4096) as Hrem by done. clearbody remain.
  assert (∃ n, n = Z.to_nat (Z.of_nat (length chunk) - remain)) as [n En] by eauto. rewrite <-En.
  assert (length (take n chunk) = n) as Hln by (rewrite length_take; lia).
  erewrite bind_Ret by (apply fbuf_copy_run; rewrite Hln; lia). mstep.
  set (full := overlay (fbuf s) (fbuf_idx s) (take n chunk)).
  assert (full = take (Z.to_nat (fbuf_idx s)) (fbuf s) ++ take n chunk) as Efull.
  { unfold full, overlay. rewrite (drop_ge (fbuf s)) by lia. by rewrite app_nil_r. }
  assert (length full = 4096%nat) as Hlfull.
  { unfold full. rewrite overlay_length; lia. }
  assert (take (Z.to_nat (img_oft s)) data ++ full = take (Z.to_nat (img_oft s + 4096)) (data ++ chunk)) as Eblocks.
  { rewrite Efull, Htail, app_assoc, take_drop. rewrite take_app.
    rewrite (take_ge data) by lia. f_equal. f_equal. lia. }
  set (s1 := set_fbuf full s).
  destruct (fap_write_run s1 (img_oft s1) (fbuf s1)) as (d&Hrun&Hhd&Hd); simpl; try done.
  { lia. } { rewrite Hlfull. lia. }
  { rewrite Efull, Forall_app. split; [rewrite Htail; by apply Forall_drop|by apply Forall_take]. }
  erewrite bind_Ret by exact Hrun. change (0 <? 0) with false. cbv beta iota.
  assert (∀ x, fl d x = put_data f0 SECONDARY_SLOT_OFFSET (take (Z.to_nat (img_oft s + 4096)) (data ++ chunk)) x) as Hd'.
  { intros x. rewrite Hd. simpl. rewrite (put_data_ext _ _ _ _ _ Hx).
    replace (img_oft s) with (Z.of_nat (length (take (Z.to_nat (img_oft s)) data))) at 2 by (rewrite length_take; lia).
    by rewrite put_data_app, Eblocks. }
  set (s2 := set_dev d s1).
  assert ((if img_oft s1 =? 0 then check_magic else mret 0) s2 = Ret (0, s2)) as Hmag.
  { simpl. destruct (Z.eqb_spec (img_oft s) 0) as [E0|]; [|done].
    apply (check_magic_run s2 _ f0 Hd'). rewrite take_take, E0. by replace (4 `min` Z.to_nat (0 + 4096))%nat with 4%nat by lia. }
  erewrite bind_Ret by exact Hmag. change (negb (0 =? 0)) with false. cbv beta iota. mstep.
  rewrite u32_id by (simpl; lia).
  set (s3 := set_idx 0 _). assert (img_oft s3 = img_oft s + 4096) as E3 by done.
  assert (length (drop n chunk) = Z.to_nat remain) as Hld by (rewrite length_drop; lia).
  assert (drop (Z.to_nat (img_oft s + 4096)) (data ++ chunk) = drop n chunk) as Edrop.
  { rewrite drop_app_ge by lia. f_equal. lia. }
  destruct (Z.eqb_spec remain 0) as [E0|E0]; simpl negb; cbv iota.
  - mstep. exists s3. split; [done|]. split; [|done]. split; simpl; unfold MAX_WRITE_BUF_LEN; try done.
    + by rewrite Hlfull.
    + rewrite length_app. lia.
    + change (1024 * 4) with 4096. rewrite Edrop. symmetry. apply drop_ge. lia.
    + by rewrite Hhd.
    + by apply Forall_app.
  - assert ((fbuf_copy 0 (drop n chunk);; modify (set_idx remain)) s3 =
      Ret ((), set_idx remain (set_fbuf (overlay full 0 (drop n chunk)) s3))) as Hcp.
    { erewrite bind_Ret by (apply fbuf_copy_run; lia). done. }
    erewrite bind_Ret by exact Hcp. eexists. split; [reflexivity|]. split; [|done].
    split; simpl; unfold MAX_WRITE_BUF_LEN; try done.
    + rewrite overlay_length; lia.
    + lia.
    + rewrite length_app. lia.
    + change (1024 * 4) with 4096. rewrite Edrop. pose proof (overlay_take full 0 (drop n chunk)) as Ht. rewrite Hld in Ht.
      apply Ht; lia.
    + by rewrite Hhd.
    + by apply Forall_app.
Qed.

Lemma file_write_spec f0 h0 data chunk rest s : bytes f0 → written f0 h0 data s →
  Z.of_nat (length chunk) ≤ MAX_BUF_LEN → Z.of_nat (length (data ++ chunk ++ rest)) ≤ SLOT_SIZE →
  take 4 (data ++ chunk ++ rest) = magic_bytes → Forall byte chunk →
  ∃ s', file_write v chunk s = Ret (0, s') ∧ written f0 h0 (data ++ chunk) s' ∧ same_rest s s'.
Proof.
  intros Hf0 Hw Hlen Hslot Hmagic Hc.
  destruct (decide (fbuf_idx s + Z.of_nat (length chunk) < MAX_WRITE_BUF_LEN)); [by apply file_write_fits|].
  destruct Hw as [? ? ? Hoft ? ? ? ?] eqn:Ew. rewrite !length_app in Hslot.
  assert (4 ≤ length (data ++ chunk))%nat by (rewrite length_app; unfold MAX_WRITE_BUF_LEN in *; lia).
  apply file_write_fills; [done|done|lia|done|rewrite length_app; lia| |done].
  rewrite <-Hmagic, app_assoc. by rewrite (take_app_le (data ++ chunk)) by done.
Qed.

(** A buffer with room that the network fills. *)
Definition chunk_ok (c : list Z) : Prop := 0 < Z.of_nat (length c) ≤ MAX_BUF_LEN ∧ Forall byte c.

Lemma recv_run s c rest : net s = c :: rest → chunk_ok c → Z.of_nat (length (hbuf s)) = MAX_BUF_LEN →
  recv s = Ret (Z.of_nat (length c), set_net rest (set_hbuf (overlay (hbuf s) 0 c) s)) ∧
  take (length c) (overlay (hbuf s) 0 c) = c ∧ Z.of_nat (length (overlay (hbuf s) 0 c)) = MAX_BUF_LEN.
Proof.
  intros Hnet [Hlen _] Hhb. split_and!.
  - unfold recv. mstep. rewrite Hnet. rewrite (take_ge c) by lia. reflexivity.
  - pose proof (overlay_take (hbuf s) 0 c ltac:(lia) ltac:(lia)) as Ht. exact Ht.
  - rewrite overlay_length; lia.
Qed.

Lemma written_recv f0 h0 data s n b : written f0 h0 data s → written f0 h0 data (set_net n (set_hbuf b s)).
Proof. intros []. by split. Qed.

(** What a transfer leaves alone besides the buffers. *)
Definition same_flags (s s' : agent) : Prop :=
  fbuf_p s' = fbuf_p s ∧ hbuf_p s' = hbuf_p s ∧ pending s' = pending s ∧ expired s' = expired s.

Lemma recv_body_spec f0 h0 chunks fuel data offset file_size s : bytes f0 → written f0 h0 data s →
  net s = chunks → Forall chunk_ok chunks → (length chunks < fuel)%nat →
  Z.of_nat (length (hbuf s)) = MAX_BUF_LEN → offset + Z.of_nat (length (concat chunks)) ≤ file_size →
  Z.of_nat (length (data ++ concat chunks)) ≤ SLOT_SIZE → take 4 (data ++ concat chunks) = magic_bytes →
  ∃ s', recv_body v fuel offset file_size s = Ret (0, s') ∧ written f0 h0 (data ++ concat chunks) s' ∧
    same_flags s s'.
Proof.
  intros Hf0. revert fuel data offset s. induction chunks as [|c chunks IH];
    intros fuel data offset s Hw Hnet Hc Hfuel Hhb Hsize Hslot Hmagic; (destruct fuel as [|fuel]; [simpl in *; lia|]);
    cbn [recv_body].
  - rewrite app_nil_r. destruct (offset <? file_size); [|by exists s].
    exists s. unfold recv, mbind, M_bind. simpl. rewrite Hnet. done.
  - apply Forall_cons in Hc as [Hc Hcs]. simpl in *. rewrite length_app in Hsize.
    destruct (recv_run s c chunks Hnet Hc Hhb) as (Hrun&Htake&Hhb'). pose proof Hc as [Hlen Hcb].
    rewrite (proj2 (Z.ltb_lt _ _)) by lia. erewrite bind_Ret by exact Hrun.
    rewrite (proj2 (Z.leb_gt _ _)) by lia. mstep. rewrite Nat2Z.id. cbn [set_net set_hbuf hbuf]. rewrite Htake.
    destruct (file_write_spec f0 h0 data c (concat chunks)
      (set_net chunks (set_hbuf (overlay (hbuf s) 0 c) s))) as (s1&Hrun1&Hw1&Hsame).
    { done. } { by apply written_recv. } { lia. } { done. } { done. } { done. }
    erewrite bind_Ret by exact Hrun1. change (negb (0 =? 0)) with false. cbv iota.
    destruct Hsame as (Hh1&?&?&Hn1&?&?). simpl in *.
    destruct (IH fuel (data ++ c) (offset + Z.of_nat (length c)) s1) as (s2&Hrun2&Hw2&?&?&?&?).
    { done. } { done. } { done. } { lia. } { by rewrite Hh1. } { lia. }
    { by rewrite <-app_assoc. } { by rewrite <-app_assoc. }
    exists s2. split; [done|]. rewrite <-app_assoc in Hw2. split; [done|].
    unfold same_flags. split_and!; congruence.
Qed.

Lemma file_close_spec f0 h0 data s : bytes f0 → written f0 h0 data s → 4096 ≤ Z.of_nat (length data) ≤ SLOT_SIZE →
  ∃ s', file_close v s = Ret (0, s') ∧ (∀ x, fl (ag_dev s') x = put_data f0 SECONDARY_SLOT_OFFSET data x) ∧
    held (ag_dev s') = h0 ∧ same_rest s s'.
Proof.
  intros Hf0 Hw Hlen. pose proof (written_bytes f0 h0 data s Hf0 Hw) as Hb.
  destruct Hw as [Hfap Hfb Hidx Hoft Htail Hx Hh Hdb]. unfold MAX_WRITE_BUF_LEN in *.
  unfold file_close. mstep. destruct (Z.eqb_spec (fbuf_idx s) 0) as [E0|E0].
  - exists s. split; [done|]. split; [|done]. intros x. rewrite Hx, take_ge by lia. done.
  - rewrite (proj2 (Z.eqb_neq (img_oft s) 0)) by lia. mstep. change (negb (0 =? 0)) with false. cbv iota.
    rewrite Htail.
    destruct (fap_write_run s (img_oft s) (drop (Z.to_nat (img_oft s)) data)) as (d&Hrun&Hhd&Hd);
      [done|lia|rewrite length_drop; lia|done|by apply Forall_drop|].
    erewrite bind_Ret by exact Hrun. mstep. eexists. split; [reflexivity|]. simpl.
    split; [|split; [congruence|done]]. intros x. rewrite Hd, (put_data_ext _ _ _ _ _ Hx).
    replace (img_oft s) with (Z.of_nat (length (take (Z.to_nat (img_oft s)) data))) at 2 by (rewrite length_take; lia).
    by rewrite put_data_app, take_drop.
Qed.

(** The first chunk of a response: a header that ends at [hdr], with status 200
    and [size] as the length of the content, whatever the buffer held before. *)
Definition good_header (first : list Z) (hdr size : Z) : Prop :=
  0 ≤ hdr < Z.of_nat (length first) ∧ size ≠ 0 ∧
  ∀ b, Z.of_nat (length b) = MAX_BUF_LEN →
    http_process_header (overlay b 0 first) (Z.of_nat (length first)) = Some (hdr, 200) ∧
    http_file_size (overlay b 0 first) hdr = Some size.

Definition body_of (first : list Z) (hdr : Z) (rest : list (list Z)) : list Z :=
  drop (Z.to_nat (hdr + 1)) first ++ concat rest.

(** A response in one chunk with the beginning of the body. *)
Lemma response_good r size body0 : response_ok r size → Z.of_nat (length (header r ++ body0)) ≤ MAX_BUF_LEN →
  good_header (header r ++ body0) (Z.of_nat (length (header r)) - 1) size.
Proof.
  intros Hr Hlen. pose proof (ro_size _ _ Hr) as [_ ?].
  assert (0 < length (header r))%nat. { unfold header. rewrite length_app. cbn [length CRLF]. lia. }
  split; [rewrite length_app; lia|]. split; [lia|]. intros b Hb. unfold overlay. cbn [take app Nat.add Z.to_nat].
  rewrite <-app_assoc. split; [by apply process_header_ok with size|by apply file_size_ok].
Qed.

Lemma response_body r body0 rest : body_of (header r ++ body0) (Z.of_nat (length (header r)) - 1) rest = body0 ++ concat rest.
Proof. unfold body_of. rewrite Z.sub_add, Nat2Z.id. by rewrite drop_app_length. Qed.

(** An image that fits the slot, starts with the magic number and fills the flash
    buffer at least once. *)
Definition image_ok (body : list Z) : Prop :=
  4096 ≤ Z.of_nat (length body) ≤ SLOT_SIZE ∧ take 4 body = magic_bytes.

Lemma file_open_run s : file_open s = Ret (0, set_fap (Some secondary) s).
Proof. reflexivity. Qed.

Lemma http_recv_rsp_spec fuel first hdr size rest s :
  net s = first :: rest → Forall chunk_ok (first :: rest) → good_header first hdr size →
  image_ok (body_of first hdr rest) → Z.of_nat (length (body_of first hdr rest)) ≤ size →
  (length rest < fuel)%nat → img_oft s = 0 → fbuf_idx s = 0 → bytes (fl (ag_dev s)) →
  Z.of_nat (length (fbuf s)) = MAX_WRITE_BUF_LEN → Z.of_nat (length (hbuf s)) = MAX_BUF_LEN →
  ∃ s', http_recv_rsp v fuel s = Ret (0, s') ∧
    (∀ x, fl (ag_dev s') x = put_data (fl (ag_dev s)) SECONDARY_SLOT_OFFSET (body_of first hdr rest) x) ∧
    held (ag_dev s') = held (ag_dev s) ∧ same_flags s s'.
Proof.
  intros Hnet [Hc Hcs]%Forall_cons (Hhdr&Hsize&Hparse) [Hlen Hmagic] Hle Hfuel Hoft Hidx Hf Hfb Hhb.
  destruct (recv_run s first rest Hnet Hc Hhb) as (Hrun&Htake&Hhb'). pose proof Hc as [Hl1 Hb1].
  unfold http_recv_rsp. erewrite bind_Ret by exact Hrun. rewrite (proj2 (Z.leb_gt _ _)) by lia. mstep.
  cbn [set_net set_hbuf hbuf]. destruct (Hparse (hbuf s) Hhb) as [-> Es]. mstep.
  cbv beta iota. rewrite (proj2 (Z.ltb_ge hdr 0)) by lia. change (negb (200 =? 200)) with false. cbv iota.
  rewrite Es. mstep. rewrite (proj2 (Z.eqb_neq size 0)) by done. rewrite (proj2 (gtb_false hdr _)) by lia.
  erewrite bind_Ret by apply file_open_run.
  set (body0 := drop (Z.to_nat (hdr + 1)) first).
  assert (take (Z.to_nat (Z.of_nat (length first) - (hdr + 1)))
    (drop (Z.to_nat (hdr + 1)) (overlay (hbuf s) 0 first)) = body0) as ->.
  { rewrite take_drop_commute. replace (Z.to_nat (hdr + 1) + Z.to_nat (Z.of_nat (length first) - (hdr + 1)))%nat
      with (length first) by lia. by rewrite Htake. }
  set (s1 := set_fap _ _).
  assert (written (fl (ag_dev s)) (held (ag_dev s)) [] s1) as Hw0.
  { split; simpl; try done; try lia.
    - by rewrite Hidx.
    - by rewrite Hidx, Hoft.
    - intros x. by rewrite take_nil, put_data_nil. }
  destruct (file_write_spec _ _ [] body0 (concat rest) s1 Hf Hw0) as (s2&Hrun2&Hw2&Hsame).
  { unfold body0. rewrite length_drop. lia. } { simpl. apply Hlen. } { exact Hmagic. }
  { by apply Forall_drop. }
  erewrite bind_Ret by exact Hrun2. change (negb (0 =? 0)) with false. cbv iota.
  destruct Hsame as (Hh2&?&?&Hn2&?&?). simpl in *.
  destruct (recv_body_spec _ _ rest fuel body0 (Z.of_nat (length first) - (hdr + 1)) size s2 Hf Hw2)
    as (s3&Hrun3&Hw3&?&?&?&?).
  { done. } { done. } { done. } { by rewrite Hh2. }
  { unfold body_of in Hle. rewrite length_app, length_drop in Hle. lia. } { apply Hlen. } { done. }
  erewrite bind_Ret by exact Hrun3.
  destruct (file_close_spec _ _ _ s3 Hf Hw3) as (s4&Hrun4&Hx&Hh&_&?&?&_&?&?); [done|].
  exists s4. split; [done|]. split; [done|]. split; [done|]. unfold same_flags. split_and!; congruence.
Qed.

(** ** The command *)

Lemma check_slot_trailer_run s : bytes (fl (ag_dev s)) → 0 ≤ TRAILER_SIZE ≤ SLOT_SIZE →
  ∃ d, check_slot_trailer v s = Ret ((), set_dev d (set_fap (Some secondary) s)) ∧ bytes (fl d) ∧
    ∀ x, ¬ (SECONDARY_SLOT_OFFSET ≤ x < SECONDARY_SLOT_OFFSET + SLOT_SIZE) → fl d x = fl (ag_dev s) x.
Proof.
  intros Hf Ht. destruct slot_ok as (Hs1&Hs2&Hs3). simpl in *. unfold check_slot_trailer.
  erewrite bind_Ret by apply file_open_run. mstep. mstep. cbn [fa_size secondary].
  set (s1 := set_fap _ s). set (off := SLOT_SIZE - TRAILER_SIZE).
  assert (∃ data, on_dev (flash_area_read secondary off TRAILER_SIZE) s1 = Ret ((FOK, data), s1)) as [data Hread].
  { eexists. unfold on_dev, flash_area_read. simpl.
    rewrite (u32_id (off + TRAILER_SIZE)) by (unfold off, ESIZE in *; lia).
    rewrite (proj2 (gtb_false _ _)) by (unfold off; lia). unfold mbind, M_bind. simpl. by destruct s. }
  erewrite bind_Ret by exact Hread. cbn [snd]. destruct (existsb _ _).
  - destruct (area_erase_spec (e_mem v) secondary off TRAILER_SIZE (ag_dev s1)) as (r&d&Hrun&_&_&Hp&Htot).
    { done. } { unfold off. lia. } { lia. } { simpl. unfold off. lia. } { done. }
    specialize (Hp (Htot mem_ok device_ok)).
    exists d. split; [|split].
    + erewrite bind_Ret by (apply on_dev_Ret; exact Hrun). done.
    + intros x. rewrite Hp. apply put_data_bytes; [done|apply erased_bytes].
    + intros x Hx. rewrite Hp. apply put_data_out. simpl. rewrite erased_length by lia. unfold off. lia.
  - exists (ag_dev s1). split; [by destruct s|]. done.
Qed.

(** The surroundings play along: sockets, memory and the server. *)
Definition env_ok : Prop :=
  e_socket v = true ∧ e_hbuf v = true ∧ e_fbuf v = true ∧ e_connect v = 0 ∧ 0 ≤ e_send v ∧ e_wdt v = true.

(** A URL: the host, a port unless it is 80, and a path. *)
Definition url (addr : list Z) (port : option (list Z)) (path : list Z) : list Z :=
  str "http://" ++ addr ++ match port with Some p => 58 :: p | None => [] end ++ 47 :: path.
Definition port_of (port : option (list Z)) : Z := match port with Some p => decimal p | None => 80 end.

(** The host has neither a colon nor a slash, the port is a number of 16 bits, and
    the request fits its buffer. *)
Record url_ok (addr : list Z) (port : option (list Z)) (path : list Z) : Prop := {
  uo_addr : Forall (λ c, c ≠ 58 ∧ c ≠ 47) addr;
  uo_port : ∀ p, port = Some p → Forall digit p ∧ p ≠ [] ∧ decimal p < 2 ^ 16;
  uo_request : Z.of_nat (length (request addr (port_of port) path)) < MAX_BUF_LEN;
}.

Lemma split_at_app c l tl : Forall (λ x, x ≠ c) l → split_at c (l ++ c :: tl) = (l, Some tl).
Proof.
  induction 1 as [|x l Hx _ IH]; cbn [app split_at]; [by rewrite Z.eqb_refl|].
  rewrite (proj2 (Z.eqb_neq x c)) by done. by rewrite IH.
Qed.

Lemma split_at_none c l : Forall (λ x, x ≠ c) l → split_at c l = (l, None).
Proof.
  induction 1 as [|x l Hx _ IH]; cbn [split_at]; [done|]. rewrite (proj2 (Z.eqb_neq x c)) by done. by rewrite IH.
Qed.

Lemma decimal_pos ds n : Forall digit ds → 0 ≤ n → 0 ≤ foldl (λ n c, 10 * n + (c - 48)) n ds.
Proof. intros H. revert n. induction H as [|c ds Hc _ IH]; intros n Hn; [done|]. simpl. apply IH. unfold digit in Hc. lia. Qed.

Lemma url_split addr port path : url_ok addr port path → ∃ host p,
  split_at 47 (drop 7 (url addr port path)) = (host, Some path) ∧ split_at 58 host = (addr, p) ∧
  match p with Some p => u16 (atoi p) | None => 80 end = port_of port.
Proof.
  intros [Ha Hp _]. unfold url. change (drop 7 (str "http://" ++ ?l)) with l.
  exists (addr ++ match port with Some p => 58 :: p | None => [] end), port. rewrite app_assoc. split; [|split].
  - apply split_at_app, Forall_app. split; [eapply Forall_impl; [exact Ha|]; by intros ? []|].
    destruct port as [p|]; [|done]. destruct (Hp p eq_refl) as (Hd&_&_). constructor; [done|].
    eapply Forall_impl; [exact Hd|]. unfold digit. intros; lia.
  - assert (Forall (λ x, x ≠ 58) addr) by (eapply Forall_impl; [exact Ha|]; by intros ? []).
    destruct port as [p|]; [by apply split_at_app|]. rewrite app_nil_r. by apply split_at_none.
  - destruct port as [p|]; [|done]. destruct (Hp p eq_refl) as (Hd&Hn&Hlt). cbn [port_of].
    pose proof (decimal_pos p 0 Hd ltac:(done)). fold (decimal p) in *.
    pose proof (atoi_number [] p [] ltac:(done) Hd Hn ltac:(done) ltac:(lia)) as Hat. cbn [app] in Hat.
    rewrite app_nil_r in Hat. rewrite Hat. unfold u16. rewrite Z.mod_small; lia.
Qed.

Lemma get_firmware_spec fuel addr port path first hdr size rest s : env_ok →
  Z.of_nat (length (request addr port path)) < MAX_BUF_LEN →
  net s = first :: rest → Forall chunk_ok (first :: rest) → good_header first hdr size →
  image_ok (body_of first hdr rest) → Z.of_nat (length (body_of first hdr rest)) ≤ size →
  (length rest < fuel)%nat → img_oft s = 0 → fbuf_idx s = 0 → bytes (fl (ag_dev s)) →
  Z.of_nat (length (fbuf s)) = MAX_WRITE_BUF_LEN → Z.of_nat (length (hbuf s)) = MAX_BUF_LEN →
  ∃ s', get_firmware v fuel addr port path s = Ret (0, s') ∧
    (∀ x, fl (ag_dev s') x = put_data (fl (ag_dev s)) SECONDARY_SLOT_OFFSET (body_of first hdr rest) x) ∧
    pending s' = pending s ∧ expired s' = expired s.
Proof.
  intros (Hsock&Hhp&Hfp&Hconn&Hsend&_) Hreq Hnet Hcs Hhdr Himg Hsize Hfuel Hoft Hidx Hf Hfb Hhb.
  unfold get_firmware. rewrite Hsock. change (negb true) with false. cbv iota.
  set (s1 := set_hbuf (overlay (hbuf s) 0 (request addr port path ++ [0])) (set_fbuf_p PLive (set_hbuf_p PLive s))).
  destruct (http_recv_rsp_spec fuel first hdr size rest s1) as (s2&Hrun&Hx&_&Hp1&Hp2&?&?); try done.
  { unfold s1. cbn [set_hbuf hbuf]. rewrite overlay_length; rewrite ?length_app;
      change (length [0]) with 1%nat; lia. }
  assert (firmware_transfer v fuel addr port path s = Ret (0, s2)) as Ht.
  { unfold firmware_transfer. rewrite Hhp, Hfp. mstep. change (negb true) with false. cbv iota. mstep.
    unfold connect_timeout. rewrite Hconn. mstep. change (negb (0 =? 0)) with false. cbv iota.
    assert (http_send_req v addr port path (set_fbuf_p PLive (set_hbuf_p PLive s)) = Ret (e_send v, s1)) as Hs.
    { unfold http_send_req. cbv zeta. rewrite (proj2 (Z.leb_le _ _)) by lia. reflexivity. }
    erewrite bind_Ret by exact Hs. rewrite (proj2 (Z.ltb_ge _ _)) by done. exact Hrun. }
  erewrite bind_Ret by exact Ht. simpl in Hp1, Hp2.
  unfold free_hbuf, free_fbuf, mbind, M_bind. simpl. rewrite Hp2. simpl. rewrite Hp1. simpl.
  eexists. split; [reflexivity|]. simpl. done.
Qed.

Lemma agent_spec fuel argc addr port path first hdr size rest s :
  env_ok → 0 ≤ TRAILER_SIZE ≤ SLOT_SIZE → 2 ≤ argc → url_ok addr port path →
  net s = first :: rest → Forall chunk_ok (first :: rest) → good_header first hdr size →
  image_ok (body_of first hdr rest) → Z.of_nat (length (body_of first hdr rest)) ≤ size →
  (length rest < fuel)%nat → bytes (fl (ag_dev s)) →
  Z.of_nat (length (fbuf s)) = MAX_WRITE_BUF_LEN → Z.of_nat (length (hbuf s)) = MAX_BUF_LEN →
  ∃ s', do_mcuboot_agent v fuel argc (url addr port path) s = Ret (0, s') ∧ pending s' = true ∧ expired s' = true ∧
    (∀ i, 0 ≤ i < Z.of_nat (length (body_of first hdr rest)) →
       fl (ag_dev s') (SECONDARY_SLOT_OFFSET + i) = body_of first hdr rest !!! Z.to_nat i) ∧
    (∀ x, ¬ (SECONDARY_SLOT_OFFSET ≤ x < SECONDARY_SLOT_OFFSET + SLOT_SIZE) →
       fl (ag_dev s') x = fl (ag_dev s) x).
Proof.
  intros Henv Htr Hargc Hurl Hnet Hcs Hhdr Himg Hsize Hfuel Hf Hfb Hhb.
  unfold do_mcuboot_agent. rewrite (proj2 (Z.ltb_ge argc 2)) by done.
  rewrite bool_decide_true by done. change (negb true) with false. cbv iota.
  destruct (url_split _ _ _ Hurl) as (host&p&Hsplit&Hport&Hnum). rewrite Hsplit, Hport, Hnum. mstep.
  set (s0 := set_idx 0 (set_oft 0 s)).
  destruct (check_slot_trailer_run s0) as (d&Hrun0&Hfd&Hout); [done..|].
  erewrite bind_Ret by exact Hrun0.
  destruct (get_firmware_spec fuel addr (port_of port) path
    first hdr size rest (set_dev d (set_fap (Some secondary) s0))) as (s2&Hrun&Hx&Hp&He); try done.
  { apply Hurl. }
  erewrite bind_Ret by exact Hrun. change (0 <? 0) with false. cbv iota. mstep.
  destruct Henv as (_&_&_&_&_&->). mstep. eexists. split; [reflexivity|]. simpl.
  split; [done|]. split; [done|]. destruct Himg as [Hlen _]. split.
  - intros i Hi. rewrite Hx, put_data_in by lia. f_equal. lia.
  - intros x Hx'. rewrite Hx, put_data_out by lia. simpl. by apply Hout.
Qed.

(** The command on a response in bytes. *)
Lemma agent_response fuel argc addr port path r size body0 rest s :
  let image := body0 ++ concat rest in
  env_ok → 0 ≤ TRAILER_SIZE ≤ SLOT_SIZE → 2 ≤ argc → url_ok addr port path →
  net s = (header r ++ body0) :: rest → Forall chunk_ok ((header r ++ body0) :: rest) →
  response_ok r size → image_ok image → Z.of_nat (length image) ≤ size →
  (length rest < fuel)%nat → bytes (fl (ag_dev s)) →
  Z.of_nat (length (fbuf s)) = MAX_WRITE_BUF_LEN → Z.of_nat (length (hbuf s)) = MAX_BUF_LEN →
  ∃ s', do_mcuboot_agent v fuel argc (url addr port path) s = Ret (0, s') ∧ pending s' = true ∧ expired s' = true ∧
    (∀ i, 0 ≤ i < Z.of_nat (length image) → fl (ag_dev s') (SECONDARY_SLOT_OFFSET + i) = image !!! Z.to_nat i) ∧
    (∀ x, ¬ (SECONDARY_SLOT_OFFSET ≤ x < SECONDARY_SLOT_OFFSET + SLOT_SIZE) →
       fl (ag_dev s') x = fl (ag_dev s) x).
Proof.
  intros image Henv Htr Ha Hu Hnet Hcs Hr Himg Hle Hfuel Hb Hfb Hhb.
  assert (good_header (header r ++ body0) (Z.of_nat (length (header r)) - 1) size) as Hg.
  { apply response_good; [done|]. by apply Forall_cons in Hcs as [[[_ ?] _] _]. }
  pose proof (agent_spec fuel argc addr port path _ _ size rest s Henv Htr Ha Hu Hnet Hcs Hg) as H.
  rewrite response_body in H. by apply H.
Qed.

(** C33: an update ends with the image in the slot.  The command is called with a
    URL (host, port or none, path; the request fits its buffer), sockets, memory,
    flash and watchdog do not fail, and the server sends a response: a status line
    with 200, header lines of 2 to 255 characters, the first of them that starts
    with Content-Length: (in this spelling) with the length of the image in decimal and blanks (15 characters at most), an
    empty line, all of that in what the first recv returns, and then the image,
    complete, in pieces of any sizes up to the buffer.  The image has at least
    4096 bytes, starts with the magic number and fits the slot.  Then the header is
    understood, the command writes exactly the image to the secondary slot (every
    byte, through the 4096-byte buffer and the block-wise flash), changes nothing
    outside the slot, marks the image for the boot loader and restarts. *)
Theorem mcuboot_update_exact fuel argc addr port path r body0 rest s :
  let image := body0 ++ concat rest in
  env_ok → 0 ≤ TRAILER_SIZE ≤ SLOT_SIZE → 2 ≤ argc → url_ok addr port path →
  net s = (header r ++ body0) :: rest → Forall chunk_ok ((header r ++ body0) :: rest) →
  response_ok r (Z.of_nat (length image)) → image_ok image →
  (length rest < fuel)%nat → bytes (fl (ag_dev s)) →
  Z.of_nat (length (fbuf s)) = MAX_WRITE_BUF_LEN → Z.of_nat (length (hbuf s)) = MAX_BUF_LEN →
  ∃ s', do_mcuboot_agent v fuel argc (url addr port path) s = Ret (0, s') ∧ pending s' = true ∧ expired s' = true ∧
    (∀ i, 0 ≤ i < Z.of_nat (length image) → fl (ag_dev s') (SECONDARY_SLOT_OFFSET + i) = image !!! Z.to_nat i) ∧
    (∀ x, ¬ (SECONDARY_SLOT_OFFSET ≤ x < SECONDARY_SLOT_OFFSET + SLOT_SIZE) →
       fl (ag_dev s') x = fl (ag_dev s) x).
Proof. intros image Henv Htr Ha Hu Hnet Hcs Hr Himg Hfuel Hb Hfb Hhb. by eapply agent_response. Qed.

(** A download that breaks off is taken for a success.  When the connection
    ends before the announced number of bytes, after at least one block with a
    valid magic number, the loop just stops: the command returns 0 and marks
    the incomplete image for the boot loader. *)
Theorem mcuboot_truncated_accepted fuel argc addr port path r size body0 rest s :
  let image := body0 ++ concat rest in
  env_ok → 0 ≤ TRAILER_SIZE ≤ SLOT_SIZE → 2 ≤ argc → url_ok addr port path →
  net s = (header r ++ body0) :: rest → Forall chunk_ok ((header r ++ body0) :: rest) →
  response_ok r size → image_ok image → Z.of_nat (length image) < size →
  (length rest < fuel)%nat → bytes (fl (ag_dev s)) →
  Z.of_nat (length (fbuf s)) = MAX_WRITE_BUF_LEN → Z.of_nat (length (hbuf s)) = MAX_BUF_LEN →
  ∃ s', do_mcuboot_agent v fuel argc (url addr port path) s = Ret (0, s') ∧ pending s' = true ∧ expired s' = true.
Proof.
  intros image Henv Htr Ha Hu Hnet Hcs Hr Himg Hlt Hfuel Hb Hfb Hhb.
  destruct (agent_response fuel argc addr port path r size body0 rest s) as (s'&?&?&?&_); try done; [by apply Z.lt_le_incl|by exists s'].
Qed.

End Theorems.

(** ** Witnesses *)

Module Demo.

#[local] Existing Instance FlashMapTheorems.Demo.nor.
#[local] Existing Instance FlashMapTheorems.Demo.nor_laws.

#[local] Instance layout : FlashLayout := {|
  PRIMARY_SLOT_OFFSET := 0x80080000; SECONDARY_SLOT_OFFSET := 0x80220000; SLOT_SIZE := 0x1a0000;
  SCRATCH_OFFSET := 0x80010000; SCRATCH_SIZE := 0x1000 |}.

#[local] Instance aenv : AgentEnv := {| TRAILER_SIZE := 40; TRAILER_MAGIC_OFF := 24; inet_ntoa a := a |}.

Definition venv : env := Env true true true true 0 100 true.

Definition resp (size : string) : response :=
  Response (str "/1.1") (str "OK") [str "Server: test"] (str " ") (str size) [] [str "Connection: close"].

(** An image of 5000 bytes in four pieces. *)
Definition piece0 : list Z := magic_bytes ++ replicate 96 1.
Definition pieces : list (list Z) := [replicate 2048 2; replicate 2048 3; replicate 804 4].
Definition start (size : string) : agent :=
  Agent FlashMapTheorems.Demo.s_old None 0 0 (replicate 4096 0) (replicate 2048 0) PNull PNull
    ((header (resp size) ++ piece0) :: pieces) false false.

Lemma slot_fits : area_ok secondary.
Proof. unfold area_ok, inside, ESIZE. simpl. lia. Qed.

Lemma demo_url : url_ok (str "10.0.0.1") (Some (str "8000")) (str "fw.bin").
Proof.
  split; [by repeat (constructor; [done|])| |by vm_compute].
  intros p [= <-]. split; [by repeat (constructor; [by unfold digit|])|done].
Qed.

Lemma bytes_chunk c : (length c <=? 2048)%nat = true → negb (length c =? 0)%nat = true →
  forallb (λ x, (0 <=? x) && (x <? 256)) c = true → chunk_ok c.
Proof.
  intros H1%Nat.leb_le H2%negb_true_iff%Nat.eqb_neq H3. split; [unfold MAX_BUF_LEN; lia|].
  apply Forall_forall. intros x Hx. rewrite forallb_forall in H3.
  apply list_elem_of_In in Hx. specialize (H3 x Hx). unfold byte. lia.
Qed.

Lemma chunks_ok size : chunk_ok (header (resp size) ++ piece0) → Forall chunk_ok ((header (resp size) ++ piece0) :: pieces).
Proof.
  intros H. apply Forall_cons. split; [done|].
  assert (∀ n x, (0 < n ≤ 2048)%nat → byte x → chunk_ok (replicate n x)) as Hr.
  { intros n x Hn Hx. split; [rewrite length_replicate; unfold MAX_BUF_LEN; lia|by apply Forall_replicate]. }
  unfold pieces. repeat (apply Forall_cons; split; [apply Hr; unfold byte; lia|]). apply Forall_nil_2.
Qed.

Lemma piece_body : Z.of_nat (length (piece0 ++ concat pieces)) = 5000 ∧ image_ok (piece0 ++ concat pieces).
Proof. split; [reflexivity|]. split; [by vm_compute|reflexivity]. Qed.

Lemma line_dec l : forallb (λ c, negb (c =? CR) && negb (c =? LF)) l && (2 <=? length l)%nat && (length l <=? 255)%nat = true → line_ok l.
Proof.
  intros [[H1 H2%Nat.leb_le]%andb_true_iff H3%Nat.leb_le]%andb_true_iff. split; [|lia].
  apply Forall_forall. intros x Hx%list_elem_of_In. rewrite forallb_forall in H1. specialize (H1 x Hx).
  apply andb_true_iff in H1 as [?%negb_true_iff%Z.eqb_neq ?%negb_true_iff%Z.eqb_neq]. done.
Qed.

Lemma resp_ok (size : string) n : Forall digit (str size) → str size ≠ [] → (length (str size) ≤ 14)%nat → decimal (str size) = n → 0 < n < 2 ^ 31 →
  response_ok (resp size) n.
Proof.
  intros Hd Hne Hlen Hn Hr. split; try done.
  - by repeat (constructor; [done|]).
  - by apply line_dec.
  - constructor; [|constructor]. split; [by apply line_dec|]. by intros [k Hk].
  - constructor; [|constructor]. by apply line_dec.
  - constructor; [by left|constructor].
  - cbn [resp pad number pad_end]. rewrite !length_app. change (length (str " ")) with 1%nat. cbn [length]. lia.
Qed.

Lemma resp_5000 : response_ok (resp "5000") (Z.of_nat (length (piece0 ++ concat pieces))).
Proof. rewrite (proj1 piece_body). apply resp_ok; [by repeat (constructor; [by unfold digit|])|done|simpl; lia|done|done]. Qed.

Lemma mcuboot_update_exact_witness :
  ∃ s', do_mcuboot_agent venv 10 2 (str "http://10.0.0.1:8000/fw.bin") (start "5000") = Ret (0, s') ∧ pending s' = true ∧ expired s' = true ∧
    (∀ i, 0 ≤ i < Z.of_nat (length (piece0 ++ concat pieces)) →
       fl (ag_dev s') (0x80220000 + i) = (piece0 ++ concat pieces) !!! Z.to_nat i) ∧
    (∀ x, ¬ (0x80220000 ≤ x < 0x80220000 + 0x1a0000) → fl (ag_dev s') x = x mod 256).
Proof.
  apply (mcuboot_update_exact (FL:=layout) (AE:=aenv) venv slot_fits eq_refl FlashMapTheorems.Demo.nor_never_fails
    10 2 (str "10.0.0.1") (Some (str "8000")) (str "fw.bin") (resp "5000") piece0 pieces (start "5000")).
  - unfold env_ok. simpl. split_and!; done || lia.
  - simpl. lia.
  - lia.
  - exact demo_url.
  - reflexivity.
  - apply chunks_ok. apply bytes_chunk; by vm_compute.
  - exact resp_5000.
  - exact (proj2 piece_body).
  - simpl. lia.
  - apply FlashMapTheorems.Demo.s_old_bytes.
  - reflexivity.
  - reflexivity.
Defined.

(** 9000 bytes announced, 5000 received. *)
Lemma mcuboot_truncated_accepted_witness :
  ∃ s', do_mcuboot_agent venv 10 2 (str "http://10.0.0.1:8000/fw.bin") (start "9000") = Ret (0, s') ∧ pending s' = true ∧ expired s' = true.
Proof.
  apply (mcuboot_truncated_accepted (FL:=layout) (AE:=aenv) venv slot_fits eq_refl FlashMapTheorems.Demo.nor_never_fails
    10 2 (str "10.0.0.1") (Some (str "8000")) (str "fw.bin") (resp "9000") 9000 piece0 pieces (start "9000")).
  - unfold env_ok. simpl. split_and!; done || lia.
  - simpl. lia.
  - lia.
  - exact demo_url.
  - reflexivity.
  - apply chunks_ok. apply bytes_chunk; by vm_compute.
  - apply resp_ok; [by repeat (constructor; [by unfold digit|])|done|simpl; lia|done|done].
  - exact (proj2 piece_body).
  - rewrite (proj1 piece_body). lia.
  - simpl. lia.
  - apply FlashMapTheorems.Demo.s_old_bytes.
  - reflexivity.
  - reflexivity.
Defined.

End Demo.
