(* ===== verification/SpiFlashMap.v ===== *)
(** * The flash map on the SPI flash driver

    The flash map and the update agent are proved against the interface
    [NorFlash].  Here the SDK's driver ([SpiFlash]) with a chip that keeps its
    data sheet ([NorChip]) discharges that interface, so that what was shown of
    the clients holds of the bytes in the chip. *)

From Stdlib Require Import String.
From stdpp Require Import base tactics numbers list gmap.
From S2P Require Import Prelude SpiFlash SpiFlashTheorems FlashMap FlashMapTheorems McubootAgent McubootHttp McubootAgentTheorems.

Section SpiNor.
Context {SB : SpiBus} {NC : NorChip}.
Context (F : spi_flash) (pf : nat) (ptr : Z).

(** The chip between two calls of the driver: no operation in progress. *)
Definition idle_chip : Type := {h : hw | ready h}.

#[global] Instance ready_dec h : Decision (ready h).
Proof. unfold ready. apply _. Defined.

(** A call of the driver on the chip; one that does not come back, or comes
    back with the chip at work, counts as a failure without effect. *)
Definition call (m : M spi Z) (d : idle_chip) : Z * idle_chip :=
  match m (Spi (`d) F) with
  | Ret (r, s) => match decide (ready (bus s)) with left H => (r, exist _ (bus s) H) | right _ => (-1, d) end
  | _ => (-1, d)
  end.

(** The memory as the processor sees it; [ptr] is where the callers' buffers are. *)
Definition spi_nor : NorFlash := {|
  nor_base := mem_base F;
  nor_end := mem_base F + sf_size F;
  device := idle_chip;
  FlashMap.cells d x := SpiFlashTheorems.cells (`d) (x - mem_base F);
  nor_write a data := call (flash_write pf a ptr data);
  nor_erase a n := call (flash_erase (S (Z.to_nat n)) pf a n 0);
|}.

Lemma call_Ret m (d : idle_chip) r h : m (Spi (`d) F) = Ret (r, Spi h F) → ready h →
  ∃ d', call m d = (r, d') ∧ `d' = h.
Proof.
  intros Hm Hr. unfold call. rewrite Hm. simpl. destruct (decide (ready h)) as [H|]; [|done]. by eexists.
Qed.

(** What the clients need of a configuration: blocks of the flash map are
    units that every region can erase, whole pages, and tile the memory. *)
Record suits_map : Prop := {
  sm_geometry : geometry F;
  sm_polls : polls F pf;
  sm_unit : unit_size F ESIZE;
  sm_page : ESIZE mod page_size F = 0;
  sm_base : mem_base F mod ESIZE = 0;
  sm_size : sf_size F mod ESIZE = 0;
  sm_buf : buf_ok F ptr;
}.

Context (Hsm : suits_map).

(** A block is on the memory, at an offset that is a multiple of its size, or
    the driver does not find it. *)
Lemma block_offset a : a mod ESIZE = 0 → spi_flash_find_by_addr F a = true →
  0 ≤ a - mem_base F ∧ a - mem_base F + ESIZE ≤ sf_size F ∧ (a - mem_base F) mod ESIZE = 0 ∧
  u32 (a - mem_base F) = a - mem_base F.
Proof.
  intros Ha Hf. destruct Hsm as [Hg _ _ _ Hb Hs _]. pose proof (g_size F Hg).
  unfold spi_flash_find_by_addr in Hf. rewrite Z.gtb_ltb in Hf. apply andb_true_iff in Hf as [?%Z.leb_le ?%Z.ltb_lt].
  apply Z.mod_divide in Ha as [i Hi], Hb as [j Hj], Hs as [k Hk]; [|done..].
  split; [lia|]. split; [|split].
  - assert (i - j < k) by (unfold ESIZE in *; nia). unfold ESIZE in *. nia.
  - rewrite Hi, Hj, <-Z.mul_sub_distr_r. by rewrite Z.mod_mul.
  - apply u32_id. lia.
Qed.

Lemma find_inside a : nor_base (NorFlash:=spi_nor) ≤ a → a + ESIZE ≤ nor_end (NorFlash:=spi_nor) →
  spi_flash_find_by_addr F a = true.
Proof.
  simpl. intros H1 H2. unfold spi_flash_find_by_addr. rewrite Z.gtb_ltb. unfold ESIZE in *.
  apply andb_true_iff. split; [by apply Z.leb_le|apply Z.ltb_lt; lia].
Qed.

(** Programming one block. *)
Lemma call_write a data (d : idle_chip) : a mod ESIZE = 0 → Z.of_nat (length data) = ESIZE →
  spi_flash_find_by_addr F a = true →
  ∃ d', call (flash_write pf a ptr data) d = (ESIZE, d') ∧
    ∀ x, SpiFlashTheorems.cells (`d') x = burned (SpiFlashTheorems.cells (`d)) (a - mem_base F) data x.
Proof.
  intros Ha Hlen Hf. destruct (block_offset a Ha Hf) as (Hoff&Hend&Hmod&Hu). destruct Hsm as [Hg Hp _ Hpg _ _ Hbuf].
  destruct (g_page F Hg) as (Hpage&k&Hk&Hpow).
  assert (0 < page_size F) by (rewrite Hpage, Hpow; apply Z.pow_pos_nonneg; lia).
  destruct (spi_write_run pf (a - mem_base F) ptr data (`d) F) as (h&Hrun&Hx&Hr); [done..| |lia|lia|exact (proj2_sig d)|].
  { apply Z.mod_divide in Hmod, Hpg; [|done || lia..]. apply Z.mod_divide; [lia|]. by etransitivity. }
  destruct (call_Ret (flash_write pf a ptr data) d ESIZE h) as (d'&Hc&<-); [|done|by exists d'].
  unfold flash_write, mbind, M_bind. simpl. rewrite Hf, Hu, Hrun, Hlen. done.
Qed.

(** Erasing one block. *)
Lemma call_erase a (d : idle_chip) : a mod ESIZE = 0 → spi_flash_find_by_addr F a = true →
  ∃ d', call (flash_erase (S (Z.to_nat ESIZE)) pf a ESIZE 0) d = (0, d') ∧
    ∀ x, SpiFlashTheorems.cells (`d') x = wiped (SpiFlashTheorems.cells (`d)) (a - mem_base F) ESIZE x.
Proof.
  intros Ha Hf. destruct (block_offset a Ha Hf) as (Hoff&Hend&Hmod&Hu). destruct Hsm as [Hg Hp Hun _ _ _ _].
  destruct (spi_erase_run (S (Z.to_nat ESIZE)) pf (a - mem_base F) ESIZE (`d) F) as (r&h&Hrun&Hr&Hres&Hok);
    [done|done|done|done|done|unfold ESIZE; lia|exact (proj2_sig d)|].
  specialize (Hok ESIZE Hun Hmod eq_refl) as ->. destruct Hres as [[_ Hx]|[? _]]; [|done].
  destruct (call_Ret (flash_erase (S (Z.to_nat ESIZE)) pf a ESIZE 0) d 0 h) as (d'&Hc&<-); [|done|by exists d'].
  unfold flash_erase, mbind, M_bind, get. cbn [SpiFlash.flash]. rewrite Hf, Hu. exact Hrun.
Qed.

(** A block that is not on the memory is refused. *)
Lemma call_missing m (d : idle_chip) : m (Spi (`d) F) = Ret (- ENODEV, Spi (`d) F) → (call m d).1 < 0.
Proof. intros Hm. by destruct (call_Ret m d (- ENODEV) (`d) Hm (proj2_sig d)) as (d'&->&_). Qed.

Lemma shift_within a n x : (a - mem_base F <=? x - mem_base F) && (x - mem_base F <? a - mem_base F + n) =
  (a <=? x) && (x <? a + n).
Proof. f_equal; apply eq_true_iff_eq; rewrite ?Z.leb_le, ?Z.ltb_lt; lia. Qed.

(** The driver keeps the promises that the flash map relies on. *)
Lemma spi_nor_laws : NorFlashLaws spi_nor.
Proof.
  split.
  - destruct Hsm as [_ _ _ _ Hb Hs _]. simpl. split; [done|]. by rewrite <-Z.add_mod_idemp_l, Hb.
  - intros a data d Ha Hlen Hret x. simpl in *. destruct (spi_flash_find_by_addr F a) eqn:Hf.
    + destruct (call_write a data d Ha Hlen Hf) as (d'&->&Hx). simpl. rewrite Hx. unfold burned, SpiFlashTheorems.within.
      rewrite Hlen, shift_within. case_match; [|done]. do 2 f_equal. lia.
    + exfalso. apply Zle_not_lt in Hret. apply Hret, call_missing.
      unfold flash_write, mbind, M_bind, get. cbn [SpiFlash.flash]. by rewrite Hf.
  - intros a d Ha Hret x. simpl in *. destruct (spi_flash_find_by_addr F a) eqn:Hf.
    + destruct (call_erase a d Ha Hf) as (d'&Hc&Hx).
      replace (call _ d) with (0, d') by (symmetry; exact Hc). simpl. rewrite Hx. unfold wiped. by rewrite shift_within.
    + exfalso. apply Zle_not_lt in Hret. apply Hret, call_missing.
      unfold flash_erase, mbind, M_bind, get. cbn [SpiFlash.flash]. by rewrite Hf.
Qed.

Lemma spi_nor_never_fails : never_fails (NF:=spi_nor).
Proof.
  split.
  - intros a data d Ha [H1 H2] Hlen _. destruct (call_write a data d Ha Hlen) as (d'&Hc&_); [by apply find_inside|].
    simpl. by rewrite Hc.
  - intros a d Ha [H1 H2]. destruct (call_erase a d Ha) as (d'&Hc&_); [by apply find_inside|].
    change (nor_erase a ESIZE d) with (call (flash_erase (S (Z.to_nat ESIZE)) pf a ESIZE 0) d). by rewrite Hc.
Qed.

End SpiNor.

(** ** Properties *)

Section Update.
Context {SB : SpiBus} {NC : NorChip} {FL : FlashLayout} {AE : AgentEnv}.
Context (F : spi_flash) (pf : nat) (ptr : Z) (v : env).

(** What the chip holds, by its own addresses. *)
Definition chip_cells (s : @agent (spi_nor F pf ptr)) : Z → Z :=
  let d : idle_chip := chip (ag_dev s) in SpiFlashTheorems.cells (`d).

(** C39: an update over HTTP ends with the image in the SPI flash chip.  The
    agent, the flash map and the SPI driver put together, for any chip that keeps
    its data sheet and any table of regions that lets 4096-byte blocks be erased,
    under the conditions on the URL, the response and the image of C33: the server
    sends a header with status 200 and the length of the image in what the first
    recv returns, and the complete image, of at least 4096 bytes and with the
    magic number at its start; sockets, memory and watchdog do not fail.  Then the
    command downloads the image, and every byte of it is at its place in the
    chip's secondary slot, through the agent's buffer, the flash map's blocks, the
    driver's pages and the controller's transactions; no byte of the chip outside
    the slot has changed. *)
Theorem spi_update_exact fuel argc addr port path r body0 rest (s : @agent (spi_nor F pf ptr)) :
  let image := body0 ++ concat rest in
  suits_map F pf ptr → mem_base F + sf_size F + ESIZE ≤ 2 ^ 32 →
  mem_base F ≤ SECONDARY_SLOT_OFFSET → SECONDARY_SLOT_OFFSET + SLOT_SIZE ≤ mem_base F + sf_size F →
  0 ≤ TRAILER_SIZE ≤ SLOT_SIZE → env_ok v → e_mem v = true → 2 ≤ argc → url_ok addr port path →
  net s = (header r ++ body0) :: rest → Forall chunk_ok ((header r ++ body0) :: rest) →
  response_ok r (Z.of_nat (length image)) → image_ok image →
  (length rest < fuel)%nat → (∀ x, 0 ≤ chip_cells s x < 256) →
  Z.of_nat (length (fbuf s)) = MAX_WRITE_BUF_LEN → Z.of_nat (length (hbuf s)) = MAX_BUF_LEN →
  let slot := SECONDARY_SLOT_OFFSET - mem_base F in
  ∃ s', do_mcuboot_agent v fuel argc (url addr port path) s = Ret (0, s') ∧ pending s' = true ∧ expired s' = true ∧
    (∀ i, 0 ≤ i < Z.of_nat (length image) → chip_cells s' (slot + i) = image !!! Z.to_nat i) ∧
    (∀ x, ¬ (slot ≤ x < slot + SLOT_SIZE) → chip_cells s' x = chip_cells s x).
Proof.
  intros image Hsm Hend Hlo Hhi Htr Henv Hmem Hargc Hurl Hnet Hcs Hhdr Himg Hfuel Hb Hfb Hhb slot.
  pose proof (spi_nor_laws F pf ptr Hsm) as Hlaws.
  pose proof (spi_nor_never_fails F pf ptr Hsm) as Hnf.
  pose proof (g_base F (sm_geometry _ _ _ Hsm)).
  destruct (agent_response (NF:=spi_nor F pf ptr) v) with (fuel := fuel) (argc := argc) (addr := addr) (port := port)
    (path := path) (r := r) (body0 := body0) (rest := rest) (s := s)
    (size := Z.of_nat (length image)) as (s'&Hrun&Hp&He&Hin&Hout); try done.
  - unfold area_ok, inside. simpl. lia.
  - intros x. apply Hb.
  - exists s'. split; [done|]. split; [done|]. split; [done|]. split.
    + intros i Hi. etransitivity; [|exact (Hin i Hi)]. unfold chip_cells, fl. simpl. f_equal. unfold slot. lia.
    + intros x Hx. specialize (Hout (x + mem_base F)). unfold fl in Hout. simpl in Hout.
      rewrite !Z.add_simpl_r in Hout. apply Hout. unfold slot in Hx. lia.
Qed.

End Update.

(** ** Witness *)

Module Demo.
Import SpiFlashTheorems.Demo McubootAgentTheorems.Demo.

#[local] Existing Instance McubootAgentTheorems.Demo.layout.
#[local] Existing Instance McubootAgentTheorems.Demo.aenv.
#[local] Existing Instance SpiFlashTheorems.Demo.sim_bus.
#[local] Existing Instance SpiFlashTheorems.Demo.sim_chip.

Lemma dev_suits : suits_map dev 200 0x10000000.
Proof.
  split; [exact dev_geometry|exact dev_polls|exact dev_unit|done|done|done|]. left. simpl. lia.
Qed.

Lemma idle_ready : ready idle.
Proof. unfold ready. simpl. lia. Qed.

Definition spi_start : @agent (spi_nor dev 200 0x10000000) :=
  @Agent (spi_nor dev 200 0x10000000) (@Dev (spi_nor dev 200 0x10000000) (exist _ idle idle_ready) 0)
    None 0 0 (replicate 4096 0) (replicate 2048 0) PNull PNull ((header (resp "5000"%string) ++ piece0) :: pieces) false false.

Lemma spi_update_exact_witness :
  ∃ s', do_mcuboot_agent venv 10 2 (str "http://10.0.0.1:8000/fw.bin") spi_start = Ret (0, s') ∧
    (∀ i, 0 ≤ i < 5000 → chip_cells dev 200 0x10000000 s' (0x220000 + i) = (piece0 ++ concat pieces) !!! Z.to_nat i) ∧
    chip_cells dev 200 0x10000000 s' 0x21ffff = 0xff.
Proof.
  destruct (spi_update_exact (FL:=layout) (AE:=aenv) dev 200 0x10000000 venv
    10 2 (str "10.0.0.1") (Some (str "8000")) (str "fw.bin") (resp "5000"%string) piece0 pieces spi_start) as (s'&Hrun&_&_&Hin&Hout).
  - exact dev_suits.
  - simpl. unfold ESIZE. lia.
  - simpl. lia.
  - simpl. lia.
  - simpl. lia.
  - unfold env_ok. simpl. split_and!; done || lia.
  - reflexivity.
  - lia.
  - exact demo_url.
  - reflexivity.
  - apply chunks_ok. apply bytes_chunk; by vm_compute.
  - exact resp_5000.
  - exact (proj2 piece_body).
  - simpl. lia.
  - intros x. apply Z.mod_pos_bound. lia.
  - reflexivity.
  - reflexivity.
  - exists s'. split; [exact Hrun|]. split.
    + intros i Hi. apply Hin. rewrite (proj1 piece_body). exact Hi.
    + rewrite Hout; [reflexivity|]. simpl. lia.
Defined.

End Demo.
