(* ===== verification/SpiProbe.v ===== *)
(** * Probing the flash: src/hal/drivers/spi-flash/spi-flash.c

    What the driver knows of a memory comes from tables in the memory itself:
    the serial flash discoverable parameters (SFDP, JESD216).  This file models
    reading and parsing them, the identification by vendor with the eight vendor
    drivers, the uniform map that is made up when there is no sector map, and
    the choice of the fast read command with the switch of the memory to four
    lines.

    A vendor driver supplies hooks; of these, the model has [quadio], which
    probing itself calls.  The drivers for XTX and SST also replace the
    descriptor by an entry of a table of their own when there is no sector map.
    [lock], [unlock] and the writing of SST memories without pages
    ([sst_aai_wp]) are not part of [spi_flash], nor are the name and
    [erase_4KB_op], which nothing reads. *)

From stdpp Require Import base tactics numbers list gmap.
From S2P Require Import Prelude SpiFlash.

Definition SPI_FLASH_OP_RDSFDP : Z := 0x5a.
Definition SPI_FLASH_OP_RDID : Z := 0x9f.
Definition SPI_FLASH_OP_RDCR : Z := 0x35.
Definition SPI_FLASH_OP_WRSR : Z := 0x01.
Definition SPI_FLASH_OP_RDSR_H : Z := Z.lor SPI_FLASH_OP_RDSR 0x30.
Definition SPI_FLASH_OP_WRSR_H : Z := Z.lor SPI_FLASH_OP_WRSR 0x30.
Definition SPI_FLASH_MAX_ID_LEN : Z := 6.
Definition ENOMEM : Z := 12.

Definition bfield_w (v pos width : Z) : Z := Z.land (Z.shiftr v pos) (2 ^ width - 1).
Definition bfield_r (v e st : Z) : Z := bfield_w v st (e - st + 1).

(** ** Fields of the descriptor *)

Definition set_size (n : Z) (f : spi_flash) : spi_flash :=
  SpiFlash (mem_base f) n (fast_read f) (cur_fast_read f) (erase_info f) (region f) (page_size f) (pp_timeout f) (partition f).
Definition set_fast_read (l : list fast_read_cmd) (f : spi_flash) : spi_flash :=
  SpiFlash (mem_base f) (sf_size f) l (cur_fast_read f) (erase_info f) (region f) (page_size f) (pp_timeout f) (partition f).
Definition set_cur_fast_read (c : option fast_read_cmd) (f : spi_flash) : spi_flash :=
  SpiFlash (mem_base f) (sf_size f) (fast_read f) c (erase_info f) (region f) (page_size f) (pp_timeout f) (partition f).
Definition set_erase_info (l : list erase_method) (f : spi_flash) : spi_flash :=
  SpiFlash (mem_base f) (sf_size f) (fast_read f) (cur_fast_read f) l (region f) (page_size f) (pp_timeout f) (partition f).
Definition set_region (l : list erase_region) (f : spi_flash) : spi_flash :=
  SpiFlash (mem_base f) (sf_size f) (fast_read f) (cur_fast_read f) (erase_info f) l (page_size f) (pp_timeout f) (partition f).
Definition set_page (n t : Z) (f : spi_flash) : spi_flash :=
  SpiFlash (mem_base f) (sf_size f) (fast_read f) (cur_fast_read f) (erase_info f) (region f) n t (partition f).

(** ** The vendors *)

(** The drivers; the configurations of the SDK compile GT25 and GD25 in. *)
Inductive vendor := GD25 | GT25 | P25Q | S25FL | SST | XMC | XTX | ZB25.

(** The numbers of a driver: an array of four, filled up with zeros. *)
Definition vid (v : vendor) : list Z :=
  match v with
  | GD25 => [0xc8; 0; 0; 0]
  | GT25 => [0xc4; 0; 0; 0]
  | P25Q => [0x85; 0; 0; 0]
  | S25FL => [0x01; 0; 0; 0]
  | SST => [0xbf; 0x62; 0; 0]
  | XMC => [0x20; 0; 0; 0]
  | XTX => [0x0b; 0; 0; 0]
  | ZB25 => [0x5e; 0; 0; 0]
  end.

(** An entry of the table of a driver; the methods and regions up to the first
    of size 0. *)
Record spi_flash_info := Info {
  in_id : list Z; in_method : list erase_method; in_region : list erase_region; in_page : Z }.

Definition KiB : Z := 1024.
Definition erase_4_32_64 : list erase_method :=
  [EraseMethod (4 * KiB) 0x20 0; EraseMethod (32 * KiB) 0x52 0; EraseMethod (64 * KiB) 0xd8 0].
Definition sst_erase_4_64 : list erase_method := [EraseMethod (4 * KiB) 0x20 0; EraseMethod (64 * KiB) 0xd8 0].

Definition xtx2xxxx : list spi_flash_info :=
  [Info [0x0b; 0x40; 0x14] erase_4_32_64 [EraseRegion 0 0 (1024 * KiB) 7] 256].

Definition sst2xxxx : list spi_flash_info :=
  [Info [0xbf; 0x25; 0x8d] erase_4_32_64 [EraseRegion 0 0 (512 * KiB) 7] 0;
   Info [0xbf; 0x25; 0x8e] erase_4_32_64 [EraseRegion 0 0 (1024 * KiB) 7] 0;
   Info [0xbf; 0x25; 0x41] erase_4_32_64 [EraseRegion 0 0 (2048 * KiB) 7] 0;
   Info [0x62; 0x16; 0x13] sst_erase_4_64 [EraseRegion 0 0 (512 * KiB) 3] 256].

(** ** Words of a table *)

(** The 32-bit words in a buffer of bytes. *)
Fixpoint words (buf : list Z) : list Z :=
  match buf with
  | a :: b :: c :: d :: buf => (a + b * 2 ^ 8 + c * 2 ^ 16 + d * 2 ^ 24) :: words buf
  | _ => []
  end.

(** ** The basic table *)

(** One of the entries of [fast_read]: [j] is the next free one. *)
Definition add_fast_read (supported : bool) (v address data : Z) (st : nat * list fast_read_cmd) : nat * list fast_read_cmd :=
  let '(j, l) := st in
  if supported && negb (bfield_r v 15 8 =? 0)
  then (S j, <[j := FastRead (bfield_r v 15 8) address data (bfield_r v 7 5) (bfield_r v 4 0)]> l)
  else st.

(** The two loops over the fast read commands, the fastest first: the quad
    commands are in word [dq] and the dual ones in word [dd]. *)
Definition fast_reads (d1 dq dd : Z) (l : list fast_read_cmd) : list fast_read_cmd :=
  let st := add_fast_read (bfield_r d1 21 21 =? 1) (bfield_w dq 0 16) 4 4 (0%nat, l) in
  let st := add_fast_read (bfield_r d1 22 22 =? 1) (bfield_w dq 16 16) 1 4 st in
  let st := add_fast_read (bfield_r d1 20 20 =? 1) (bfield_w dd 16 16) 2 2 st in
  (add_fast_read (bfield_r d1 16 16 =? 1) (bfield_w dd 0 16) 1 2 st).2.

(** One erase type, from its half word: none when the size is 0; shifting an
    int by more than 31 is undefined. *)
Definition erase_type (v timeout : Z) (m : erase_method) : option erase_method :=
  if bfield_r v 7 0 =? 0 then Some m else
  if bfield_r v 7 0 <? 32 then Some (EraseMethod (u32 (Z.shiftl 1 (bfield_r v 7 0))) (bfield_r v 15 8) timeout)
  else None.

(** The loop over the four erase types. *)
Definition erase_types (d8 d9 : Z) (timeout : Z → Z) (l : list erase_method) : option (list erase_method) :=
  match l with
  | [m0; m1; m2; m3] =>
      m0 ← erase_type (bfield_w d8 0 16) (timeout 0) m0;
      m1 ← erase_type (bfield_w d8 16 16) (timeout 1) m1;
      m2 ← erase_type (bfield_w d9 0 16) (timeout 2) m2;
      m3 ← erase_type (bfield_w d9 16 16) (timeout 3) m3;
      Some [m0; m1; m2; m3]
  | _ => None
  end.

(** The maximal time of erase type [i], in microseconds. *)
Definition erase_type_timeout (d10 i : Z) : Z :=
  let v := bfield_w d10 (4 + i * 7) 7 in
  let unit := match bfield_w v 5 2 with 0 => 1 | 1 => 16 | 2 => 256 | _ => 1000 end in
  u32 ((bfield_w v 0 5 + 1) * unit * ((1 + bfield_w d10 0 4) * 2) * 1000).

Section Probe.
Context {SB : SpiBus}.

Definition modify_flash (g : spi_flash → spi_flash) : M spi unit := modify (λ s, set_flash (g (flash s)) s).

(** The word with number [i], counted from [first]; outside the buffer the
    access is undefined. *)
Definition dword (first : nat) (buf : list Z) (i : nat) : M spi Z :=
  if (i <? first)%nat then fault else lift_opt (words buf !! (i - first)%nat).

Definition spi_flash_read_sfdp (pf : nat) (addr size : Z) : M spi (Z * list Z) :=
  r ← atcspi200_cmd_read_compact pf (spi_flash_addr SPI_FLASH_OP_RDSFDP addr) 1 size;
  mret (if r.1 <? 0 then r.1 else size, r.2).

(** The size in bytes.  With bit 31 set the code shifts an int by a number that
    still has bit 31, since the mask 0x7ffffffff is one digit too long. *)
Definition density (d2 : Z) : M spi Z :=
  if bfield_r d2 31 31 =? 0 then mret (u32 (d2 + 1) / 8) else fault.

Definition sfdp_parse_basic (buf : list Z) : M spi Z :=
  d1 ← dword 1 buf 1;
  d2 ← dword 1 buf 2;
  size ← density d2;
  modify_flash (set_size size);;
  d3 ← dword 1 buf 3;
  d4 ← dword 1 buf 4;
  s ← get;
  modify_flash (set_fast_read (fast_reads d1 d3 d4 (fast_read (flash s))));;
  d8 ← dword 1 buf 8;
  d9 ← dword 1 buf 9;
  l ← lift_opt (erase_types d8 d9 (λ _, 1000 * 1000) (erase_info (flash s)));
  modify_flash (set_erase_info l);;
  mret 0.

(** The dual commands are taken from word 3 as well. *)
Definition sfdp_parse_basic_216B (buf : list Z) : M spi Z :=
  d1 ← dword 1 buf 1;
  d2 ← dword 1 buf 2;
  size ← density d2;
  modify_flash (set_size size);;
  d3 ← dword 1 buf 3;
  s ← get;
  modify_flash (set_fast_read (fast_reads d1 d3 d3 (fast_read (flash s))));;
  d8 ← dword 1 buf 8;
  d9 ← dword 1 buf 9;
  d10 ← dword 1 buf 10;
  l ← lift_opt (erase_types d8 d9 (erase_type_timeout d10) (erase_info (flash s)));
  modify_flash (set_erase_info l);;
  v ← dword 1 buf 11;
  let timeout := (bfield_r v 12 8 + 1) * (if bfield_r v 13 13 =? 0 then 8 else 64) * (2 * (bfield_r v 3 0 + 1)) in
  modify_flash (set_page (Z.shiftl 1 (bfield_r v 7 4)) timeout);;
  mret 0.

(** ** The sector map *)

(** The command of a configuration detection descriptor. *)
Definition detection_command (d addr : Z) : list Z :=
  let a3 := [bfield_r addr 23 16; bfield_r addr 15 8; bfield_r addr 7 0] in
  bfield_r d 15 8 ::
    match bfield_r d 23 22 with 0 => [] | 2 => bfield_r addr 31 24 :: a3 | _ => a3 end.

(** The detection loop: where the maps start, and the configuration. *)
Fixpoint detect_config (fuel pf : nat) (buf : list Z) (index : nat) (config : Z) : M spi (nat * Z) :=
  match fuel with
  | O => out_of_fuel
  | S fuel =>
      d ← dword 0 buf index;
      if Z.land d 2 =? 0 then
        addr ← dword 0 buf (S index);
        r ← atcspi200_cmd_read_compact pf (detection_command d addr) (bfield_r d 19 16) 1;
        data ← lift_opt (head r.2);
        let bit := if Z.land data (bfield_r d 31 24) =? 0 then 0 else 1 in
        detect_config fuel pf buf (index + 2) (Z.lor (u32 (Z.shiftl config 1)) bit)
      else mret (index, config)
  end.

(** Skip the maps of other configurations; the count of words to skip is read
    after the index was advanced. *)
Fixpoint skip_maps (fuel : nat) (buf : list Z) (index : nat) (config : Z) : M spi (option nat) :=
  match fuel with
  | O => out_of_fuel
  | S fuel =>
      d ← dword 0 buf index;
      if bfield_r d 15 8 =? config then mret (Some index) else
      if Z.land d 1 =? 1 then mret None else
      d' ← dword 0 buf (S index);
      skip_maps fuel buf (S index + Z.to_nat (bfield_r d' 23 16 + 1)) config
  end.

Fixpoint map_regions (n : nat) (buf : list Z) (index : nat) (i addr size : Z) : M spi (list erase_region) :=
  match n with
  | O => mret []
  | S n =>
      d ← dword 0 buf index;
      let rsize := u32 (256 * (bfield_r d 31 8 + 1)) in
      let rsize := if rsize >? size then size else rsize in
      rest ← map_regions n buf (S index) (i + 1) (u32 (addr + rsize)) size;
      mret (EraseRegion i addr rsize (bfield_r d 3 0) :: rest)
  end.

(** [mem_ok] says whether [malloc] succeeds. *)
Definition sfdp_parse_sector_map (mem_ok : bool) (fuel pf : nat) (buf : list Z) : M spi Z :=
  r ← detect_config fuel pf buf 0 0;
  let '(index, config) := r in
  o ← skip_maps fuel buf index config;
  match o with
  | None => mret (- ENODEV)
  | Some index =>
      if negb mem_ok then mret (- ENOMEM) else
      d ← dword 0 buf index;
      s ← get;
      l ← map_regions (Z.to_nat (bfield_r d 23 16 + 1)) buf (S index) 0 0 (sf_size (flash s));
      modify_flash (set_region l);;
      mret 0
  end.

(** ** Parameter headers *)

Inductive sfdp_parser := Basic | Basic216B | SectorMap.

Definition VERSION (major minor : Z) : Z := Z.lor (Z.shiftl major 8) minor.
Definition MAJOR (ver : Z) : Z := Z.shiftr (Z.land ver 0xff00) 8.

Definition param_parser : list (Z * Z * sfdp_parser) :=
  [(0xff00, VERSION 1 0, Basic); (0xff00, VERSION 1 6, Basic216B); (0xff81, VERSION 1 0, SectorMap)].

Definition best_parser (id ver : Z) : option (Z * sfdp_parser) :=
  fold_left (λ best p,
    let '(pid, pver, parser) := p in
    if negb (pid =? id) || negb (MAJOR pver =? MAJOR ver) || (pver >? ver) then best else
    match best with
    | Some (bver, _) => if pver >? bver then Some (pver, parser) else best
    | None => Some (pver, parser)
    end) param_parser None.

Definition sfdp_parse_param (mem_ok : bool) (fuel pf : nat) (hdr : list Z) : M spi Z :=
  let b i := hdr !!! i in
  let id := Z.lor (Z.shiftl (b 7%nat) 8) (b 0%nat) in
  let ver := VERSION (b 2%nat) (b 1%nat) in
  let addr := Z.lor (Z.lor (Z.shiftl (b 6%nat) 16) (Z.shiftl (b 5%nat) 8)) (b 4%nat) in
  let size := b 3%nat * 4 in
  match best_parser id ver with
  | None => mret (-1)
  | Some (_, parser) =>
      if negb mem_ok then mret (- ENOMEM) else
      r ← spi_flash_read_sfdp pf addr size;
      if r.1 <? 0 then mret r.1 else
      ret ← match parser with
            | Basic => sfdp_parse_basic r.2
            | Basic216B => sfdp_parse_basic_216B r.2
            | SectorMap => sfdp_parse_sector_map mem_ok fuel pf r.2
            end;
      mret (if ret <? 0 then ret else 0)
  end.

(** The loop over the headers: [n] of them, from number [i] on. *)
Fixpoint parse_params (mem_ok : bool) (n fuel pf : nat) (i ret : Z) : M spi Z :=
  match n with
  | O => mret ret
  | S n =>
      r ← spi_flash_read_sfdp pf (8 + 8 * i) 8;
      ret ← sfdp_parse_param mem_ok fuel pf r.2;
      if ret <? 0 then mret ret else parse_params mem_ok n fuel pf (i + 1) ret
  end.

Definition spi_flash_probe_sfdp (mem_ok : bool) (fuel pf : nat) : M spi Z :=
  r ← spi_flash_read_sfdp pf 0 8;
  if negb (bool_decide (take 4 r.2 = [0x53; 0x46; 0x44; 0x50])) then mret (- ENXIO) else
  nph ← lift_opt (r.2 !! 6%nat);
  parse_params mem_ok (Z.to_nat (nph + 1)) fuel pf 0 0.

(** ** The rest of the descriptor *)

(** The methods of a uniform map: those with a size and an opcode. *)
Fixpoint method_mask (l : list erase_method) (i : Z) : Z :=
  match l with
  | [] => 0
  | m :: l => Z.lor (if (em_size m >? 0) && negb (em_opcode m =? 0) then Z.shiftl 1 i else 0) (method_mask l (i + 1))
  end.

Definition spi_create_default_map (mem_ok : bool) : M spi Z :=
  s ← get;
  if sf_size (flash s) =? 0 then mret (- ENODEV) else
  if negb mem_ok then mret (- ENOMEM) else
  modify_flash (set_region [EraseRegion 0 0 (sf_size (flash s)) (method_mask (erase_info (flash s)) 0)]);;
  mret 0.

(** ** Identification by vendor *)

Definition read_status (pf : nat) : M spi Z :=
  r ← atcspi200_cmd_read_compact pf [SPI_FLASH_OP_RDSR] 0 1;
  lift_opt (head r.2).
Definition read_config (pf : nat) : M spi Z :=
  r ← atcspi200_cmd_read_compact pf [SPI_FLASH_OP_RDCR] 0 1;
  lift_opt (head r.2).
Definition read_status_h (pf : nat) : M spi Z :=
  r ← atcspi200_cmd_read_compact pf [SPI_FLASH_OP_RDSR_H] 0 1;
  lift_opt (head r.2).
Definition write_status_h (pf : nat) (status : Z) : M spi Z :=
  atcspi200_cmd_write_compact pf [SPI_FLASH_OP_WRSR_H] [status].

(** Enabling the write is left to the controller. *)
Definition write_config (pf : nat) (config : Z) : M spi Z :=
  status ← read_status pf;
  ret ← atcspi200_cmd_write_compact pf [SPI_FLASH_OP_WRSR] [status; config];
  mret (if ret <? 0 then ret else status).

Definition with_quad (enable : bool) (v : Z) : Z :=
  if enable then Z.lor v (BIT 1) else Z.land v (Z.lnot (BIT 1)).

(** [gd25_quadio], and with other names [s25fl_quadio], [xmc_quadio] and [zb25_quadio]. *)
Definition gd25_quadio (pf : nat) (enable : bool) : M spi unit :=
  config ← read_config pf;
  if Bool.eqb enable (negb (Z.land config (BIT 1) =? 0)) then mret () else
  write_config pf (with_quad enable config);; mret ().

Definition gt25_quadio (pf : nat) (enable : bool) : M spi unit :=
  config ← read_config pf;
  status ← read_status_h pf;
  (if Z.land status (BIT 1) =? 0 then write_status_h pf (Z.lor status (BIT 1));; mret () else mret ());;
  if Bool.eqb enable (negb (Z.land config (BIT 1) =? 0)) then mret () else
  write_config pf (with_quad enable config);; mret ().

Definition p25q_quadio (pf : nat) (enable : bool) : M spi unit :=
  status ← read_status_h pf;
  if Bool.eqb enable (negb (Z.land status (BIT 1) =? 0)) then mret () else
  write_status_h pf (with_quad enable status);; mret ().

(** The hook of a driver. *)
Definition quadio (v : vendor) : option (nat → bool → M spi unit) :=
  match v with
  | GD25 | S25FL | XMC | ZB25 => Some gd25_quadio
  | GT25 => Some gt25_quadio
  | P25Q => Some p25q_quadio
  | SST | XTX => None
  end.

(** The regions of an entry, one behind the other. *)
Fixpoint place (start : Z) (l : list erase_region) : list erase_region :=
  match l with
  | [] => []
  | r :: l => EraseRegion (er_id r) start (er_size r) (er_method r) :: place (u32 (start + er_size r)) l
  end.

(** [memcmp(info->id, flash->id, 3)] against the table. *)
Definition lookup_info (id : list Z) (table : list spi_flash_info) : option spi_flash_info :=
  List.find (λ info, bool_decide (take 3 id = in_id info)) table.

(** The size, the erase methods and the regions of an entry; methods that the
    entry does not have keep what they were. *)
Definition adopt (info : spi_flash_info) (timeout : Z) (f : spi_flash) : spi_flash :=
  let methods := (λ m, EraseMethod (em_size m) (em_opcode m) timeout) <$> in_method info in
  set_size (foldr (λ r n, u32 (er_size r + n)) 0 (in_region info))
    (set_region (place 0 (in_region info))
      (set_erase_info (methods ++ drop (length methods) (erase_info f)) f)).

Definition by_sfdp (f : spi_flash) : bool := negb (sf_size f =? 0) && negb (bool_decide (region f = [])).

Definition xtx_probe (id : list Z) : M spi Z :=
  s ← get;
  if by_sfdp (flash s) then mret 0 else
  match lookup_info id xtx2xxxx with
  | None => mret (- EINVAL)
  | Some info => modify_flash (λ f, adopt info (1000 * 1000) (set_page (in_page info) (100 * 1000) f));; mret 0
  end.

(** The page size of an entry is not used. *)
Definition sst_probe (id : list Z) : M spi Z :=
  s ← get;
  if by_sfdp (flash s) then mret 0 else
  match lookup_info id sst2xxxx with
  | None => mret (- EINVAL)
  | Some info =>
      modify_flash (λ f, adopt info (100 * 1000)
        (set_page (page_size f) (if pp_timeout f =? 0 then 100 * 1000 else pp_timeout f) f));;
      mret 0
  end.

Definition s25fl_probe : M spi Z :=
  s ← get;
  c_assert (by_sfdp (flash s));;
  mret 0.

Definition vendor_probe (v : vendor) (id : list Z) : M spi Z :=
  match v with
  | XTX => xtx_probe id
  | SST => sst_probe id
  | S25FL => s25fl_probe
  | GD25 | GT25 | P25Q | XMC | ZB25 => mret 0
  end.

(** The inner loop: one of the numbers of a driver is the memory's, and the
    driver takes it. *)
Fixpoint probe_vids (v : vendor) (id0 : Z) (id : list Z) (vids : list Z) : M spi bool :=
  match vids with
  | [] => mret false
  | x :: vids =>
      if x =? id0 then
        ret ← vendor_probe v id;
        if ret =? 0 then mret true else probe_vids v id0 id vids
      else probe_vids v id0 id vids
  end.

Fixpoint probe_drivers (id0 : Z) (id : list Z) (drivers : list vendor) : M spi (option vendor) :=
  match drivers with
  | [] => mret None
  | v :: drivers =>
      b ← probe_vids v id0 id (vid v);
      if (b : bool) then mret (Some v) else probe_drivers id0 id drivers
  end.

(** The driver that takes the memory, if any; [drivers] are those that are
    compiled in, in the order of the linker's table. *)
Definition spi_flash_probe_id (drivers : list vendor) (pf : nat) : M spi (option vendor) :=
  r ← atcspi200_cmd_read_compact pf [SPI_FLASH_OP_RDID] 0 SPI_FLASH_MAX_ID_LEN;
  id0 ← lift_opt (head r.2);
  probe_drivers id0 r.2 drivers.

(** [ops->set_mm_rcmd(master, rcmd, true)]: the controller has the command. *)
Definition atcspi200_set_mm_rcmd (c : fast_read_cmd) : bool :=
  existsb (λ d, (fr_opcode c =? fr_opcode d) && (fr_address c =? fr_address d) && (fr_data c =? fr_data d) &&
                (fr_mode c =? fr_mode d) && (fr_dummy c =? fr_dummy d)) atcspi200_readcmds.

(** The loop that selects the read command.  [feasible] says whether the
    controller has the pins for four lines; the memory is switched to them by
    the hook of its driver. *)
Fixpoint select_fast_read (hook : option (nat → bool → M spi unit)) (feasible : bool) (pf : nat) (l : list fast_read_cmd) : M spi unit :=
  match l with
  | [] => mret ()
  | c :: l =>
      if negb (fr_opcode c =? 0) && atcspi200_set_mm_rcmd c then
        if fr_data c =? 4 then
          match hook with
          | Some quadio => if feasible then quadio pf true;; modify_flash (set_cur_fast_read (Some c))
                           else select_fast_read hook feasible pf l
          | None => select_fast_read hook feasible pf l
          end
        else modify_flash (set_cur_fast_read (Some c))
      else select_fast_read hook feasible pf l
  end.

(** The result says whether there is a device: SFDP, then the vendor, then the
    uniform map with its defaults when there is no region, then the read
    command (CONFIG_FLASH_DEFAULT_MAP). *)
Definition spi_flash_probe (drivers : list vendor) (mem_ok feasible : bool) (fuel pf : nat) : M spi bool :=
  spi_flash_probe_sfdp mem_ok fuel pf;;
  driver ← spi_flash_probe_id drivers pf;
  s ← get;
  ok ← (if bool_decide (region (flash s) = []) then
          ret ← spi_create_default_map mem_ok;
          if ret <? 0 then mret false else
          s ← get;
          modify_flash (set_page (if page_size (flash s) =? 0 then 256 else page_size (flash s))
                                 (if pp_timeout (flash s) =? 0 then 100 * 1000 else pp_timeout (flash s)));;
          mret true
        else mret true);
  if negb ok then mret false else
  s ← get;
  select_fast_read (driver ≫= quadio) feasible pf (fast_read (flash s));;
  mret true.

End Probe.
