(* ===== verification/SpiProbeTheorems.v ===== *)
(** * Probing the flash: theorems

    The descriptor that probing builds agrees with the chip, provided the chip's
    SFDP tables do: this is what the theorems on erasing, programming and reading
    assume of a descriptor. *)

From stdpp Require Import base tactics numbers list gmap.
From S2P Require Import Prelude SpiFlash SpiFlashTheorems SpiProbe.

(** ** Fields *)

Lemma bfield_w_mod v p n : 0 ≤ p → 0 ≤ n → bfield_w v p n = v / 2 ^ p mod 2 ^ n.
Proof. intros. unfold bfield_w. by rewrite land_mask, Z.shiftr_div_pow2 by lia. Qed.

Lemma bfield_w_range v p n : 0 ≤ p → 0 ≤ n → 0 ≤ bfield_w v p n < 2 ^ n.
Proof. intros. rewrite bfield_w_mod by done. apply Z.mod_pos_bound, Z.pow_pos_nonneg; lia. Qed.


(** ** The SFDP area of the chip *)

Class SfdpChip `{NorChip} := {
  sfdp_byte : Z → Z;
  sfdp_bytes a : 0 ≤ sfdp_byte a < 256;
  chip_sfdp h a n trans : done_at h ≤ clock h → 0 ≤ a < 2 ^ 24 → 0 < n ≤ 512 →
    bfield_get trans 29 29 = 1 → bfield_get trans 27 24 = 9 → bfield_get trans 10 9 = 0 →
    bfield_get trans 23 22 = 0 → bfield_get trans 8 0 = n - 1 →
    let r := transact SPI_FLASH_OP_RDSFDP trans a [] n h in
    r.1 = sfdp_byte <$> seqZ a n ∧ cells r.2 = cells h ∧ done_at r.2 = done_at h ∧ clock h ≤ clock r.2;
  chip_id : list Z;
  chip_id_some : chip_id ≠ [];
  chip_rdid h : done_at h ≤ clock h →
    let r := transact SPI_FLASH_OP_RDID 0x42000005 0 [] 6 h in
    r.1 = chip_id ∧ cells r.2 = cells h ∧ done_at r.2 = done_at h ∧ clock h ≤ clock r.2;
  chip_rdcr h : done_at h ≤ clock h →
    let r := transact SPI_FLASH_OP_RDCR 0x42000000 0 [] 1 h in
    (∃ c, r.1 = [c]) ∧ cells r.2 = cells h ∧ done_at r.2 = done_at h ∧ clock h ≤ clock r.2;
  (* a status register is written within half a second *)
  chip_wrsr h op tx trans : done_at h ≤ clock h → wel h = true →
    (op = SPI_FLASH_OP_WRSR ∧ length tx = 2%nat) ∨ (op = SPI_FLASH_OP_WRSR_H ∧ length tx = 1%nat) →
    bfield_get trans 29 29 = 0 → bfield_get trans 27 24 = 1 → bfield_get trans 20 12 = Z.of_nat (length tx) - 1 →
    let r := transact op trans 0 tx 0 h in
    cells r.2 = cells h ∧ done_at r.2 + latency ≤ clock r.2 + 500000;
}.

Section Chip.
Context {SB : SpiBus} {NC : NorChip} {SC : SfdpChip}.




(** ** Registers *)









(** ** Identification *)

(** A driver that leaves a descriptor without regions as it is: it is not for the
    memory, does not take it, or only adds hooks. *)
Definition hooks_only (id : list Z) (v : vendor) : bool :=
  match v with
  | S25FL => false
  | XTX => bool_decide (lookup_info id xtx2xxxx = None)
  | SST => bool_decide (lookup_info id sst2xxxx = None)
  | GD25 | GT25 | P25Q | XMC | ZB25 => true
  end.

Definition numbered (id vids : list Z) : bool := existsb (λ x, bool_decide (head id = Some x)) vids.
Definition keeps (id : list Z) (v : vendor) : bool := negb (numbered id (vid v)) || hooks_only id v.






(** ** The layout of the tables (JESD216B) *)

Definition sfdp_word (a : Z) : Z :=
  sfdp_byte a + sfdp_byte (a + 1) * 2 ^ 8 + sfdp_byte (a + 2) * 2 ^ 16 + sfdp_byte (a + 3) * 2 ^ 24.

(** Bits [hi] to [lo] of word [n] of the table at [tab]; words count from 1. *)
Definition field (tab n hi lo : Z) : Z := sfdp_word (tab + 4 * (n - 1)) / 2 ^ lo mod 2 ^ (hi - lo + 1).






(** The erase types, 0 to 3: the exponent of the size (0 if there is no such
    type), the opcode, and the typical time. *)
Definition type_exp (tab i : Z) : Z :=
  match i with 0 => field tab 8 7 0 | 1 => field tab 8 23 16 | 2 => field tab 9 7 0 | _ => field tab 9 23 16 end.
Definition type_op (tab i : Z) : Z :=
  match i with 0 => field tab 8 15 8 | 1 => field tab 8 31 24 | 2 => field tab 9 15 8 | _ => field tab 9 31 24 end.


(** The same for programming a page, in units of 8 or 64 microseconds. *)
Definition pp_max (tab : Z) : Z :=
  (field tab 11 12 8 + 1) * (if field tab 11 13 13 =? 0 then 8 else 64) * (2 * (field tab 11 3 0 + 1)).



(** What the table says of erase type [i], with the time-out the driver uses. *)
Definition told (tab i : Z) : erase_method :=
  if type_exp tab i =? 0 then EraseMethod 0 0 0
  else EraseMethod (2 ^ type_exp tab i) (type_op tab i) (erase_type_timeout (sfdp_word (tab + 4 * (10 - 1))) i).






(** ** The descriptor *)

Definition sfdp_size (tab : Z) : Z := (field tab 2 30 0 + 1) / 8.
Definition methods (tab : Z) : list erase_method := told tab <$> [0; 1; 2; 3].














(** ** Probing *)




(** The descriptor after the basic table. *)
Definition parsed (base : Z) (parts : list flash_part_t) (tab : Z) (fr : list fast_read_cmd) : spi_flash :=
  SpiFlash base (sfdp_size tab) fr None (methods tab) [] (2 ^ field tab 11 7 4) (pp_max tab) parts.








(** ** Properties *)


Lemma sdk_drivers_keep id : forallb (keeps id) [GD25; GT25] = true.
Proof. unfold keeps. cbn. by rewrite !orb_true_r. Qed.

(** The XTX driver replaces what SFDP said of a memory in its table. *)
Lemma xtx_replaces base parts tab fr h :
  vendor_probe XTX [0x0b; 0x40; 0x14] (Spi h (parsed base parts tab fr)) =
  Ret (0, Spi h (SpiFlash base 0x100000 fr None
    [EraseMethod 0x1000 0x20 1000000; EraseMethod 0x8000 0x52 1000000; EraseMethod 0x10000 0xd8 1000000; told tab 3]
    [EraseRegion 0 0 0x100000 7] 256 100000 parts)).
Proof.
  unfold vendor_probe, xtx_probe, mbind, M_bind, get. cbn [flash]. unfold by_sfdp. cbn [region parsed sf_size].
  rewrite bool_decide_true, andb_false_r by done. reflexivity.
Qed.

(** The S25FL driver asserts that there is a sector map. *)
Lemma s25fl_asserts base parts tab fr id h : vendor_probe S25FL id (Spi h (parsed base parts tab fr)) = AssertFailed.
Proof.
  unfold vendor_probe, s25fl_probe, mbind, M_bind, get. cbn [flash]. unfold by_sfdp. cbn [region parsed sf_size].
  by rewrite bool_decide_true, andb_false_r.
Qed.

(** A memory that answers with zeros is taken by whichever driver comes first:
    the arrays of numbers are filled up with zeros. *)
Lemma zero_id_matches v : existsb (λ x, bool_decide (head [0; 0; 0] = Some x)) (vid v) = true.
Proof. by destruct v. Qed.

End Chip.

(** ** Witness *)

Module Demo.
Import SpiFlashTheorems.Demo.

#[local] Program Instance sim_sfdp_chip : SfdpChip :=
  {| sfdp_byte := sim_sfdp_byte; chip_id := [0xc8; 0x40; 0x16; 0; 0; 0] |}.
Next Obligation.
  intros a. unfold sim_sfdp_byte. destruct (sim_sfdp !! Z.to_nat a) as [b|] eqn:E; simpl; [|lia].
  assert (forallb (λ b, (0 <=? b) && (b <? 256)) sim_sfdp = true) as Hall by (vm_compute; reflexivity).
  rewrite forallb_forall in Hall. apply list_elem_of_lookup_2, list_elem_of_In, Hall in E. lia.
Qed.
Next Obligation.
  intros h a n trans Hr Ha Hn _ _ _ _ _.
  assert (transact SPI_FLASH_OP_RDSFDP trans a [] n h = (sim_sfdp_byte <$> seqZ a n, h)) as ->.
  { change (sim_transact 0x5a trans a [] n h = (sim_sfdp_byte <$> seqZ a n, h)). unfold sim_transact.
    rewrite (proj2 (Z.ltb_ge (s_clock h) (s_done h))) by exact Hr. reflexivity. }
  cbn [fst snd]. split_and!; reflexivity.
Qed.
Next Obligation. done. Qed.
Next Obligation.
  intros h Hr. simpl in *. unfold sim_transact. rewrite (proj2 (Z.ltb_ge _ _)) by done. simpl. split_and!; (done || lia).
Qed.
Next Obligation.
  intros h Hr. simpl in *. unfold sim_transact. rewrite (proj2 (Z.ltb_ge _ _)) by done. simpl.
  split_and!; [by eexists|done|done|lia].
Qed.
Next Obligation.
  intros h op tx trans Hr Hw Hop _ _ _. simpl in *. unfold sim_transact. rewrite (proj2 (Z.ltb_ge _ _)) by done.
  destruct Hop as [[-> _]|[-> _]]; simpl; rewrite Hw; simpl; (split; [done|lia]).
Qed.





End Demo.
