(* ===== verification/SpiPart.v ===== *)
(** * The partition table: src/hal/drivers/spi-flash/spi-flash.c

    Partitions of the flash are listed in a table that is kept in RAM and
    mirrored in the top erase block of the flash.  This file models the table:
    its layout in bytes, looking up, adding and removing partitions, sorting,
    and writing the table back.

    The table is that of the one flash memory of [SpiFlash]. *)

From stdpp Require Import base tactics numbers list gmap.
From S2P Require Import Prelude SpiFlash.

Definition EEXIST : Z := 17.
Definition MAX32 : Z := 0xffffffff.
Definition P_SYSTEM : Z := BIT 0.
Definition CMD_RET_SUCCESS : Z := 0.
Definition CMD_RET_FAILURE : Z := 1.
Definition CMD_RET_USAGE : Z := -1.

(** ** Layout: 16 bytes of name and four words, the lowest byte first *)

Definition le32 (v : Z) : list Z :=
  [u8 v; u8 (Z.shiftr v 8); u8 (Z.shiftr v 16); u8 (Z.shiftr v 24)].

Definition word_at (l : list Z) (i : nat) : Z :=
  l !!! i + l !!! S i * 2 ^ 8 + l !!! S (S i) * 2 ^ 16 + l !!! S (S (S i)) * 2 ^ 24.

Definition part_bytes (p : flash_part_t) : list Z :=
  p_name p ++ le32 (p_start p) ++ le32 (p_size p) ++ le32 (p_data_length p) ++ le32 (p_flags p).

Definition part_of_bytes (l : list Z) : flash_part_t :=
  Part (take 16 l) (word_at l 16) (word_at l 20) (word_at l 24) (word_at l 28).

Definition table_bytes (t : list flash_part_t) : list Z := t ≫= part_bytes.

Fixpoint table_of_bytes (n : nat) (l : list Z) : list flash_part_t :=
  match n with O => [] | S n => part_of_bytes (take 32 l) :: table_of_bytes n (drop 32 l) end.

(** An entry filled with 0xff: [memset] with the size of an entry. *)
Definition free_part : flash_part_t := Part (replicate 16 0xff) MAX32 MAX32 MAX32 MAX32.

#[export] Instance part_inhabited : Inhabited flash_part_t := populate free_part.

Definition set_start (v : Z) (p : flash_part_t) : flash_part_t :=
  Part (p_name p) v (p_size p) (p_data_length p) (p_flags p).

Definition set_partition (t : list flash_part_t) (f : spi_flash) : spi_flash :=
  SpiFlash (mem_base f) (sf_size f) (fast_read f) (cur_fast_read f) (erase_info f) (region f)
    (page_size f) (pp_timeout f) t.

(** [!strncmp(a, b, n)]: a missing byte is the terminator of a string. *)
Fixpoint strneq (n : nat) (a b : list Z) : bool :=
  match n with
  | O => true
  | S n =>
      let x := default 0 (head a) in
      let y := default 0 (head b) in
      (x =? y) && ((x =? 0) || strneq n (tail a) (tail b))
  end.

(** ** Sorting *)

(** The inner loop: the first entry with the least [start] below [min]. *)
Fixpoint find_min (t : list flash_part_t) (j : nat) (min : Z) (minp : option nat) : option nat :=
  match t with
  | [] => minp
  | p :: t => if p_start p <? min then find_min t (S j) (p_start p) (Some j) else find_min t (S j) min minp
  end.

(** The outer loop, [n] rounds from [i] on; an entry that is taken gets the
    start MAX32. *)
Fixpoint sort_loop (n i : nat) (t temp : list flash_part_t) : list flash_part_t :=
  match n with
  | O => temp
  | S n =>
      match find_min t 0 MAX32 None with
      | Some j => sort_loop n (S i) (alter (set_start MAX32) j t) (<[i := t !!! j]> temp)
      | None => sort_loop n (S i) t temp
      end
  end.

Definition flash_sort_partition_table (t : list flash_part_t) : list flash_part_t :=
  sort_loop (length t) 0 t (replicate (length t) free_part).

Section Table.
Context {SB : SpiBus}.

(** The address of the table in RAM. *)
Context (tab_ptr : Z).

Definition put_table (t : list flash_part_t) : M spi unit := modify (λ s, set_flash (set_partition t (flash s)) s).

(** ** The mirror on the flash *)

Definition __flash_probe_partition_table (pf : nat) : M spi Z :=
  offset ← spi_flash_top_block;
  s ← get;
  let t := partition (flash s) in
  r ← spi_flash_read pf offset (32 * Z.of_nat (length t));
  put_table (table_of_bytes (length t) (r.2 ++ drop (length r.2) (table_bytes t)));;
  mret (if r.1 <? 0 then -1 else 0).

Definition flash_sync_partition_table (fuel pf : nat) : M spi Z :=
  offset ← spi_flash_top_block;
  s ← get;
  ret ← spi_flash_erase fuel pf offset (u32 (sf_size (flash s) - offset)) 0;
  if ret <? 0 then mret ret else
  spi_flash_write pf offset tab_ptr (table_bytes (partition (flash s))).

(** ** Looking up, adding and removing *)

Fixpoint lookup_from (name : list Z) (t : list flash_part_t) (n : nat) : option nat :=
  match t with
  | [] => None
  | p :: t => if strneq 16 name (p_name p) then Some n else lookup_from name t (S n)
  end.

(** The number of the partition. *)
Definition flash_lookup_partition (name : list Z) : M spi (option nat) :=
  s ← get; mret (lookup_from name (partition (flash s)) 0).

Definition overlaps (p q : flash_part_t) : bool :=
  (p_start p <? u32 (p_start q + p_size q)) && (u32 (p_start p + p_size p) >? p_start q).

(** The first free entry, or the error for an overlap.  The loop has no bound:
    on a full table it leaves the array. *)
Fixpoint scan_free (p : flash_part_t) (t : list flash_part_t) (i : nat) : option (Z + nat) :=
  match t with
  | [] => None
  | q :: t =>
      if p_name q !!! 0%nat =? 0xff then Some (inr i) else
      if overlaps p q then Some (inl (- EINVAL)) else scan_free p t (S i)
  end.

Definition flash_add_partition (fuel pf : nat) (p : flash_part_t) : M spi Z :=
  s ← get;
  if negb (spi_flash_find_by_addr (flash s) (p_start p)) then mret (- EINVAL) else
  if (p_name p !!! 0%nat =? 0) || (p_name p !!! 0%nat =? 0xff) then mret (- EINVAL) else
  n ← flash_lookup_partition (p_name p);
  if (if n is Some _ then true else false) then mret (- EEXIST) else
  if p_size p =? u32 (-1) then mret (- EINVAL) else
  r ← lift_opt (scan_free p (partition (flash s)) 0);
  match r with
  | inl e => mret e
  | inr i =>
      put_table (flash_sort_partition_table (<[i := p]> (partition (flash s))));;
      flash_sync_partition_table fuel pf;;
      mret 0
  end.

(** [n] is the number of the partition in the table. *)
Definition flash_delete_partition (fuel pf : nat) (n : nat) : M spi unit :=
  s ← get;
  part ← lift_opt (partition (flash s) !! n);
  r ← flash_erase fuel pf (p_start part) (p_size part) 0;
  if negb (r =? 0) then mret () else
  put_table (flash_sort_partition_table (<[n := free_part]> (partition (flash s))));;
  flash_sync_partition_table fuel pf;;
  mret ().

(** The command [flash rmpart], outside the boot loader. *)
Definition do_flash_rmpart (fuel pf : nat) (argc : Z) (name : list Z) : M spi Z :=
  if negb (argc =? 2) then mret CMD_RET_USAGE else
  n ← flash_lookup_partition name;
  match n with
  | None => mret CMD_RET_FAILURE
  | Some n =>
      s ← get;
      part ← lift_opt (partition (flash s) !! n);
      if negb (Z.land (p_flags part) P_SYSTEM =? 0) then mret CMD_RET_FAILURE else
      flash_delete_partition fuel pf n;;
      mret CMD_RET_SUCCESS
  end.

End Table.
