(* ===== verification/SpiPartTheorems.v ===== *)
(** * The partition table: theorems

    The table in RAM refines a set of partitions that have different names and
    do not overlap; it stays sorted, and the flash holds a copy of it. *)

From stdpp Require Import base tactics numbers list gmap sorting.
From S2P Require Import Prelude SpiFlash SpiFlashTheorems SpiPart.

(** ** Sorting *)

Definition starts_le (p q : flash_part_t) : Prop := p_start p ≤ p_start q.

(** The entries that sorting keeps. *)
Definition live (t : list flash_part_t) : list flash_part_t := filter (λ p, p_start p < MAX32) t.

(** [minp] is right for the entries seen so far. *)
Lemma find_min_gen t j min minp :
  match find_min t j min minp with
  | Some k =>
      (minp = Some k ∧ Forall (λ p, min ≤ p_start p) t) ∨
      ∃ i p, k = (j + i)%nat ∧ t !! i = Some p ∧ p_start p < min ∧ Forall (starts_le p) t
  | None => minp = None ∧ Forall (λ p, min ≤ p_start p) t
  end.
Proof.
  revert j min minp. induction t as [|p t IH]; intros j min minp; simpl.
  { destruct minp; [left|]; split; done || constructor. }
  destruct (Z.ltb_spec (p_start p) min) as [Hlt|Hge].
  - specialize (IH (S j) (p_start p) (Some j)). destruct (find_min t (S j) (p_start p) (Some j)) as [k|]; [|by destruct IH].
    right. destruct IH as [[[= <-] Hall]|(i&q&->&Hi&Hq&Hall)].
    + exists 0%nat, p. split; [lia|]. split; [done|]. split; [done|]. constructor; [unfold starts_le; lia|done].
    + exists (S i), q. split; [lia|]. split; [done|]. split; [lia|]. constructor; [unfold starts_le; lia|done].
  - specialize (IH (S j) min minp). destruct (find_min t (S j) min minp) as [k|].
    + destruct IH as [[-> Hall]|(i&q&->&Hi&Hq&Hall)]; [left; split; [done|by constructor]|right].
      exists (S i), q. split; [lia|]. split; [done|]. split; [done|]. constructor; [unfold starts_le; lia|done].
    + destruct IH as [-> Hall]. split; [done|by constructor].
Qed.

Lemma find_min_spec t :
  match find_min t 0 MAX32 None with
  | Some j => ∃ p, t !! j = Some p ∧ p_start p < MAX32 ∧ Forall (starts_le p) t
  | None => live t = []
  end.
Proof.
  pose proof (find_min_gen t 0 MAX32 None) as H. destruct (find_min t 0 MAX32 None) as [j|].
  - destruct H as [[? _]|(i&p&->&Hi&Hp&Hall)]; [done|]. by exists p.
  - destruct H as [_ Hall]. unfold live. apply filter_none. rewrite Forall_forall in Hall. intros p Hp. specialize (Hall p Hp). simpl in *. lia.
Qed.

(** Marking an entry as taken removes it from the live ones. *)
Lemma live_taken t j p : t !! j = Some p → p_start p < MAX32 →
  live t ≡ₚ p :: live (alter (set_start MAX32) j t).
Proof.
  unfold live. revert j. induction t as [|q t IH]; intros [|j] Hj Hp; [done|done| |].
  - injection Hj as ->. change (alter (set_start MAX32) 0%nat (p :: t)) with (set_start MAX32 p :: t).
    rewrite filter_cons_True by done. rewrite filter_cons_False by (simpl; lia). done.
  - simpl in Hj. change (alter (set_start MAX32) (S j) (q :: t)) with (q :: alter (set_start MAX32) j t).
    rewrite !filter_cons. pose proof (IH j Hj Hp) as Hl. case_decide; [|done].
    rewrite Hl. apply Permutation_swap.
Qed.

(** What the outer loop writes. *)
Fixpoint selected (n : nat) (t : list flash_part_t) : list flash_part_t :=
  match n with
  | O => []
  | S n =>
      match find_min t 0 MAX32 None with
      | Some j => (t !!! j) :: selected n (alter (set_start MAX32) j t)
      | None => free_part :: selected n t
      end
  end.

Lemma sort_loop_selected n t pre : 
  sort_loop n (length pre) t (pre ++ replicate n free_part) = pre ++ selected n t.
Proof.
  revert t pre. induction n as [|n IH]; intros t pre; simpl; [done|].
  assert (∀ p t', sort_loop n (S (length pre)) t' (pre ++ p :: replicate n free_part) = pre ++ p :: selected n t') as Hs.
  { intros p t'. specialize (IH t' (pre ++ [p])). rewrite length_app, Nat.add_1_r, <-!app_assoc in IH. exact IH. }
  destruct (find_min t 0 MAX32 None) as [j|]; [|apply Hs].
  rewrite insert_app_r_alt, Nat.sub_diag by lia. apply Hs.
Qed.

Lemma selected_none n t : live t = [] → selected n t = replicate n free_part.
Proof.
  intros Ht. induction n as [|n IH]; simpl; [done|]. pose proof (find_min_spec t) as H.
  destruct (find_min t 0 MAX32 None) as [j|]; [|by rewrite IH]. exfalso. destruct H as (p&Hj&Hp&_).
  pose proof (live_taken t j p Hj Hp) as Hl. rewrite Ht in Hl. by apply Permutation_nil_cons in Hl.
Qed.

Lemma starts_le_taken p t j : p_start p < MAX32 → Forall (starts_le p) t →
  Forall (starts_le p) (alter (set_start MAX32) j t).
Proof.
  intros Hp. revert j. induction t as [|q t IH]; intros [|j] Ht; [done|done| |]; apply Forall_cons in Ht as [Hq Ht].
  - constructor; [unfold starts_le; simpl; lia|done].
  - constructor; [done|by apply IH].
Qed.

Lemma selected_sorted n t : (length (live t) ≤ n)%nat →
  ∃ l, selected n t = l ++ replicate (n - length l) free_part ∧ l ≡ₚ live t ∧ StronglySorted starts_le l.
Proof.
  revert t. induction n as [|n IH]; intros t Hlen; simpl.
  { exists []. destruct (live t); [|simpl in Hlen; lia]. repeat constructor. }
  pose proof (find_min_spec t) as H. destruct (find_min t 0 MAX32 None) as [j|].
  2: { exists []. rewrite H. split; [simpl; by rewrite selected_none|]. by repeat constructor. }
  destruct H as (p&Hj&Hp&Hmin). pose proof (live_taken t j p Hj Hp) as Hl.
  destruct (IH (alter (set_start MAX32) j t)) as (l&Hsel&Hperm&Hsort).
  { rewrite Hl in Hlen. simpl in Hlen. lia. }
  exists (p :: l). rewrite (list_lookup_total_correct _ _ _ Hj), Hsel. split; [done|].
  split; [by rewrite Hl, Hperm|]. constructor; [done|]. rewrite Hperm.
  apply Forall_filter_sub, starts_le_taken; done.
Qed.

Lemma live_length t : (length (live t) ≤ length t)%nat.
Proof. apply length_filter. Qed.

(** Sorting keeps the live entries, in order of their start, and moves the free
    ones to the end. *)
Lemma sort_spec t : ∃ l, flash_sort_partition_table t = l ++ replicate (length t - length l) free_part ∧
  l ≡ₚ live t ∧ StronglySorted starts_le l.
Proof.
  destruct (selected_sorted (length t) t (live_length t)) as (l&Hsel&Hl). exists l. split; [|done].
  unfold flash_sort_partition_table. pose proof (sort_loop_selected (length t) t []) as H. simpl in H. by rewrite H.
Qed.

(** ** Layout *)

Definition word (v : Z) : Prop := 0 ≤ v < 2 ^ 32.

(** An entry as it can be in the table. *)
Record part_wf (p : flash_part_t) : Prop := {
  pw_name : length (p_name p) = 16%nat;
  pw_bytes : Forall (λ b, 0 ≤ b < 256) (p_name p);
  pw_start : word (p_start p);
  pw_size : word (p_size p);
  pw_data : word (p_data_length p);
  pw_flags : word (p_flags p);
}.

Lemma free_part_wf : part_wf free_part.
Proof. split; [done|by apply Forall_replicate|unfold word; simpl; unfold MAX32; lia..]. Qed.

Lemma le32_word v l : word v → word_at (le32 v ++ l) 0 = v.
Proof.
  intros Hv. unfold word_at, le32, u8, word in *. simpl. rewrite !Z.shiftr_div_pow2 by lia. simpl.
  Z.to_euclidean_division_equations. lia.
Qed.

Lemma le32_bytes v : Forall (λ b, 0 ≤ b < 256) (le32 v).
Proof. repeat constructor; apply u8_range. Qed.

Lemma word_at_app l k i : (length l ≤ i)%nat → word_at (l ++ k) i = word_at k (i - length l).
Proof.
  intros Hi. unfold word_at. rewrite !lookup_total_app_r by lia.
  replace (S i - length l)%nat with (S (i - length l)) by lia.
  replace (S (S i) - length l)%nat with (S (S (i - length l))) by lia.
  by replace (S (S (S i)) - length l)%nat with (S (S (S (i - length l)))) by lia.
Qed.

Lemma part_bytes_length p : part_wf p → length (part_bytes p) = 32%nat.
Proof. intros Hp. unfold part_bytes. rewrite !length_app, (pw_name p Hp). done. Qed.

Lemma part_bytes_range p : part_wf p → Forall (λ b, 0 ≤ b < 256) (part_bytes p).
Proof. intros Hp. unfold part_bytes. rewrite !Forall_app. split_and!; try apply le32_bytes. by apply pw_bytes. Qed.

Lemma part_roundtrip p : part_wf p → part_of_bytes (part_bytes p) = p.
Proof.
  intros [Hn _ Hs Hz Hd Hf]. destruct p as [n s z d f]. unfold part_of_bytes, part_bytes. simpl in *.
  rewrite <-Hn at 1. rewrite take_app_length. f_equal.
  - rewrite word_at_app, Hn by lia. by apply le32_word.
  - rewrite !word_at_app, Hn by (rewrite ?Hn; simpl; lia). by apply le32_word.
  - rewrite !word_at_app, Hn by (rewrite ?Hn; simpl; lia). by apply le32_word.
  - rewrite !word_at_app, Hn by (rewrite ?Hn; simpl; lia).
    rewrite <-(app_nil_r (le32 f)). by apply le32_word.
Qed.

Lemma table_bytes_length t : Forall part_wf t → length (table_bytes t) = (32 * length t)%nat.
Proof.
  unfold table_bytes. induction 1 as [|p t Hp _ IH]; [done|]. rewrite bind_cons, length_app, IH, part_bytes_length by done. simpl. lia.
Qed.

Lemma table_bytes_range t : Forall part_wf t → Forall (λ b, 0 ≤ b < 256) (table_bytes t).
Proof. unfold table_bytes. induction 1 as [|p t Hp _ IH]; [constructor|]. rewrite bind_cons. apply Forall_app. by split; [apply part_bytes_range|]. Qed.

Lemma table_roundtrip t : Forall part_wf t → table_of_bytes (length t) (table_bytes t) = t.
Proof.
  unfold table_bytes. induction 1 as [|p t Hp _ IH]; [done|]. rewrite bind_cons. cbn [length table_of_bytes].
  rewrite <-(part_bytes_length p Hp), take_app_length, drop_app_length, IH, part_roundtrip by done. done.
Qed.

(** ** The top block *)

Section Chip.
Context {SB : SpiBus} {NC : NorChip}.

Lemma best_method_least mask ms blk how best m : 0 ≤ mask → Z.land how EB_MIN_BLOCK ≠ 0 →
  best_method mask ms blk how best = Some (Some m) →
  (∀ b, best = Some b → em_size m ≤ em_size b) ∧
  ∀ i m', Z.testbit mask (Z.of_nat i) = true → ms !! i = Some m' →
    block_fits (block_at (eb_start blk) (em_size m')) blk how = true → em_size m ≤ em_size m'.
Proof.
  intros Hm0 Hhow. revert mask best Hm0. induction ms as [|m0 ms IH]; intros mask best Hm Hrun; simpl in Hrun.
  { destruct (Z.eqb_spec mask 0) as [->|]; [|done]. injection Hrun as ->.
    split; [by intros b [= ->]|]. intros i m' Ht. by rewrite Z.bits_0 in Ht. }
  destruct (Z.eqb_spec mask 0) as [->|].
  { injection Hrun as ->. split; [by intros b [= ->]|]. intros i m' Ht. by rewrite Z.bits_0 in Ht. }
  apply IH in Hrun as [Hbest Hall]; [|by apply Z.shiftr_nonneg].
  assert (∀ i m', Z.testbit mask (Z.of_nat (S i)) = true → ms !! i = Some m' →
    block_fits (block_at (eb_start blk) (em_size m')) blk how = true → em_size m ≤ em_size m') as Hrest.
  { intros i m' Ht. apply Hall. rewrite Z.shiftr_spec by lia. rewrite <-Ht. f_equal. lia. }
  destruct (Z.odd mask && block_fits _ _ _ && better _ _ _) eqn:Eok.
  - specialize (Hbest m0 eq_refl). split.
    + intros b ->. apply andb_true_iff in Eok as [_ Hb]. simpl in Hb.
      rewrite (proj2 (Z.eqb_neq _ 0)) in Hb by done. lia.
    + intros [|i] m' Ht Hi Hf; [by injection Hi as ->|by eapply Hrest].
  - split; [done|]. intros [|i] m' Ht Hi Hf; [|by eapply Hrest]. simpl in Hi. injection Hi as ->.
    rewrite Z.bit0_odd in Ht. rewrite Ht, Hf in Eok. simpl in Eok. destruct best as [b|]; simpl in Eok; [|done].
    rewrite (proj2 (Z.eqb_neq _ 0)) in Eok by done. specialize (Hbest b eq_refl). lia.
Qed.

Definition top_how : Z := EB_SUPERSET + EB_UNALIGNED + EB_MIN_BLOCK.

(** With those flags every block around a byte is accepted. *)
Lemma block_fits_around x k : 0 ≤ x < 2 ^ 24 → 0 ≤ k ≤ 24 →
  block_fits (block_at x (2 ^ k)) (EraseBlock x (u32 (x + 1))) top_how = true.
Proof.
  intros Hx Hk. assert (0 < 2 ^ k ≤ 2 ^ 24) as Hp.
  { split; [apply Z.pow_pos_nonneg; lia|apply Z.pow_le_mono_r; lia]. }
  pose proof (Z.mod_pos_bound x (2 ^ k)).
  unfold block_fits, block_at. cbv zeta. rewrite block_start by lia.
  change (negb (Z.land top_how EB_SUPERSET =? 0)) with true. change (negb (Z.land top_how EB_UNALIGNED =? 0)) with true.
  cbv iota. unfold erase_block_superset. cbn. rewrite !u32_id by lia. lia.
Qed.

Lemma mod_top s g : 0 < g → s mod g = 0 → s - 1 - (s - 1) mod g = s - g.
Proof.
  intros Hg Hs. replace (s - 1) with (g - 1 + (s - g)) at 2 by lia.
  rewrite <-Z.add_mod_idemp_r by lia. replace ((s - g) mod g) with 0; [rewrite Z.add_0_r, Z.mod_small; lia|].
  replace (s - g) with (s + (-1) * g) by lia. by rewrite Z.mod_add by lia.
Qed.

(** The top block is the last unit. *)
Lemma top_block_run F g h : geometry F → unit_size F g →
  spi_flash_top_block (Spi h F) = Ret (sf_size F - g, Spi h F) ∧ g ≤ sf_size F ∧ sf_size F mod g = 0.
Proof.
  intros Hg (Hgp&Hcov&Hun). pose proof (g_size F Hg). set (x := sf_size F - 1).
  destruct (Hcov x) as [r Hr]; [lia|]. destruct (lookup_region_spec F x r Hg Hr) as [Hin Hrange].
  destruct (g_region F Hg r Hin) as (_&_&Hend&Hmask). destruct (Hun r Hin) as [(mg&Hmg&Hsz) Hdiv].
  destruct (g_method F Hg r mg Hin Hmg) as [(k&Hk&Hsize) (Hsm&Hzm&_)].
  assert (er_start r + er_size r = sf_size F) as Htop by lia.
  assert (sf_size F mod g = 0) as Hmod.
  { by rewrite <-Htop, <-Hsz, <-Z.add_mod_idemp_l, <-Z.add_mod_idemp_r, Hsm, Hzm by lia. }
  split; [|split; [apply Z.mod_divide in Hmod as [c ?]; [|lia]; assert (0 < c) by nia; nia|done]].
  unfold spi_flash_top_block, spi_flash_lookup_erase_block, spi_flash_lookup_erase_info. mstep. cbn [flash].
  unfold mbind, M_bind, get. cbn [flash eb_start]. fold x. rewrite Hr. fold top_how.
  destruct (best_method_total (er_method r) (erase_info F) (EraseBlock x (u32 (x + 1))) top_how None) as [best Hbest].
  { by rewrite (g_methods F Hg). }
  rewrite Hbest. destruct Hmg as (i&Hti&Hi). destruct best as [m|].
  - simpl.
    destruct (best_method_least _ _ _ _ _ _ (proj1 Hmask) (ltac:(done) : Z.land top_how EB_MIN_BLOCK ≠ 0) Hbest) as [_ Hleast].
    apply best_method_sound in Hbest as [|(i'&Ht'&Hi'&_)]; [done| |lia].
    assert (em_size m = g) as Hmg.
    { assert (has_method F r m) as Hm by by exists i'. specialize (Hdiv m Hm).
      destruct (g_method F Hg r m Hin Hm) as [(k'&Hk'&Hsize') _].
      assert (0 < em_size m) by (rewrite Hsize'; apply Z.pow_pos_nonneg; lia).
      specialize (Hleast i mg Hti Hi). simpl in Hleast. rewrite Hsize in Hleast at 1.
      specialize (Hleast ltac:(apply block_fits_around; lia)).
      apply Z.mod_divide in Hdiv as [c ?]; [|lia]. assert (0 < c) by nia. nia. }
    rewrite Hmg, <-Hsz, Hsize, block_start by lia. rewrite <-Hsize, Hsz. unfold x. by rewrite mod_top.
  - apply best_method_complete in Hbest as [_ Hno]; [|lia]. specialize (Hno i mg Hti Hi). simpl in Hno.
    rewrite Hsize, block_fits_around in Hno by lia. done.
Qed.

(** ** The mirror *)

Section Mirror.
Context (tab_ptr g : Z) (fuel pf N : nat) (F : spi_flash).

(** What the table needs of a configuration: it fits in the top block. *)
Record config : Prop := {
  cf_geometry : geometry F;
  cf_polls : polls F pf;
  cf_unit : unit_size F g;
  cf_page : g mod page_size F = 0;
  cf_buf : buf_ok F tab_ptr;
  cf_end : mem_base F + sf_size F < 2 ^ 32;
  cf_fits : 0 < 32 * Z.of_nat N ≤ g;
  cf_fuel : sf_size F < Z.of_nat fuel;
}.

Context (Hcf : config).

Notation with_table t := (set_partition t F).

Lemma geometry_table t : geometry (with_table t).
Proof. destruct Hcf as [[? ? ? ? ? ? ? ? ?] _ _ _ _ _ _ _]. by split. Qed.

Lemma unit_table t : unit_size (with_table t) g.
Proof. apply Hcf. Qed.

(** The flash holds the table [t]. *)
Definition on_chip (t : list flash_part_t) (h : hw) : Prop :=
  ∀ x, sf_size F - g ≤ x < sf_size F - g + Z.of_nat (length (table_bytes t)) →
    cells h x = table_bytes t !!! Z.to_nat (x - (sf_size F - g)).

Lemma sync_run t h : length t = N → Forall part_wf t → ready h →
  ∃ h' r, flash_sync_partition_table tab_ptr fuel pf (Spi h (with_table t)) = Ret (r, Spi h' (with_table t)) ∧
    ready h' ∧ on_chip t h'.
Proof.
  intros Hlen Hwf Hr. pose proof (geometry_table t) as Hg. pose proof (unit_table t) as Hu.
  destruct (top_block_run (with_table t) g h Hg Hu) as (Htop&Hgs&Hmod). cbn [sf_size set_partition] in *.
  pose proof (table_bytes_length t Hwf) as Hbl. rewrite Hlen in Hbl.
  destruct Hcf as [_ Hpf _ Hpage Hbuf _ Hfits Hfuel]. pose proof (g_size _ Hg) as Hsz. cbn [sf_size set_partition] in Hsz.
  destruct (g_page _ Hg) as (Hpg&k&Hk&Hpow).
  assert (0 < page_size F) by (change (page_size F) with (page_size (with_table t)); rewrite Hpg, Hpow; apply Z.pow_pos_nonneg; lia).
  unfold flash_sync_partition_table. erewrite bind_Ret by exact Htop. mstep. cbn [flash sf_size set_partition].
  replace (sf_size F - (sf_size F - g)) with g by lia. rewrite u32_id by lia.
  destruct (spi_erase_run fuel pf (sf_size F - g) g h (with_table t)) as (r&h1&Hrun&Hr1&Hres&Hok);
    [done|done|lia|lia|simpl; lia|lia|done|].
  assert ((sf_size F - g) mod g = 0) as Hal.
  { replace (sf_size F - g) with (sf_size F + (-1) * g) by lia. by rewrite Z.mod_add by lia. }
  specialize (Hok g Hu Hal (Z.mod_same g ltac:(lia))) as ->. destruct Hres as [[_ Hx1]|[? _]]; [|done].
  erewrite bind_Ret by exact Hrun. change (0 <? 0) with false. cbv iota.
  destruct (spi_write_run pf (sf_size F - g) tab_ptr (table_bytes t) h1 (with_table t)) as (h2&Hrun2&Hx2&Hr2);
    [done|done|done| |lia|simpl; lia|done|].
  { apply Z.mod_divide in Hal, Hpage; [|lia..]. apply Z.mod_divide; [simpl; lia|]. by etransitivity. }
  exists h2, (Z.of_nat (length (table_bytes t))). split; [done|]. split; [done|].
  intros x Hx. rewrite Hx2, (burned_ext _ (wiped (cells h) (sf_size F - g) g)) by apply Hx1.
  apply burned_erased; [by apply table_bytes_range|lia|done].
Qed.

(** After a restart, whatever RAM holds, the table is read back. *)
Lemma probe_run t t0 h : length t = N → Forall part_wf t → length t0 = N → Forall part_wf t0 → ready h → on_chip t h →
  ∃ h', __flash_probe_partition_table pf (Spi h (with_table t0)) = Ret (0, Spi h' (with_table t)) ∧
    cells h' = cells h ∧ ready h'.
Proof.
  intros Hlen Hwf Hlen0 Hwf0 Hr Hon. pose proof (geometry_table t0) as Hg. pose proof (unit_table t0) as Hu.
  destruct (top_block_run (with_table t0) g h Hg Hu) as (Htop&Hgs&_). cbn [sf_size set_partition] in *.
  pose proof (table_bytes_length t Hwf) as Hbl. rewrite Hlen in Hbl.
  destruct Hcf as [_ _ _ _ _ _ Hfits _].
  unfold __flash_probe_partition_table. erewrite bind_Ret by exact Htop. mstep. cbn [flash partition set_partition].
  destruct (spi_read_run pf (sf_size F - g) (32 * Z.of_nat (length t0)) h (with_table t0)) as (h1&Hrun&Hx&Hr1);
    [done|lia|lia|simpl; lia|done|].
  erewrite bind_Ret by exact Hrun.
  assert (cells h <$> seqZ (sf_size F - g) (32 * Z.of_nat (length t0)) = table_bytes t) as Hd.
  { replace (32 * Z.of_nat (length t0)) with (Z.of_nat (length (table_bytes t))) by lia.
    apply fmap_seqZ_lookup. exact Hon. }
  exists h1. split; [|done]. cbn [fst snd]. rewrite Hd. change (0 <? 0) with false. cbv iota.
  unfold put_table, modify, mbind, M_bind. cbn. rewrite drop_ge, app_nil_r, Hlen0, <-Hlen, table_roundtrip; try done.
  rewrite Hbl, table_bytes_length, Hlen0 by done. done.
Qed.

(** ** The set of partitions *)

(** The C string in an array of [n] bytes. *)
Fixpoint cstr (n : nat) (a : list Z) : list Z :=
  match n, a with S n, x :: a => if x =? 0 then [] else x :: cstr n a | _, _ => [] end.

Definition same_name (name : list Z) (p : flash_part_t) : Prop := cstr 16 name = cstr 16 (p_name p).
Definition clash (p q : flash_part_t) : Prop :=
  p_start p < p_start q + p_size q ∧ p_start q < p_start p + p_size p.

#[local] Instance same_name_dec name p : Decision (same_name name p).
Proof. unfold same_name. apply _. Defined.
#[local] Instance clash_dec p q : Decision (clash p q).
Proof. unfold clash. apply _. Defined.

(** The operations on a set of partitions: what is returned, and the new set. *)
Definition spec_add (p : flash_part_t) (ps : list flash_part_t) : Z * list flash_part_t :=
  if decide (¬ (mem_base F ≤ p_start p < mem_base F + sf_size F)) then (- EINVAL, ps) else
  if decide (p_name p !!! 0%nat = 0 ∨ p_name p !!! 0%nat = 0xff) then (- EINVAL, ps) else
  if decide (Exists (same_name (p_name p)) ps) then (- EEXIST, ps) else
  if decide (p_size p = MAX32) then (- EINVAL, ps) else
  if decide (Exists (clash p) ps) then (- EINVAL, ps) else (0, p :: ps).

Definition spec_rm (name : list Z) (ps : list flash_part_t) : Z * list flash_part_t :=
  match filter (same_name name) ps with
  | [] => (CMD_RET_FAILURE, ps)
  | p :: _ => if Z.testbit (p_flags p) 0 then (CMD_RET_FAILURE, ps)
              else (CMD_RET_SUCCESS, filter (λ q, ¬ same_name name q) ps)
  end.

Inductive table_op := OpAdd (p : flash_part_t) | OpRm (name : list Z).

Definition spec_op (op : table_op) : list flash_part_t → Z * list flash_part_t :=
  match op with OpAdd p => spec_add p | OpRm name => spec_rm name end.

Definition run_op (op : table_op) : M spi Z :=
  match op with OpAdd p => flash_add_partition tab_ptr fuel pf p | OpRm name => do_flash_rmpart tab_ptr fuel pf 2 name end.

(** Partitions are made of erase units, on the flash, and have a name. *)
Record part_ok (p : flash_part_t) : Prop := {
  po_wf : part_wf p;
  po_name : p_name p !!! 0%nat ≠ 0 ∧ p_name p !!! 0%nat ≠ 0xff;
  po_start : mem_base F ≤ p_start p < mem_base F + sf_size F;
  po_end : p_start p + p_size p ≤ mem_base F + sf_size F;
  po_units : (p_start p - mem_base F) mod g = 0 ∧ p_size p mod g = 0;
}.

(** What the code does not check of a partition to be added, and that there is
    room for it; a name of 0xff bytes would match free entries. *)
Definition op_ok (op : table_op) (ps : list flash_part_t) : Prop :=
  match op with
  | OpAdd p => part_wf p ∧ (length ps < N)%nat ∧
      (p_size p ≠ MAX32 → p_start p + p_size p ≤ mem_base F + sf_size F ∧
         (p_start p - mem_base F) mod g = 0 ∧ p_size p mod g = 0)
  | OpRm name => default 0 (head name) ≠ 0xff
  end.

Definition apart (p q : flash_part_t) : Prop := ¬ same_name (p_name p) q ∧ ¬ clash p q.

(** The table [t] and the chip represent the set [ps]. *)
Record holds (t : list flash_part_t) (h : hw) (ps : list flash_part_t) : Prop := {
  ho_table : ∃ l, t = l ++ replicate (N - length l) free_part ∧ (length l ≤ N)%nat ∧ l ≡ₚ ps ∧ StronglySorted starts_le l;
  ho_ok : Forall part_ok ps;
  ho_apart : ForallOrdPairs apart ps;
  ho_ready : ready h;
  ho_mirror : on_chip t h;
}.

Lemma strneq_cstr n a b : strneq n a b = bool_decide (cstr n a = cstr n b).
Proof.
  revert a b. induction n as [|n IH]; intros a b; [done|]. cbn [strneq].
  assert (∀ l, cstr (S n) l = if default 0 (head l) =? 0 then [] else default 0 (head l) :: cstr n (tail l)) as Hc.
  { intros [|x l]; [done|]. simpl. by destruct (x =? 0). }
  rewrite !Hc, IH. generalize (default 0 (head a)), (default 0 (head b)). intros x y.
  destruct (Z.eqb_spec x 0), (Z.eqb_spec y 0), (Z.eqb_spec x y); subst; simpl; try lia;
    try (by rewrite bool_decide_true); try (by rewrite bool_decide_false by congruence).
  apply bool_decide_ext. split; congruence.
Qed.

Lemma apart_sym p q : apart p q → apart q p.
Proof. unfold apart, same_name, clash. intros [Hn Hc]. split; [congruence|lia]. Qed.

Lemma pairs_perm ps qs : ps ≡ₚ qs → ForallOrdPairs apart ps → ForallOrdPairs apart qs.
Proof.
  induction 1 as [|p ps qs Hp IH|p q ps|]; intros Hpairs; [done| | |by auto].
  - inversion_clear Hpairs. constructor; [by rewrite <-Hp|by auto].
  - inversion_clear Hpairs as [|?? Hq Hps]. inversion_clear Hps as [|?? Hp' Hps']. apply Forall_cons in Hq as [Hpq Hq].
    constructor; [constructor; [by apply apart_sym|done]|]. by constructor.
Qed.

Lemma pairs_filter (P : flash_part_t → Prop) `{!∀ p, Decision (P p)} ps :
  ForallOrdPairs apart ps → ForallOrdPairs apart (filter P ps).
Proof.
  induction 1 as [|p ps Hp _ IH]; [constructor|]. rewrite filter_cons. case_decide; [|done].
  constructor; [by apply Forall_filter_sub|done].
Qed.

(** Only one partition has a name. *)
Lemma filter_name name ps p : ForallOrdPairs apart ps → p ∈ ps → same_name name p → filter (same_name name) ps = [p].
Proof.
  induction 1 as [|q ps Hq _ IH]; intros Hin Hn; [by apply not_elem_of_nil in Hin|].
  rewrite Forall_forall in Hq. rewrite filter_cons. apply elem_of_cons in Hin as [->|Hin].
  - rewrite decide_True by done. f_equal. apply filter_none. intros x Hx Hnx. destruct (Hq x Hx) as [Hne _].
    apply Hne. unfold same_name in *. congruence.
  - rewrite decide_False; [by apply IH|]. intros Hnq. destruct (Hq p Hin) as [Hne _].
    apply Hne. unfold same_name in *. congruence.
Qed.

Lemma lookup_from_spec name t n :
  match lookup_from name t n with
  | Some k => ∃ i p, k = (n + i)%nat ∧ t !! i = Some p ∧ same_name name p
  | None => ∀ p, p ∈ t → ¬ same_name name p
  end.
Proof.
  revert n. induction t as [|q t IH]; intros n; cbn [lookup_from]; [by intros p ?%not_elem_of_nil|].
  rewrite strneq_cstr. case_bool_decide as Hq.
  - exists 0%nat, q. split; [lia|]. done.
  - specialize (IH (S n)). destruct (lookup_from name t (S n)) as [k|].
    + destruct IH as (i&p&->&Hi&Hp). exists (S i), p. split; [lia|]. done.
    + intros p [->|Hp]%elem_of_cons; [done|by apply IH].
Qed.

(** A name that is not 0xff does not match the free entries. *)
Lemma free_name name : default 0 (head name) ≠ 0xff → ¬ same_name name free_part.
Proof. unfold same_name. destruct name as [|x name]; [done|]. simpl. intros Hx. by destruct (x =? 0); intros [=]. Qed.

Lemma overlaps_clash p q : part_ok q → word (p_start p) → p_start p + p_size p < 2 ^ 32 → 0 ≤ p_size p →
  overlaps p q = bool_decide (clash p q).
Proof.
  intros Hq Hp He Hz. destruct (po_wf q Hq) as [_ _ ? ? _ _]. pose proof (po_end q Hq). pose proof (cf_end Hcf).
  unfold overlaps, clash, word in *. rewrite !u32_id by lia. rewrite Z.gtb_ltb.
  case_bool_decide as Hc; [apply andb_true_iff|apply andb_false_iff]; rewrite ?Z.ltb_lt, ?Z.ltb_ge; lia.
Qed.

Lemma scan_free_spec p l k i : Forall part_ok l → word (p_start p) → p_start p + p_size p < 2 ^ 32 → 0 ≤ p_size p →
  scan_free p (l ++ replicate (S k) free_part) i =
    Some (if decide (Exists (clash p) l) then inl (- EINVAL) else inr (i + length l)%nat).
Proof.
  intros Hl Hp He Hz. revert i. induction Hl as [|q l Hq Hl IH]; intros i.
  { rewrite decide_False by (intros H; inversion H). simpl. do 2 f_equal. lia. }
  cbn [scan_free app]. rewrite (proj2 (Z.eqb_neq _ 255)) by apply (po_name q Hq).
  rewrite overlaps_clash by done. case_bool_decide as Hc.
  - rewrite decide_True by (by left). done.
  - rewrite IH. f_equal. destruct (decide (Exists (clash p) l)) as [H|H].
    + rewrite decide_True by (by right). done.
    + rewrite decide_False by (by intros [|]%Exists_cons). f_equal. simpl. lia.
Qed.

Lemma part_ok_live p : part_ok p → p_start p < MAX32.
Proof. intros Hp. destruct (po_start p Hp). pose proof (cf_end Hcf). unfold MAX32. lia. Qed.

Lemma live_full l k : Forall part_ok l → live (l ++ replicate k free_part) = l.
Proof.
  intros Hl. unfold live. rewrite filter_app, filter_all, filter_none, app_nil_r; [done| |].
  - intros x [-> _]%elem_of_replicate. simpl. lia.
  - intros x Hx. rewrite Forall_forall in Hl. by apply part_ok_live, Hl.
Qed.

(** A table whose live entries are the set [ps] becomes, sorted and written
    back, the table of that set. *)
Lemma settle t h ps : length t = N → Forall part_wf t → live t ≡ₚ ps → Forall part_ok ps → ForallOrdPairs apart ps →
  ready h →
  ∃ h' r, flash_sync_partition_table tab_ptr fuel pf (Spi h (with_table (flash_sort_partition_table t))) =
      Ret (r, Spi h' (with_table (flash_sort_partition_table t))) ∧
    holds (flash_sort_partition_table t) h' ps.
Proof.
  intros Hlen Hwf Hlive Hok Hap Hr. destruct (sort_spec t) as (l&Hsort&Hl&Hss). rewrite Hlen in Hsort.
  assert (l ≡ₚ ps) as Hps by (by rewrite Hl).
  assert (length l ≤ N)%nat as Hle by (rewrite Hl, <-Hlen; apply live_length).
  assert (Forall part_wf (flash_sort_partition_table t)) as Hwf'.
  { rewrite Hsort. apply Forall_app. split; [|apply Forall_replicate, free_part_wf].
    rewrite Hps. eapply Forall_impl; [exact Hok|]. intros ? Hp. apply Hp. }
  assert (length (flash_sort_partition_table t) = N) as Hlen'.
  { rewrite Hsort, length_app, length_replicate. lia. }
  destruct (sync_run (flash_sort_partition_table t) h Hlen' Hwf' Hr) as (h'&r&Hrun&Hr'&Hon).
  exists h', r. split; [done|]. split; try done. by exists l.
Qed.

Lemma holds_wf t h ps : holds t h ps → length t = N ∧ Forall part_wf t.
Proof.
  intros [(l&->&Hle&Hps&_) Hok _ _ _]. split; [rewrite length_app, length_replicate; lia|].
  apply Forall_app. split; [|apply Forall_replicate, free_part_wf]. rewrite Hps.
  eapply Forall_impl; [exact Hok|]. intros ? Hp. apply Hp.
Qed.

Lemma find_flash t a : spi_flash_find_by_addr (with_table t) a = bool_decide (mem_base F ≤ a < mem_base F + sf_size F).
Proof.
  unfold spi_flash_find_by_addr. cbn. rewrite Z.gtb_ltb.
  case_bool_decide; [apply andb_true_iff|apply andb_false_iff]; rewrite ?Z.leb_le, ?Z.ltb_lt, ?Z.leb_gt, ?Z.ltb_ge; lia.
Qed.

(** The result of an operation: the one of the specification, on a table that
    represents the new set. *)
Definition implements (m : M spi Z) (t : list flash_part_t) (h : hw) (r : Z * list flash_part_t) : Prop :=
  ∃ t' h', m (Spi h (with_table t)) = Ret (r.1, Spi h' (with_table t')) ∧ holds t' h' r.2.

Lemma name_lookup t h ps name : holds t h ps → default 0 (head name) ≠ 0xff →
  match lookup_from name t 0 with
  | Some i => ∃ p, t !! i = Some p ∧ p ∈ ps ∧ same_name name p ∧ ∀ l k, t = l ++ replicate k free_part → (i < length l)%nat
  | None => Forall (λ p, ¬ same_name name p) ps
  end.
Proof.
  intros [(l&->&_&Hps&_) _ _ _ _] Hn. pose proof (lookup_from_spec name (l ++ replicate (N - length l) free_part) 0) as H.
  assert (∀ i p l k, (l ++ replicate k free_part) !! i = Some p → same_name name p → (i < length l)%nat ∧ l !! i = Some p) as Hin.
  { intros i p l' k Hi Hp. apply lookup_app_Some in Hi as [Hi|[_ Hi]]; [split; [by apply lookup_lt_Some in Hi|done]|].
    apply lookup_replicate in Hi as [-> _]. by apply free_name in Hp. }
  destruct (lookup_from name _ 0) as [k|].
  - destruct H as (i&p&->&Hi&Hp). exists p. split; [done|]. destruct (Hin _ _ _ _ Hi Hp) as [_ Hl].
    split; [rewrite <-Hps; by apply list_elem_of_lookup_2 with i|]. split; [done|].
    intros l' k' E. rewrite E in Hi. by apply (Hin _ _ _ _ Hi Hp).
  - rewrite <-Hps. apply Forall_forall. intros p Hp. apply H. apply elem_of_app. by left.
Qed.

Lemma add_run t h ps p : holds t h ps → op_ok (OpAdd p) ps →
  implements (flash_add_partition tab_ptr fuel pf p) t h (spec_add p ps).
Proof.
  intros Hh (Hwf&Hroom&Hfit). unfold implements, flash_add_partition, spec_add. mstep. cbn [flash].
  rewrite find_flash. case_bool_decide as Haddr; cbn [negb].
  2: { rewrite decide_True by done. by exists t, h. }
  rewrite (decide_False (P:=¬ _)) by tauto.
  destruct (decide (_ ∨ _)) as [Hbad|Hname].
  { rewrite (proj2 (orb_true_iff _ _)) by (rewrite !Z.eqb_eq; done). by exists t, h. }
  rewrite (proj2 (orb_false_iff _ _)) by (rewrite !Z.eqb_neq; tauto).
  unfold flash_lookup_partition. mstep. cbn [flash partition set_partition].
  assert (default 0 (head (p_name p)) ≠ 0xff) as Hff.
  { pose proof (pw_name p Hwf). destruct (p_name p) as [|x n]; [done|]. simpl in *. tauto. }
  pose proof (name_lookup t h ps (p_name p) Hh Hff) as Hlook.
  destruct (lookup_from (p_name p) t 0) as [i|].
  { destruct Hlook as (q&_&Hq&Hs&_). rewrite decide_True by (apply Exists_exists; eauto). by exists t, h. }
  rewrite (decide_False (P:=Exists (same_name _) _)).
  2: { apply Forall_not_Exists. exact Hlook. }
  change (u32 (-1)) with MAX32. destruct (decide (p_size p = MAX32)) as [Hmax|Hmax].
  { rewrite (proj2 (Z.eqb_eq _ _)) by done. by exists t, h. }
  rewrite (proj2 (Z.eqb_neq _ _)) by done. destruct (Hfit Hmax) as (Hend&Hu1&Hu2).
  pose proof (cf_end Hcf). destruct (holds_wf t h ps Hh) as [Hlen Hall].
  destruct Hh as [(l&Ht&Hle&Hps&Hss) Hok Hap Hr Hon].
  assert (Forall part_ok l) as Hlok by (by rewrite Hps).
  assert (N - length l = S (N - S (length l)))%nat as Hroom' by (rewrite Hps in *; lia).
  rewrite Ht, Hroom', scan_free_spec by (try apply Hwf; done || lia).
  rewrite (decide_ext (Exists (clash p) l) (Exists (clash p) ps)) by (by rewrite Hps).
  destruct (decide (Exists (clash p) ps)) as [Hc|Hc].
  { mstep. rewrite <-Hroom', <-Ht. exists t, h. split; [done|]. split; try done. by exists l. }
  mstep. rewrite <-Hroom', <-Ht. simpl length. cbn [Nat.add].
  set (t1 := <[length l := p]> t).
  assert (t1 = l ++ p :: replicate (N - S (length l)) free_part) as Ht1.
  { unfold t1. rewrite Ht, Hroom', insert_app_r_alt, Nat.sub_diag by lia. done. }
  assert (part_ok p) as Hpok by (split; [done|tauto|done|done|done]).
  destruct (settle t1 h (p :: ps)) as (h'&r&Hrun&Hh').
  - unfold t1. by rewrite length_insert.
  - unfold t1. by apply Forall_insert.
  - rewrite Ht1. change (p :: replicate ?k free_part) with ([p] ++ replicate k free_part).
    rewrite app_assoc, live_full; [rewrite Hps; by rewrite Permutation_app_comm|].
    apply Forall_app. split; [done|by constructor].
  - by constructor.
  - constructor; [|done]. apply Forall_forall. intros q Hq. split; [rewrite Forall_forall in Hlook; by apply Hlook|].
    intros Hcl. apply Hc, Exists_exists. eauto.
  - done.
  - exists (flash_sort_partition_table t1), h'. split; [|done].
    unfold put_table, modify. erewrite bind_Ret by reflexivity. unfold set_flash. cbn [bus flash].
    change (set_partition ?x (with_table t)) with (with_table x). by erewrite bind_Ret by exact Hrun.
Qed.

(** A partition is made of units, so that it can be erased. *)
Lemma erase_part_run t h p : part_ok p → ready h →
  ∃ h', flash_erase fuel pf (p_start p) (p_size p) 0 (Spi h (with_table t)) = Ret (0, Spi h' (with_table t)) ∧ ready h'.
Proof.
  intros Hp Hr. destruct (po_wf p Hp) as [_ _ _ Hz _ _]. pose proof (po_start p Hp). pose proof (po_end p Hp).
  destruct (po_units p Hp) as [Hu1 Hu2]. pose proof (geometry_table t) as Hg. pose proof (g_size _ Hg) as Hsz. cbn in Hsz.
  unfold word in *. destruct (g_base _ Hg) as [Hb1 Hb2]. cbn in Hb1, Hb2.
  destruct (spi_erase_run fuel pf (p_start p - mem_base F) (p_size p) h (with_table t)) as (r&h1&Hrun&Hr1&_&Hok);
    [done|apply Hcf|lia|lia|simpl; lia|pose proof (cf_fuel Hcf); lia|done|].
  specialize (Hok g (unit_table t) Hu1 Hu2) as ->. exists h1. split; [|done].
  unfold flash_erase. mstep. cbn [flash]. rewrite find_flash, bool_decide_true by lia.
  cbn [mem_base set_partition]. rewrite u32_id by lia. exact Hrun.
Qed.

(** Clearing an entry takes it out of the set. *)
Lemma cleared t h ps i p l k : holds t h ps → t = l ++ replicate k free_part → Forall part_ok l → l ≡ₚ ps →
  (i < length l)%nat → t !! i = Some p → p ∈ ps → ∀ name, same_name name p →
  live (<[i := free_part]> t) ≡ₚ filter (λ q, ¬ same_name name q) ps.
Proof.
  intros Hh Ht Hl Hps Hi Hp Hin name Hn. rewrite Ht, lookup_app_l in Hp by done.
  apply (Permutation_cons_inv (a := p)).
  assert (ps ≡ₚ p :: filter (λ q, ¬ same_name name q) ps) as <-.
  { rewrite <-(filter_app_complement (same_name name) ps) at 1. by rewrite (filter_name name ps p (ho_apart _ _ _ Hh) Hin Hn). }
  rewrite Ht, insert_app_l by done. unfold live. rewrite filter_app, (filter_none _ (replicate k _)), app_nil_r.
  2: { intros x [-> _]%elem_of_replicate. simpl. lia. }
  rewrite <-Hps. rewrite insert_take_drop, filter_app, filter_cons_False by (done || simpl; lia).
  rewrite !filter_all.
  - rewrite <-(take_drop_middle l i p Hp) at 3. by rewrite Permutation_middle.
  - intros x Hx. rewrite Forall_forall in Hl. apply part_ok_live, Hl. rewrite <-(take_drop (S i) l). apply elem_of_app. by right.
  - intros x Hx. rewrite Forall_forall in Hl. apply part_ok_live, Hl. rewrite <-(take_drop i l). apply elem_of_app. by left.
Qed.

Lemma delete_run t h ps i p name : holds t h ps → t !! i = Some p → p ∈ ps → same_name name p →
  (∀ l k, t = l ++ replicate k free_part → (i < length l)%nat) →
  ∃ t' h', flash_delete_partition tab_ptr fuel pf i (Spi h (with_table t)) = Ret ((), Spi h' (with_table t')) ∧
    holds t' h' (filter (λ q, ¬ same_name name q) ps).
Proof.
  intros Hh Hi Hin Hn Hlt. destruct (holds_wf t h ps Hh) as [Hlen Hall].
  pose proof Hh as [(l&Ht&_&Hps&_) Hok Hap Hr _].
  assert (part_ok p) as Hp by (rewrite Forall_forall in Hok; by apply Hok).
  destruct (erase_part_run t h p Hp Hr) as (h1&Hrun1&Hr1).
  destruct (settle (<[i := free_part]> t) h1 (filter (λ q, ¬ same_name name q) ps)) as (h2&r&Hrun2&Hh2).
  - by rewrite length_insert.
  - apply Forall_insert; [done|apply free_part_wf].
  - eapply cleared; try done; [by rewrite Hps|by eapply Hlt].
  - by apply Forall_filter_sub.
  - by apply pairs_filter.
  - done.
  - exists (flash_sort_partition_table (<[i := free_part]> t)), h2. split; [|done].
    unfold flash_delete_partition. mstep. cbn [flash partition set_partition]. rewrite Hi. mstep.
    erewrite bind_Ret by exact Hrun1. change (negb (0 =? 0)) with false. cbv iota.
    unfold put_table, modify. erewrite bind_Ret by reflexivity. unfold set_flash. cbn [bus flash].
    change (set_partition ?x (with_table t)) with (with_table x). by erewrite bind_Ret by exact Hrun2.
Qed.

Lemma rm_run t h ps name : holds t h ps → op_ok (OpRm name) ps →
  implements (do_flash_rmpart tab_ptr fuel pf 2 name) t h (spec_rm name ps).
Proof.
  intros Hh Hff. unfold implements, do_flash_rmpart, spec_rm. change (negb (2 =? 2)) with false. cbv iota.
  unfold flash_lookup_partition. mstep. cbn [flash partition set_partition].
  pose proof (name_lookup t h ps name Hh Hff) as Hlook. destruct (lookup_from name t 0) as [i|] eqn:Ei.
  2: { rewrite filter_none by (rewrite Forall_forall in Hlook; exact Hlook). by exists t, h. }
  destruct Hlook as (p&Hi&Hin&Hn&Hlt). rewrite (filter_name name ps p (ho_apart _ _ _ Hh) Hin Hn).
  mstep. cbn [flash partition set_partition]. rewrite Hi. mstep. unfold P_SYSTEM. rewrite land_BIT_zero, negb_involutive by lia.
  destruct (Z.testbit (p_flags p) 0); [by exists t, h|].
  destruct (delete_run t h ps i p name) as (t'&h'&Hrun&Hh'); [done..|].
  exists t', h'. split; [|done]. by erewrite bind_Ret by exact Hrun.
Qed.

(** ** Sequences of operations *)

Fixpoint run_ops (ops : list table_op) : M spi (list Z) :=
  match ops with
  | [] => mret []
  | op :: ops => r ← run_op op; rs ← run_ops ops; mret (r :: rs)
  end.

Fixpoint spec_ops (ops : list table_op) (ps : list flash_part_t) : list Z * list flash_part_t :=
  match ops with
  | [] => ([], ps)
  | op :: ops => let r := spec_op op ps in let rs := spec_ops ops r.2 in (r.1 :: rs.1, rs.2)
  end.

Fixpoint ops_ok (ops : list table_op) (ps : list flash_part_t) : Prop :=
  match ops with [] => True | op :: ops => op_ok op ps ∧ ops_ok ops (spec_op op ps).2 end.

Lemma run_op_spec op t h ps : holds t h ps → op_ok op ps → implements (run_op op) t h (spec_op op ps).
Proof. destruct op; [apply add_run|apply rm_run]. Qed.

Lemma run_ops_spec ops t h ps : holds t h ps → ops_ok ops ps →
  ∃ t' h', run_ops ops (Spi h (with_table t)) = Ret ((spec_ops ops ps).1, Spi h' (with_table t')) ∧
    holds t' h' (spec_ops ops ps).2.
Proof.
  revert t h ps. induction ops as [|op ops IH]; intros t h ps Hh Hok; [by exists t, h|].
  destruct Hok as [Hop Hok]. destruct (run_op_spec op t h ps Hh Hop) as (t1&h1&Hrun1&Hh1).
  destruct (IH t1 h1 (spec_op op ps).2 Hh1 Hok) as (t2&h2&Hrun2&Hh2).
  exists t2, h2. split; [|done]. cbn [run_ops]. erewrite bind_Ret by exact Hrun1. by erewrite bind_Ret by exact Hrun2.
Qed.

End Mirror.

(** ** Properties *)

(** C40: the partition table is a set of partitions with different names that
    do not overlap, and survives a restart.  Adding partitions with
    flash_add_partition and removing them with the command rmpart, in any order,
    with the overlap and name checks, the sorting with a marker value and the
    write-back to the top erase block, returns what the set returns and leaves a
    table that is sorted, has its free entries at the end and represents the new
    set; and when the table in RAM is lost, probing the flash reads back exactly
    the table that was left.  The code leaves it to its callers ([op_ok]), and
    the theorem assumes, that a partition is added only while there is a free
    entry (otherwise the search leaves the array), that it ends on the flash and
    consists of whole erase units (otherwise it could not be removed again, and
    rmpart would report success), unless it is refused for its size; and that
    rmpart is not given a name that starts with the byte 0xff, which would match
    the free entries.  The table fits in one erase unit, and the flash ends
    below 4 GB. *)
Theorem partition_table_refines tab_ptr g fuel pf N F ops t h ps :
  config tab_ptr g fuel pf N F → holds g N F t h ps → ops_ok g N F ops ps →
  ∃ t' h', run_ops tab_ptr fuel pf ops (Spi h (set_partition t F)) =
      Ret ((spec_ops F ops ps).1, Spi h' (set_partition t' F)) ∧
    holds g N F t' h' (spec_ops F ops ps).2 ∧
    ∀ t0, length t0 = N → Forall part_wf t0 →
      ∃ h'', __flash_probe_partition_table pf (Spi h' (set_partition t0 F)) = Ret (0, Spi h'' (set_partition t' F)).
Proof.
  intros Hcf Hh Hok. destruct (run_ops_spec tab_ptr g fuel pf N F Hcf ops t h ps Hh Hok) as (t'&h'&Hrun&Hh').
  exists t', h'. split; [done|]. split; [done|]. intros t0 Hlen0 Hwf0.
  destruct (holds_wf g N F t' h' _ Hh') as [Hlen Hwf].
  destruct (probe_run tab_ptr g fuel pf N F Hcf t' t0 h') as (h''&Hp&_); [done..|apply Hh'|apply Hh'|by exists h''].
Qed.

End Chip.

(** ** Witness *)

Module Demo.
Import SpiFlashTheorems.Demo.

Definition many : nat := N.to_nat 0x400001.

Lemma dev_config : config 0x10000000 0x1000 many 200 8 dev.
Proof.
  split; [exact dev_geometry|exact dev_polls|exact dev_unit|done|by left|done|lia|].
  unfold many. rewrite N_nat_Z. done.
Qed.

Definition part_named (c start size flags : Z) : flash_part_t :=
  Part (c :: replicate 15 0) start size size flags.

Lemma part_named_wf c start size flags : 0 ≤ c < 256 → word start → word size → word flags →
  part_wf (part_named c start size flags).
Proof. intros. split; [done| |done..]. constructor; [done|]. apply Forall_replicate. lia. Qed.

Definition ops : list table_op :=
  [OpAdd (part_named 66 0x80100000 0x2000 0); OpAdd (part_named 65 0x80080000 0x1000 0);
   OpAdd (part_named 67 0x80101000 0x1000 0); OpRm [66]; OpRm [66]].

Lemma empty_holds : holds 0x1000 8 dev (replicate 8 free_part) blank [].
Proof.
  split; [|constructor|constructor|unfold ready; simpl; lia|].
  - exists []. split; [done|]. split; [simpl; lia|]. split; [done|constructor].
  - intros x Hx. assert (table_bytes (replicate 8 free_part) = replicate 256 0xff) as E by (vm_compute; reflexivity).
    rewrite E, length_replicate in *. rewrite lookup_total_replicate_2 by lia. done.
Qed.

Lemma partition_table_refines_witness :
  ∃ t' h', run_ops 0x10000000 many 200 ops (Spi blank (set_partition (replicate 8 free_part) dev)) =
      Ret ([0; 0; -22; 0; 1], Spi h' (set_partition t' dev)) ∧
    holds 0x1000 8 dev t' h' [part_named 65 0x80080000 0x1000 0].
Proof.
  destruct (partition_table_refines 0x10000000 0x1000 many 200 8 dev ops (replicate 8 free_part) blank [])
    as (t'&h'&Hrun&Hh&_).
  - exact dev_config.
  - exact empty_holds.
  - unfold ops. cbn [ops_ok op_ok]. split_and!; try done; try (apply part_named_wf; unfold word; lia).
    all: try (apply Nat.ltb_lt; vm_compute; reflexivity).
    all: intros _; split_and!; done.
  - exists t', h'. split; [exact Hrun|exact Hh].
Defined.

End Demo.
